(* ===== verification/_CoqProject ===== *)
-Q . S2P
Prelude.v
GoStd.v
GoText.v
Digits.v
GoTime.v
Externals.v
Decimals.v
Instances.v
EconomicId.v
EconomicIdProofs.v
TextProofs.v
Account.v
AccountProofs.v
Instrument.v
Transaction.v
SourceEvent.v
TransactionProofs.v
Normalization.v
NormalizationProofs.v
Projection.v
ProjectionPayload.v
ProjectionFifo.v
ProjectionProofs.v
ProjectionFinalize.v
ProjectionSafety.v
ProjectionTheorems.v
JsonReader.v
JsonInstances.v
Checkpoint.v
NormalizedReplay.v
Snapshot.v
Lifecycle.v
LifecycleAggregate.v
LifecycleProofs.v
LifecycleTheorems.v
LifecycleReplay.v
LifecycleSafety.v
SnapshotProofs.v
SimulationPolicy.v
SimulationFill.v
SimulationVenue.v
SimulationOutcome.v
SimulationPolicyProofs.v
SimulationProofs.v
SimulationTheorems.v
SimulationSafety.v
SimulationOutcomeProofs.v
CapitalPolicy.v
CapitalState.v
CapitalAssessment.v
CapitalMatrix.v
CapitalPolicyProofs.v
CapitalStateProofs.v
CapitalAssessmentProofs.v
CapitalMatrixProofs.v
FinancialJobs.v
FinancialJobsProofs.v
LeaseStore.v
LeaseStoreProofs.v
LeaseStoreTheorems.v
SchedulerRunner.v
SchedulerRunnerProofs.v
PredictionReplay.v
PredictionSweep.v
PredictionReplayProofs.v
PredictionReplayTheorems.v
CompleteSet.v
CompleteSetProofs.v
CompleteSetRoundTrip.v
MakerQuote.v
MakerQuoteProofs.v
Scenario.v
Witnesses.v
SimulationWitnesses.v
SchedulerWitnesses.v
PredictionWitnesses.v
CapitalWitnesses.v
Findings.v
