(* ===== verification/Prelude.v ===== *)
(** * Verification of the economic core of augr

    augr is a Go system that trades paper and live accounts on several venues.
    Its economic record is kept in exact decimals by a small group of packages,
    apart from the floating-point research code: reference data and accounts, a
    double-entry ledger fed by normalized source events, a portfolio projection
    replayed from that ledger, quote snapshots, the order lifecycle, the
    simulated venue that executes an order against a quote, the capital policy
    that admits a proposal against a projection, the fenced scheduler that runs
    financial jobs once, and the replay of prediction-market books with the
    complete sets and maker quotes evaluated on it. This library translates those packages into Rocq
    definitions and proves what makes them correct.

    ** The program and the files that model it

    - [internal/economicid] hashes a domain and its components into a UUID:
      EconomicId.v, EconomicIdProofs.v.
    - [internal/domain/account.go], accounts, capital flows and the boundary
      between promotion evidence and synthetic stress: Account.v,
      AccountProofs.v.
    - [internal/instrument], instruments, aliases, venue contracts, corporate
      actions and option terms: Instrument.v.
    - [internal/ledger/transaction.go], double-entry transactions:
      Transaction.v, TransactionProofs.v.
    - [internal/ledger/economic_source_event.go] and [mark.go]: SourceEvent.v.
    - [internal/ledger/economic_normalization.go] turns a source event into
      postings and rebuilds them to check what was stored: Normalization.v,
      NormalizationProofs.v; NormalizedReplay.v joins it to the projector.
    - [internal/ledger/projection.go] replays the ledger into FIFO lots,
      matches, positions and totals and serializes them: Projection.v (records,
      mechanics, replay, finalize), ProjectionPayload.v (canonical JSON,
      checksums, [BuildPortfolioProjection]), Checkpoint.v (validation of a
      stored checkpoint, decoded from its bytes through JsonReader.v). Proofs: ProjectionFifo.v (one movement),
      ProjectionProofs.v (the replay), ProjectionFinalize.v (marks, positions,
      totals), ProjectionSafety.v (no panic), ProjectionTheorems.v (the
      properties).
    - [internal/marketdata/snapshot.go], quote observations and the checks
      before an execution: Snapshot.v, SnapshotProofs.v.
    - [internal/execution/lifecycle], intents, orders, fills and the aggregate
      they form: Lifecycle.v (facts and validators), LifecycleAggregate.v
      (commands, [ApplyTransition], [Replay]), LifecycleProofs.v (the invariant
      and its preservation by every transition), LifecycleTheorems.v
      (reachability, commands), LifecycleReplay.v (replay of numbered
      histories), LifecycleSafety.v (no panic).
    - [internal/simulation], the deterministic venue of backtests and internal
      paper trading: SimulationPolicy.v (the content-addressed contract),
      SimulationFill.v (evidence, source identities, one fill),
      SimulationVenue.v ([Evaluate] and what it calls), SimulationOutcome.v
      (outcomes, [PersistResult]). Proofs: SimulationPolicyProofs.v,
      SimulationProofs.v (every path through an evaluation as a rule),
      SimulationTheorems.v (runs, depth, time in force), SimulationSafety.v
      (classified errors), SimulationOutcomeProofs.v (totals, storage).
    - [internal/capital], the reviewed capital tiers and margin profiles:
      CapitalPolicy.v (policy, artifact, binding), CapitalState.v (the exposure
      and maintenance of one account, derived from a projection),
      CapitalAssessment.v (the admission decision), CapitalMatrix.v (one
      scenario over all tiers and the stress row), each with its Proofs file.
    - [internal/financialscheduler], scheduled financial jobs:
      FinancialJobs.v ([model.go] and [catalog.go]: occurrences, effects, the
      job catalog), SchedulerRunner.v ([runner.go]: [Run] and its renewal
      goroutine as interleaved steps, and any number of runs over one store).
      Their store is [internal/repository/postgres/financial_scheduler.go] with
      the triggers of migration 98: LeaseStore.v. Proofs: FinancialJobsProofs.v,
      LeaseStoreProofs.v (what each transaction does), LeaseStoreTheorems.v
      (histories, refinement, fencing, claims, recovery) and
      SchedulerRunnerProofs.v (mutual exclusion, one completion, termination).
    - [internal/predictionreplay], order books and fee policies as they became
      available and the fills of hypothetical orders against them:
      PredictionReplay.v ([NewRecorder] and what it calls, [BookAt],
      [MakerFeeAt], [FromCanonical]). Proofs: PredictionSweep.v (one sweep of a
      book, level by level), PredictionReplayProofs.v (the selection loops as
      maxima of an order, accepted books and fees), PredictionReplayTheorems.v.
    - [internal/completeset], buying every outcome of a market: CompleteSet.v,
      CompleteSetProofs.v (the scenarios are the nonempty proper subsets, the
      guarantees of a qualified candidate), CompleteSetRoundTrip.v.
    - [internal/makerquote], resting orders behind a queue: MakerQuote.v,
      MakerQuoteProofs.v. Both read the recorder through its queries.

    Prelude.v holds the outcome monad, inversion and automation tactics and sums
    of rationals; GoStd.v the parts of the Go standard library the code uses
    (hexadecimal, SHA-256, time, sorting), GoText.v and TextProofs.v its text
    functions and the texts they leave alone, Digits.v and GoTime.v the fixed
    microsecond layout of [time.Format] and [time.Parse] with their round trip
    between the years 1 and 9999; Externals.v the third-party code as
    classes of operations with their documented laws, JsonReader.v how a struct
    is decoded from the members of an object, and Instances.v and JsonInstances.v
    concrete instances of them; Decimals.v the NUMERIC(38,12) range. Scenario.v builds
    one trading session with the program's own constructors, Witnesses.v,
    SimulationWitnesses.v, SchedulerWitnesses.v, PredictionWitnesses.v and
    CapitalWitnesses.v apply the properties to it and to the scenes they add, and Findings.v shows three behaviours that differ from the
    neighbouring code or from a comment.

    ** How the code is read

    A Go call that returns [(T, error)] is an [outcome T]: a value, an error or a
    panic. [nil] pointers are [None]; [*p] is [deref], which panics on [None].
    Errors carry their format string; the interpolated arguments are dropped.
    String enumerations are inductive types whose last constructor is any other
    text. [uuid.New()] and [time.Now()] are arguments ([fresh], [now]). Clones
    are identities, since values are immutable here. A [range] over a map is
    taken in listing order: only which of several errors comes first can depend
    on it. Machine integers stay far from their bounds in these packages (counts
    of rows, nanoseconds since year 1), so they are [Z] or [nat]; subtraction of
    times saturates at the bounds of [time.Duration] as in Go, and the counters
    of a lease wrap around at 64 bits ([int64_succ]).

    A database transaction is one step on the tables, since the row of the
    occurrence is locked before its log is read. The server is outside the
    repository: each call takes a [connection] that says whether the transaction
    begins, which statements fail, what the clock shows at each reading, and how
    the commit ends, with a reply that may be lost after the commit. Goroutines
    are program counters of one [run]; a step is the code between two
    synchronisations (mutex, channel, context, store call), and the job is any
    number of claims followed by a return or a recovered panic.

    Decimals ([shopspring/decimal]), UUID text, [encoding/json] and Unicode case
    mapping are not in the repository: they are the parameters [Externals], with
    [ExternalLaws] stating documented behaviour (exact addition and
    multiplication, rounding to the nearest, quotients to 16 digits, injective
    UUID text, JSON reading back what it wrote). The payload of a checkpoint is
    decoded member by member (JsonReader.v); for the other structs decoding is an
    argument of the functions that do it. The stores of the
    simulator are interfaces in the source: records of operations on a store
    state, with the class [LifecycleStore] for what a repository promises.

    ** What the theorems show

    - Accounting: totals of a projection are sums of ledger postings and the
      profit equation holds and cannot fail; inventory is conserved; movements
      close lots first in first out and allocate cash exactly, with pro-rata
      splits within 1e-12.
    - Determinism: no look-ahead, independence of the order of transactions,
      mechanics and marks, retries that compare equal, unambiguous identities,
      checkpoints that load again and only with the columns they were written
      with.
    - Normalization: balanced storable postings for every event kind, cash legs
      equal to the economics, fills that the projector accepts.
    - Lifecycle: the invariant of reachable aggregates, bounded fills, terminal
      states, a single order per intent, immutable facts, commands that are
      accepted after reload, and replay as the inverse of live execution.
    - Quotes: ordered books, and executable quotes only.
    - Simulation: an evaluation is a run of the lifecycle; fills come from the
      displayed depth within limit, lot, participation and latency, greedily in
      price priority, and never twice from one level; the time in force is
      honoured; errors are classified; fees are within half a unit; outcomes
      total exactly; a store with the promised laws accepts every result.
    - Capital: the policy is a closed contract; a state is the exact exposure of
      its projection; an assessment decides what a specification on exact
      rationals decides, for every valid input up to 1e24; the reported buying
      power is the exact limit; the stress row of a matrix cannot reach scored
      evidence; artifacts and states survive storage.
    - Scheduling: the tables refine an abstract lease (free, held, finished)
      under every failure of a connection; lease logs are well-formed histories;
      a lease that was superseded has no effect for ever; an effect is claimed
      once, under an unexpired lease; an expired lease can be taken over; over
      any number of concurrent runs at most one reports completion, and what it
      reports is recorded; a run takes a bounded number of steps between ticks
      and claims and can always return; the catalog classifies exactly the
      listed jobs.
    - Prediction markets: the amounts of a replay are exact and its fill the best
      the book allows; only evidence available at the decision matters, and the
      queries agree with the replays; a qualified complete set is covered
      whichever purchases fail, a qualified quote keeps its inventory limit in
      every scenario; complete sets are restored from their bytes, and maker
      quotes without scenarios provably are not.
    - Robustness: the projection, the lifecycle and the simulator never panic.

    ** Fuel and bounds

    Digits of a number, trimming of white space, SHA-256 blocks and the decimal
    instance use fuel equal to a length or a logarithm, which each of their
    steps decreases; nothing else needs fuel. Loops over rows are structural.
    The rank of a run (at most nine) bounds its steps between ticks and claims.

    ** Not modelled

    The SQL repositories other than the lease store, HTTP, brokers and data
    providers, language-model agents, cron wiring and command-line programs (I/O
    around these packages), and the research and backtesting code
    (floating-point statistics), with the legacy simulator
    ([internal/simulation/legacy_*.go], float64). The dataset
    manifest of a recorder is read through its accessors. Capacity research, copy
    trading and the registries of strategies, promotions and evidence are next
    in the plan.
    CHECK constraints that relate columns of one row are among the reasons a
    statement may fail; [Session.Lease] only reads under the mutex.
    [AssessmentError.Error], [AccountCapitalSummary] and the clone helpers have
    no behaviour of their own. *)

From stdpp Require Export base list gmap strings sorting sets.
From Stdlib Require Export QArith Qabs Qround.
From Stdlib Require Export Lqa Lia.

Set Default Goal Selector "!".

(** ** Outcomes of a Go call

    A Go function that returns [(T, error)] either returns a value, returns an
    error, or panics. Error values carry the format string of the [fmt.Errorf]
    call that built them; the interpolated arguments are left out, and a [%w]
    verb is the [Wrapf] constructor. [Coded] is a typed error that carries a
    stable code next to its text, [CodedCause] one that also wraps its cause. *)
Inductive error :=
  | Errorf (format : string)
  | Wrapf (format : string) (inner : error)
  | Coded (code detail : string)
  | CodedCause (code detail : string) (cause : error).

(** [ExplicitPanic] is a call of [panic]. *)
Inductive panic := NilDereference | DivisionByZero | IndexOutOfRange | ExplicitPanic.

Inductive outcome (A : Type) :=
  | Ok (value : A)
  | Err (e : error)
  | Panic (p : panic).
Arguments Ok {A} value.
Arguments Err {A} e.
Arguments Panic {A} p.

#[global] Instance outcome_ret : MRet outcome := @Ok.
#[global] Instance outcome_bind : MBind outcome := fun A B f m =>
  match m with Ok a => f a | Err e => Err e | Panic p => Panic p end.

(** [if b { return fmt.Errorf(msg) }] *)
Definition reject (b : bool) (msg : string) : outcome unit :=
  if b then Err (Errorf msg) else Ok tt.

(** [if err != nil { return fmt.Errorf(msg + "%w", err) }] *)
Definition wrap {A} (msg : string) (m : outcome A) : outcome A :=
  match m with Ok a => Ok a | Err e => Err (Wrapf msg e) | Panic p => Panic p end.

(** [*p] *)
Definition deref {A} (o : option A) : outcome A :=
  match o with Some a => Ok a | None => Panic NilDereference end.

(** A loop that stops at the first error. *)
Fixpoint for_each {A} (f : A -> outcome unit) (l : list A) : outcome unit :=
  match l with
  | [] => Ok tt
  | x :: xs => f x ;; for_each f xs
  end.

Definition is_panic {A} (m : outcome A) : Prop :=
  match m with Panic _ => True | _ => False end.

(** Nil-safe conditions on pointers: [p != nil && f( *p)] and [p == nil]. *)
Definition some_and {A} (f : A -> bool) (o : option A) : bool :=
  match o with Some a => f a | None => false end.

Definition is_nil {A} (o : option A) : bool :=
  match o with Some _ => false | None => true end.

Declare Scope go_scope.
Delimit Scope go_scope with go.
Notation "a ==? b" := (bool_decide (a = b)) (at level 70, no associativity) : go_scope.
Notation "a !=? b" := (negb (bool_decide (a = b))) (at level 70, no associativity) : go_scope.

Lemma eq_self {A} (x : A) `{Decision (x = x)} : bool_decide (x = x) = true.
Proof. by apply bool_decide_eq_true_2. Qed.

(** ** Inversion of outcomes *)

Lemma bind_Ok {A B} (m : outcome A) (f : A -> outcome B) b :
  m ≫= f = Ok b <-> exists a, m = Ok a /\ f a = Ok b.
Proof.
  split; [|intros (a & -> & H); exact H].
  destruct m; simpl; intros; simplify_eq; eauto.
Qed.

Lemma Ok_inj {A} (a b : A) : Ok a = Ok b -> a = b.
Proof. by intros [=]. Qed.

Lemma reject_Ok b msg u : reject b msg = Ok u <-> b = false.
Proof. destruct b, u; simpl; split; congruence. Qed.

Lemma reject_pass {A} b msg (k : unit -> outcome A) r : b = false -> k tt = r -> reject b msg ≫= k = r.
Proof. by intros ->. Qed.

Lemma bind_pass {A B} (m : outcome A) a (k : A -> outcome B) r : m = Ok a -> k a = r -> m ≫= k = r.
Proof. by intros ->. Qed.

Lemma wrap_Ok {A} msg (m : outcome A) a : wrap msg m = Ok a <-> m = Ok a.
Proof. destruct m; simpl; split; congruence. Qed.

Lemma deref_Ok {A} (o : option A) a : deref o = Ok a <-> o = Some a.
Proof. destruct o; simpl; split; congruence. Qed.

Lemma for_each_Ok {A} (f : A -> outcome unit) l u :
  for_each f l = Ok u <-> Forall (fun x => f x = Ok tt) l.
Proof.
  destruct u. induction l as [|x l IH]; simpl; [by split|].
  rewrite bind_Ok, Forall_cons. split.
  - intros ([] & Hx & Hl). by rewrite <- IH.
  - intros [Hx Hl]. exists tt. by rewrite IH.
Qed.

Lemma is_nil_false {A} (o : option A) : is_nil o = false <-> exists a, o = Some a.
Proof. destruct o; simpl; naive_solver. Qed.

Lemma is_nil_true {A} (o : option A) : is_nil o = true <-> o = None.
Proof. destruct o; simpl; naive_solver. Qed.

(** [inv_ok H] turns [H : x ← m; k = Ok r] into its successful steps; boolean
    guards come out as equations on [false]. *)
Ltac inv_ok_step H :=
  lazymatch type of H with
  | _ ≫= _ = Ok _ =>
      let H1 := fresh "H" in let x := fresh "x" in
      apply bind_Ok in H; destruct H as (x & H1 & H); cbv beta in H; inv_ok_step H1
  | reject _ _ = Ok ?u => apply reject_Ok in H; try (is_var u; destruct u)
  | wrap _ _ = Ok _ => apply wrap_Ok in H; inv_ok_step H
  | deref _ = Ok _ => apply deref_Ok in H
  | Ok _ = Ok _ => apply Ok_inj in H
  | Err _ = Ok _ => discriminate H
  | Panic _ = Ok _ => discriminate H
  | mret _ = Ok _ => unfold mret, outcome_ret in H; apply Ok_inj in H
  | _ => idtac
  end.
Ltac inv_ok H :=
  repeat (progress inv_ok_step H; try lazymatch type of H with
                                       | _ ≫= _ = Ok _ => idtac
                                       end).

Ltac split_bools :=
  repeat match goal with
  | H : (_ || _) = false |- _ => apply orb_false_iff in H; destruct H
  | H : (_ && _) = true |- _ => apply andb_true_iff in H; destruct H
  | H : negb _ = false |- _ => apply negb_false_iff in H
  | H : negb _ = true |- _ => apply negb_true_iff in H
  | H : bool_decide _ = true |- _ => apply bool_decide_eq_true in H
  | H : bool_decide _ = false |- _ => apply bool_decide_eq_false in H
  | H : is_nil _ = false |- _ => apply is_nil_false in H; destruct H as [? H]
  | H : is_nil _ = true |- _ => apply is_nil_true in H
  end.

(** ** Calls that cannot panic *)

Definition safe {A} (m : outcome A) : Prop := ~ is_panic m.

Create HintDb safe.

Lemma safe_Ok {A} (a : A) : safe (Ok a).
Proof. intros []. Qed.
Lemma safe_Err {A} e : safe (@Err A e).
Proof. intros []. Qed.
Lemma safe_reject b msg : safe (reject b msg).
Proof. by destruct b; intros []. Qed.
Lemma safe_wrap {A} msg (m : outcome A) : safe m -> safe (wrap msg m).
Proof. by destruct m. Qed.
Lemma safe_bind {A B} (m : outcome A) (f : A -> outcome B) :
  safe m -> (forall a, m = Ok a -> safe (f a)) -> safe (m ≫= f).
Proof. unfold safe. destruct m; simpl; intros Hm Hf; [by apply Hf|done|done]. Qed.
Lemma safe_deref {A} (o : option A) : is_Some o -> safe (deref o).
Proof. intros [a ->]. apply safe_Ok. Qed.
Lemma safe_for_each {A} (f : A -> outcome unit) l : (forall x, x ∈ l -> safe (f x)) -> safe (for_each f l).
Proof.
  induction l as [|x l IH]; simpl; intros H; [apply safe_Ok|].
  apply safe_bind; [apply H; set_solver|]. intros _ _. apply IH. set_solver.
Qed.
Lemma safe_is_Some_guard {A} (o : option A) msg (u : unit) : reject (is_nil o) msg = Ok u -> is_Some o.
Proof. rewrite reject_Ok. destruct o; [eauto|done]. Qed.

#[export] Hint Resolve safe_Ok safe_Err safe_reject safe_wrap : safe.

(** Splits a straight-line body into its calls; branches are case analyses. *)
Ltac safe_step :=
  lazymatch goal with
  | |- safe (_ ≫= _) => apply safe_bind; [|intros ? ?]
  | |- safe (if ?b then _ else _) => destruct b eqn:?
  | |- safe (match ?x with _ => _ end) => destruct x eqn:?
  | |- safe (let _ := _ in _) => cbv zeta
  | |- safe (for_each _ _) => apply safe_for_each; intros
  | |- safe _ => solve [auto with safe]
  end.
Ltac solve_safe := repeat (safe_step; cbv beta).

(** ** Filters that keep all or nothing *)

Lemma filter_all {A} (P : A -> Prop) `{forall x, base.Decision (P x)} (l : list A) : (forall x, x ∈ l -> P x) -> filter P l = l.
Proof.
  induction l as [|x l IH]; intros Hl; [done|]. rewrite filter_cons_True by (apply Hl; by left).
  f_equal. apply IH. intros. apply Hl. by right.
Qed.

Lemma filter_none {A} (P : A -> Prop) `{!forall x, Decision (P x)} (l : list A) : (forall x, x ∈ l -> ~ P x) -> filter P l = [].
Proof.
  induction l as [|x l IH]; intros Hl; [done|]. rewrite filter_cons_False by (apply Hl; by left). apply IH. set_solver.
Qed.

(** ** Sums of rationals over lists *)

Fixpoint sumQ {A} (f : A -> Q) (l : list A) : Q :=
  match l with
  | [] => 0%Q
  | x :: xs => (f x + sumQ f xs)%Q
  end.

Section sums.
Context {A : Type}.
Implicit Types (f g : A -> Q) (l : list A).
Local Open Scope Q_scope.

Lemma sumQ_app f l k : sumQ f (l ++ k) == sumQ f l + sumQ f k.
Proof. induction l as [|x l IH]; simpl; [ring|]. rewrite IH. ring. Qed.

Lemma sumQ_ext f g l : (forall x, x ∈ l -> f x == g x) -> sumQ f l == sumQ g l.
Proof.
  induction l as [|x l IH]; simpl; intros H; [reflexivity|].
  rewrite (H x), IH; [reflexivity| |]; set_solver.
Qed.

Lemma sumQ_perm f l k : l ≡ₚ k -> sumQ f l == sumQ f k.
Proof.
  induction 1 as [|x l k _ IH|x y l|l k m _ IH1 _ IH2]; simpl.
  - reflexivity.
  - rewrite IH. reflexivity.
  - ring.
  - rewrite IH1. exact IH2.
Qed.

Lemma sumQ_nonneg f l : (forall x, x ∈ l -> 0 <= f x) -> 0 <= sumQ f l.
Proof.
  induction l as [|x l IH]; simpl; intros H; [lra|].
  assert (0 <= f x) by (apply H; set_solver).
  assert (0 <= sumQ f l) by (apply IH; set_solver). lra.
Qed.

Lemma sumQ_zero f l : (forall x, x ∈ l -> f x == 0) -> sumQ f l == 0.
Proof.
  intros H. rewrite (sumQ_ext f (fun _ => 0)); [|exact H].
  induction l; simpl; [lra|]. rewrite IHl; [lra|]. set_solver.
Qed.

Lemma sumQ_nonneg_zero f l : (forall x, x ∈ l -> 0 <= f x) -> sumQ f l == 0 -> forall x, x ∈ l -> f x == 0.
Proof.
  induction l as [|y l IH]; simpl; intros Hpos Hsum x Hx; [by apply elem_of_nil in Hx|].
  assert (0 <= f y) by (apply Hpos; set_solver).
  assert (0 <= sumQ f l) by (apply sumQ_nonneg; intros; apply Hpos; set_solver).
  apply elem_of_cons in Hx as [-> |Hx]; [lra|].
  apply IH; [intros; apply Hpos; set_solver|lra|done].
Qed.

Lemma sumQ_nonpos_zero f l : (forall x, x ∈ l -> f x <= 0) -> sumQ f l == 0 -> forall x, x ∈ l -> f x == 0.
Proof.
  intros Hneg Hsum x Hx. enough (- f x == 0) by lra.
  apply (sumQ_nonneg_zero (fun y => - f y) l); [intros y Hy; specialize (Hneg y Hy); lra| |done].
  assert (H : forall k, sumQ (fun y => - f y) k == - sumQ f k).
  { induction k as [|y k IH]; simpl; [lra|]. rewrite IH. lra. }
  rewrite H. lra.
Qed.

Lemma sumQ_plus f g l : sumQ (fun x => f x + g x) l == sumQ f l + sumQ g l.
Proof. induction l as [|x l IH]; simpl; [lra|]. rewrite IH. lra. Qed.

End sums.

Lemma sumQ_map {A B} (f : B -> Q) (g : A -> B) l :
  (sumQ f (g <$> l) == sumQ (fun x => f (g x)) l)%Q.
Proof. induction l as [|x l IH]; simpl; [reflexivity|]. rewrite IH. reflexivity. Qed.

(** A sum over [l] grouped by a key is the sum over [l], when the keys listed
    are distinct and every element has one of them. *)
Lemma sumQ_grouped {A K} `{EqDecision K} (key : A -> K) (f : A -> Q) (keys : list K) l :
  NoDup keys -> (forall x, x ∈ l -> key x ∈ keys) ->
  (sumQ (fun k => sumQ (fun x => if bool_decide (key x = k) then f x else 0) l) keys == sumQ f l)%Q.
Proof.
  intros Hnd. induction l as [|x l IH]; simpl; intros Hkeys.
  { by apply sumQ_zero. }
  rewrite (sumQ_plus (fun k => if bool_decide (key x = k) then f x else 0)%Q), IH by set_solver.
  assert (Hx : key x ∈ keys) by set_solver. clear Hkeys IH. apply Qplus_inj_r.
  induction Hnd as [|k ks Hk Hnd IH]; [by apply elem_of_nil in Hx|]. simpl. case_bool_decide as Hd.
  - subst k. rewrite sumQ_zero; [lra|]. intros k Hin. rewrite bool_decide_eq_false_2; [reflexivity|set_solver].
  - rewrite IH; [lra|set_solver].
Qed.
