(* ===== verification/GoStd.v ===== *)
(** * The parts of Go's language and standard library the repository relies on

    Strings are byte sequences ([String.string] with 8-bit [ascii]), as in Go;
    [json.RawMessage] and [[]byte] use the same type. Modelled here:
    [strings.TrimSpace], [strings.ToUpper]/[ToLower] (the case tables for
    non-ASCII runes are a parameter), [strings.HasPrefix], [strconv.Itoa],
    [encoding/hex], [crypto/sha256], [time.Time] and [time.Duration], and
    [sort.Slice] as a merge sort. *)

From S2P Require Import Prelude.
From Stdlib Require Import Ascii String OrdersEx.

Local Open Scope Z_scope.

(** ** Bytes *)

Definition byte_of (n : N) : ascii := ascii_of_N n.
Definition code (a : ascii) : N := N_of_ascii a.

Fixpoint bytes (s : string) : list ascii :=
  match s with
  | EmptyString => []
  | String a s' => a :: bytes s'
  end.

Fixpoint of_bytes (l : list ascii) : string :=
  match l with
  | [] => EmptyString
  | a :: l' => String a (of_bytes l')
  end.

Fixpoint string_map (f : ascii -> ascii) (s : string) : string :=
  match s with
  | EmptyString => EmptyString
  | String a s' => String (f a) (string_map f s')
  end.

Fixpoint string_forallb (p : ascii -> bool) (s : string) : bool :=
  match s with
  | EmptyString => true
  | String a s' => p a && string_forallb p s'
  end.

Definition rev_string (s : string) : string := of_bytes (rev (bytes s)).

(** ** package strings *)

(** [strings.HasPrefix] *)
Fixpoint HasPrefix (s pre : string) {struct pre} : bool :=
  match pre, s with
  | EmptyString, _ => true
  | String p pre', String a s' => Ascii.eqb a p && HasPrefix s' pre'
  | String _ _, EmptyString => false
  end.

Definition drop_prefix (s pre : string) : string :=
  String.substring (String.length pre) (String.length s - String.length pre) s.

(** The UTF-8 encodings of the runes with the Unicode [White_Space] property,
    as [unicode.IsSpace] decides it. *)
Definition utf8 (codes : list N) : string := of_bytes (byte_of <$> codes).

Definition white_space : list string :=
  utf8 <$> [ [9%N]; [10%N]; [11%N]; [12%N]; [13%N]; [32%N];
             [0xC2; 0x85]%N; [0xC2; 0xA0]%N; [0xE1; 0x9A; 0x80]%N;
             [0xE2; 0x80; 0x80]%N; [0xE2; 0x80; 0x81]%N; [0xE2; 0x80; 0x82]%N;
             [0xE2; 0x80; 0x83]%N; [0xE2; 0x80; 0x84]%N; [0xE2; 0x80; 0x85]%N;
             [0xE2; 0x80; 0x86]%N; [0xE2; 0x80; 0x87]%N; [0xE2; 0x80; 0x88]%N;
             [0xE2; 0x80; 0x89]%N; [0xE2; 0x80; 0x8A]%N; [0xE2; 0x80; 0xA8]%N;
             [0xE2; 0x80; 0xA9]%N; [0xE2; 0x80; 0xAF]%N; [0xE2; 0x81; 0x9F]%N;
             [0xE3; 0x80; 0x80]%N ].

(** Drop one leading rune whose encoding is listed; [None] when there is none. *)
Fixpoint strip_one (spaces : list string) (s : string) : option string :=
  match spaces with
  | [] => None
  | w :: rest => if HasPrefix s w then Some (drop_prefix s w) else strip_one rest s
  end.

(** Every step removes at least one byte, so the length of the string is
    enough fuel. *)
Fixpoint strip (fuel : nat) (spaces : list string) (s : string) : string :=
  match fuel with
  | O => s
  | S fuel' =>
      match strip_one spaces s with
      | Some s' => strip fuel' spaces s'
      | None => s
      end
  end.

Definition TrimLeftSpace (s : string) : string := strip (String.length s) white_space s.
Definition TrimRightSpace (s : string) : string :=
  rev_string (strip (String.length s) (rev_string <$> white_space) (rev_string s)).

(** [strings.TrimSpace] *)
Definition TrimSpace (s : string) : string := TrimRightSpace (TrimLeftSpace s).

(** Case mapping of strings that are not plain ASCII goes through the Unicode
    tables of package [unicode], which are a parameter. *)
Class UnicodeOps := {
  map_ToUpper : string -> string;  (* strings.Map(unicode.ToUpper, s) *)
  map_ToLower : string -> string;  (* strings.Map(unicode.ToLower, s) *)
}.

Definition is_ascii (s : string) : bool := string_forallb (fun a => (code a <? 128)%N) s.

Definition ascii_upper (a : ascii) : ascii :=
  if ((97 <=? code a) && (code a <=? 122))%N then byte_of (code a - 32) else a.
Definition ascii_lower (a : ascii) : ascii :=
  if ((65 <=? code a) && (code a <=? 90))%N then byte_of (code a + 32) else a.

(** [strings.ToUpper], [strings.ToLower] *)
Definition ToUpper `{UnicodeOps} (s : string) : string :=
  if is_ascii s then string_map ascii_upper s else map_ToUpper s.
Definition ToLower `{UnicodeOps} (s : string) : string :=
  if is_ascii s then string_map ascii_lower s else map_ToLower s.

(** [left < right] on strings: bytewise lexicographic order. *)
Definition string_lt (s t : string) : bool := String.ltb s t.

(** ** strconv.Itoa of a non-negative int, encoding/hex *)

Definition digit (n : N) : ascii := byte_of (48 + n).

Fixpoint digits_fuel (fuel : nat) (n : N) (acc : string) : string :=
  match fuel with
  | O => acc
  | S fuel' =>
      let acc' := String (digit (n mod 10)) acc in
      if (n <? 10)%N then acc' else digits_fuel fuel' (n / 10)%N acc'
  end.

(** A number has at most as many decimal digits as bits, plus one for zero. *)
Definition Itoa (n : N) : string := digits_fuel (S (N.to_nat (N.size n))) n EmptyString.

Definition hex_digit (n : N) : ascii :=
  if (n <? 10)%N then byte_of (48 + n) else byte_of (87 + n).

(** [hex.EncodeToString] *)
Fixpoint EncodeToString (s : string) : string :=
  match s with
  | EmptyString => EmptyString
  | String a s' =>
      String (hex_digit (code a / 16)) (String (hex_digit (code a mod 16)) (EncodeToString s'))
  end.

(** Reading the digits back. *)
Definition unhex (a : ascii) : N := if (code a <? 58)%N then (code a - 48)%N else (code a - 87)%N.

Lemma unhex_byte a :
  byte_of (16 * unhex (hex_digit (code a / 16)) + unhex (hex_digit (code a mod 16))) = a.
Proof. by destruct a as [[] [] [] [] [] [] [] []]. Qed.

Lemma EncodeToString_inj s t : EncodeToString s = EncodeToString t -> s = t.
Proof.
  revert t. induction s as [|a s IH]; intros [|b t]; cbn [EncodeToString]; try done. intros H.
  injection H as H1 H2 H3. rewrite (IH _ H3). f_equal. by rewrite <- (unhex_byte a), <- (unhex_byte b), H1, H2.
Qed.

Lemma length_EncodeToString s : String.length (EncodeToString s) = (2 * String.length s)%nat.
Proof. induction s as [|a s IH]; cbn [EncodeToString String.length]; lia. Qed.

(** ** crypto/sha256 (FIPS 180-4), on 32-bit words held in [N] *)

Module SHA256.

Local Open Scope N_scope.

Definition mask : N := 0xffffffff.
Definition wadd (x y : N) : N := N.land (x + y) mask.
Definition rotr (n x : N) : N :=
  N.lor (N.shiftr x n) (N.land (N.shiftl x (32 - n)) mask).
Definition wnot (x : N) : N := N.lxor x mask.

Definition ch (x y z : N) : N := N.lxor (N.land x y) (N.land (wnot x) z).
Definition maj (x y z : N) : N := N.lxor (N.lxor (N.land x y) (N.land x z)) (N.land y z).
Definition big0 (x : N) : N := N.lxor (N.lxor (rotr 2 x) (rotr 13 x)) (rotr 22 x).
Definition big1 (x : N) : N := N.lxor (N.lxor (rotr 6 x) (rotr 11 x)) (rotr 25 x).
Definition small0 (x : N) : N := N.lxor (N.lxor (rotr 7 x) (rotr 18 x)) (N.shiftr x 3).
Definition small1 (x : N) : N := N.lxor (N.lxor (rotr 17 x) (rotr 19 x)) (N.shiftr x 10).

(** The round constants are the first 32 bits of the fractional parts of the
    cube roots of the first 64 primes (311 is the last of them). *)
Definition is_prime (n : N) : bool :=
  forallb (fun d => negb (n mod d =? 0)) (N.of_nat <$> seq 2 (N.to_nat n - 2)).
Definition primes : list N := List.filter is_prime (N.of_nat <$> seq 2 310).

(** The integer cube root of [x] below [2 ^ bits], one bit at a time. *)
Fixpoint cube_root (bits : nat) (root x : N) : N :=
  match bits with
  | O => root
  | S b =>
      let next := root + 2 ^ N.of_nat b in
      cube_root b (if next ^ 3 <=? x then next else root) x
  end.

Definition round_constants : list N :=
  Eval vm_compute in (fun p => cube_root 36 0 (p * 2 ^ 96) mod 2 ^ 32) <$> primes.

Record hash := Hash { ha : N; hb : N; hc : N; hd : N; he : N; hf : N; hg : N; hh : N }.

Definition initial : hash :=
  Hash 0x6a09e667 0xbb67ae85 0x3c6ef372 0xa54ff53a 0x510e527f 0x9b05688c 0x1f83d9ab 0x5be0cd19.

(** [w] is the window of the sixteen schedule words that are still needed. *)
Fixpoint rounds (ks w : list N) (h : hash) : hash :=
  match ks with
  | [] => h
  | k :: ks' =>
      let t1 := wadd (wadd (wadd (wadd h.(hh) (big1 h.(he))) (ch h.(he) h.(hf) h.(hg))) k) (nth 0 w 0) in
      let t2 := wadd (big0 h.(ha)) (maj h.(ha) h.(hb) h.(hc)) in
      let next := wadd (wadd (small1 (nth 14 w 0)) (nth 9 w 0)) (wadd (small0 (nth 1 w 0)) (nth 0 w 0)) in
      rounds ks' (tl w ++ [next])
        (Hash (wadd t1 t2) h.(ha) h.(hb) h.(hc) (wadd h.(hd) t1) h.(he) h.(hf) h.(hg))
  end.

Definition compress (h : hash) (w : list N) : hash :=
  let r := rounds round_constants w h in
  Hash (wadd h.(ha) r.(ha)) (wadd h.(hb) r.(hb)) (wadd h.(hc) r.(hc)) (wadd h.(hd) r.(hd))
       (wadd h.(he) r.(he)) (wadd h.(hf) r.(hf)) (wadd h.(hg) r.(hg)) (wadd h.(hh) r.(hh)).

(** Big-endian words of a byte list whose length is a multiple of four. *)
Fixpoint words (l : list N) : list N :=
  match l with
  | b0 :: b1 :: b2 :: b3 :: rest => (((b0 * 256 + b1) * 256 + b2) * 256 + b3) :: words rest
  | _ => []
  end.

Fixpoint big_endian (n : nat) (x : N) : list N :=
  match n with
  | O => []
  | S n' => N.shiftr x (8 * N.of_nat n') mod 256 :: big_endian n' x
  end.

(** The message, the bit 1, zeros up to 56 modulo 64 bytes, and the bit length. *)
Definition pad (msg : list N) : list N :=
  let len := N.of_nat (List.length msg) in
  let zeros := (119 - len mod 64) mod 64 in
  msg ++ 128 :: repeat 0 (N.to_nat zeros) ++ big_endian 8 (8 * len).

(** One block of sixteen words per step; the number of words is enough fuel. *)
Fixpoint blocks (fuel : nat) (h : hash) (w : list N) : hash :=
  match fuel, w with
  | O, _ | _, [] => h
  | S fuel', _ => blocks fuel' (compress h (firstn 16 w)) (skipn 16 w)
  end.

Definition output (h : hash) : list N :=
  List.concat (big_endian 4 <$> [h.(ha); h.(hb); h.(hc); h.(hd); h.(he); h.(hf); h.(hg); h.(hh)]).

End SHA256.

(** [sha256.Sum256] *)
Definition Sum256 (s : string) : string :=
  let w := SHA256.words (SHA256.pad (code <$> bytes s)) in
  of_bytes (byte_of <$> SHA256.output (SHA256.blocks (List.length w) SHA256.initial w)).

(** Known answers of FIPS 180-4. *)
Example sha256_empty :
  EncodeToString (Sum256 "") = "e3b0c44298fc1c149afbf4c8996fb92427ae41e4649b934ca495991b7852b855".
Proof. vm_compute. reflexivity. Qed.
Example sha256_abc :
  EncodeToString (Sum256 "abc") = "ba7816bf8f01cfea414140de5dae2223b00361a396177a9cb410ff61f20015ad".
Proof. vm_compute. reflexivity. Qed.
Example sha256_two_blocks :
  EncodeToString (Sum256 "abcdbcdecdefdefgefghfghighijhijkijkljklmklmnlmnomnopnopq")
  = "248d6a61d20638b8e5c026930c3e6039a33ce45964ff2167f6ecedd419db06c1".
Proof. vm_compute. reflexivity. Qed.
Example trim_example : TrimSpace "  a b  " = "a b".
Proof. vm_compute. reflexivity. Qed.
Example itoa_example : Itoa 1203 = "1203".
Proof. vm_compute. reflexivity. Qed.

(** ** package time

    An instant is a number of nanoseconds since January 1, year 1, 00:00:00 UTC
    (the zero [time.Time]) together with whether its location is [time.UTC]. A
    [time.Duration] is a signed 64-bit number of nanoseconds. *)
Record Time := MkTime { instant : Z; location_utc : bool }.

Definition Duration : Type := Z.
Definition Microsecond : Z := 1000.

#[global] Instance Time_eq_dec : EqDecision Time.
Proof. solve_decision. Defined.

Definition ZeroTime : Time := MkTime 0 true.
Definition IsZeroTime (t : Time) : bool := t.(instant) =? 0.
Definition UTC (t : Time) : Time := MkTime t.(instant) true.
(** [t.Truncate(time.Microsecond)] rounds down since the zero time. *)
Definition TruncateMicro (t : Time) : Time :=
  MkTime (t.(instant) - t.(instant) mod Microsecond) t.(location_utc).
Definition TimeEqual (t u : Time) : bool := t.(instant) =? u.(instant).
Definition Before (t u : Time) : bool := t.(instant) <? u.(instant).
Definition After (t u : Time) : bool := u.(instant) <? t.(instant).

Definition max_int64 : Z := 2 ^ 63 - 1.
Definition min_int64 : Z := - 2 ^ 63.
(** [t.Sub(u)] saturates at the bounds of a [Duration]. *)
Definition TimeSub (t u : Time) : Duration :=
  Z.max min_int64 (Z.min max_int64 (t.(instant) - u.(instant))).
(** [d.Truncate(time.Microsecond)] rounds toward zero. *)
Definition DurationTruncateMicro (d : Duration) : Duration := d - Z.rem d Microsecond.
(** [d.Microseconds()] *)
Definition Microseconds (d : Duration) : Z := Z.quot d Microsecond.

(** [value.UTC().Truncate(time.Microsecond)], the normalization every
    constructor of the repository applies. *)
Definition utc_micro (t : Time) : Time := TruncateMicro (UTC t).

(** Calendar date of a day number counted from 0001-01-01 (day 0), in the
    proleptic Gregorian calendar, by 400-year eras starting on March 1. *)
Definition civil (day : Z) : Z * Z * Z :=
  let z := day + 306 in
  let era := z / 146097 in
  let doe := z mod 146097 in
  let yoe := (doe - doe / 1460 + doe / 36524 - doe / 146096) / 365 in
  let doy := doe - (365 * yoe + yoe / 4 - yoe / 100) in
  let mp := (5 * doy + 2) / 153 in
  let d := doy - (153 * mp + 2) / 5 + 1 in
  let m := if mp <? 10 then mp + 3 else mp - 9 in
  let y := yoe + era * 400 + (if m <=? 2 then 1 else 0) in
  (y, m, d).

Fixpoint zero_pad (width : nat) (s : string) : string :=
  match width with
  | O => s
  | S w => if (String.length s <=? w)%nat then String (digit 0) (zero_pad w s) else s
  end.
Definition pad_int (width : nat) (n : Z) : string := zero_pad width (Itoa (Z.to_N n)).

(** [t.Format("2006-01-02T15:04:05.000000Z")] of a UTC instant; years before 1
    do not occur for the timestamps the code accepts. *)
Definition format_micro (t : Time) : string :=
  let sec := t.(instant) / 1000000000 in
  let micro := (t.(instant) mod 1000000000) / 1000 in
  let '(y, m, d) := civil (sec / 86400) in
  let sod := sec mod 86400 in
  (pad_int 4 y +:+ "-" +:+ pad_int 2 m +:+ "-" +:+ pad_int 2 d +:+ "T" +:+
   pad_int 2 (sod / 3600) +:+ ":" +:+ pad_int 2 (sod / 60 mod 60) +:+ ":" +:+
   pad_int 2 (sod mod 60) +:+ "." +:+ pad_int 6 micro +:+ "Z")%string.

(** 2024-02-29T13:14:15.678901Z is 63844809255 seconds after the zero time. *)
Example format_micro_example :
  format_micro (MkTime (63844809255 * 10 ^ 9 + 678901000) true) = "2024-02-29T13:14:15.678901Z".
Proof. vm_compute. reflexivity. Qed.

Lemma truncate_mod n : (n - n mod Microsecond) mod Microsecond = 0.
Proof. by rewrite Zminus_mod, Zmod_mod, Z.sub_diag. Qed.

Lemma utc_micro_idemp t : utc_micro (utc_micro t) = utc_micro t.
Proof.
  unfold utc_micro, UTC, TruncateMicro; simpl. by rewrite truncate_mod, Z.sub_0_r.
Qed.

(** ** Order on strings, and sort.Slice *)

Lemma string_lt_trans s t u : string_lt s t = true -> string_lt t u = true -> string_lt s u = true.
Proof.
  unfold string_lt, String.ltb.
  destruct (String.compare s t) eqn:E1; [discriminate| |discriminate].
  destruct (String.compare t u) eqn:E2; [discriminate| |discriminate].
  intros _ _.
  assert (H : String_as_OT.lt s u) by (eapply String_as_OT.lt_strorder; eassumption).
  change (String.compare s u = Lt) in H. by rewrite H.
Qed.

Lemma string_lt_irrefl s : string_lt s s = false.
Proof.
  unfold string_lt, String.ltb. pose proof (String.compare_antisym s s) as H.
  by destruct (String.compare s s).
Qed.

Lemma string_lt_total s t : string_lt s t = false -> string_lt t s = false -> s = t.
Proof.
  unfold string_lt, String.ltb. rewrite (String.compare_antisym t s).
  destruct (String.compare s t) eqn:E; simpl; intros; try done.
  by apply String.compare_eq_iff.
Qed.

Section sort.
Context {A : Type} (less : A -> A -> bool).

(** [sort.Slice] orders [l] so that no later element is less than an earlier
    one. It is not stable; where the keys of the elements are distinct the
    result does not depend on the algorithm. *)
Definition not_after (x y : A) : Prop := less y x = false.

#[global] Instance not_after_dec : RelDecision not_after.
Proof. intros x y. unfold not_after. apply _. Defined.

Definition sort_slice (l : list A) : list A := merge_sort not_after l.

Lemma sort_slice_perm l : sort_slice l ≡ₚ l.
Proof. apply merge_sort_Permutation. Qed.
End sort.

(** ** Trimming text without white space *)

(** Printable ASCII other than the space. *)
Definition graphic (a : ascii) : bool := ((33 <=? code a) && (code a <=? 126))%N.

Lemma graphic_not_space a s : graphic a = true -> strip_one white_space (String a s) = None.
Proof. destruct a as [[] [] [] [] [] [] [] []]; vm_compute; congruence. Qed.

Lemma graphic_not_rev_space a s : graphic a = true -> strip_one (rev_string <$> white_space) (String a s) = None.
Proof. destruct a as [[] [] [] [] [] [] [] []]; vm_compute; congruence. Qed.

Lemma of_bytes_bytes s : of_bytes (bytes s) = s.
Proof. induction s as [|a s IH]; simpl; [done|]. by rewrite IH. Qed.

Lemma bytes_of_bytes l : bytes (of_bytes l) = l.
Proof. induction l as [|a l IH]; simpl; [done|]. by rewrite IH. Qed.

Lemma bytes_append s t : bytes (s +:+ t)%string = bytes s ++ bytes t.
Proof.
  induction s as [|a s IH]; [done|].
  change (a :: bytes (s +:+ t)%string = a :: (bytes s ++ bytes t)). by rewrite IH.
Qed.

Lemma rev_string_involutive s : rev_string (rev_string s) = s.
Proof. unfold rev_string. by rewrite bytes_of_bytes, rev_involutive, of_bytes_bytes. Qed.

Lemma string_forallb_bytes p s : string_forallb p s = forallb p (bytes s).
Proof. induction s as [|a s IH]; simpl; [done|]. by rewrite IH. Qed.

Lemma TrimSpace_graphic s : string_forallb graphic s = true -> TrimSpace s = s.
Proof.
  intros Hs. assert (Hl : TrimLeftSpace s = s).
  { unfold TrimLeftSpace. destruct s as [|a s]; [done|]. cbn [String.length strip]. simpl in Hs.
    apply andb_true_iff in Hs as [Ha _]. by rewrite graphic_not_space. }
  unfold TrimSpace. rewrite Hl. unfold TrimRightSpace.
  destruct (rev_string s) as [|a r] eqn:Hr.
  - rewrite <- (rev_string_involutive s), Hr. by destruct (String.length s).
  - destruct (String.length s) as [|n] eqn:Hn; cbn [strip].
    + by rewrite <- (rev_string_involutive s), Hr.
    + rewrite graphic_not_rev_space; [by rewrite <- Hr, rev_string_involutive|].
      rewrite string_forallb_bytes, forallb_forall in Hs. apply Hs.
      assert (Hin : In a (bytes (rev_string s))) by (rewrite Hr; by left).
      unfold rev_string in Hin. rewrite bytes_of_bytes in Hin. by apply in_rev.
Qed.

(** A three-letter currency code is fixed by trimming and by [ToUpper]. *)
Definition capital (a : ascii) : bool := negb (code a <? 65)%N && negb (90 <? code a)%N.

Lemma capital_facts a : capital a = true ->
  graphic a = true /\ (code a <? 128)%N = true /\ ascii_upper a = a.
Proof. destruct a as [[] [] [] [] [] [] [] []]; vm_compute; intros; try done; congruence. Qed.

Lemma capitals_fixed `{UnicodeOps} s : string_forallb capital s = true ->
  TrimSpace s = s /\ ToUpper s = s.
Proof.
  intros Hs.
  assert (Hall : string_forallb graphic s = true /\ is_ascii s = true /\ string_map ascii_upper s = s).
  { induction s as [|a s IH]; [done|]. cbn in Hs |- *. apply andb_true_iff in Hs as [Ha Hs].
    destruct (capital_facts a Ha) as (-> & -> & ->), (IH Hs) as (-> & Hascii & ->). unfold is_ascii in Hascii.
    by rewrite Hascii. }
  destruct Hall as (Hg & Ha & Hm). split; [by apply TrimSpace_graphic|]. unfold ToUpper. by rewrite Ha, Hm.
Qed.
