(* ===== verification/GoText.v ===== *)
(** * Text helpers of the Go standard library

    The functions of [strings], [encoding/hex], [strconv] and [regexp] that
    several components use on text. *)

From S2P Require Import Prelude GoStd.
From Stdlib Require Import Ascii.

(** [strings.TrimPrefix] *)
Definition TrimPrefix (s pre : string) : string := if HasPrefix s pre then drop_prefix s pre else s.

(** [strings.Join] *)
Fixpoint Join (elems : list string) (sep : string) : string :=
  match elems with
  | [] => EmptyString
  | [elem] => elem
  | elem :: rest => (elem +:+ sep +:+ Join rest sep)%string
  end.

(** [strings.Contains] *)
Fixpoint Contains (s sub : string) : bool :=
  HasPrefix s sub || match s with EmptyString => false | String _ rest => Contains rest sub end.

(** [strconv.FormatInt(n, 10)], the [%d] verb and [json.Marshal] of an integer. *)
Definition json_int (n : Z) : string :=
  if (n <? 0)%Z then ("-" +:+ Itoa (Z.to_N (- n)))%string else Itoa (Z.to_N n).

(** [hex.DecodeString] succeeds on an even number of hexadecimal digits. *)
Definition is_hex_digit (a : ascii) : bool :=
  let c := code a in
  (((48 <=? c) && (c <=? 57)) || ((97 <=? c) && (c <=? 102)) || ((65 <=? c) && (c <=? 70)))%N.
Definition hex_decodes (value : string) : bool := Nat.even (String.length value) && string_forallb is_hex_digit value.

(** ** Tokens

    A pattern [^[first][rest]{0,max}$] of [regexp]. *)
Definition in_range (lo hi : N) (a : ascii) : bool := ((lo <=? code a) && (code a <=? hi))%N.
Definition lower_letter : ascii -> bool := in_range 97 122.
Definition upper_letter : ascii -> bool := in_range 65 90.
Definition decimal_digit : ascii -> bool := in_range 48 57.
Definition one_of (chars : string) (a : ascii) : bool := existsb (fun c => (code c =? code a)%N) (bytes chars).

Definition matches_token (first rest : ascii -> bool) (max : nat) (s : string) : bool :=
  match s with
  | EmptyString => false
  | String a s' => first a && string_forallb rest s' && (String.length s' <=? max)%nat
  end.
