(* ===== verification/Digits.v ===== *)
(** * Decimal digits

    Reading back what [strconv.Itoa] and zero padding write. *)

From S2P Require Import Prelude GoStd.
From Stdlib Require Import Ascii String.

Local Open Scope N_scope.

Definition is_digit (a : ascii) : bool := (48 <=? code a) && (code a <=? 57).

(** The number a run of digits denotes, after [acc]. *)
Fixpoint digits_value (acc : N) (l : list ascii) : option N :=
  match l with
  | [] => Some acc
  | a :: rest => if is_digit a then digits_value (acc * 10 + (code a - 48)) rest else None
  end.

Lemma code_digit n : n < 10 -> code (digit n) = 48 + n.
Proof. intros. unfold code, digit, byte_of. rewrite N_ascii_embedding; lia. Qed.

Lemma digits_value_cons acc n l : n < 10 -> digits_value acc (digit n :: l) = digits_value (acc * 10 + n) l.
Proof.
  intros Hn. cbn [digits_value]. unfold is_digit. rewrite code_digit by done.
  rewrite (proj2 (N.leb_le _ _)), (proj2 (N.leb_le _ _)) by lia. cbn. f_equal. lia.
Qed.

Lemma digits_value_app acc l k : digits_value acc (l ++ k) = digits_value acc l ≫= fun n => digits_value n k.
Proof.
  revert acc. induction l as [|a l IH]; intros acc; cbn; [done|]. by destruct (is_digit a).
Qed.

Lemma digits_fuel_value fuel n acc : n < 10 ^ N.of_nat fuel ->
  (fuel <> 0)%nat -> digits_value 0 (bytes (digits_fuel fuel n acc)) = digits_value n (bytes acc).
Proof.
  revert n acc. induction fuel as [|fuel IH]; intros n acc Hn Hf; [done|]. cbn [digits_fuel].
  pose proof (N.mod_lt n 10 ltac:(done)) as Hm.
  destruct (N.ltb_spec n 10) as [Hlt|Hge].
  - cbn [bytes]. rewrite N.mod_small by done. rewrite digits_value_cons by done. f_equal.
  - rewrite Nat2N.inj_succ, N.pow_succ_r' in Hn.
    assert (n / 10 < 10 ^ N.of_nat fuel) by (apply N.Div0.div_lt_upper_bound; lia).
    assert (fuel <> 0)%nat.
    { intros ->. cbn in *. lia. }
    rewrite IH by done. cbn [bytes]. rewrite digits_value_cons by done. f_equal.
    pose proof (N.div_mod n 10). lia.
Qed.

Lemma pow2_le_pow10 n : 2 ^ n <= 10 ^ n.
Proof. apply N.pow_le_mono_l. lia. Qed.

Lemma Itoa_fuel n : n < 10 ^ N.of_nat (S (N.to_nat (N.size n))).
Proof.
  rewrite Nat2N.inj_succ, N2Nat.id, N.pow_succ_r'.
  pose proof (N.size_gt n). pose proof (pow2_le_pow10 (N.size n)). lia.
Qed.

Lemma Itoa_value n : digits_value 0 (bytes (Itoa n)) = Some n.
Proof. unfold Itoa. by rewrite digits_fuel_value by (apply Itoa_fuel || done). Qed.

Lemma digits_fuel_length fuel n acc k : n < 10 ^ N.of_nat k -> (k <> 0)%nat ->
  (String.length (digits_fuel fuel n acc) <= k + String.length acc)%nat.
Proof.
  revert n acc k. induction fuel as [|fuel IH]; intros n acc k Hn Hk; cbn [digits_fuel]; [lia|].
  destruct (N.ltb_spec n 10) as [Hlt|Hge]; [cbn; lia|].
  destruct k as [|k]; [done|]. rewrite Nat2N.inj_succ, N.pow_succ_r' in Hn.
  assert (n / 10 < 10 ^ N.of_nat k) by (apply N.Div0.div_lt_upper_bound; lia).
  destruct k as [|k].
  - cbn in *. lia.
  - pose proof (IH (n / 10) (String (digit (n mod 10)) acc) (S k) ltac:(done) ltac:(done)) as Hl. cbn [String.length] in Hl. lia.
Qed.

Lemma Itoa_length n k : n < 10 ^ N.of_nat k -> (k <> 0)%nat -> (String.length (Itoa n) <= k)%nat.
Proof. intros Hn Hk. unfold Itoa. pose proof (digits_fuel_length (S (N.to_nat (N.size n))) n EmptyString k Hn Hk). cbn in *. lia. Qed.

Lemma digits_fuel_length_ge fuel n acc k : 10 ^ N.of_nat k <= n -> n < 10 ^ N.of_nat fuel ->
  (S k + String.length acc <= String.length (digits_fuel fuel n acc))%nat.
Proof.
  revert n acc k. induction fuel as [|fuel IH]; intros n acc k Hk Hn; cbn [digits_fuel].
  - cbn in Hn. assert (10 ^ N.of_nat k <> 0) by (apply N.pow_nonzero; done). lia.
  - assert (Hlen : forall m a, (String.length a <= String.length (digits_fuel fuel m a))%nat).
    { clear. induction fuel as [|fuel IH]; intros m a; cbn [digits_fuel]; [lia|].
      destruct (m <? 10); [cbn; lia|]. pose proof (IH (m / 10) (String (digit (m mod 10)) a)). cbn in *. lia. }
    destruct k as [|k].
    + destruct (N.ltb_spec n 10); [cbn; lia|]. pose proof (Hlen (n / 10) (String (digit (n mod 10)) acc)). cbn in *. lia.
    + rewrite Nat2N.inj_succ, N.pow_succ_r' in *.
      assert (1 <= 10 ^ N.of_nat k) by (pose proof (N.pow_nonzero 10 (N.of_nat k) ltac:(done)); lia).
      destruct (N.ltb_spec n 10) as [?|?]; [lia|].
      assert (n / 10 < 10 ^ N.of_nat fuel) by (apply N.Div0.div_lt_upper_bound; lia).
      assert (10 ^ N.of_nat k <= n / 10) by (apply N.div_le_lower_bound; lia).
      pose proof (IH (n / 10) (String (digit (n mod 10)) acc) k ltac:(done) ltac:(done)) as Hl. cbn [String.length] in Hl. lia.
Qed.

(** [strconv.Itoa] writes at most [k] digits exactly for the numbers below
    [10 ^ k]. *)
Lemma Itoa_length_iff n k : (k <> 0)%nat -> (String.length (Itoa n) <= k)%nat <-> n < 10 ^ N.of_nat k.
Proof.
  intros Hk. split; [|by intros; apply Itoa_length].
  intros Hl. destruct (N.lt_ge_cases n (10 ^ N.of_nat k)) as [?|Hge]; [done|]. exfalso.
  pose proof (digits_fuel_length_ge _ n EmptyString k Hge (Itoa_fuel n)) as H. unfold Itoa in Hl. cbn [String.length] in H. lia.
Qed.

Lemma length_bytes s : List.length (bytes s) = String.length s.
Proof. induction s as [|a s IH]; cbn; [done|by rewrite IH]. Qed.

(** ** Fixed width *)

Lemma zero_pad_value w s n : digits_value 0 (bytes s) = Some n -> digits_value 0 (bytes (zero_pad w s)) = Some n.
Proof.
  intros Hs. induction w as [|w IH]; cbn [zero_pad]; [done|].
  destruct (_ <=? _)%nat; [|done]. cbn [bytes]. rewrite digits_value_cons by done. exact IH.
Qed.

Lemma zero_pad_length w s : (String.length s <= w)%nat -> String.length (zero_pad w s) = w.
Proof.
  induction w as [|w IH]; cbn [zero_pad]; intros Hl; [lia|].
  destruct (Nat.leb_spec (String.length s) w); [|lia]. cbn. by rewrite IH.
Qed.

Lemma pad_int_value w n : (0 <= n)%Z -> digits_value 0 (bytes (pad_int w n)) = Some (Z.to_N n).
Proof. intros. apply zero_pad_value, Itoa_value. Qed.

Lemma pad_int_length w n : (0 <= n < 10 ^ Z.of_nat w)%Z -> (w <> 0)%nat -> String.length (pad_int w n) = w.
Proof.
  intros Hn Hw. apply zero_pad_length, Itoa_length; [|done].
  apply N2Z.inj_lt. rewrite N2Z.inj_pow, Z2N.id, nat_N_Z by lia. cbn. lia.
Qed.
