(* ===== verification/GoTime.v ===== *)
(** * time.Parse

    Reading back a timestamp printed with the layout
    [2006-01-02T15:04:05.000000Z]. *)

From S2P Require Import Prelude GoStd Digits.
From Stdlib Require Import Ascii.

Local Open Scope Z_scope.

(** ** The proleptic Gregorian calendar *)

(** The day number, counted from 0001-01-01, of a date: the inverse of
    [civil]. *)
Definition days_of_civil (y m d : Z) : Z :=
  let y' := y - (if m <=? 2 then 1 else 0) in
  let era := y' / 400 in
  let yoe := y' mod 400 in
  let mp := if m <=? 2 then m + 9 else m - 3 in
  let doy := (153 * mp + 2) / 5 + d - 1 in
  let doe := yoe * 365 + yoe / 4 - yoe / 100 + doy in
  era * 146097 + doe - 306.

Definition is_leap (y : Z) : bool := (y mod 4 =? 0) && (negb (y mod 100 =? 0) || (y mod 400 =? 0)).

Definition days_in (m y : Z) : Z :=
  if m =? 2 then (if is_leap y then 29 else 28)
  else if (m =? 4) || (m =? 6) || (m =? 9) || (m =? 11) then 30 else 31.

(** ** Parsing *)

(** One or two digits; a fixed field needs two. *)
Definition getnum (fixed : bool) (l : list ascii) : option (Z * list ascii) :=
  match l with
  | a :: rest =>
      if negb (is_digit a) then None
      else
        match rest with
        | b :: rest' =>
            if is_digit b then Some (Z.of_N ((code a - 48) * 10 + (code b - 48)), rest')
            else if fixed then None else Some (Z.of_N (code a - 48), rest)
        | [] => if fixed then None else Some (Z.of_N (code a - 48), rest)
        end
  | [] => None
  end.

(** A literal character of the layout. *)
Definition literal (c : ascii) (l : list ascii) : option (list ascii) :=
  match l with
  | a :: rest => if Ascii.eqb a c then Some rest else None
  | [] => None
  end.

Definition year4 (l : list ascii) : option (Z * list ascii) :=
  match l with
  | a :: b :: c :: d :: rest => y ← digits_value 0 [a; b; c; d] ; Some (Z.of_N y, rest)
  | _ => None
  end.

(** A point or a comma and six characters that [atoi] accepts: digits after an
    optional sign. A negative fraction is out of range. *)
Definition atoi (l : list ascii) : option Z :=
  match l with
  | a :: rest =>
      if (code a =? 45)%N then (fun n => - Z.of_N n) <$> digits_value 0 rest
      else if (code a =? 43)%N then Z.of_N <$> digits_value 0 rest
      else Z.of_N <$> digits_value 0 l
  | [] => Some 0
  end.

Definition micros (l : list ascii) : option (Z * list ascii) :=
  match l with
  | p :: rest =>
      if negb ((code p =? 46) || (code p =? 44))%N then None
      else if (length rest <? 6)%nat then None
      else n ← atoi (take 6 rest) ; if n <? 0 then None else Some (n, drop 6 rest)
  | [] => None
  end.

(** [time.Parse("2006-01-02T15:04:05.000000Z", value)]; the time is in UTC. *)
Definition parse_micro (value : string) : option Time :=
  '(y, l) ← year4 (bytes value) ;
  l ← literal "-" l ;
  '(m, l) ← getnum true l ;
  l ← literal "-" l ;
  '(d, l) ← getnum true l ;
  l ← literal "T" l ;
  '(hour, l) ← getnum false l ;
  l ← literal ":" l ;
  '(minute, l) ← getnum true l ;
  l ← literal ":" l ;
  '(second, l) ← getnum true l ;
  '(micro, l) ← micros l ;
  l ← literal "Z" l ;
  if negb (length l =? 0)%nat || negb ((1 <=? m) && (m <=? 12)) || negb ((1 <=? d) && (d <=? days_in m y)) ||
     (24 <=? hour) || (60 <=? minute) || (60 <=? second)
  then None
  else Some (MkTime ((days_of_civil y m d * 86400 + hour * 3600 + minute * 60 + second) * 1000000000 + micro * 1000) true).

Example parse_micro_example :
  parse_micro "2024-02-29T13:14:15.678901Z" = Some (MkTime (63844809255 * 10 ^ 9 + 678901000) true).
Proof. vm_compute. reflexivity. Qed.
Example parse_micro_no_such_day : parse_micro "2023-02-29T13:14:15.678901Z" = None.
Proof. vm_compute. reflexivity. Qed.

(** ** The calendar round trip

    The year that starts in March fixes the day of the year; a day of that year
    fixes the month and the day. *)

Definition year_of_era (doe : Z) : Z := (doe - doe / 1460 + doe / 36524 - doe / 146096) / 365.
Definition day_of_year (doe : Z) : Z :=
  doe - (365 * year_of_era doe + year_of_era doe / 4 - year_of_era doe / 100).

Lemma year_of_era_spec doe : 0 <= doe < 146097 -> 0 <= year_of_era doe < 400 /\ 0 <= day_of_year doe <= 365.
Proof.
  intros H. unfold day_of_year, year_of_era. split; Z.div_mod_to_equations; lia.
Qed.

Lemma leap_day doe : 0 <= doe < 146097 -> day_of_year doe = 365 -> is_leap (year_of_era doe + 1) = true.
Proof.
  intros Hd H. unfold is_leap.
  assert (Hl : (year_of_era doe + 1) mod 4 = 0 /\
               (~ (year_of_era doe + 1) mod 100 = 0 \/ (year_of_era doe + 1) mod 400 = 0)).
  { unfold day_of_year, year_of_era in *. split; Z.div_mod_to_equations; lia. }
  destruct Hl as [H4 H100]. rewrite (proj2 (Z.eqb_eq _ _) H4).
  destruct H100 as [H100|H400]; [by rewrite (proj2 (Z.eqb_neq _ _) H100)|].
  rewrite (proj2 (Z.eqb_eq _ _) H400). by rewrite orb_true_r.
Qed.

(** The month and day of a day of the March-based year, with the greatest day
    its month needs. *)
Definition month_day (doy : Z) : Z * Z :=
  let mp := (5 * doy + 2) / 153 in
  (if mp <? 10 then mp + 3 else mp - 9, doy - (153 * mp + 2) / 5 + 1).

Definition month_day_ok (doy : Z) : bool :=
  let '(m, d) := month_day doy in
  let mp := if m <=? 2 then m + 9 else m - 3 in
  (1 <=? m) && (m <=? 12) && (1 <=? d) && (d <=? (if doy =? 365 then 29 else days_in m 1)) &&
  ((m =? 2) || negb (doy =? 365)) && ((153 * mp + 2) / 5 + d - 1 =? doy).

Lemma month_days_ok doy : 0 <= doy <= 365 -> month_day_ok doy = true.
Proof.
  intros Hd. assert (Hall : forallb (fun n => month_day_ok (Z.of_nat n)) (seq 0 366) = true) by (vm_compute; reflexivity).
  rewrite forallb_forall in Hall. specialize (Hall (Z.to_nat doy)). rewrite Z2Nat.id in Hall by lia.
  apply Hall, in_seq. lia.
Qed.

Lemma days_in_mono m y : days_in m 1 <= days_in m y.
Proof. unfold days_in. destruct (m =? 2); [|lia]. change (is_leap 1) with false. destruct (is_leap y); lia. Qed.

Ltac z_bools :=
  repeat match goal with
  | H : (_ <=? _) = true |- _ => apply Z.leb_le in H
  | H : (_ <? _) = true |- _ => apply Z.ltb_lt in H
  | H : (_ =? _) = true |- _ => apply Z.eqb_eq in H
  | H : (_ <=? _) = false |- _ => apply Z.leb_gt in H
  | H : (_ <? _) = false |- _ => apply Z.ltb_ge in H
  | H : (_ =? _) = false |- _ => apply Z.eqb_neq in H
  end.

Lemma is_leap_period y k : is_leap (y + k * 400) = is_leap y.
Proof.
  unfold is_leap. replace (y + k * 400) with (y + (k * 100) * 4) at 1 by ring. rewrite Z_mod_plus_full.
  replace (y + k * 400) with (y + (k * 4) * 100) at 1 by ring. by rewrite !Z_mod_plus_full.
Qed.

Lemma days_in_period m y k : days_in m (y + k * 400) = days_in m y.
Proof. unfold days_in. by rewrite is_leap_period. Qed.

Lemma civil_era day :
  let doe := (day + 306) mod 146097 in
  let '(m, d) := month_day (day_of_year doe) in
  civil day = (year_of_era doe + (if m <=? 2 then 1 else 0) + (day + 306) / 146097 * 400, m, d).
Proof.
  unfold civil, month_day, day_of_year. cbv zeta. fold (year_of_era ((day + 306) mod 146097)).
  set (y := year_of_era _). set (m := if _ <? 10 then _ else _). f_equal. f_equal. lia.
Qed.

Lemma civil_spec day : let '(y, m, d) := civil day in
  days_of_civil y m d = day /\ 1 <= m <= 12 /\ 1 <= d <= days_in m y.
Proof.
  pose proof (Z.mod_pos_bound (day + 306) 146097 ltac:(lia)) as Hm.
  pose proof (Z.div_mod (day + 306) 146097 ltac:(lia)) as Hd. pose proof (civil_era day) as Hc. cbv zeta in Hc.
  set (doe := (day + 306) mod 146097) in *. set (era := (day + 306) / 146097) in *.
  destruct (year_of_era_spec doe Hm) as [Hy Hdoy]. pose proof (month_days_ok _ Hdoy) as Hok.
  pose proof (leap_day doe Hm) as Hleap. unfold month_day_ok in Hok.
  destruct (month_day (day_of_year doe)) as [m d]. rewrite Hc. cbv zeta in Hok.
  set (y := year_of_era doe) in *. set (late := if m <=? 2 then 1 else 0) in *. rewrite days_in_period.
  unfold days_of_civil. fold late.
  replace (y + late + era * 400 - late) with (y + era * 400) by ring.
  rewrite Z_div_plus_full, Z_mod_plus_full, Z.div_small, Z.mod_small by lia.
  split_bools. z_bools. assert (Hdef : day_of_year doe = doe - (365 * y + y / 4 - y / 100)) by done.
  pose proof (days_in_mono m (y + late)).
  repeat split; try lia.
  destruct (Z.eqb_spec (day_of_year doe) 365) as [Hlast|?]; [|lia].
  destruct (m =? 2) eqn:Em; [|done]. z_bools. subst m. unfold late, days_in in *. cbn in *. rewrite Hleap by done. done.
Qed.

(** ** Parsing a formatted timestamp *)

(** January 1, year 10000: the first date whose year needs five digits. *)
Definition year_10000 : Z := 3652059 * 86400 * 1000000000.

Lemma civil_year y m d : 1 <= m <= 12 -> 1 <= d <= 31 -> 0 <= days_of_civil y m d < 3652059 -> 0 <= y < 10000.
Proof.
  unfold days_of_civil. intros Hm Hd. destruct (Z.leb_spec m 2); intros H'; Z.div_mod_to_equations; lia.
Qed.

Lemma days_in_bound m y : days_in m y <= 31.
Proof. unfold days_in. repeat destruct (_ =? _); try destruct (is_leap y); cbn; lia. Qed.

Lemma digits_value_all l acc n : digits_value acc l = Some n -> Forall (fun a => is_digit a = true) l.
Proof.
  revert acc. induction l as [|a l IH]; intros acc; cbn [digits_value]; [constructor|].
  destruct (is_digit a) eqn:Ha; [|done]. intros H. constructor; [done|]. by eapply IH.
Qed.

Lemma getnum_digits fixed l n r : length l = 2%nat -> digits_value 0 l = Some n ->
  getnum fixed (l ++ r) = Some (Z.of_N n, r).
Proof.
  intros Hl Hv. destruct l as [|a [|b [|? ?]]]; try done. cbn [app getnum digits_value] in *.
  destruct (is_digit a); [|done]. destruct (is_digit b); [|done]. injection Hv as <-. done.
Qed.

Lemma literal_cons c r : literal c (c :: r) = Some r.
Proof. unfold literal. by rewrite Ascii.eqb_refl. Qed.

Lemma year4_digits l n r : length l = 4%nat -> digits_value 0 l = Some n -> year4 (l ++ r) = Some (Z.of_N n, r).
Proof.
  intros Hl Hv. destruct l as [|a [|b [|c [|d [|? ?]]]]]; try done. cbn [app year4]. by rewrite Hv.
Qed.

Lemma atoi_digits l n : digits_value 0 l = Some n -> atoi l = Some (Z.of_N n).
Proof.
  intros Hv. pose proof (digits_value_all _ _ _ Hv) as Hall. destruct l as [|a l]; [by injection Hv as <-|].
  apply Forall_cons in Hall as [Ha _]. unfold atoi, is_digit in *.
  destruct (N.eqb_spec (code a) 45) as [He|_]; [by rewrite He in Ha|].
  destruct (N.eqb_spec (code a) 43) as [He|_]; [by rewrite He in Ha|]. by rewrite Hv.
Qed.

Lemma micros_digits l n r : length l = 6%nat -> digits_value 0 l = Some n ->
  micros ("."%char :: l ++ r) = Some (Z.of_N n, r).
Proof.
  intros Hl Hv. unfold micros. change (code ".") with 46%N. cbn [N.eqb Pos.eqb orb negb].
  rewrite length_app. destruct (Nat.ltb_spec (length l + length r) 6) as [?|_]; [lia|].
  rewrite <- Hl, take_app_length, drop_app_length, (atoi_digits _ _ Hv). cbn.
  destruct (Z.ltb_spec (Z.of_N n) 0); [lia|done].
Qed.

Lemma padded w n : (w <> 0)%nat -> 0 <= n < 10 ^ Z.of_nat w ->
  length (bytes (pad_int w n)) = w /\ digits_value 0 (bytes (pad_int w n)) = Some (Z.to_N n).
Proof. intros Hw Hn. rewrite length_bytes. split; [by apply pad_int_length|apply pad_int_value; lia]. Qed.

Lemma parse_field w n (P : list ascii -> Z -> Prop) : (w <> 0)%nat -> 0 <= n < 10 ^ Z.of_nat w ->
  (forall l k, length l = w -> digits_value 0 l = Some k -> P l (Z.of_N k)) -> P (bytes (pad_int w n)) n.
Proof.
  intros Hw Hn HP. destruct (padded w n Hw Hn) as [Hl Hv]. pose proof (HP _ _ Hl Hv) as Hp.
  by rewrite Z2N.id in Hp by lia.
Qed.

Lemma getnum_pad fixed n r : 0 <= n < 100 -> getnum fixed (bytes (pad_int 2 n) ++ r) = Some (n, r).
Proof. intros Hn. apply (parse_field 2 n (fun l k => getnum fixed (l ++ r) = Some (k, r))); [done|done|]. intros. by apply getnum_digits. Qed.
Lemma year4_pad n r : 0 <= n < 10000 -> year4 (bytes (pad_int 4 n) ++ r) = Some (n, r).
Proof. intros Hn. apply (parse_field 4 n (fun l k => year4 (l ++ r) = Some (k, r))); [done|done|]. intros. by apply year4_digits. Qed.
Lemma micros_pad n r : 0 <= n < 1000000 -> micros ("."%char :: bytes (pad_int 6 n) ++ r) = Some (n, r).
Proof. intros Hn. apply (parse_field 6 n (fun l k => micros ("."%char :: l ++ r) = Some (k, r))); [done|done|]. intros. by apply micros_digits. Qed.

(** A UTC instant at microsecond precision between the years 1 and 9999 is
    read back from its text. *)
Lemma parse_format_micro t : utc_micro t = t -> 0 <= t.(instant) < year_10000 -> parse_micro (format_micro t) = Some t.
Proof.
  intros Hn Hi. destruct t as [i u]. unfold utc_micro, UTC, TruncateMicro, Microsecond in Hn. cbn in Hn, Hi.
  injection Hn as Hmod <-. unfold format_micro. cbn [instant].
  set (sec := i / 1000000000). set (micro := i mod 1000000000 / 1000).
  pose proof (civil_spec (sec / 86400)) as Hc. destruct (civil (sec / 86400)) as [[y m] d].
  destruct Hc as (Hday & Hm & Hd). set (sod := sec mod 86400).
  pose proof (days_in_bound m y) as Hbound. unfold year_10000 in Hi.
  assert (Hsec : 0 <= sec / 86400 < 3652059) by (unfold sec; Z.div_mod_to_equations; lia).
  assert (Hy : 0 <= y < 10000) by (apply (civil_year y m d); lia).
  assert (Hsod : 0 <= sod < 86400) by (apply Z.mod_pos_bound; lia).
  assert (Hmicro : 0 <= micro < 1000000) by (unfold micro; Z.div_mod_to_equations; lia).
  assert (Hh : 0 <= sod / 3600 < 24) by (Z.div_mod_to_equations; lia).
  assert (Hmin : 0 <= sod / 60 mod 60 < 60) by (apply Z.mod_pos_bound; lia).
  assert (Hs : 0 <= sod mod 60 < 60) by (apply Z.mod_pos_bound; lia).
  assert (Htime : (days_of_civil y m d * 86400 + sod / 3600 * 3600 + sod / 60 mod 60 * 60 + sod mod 60) * 1000000000
                  + micro * 1000 = i).
  { rewrite Hday. unfold sod, micro, sec. clear - Hmod. Z.div_mod_to_equations; lia. }
  unfold parse_micro. rewrite !bytes_append. cbn [bytes app].
  rewrite year4_pad by done. cbn [mbind option_bind].
  do 3 (rewrite literal_cons; cbn [mbind option_bind]; rewrite getnum_pad by lia; cbn [mbind option_bind]).
  do 2 (rewrite literal_cons; cbn [mbind option_bind]; rewrite getnum_pad by lia; cbn [mbind option_bind]).
  rewrite micros_pad by done. cbn [mbind option_bind]. rewrite literal_cons. cbn [mbind option_bind length Nat.eqb negb orb].
  destruct (Z.leb_spec 1 m), (Z.leb_spec m 12), (Z.leb_spec 1 d), (Z.leb_spec d (days_in m y)),
    (Z.leb_spec 24 (sod / 3600)), (Z.leb_spec 60 (sod / 60 mod 60)), (Z.leb_spec 60 (sod mod 60)); try lia.
  cbn. by rewrite Htime.
Qed.
