(* ===== verification/Externals.v ===== *)
(** * Code outside the repository: shopspring/decimal, google/uuid, encoding/json

    The repository's arithmetic is [github.com/shopspring/decimal] and its
    identifiers are [github.com/google/uuid]. Neither is under [src/], so both
    are parameters of the development: the operation classes below list the
    functions the modelled code calls, and the law classes state their
    documented behaviour. [encoding/json] is used only to decide whether bytes
    hold a JSON object, to compare two documents and to print strings; those
    entry points are an operation class too.

    The documented meaning of a decimal is [Coefficient * 10 ^ Exponent]; [val]
    is that rational number, and every law is stated through it. *)

From S2P Require Import Prelude GoStd.
From Stdlib Require Import Qpower.

(** ** Operations *)

Class DecimalOps := {
  dec : Type;
  Coefficient : dec -> Z;
  Exponent : dec -> Z;
  NumDigits : dec -> Z;
  DecimalString : dec -> string;
  New : Z -> Z -> dec;                (* decimal.New(value, exp) *)
  NewFromInt : Z -> dec;
  Zero : dec;                         (* decimal.Zero *)
  ZeroValue : dec;                    (* decimal.Decimal{} *)
  Add : dec -> dec -> dec;
  Sub : dec -> dec -> dec;
  Mul : dec -> dec -> dec;
  Div : dec -> dec -> dec;            (* for a nonzero divisor *)
  Mod : dec -> dec -> dec;            (* for a nonzero divisor *)
  Neg : dec -> dec;
  Abs : dec -> dec;
  Min : dec -> dec -> dec;
  Max : dec -> dec -> dec;
  Shift : dec -> Z -> dec;            (* moves the decimal point to the right *)
  Ceil : dec -> dec;
  Round : dec -> Z -> dec;
  RoundCeil : dec -> Z -> dec;
  RoundFloor : dec -> Z -> dec;
  Truncate : dec -> Z -> dec;
  Floor : dec -> dec;
  NewFromString : string -> option dec;   (* None: the error *)
  Sign : dec -> Z;
  Cmp : dec -> dec -> comparison;
}.

(** [type UUID [16]byte] *)
Definition UUID : Type := string.
Definition Nil : UUID := of_bytes (repeat (byte_of 0) 16).

Class UuidOps := {
  uuid_string : UUID -> string;        (* id.String() *)
  uuid_parse : string -> option UUID;  (* uuid.Parse; None: the error *)
}.

Class JsonOps := {
  json : Type;
  json_deep_equal : json -> json -> bool;              (* reflect.DeepEqual *)
  json_unmarshal : string -> option json;              (* json.Unmarshal of the whole text *)
  json_valid : string -> bool;                         (* json.Valid *)
  json_decode : string -> option (json * string);      (* Decoder.Decode with UseNumber: a value, the rest *)
  json_eof : string -> bool;                           (* the next Decode is io.EOF *)
  json_object_size : json -> option nat;               (* members, when it is an object *)
  json_marshal : json -> string;                       (* json.Marshal of a decoded value *)
  json_marshal_string : string -> string;              (* json.Marshal of a Go string *)
  json_marshal_map : list (string * string) -> string; (* json.Marshal of a map[string]string *)
}.

Class Externals := {
  ext_decimal :: DecimalOps;
  ext_uuid :: UuidOps;
  ext_json :: JsonOps;
  ext_unicode :: UnicodeOps;
}.

(** ** Derived operations

    Documented in terms of the sign and of the three-way comparison. *)
Section derived.
Context `{DecimalOps}.

Definition IsZero (d : dec) : bool := (Sign d =? 0)%Z.
Definition IsPositive (d : dec) : bool := (0 <? Sign d)%Z.
Definition IsNegative (d : dec) : bool := (Sign d <? 0)%Z.
Definition Equal (a b : dec) : bool := match Cmp a b with Eq => true | _ => false end.
Definition GreaterThan (a b : dec) : bool := match Cmp a b with Gt => true | _ => false end.
Definition LessThan (a b : dec) : bool := match Cmp a b with Lt => true | _ => false end.

(** [a.Div(b)] panics on a zero divisor. *)
Definition checked_Div (a b : dec) : outcome dec :=
  if IsZero b then Panic DivisionByZero else Ok (Div a b).

Definition val (d : dec) : Q := (inject_Z (Coefficient d) * (10 # 1) ^ Exponent d)%Q.
End derived.

(** ** Laws *)

Class DecimalLaws `{DecimalOps} : Prop := {
  val_New v e : (val (New v e) == inject_Z v * (10 # 1) ^ e)%Q;
  val_NewFromInt v : (val (NewFromInt v) == inject_Z v)%Q;
  val_Zero : (val Zero == 0)%Q;
  val_ZeroValue : (val ZeroValue == 0)%Q;
  val_Add a b : (val (Add a b) == val a + val b)%Q;
  val_Sub a b : (val (Sub a b) == val a - val b)%Q;
  val_Mul a b : (val (Mul a b) == val a * val b)%Q;
  val_Neg a : (val (Neg a) == - val a)%Q;
  val_Abs a : (val (Abs a) == Qabs (val a))%Q;
  val_Min a b : (val a <= val b /\ val (Min a b) == val a)%Q \/
                (val b <= val a /\ val (Min a b) == val b)%Q;
  val_Max a b : (val b <= val a /\ val (Max a b) == val a)%Q \/
                (val a <= val b /\ val (Max a b) == val b)%Q;
  val_Shift a n : (val (Shift a n) == val a * (10 # 1) ^ n)%Q;
  Ceil_spec a : (val (Ceil a) == inject_Z (Qceiling (val a)))%Q;
  Sign_spec a : (Sign a = 1%Z /\ 0 < val a)%Q \/ (Sign a = 0%Z /\ val a == 0)%Q \/
                (Sign a = (-1)%Z /\ val a < 0)%Q;
  Cmp_spec a b : Cmp a b = (val a ?= val b)%Q;
  (* Round: the nearest multiple of 10^-places. *)
  Round_grid a p : exists k : Z, (val (Round a p) == inject_Z k * (10 # 1) ^ (- p))%Q;
  Round_near a p : (Qabs (val (Round a p) - val a) <= (1 # 2) * (10 # 1) ^ (- p))%Q;
  RoundCeil_grid a p : exists k : Z, (val (RoundCeil a p) == inject_Z k * (10 # 1) ^ (- p))%Q;
  RoundCeil_near a p : (val a <= val (RoundCeil a p) /\ val (RoundCeil a p) < val a + (10 # 1) ^ (- p))%Q;
  RoundFloor_grid a p : exists k : Z, (val (RoundFloor a p) == inject_Z k * (10 # 1) ^ (- p))%Q;
  RoundFloor_near a p : (val (RoundFloor a p) <= val a /\ val a < val (RoundFloor a p) + (10 # 1) ^ (- p))%Q;
  Truncate_int a : (0 <= val a)%Q -> (val (Truncate a 0) == inject_Z (Qfloor (val a)))%Q;
  Floor_spec a : (val (Floor a) == inject_Z (Qfloor (val a)))%Q;
  (* String: fixed point, no trailing zeros, so a value has one text. *)
  DecimalString_value a b : (val a == val b)%Q -> DecimalString a = DecimalString b;
  DecimalString_int a k : (0 <= k)%Z -> (val a == inject_Z k)%Q -> DecimalString a = Itoa (Z.to_N k);
  NewFromString_String a : exists b, NewFromString (DecimalString a) = Some b /\ (val b == val a)%Q;
  (* Div: rounded to the nearest multiple of 10^-16 (DivisionPrecision). *)
  Div_grid a b : ~ (val b == 0)%Q -> exists k : Z, (val (Div a b) == inject_Z k * (10 # 1) ^ (- 16))%Q;
  Div_half a b : ~ (val b == 0)%Q ->
                 (Qabs (val (Div a b) - val a / val b) <= (1 # 2) * (10 # 1) ^ (- 16))%Q;
  Mod_spec a b : ~ (val b == 0)%Q ->
                 exists k : Z, (val a == inject_Z k * val b + val (Mod a b))%Q /\
                               (Qabs (val (Mod a b)) < Qabs (val b))%Q;
  NumDigits_zero a : Coefficient a = 0%Z -> NumDigits a = 1%Z;
  NumDigits_spec a : Coefficient a <> 0%Z ->
                     (1 <= NumDigits a /\
                      10 ^ (NumDigits a - 1) <= Z.abs (Coefficient a) < 10 ^ NumDigits a)%Z;
}.

(** The canonical text of a UUID determines it and has no white space. *)
Class UuidLaws `{UuidOps} : Prop := {
  uuid_string_inj :: Inj (=) (=) uuid_string;
  uuid_parse_string u : uuid_parse (uuid_string u) = Some u;
  uuid_string_graphic u : string_forallb graphic (uuid_string u) = true;
}.

(** [{}] is an object, comparing a document with itself succeeds, and a
    marshalled string map is an object. *)
Class JsonLaws `{JsonOps} : Prop := {
  json_empty_object : exists v, json_unmarshal "{}" = Some v /\ json_object_size v = Some 0%nat;
  json_unmarshal_valid s v : json_unmarshal s = Some v -> json_valid s = true;
  json_deep_equal_refl v : json_deep_equal v v = true;
  json_decode_unmarshal s v : json_unmarshal s = Some v -> is_Some (json_decode s);
  json_marshal_map_object kvs :
    exists v n, json_unmarshal (json_marshal_map kvs) = Some v /\ json_object_size v = Some n;
  json_marshal_map_nonempty kvs : json_marshal_map kvs <> EmptyString;
}.

Class ExternalLaws `{E : Externals} : Prop := {
  decimal_laws :: DecimalLaws;
  uuid_laws :: UuidLaws;
  json_laws :: JsonLaws;
}.

(** ** Reasoning about decimals *)

Create Rewrite HintDb decval.

Section decimal.
Context `{L : DecimalLaws}.
Local Open Scope Q_scope.

Lemma Div_near a b : ~ val b == 0 -> Qabs (val (Div a b) - val a / val b) <= (10 # 1) ^ (- 16).
Proof.
  intros Hb. pose proof (Div_half a b Hb) as Hd. assert (0 < (10 # 1) ^ (- 16)) by reflexivity. lra.
Qed.

Lemma IsZero_true a : IsZero a = true <-> val a == 0.
Proof. unfold IsZero. destruct (Sign_spec a) as [[-> ?]|[[-> ?]|[-> ?]]]; simpl; split; intros; try done; lra. Qed.
Lemma IsZero_false a : IsZero a = false <-> ~ val a == 0.
Proof. rewrite <- IsZero_true. destruct (IsZero a); naive_solver. Qed.
Lemma IsPositive_true a : IsPositive a = true <-> 0 < val a.
Proof. unfold IsPositive. destruct (Sign_spec a) as [[-> ?]|[[-> ?]|[-> ?]]]; simpl; split; intros; try done; lra. Qed.
Lemma IsPositive_false a : IsPositive a = false <-> val a <= 0.
Proof. unfold IsPositive. destruct (Sign_spec a) as [[-> ?]|[[-> ?]|[-> ?]]]; simpl; split; intros; try done; lra. Qed.
Lemma IsNegative_true a : IsNegative a = true <-> val a < 0.
Proof. unfold IsNegative. destruct (Sign_spec a) as [[-> ?]|[[-> ?]|[-> ?]]]; simpl; split; intros; try done; lra. Qed.
Lemma IsNegative_false a : IsNegative a = false <-> 0 <= val a.
Proof. unfold IsNegative. destruct (Sign_spec a) as [[-> ?]|[[-> ?]|[-> ?]]]; simpl; split; intros; try done; lra. Qed.

Lemma Equal_true a b : Equal a b = true <-> val a == val b.
Proof.
  unfold Equal. rewrite Cmp_spec, Qeq_alt. destruct (val a ?= val b); split; congruence.
Qed.
Lemma Equal_false a b : Equal a b = false <-> ~ val a == val b.
Proof. rewrite <- Equal_true. destruct (Equal a b); naive_solver. Qed.
Lemma GreaterThan_true a b : GreaterThan a b = true <-> val b < val a.
Proof. unfold GreaterThan. rewrite Cmp_spec, Qgt_alt. destruct (val a ?= val b); split; congruence. Qed.
Lemma GreaterThan_false a b : GreaterThan a b = false <-> val a <= val b.
Proof.
  pose proof (GreaterThan_true a b) as Hgt. destruct (GreaterThan a b).
  - split; [done|]. intros. assert (val b < val a) by (by apply Hgt). lra.
  - split; [|done]. intros _. apply Qnot_lt_le. intros ?. by discriminate (proj2 Hgt).
Qed.
Lemma LessThan_true a b : LessThan a b = true <-> val a < val b.
Proof. unfold LessThan. rewrite Cmp_spec, Qlt_alt. destruct (val a ?= val b); split; congruence. Qed.

Lemma Sign_eq a b : Sign a = Sign b <->
  (0 < val a /\ 0 < val b) \/ (val a == 0 /\ val b == 0) \/ (val a < 0 /\ val b < 0).
Proof.
  destruct (Sign_spec a) as [[-> ?]|[[-> ?]|[-> ?]]], (Sign_spec b) as [[-> ?]|[[-> ?]|[-> ?]]];
    split; intros; try done; try lra; naive_solver lra.
Qed.

Lemma val_sign a : (0 < val a -> val (NewFromInt (Sign a)) == 1) /\
                   (val a < 0 -> val (NewFromInt (Sign a)) == -1).
Proof.
  rewrite val_NewFromInt. unfold inject_Z.
  destruct (Sign_spec a) as [[-> ?]|[[-> ?]|[-> ?]]]; split; intros; lra.
Qed.

Lemma checked_Div_Ok a b r : checked_Div a b = Ok r <-> ~ val b == 0 /\ r = Div a b.
Proof.
  unfold checked_Div. destruct (IsZero b) eqn:E.
  - apply IsZero_true in E. split; [done|]. naive_solver.
  - apply IsZero_false in E. split; naive_solver.
Qed.
End decimal.

#[export] Hint Rewrite @val_Add @val_Sub @val_Mul @val_Neg @val_Zero @val_ZeroValue
  @val_NewFromInt @val_Abs using (typeclasses eauto) : decval.

(** Push [val] through the arithmetic, in the goal or everywhere. *)
Ltac dec_push := autorewrite with decval.
Ltac dec_push_in H := autorewrite with decval in H.

(** Turn boolean tests on decimals in the hypotheses into rational facts. *)
Ltac dec_bools :=
  repeat match goal with
  | H : IsZero _ = true |- _ => apply IsZero_true in H
  | H : IsZero _ = false |- _ => apply IsZero_false in H
  | H : IsPositive _ = true |- _ => apply IsPositive_true in H
  | H : IsPositive _ = false |- _ => apply IsPositive_false in H
  | H : IsNegative _ = true |- _ => apply IsNegative_true in H
  | H : IsNegative _ = false |- _ => apply IsNegative_false in H
  | H : Equal _ _ = true |- _ => apply Equal_true in H
  | H : Equal _ _ = false |- _ => apply Equal_false in H
  | H : GreaterThan _ _ = true |- _ => apply GreaterThan_true in H
  | H : GreaterThan _ _ = false |- _ => apply GreaterThan_false in H
  | H : LessThan _ _ = true |- _ => apply LessThan_true in H
  end.
