(* ===== verification/Decimals.v ===== *)
(** * The NUMERIC(38,12) shape of an amount

    Every package of the economic core accepts a decimal when it equals its
    own rounding to twelve places and has at most 26 integer digits. These
    lemmas say what that test means for the number. *)

From S2P Require Import Prelude GoStd Externals.
From Stdlib Require Import Qpower.

Local Open Scope Q_scope.

(** The numbers a NUMERIC(38,12) column can hold. *)
Definition numeric_38_12 (q : Q) : Prop :=
  (exists k : Z, q == inject_Z k / inject_Z (10 ^ 12)) /\ Qabs q < inject_Z (10 ^ 26).

#[global] Instance numeric_38_12_proper : Proper (Qeq ==> iff) numeric_38_12.
Proof.
  intros p q H. unfold numeric_38_12. rewrite H. split; intros [[k Hk] ?]; (split; [exists k|done]).
  - by rewrite <- H.
  - by rewrite H.
Qed.

Lemma numeric_38_12_opp q : numeric_38_12 q -> numeric_38_12 (- q).
Proof.
  intros [[k Hk] Hlt]. split; [|by rewrite Qabs_opp].
  exists (- k)%Z. rewrite Hk, inject_Z_opp. field. discriminate.
Qed.

Lemma ten_power_pos e : 0 < (10 # 1) ^ e.
Proof. apply Qpower_0_lt. reflexivity. Qed.

Lemma ten_power_mono e f : (e <= f)%Z -> (10 # 1) ^ e <= (10 # 1) ^ f.
Proof. intros H. by apply Qpower_le_compat_l. Qed.

Lemma ten_power_mono_inv e f : (10 # 1) ^ e < (10 # 1) ^ f -> (e < f)%Z.
Proof.
  intros H. destruct (Z.lt_ge_cases e f) as [?|Hle]; [done|]. apply ten_power_mono in Hle. lra.
Qed.

Lemma inject_small (k : Z) : Qabs (inject_Z k) < 1 -> k = 0%Z.
Proof.
  intros H. assert (Hk : inject_Z (Z.abs k) < inject_Z 1) by exact H.
  rewrite <- Zlt_Qlt in Hk. lia.
Qed.

Section shape.
Context `{L : DecimalLaws}.

Definition fits (v : dec) : bool := Equal v (Round v 12) && (NumDigits v + Exponent v <=? 26)%Z.

Lemma Equal_Round_iff v :
  Equal v (Round v 12) = true <-> exists k : Z, val v == inject_Z k / inject_Z (10 ^ 12).
Proof.
  destruct (Round_grid v 12) as [k Hk]. pose proof (Round_near v 12) as Hnear.
  change ((10 # 1) ^ (- (12))) with (1 # 1000000000000) in *.
  change (inject_Z (10 ^ 12)) with (1000000000000 # 1).
  rewrite Equal_true. split.
  - intros Heq. exists k. rewrite Heq, Hk. field.
  - intros [j Hj].
    assert (Hjk : Qabs (inject_Z (k - j)) < 1).
    { rewrite Hk, Hj in Hnear. unfold Z.sub. rewrite inject_Z_plus, inject_Z_opp.
      assert (Heq : inject_Z k * (1 # 1000000000000) - inject_Z j / (1000000000000 # 1) ==
                    (inject_Z k + - inject_Z j) * (1 # 1000000000000)) by field.
      rewrite Heq, Qabs_Qmult in Hnear. change (Qabs (1 # 1000000000000)) with (1 # 1000000000000) in Hnear. lra. }
    apply inject_small in Hjk. rewrite Hk, Hj. replace k with j by lia. field.
Qed.

Lemma val_coefficient_zero v : val v == 0 <-> Coefficient v = 0%Z.
Proof.
  unfold val. pose proof (ten_power_pos (Exponent v)) as Hp. split.
  - intros Hz. apply Qmult_integral in Hz as [Hz|Hz]; [|lra]. unfold Qeq in Hz. simpl in Hz. lia.
  - intros ->. ring.
Qed.

Lemma digits_iff v : ~ val v == 0 ->
  (NumDigits v + Exponent v <= 26)%Z <-> Qabs (val v) < inject_Z (10 ^ 26).
Proof.
  intros Hv. rewrite val_coefficient_zero in Hv.
  destruct (NumDigits_spec v Hv) as (Hn & Hlo & Hhi). set (n := NumDigits v) in *.
  pose proof (ten_power_pos (Exponent v)) as Hp.
  assert (Habs : Qabs (val v) == inject_Z (Z.abs (Coefficient v)) * (10 # 1) ^ Exponent v).
  { unfold val. rewrite Qabs_Qmult, (Qabs_pos ((10 # 1) ^ _)) by lra. reflexivity. }
  assert (Hten : inject_Z (10 ^ 26) == (10 # 1) ^ 26) by reflexivity.
  assert (Hsplit : forall a, (0 <= a)%Z -> inject_Z (10 ^ a) * (10 # 1) ^ Exponent v == (10 # 1) ^ (a + Exponent v)).
  { intros a Ha. rewrite Zpower_Qpower by done. rewrite Qpower_plus; [reflexivity|discriminate]. }
  rewrite Habs, Hten. split.
  - intros H26. eapply Qlt_le_trans; [|apply (ten_power_mono (n + Exponent v)); lia].
    rewrite <- Hsplit by lia. apply Qmult_lt_r; [done|]. by rewrite <- Zlt_Qlt.
  - intros Hlt. enough (n - 1 + Exponent v < 26)%Z by lia. apply ten_power_mono_inv.
    eapply Qle_lt_trans; [|exact Hlt]. rewrite <- Hsplit by lia. apply Qmult_le_r; [done|]. by rewrite <- Zle_Qle.
Qed.

Lemma fits_iff v : ~ val v == 0 -> fits v = true <-> numeric_38_12 (val v).
Proof.
  intros Hv. unfold fits, numeric_38_12. rewrite andb_true_iff, Equal_Round_iff, Z.leb_le, digits_iff by done.
  reflexivity.
Qed.

Lemma fits_numeric v : fits v = true -> numeric_38_12 (val v).
Proof.
  intros Hf. destruct (Qeq_dec (val v) 0) as [Hz|Hz]; [|by apply fits_iff].
  unfold fits in Hf. apply andb_true_iff in Hf as [He _]. apply Equal_Round_iff in He.
  split; [done|]. rewrite Hz. reflexivity.
Qed.
End shape.
