(* ===== verification/Instances.v ===== *)
(** * Concrete instances of the external code

    The laws of [Externals] are satisfiable: decimals as a coefficient and an
    exponent, the RFC 4122 text of a UUID, and a small recogniser for JSON.
    These instances are what the witnesses of the properties compute with; no
    theorem about the program depends on them. *)

From S2P Require Import Prelude GoStd Digits Externals.
From Stdlib Require Import Qpower Ascii.

(** ** Decimals: coefficient and exponent *)

Module Decimal.
Local Open Scope Z_scope.

Record t := Mk { coef : Z; exp : Z }.

(** [c * 10^e] written with the smaller exponent [m]. *)
Definition scale (d : t) (m : Z) : Z := coef d * 10 ^ (exp d - m).

(** Division of integers rounded half away from zero. *)
Definition div_away (n d : Z) : Z := Z.sgn n * Z.sgn d * ((2 * Z.abs n + Z.abs d) / (2 * Z.abs d)).

Definition low (a b : t) : Z := Z.min (exp a) (exp b).
Definition add (a b : t) : t := Mk (scale a (low a b) + scale b (low a b)) (low a b).
Definition neg (a : t) : t := Mk (- coef a) (exp a).
Definition abs (a : t) : t := Mk (Z.abs (coef a)) (exp a).
Definition sub (a b : t) : t := add a (neg b).
Definition mul (a b : t) : t := Mk (coef a * coef b) (exp a + exp b).
Definition cmp (a b : t) : comparison := scale a (low a b) ?= scale b (low a b).
Definition sign (a : t) : Z := Z.sgn (coef a).
Definition min (a b : t) : t := match cmp a b with Gt => b | _ => a end.
Definition round (a : t) (p : Z) : t :=
  if - p <=? exp a then Mk (scale a (- p)) (- p)
  else Mk (div_away (coef a) (10 ^ (- p - exp a))) (- p).
Definition div (a b : t) : t :=
  let k := exp a - exp b + 16 in
  if 0 <=? k then Mk (div_away (coef a * 10 ^ k) (coef b)) (- 16)
  else Mk (div_away (coef a) (coef b * 10 ^ (- k))) (- 16).
Definition modulo (a b : t) : t := Mk (Z.rem (scale a (low a b)) (scale b (low a b))) (low a b).

Fixpoint count_digits (fuel : nat) (n : Z) : Z :=
  match fuel with
  | O => 1
  | S fuel' => if n <? 10 then 1 else 1 + count_digits fuel' (n / 10)
  end.
Definition num_digits (a : t) : Z :=
  count_digits (Z.to_nat (Z.log2 (Z.abs (coef a)))) (Z.abs (coef a)).

Definition truncate (a : t) (p : Z) : t :=
  if (0 <=? p) && (exp a <? - p) then Mk (Z.quot (coef a) (10 ^ (- p - exp a))) (- p) else a.
Definition round_floor (a : t) (p : Z) : t :=
  if - p <=? exp a then Mk (scale a (- p)) (- p) else Mk (coef a / 10 ^ (- p - exp a)) (- p).
Definition round_ceil (a : t) (p : Z) : t := neg (round_floor (neg a) p).

(** The representation without trailing zeros; each step divides the
    coefficient by ten, so its binary length is enough fuel. *)
Fixpoint normal (fuel : nat) (a : t) : t :=
  match fuel with
  | O => a
  | S fuel' =>
      if coef a =? 0 then Mk 0 0
      else if coef a mod 10 =? 0 then normal fuel' (Mk (coef a / 10) (exp a + 1)) else a
  end.
Definition normalize (a : t) : t := normal (S (Z.to_nat (Z.log2 (Z.abs (coef a))))) a.

Definition print (a : t) : string :=
  let magnitude := Z.abs (coef a) in
  let body :=
    if 0 <=? exp a then Itoa (Z.to_N (magnitude * 10 ^ exp a))
    else
      let p := 10 ^ (- exp a) in
      (Itoa (Z.to_N (magnitude / p)) +:+ "." +:+ pad_int (Z.to_nat (- exp a)) (magnitude mod p))%string in
  if coef a <? 0 then ("-" +:+ body)%string else body.
Definition to_string (a : t) : string := print (normalize a).

(** The text before and after the point. *)
Fixpoint split_point (l : list ascii) : list ascii * list ascii :=
  match l with
  | [] => ([], [])
  | a :: rest =>
      if (code a =? 46)%N then ([], rest) else let '(int, frac) := split_point rest in (a :: int, frac)
  end.

Definition of_digits (l : list ascii) : option t :=
  let '(int, frac) := split_point l in
  n ← digits_value 0 (int ++ frac) ;
  Some (Mk (Z.of_N n) (- Z.of_nat (length frac))).

Definition of_string (s : string) : option t :=
  match s with
  | String "-" rest => neg <$> of_digits (bytes rest)
  | _ => of_digits (bytes s)
  end.

#[export] Instance ops : DecimalOps := {
  dec := t;
  Coefficient := coef; Exponent := exp; NumDigits := num_digits; DecimalString := to_string;
  New := Mk; NewFromInt v := Mk v 0; Zero := Mk 0 1; ZeroValue := Mk 0 0;
  Add := add; Sub := sub; Mul := mul; Div := div; Mod := modulo; Neg := neg; Abs := abs;
  Min := min; Max a b := neg (min (neg a) (neg b)); Shift a n := Mk (coef a) (exp a + n); Ceil a := neg (round_floor (neg a) 0);
  Round := round; RoundCeil := round_ceil; RoundFloor := round_floor; Truncate := truncate;
  Floor a := round_floor a 0;
  NewFromString := of_string; Sign := sign; Cmp := cmp;
}.

Example to_string_example : to_string (Mk (-1203400) (-4)) = "-120.34".
Proof. vm_compute. reflexivity. Qed.

Local Open Scope Q_scope.

Lemma ten_neq : ~ (10 # 1) == 0.
Proof. discriminate. Qed.

Lemma ten_pos e : 0 < (10 # 1) ^ e.
Proof. apply Qpower_0_lt. reflexivity. Qed.

Lemma ten_pow (k : Z) : (0 <= k)%Z -> inject_Z (10 ^ k) == (10 # 1) ^ k.
Proof. intros. rewrite Zpower_Qpower by done. reflexivity. Qed.

Lemma ten_split e a b : e = (a + b)%Z -> (10 # 1) ^ e == (10 # 1) ^ a * (10 # 1) ^ b.
Proof. intros ->. apply Qpower_plus, ten_neq. Qed.

Lemma val_eq (d : t) : val d = inject_Z (coef d) * (10 # 1) ^ exp d.
Proof. reflexivity. Qed.

Lemma val_scale (d : t) m : (m <= exp d)%Z -> inject_Z (scale d m) * (10 # 1) ^ m == val d.
Proof.
  intros. unfold scale, val; simpl. rewrite inject_Z_mult, ten_pow by lia.
  rewrite <- Qmult_assoc, <- (Qpower_plus _ _ _ ten_neq).
  replace (exp d - m + m)%Z with (exp d) by lia. reflexivity.
Qed.

Lemma val_low_l a b : inject_Z (scale a (low a b)) * (10 # 1) ^ low a b == val a.
Proof. apply val_scale. unfold low. lia. Qed.
Lemma val_low_r a b : inject_Z (scale b (low a b)) * (10 # 1) ^ low a b == val b.
Proof. apply val_scale. unfold low. lia. Qed.

Lemma val_add a b : val (add a b) == val a + val b.
Proof.
  rewrite <- (val_low_l a b), <- (val_low_r a b). unfold val at 1; simpl.
  rewrite inject_Z_plus. ring.
Qed.
Lemma val_neg a : val (neg a) == - val a.
Proof. unfold val; simpl. rewrite inject_Z_opp. ring. Qed.
Lemma val_mul a b : val (mul a b) == val a * val b.
Proof.
  unfold val; simpl. rewrite inject_Z_mult, (Qpower_plus _ _ _ ten_neq). ring.
Qed.
Lemma val_abs a : val (abs a) == Qabs (val a).
Proof.
  rewrite !val_eq. cbn [abs coef exp]. rewrite Qabs_Qmult, (Qabs_pos ((10 # 1) ^ _)).
  - reflexivity.
  - apply Qlt_le_weak, ten_pos.
Qed.

Lemma val_cmp a b : cmp a b = (val a ?= val b).
Proof.
  unfold cmp. rewrite <- (val_low_l a b), <- (val_low_r a b).
  pose proof (ten_pos (low a b)) as Hp.
  destruct (Z.compare_spec (scale a (low a b)) (scale b (low a b))) as [->|Hlt|Hlt]; symmetry.
  - by apply Qeq_alt.
  - apply Qlt_alt. apply Qmult_lt_r; [done|]. by rewrite <- Zlt_Qlt.
  - apply Qgt_alt. apply Qmult_lt_r; [done|]. by rewrite <- Zlt_Qlt.
Qed.

Lemma Qmult_neg_pos x p : 0 < p -> x < 0 -> x * p < 0.
Proof. intros. rewrite <- (Qmult_0_l p). by apply Qmult_lt_r. Qed.
Lemma Qmult_pos_pos x p : 0 < p -> 0 < x -> 0 < x * p.
Proof. intros. rewrite <- (Qmult_0_l p). by apply Qmult_lt_r. Qed.

Lemma sign_spec a : (sign a = 1%Z /\ 0 < val a) \/ (sign a = 0%Z /\ val a == 0) \/
                    (sign a = (-1)%Z /\ val a < 0).
Proof.
  unfold sign. rewrite val_eq. pose proof (ten_pos (exp a)) as Hp.
  destruct (Z.lt_trichotomy (coef a) 0) as [Hc|[Hc|Hc]].
  - right; right. split; [lia|]. apply Qmult_neg_pos; [done|].
    change 0 with (inject_Z 0). by rewrite <- Zlt_Qlt.
  - right; left. split; [lia|]. rewrite Hc. ring.
  - left. split; [lia|]. apply Qmult_pos_pos; [done|].
    change 0 with (inject_Z 0). by rewrite <- Zlt_Qlt.
Qed.

Lemma min_spec a b : (val a <= val b /\ val (min a b) == val a) \/
                     (val b <= val a /\ val (min a b) == val b).
Proof.
  unfold min. rewrite val_cmp. destruct (val a ?= val b) eqn:E.
  - apply Qeq_alt in E. left. split; [lra|reflexivity].
  - apply Qlt_alt in E. left. split; [lra|reflexivity].
  - apply Qgt_alt in E. right. split; [lra|reflexivity].
Qed.

(** Rounding half away from zero is within half of the divisor. *)
Lemma div_away_near n d : (d <> 0)%Z ->
  Qabs (inject_Z (div_away n d) - inject_Z n / inject_Z d) <= 1 # 2.
Proof.
  intros Hd.
  assert (Hz : (2 * Z.abs (div_away n d * d - n) <= Z.abs d)%Z).
  { unfold div_away.
    pose proof (Z.div_mod (2 * Z.abs n + Z.abs d) (2 * Z.abs d)).
    pose proof (Z.mod_pos_bound (2 * Z.abs n + Z.abs d) (2 * Z.abs d)).
    set (q := ((2 * Z.abs n + Z.abs d) / (2 * Z.abs d))%Z) in *.
    set (r := ((2 * Z.abs n + Z.abs d) mod (2 * Z.abs d))%Z) in *.
    destruct (Z.lt_trichotomy n 0) as [Hn|[Hn|Hn]];
    destruct (Z.lt_trichotomy d 0) as [Hd'|[Hd'|Hd']]; try lia;
    rewrite ?(Z.sgn_neg n), ?(Z.sgn_pos n), ?(Z.sgn_neg d), ?(Z.sgn_pos d) by lia; nia. }
  assert (Hdq : ~ inject_Z d == 0).
  { intros Hq. apply Hd. by apply (inject_Z_injective d 0). }
  assert (Heq : inject_Z (div_away n d) - inject_Z n / inject_Z d
                == inject_Z (div_away n d * d - n) / inject_Z d).
  { unfold Z.sub. rewrite inject_Z_plus, inject_Z_mult, inject_Z_opp. by field. }
  rewrite Heq. unfold Qdiv. rewrite Qabs_Qmult, Qabs_Qinv.
  assert (Hpos : 0 < Qabs (inject_Z d)).
  { change (0 < inject_Z (Z.abs d)). change 0 with (inject_Z 0). rewrite <- Zlt_Qlt. lia. }
  apply Qle_shift_div_r; [done|].
  change (inject_Z (Z.abs (div_away n d * d - n)) <= (1 # 2) * inject_Z (Z.abs d)).
  rewrite Zle_Qle, inject_Z_mult in Hz. change (inject_Z 2) with 2 in Hz. lra.
Qed.

Lemma near_scale x y p e : 0 < p -> x == y * p ->
  Qabs (inject_Z e - y) <= 1 # 2 -> Qabs (inject_Z e * p - x) <= (1 # 2) * p.
Proof.
  intros Hp Hx He.
  assert (Heq : inject_Z e * p - x == (inject_Z e - y) * p) by (rewrite Hx; ring).
  rewrite Heq, Qabs_Qmult, (Qabs_pos p) by lra. apply Qmult_le_compat_r; [done|]. by apply Qlt_le_weak.
Qed.

Lemma round_grid a p : exists k : Z, val (round a p) == inject_Z k * (10 # 1) ^ (- p).
Proof. unfold round. destruct (_ <=? _)%Z; eexists; reflexivity. Qed.

Lemma round_near a p : Qabs (val (round a p) - val a) <= (1 # 2) * (10 # 1) ^ (- p).
Proof.
  pose proof (ten_pos (- p)) as Hp. unfold round. destruct (- p <=? exp a)%Z eqn:E.
  - apply Z.leb_le in E. rewrite val_eq. cbn [coef exp]. rewrite (val_scale a (- p)) by done.
    assert (Hz : val a - val a == 0) by ring. rewrite Hz. change (Qabs 0) with 0. lra.
  - apply Z.leb_gt in E. rewrite val_eq. cbn [coef exp].
    assert (10 ^ (- p - exp a) <> 0)%Z by (apply Z.pow_nonzero; lia).
    eapply near_scale; [done| |by apply div_away_near].
    rewrite val_eq, ten_pow by lia.
    assert (Hs : (10 # 1) ^ (- p) == (10 # 1) ^ (- p - exp a) * (10 # 1) ^ exp a).
    { rewrite <- (Qpower_plus _ _ _ ten_neq). by replace (- p - exp a + exp a)%Z with (- p)%Z by lia. }
    rewrite Hs. field. intros Hz. by apply (Qlt_not_eq _ _ (ten_pos (- p - exp a))).
Qed.

Lemma div_grid a b : exists k : Z, val (div a b) == inject_Z k * (10 # 1) ^ (- 16).
Proof. unfold div. destruct (_ <=? _)%Z; eexists; reflexivity. Qed.

Lemma div_half a b : ~ val b == 0 -> Qabs (val (div a b) - val a / val b) <= (1 # 2) * (10 # 1) ^ (- 16).
Proof.
  intros Hb.
  assert (Hc : coef b <> 0%Z).
  { intros Hc. apply Hb. rewrite val_eq, Hc. ring. }
  assert (Hcq : ~ inject_Z (coef b) == 0).
  { intros Hq. apply Hc. by apply (inject_Z_injective (coef b) 0). }
  assert (Hne : forall e, ~ (10 # 1) ^ e == 0).
  { intros e Hz. by apply (Qlt_not_eq _ _ (ten_pos e)). }
  pose proof (ten_pos (- 16)) as Hp.
  unfold div. destruct (0 <=? exp a - exp b + 16)%Z eqn:E.
  - apply Z.leb_le in E. rewrite val_eq. cbn [coef exp].
    eapply near_scale; [done| |by apply div_away_near].
    rewrite !val_eq, inject_Z_mult, ten_pow by done.
    rewrite (ten_split (exp a) (exp a - exp b + 16) (exp b + - 16)) by lia.
    rewrite (ten_split (exp b + - 16) (exp b) (- 16)) by lia. by field.
  - apply Z.leb_gt in E. rewrite val_eq. cbn [coef exp].
    assert (coef b * 10 ^ (- (exp a - exp b + 16)) <> 0)%Z.
    { apply Z.neq_mul_0; split; [done|]. apply Z.pow_nonzero; lia. }
    eapply near_scale; [done| |by apply div_away_near].
    rewrite !val_eq, inject_Z_mult, ten_pow by lia.
    rewrite (ten_split (exp b) (exp a) (- (exp a - exp b + 16) + 16)) by lia.
    rewrite (ten_split (- (exp a - exp b + 16) + 16) (- (exp a - exp b + 16)) 16) by lia.
    assert (Hs : (10 # 1) ^ (- 16) == / (10 # 1) ^ 16) by (by rewrite <- Qpower_opp).
    rewrite Hs. field. repeat split; auto.
Qed.

Lemma mod_spec a b : ~ val b == 0 ->
  exists k : Z, val a == inject_Z k * val b + val (modulo a b) /\
                Qabs (val (modulo a b)) < Qabs (val b).
Proof.
  intros Hb. pose proof (ten_pos (low a b)) as Hp.
  assert (Hs : scale b (low a b) <> 0%Z).
  { intros Hz. apply Hb. rewrite <- (val_low_r a b), Hz. ring. }
  exists (Z.quot (scale a (low a b)) (scale b (low a b))). split.
  - rewrite <- (val_low_l a b), <- (val_low_r a b), (val_eq (modulo a b)).
    cbn [modulo coef exp].
    rewrite (Z.quot_rem' (scale a (low a b)) (scale b (low a b))) at 1.
    rewrite inject_Z_plus, inject_Z_mult. ring.
  - rewrite <- (val_low_r a b), (val_eq (modulo a b)). cbn [modulo coef exp].
    rewrite !Qabs_Qmult. apply Qmult_lt_r; [rewrite Qabs_pos; lra|].
    change (inject_Z (Z.abs (Z.rem (scale a (low a b)) (scale b (low a b))))
            < inject_Z (Z.abs (scale b (low a b)))).
    rewrite <- Zlt_Qlt. by apply Z.rem_bound_abs.
Qed.

Lemma count_digits_spec fuel n : (0 < n)%Z -> (Z.log2 n <= Z.of_nat fuel)%Z ->
  (1 <= count_digits fuel n /\
   10 ^ (count_digits fuel n - 1) <= n < 10 ^ count_digits fuel n)%Z.
Proof.
  revert n. induction fuel as [|fuel IH]; intros n Hn Hl; simpl.
  - assert (n = 1)%Z; [|subst; simpl; lia].
    destruct (Z.log2_spec n Hn) as [_ Hlt].
    assert (Z.log2 n = 0)%Z as Hz by (pose proof (Z.log2_nonneg n); lia). rewrite Hz in Hlt. simpl in Hlt. lia.
  - destruct (n <? 10)%Z eqn:E; [apply Z.ltb_lt in E; simpl; lia|]. apply Z.ltb_ge in E.
    assert (0 < n / 10)%Z by (apply Z.div_str_pos; lia).
    assert (Hlog : (Z.log2 (n / 10) <= Z.log2 n - 1)%Z).
    { assert (Z.log2 (n / 10) < Z.log2 n)%Z; [|lia].
      apply Z.log2_lt_pow2; [done|].
      destruct (Z.log2_spec n Hn) as [_ Hlt].
      apply Z.div_lt_upper_bound; [lia|]. rewrite <- Z.add_1_r, Z.pow_add_r in Hlt by (try apply Z.log2_nonneg; lia).
      assert (0 < 2 ^ Z.log2 n)%Z by (apply Z.pow_pos_nonneg; [lia|apply Z.log2_nonneg]). lia. }
    destruct (IH (n / 10)%Z) as (H1 & H2 & H3); [done|lia|].
    set (k := count_digits fuel (n / 10)) in *.
    pose proof (Z.div_mod n 10). pose proof (Z.mod_pos_bound n 10).
    replace (1 + k - 1)%Z with (Z.succ (k - 1)) by lia.
    replace (1 + k)%Z with (Z.succ k) by lia.
    rewrite !Z.pow_succ_r by lia. lia.
Qed.

Lemma num_digits_zero (a : t) : coef a = 0%Z -> num_digits a = 1%Z.
Proof. intros Ha. unfold num_digits. by rewrite Ha. Qed.

Lemma num_digits_spec (a : t) : coef a <> 0%Z ->
  (1 <= num_digits a /\ 10 ^ (num_digits a - 1) <= Z.abs (coef a) < 10 ^ num_digits a)%Z.
Proof.
  intros Ha. apply count_digits_spec; [lia|].
  rewrite Z2Nat.id; [lia|apply Z.log2_nonneg].
Qed.

(** *** Directed rounding and truncation *)

Lemma scale_up (a : t) p : (exp a < - p)%Z ->
  (10 # 1) ^ (- p) == inject_Z (10 ^ (- p - exp a)) * (10 # 1) ^ exp a /\ (0 < 10 ^ (- p - exp a))%Z.
Proof.
  intros Hp. split; [|apply Z.pow_pos_nonneg; lia]. rewrite ten_pow by lia. apply ten_split. lia.
Qed.

Lemma floor_grid a p : exists k : Z, val (round_floor a p) == inject_Z k * (10 # 1) ^ (- p).
Proof. unfold round_floor. destruct (_ <=? _)%Z; eexists; reflexivity. Qed.

Lemma floor_near a p : val (round_floor a p) <= val a /\ val a < val (round_floor a p) + (10 # 1) ^ (- p).
Proof.
  pose proof (ten_pos (- p)) as Hp. unfold round_floor. destruct (Z.leb_spec (- p) (exp a)) as [Hle|Hlt].
  - rewrite (val_eq (Mk _ _)). cbn [coef exp]. rewrite (val_scale a (- p)) by done. lra.
  - destruct (scale_up a p Hlt) as [Hs Hk]. set (k := (10 ^ (- p - exp a))%Z) in *.
    pose proof (Z.div_mod (coef a) k ltac:(lia)) as Hd. pose proof (Z.mod_pos_bound (coef a) k Hk) as Hm.
    set (q := (coef a / k)%Z) in *. rewrite !val_eq. cbn [coef exp]. rewrite Hs.
    pose proof (ten_pos (exp a)) as He. set (e := (10 # 1) ^ exp a) in *.
    assert (Hl : (q * k <= coef a)%Z) by lia. assert (Hr : (coef a < q * k + k)%Z) by lia.
    rewrite Zle_Qle, inject_Z_mult in Hl. rewrite Zlt_Qlt, inject_Z_plus, inject_Z_mult in Hr.
    split; [rewrite Qmult_assoc; by apply Qmult_le_compat_r; [|apply Qlt_le_weak]|].
    assert (Heq : inject_Z q * (inject_Z k * e) + inject_Z k * e == (inject_Z q * inject_Z k + inject_Z k) * e) by ring.
    rewrite Heq. by apply Qmult_lt_r.
Qed.

Lemma ceil_grid a p : exists k : Z, val (round_ceil a p) == inject_Z k * (10 # 1) ^ (- p).
Proof.
  destruct (floor_grid (neg a) p) as [k Hk]. exists (- k)%Z. unfold round_ceil. rewrite val_neg, Hk, inject_Z_opp. ring.
Qed.

Lemma ceil_near a p : val a <= val (round_ceil a p) /\ val (round_ceil a p) < val a + (10 # 1) ^ (- p).
Proof.
  destruct (floor_near (neg a) p) as [H1 H2]. unfold round_ceil. rewrite val_neg in H1, H2. rewrite val_neg. lra.
Qed.

Lemma Qfloor_unique q (k : Z) : inject_Z k <= q -> q < inject_Z k + 1 -> Qfloor q = k.
Proof.
  intros H1 H2. pose proof (Qfloor_le q) as H3. pose proof (Qlt_floor q) as H4.
  assert (Ha : inject_Z k < inject_Z (Qfloor q + 1)) by lra.
  assert (Hb : inject_Z (Qfloor q) < inject_Z (k + 1)) by (rewrite inject_Z_plus; change (inject_Z 1) with 1; lra).
  rewrite <- Zlt_Qlt in Ha, Hb. lia.
Qed.

Lemma val_int (a : t) : (0 <= exp a)%Z -> val a == inject_Z (coef a * 10 ^ exp a).
Proof. intros. by rewrite val_eq, inject_Z_mult, ten_pow. Qed.

Lemma truncate_int a : 0 <= val a -> val (truncate a 0) == inject_Z (Qfloor (val a)).
Proof.
  intros Ha. unfold truncate. change (0 <=? 0)%Z with true. rewrite andb_true_l.
  destruct (Z.ltb_spec (exp a) (- 0)) as [Hlt|Hle].
  - pose proof (floor_near a 0) as [H1 H2]. unfold round_floor in H1, H2.
    destruct (Z.leb_spec (- 0) (exp a)); [lia|].
    assert (Hc : (0 <= coef a)%Z).
    { destruct (sign_spec a) as [[Hs _]|[[Hs _]|[_ ?]]]; [unfold sign in Hs; lia..|lra]. }
    destruct (scale_up a 0 ltac:(lia)) as [_ Hk].
    rewrite Z.quot_div_nonneg by lia.
    rewrite (val_eq (Mk _ _)) in H1, H2 |- *. cbn [coef exp] in H1, H2 |- *. change ((10 # 1) ^ (- 0)) with 1 in *. change ((10 # 1) ^ 0) with 1 in *.
    rewrite Qmult_1_r in *. by rewrite (Qfloor_unique (val a) _ H1 H2).
  - rewrite (val_int a) by done. by rewrite Qfloor_Z.
Qed.

Lemma floor_int a : val (round_floor a 0) == inject_Z (Qfloor (val a)).
Proof.
  destruct (floor_grid a 0) as [k Hk], (floor_near a 0) as [H1 H2]. change ((10 # 1) ^ (- 0)) with 1 in *.
  rewrite Qmult_1_r in Hk. rewrite Hk in H1, H2 |- *. by rewrite (Qfloor_unique _ k H1 H2).
Qed.

(** *** The representation without trailing zeros *)

Definition is_normal (a : t) : Prop := (coef a = 0 /\ exp a = 0)%Z \/ (coef a mod 10 <> 0)%Z.

Lemma val_shift c e : (c mod 10 = 0)%Z -> val (Mk (c / 10) (e + 1)) == val (Mk c e).
Proof.
  intros Hc. rewrite !val_eq. cbn [coef exp]. rewrite (ten_split (e + 1) 1 e) by lia.
  pose proof (Z.div_mod c 10 ltac:(done)) as Hd. rewrite Hc in Hd. rewrite Hd at 2.
  rewrite Z.add_0_r, inject_Z_mult. change (inject_Z 10) with (10 # 1). change ((10 # 1) ^ 1) with (10 # 1). ring.
Qed.

Lemma normal_val fuel a : val (normal fuel a) == val a.
Proof.
  revert a. induction fuel as [|fuel IH]; intros [c e]; cbn [normal coef exp]; [reflexivity|].
  destruct (Z.eqb_spec c 0) as [-> |Hc]; [rewrite !val_eq; cbn [coef exp]; ring|].
  destruct (Z.eqb_spec (c mod 10) 0) as [Hm|Hm]; [|reflexivity]. rewrite IH. by apply val_shift.
Qed.

Lemma normal_exp fuel a : (0 <= exp a -> 0 <= exp (normal fuel a))%Z.
Proof.
  revert a. induction fuel as [|fuel IH]; intros [c e]; cbn [normal coef exp]; [done|]. intros He.
  destruct (c =? 0)%Z; [done|]. destruct (c mod 10 =? 0)%Z; [apply IH; cbn; lia|done].
Qed.

Lemma normal_normal fuel a : (fuel <> 0)%nat -> (Z.abs (coef a) < 2 ^ Z.of_nat fuel)%Z -> is_normal (normal fuel a).
Proof.
  revert a. induction fuel as [|fuel IH]; intros [c e]; cbn [normal coef exp]; intros Hf Hc.
  - done.
  - destruct (Z.eqb_spec c 0) as [-> |Hz]; [by left|].
    destruct (Z.eqb_spec (c mod 10) 0) as [Hm|Hm]; [|by right].
    pose proof (Z.div_mod c 10 ltac:(done)). apply IH; cbn [coef].
    + intros ->. cbn in Hc. lia.
    + rewrite Nat2Z.inj_succ, Z.pow_succ_r in Hc by lia. lia.
Qed.

Lemma normalize_normal a : is_normal (normalize a).
Proof.
  apply normal_normal; [done|]. rewrite Nat2Z.inj_succ, Z2Nat.id by apply Z.log2_nonneg.
  destruct (Z.eq_dec (coef a) 0) as [-> |Hc]; [done|]. apply Z.log2_spec. lia.
Qed.

Lemma normal_unique_le a b : is_normal a -> is_normal b -> val a == val b -> (exp a <= exp b)%Z -> a = b.
Proof.
  intros Ha Hb Hv He. rewrite <- (val_scale b (exp a)), val_eq in Hv by done.
  pose proof (ten_pos (exp a)) as Hp. apply Qmult_inj_r in Hv; [|lra]. rewrite inject_Z_injective in Hv.
  unfold scale in Hv. destruct a as [c e], b as [c' e']. unfold is_normal in *. cbn [coef exp] in *.
  destruct (Z.eq_dec e e') as [-> |Hne].
  { rewrite Z.sub_diag, Z.pow_0_r, Z.mul_1_r in Hv. by rewrite Hv. }
  replace (e' - e)%Z with (Z.succ (e' - e - 1)) in Hv by lia. rewrite Z.pow_succ_r in Hv by lia.
  assert (Hm : (c mod 10 = 0)%Z).
  { rewrite Hv. replace (c' * (10 * 10 ^ (e' - e - 1)))%Z with (c' * 10 ^ (e' - e - 1) * 10)%Z by ring. by apply Z.mod_mul. }
  destruct Ha as [[-> ->]|?]; [|done].
  assert (Hpow : (0 < 10 ^ (e' - 0 - 1))%Z) by (apply Z.pow_pos_nonneg; lia).
  assert (Hc : c' = 0%Z) by nia. subst c'. destruct Hb as [[_ ->]|Hb]; [done|]. by destruct Hb.
Qed.

Lemma normalize_unique a b : val a == val b -> normalize a = normalize b.
Proof.
  intros Hv. assert (Hn : val (normalize a) == val (normalize b)) by (unfold normalize; rewrite !normal_val; exact Hv).
  destruct (Z.le_ge_cases (exp (normalize a)) (exp (normalize b))).
  - apply normal_unique_le; auto using normalize_normal.
  - symmetry. apply normal_unique_le; auto using normalize_normal. by symmetry.
Qed.

Lemma to_string_int a k : (0 <= k)%Z -> val a == inject_Z k -> to_string a = Itoa (Z.to_N k).
Proof.
  intros Hk Ha. unfold to_string. rewrite (normalize_unique a (Mk k 0)).
  2: { rewrite Ha, (val_eq (Mk k 0)). cbn. ring. }
  set (b := normalize (Mk k 0)).
  assert (He : (0 <= exp b)%Z) by (by apply normal_exp).
  assert (Hv : val b == inject_Z k).
  { unfold b, normalize. rewrite normal_val, (val_eq (Mk k 0)). cbn. ring. }
  rewrite val_int in Hv by done. rewrite inject_Z_injective in Hv.
  assert (0 < 10 ^ exp b)%Z by (apply Z.pow_pos_nonneg; lia).
  assert (0 <= coef b)%Z by nia. unfold print. rewrite (proj2 (Z.leb_le _ _) He).
  destruct (Z.ltb_spec (coef b) 0); [lia|]. rewrite Z.abs_eq by done. by rewrite Hv.
Qed.

(** *** Reading a printed decimal *)

Lemma split_point_digits l r n acc : digits_value acc l = Some n ->
  split_point l = (l, []) /\ split_point (l ++ byte_of 46 :: r) = (l, r).
Proof.
  revert acc. induction l as [|a l IH]; intros acc; cbn [digits_value split_point app]; [done|].
  destruct (is_digit a) eqn:Ha; [|done]. intros [-> ->]%IH. unfold is_digit in Ha.
  destruct (N.eqb_spec (code a) 46) as [Hd|_]; [by rewrite Hd in Ha|done].
Qed.

Lemma digits_value_acc l acc n m : digits_value acc l = Some m ->
  digits_value (acc + n) l = Some (m + n * 10 ^ N.of_nat (length l))%N.
Proof.
  revert acc n. induction l as [|a l IH]; intros acc n; cbn [digits_value length].
  - intros [= ->]. f_equal. cbn. lia.
  - destruct (is_digit a); [|done]. intros H.
    replace ((acc + n) * 10 + (code a - 48))%N with (acc * 10 + (code a - 48) + n * 10)%N by lia.
    rewrite (IH _ _ H), Nat2N.inj_succ, N.pow_succ_r'. f_equal. lia.
Qed.

Lemma unsigned s : (forall r, s <> String "-" r) -> of_string s = of_digits (bytes s).
Proof. intros Hs. destruct s as [|[[] [] [] [] [] [] [] []] r]; try done. by destruct (Hs r). Qed.

Lemma digits_not_dash s r n : digits_value 0 (bytes s) = Some n -> s <> String "-" r.
Proof. by intros H ->. Qed.

Definition body (m e : Z) : string :=
  if (0 <=? e)%Z then Itoa (Z.to_N (m * 10 ^ e))
  else (Itoa (Z.to_N (m / 10 ^ (- e))) +:+ "." +:+ pad_int (Z.to_nat (- e)) (m mod 10 ^ (- e)))%string.

Lemma print_body (a : t) :
  print a = if (coef a <? 0)%Z then ("-" +:+ body (Z.abs (coef a)) (exp a))%string else body (Z.abs (coef a)) (exp a).
Proof. reflexivity. Qed.

Lemma of_digits_body m e : (0 <= m)%Z -> exists b, of_digits (bytes (body m e)) = Some b /\ val b == val (Mk m e).
Proof.
  intros Hm. unfold body, of_digits. destruct (Z.leb_spec 0 e) as [He|He].
  - pose proof (Itoa_value (Z.to_N (m * 10 ^ e))) as Hv.
    destruct (split_point_digits _ [] _ _ Hv) as [-> _]. rewrite app_nil_r, Hv. eexists. split; [reflexivity|].
    assert (0 < 10 ^ e)%Z by (by apply Z.pow_pos_nonneg).
    rewrite (val_int (Mk m e)) by done. rewrite val_eq. cbn [coef exp length]. rewrite Z2N.id by nia.
    change ((10 # 1) ^ (- Z.of_nat 0)) with 1. ring.
  - set (p := (10 ^ (- e))%Z). assert (Hp : (0 < p)%Z) by (apply Z.pow_pos_nonneg; lia).
    pose proof (Z.mod_pos_bound m p Hp) as Hmod. pose proof (Z.div_mod m p ltac:(lia)) as Hd.
    pose proof (Z.div_pos m p ltac:(lia) ltac:(lia)) as Hq.
    pose proof (Itoa_value (Z.to_N (m / p))) as Hv.
    pose proof (pad_int_value (Z.to_nat (- e)) (m mod p) ltac:(lia)) as Hf.
    assert (Hl : length (bytes (pad_int (Z.to_nat (- e)) (m mod p))) = Z.to_nat (- e)).
    { rewrite length_bytes. apply pad_int_length; [|lia]. rewrite Z2Nat.id by lia. exact Hmod. }
    rewrite !bytes_append. cbn [bytes app].
    destruct (split_point_digits _ (bytes (pad_int (Z.to_nat (- e)) (m mod p))) _ _ Hv) as [_ Hs].
    change (byte_of 46) with "."%char in Hs. rewrite Hs, digits_value_app, Hv. cbn.
    apply (digits_value_acc _ 0 (Z.to_N (m / p))) in Hf. rewrite N.add_0_l in Hf. rewrite Hf. eexists. split; [reflexivity|].
    rewrite !val_eq. cbn [coef exp]. rewrite Hl, Z2Nat.id by lia.
    replace (Z.of_N _) with m; [by rewrite Z.opp_involutive|].
    rewrite N2Z.inj_add, N2Z.inj_mul, N2Z.inj_pow, !Z2N.id, nat_N_Z, Z2Nat.id by lia. fold p. lia.
Qed.

Lemma body_not_dash m e r : body m e <> String "-" r.
Proof.
  unfold body. destruct (0 <=? e)%Z; [eapply digits_not_dash, Itoa_value|].
  pose proof (Itoa_value (Z.to_N (m / 10 ^ (- e)))) as Hv. set (s := Itoa _) in *.
  destruct s as [|a s]; [done|]. intros H. injection H as -> _. done.
Qed.

Lemma parse_print a : exists b, of_string (to_string a) = Some b /\ val b == val a.
Proof.
  unfold to_string. set (n := normalize a). assert (Hn : val n == val a) by apply normal_val.
  destruct (of_digits_body (Z.abs (coef n)) (exp n) ltac:(lia)) as (b & Hb & Hv). rewrite print_body.
  destruct (Z.ltb_spec (coef n) 0).
  - exists (neg b). change ("-" +:+ ?s)%string with (String "-" s). cbn [of_string].
    split; [by rewrite Hb|]. rewrite val_neg, Hv, <- Hn, !val_eq. cbn [coef exp].
    rewrite Z.abs_neq, inject_Z_opp by lia. ring.
  - exists b. rewrite unsigned by (intros; apply body_not_dash). split; [done|].
    rewrite Hv, <- Hn, !val_eq. cbn [coef exp]. by rewrite Z.abs_eq.
Qed.

Lemma val_zero_coef (a : t) : coef a = 0%Z -> val a == 0.
Proof. intros Ha. rewrite val_eq, Ha. ring. Qed.

Lemma max_spec a b : (val b <= val a /\ val (neg (min (neg a) (neg b))) == val a) \/
                     (val a <= val b /\ val (neg (min (neg a) (neg b))) == val b).
Proof.
  rewrite val_neg. destruct (min_spec (neg a) (neg b)) as [[Hle Hm]|[Hle Hm]]; rewrite !val_neg in *; [left|right];
    rewrite Hm; split; lra.
Qed.

Lemma val_moved a n : val (Mk (coef a) (exp a + n)) == val a * (10 # 1) ^ n.
Proof. rewrite !val_eq. cbn [coef exp]. rewrite (ten_split _ (exp a) n) by done. ring. Qed.

Lemma ceil_int a : val (neg (round_floor (neg a) 0)) == inject_Z (Qceiling (val a)).
Proof.
  rewrite val_neg, floor_int. unfold Qceiling.
  assert (Hn : Qfloor (val (neg a)) = Qfloor (- val a)) by (apply Qfloor_comp, val_neg).
  rewrite Hn, inject_Z_opp. reflexivity.
Qed.

#[export] Instance laws : DecimalLaws.
Proof.
  constructor; intros.
  - reflexivity.
  - rewrite val_eq. cbn. ring.
  - by apply val_zero_coef.
  - by apply val_zero_coef.
  - apply val_add.
  - cbn [Sub ops]. unfold sub. rewrite val_add, val_neg. reflexivity.
  - apply val_mul.
  - apply val_neg.
  - apply val_abs.
  - apply min_spec.
  - apply max_spec.
  - apply val_moved.
  - apply ceil_int.
  - apply sign_spec.
  - apply val_cmp.
  - apply round_grid.
  - apply round_near.
  - apply ceil_grid.
  - apply ceil_near.
  - apply floor_grid.
  - apply floor_near.
  - by apply truncate_int.
  - apply floor_int.
  - cbn [DecimalString ops]. unfold to_string. by rewrite (normalize_unique a b).
  - by apply to_string_int.
  - apply parse_print.
  - apply div_grid.
  - by apply div_half.
  - by apply mod_spec.
  - by apply num_digits_zero.
  - by apply num_digits_spec.
Qed.
End Decimal.

(** ** UUID text: groups of 4, 2, 2, 2 and 6 bytes in hexadecimal *)

Module Uuid.

Definition dash (i : nat) : string := if decide (i ∈ [4; 6; 8; 10]%nat) then "-" else EmptyString.

Fixpoint text_from (i : nat) (s : string) : string :=
  match s with
  | EmptyString => EmptyString
  | String a s' =>
      (dash i +:+ String (hex_digit (code a / 16)) (String (hex_digit (code a mod 16))
                    (text_from (S i) s')))%string
  end.

(** Reading the text back: a dash is skipped, digits come in pairs. *)
Fixpoint of_text (s : string) : string :=
  match s with
  | String a s' =>
      if (code a =? 45)%N then of_text s'
      else match s' with
           | String b rest => String (byte_of (16 * unhex a + unhex b)) (of_text rest)
           | EmptyString => EmptyString
           end
  | EmptyString => EmptyString
  end.

#[export] Instance ops : UuidOps := { uuid_string := text_from 0; 
  uuid_parse s := if decide (text_from 0 (of_text s) = s) then Some (of_text s) else None }.

Lemma app_inj_l (p s t : string) : (p +:+ s)%string = (p +:+ t)%string -> s = t.
Proof. induction p; simpl; [done|]. intros; simplify_eq; auto. Qed.

Lemma text_from_inj i s t : text_from i s = text_from i t -> s = t.
Proof.
  revert i t. induction s as [|a s IH]; intros i [|b t]; cbn [text_from].
  - done.
  - unfold dash. by destruct (decide _).
  - unfold dash. by destruct (decide _).
  - intros H. apply app_inj_l in H. injection H as H1 H2 H3.
    rewrite (IH _ _ H3). f_equal. by rewrite <- (unhex_byte a), <- (unhex_byte b), H1, H2.
Qed.

Lemma of_text_from i s : of_text (text_from i s) = s.
Proof.
  revert i. induction s as [|a s IH]; intros i; [done|]. cbn [text_from].
  assert (H : of_text (String (hex_digit (code a / 16)) (String (hex_digit (code a mod 16)) (text_from (S i) s)))
              = String a s).
  { cbn [of_text]. rewrite (proj2 (N.eqb_neq _ _)) by (by destruct a as [[] [] [] [] [] [] [] []]).
    by rewrite unhex_byte, IH. }
  unfold dash. destruct (decide _); exact H.
Qed.

#[export] Instance laws : UuidLaws.
Proof.
  constructor; [intros s t; apply text_from_inj| |]; intros s;
    [cbn [uuid_parse uuid_string ops]; by rewrite of_text_from, decide_True|].
  change (uuid_string s) with (text_from 0 s).
  generalize 0%nat. induction s as [|a s IH]; intros i; [done|]. cbn [text_from].
  rewrite string_forallb_bytes, bytes_append, forallb_app. cbn [bytes forallb].
  rewrite <- (string_forallb_bytes _ (text_from (S i) s)), IH. unfold dash.
  destruct (decide _); destruct a as [[] [] [] [] [] [] [] []]; reflexivity.
Qed.
End Uuid.

(** ** JSON: texts between braces count as objects *)

Module Json.

Definition quote : string := String (byte_of 34) EmptyString.

(** Quotation marks and backslashes are escaped. *)
Definition special (a : ascii) : bool := (code a =? 34)%N || (code a =? 92)%N.
Fixpoint escape (s : string) : string :=
  match s with
  | EmptyString => EmptyString
  | String a s => if special a then String (byte_of 92) (String a (escape s)) else String a (escape s)
  end.
Definition quoted (s : string) : string := (quote +:+ escape s +:+ quote)%string.

(** Scanning a value: brackets are counted outside texts, a bracket that was not
    opened and a comma between values stop the scan. *)
Inductive mode := Out (depth : nat) | In (depth : nat) | Esc (depth : nat).

#[global] Instance mode_eq_dec : EqDecision mode.
Proof. solve_decision. Defined.

Definition opening (a : ascii) : bool := (code a =? 123)%N || (code a =? 91)%N.
Definition closing (a : ascii) : bool := (code a =? 125)%N || (code a =? 93)%N.
Definition comma (a : ascii) : bool := (code a =? 44)%N.

Definition step (m : mode) (a : ascii) : option mode :=
  match m with
  | Esc d => Some (In d)
  | In d => Some (if (code a =? 34)%N then Out d else if (code a =? 92)%N then Esc d else In d)
  | Out d =>
      if (code a =? 34)%N then Some (In d)
      else if opening a then Some (Out (S d))
      else if closing a then match d with O => None | S d => Some (Out d) end
      else if comma a then match d with O => None | S _ => Some (Out d) end
      else Some (Out d)
  end.

Fixpoint scan (m : mode) (s : string) : option mode :=
  match s with
  | EmptyString => Some m
  | String a s => m' ← step m a ; scan m' s
  end.

Definition compact (s : string) : bool := bool_decide (s <> EmptyString) && bool_decide (scan (Out 0) s = Some (Out 0)).

Definition member (kv : string * string) : string := (quoted kv.1 +:+ ":" +:+ quoted kv.2)%string.

Fixpoint members (kvs : list (string * string)) : string :=
  match kvs with
  | [] => EmptyString
  | [kv] => member kv
  | kv :: rest => (member kv +:+ "," +:+ members rest)%string
  end.

Definition is_object (s : string) : bool := HasPrefix s "{" && HasPrefix (rev_string s) "}".

#[export] Instance ops : JsonOps := {
  json := string;
  json_deep_equal a b := bool_decide (a = b);
  json_unmarshal s := if is_object s then Some s else None;
  json_valid := is_object;
  json_decode s := if is_object s then Some (s, EmptyString) else None;
  json_eof s := bool_decide (s = EmptyString);
  json_object_size s := if bool_decide (s = "{}") then Some 0%nat else Some 1%nat;
  json_marshal s := if compact s then s else "null";
  json_marshal_string := quoted;
  json_marshal_map kvs := ("{" +:+ members kvs +:+ "}")%string;
}.

Lemma is_object_braces s : is_object ("{" +:+ s +:+ "}")%string = true.
Proof.
  unfold is_object, rev_string. rewrite !bytes_append, !rev_app_distr. reflexivity.
Qed.

#[export] Instance laws : JsonLaws.
Proof.
  constructor.
  - by exists "{}".
  - simpl. intros s v. by destruct (is_object s).
  - intros v. by apply bool_decide_eq_true.
  - simpl. intros s v. destruct (is_object s); [eauto|done].
  - intros kvs. cbn [json_unmarshal json_marshal_map ops]. rewrite is_object_braces.
    eexists. cbn [json_object_size ops]. destruct (bool_decide _); eauto.
  - by intros kvs.
Qed.
End Json.

#[export] Instance unicode_ops : UnicodeOps := { map_ToUpper s := s; map_ToLower s := s }.

#[export] Instance concrete : Externals := {
  ext_decimal := Decimal.ops; ext_uuid := Uuid.ops; ext_json := Json.ops; ext_unicode := unicode_ops;
}.

#[export] Instance concrete_laws : ExternalLaws.
Proof. constructor; [exact Decimal.laws|exact Uuid.laws|exact Json.laws]. Qed.
