(* ===== verification/EconomicId.v ===== *)
(** * Deterministic identifiers (internal/economicid)

    [DeterministicUUID] hashes a domain followed by length-prefixed components
    and keeps the first sixteen bytes of the SHA-256 sum. *)

From S2P Require Import Prelude GoStd Externals.
From Stdlib Require Import Ascii.

Definition componentSeparator : ascii := byte_of 0x1f.

(** The bytes one loop iteration writes: separator, decimal length, colon, text. *)
Definition component_bytes (component : string) : string :=
  String componentSeparator
    (Itoa (N.of_nat (String.length component)) +:+ ":" +:+ component)%string.

Fixpoint components_bytes (components : list string) : string :=
  match components with
  | [] => EmptyString
  | c :: rest => (component_bytes c +:+ components_bytes rest)%string
  end.

(** Everything written to the hasher. *)
Definition hash_input (domain : string) (components : list string) : string :=
  (domain +:+ components_bytes components)%string.

Definition DeterministicUUID (domain : string) (components : list string) : UUID :=
  String.substring 0 16 (Sum256 (hash_input domain components)).
