(* ===== verification/EconomicIdProofs.v ===== *)
(** * Deterministic identifiers are unambiguous

    The bytes hashed for an identity determine its domain and components, so
    two identities can only coincide through a collision of the hash. *)

From S2P Require Import Prelude GoStd Digits Externals EconomicId.
From Stdlib Require Import Ascii.

(** ** Decimal lengths *)

Fixpoint decode (s : string) (v : N) : N :=
  match s with
  | EmptyString => v
  | String a s => decode s (10 * v + (code a - 48))
  end.

Lemma digits_decode fuel n acc : (n < 10 ^ N.of_nat fuel)%N -> (0 < fuel)%nat ->
  decode (digits_fuel fuel n acc) 0 = decode acc n.
Proof.
  revert n acc. induction fuel as [|fuel IH]; intros n acc Hn Hf; [lia|]. cbn [digits_fuel].
  pose proof (N.mod_lt n 10 ltac:(lia)) as Hmod. pose proof (N.div_mod n 10 ltac:(lia)) as Hdm.
  destruct (n <? 10)%N eqn:Hs.
  - apply N.ltb_lt in Hs. cbn [decode]. rewrite code_digit, N.mod_small by lia. f_equal. lia.
  - apply N.ltb_ge in Hs. rewrite Nat2N.inj_succ, N.pow_succ_r' in Hn. destruct fuel as [|fuel]; [simpl in Hn; lia|].
    rewrite IH; [|apply N.Div0.div_lt_upper_bound; lia|lia]. cbn [decode]. rewrite code_digit by lia. f_equal.
    rewrite (N.add_comm 48), N.add_sub. by symmetry.
Qed.

Lemma digits_are_digits fuel n acc : string_forallb is_digit acc = true ->
  string_forallb is_digit (digits_fuel fuel n acc) = true.
Proof.
  revert n acc. induction fuel as [|fuel IH]; intros n acc Ha; cbn [digits_fuel]; [done|].
  assert (Hd : string_forallb is_digit (String (digit (n mod 10)) acc) = true).
  { cbn [string_forallb]. rewrite Ha, andb_true_r. unfold is_digit. pose proof (N.mod_lt n 10 ltac:(lia)).
    rewrite code_digit by done. generalize dependent (n mod 10)%N. intros d Hd. apply andb_true_iff; split; apply N.leb_le; lia. }
  destruct (n <? 10)%N; [done|]. by apply IH.
Qed.

Lemma Itoa_decode n : decode (Itoa n) 0 = n.
Proof.
  unfold Itoa. rewrite digits_decode; [done| |lia]. rewrite Nat2N.inj_succ, N2Nat.id.
  pose proof (N.size_gt n). pose proof (N.pow_le_mono_l 2 10 (N.size n) ltac:(lia)).
  rewrite N.pow_succ_r'. lia.
Qed.

Lemma Itoa_inj n m : Itoa n = Itoa m -> n = m.
Proof. intros H. by rewrite <- (Itoa_decode n), H, Itoa_decode. Qed.

(** ** Parsing *)

Lemma split_at (p : ascii -> bool) c s s' r r' : p c = false ->
  string_forallb p s = true -> string_forallb p s' = true ->
  (s +:+ String c r)%string = (s' +:+ String c r')%string -> s = s' /\ r = r'.
Proof.
  intros Hc. revert s'. induction s as [|a s IH]; intros [|a' s'] Hs Hs'; cbn [string_forallb] in *.
  - by intros [= ->].
  - intros [= -> _]. apply andb_true_iff in Hs' as [? _]. congruence.
  - intros [= <- _]. apply andb_true_iff in Hs as [? _]. congruence.
  - intros [= <- Heq]. apply andb_true_iff in Hs as [_ Hs], Hs' as [_ Hs'].
    by destruct (IH s' Hs Hs' Heq) as [-> ->].
Qed.

Lemma append_length_inj s s' r r' : String.length s = String.length s' ->
  (s +:+ r)%string = (s' +:+ r')%string -> s = s' /\ r = r'.
Proof.
  revert s'. induction s as [|a s IH]; intros [|a' s'] Hl; try done.
  intros [= <- Heq]. injection Hl as Hl. by destruct (IH s' Hl Heq) as [-> ->].
Qed.

Lemma append_assoc_string (s t u : string) : ((s +:+ t) +:+ u = s +:+ (t +:+ u))%string.
Proof. induction s as [|a s IH]; [done|]. change (String a ((s +:+ t) +:+ u) = String a (s +:+ (t +:+ u)))%string. by rewrite IH. Qed.

Lemma component_inj c c' r r' : (component_bytes c +:+ r)%string = (component_bytes c' +:+ r')%string -> c = c' /\ r = r'.
Proof.
  unfold component_bytes. intros Heq. injection Heq as Heq. rewrite !append_assoc_string in Heq.
  apply (split_at is_digit ":"%char) in Heq as [Hl Heq]; [|done|by apply digits_are_digits|by apply digits_are_digits].
  apply Itoa_inj in Hl. apply append_length_inj; [lia|done].
Qed.

Lemma components_inj cs cs' : components_bytes cs = components_bytes cs' -> cs = cs'.
Proof.
  revert cs'. induction cs as [|c cs IH]; intros [|c' cs'] Heq; try done. cbn [components_bytes] in Heq.
  apply component_inj in Heq as [-> Heq]. by rewrite (IH cs' Heq).
Qed.

Lemma append_empty (s : string) : (s +:+ EmptyString)%string = s.
Proof. induction s as [|a s IH]; [done|]. change (String a (s +:+ "") = String a s)%string. by rewrite IH. Qed.

Lemma plain_no_separator (p : ascii -> bool) c s t r : p c = false -> string_forallb p s = true ->
  s <> (t +:+ String c r)%string.
Proof.
  intros Hc Hs ->. induction t as [|a t IH]; cbn in Hs; apply andb_true_iff in Hs as [H1 H2]; [congruence|auto].
Qed.

(** A domain never contains the component separator. *)
Definition plain_domain (d : string) : bool := string_forallb (fun a => negb (code a =? 0x1f)%N) d.

Lemma hash_input_inj d d' cs cs' : plain_domain d = true -> plain_domain d' = true ->
  hash_input d cs = hash_input d' cs' -> d = d' /\ cs = cs'.
Proof.
  unfold hash_input, plain_domain. intros Hd Hd' Heq.
  set (p := fun a => negb (code a =? 0x1f)%N) in *. assert (Hsep : p componentSeparator = false) by done.
  destruct cs as [|c cs], cs' as [|c' cs']; cbn [components_bytes] in Heq.
  - by rewrite <- (append_empty d), <- (append_empty d').
  - exfalso. eapply (plain_no_separator p componentSeparator d d'); [done|done|]. rewrite <- (append_empty d), Heq. done.
  - exfalso. eapply (plain_no_separator p componentSeparator d' d); [done|done|]. rewrite <- (append_empty d'), <- Heq. done.
  - change (component_bytes c) with (String componentSeparator (Itoa (N.of_nat (String.length c)) +:+ ":" +:+ c)%string) in Heq.
    change (component_bytes c') with (String componentSeparator (Itoa (N.of_nat (String.length c')) +:+ ":" +:+ c')%string) in Heq.
    apply (split_at p) in Heq as [-> Heq]; [|done..].
    split; [done|]. apply components_inj. cbn [components_bytes]. unfold component_bytes.
    by apply (f_equal (String componentSeparator)) in Heq.
Qed.

(** Two different messages whose SHA-256 sums start with the same 16 bytes. *)
Definition hash_collision (m m' : string) : Prop :=
  m <> m' /\ String.substring 0 16 (Sum256 m) = String.substring 0 16 (Sum256 m').

(** A deterministic identity names its facts: when two identities are
    equal, their domains and all their components are equal, unless the two
    hashed messages are a collision of SHA-256 truncated to 16 bytes. *)
Theorem identity_unambiguous d d' cs cs' : plain_domain d = true -> plain_domain d' = true ->
  DeterministicUUID d cs = DeterministicUUID d' cs' ->
  (d = d' /\ cs = cs') \/ hash_collision (hash_input d cs) (hash_input d' cs').
Proof.
  intros Hd Hd' Heq. destruct (decide (hash_input d cs = hash_input d' cs')) as [Hi|Hi].
  - left. by apply hash_input_inj.
  - right. by split.
Qed.
