(* ===== verification/TextProofs.v ===== *)
(** * Lemmas on text

    Sorting with a known result, and which texts are left alone by trimming and
    lower-casing: decimal numbers, hexadecimal digests, printable tokens. *)

From S2P Require Import Prelude GoStd GoText Digits Externals EconomicId EconomicIdProofs.
From Stdlib Require Import Ascii.

(** ** Sorting a list whose order is known *)

Lemma strict_compare {A} (less : A -> A -> bool) l x y :
  StronglySorted (fun x y => less x y = true) l -> x ∈ l -> y ∈ l -> x = y \/ less x y = true \/ less y x = true.
Proof.
  induction 1 as [|z l Hs IH Hz]; intros Hx Hy; [by apply elem_of_nil in Hx|]. rewrite Forall_forall in Hz.
  apply elem_of_cons in Hx as [-> |Hx], Hy as [-> |Hy]; auto.
Qed.

Lemma sort_slice_strict {A} (less : A -> A -> bool) l k :
  Transitive (not_after less) -> Total (not_after less) ->
  StronglySorted (fun x y => less x y = true) k -> (forall x y, less x y = true -> less y x = false) -> l ≡ₚ k ->
  sort_slice less l = k.
Proof.
  intros Ht Htot Hk Hasym Hp. apply (StronglySorted_unique_strong (not_after less)).
  - intros x y Hx Hy Hxy Hyx. rewrite sort_slice_perm, Hp in Hx.
    destruct (strict_compare less k x y Hk Hx Hy) as [?|[H|H]]; [done| |]; unfold not_after in *; congruence.
  - by apply StronglySorted_merge_sort.
  - clear Hp. induction Hk as [|z k Hk IH Hz]; constructor; [done|]. eapply Forall_impl; [exact Hz|exact (Hasym z)].
  - by rewrite sort_slice_perm.
Qed.

(** ** Numbers *)

Lemma Itoa_no_dash n : TrimPrefix (Itoa n) "-" = Itoa n.
Proof.
  unfold TrimPrefix. pose proof (Itoa_value n) as Hv. destruct (Itoa n) as [|a s]; [done|]. cbn [HasPrefix].
  destruct (Ascii.eqb_spec a "-"%char) as [-> |]; [|done]. by vm_compute in Hv.
Qed.

Lemma digit_graphic a : is_digit a = true -> graphic a = true.
Proof.
  unfold is_digit, graphic. rewrite !andb_true_iff, !N.leb_le. lia.
Qed.

Lemma Itoa_digits n : string_forallb is_digit (Itoa n) = true.
Proof. unfold Itoa. by apply digits_are_digits. Qed.

Lemma Itoa_graphic n : string_forallb graphic (Itoa n) = true.
Proof.
  pose proof (Itoa_digits n) as Hd. rewrite string_forallb_bytes, forallb_forall in *. auto using digit_graphic.
Qed.

(** ** Digests and tokens *)

Lemma length_of_bytes l : String.length (of_bytes l) = length l.
Proof. induction l as [|a l IH]; cbn; [done|by rewrite IH]. Qed.

Lemma length_Sum256 s : String.length (Sum256 s) = 32%nat.
Proof.
  unfold Sum256. rewrite length_of_bytes, length_fmap.
  generalize (SHA256.blocks (length (SHA256.words (SHA256.pad (code <$> bytes s)))) SHA256.initial
                (SHA256.words (SHA256.pad (code <$> bytes s)))).
  intros h. reflexivity.
Qed.

Lemma hex_digit_plain n : (n < 16)%N ->
  graphic (hex_digit n) = true /\ (code (hex_digit n) <? 128)%N = true /\ ascii_lower (hex_digit n) = hex_digit n.
Proof.
  intros Hn. assert (Hall : forallb (fun k => let a := hex_digit (N.of_nat k) in
    graphic a && (code a <? 128)%N && bool_decide (ascii_lower a = a)) (seq 0 16) = true) by done.
  rewrite forallb_forall in Hall. specialize (Hall (N.to_nat n)). rewrite N2Nat.id in Hall.
  cbv zeta in Hall. rewrite !andb_true_iff, bool_decide_eq_true in Hall.
  destruct Hall as [[? ?] ?]; [|done]. apply in_seq. lia.
Qed.

Lemma code_bound a : (code a < 256)%N.
Proof. apply N_ascii_bounded. Qed.

Lemma hex_plain `{E : Externals} s :
  string_forallb graphic (EncodeToString s) = true /\ ToLower (EncodeToString s) = EncodeToString s.
Proof.
  assert (H : string_forallb graphic (EncodeToString s) = true /\ is_ascii (EncodeToString s) = true /\
              string_map ascii_lower (EncodeToString s) = EncodeToString s).
  { induction s as [|a s (IH1 & IH2 & IH3)]; [done|]. unfold is_ascii in *. pose proof (code_bound a).
    cbn [EncodeToString string_forallb string_map].
    destruct (hex_digit_plain (code a / 16)) as (-> & -> & ->); [apply N.Div0.div_lt_upper_bound; lia|].
    destruct (hex_digit_plain (code a mod 16)) as (-> & -> & ->); [by apply N.mod_lt|].
    by rewrite IH1, IH2, IH3. }
  destruct H as (Hg & Ha & Hm). split; [done|]. unfold ToLower. by rewrite Ha, Hm.
Qed.

Lemma append_graphic s t : string_forallb graphic s = true -> string_forallb graphic t = true ->
  string_forallb graphic (s +:+ t)%string = true.
Proof. rewrite !string_forallb_bytes, bytes_append, forallb_app. by intros -> ->. Qed.

Lemma zero_pad_graphic w s : string_forallb graphic s = true -> string_forallb graphic (zero_pad w s) = true.
Proof. intros Hs. induction w as [|w IH]; cbn [zero_pad]; [done|]. by destruct (String.length s <=? w)%nat. Qed.

Lemma pad_int_graphic w n : string_forallb graphic (pad_int w n) = true.
Proof. apply zero_pad_graphic, Itoa_graphic. Qed.

Lemma format_micro_graphic t : string_forallb graphic (format_micro t) = true.
Proof.
  unfold format_micro. destruct (civil _) as [[y m] d]. by repeat (apply append_graphic; [first [apply pad_int_graphic|done]|]).
Qed.

Lemma json_int_graphic z : string_forallb graphic (json_int z) = true.
Proof. unfold json_int. destruct (z <? 0)%Z; [apply append_graphic; [done|]|]; apply Itoa_graphic. Qed.

Lemma json_int_inj : Inj (=) (=) json_int.
Proof.
  assert (Hdash : forall n s, ("-" +:+ s)%string = Itoa n -> False).
  { intros n s Heq. pose proof (Itoa_digits n) as Hd. rewrite <- Heq in Hd. by vm_compute in Hd. }
  intros z w. unfold json_int. destruct (Z.ltb_spec z 0), (Z.ltb_spec w 0); intros Heq.
  - injection Heq as Heq%Itoa_inj. lia.
  - by apply Hdash in Heq.
  - symmetry in Heq. by apply Hdash in Heq.
  - apply Itoa_inj in Heq. lia.
Qed.
