(* ===== verification/Account.v ===== *)
(** * Accounts and capital flows (internal/domain/account.go)

    The durable economic boundary: identity, environment, margin profile and
    opening capital of an account, and append-only deposits and withdrawals. *)

From S2P Require Import Prelude GoStd Externals.

Local Open Scope go_scope.

(** ** Enumerations

    A Go string type holds one of its named constants or some other text; the
    last constructor of each type is that other text. *)
Inductive AccountEnvironment :=
  | AccountEnvironmentPaperScored
  | AccountEnvironmentPaperStress
  | AccountEnvironmentShadow
  | AccountEnvironmentLive
  | AccountEnvironmentOther (text : string).

Definition AccountEnvironment_string (e : AccountEnvironment) : string :=
  match e with
  | AccountEnvironmentPaperScored => "paper_scored"
  | AccountEnvironmentPaperStress => "paper_stress"
  | AccountEnvironmentShadow => "shadow"
  | AccountEnvironmentLive => "live"
  | AccountEnvironmentOther t => t
  end.

Inductive MarginProfile :=
  | MarginProfileCash
  | MarginProfileRegT
  | MarginProfilePortfolio
  | MarginProfileStressUnlimited
  | MarginProfileOther (text : string).

Inductive AccountStatus :=
  | AccountStatusActive
  | AccountStatusPaused
  | AccountStatusClosed
  | AccountStatusOther (text : string).

Inductive CapitalFlowType :=
  | CapitalFlowTypeDeposit
  | CapitalFlowTypeWithdrawal
  | CapitalFlowTypeOther (text : string).

Inductive CapitalFlowSource :=
  | CapitalFlowSourceAccountOpening
  | CapitalFlowSourceOperator
  | CapitalFlowSourceVenue
  | CapitalFlowSourceReconciliation
  | CapitalFlowSourceMigration
  | CapitalFlowSourceOther (text : string).

#[global] Instance AccountEnvironment_eq_dec : EqDecision AccountEnvironment.
Proof. solve_decision. Defined.
#[global] Instance MarginProfile_eq_dec : EqDecision MarginProfile.
Proof. solve_decision. Defined.
#[global] Instance AccountStatus_eq_dec : EqDecision AccountStatus.
Proof. solve_decision. Defined.

Definition AccountEnvironment_IsValid (e : AccountEnvironment) : bool :=
  match e with AccountEnvironmentOther _ => false | _ => true end.
Definition MarginProfile_IsValid (p : MarginProfile) : bool :=
  match p with MarginProfileOther _ => false | _ => true end.
Definition AccountStatus_IsValid (s : AccountStatus) : bool :=
  match s with AccountStatusOther _ => false | _ => true end.
Definition CapitalFlowType_IsValid (t : CapitalFlowType) : bool :=
  match t with CapitalFlowTypeOther _ => false | _ => true end.
Definition CapitalFlowSource_IsValid (s : CapitalFlowSource) : bool :=
  match s with CapitalFlowSourceOther _ => false | _ => true end.

Definition PaperEvidenceClassPromotion : string := "promotion_evidence".
Definition PaperEvidenceClassSynthetic : string := "synthetic_stress".

Section account.
Context {E : Externals}.

(** ** Records *)

Record Account := MkAccount {
  acct_ID : UUID;
  acct_Name : string;
  acct_Environment : AccountEnvironment;
  acct_Venue : string;
  acct_ExternalAccountID : string;
  acct_BaseCurrency : string;
  acct_StorageNamespace : string;
  acct_EvidenceClass : string;
  acct_StartingCapital : dec;
  acct_BuyingPowerMultiplier : dec;
  acct_MarginProfile : MarginProfile;
  acct_Status : AccountStatus;
  acct_CreatedBy : string;
  acct_CreationMetadata : string;
  acct_CreatedAt : Time;
}.

Record AccountInput := MkAccountInput {
  acctin_Name : string;
  acctin_Environment : AccountEnvironment;
  acctin_Venue : string;
  acctin_ExternalAccountID : string;
  acctin_BaseCurrency : string;
  acctin_StorageNamespace : string;
  acctin_StartingCapital : dec;
  acctin_BuyingPowerMultiplier : dec;
  acctin_MarginProfile : MarginProfile;
  acctin_CreatedBy : string;
  acctin_CreationMetadata : string;
  acctin_CreatedAt : Time;
}.

Record CapitalFlow := MkCapitalFlow {
  flow_ID : UUID;
  flow_AccountID : UUID;
  flow_Type : CapitalFlowType;
  flow_Amount : dec;
  flow_Currency : string;
  flow_IdempotencyKey : string;
  flow_Source : CapitalFlowSource;
  flow_ExternalReference : string;
  flow_Metadata : string;
  flow_EffectiveAt : Time;
  flow_ObservedAt : Time;
  flow_CreatedAt : Time;
}.

Record CapitalFlowInput := MkCapitalFlowInput {
  flowin_AccountID : UUID;
  flowin_Type : CapitalFlowType;
  flowin_Amount : dec;
  flowin_Currency : string;
  flowin_IdempotencyKey : string;
  flowin_Source : CapitalFlowSource;
  flowin_ExternalReference : string;
  flowin_Metadata : string;
  flowin_EffectiveAt : Time;
  flowin_ObservedAt : Time;
}.

(** ** Helpers *)

Definition hasPostgresTimestampPrecision (value : Time) : bool := TimeEqual value (TruncateMicro value).

(** Three bytes, each rune between A and Z. A string of three bytes with a
    rune outside ASCII has a rune above Z, so checking bytes is the same. *)
Definition isCurrencyCode (value : string) : bool :=
  (String.length value =? 3)%nat &&
  string_forallb (fun r => negb (code r <? 65)%N && negb (90 <? code r)%N) value.

Definition hasDecimalScaleAtMost (value : dec) (places : Z) : bool :=
  Equal value (Round value places).

Definition normalizeJSONObject (value label : string) : outcome string :=
  let normalized := if (String.length value =? 0)%nat then "{}" else value in
  match json_unmarshal normalized ≫= json_object_size with
  | Some _ => Ok normalized
  | None => Err (Errorf (label +:+ " must be a JSON object")%string)
  end.

(** ** Account.Validate and CapitalFlow.Validate *)

Definition Account_Validate (a : Account) : outcome unit :=
  reject (a.(acct_ID) ==? Nil) "account ID is required" ;;
  reject ((TrimSpace a.(acct_Name) ==? "") || (TrimSpace a.(acct_Venue) ==? ""))
    "account name and venue are required" ;;
  reject (negb (AccountEnvironment_IsValid a.(acct_Environment)) ||
          negb (MarginProfile_IsValid a.(acct_MarginProfile)) ||
          negb (AccountStatus_IsValid a.(acct_Status)))
    "account environment, margin profile, or status is invalid" ;;
  reject (negb (isCurrencyCode a.(acct_BaseCurrency)))
    "account base currency must be a three-letter code" ;;
  reject (TrimSpace a.(acct_StorageNamespace) ==? "") "account storage namespace is required" ;;
  reject (((a.(acct_Environment) ==? AccountEnvironmentPaperScored) ||
           (a.(acct_Environment) ==? AccountEnvironmentPaperStress)) &&
          negb (HasPrefix a.(acct_StorageNamespace)
                  (AccountEnvironment_string a.(acct_Environment) +:+ "/")%string))
    "paper account storage namespace must be environment scoped" ;;
  reject (negb (IsPositive a.(acct_StartingCapital)) ||
          negb (hasDecimalScaleAtMost a.(acct_StartingCapital) 8))
    "account starting capital must be positive with at most 8 decimal places" ;;
  reject (IsNegative a.(acct_BuyingPowerMultiplier) ||
          negb (hasDecimalScaleAtMost a.(acct_BuyingPowerMultiplier) 8))
    "account buying-power multiplier must be non-negative with at most 8 decimal places" ;;
  reject ((a.(acct_Environment) !=? AccountEnvironmentPaperStress) &&
          negb (IsPositive a.(acct_BuyingPowerMultiplier)))
    "non-stress account buying-power multiplier must be greater than zero" ;;
  reject ((a.(acct_MarginProfile) ==? MarginProfileStressUnlimited) &&
          (a.(acct_Environment) !=? AccountEnvironmentPaperStress))
    "unlimited margin is restricted to stress accounts" ;;
  reject ((a.(acct_Environment) ==? AccountEnvironmentPaperStress) &&
          IsZero a.(acct_BuyingPowerMultiplier) &&
          (a.(acct_MarginProfile) !=? MarginProfileStressUnlimited))
    "zero buying-power multiplier requires the stress-unlimited margin profile" ;;
  let expectedEvidence :=
    match a.(acct_Environment) with
    | AccountEnvironmentPaperScored => PaperEvidenceClassPromotion
    | AccountEnvironmentPaperStress => PaperEvidenceClassSynthetic
    | _ => "non_promotion"
    end in
  reject (a.(acct_EvidenceClass) !=? expectedEvidence)
    "account evidence class %q does not match environment %q" ;;
  reject ((TrimSpace a.(acct_CreatedBy) ==? "") || IsZeroTime a.(acct_CreatedAt))
    "account creation identity is required" ;;
  reject (negb (hasPostgresTimestampPrecision a.(acct_CreatedAt)))
    "account creation time must use PostgreSQL microsecond precision" ;;
  normalizeJSONObject a.(acct_CreationMetadata) "account creation metadata" ;;
  Ok tt.

Definition CapitalFlow_Validate (f : CapitalFlow) : outcome unit :=
  reject ((f.(flow_ID) ==? Nil) || (f.(flow_AccountID) ==? Nil))
    "capital-flow ID and account ID are required" ;;
  reject (negb (CapitalFlowType_IsValid f.(flow_Type)) || negb (CapitalFlowSource_IsValid f.(flow_Source)))
    "capital-flow type or source is invalid" ;;
  reject (negb (IsPositive f.(flow_Amount)) || negb (hasDecimalScaleAtMost f.(flow_Amount) 8))
    "capital-flow amount must be positive with at most 8 decimal places" ;;
  reject (negb (isCurrencyCode f.(flow_Currency))) "capital-flow currency must be a three-letter code" ;;
  reject (TrimSpace f.(flow_IdempotencyKey) ==? "") "capital-flow idempotency key is required" ;;
  reject (IsZeroTime f.(flow_EffectiveAt) || IsZeroTime f.(flow_ObservedAt))
    "capital-flow effective and observed times are required" ;;
  reject (negb (hasPostgresTimestampPrecision f.(flow_EffectiveAt)) ||
          negb (hasPostgresTimestampPrecision f.(flow_ObservedAt)))
    "capital-flow timestamps must use PostgreSQL microsecond precision" ;;
  normalizeJSONObject f.(flow_Metadata) "capital-flow metadata" ;;
  Ok tt.

(** ** Constructors

    [fresh] is the identifier [uuid.New()] returns and [now] what [time.Now()]
    returns. *)
Definition NewAccount (fresh : UUID) (now : Time) (input : AccountInput) : outcome Account :=
  let name := TrimSpace input.(acctin_Name) in
  let venue := ToLower (TrimSpace input.(acctin_Venue)) in
  let currency := ToUpper (TrimSpace input.(acctin_BaseCurrency)) in
  let namespace := TrimSpace input.(acctin_StorageNamespace) in
  let createdBy := TrimSpace input.(acctin_CreatedBy) in
  reject (name ==? "") "account name is required" ;;
  reject (negb (AccountEnvironment_IsValid input.(acctin_Environment)))
    "invalid account environment %q" ;;
  reject (venue ==? "") "account venue is required" ;;
  reject (negb (isCurrencyCode currency)) "account base currency must be a three-letter code" ;;
  reject (namespace ==? "") "account storage namespace is required" ;;
  reject (negb (IsPositive input.(acctin_StartingCapital)))
    "account starting capital must be greater than zero" ;;
  reject (negb (hasDecimalScaleAtMost input.(acctin_StartingCapital) 8))
    "account starting capital supports at most 8 decimal places" ;;
  reject (IsNegative input.(acctin_BuyingPowerMultiplier))
    "account buying-power multiplier must be non-negative" ;;
  reject (negb (hasDecimalScaleAtMost input.(acctin_BuyingPowerMultiplier) 8))
    "account buying-power multiplier supports at most 8 decimal places" ;;
  reject ((input.(acctin_Environment) !=? AccountEnvironmentPaperStress) &&
          negb (IsPositive input.(acctin_BuyingPowerMultiplier)))
    "non-stress account buying-power multiplier must be greater than zero" ;;
  reject (negb (MarginProfile_IsValid input.(acctin_MarginProfile)))
    "invalid account margin profile %q" ;;
  reject ((input.(acctin_MarginProfile) ==? MarginProfileStressUnlimited) &&
          (input.(acctin_Environment) !=? AccountEnvironmentPaperStress))
    "unlimited margin is restricted to stress accounts" ;;
  reject ((input.(acctin_Environment) ==? AccountEnvironmentPaperStress) &&
          IsZero input.(acctin_BuyingPowerMultiplier) &&
          (input.(acctin_MarginProfile) !=? MarginProfileStressUnlimited))
    "zero buying-power multiplier requires the stress-unlimited margin profile" ;;
  reject (createdBy ==? "") "account creator is required" ;;
  creationMetadata ← normalizeJSONObject input.(acctin_CreationMetadata) "account creation metadata" ;
  let evidenceClass :=
    if input.(acctin_Environment) ==? AccountEnvironmentPaperScored then PaperEvidenceClassPromotion
    else if input.(acctin_Environment) !=? AccountEnvironmentPaperStress then "non_promotion"
    else PaperEvidenceClassSynthetic in
  let createdAt := utc_micro (if IsZeroTime input.(acctin_CreatedAt) then now else input.(acctin_CreatedAt)) in
  let account := {|
    acct_ID := fresh;
    acct_Name := name;
    acct_Environment := input.(acctin_Environment);
    acct_Venue := venue;
    acct_ExternalAccountID := TrimSpace input.(acctin_ExternalAccountID);
    acct_BaseCurrency := currency;
    acct_StorageNamespace := namespace;
    acct_EvidenceClass := evidenceClass;
    acct_StartingCapital := input.(acctin_StartingCapital);
    acct_BuyingPowerMultiplier := input.(acctin_BuyingPowerMultiplier);
    acct_MarginProfile := input.(acctin_MarginProfile);
    acct_Status := AccountStatusActive;
    acct_CreatedBy := createdBy;
    acct_CreationMetadata := creationMetadata;
    acct_CreatedAt := createdAt |} in
  Account_Validate account ;;
  Ok account.

Definition NewCapitalFlow (fresh : UUID) (now : Time) (input : CapitalFlowInput) : outcome CapitalFlow :=
  let currency := ToUpper (TrimSpace input.(flowin_Currency)) in
  let idempotencyKey := TrimSpace input.(flowin_IdempotencyKey) in
  reject (input.(flowin_AccountID) ==? Nil) "capital-flow account ID is required" ;;
  reject (negb (CapitalFlowType_IsValid input.(flowin_Type))) "invalid capital-flow type %q" ;;
  reject (negb (IsPositive input.(flowin_Amount))) "capital-flow amount must be greater than zero" ;;
  reject (negb (hasDecimalScaleAtMost input.(flowin_Amount) 8))
    "capital-flow amount supports at most 8 decimal places" ;;
  reject (negb (isCurrencyCode currency)) "capital-flow currency must be a three-letter code" ;;
  reject (idempotencyKey ==? "") "capital-flow idempotency key is required" ;;
  reject (negb (CapitalFlowSource_IsValid input.(flowin_Source))) "invalid capital-flow source %q" ;;
  reject (IsZeroTime input.(flowin_EffectiveAt)) "capital-flow effective time is required" ;;
  metadata ← normalizeJSONObject input.(flowin_Metadata) "capital-flow metadata" ;
  let observedAt := utc_micro (if IsZeroTime input.(flowin_ObservedAt) then now else input.(flowin_ObservedAt)) in
  let flow := {|
    flow_ID := fresh;
    flow_AccountID := input.(flowin_AccountID);
    flow_Type := input.(flowin_Type);
    flow_Amount := input.(flowin_Amount);
    flow_Currency := currency;
    flow_IdempotencyKey := idempotencyKey;
    flow_Source := input.(flowin_Source);
    flow_ExternalReference := TrimSpace input.(flowin_ExternalReference);
    flow_Metadata := metadata;
    flow_EffectiveAt := utc_micro input.(flowin_EffectiveAt);
    flow_ObservedAt := observedAt;
    flow_CreatedAt := ZeroTime |} in
  CapitalFlow_Validate flow ;;
  Ok flow.

(** ** Evidence and storage boundaries *)

Definition PromotionEligible (a : Account) : bool :=
  (a.(acct_Environment) ==? AccountEnvironmentPaperScored) &&
  (a.(acct_EvidenceClass) ==? PaperEvidenceClassPromotion).

Definition CanShareStorageWith (a other : Account) : bool :=
  (a.(acct_StorageNamespace) !=? "") &&
  (a.(acct_StorageNamespace) ==? other.(acct_StorageNamespace)) &&
  (a.(acct_Environment) ==? other.(acct_Environment)).

End account.
