(* ===== verification/AccountProofs.v ===== *)
(** * Accounts: promotion evidence never mixes with synthetic stress *)

From S2P Require Import Prelude GoStd Externals Account.

Local Open Scope go_scope.

Section account_proofs.
Context {E : Externals} {L : ExternalLaws}.
Local Open Scope Q_scope.

(** What validation establishes about money, margin and evidence. *)
Record account_ok (a : Account) : Prop := {
  ao_capital : 0 < val a.(acct_StartingCapital);
  ao_power : 0 <= val a.(acct_BuyingPowerMultiplier);
  ao_power_positive : a.(acct_Environment) <> AccountEnvironmentPaperStress -> 0 < val a.(acct_BuyingPowerMultiplier);
  ao_unlimited : a.(acct_MarginProfile) = MarginProfileStressUnlimited ->
    a.(acct_Environment) = AccountEnvironmentPaperStress;
  ao_scored : a.(acct_EvidenceClass) = PaperEvidenceClassPromotion <->
    a.(acct_Environment) = AccountEnvironmentPaperScored;
  ao_namespace : a.(acct_Environment) = AccountEnvironmentPaperScored \/ a.(acct_Environment) = AccountEnvironmentPaperStress ->
    HasPrefix a.(acct_StorageNamespace) (AccountEnvironment_string a.(acct_Environment) +:+ "/")%string = true;
}.

Lemma account_valid a u : Account_Validate a = Ok u -> account_ok a.
Proof.
  unfold Account_Validate. intros Hv. inv_ok Hv. split_bools. dec_bools.
  repeat match goal with Hx : _ && _ = false |- _ => apply andb_false_iff in Hx end.
  split; try done.
  - intros Hne. match goal with Hx : negb (_ ==? AccountEnvironmentPaperStress) = false \/ negb (IsPositive _) = false |- _ =>
      destruct Hx; split_bools; [done|by dec_bools] end.
  - intros Hm. match goal with Hx : (_ ==? MarginProfileStressUnlimited) = false \/ _ |- _ => destruct Hx; by split_bools end.
  - match goal with Hx : acct_EvidenceClass a = _ |- _ => rewrite Hx end.
    destruct (acct_Environment a); split; done.
  - intros Henv. match goal with Hx : (_ || _) = false \/ negb (HasPrefix _ _) = false |- _ =>
      destruct Hx as [Hx|Hx]; split_bools; [by destruct Henv|done] end.
Qed.

Lemma HasPrefix_app s pre : HasPrefix s pre = true -> exists rest, s = (pre +:+ rest)%string.
Proof.
  revert s. induction pre as [|p pre IH]; intros s; [by exists s|].
  destruct s as [|a s]; cbn [HasPrefix]; [done|]. intros [Ha Hs]%andb_true_iff.
  apply Ascii.eqb_eq in Ha as ->. destruct (IH s Hs) as [rest ->]. by exists rest.
Qed.

Lemma prefixes_differ s : HasPrefix s "paper_scored/" = true -> HasPrefix s "paper_stress/" = true -> False.
Proof. intros [r1 ->]%HasPrefix_app [r2 Heq]%HasPrefix_app. discriminate Heq. Qed.

Lemma eligible_iff a : account_ok a ->
  PromotionEligible a = true <-> a.(acct_Environment) = AccountEnvironmentPaperScored.
Proof.
  intros Ha. unfold PromotionEligible. rewrite andb_true_iff, !bool_decide_eq_true, (ao_scored a Ha). tauto.
Qed.

(** Promotion evidence never mixes with synthetic stress. An account that
    [Account.Validate] accepts is eligible for promotion exactly when its
    environment is [paper_scored]; unlimited margin, or a zero buying-power
    multiplier, makes it ineligible; an account that may share storage with an
    eligible account is eligible itself; and a scored and a stress account have
    different storage namespaces. *)
Theorem account_isolation (a b : Account) :
  Account_Validate a = Ok tt -> Account_Validate b = Ok tt ->
  (PromotionEligible a = true <-> a.(acct_Environment) = AccountEnvironmentPaperScored) /\
  (a.(acct_MarginProfile) = MarginProfileStressUnlimited \/ val a.(acct_BuyingPowerMultiplier) == 0 ->
   PromotionEligible a = false) /\
  (CanShareStorageWith a b = true -> PromotionEligible a = PromotionEligible b) /\
  (PromotionEligible a = true -> b.(acct_Environment) = AccountEnvironmentPaperStress ->
   a.(acct_StorageNamespace) <> b.(acct_StorageNamespace)).
Proof.
  intros Ha%account_valid Hb%account_valid. repeat split_and; [by apply eligible_iff|..].
  - intros Hstress. apply not_true_is_false. rewrite eligible_iff by done. intros Henv.
    destruct Hstress as [Hm|Hz]; [by rewrite (ao_unlimited a Ha Hm) in Henv|].
    pose proof (ao_power_positive a Ha) as Hp. rewrite Henv in Hp. specialize (Hp ltac:(done)). lra.
  - unfold CanShareStorageWith. rewrite !andb_true_iff, !bool_decide_eq_true. intros [_ Henv].
    apply eq_true_iff_eq. by rewrite !eligible_iff, Henv.
  - intros Henv%eligible_iff Hstress Hns; [|done].
    pose proof (ao_namespace a Ha (or_introl Henv)) as Hpa. pose proof (ao_namespace b Hb (or_intror Hstress)) as Hpb.
    rewrite Henv in Hpa. rewrite Hstress, <- Hns in Hpb. by apply (prefixes_differ (acct_StorageNamespace a)).
Qed.
End account_proofs.
