(* ===== verification/Instrument.v ===== *)
(** * Canonical instruments and reference facts (internal/instrument)

    Stable instrument identity, provider aliases, venue contracts, corporate
    actions and option contract terms: the immutable reference records that the
    ledger and the order lifecycle are checked against. *)

From S2P Require Import Prelude GoStd Externals EconomicId.

Local Open Scope go_scope.

(** ** Enumerations *)

Inductive AssetClass :=
  | AssetClassUnknown
  | AssetClassEquity
  | AssetClassETF
  | AssetClassOption
  | AssetClassCryptoSpot
  | AssetClassPredictionContract
  | AssetClassFuture
  | AssetClassOther (text : string).

Inductive Status :=
  | StatusActive
  | StatusInactive
  | StatusExpired
  | StatusQuarantined
  | StatusOther (text : string).

Inductive SettlementMethod :=
  | SettlementCash
  | SettlementPhysical
  | SettlementCrypto
  | SettlementBinary
  | SettlementOther (text : string).

Inductive ExerciseStyle :=
  | ExerciseAmerican
  | ExerciseEuropean
  | ExerciseOther (text : string).

Inductive AliasType :=
  | AliasTicker
  | AliasOCC
  | AliasCUSIP
  | AliasFIGI
  | AliasVenueContract
  | AliasSlug
  | AliasProviderID
  | AliasTypeOther (text : string).

Inductive AliasAction :=
  | AliasAssigned
  | AliasRetired
  | AliasActionOther (text : string).

Inductive CorporateActionType :=
  | CorporateActionSymbolChange
  | CorporateActionSplit
  | CorporateActionReverseSplit
  | CorporateActionMerger
  | CorporateActionSpinoff
  | CorporateActionDelisting
  | CorporateActionCashDividend
  | CorporateActionFuturesRoll
  | CorporateActionOther (text : string).

Inductive OptionContractType :=
  | OptionContractCall
  | OptionContractPut
  | OptionContractOther (text : string).

Definition SettlementMethod_string (m : SettlementMethod) : string :=
  match m with
  | SettlementCash => "cash"
  | SettlementPhysical => "physical"
  | SettlementCrypto => "crypto"
  | SettlementBinary => "binary"
  | SettlementOther t => t
  end.

#[global] Instance AssetClass_eq_dec : EqDecision AssetClass.
Proof. solve_decision. Defined.
#[global] Instance Status_eq_dec : EqDecision Status.
Proof. solve_decision. Defined.
#[global] Instance SettlementMethod_eq_dec : EqDecision SettlementMethod.
Proof. solve_decision. Defined.
#[global] Instance ExerciseStyle_eq_dec : EqDecision ExerciseStyle.
Proof. solve_decision. Defined.
#[global] Instance AliasAction_eq_dec : EqDecision AliasAction.
Proof. solve_decision. Defined.
#[global] Instance CorporateActionType_eq_dec : EqDecision CorporateActionType.
Proof. solve_decision. Defined.
#[global] Instance OptionContractType_eq_dec : EqDecision OptionContractType.
Proof. solve_decision. Defined.

Definition validAssetClass (value : AssetClass) : bool :=
  match value with AssetClassOther _ => false | _ => true end.
Definition validStatus (value : Status) : bool :=
  match value with StatusOther _ => false | _ => true end.
Definition validSettlementMethod (value : SettlementMethod) : bool :=
  match value with SettlementOther _ => false | _ => true end.
Definition validExerciseStyle (value : ExerciseStyle) : bool :=
  (value ==? ExerciseAmerican) || (value ==? ExerciseEuropean).
Definition validAliasType (value : AliasType) : bool :=
  match value with AliasTypeOther _ => false | _ => true end.
Definition validCorporateActionType (value : CorporateActionType) : bool :=
  match value with CorporateActionOther _ => false | _ => true end.

Definition optionContractTermsIDDomain : string := "option-contract-terms".

Section instrument.
Context {E : Externals}.

(** ** Records *)

Record Instrument := MkInstrument {
  inst_ID : UUID;
  inst_IdentityKey : string;
  inst_AssetClass : AssetClass;
  inst_PrimaryVenue : string;
  inst_Currency : string;
  inst_TickSize : dec;
  inst_LotSize : dec;
  inst_Multiplier : dec;
  inst_Expiration : option Time;
  inst_ExerciseStyle : ExerciseStyle;
  inst_SettlementMethod : SettlementMethod;
  inst_UnderlyingID : option UUID;
  inst_Status : Status;
  inst_Metadata : string;
  inst_CreatedAt : Time;
}.

Record InstrumentInput := MkInstrumentInput {
  instin_IdentityKey : string;
  instin_AssetClass : AssetClass;
  instin_PrimaryVenue : string;
  instin_Currency : string;
  instin_TickSize : dec;
  instin_LotSize : dec;
  instin_Multiplier : dec;
  instin_Expiration : option Time;
  instin_ExerciseStyle : ExerciseStyle;
  instin_SettlementMethod : SettlementMethod;
  instin_UnderlyingID : option UUID;
  instin_Status : Status;
  instin_Metadata : string;
  instin_CreatedAt : Time;
}.

Record AliasEvent := MkAliasEvent {
  alias_ID : UUID;
  alias_InstrumentID : UUID;
  alias_Provider : string;
  alias_AliasType : AliasType;
  alias_AliasValue : string;
  alias_Action : AliasAction;
  alias_EffectiveAt : Time;
  alias_Source : string;
  alias_Metadata : string;
  alias_CreatedAt : Time;
}.

Record AliasEventInput := MkAliasEventInput {
  aliasin_InstrumentID : UUID;
  aliasin_Provider : string;
  aliasin_AliasType : AliasType;
  aliasin_AliasValue : string;
  aliasin_Action : AliasAction;
  aliasin_EffectiveAt : Time;
  aliasin_Source : string;
  aliasin_Metadata : string;
  aliasin_CreatedAt : Time;
}.

Record VenueContract := MkVenueContract {
  vc_ID : UUID;
  vc_InstrumentID : UUID;
  vc_Venue : string;
  vc_ContractID : string;
  vc_Currency : string;
  vc_TickSize : dec;
  vc_LotSize : dec;
  vc_Multiplier : dec;
  vc_SettlementMethod : SettlementMethod;
  vc_ValidFrom : Time;
  vc_ValidTo : option Time;
  vc_Metadata : string;
  vc_CreatedAt : Time;
}.

Record VenueContractInput := MkVenueContractInput {
  vcin_InstrumentID : UUID;
  vcin_Venue : string;
  vcin_ContractID : string;
  vcin_Currency : string;
  vcin_TickSize : dec;
  vcin_LotSize : dec;
  vcin_Multiplier : dec;
  vcin_SettlementMethod : SettlementMethod;
  vcin_ValidFrom : Time;
  vcin_ValidTo : option Time;
  vcin_Metadata : string;
  vcin_CreatedAt : Time;
}.

Record CorporateAction := MkCorporateAction {
  ca_ID : UUID;
  ca_InstrumentID : UUID;
  ca_SuccessorInstrumentID : option UUID;
  ca_ActionType : CorporateActionType;
  ca_EffectiveAt : Time;
  ca_RatioNumerator : dec;
  ca_RatioDenominator : dec;
  ca_CashAmount : option dec;
  ca_CashCurrency : string;
  ca_Source : string;
  ca_SourceEventID : string;
  ca_Metadata : string;
  ca_CreatedAt : Time;
}.

Record CorporateActionInput := MkCorporateActionInput {
  cain_InstrumentID : UUID;
  cain_SuccessorInstrumentID : option UUID;
  cain_ActionType : CorporateActionType;
  cain_EffectiveAt : Time;
  cain_RatioNumerator : dec;
  cain_RatioDenominator : dec;
  cain_CashAmount : option dec;
  cain_CashCurrency : string;
  cain_Source : string;
  cain_SourceEventID : string;
  cain_Metadata : string;
  cain_CreatedAt : Time;
}.

Record OptionContractTerms := MkOptionContractTerms {
  terms_ID : UUID;
  terms_OptionInstrumentID : UUID;
  terms_UnderlyingInstrumentID : UUID;
  terms_ContractType : OptionContractType;
  terms_StrikePrice : dec;
  terms_StrikeCurrency : string;
  terms_DeliverableQuantity : dec;
  terms_Source : string;
  terms_SourceNamespace : string;
  terms_SourceRecordID : string;
  terms_SourceRevision : string;
  terms_EffectiveAt : Time;
  terms_ObservedAt : Time;
  terms_RawPayload : string;
  terms_PayloadSHA256 : string;
  terms_Metadata : string;
  terms_CreatedAt : Time;
}.

Record OptionContractTermsInput := MkOptionContractTermsInput {
  termsin_OptionInstrumentID : UUID;
  termsin_UnderlyingInstrumentID : UUID;
  termsin_ContractType : OptionContractType;
  termsin_StrikePrice : dec;
  termsin_StrikeCurrency : string;
  termsin_DeliverableQuantity : dec;
  termsin_Source : string;
  termsin_SourceNamespace : string;
  termsin_SourceRecordID : string;
  termsin_SourceRevision : string;
  termsin_EffectiveAt : Time;
  termsin_ObservedAt : Time;
  termsin_RawPayload : string;
  termsin_Metadata : string;
  termsin_CreatedAt : Time;
}.

(** ** Helpers *)

Definition normalizeOptionalTime (value : option Time) : option Time := utc_micro <$> value.

Definition normalizeJSONObject (value label : string) : outcome string :=
  let normalized := if (String.length value =? 0)%nat then "{}" else value in
  match json_unmarshal normalized ≫= json_object_size with
  | Some _ => Ok normalized
  | None => Err (Errorf (label +:+ " must be a JSON object")%string)
  end.

(** Three bytes, each rune between A and Z (see [Account.isCurrencyCode]). *)
Definition isCurrency (value : string) : bool :=
  (String.length value =? 3)%nat &&
  string_forallb (fun r => negb (code r <? 65)%N && negb (90 <? code r)%N) value.

Definition isNormalizedReferenceTime (value : Time) : bool :=
  value.(location_utc) && TimeEqual value (TruncateMicro value).

Definition validatePositiveReferenceDecimal (name : string) (value : dec) : outcome unit :=
  reject (negb (IsPositive value)) "%s must be positive" ;;
  reject (negb (Equal value (Round value 12))) "%s supports at most 12 decimal places" ;;
  reject (26 <? NumDigits value + Exponent value)%Z "%s exceeds NUMERIC(38,12) magnitude".

Definition normalizeAliasValue (aliasType : AliasType) (value : string) : string :=
  let normalized := TrimSpace value in
  match aliasType with
  | AliasTicker | AliasOCC | AliasCUSIP | AliasFIGI | AliasVenueContract => ToUpper normalized
  | _ => normalized
  end.

Definition NormalizeAlias (provider : string) (aliasType : AliasType) (aliasValue : string) :
    outcome (string * string) :=
  let normalizedProvider := ToLower (TrimSpace provider) in
  reject (normalizedProvider ==? "") "alias provider must be non-empty" ;;
  reject (negb (validAliasType aliasType)) "alias type %q is invalid" ;;
  let normalizedValue := normalizeAliasValue aliasType aliasValue in
  reject (normalizedValue ==? "") "alias value must be non-empty" ;;
  Ok (normalizedProvider, normalizedValue).

Definition normalizedRequiredReference (value : string) : bool :=
  (value !=? "") && (value ==? TrimSpace value).

Definition jsonBytesEqual (left right : string) : bool :=
  match json_unmarshal left, json_unmarshal right with
  | Some leftValue, Some rightValue => json_marshal leftValue ==? json_marshal rightValue
  | _, _ => false
  end.

(** ** Instrument.Validate and NewInstrument

    The loop over the three mechanics ranges over a Go map, whose order is
    unspecified; the model visits them in the order they are listed. Only the
    message of the error can depend on that order. *)
Definition instrument_mechanic (quarantined : bool) (value : dec) : outcome unit :=
  if quarantined && IsZero value then Ok tt else
  reject (negb (IsPositive value)) "instrument %s must be positive when supplied" ;;
  reject (negb (Equal value (Round value 12))) "instrument %s supports at most 12 decimal places" ;;
  reject (26 <? NumDigits value + Exponent value)%Z "instrument %s exceeds NUMERIC(38,12) magnitude".

Definition Instrument_Validate (i : Instrument) : outcome unit :=
  reject (i.(inst_ID) ==? Nil) "instrument ID is required" ;;
  reject ((i.(inst_IdentityKey) ==? "") || (i.(inst_IdentityKey) !=? TrimSpace i.(inst_IdentityKey)))
    "instrument identity key must be non-empty and normalized" ;;
  reject (negb (validAssetClass i.(inst_AssetClass))) "instrument asset class %q is invalid" ;;
  reject (negb (validStatus i.(inst_Status))) "instrument status %q is invalid" ;;
  let quarantined := i.(inst_Status) ==? StatusQuarantined in
  reject (negb quarantined && (i.(inst_AssetClass) ==? AssetClassUnknown))
    "verified instrument asset class cannot be unknown" ;;
  reject ((i.(inst_PrimaryVenue) ==? "") ||
          (i.(inst_PrimaryVenue) !=? ToLower (TrimSpace i.(inst_PrimaryVenue))))
    "instrument primary venue must be non-empty and normalized" ;;
  reject ((negb quarantined || (i.(inst_Currency) !=? "")) && negb (isCurrency i.(inst_Currency)))
    "instrument currency %q must be a normalized three-letter code" ;;
  for_each (instrument_mechanic quarantined)
    [i.(inst_TickSize); i.(inst_LotSize); i.(inst_Multiplier)] ;;
  reject ((negb quarantined || (i.(inst_SettlementMethod) !=? SettlementOther "")) &&
          negb (validSettlementMethod i.(inst_SettlementMethod)))
    "instrument settlement method %q is invalid" ;;
  reject (some_and (fun t => negb t.(location_utc) || negb (TimeEqual t (TruncateMicro t)))
            i.(inst_Expiration))
    "instrument expiration must use normalized UTC microsecond precision" ;;
  reject ((i.(inst_ExerciseStyle) !=? ExerciseOther "") && negb (validExerciseStyle i.(inst_ExerciseStyle)))
    "instrument exercise style %q is invalid" ;;
  reject (some_and (fun u => u ==? Nil) i.(inst_UnderlyingID)) "instrument underlying ID cannot be nil" ;;
  reject (some_and (fun u => u ==? i.(inst_ID)) i.(inst_UnderlyingID))
    "instrument cannot be its own underlying" ;;
  reject (negb quarantined && (i.(inst_AssetClass) ==? AssetClassOption) &&
          (is_nil i.(inst_Expiration) || negb (validExerciseStyle i.(inst_ExerciseStyle)) ||
           is_nil i.(inst_UnderlyingID)))
    "option instrument requires expiration, exercise style, and underlying ID" ;;
  reject (IsZeroTime i.(inst_CreatedAt) || negb i.(inst_CreatedAt).(location_utc) ||
          negb (TimeEqual i.(inst_CreatedAt) (TruncateMicro i.(inst_CreatedAt))))
    "instrument creation time must use normalized UTC microsecond precision" ;;
  metadata ← normalizeJSONObject i.(inst_Metadata) "instrument metadata" ;
  reject (quarantined &&
          match json_unmarshal metadata ≫= json_object_size with
          | Some n => (n =? 0)%nat
          | None => true
          end)
    "quarantined instrument metadata must record provenance".

Definition NewInstrument (fresh : UUID) (now : Time) (input : InstrumentInput) : outcome Instrument :=
  let created := utc_micro input.(instin_CreatedAt) in
  let createdAt := if IsZeroTime created then utc_micro now else created in
  let status := if input.(instin_Status) ==? StatusOther "" then StatusActive else input.(instin_Status) in
  metadata ← normalizeJSONObject input.(instin_Metadata) "instrument metadata" ;
  let instrument := {|
    inst_ID := fresh;
    inst_IdentityKey := TrimSpace input.(instin_IdentityKey);
    inst_AssetClass := input.(instin_AssetClass);
    inst_PrimaryVenue := ToLower (TrimSpace input.(instin_PrimaryVenue));
    inst_Currency := ToUpper (TrimSpace input.(instin_Currency));
    inst_TickSize := input.(instin_TickSize);
    inst_LotSize := input.(instin_LotSize);
    inst_Multiplier := input.(instin_Multiplier);
    inst_Expiration := normalizeOptionalTime input.(instin_Expiration);
    inst_ExerciseStyle := input.(instin_ExerciseStyle);
    inst_SettlementMethod := input.(instin_SettlementMethod);
    inst_UnderlyingID := input.(instin_UnderlyingID);
    inst_Status := status;
    inst_Metadata := metadata;
    inst_CreatedAt := createdAt |} in
  Instrument_Validate instrument ;;
  Ok instrument.

(** ** Alias events *)

Definition AliasEvent_Validate (e : AliasEvent) : outcome unit :=
  reject ((e.(alias_ID) ==? Nil) || (e.(alias_InstrumentID) ==? Nil))
    "alias event and instrument IDs are required" ;;
  reject ((e.(alias_Provider) ==? "") || (e.(alias_Provider) !=? ToLower (TrimSpace e.(alias_Provider))))
    "alias provider must be non-empty and normalized" ;;
  reject (negb (validAliasType e.(alias_AliasType))) "alias type %q is invalid" ;;
  reject ((e.(alias_AliasValue) ==? "") ||
          (e.(alias_AliasValue) !=? normalizeAliasValue e.(alias_AliasType) e.(alias_AliasValue)))
    "alias value must be non-empty and normalized" ;;
  reject ((e.(alias_Action) !=? AliasAssigned) && (e.(alias_Action) !=? AliasRetired))
    "alias action %q is invalid" ;;
  reject (IsZeroTime e.(alias_EffectiveAt) || negb (isNormalizedReferenceTime e.(alias_EffectiveAt)))
    "alias effective time must use normalized UTC microsecond precision" ;;
  reject ((e.(alias_Source) ==? "") || (e.(alias_Source) !=? TrimSpace e.(alias_Source)))
    "alias source must be non-empty and normalized" ;;
  reject (IsZeroTime e.(alias_CreatedAt) || negb (isNormalizedReferenceTime e.(alias_CreatedAt)))
    "alias creation time must use normalized UTC microsecond precision" ;;
  normalizeJSONObject e.(alias_Metadata) "alias metadata" ;;
  Ok tt.

Definition NewAliasEvent (fresh : UUID) (now : Time) (input : AliasEventInput) : outcome AliasEvent :=
  let created := utc_micro input.(aliasin_CreatedAt) in
  let createdAt := if IsZeroTime created then utc_micro now else created in
  metadata ← normalizeJSONObject input.(aliasin_Metadata) "alias metadata" ;
  '(provider, aliasValue) ←
    NormalizeAlias input.(aliasin_Provider) input.(aliasin_AliasType) input.(aliasin_AliasValue) ;
  let event := {|
    alias_ID := fresh;
    alias_InstrumentID := input.(aliasin_InstrumentID);
    alias_Provider := provider;
    alias_AliasType := input.(aliasin_AliasType);
    alias_AliasValue := aliasValue;
    alias_Action := input.(aliasin_Action);
    alias_EffectiveAt := utc_micro input.(aliasin_EffectiveAt);
    alias_Source := TrimSpace input.(aliasin_Source);
    alias_Metadata := metadata;
    alias_CreatedAt := createdAt |} in
  AliasEvent_Validate event ;;
  Ok event.

(** ** Venue contracts *)

Definition VenueContract_Validate (c : VenueContract) : outcome unit :=
  reject ((c.(vc_ID) ==? Nil) || (c.(vc_InstrumentID) ==? Nil))
    "venue contract and instrument IDs are required" ;;
  reject ((c.(vc_Venue) ==? "") || (c.(vc_Venue) !=? ToLower (TrimSpace c.(vc_Venue))))
    "venue contract venue must be non-empty and normalized" ;;
  reject ((c.(vc_ContractID) ==? "") || (c.(vc_ContractID) !=? ToUpper (TrimSpace c.(vc_ContractID))))
    "venue contract ID must be non-empty and normalized" ;;
  reject (negb (isCurrency c.(vc_Currency)))
    "venue contract currency %q must be a normalized three-letter code" ;;
  for_each (fun '(name, value) => validatePositiveReferenceDecimal name value)
    [("tick size", c.(vc_TickSize)); ("lot size", c.(vc_LotSize)); ("multiplier", c.(vc_Multiplier))] ;;
  reject (negb (validSettlementMethod c.(vc_SettlementMethod)))
    "venue contract settlement method %q is invalid" ;;
  reject (IsZeroTime c.(vc_ValidFrom) || negb (isNormalizedReferenceTime c.(vc_ValidFrom)))
    "venue contract valid-from time must use normalized UTC microsecond precision" ;;
  match c.(vc_ValidTo) with
  | Some validTo =>
      reject (negb (isNormalizedReferenceTime validTo))
        "venue contract valid-to time must use normalized UTC microsecond precision" ;;
      reject (negb (After validTo c.(vc_ValidFrom)))
        "venue contract valid-to time must be after valid-from time"
  | None => Ok tt
  end ;;
  reject (IsZeroTime c.(vc_CreatedAt) || negb (isNormalizedReferenceTime c.(vc_CreatedAt)))
    "venue contract creation time must use normalized UTC microsecond precision" ;;
  normalizeJSONObject c.(vc_Metadata) "venue contract metadata" ;;
  Ok tt.

Definition NewVenueContract (fresh : UUID) (now : Time) (input : VenueContractInput) : outcome VenueContract :=
  let created := utc_micro input.(vcin_CreatedAt) in
  let createdAt := if IsZeroTime created then utc_micro now else created in
  metadata ← normalizeJSONObject input.(vcin_Metadata) "venue contract metadata" ;
  let contract := {|
    vc_ID := fresh;
    vc_InstrumentID := input.(vcin_InstrumentID);
    vc_Venue := ToLower (TrimSpace input.(vcin_Venue));
    vc_ContractID := ToUpper (TrimSpace input.(vcin_ContractID));
    vc_Currency := ToUpper (TrimSpace input.(vcin_Currency));
    vc_TickSize := input.(vcin_TickSize);
    vc_LotSize := input.(vcin_LotSize);
    vc_Multiplier := input.(vcin_Multiplier);
    vc_SettlementMethod := input.(vcin_SettlementMethod);
    vc_ValidFrom := utc_micro input.(vcin_ValidFrom);
    vc_ValidTo := normalizeOptionalTime input.(vcin_ValidTo);
    vc_Metadata := metadata;
    vc_CreatedAt := createdAt |} in
  VenueContract_Validate contract ;;
  Ok contract.

(** ** Corporate actions *)

Definition CorporateAction_Validate (a : CorporateAction) : outcome unit :=
  reject ((a.(ca_ID) ==? Nil) || (a.(ca_InstrumentID) ==? Nil))
    "corporate action and instrument IDs are required" ;;
  reject (negb (validCorporateActionType a.(ca_ActionType))) "corporate action type %q is invalid" ;;
  reject (IsZeroTime a.(ca_EffectiveAt) || negb (isNormalizedReferenceTime a.(ca_EffectiveAt)))
    "corporate action effective time must use normalized UTC microsecond precision" ;;
  reject (some_and (fun s => (s ==? Nil) || (s ==? a.(ca_InstrumentID))) a.(ca_SuccessorInstrumentID))
    "corporate action successor must be a different non-nil instrument" ;;
  (if (a.(ca_ActionType) ==? CorporateActionSplit) || (a.(ca_ActionType) ==? CorporateActionReverseSplit) ||
      negb (IsZero a.(ca_RatioNumerator)) || negb (IsZero a.(ca_RatioDenominator))
   then
     validatePositiveReferenceDecimal "corporate action ratio numerator" a.(ca_RatioNumerator) ;;
     validatePositiveReferenceDecimal "corporate action ratio denominator" a.(ca_RatioDenominator)
   else Ok tt) ;;
  match a.(ca_CashAmount) with
  | Some amount =>
      validatePositiveReferenceDecimal "corporate action cash amount" amount ;;
      reject (negb (isCurrency a.(ca_CashCurrency)))
        "corporate action cash currency must be a normalized three-letter code"
  | None =>
      reject (a.(ca_CashCurrency) !=? "")
        "corporate action cash amount and currency must be supplied together"
  end ;;
  match a.(ca_ActionType) with
  | CorporateActionMerger | CorporateActionSpinoff | CorporateActionFuturesRoll =>
      reject (is_nil a.(ca_SuccessorInstrumentID))
        "corporate action type %q requires a successor instrument"
  | CorporateActionCashDividend =>
      reject (is_nil a.(ca_CashAmount) || negb (isCurrency a.(ca_CashCurrency)))
        "cash dividend requires amount and currency"
  | _ => Ok tt
  end ;;
  reject ((a.(ca_Source) ==? "") || (a.(ca_Source) !=? TrimSpace a.(ca_Source)) ||
          (a.(ca_SourceEventID) ==? "") || (a.(ca_SourceEventID) !=? TrimSpace a.(ca_SourceEventID)))
    "corporate action source and source event ID must be non-empty and normalized" ;;
  reject (IsZeroTime a.(ca_CreatedAt) || negb (isNormalizedReferenceTime a.(ca_CreatedAt)))
    "corporate action creation time must use normalized UTC microsecond precision" ;;
  normalizeJSONObject a.(ca_Metadata) "corporate action metadata" ;;
  Ok tt.

Definition NewCorporateAction (fresh : UUID) (now : Time) (input : CorporateActionInput) :
    outcome CorporateAction :=
  let created := utc_micro input.(cain_CreatedAt) in
  let createdAt := if IsZeroTime created then utc_micro now else created in
  metadata ← normalizeJSONObject input.(cain_Metadata) "corporate action metadata" ;
  let action := {|
    ca_ID := fresh;
    ca_InstrumentID := input.(cain_InstrumentID);
    ca_SuccessorInstrumentID := input.(cain_SuccessorInstrumentID);
    ca_ActionType := input.(cain_ActionType);
    ca_EffectiveAt := utc_micro input.(cain_EffectiveAt);
    ca_RatioNumerator := input.(cain_RatioNumerator);
    ca_RatioDenominator := input.(cain_RatioDenominator);
    ca_CashAmount := input.(cain_CashAmount);
    ca_CashCurrency := ToUpper (TrimSpace input.(cain_CashCurrency));
    ca_Source := TrimSpace input.(cain_Source);
    ca_SourceEventID := TrimSpace input.(cain_SourceEventID);
    ca_Metadata := metadata;
    ca_CreatedAt := createdAt |} in
  CorporateAction_Validate action ;;
  Ok action.

(** ** Option contract terms *)

Definition terms_identity (t : OptionContractTerms) : UUID :=
  DeterministicUUID optionContractTermsIDDomain
    [uuid_string t.(terms_OptionInstrumentID); t.(terms_Source); t.(terms_SourceNamespace);
     t.(terms_SourceRecordID)].

Definition OptionContractTerms_Validate (t : OptionContractTerms) : outcome unit :=
  reject ((t.(terms_OptionInstrumentID) ==? Nil) || (t.(terms_UnderlyingInstrumentID) ==? Nil))
    "option contract terms require option and underlying instrument IDs" ;;
  reject (t.(terms_OptionInstrumentID) ==? t.(terms_UnderlyingInstrumentID))
    "option contract terms underlying must differ from the option instrument" ;;
  reject ((t.(terms_ContractType) !=? OptionContractCall) && (t.(terms_ContractType) !=? OptionContractPut))
    "option contract type %q is invalid" ;;
  validatePositiveReferenceDecimal "option strike price" t.(terms_StrikePrice) ;;
  reject (negb (isCurrency t.(terms_StrikeCurrency)))
    "option strike currency %q must be a normalized three-letter code" ;;
  validatePositiveReferenceDecimal "option deliverable quantity" t.(terms_DeliverableQuantity) ;;
  reject ((t.(terms_Source) ==? "") || (t.(terms_Source) !=? ToLower (TrimSpace t.(terms_Source))))
    "option terms source must be non-empty and normalized lowercase" ;;
  reject (negb (normalizedRequiredReference t.(terms_SourceNamespace)) ||
          negb (normalizedRequiredReference t.(terms_SourceRecordID)))
    "option terms source namespace and record ID must be non-empty and normalized" ;;
  reject (t.(terms_SourceRevision) !=? TrimSpace t.(terms_SourceRevision))
    "option terms source revision must be normalized" ;;
  reject (IsZeroTime t.(terms_EffectiveAt) || negb (isNormalizedReferenceTime t.(terms_EffectiveAt)))
    "option terms effective time must use normalized UTC microsecond precision" ;;
  reject (IsZeroTime t.(terms_ObservedAt) || negb (isNormalizedReferenceTime t.(terms_ObservedAt)))
    "option terms observed time must use normalized UTC microsecond precision" ;;
  reject (Before t.(terms_ObservedAt) t.(terms_EffectiveAt))
    "option terms observed time cannot precede effective time" ;;
  reject ((String.length t.(terms_RawPayload) =? 0)%nat || negb (json_valid t.(terms_RawPayload)))
    "option terms raw payload must be valid JSON" ;;
  reject (t.(terms_PayloadSHA256) !=? EncodeToString (Sum256 t.(terms_RawPayload)))
    "option terms payload SHA-256 does not match raw bytes" ;;
  normalizeJSONObject t.(terms_Metadata) "option contract terms metadata" ;;
  reject (IsZeroTime t.(terms_CreatedAt) || negb (isNormalizedReferenceTime t.(terms_CreatedAt)))
    "option terms creation time must use normalized UTC microsecond precision" ;;
  reject (t.(terms_ID) !=? terms_identity t)
    "option contract terms ID does not match deterministic source identity".

Definition NewOptionContractTerms (now : Time) (input : OptionContractTermsInput) :
    outcome OptionContractTerms :=
  let created := utc_micro input.(termsin_CreatedAt) in
  let createdAt := if IsZeroTime created then utc_micro now else created in
  metadata ← normalizeJSONObject input.(termsin_Metadata) "option contract terms metadata" ;
  let source := ToLower (TrimSpace input.(termsin_Source)) in
  let namespace := TrimSpace input.(termsin_SourceNamespace) in
  let recordID := TrimSpace input.(termsin_SourceRecordID) in
  let terms := {|
    terms_ID := DeterministicUUID optionContractTermsIDDomain
      [uuid_string input.(termsin_OptionInstrumentID); source; namespace; recordID];
    terms_OptionInstrumentID := input.(termsin_OptionInstrumentID);
    terms_UnderlyingInstrumentID := input.(termsin_UnderlyingInstrumentID);
    terms_ContractType := input.(termsin_ContractType);
    terms_StrikePrice := input.(termsin_StrikePrice);
    terms_StrikeCurrency := ToUpper (TrimSpace input.(termsin_StrikeCurrency));
    terms_DeliverableQuantity := input.(termsin_DeliverableQuantity);
    terms_Source := source;
    terms_SourceNamespace := namespace;
    terms_SourceRecordID := recordID;
    terms_SourceRevision := TrimSpace input.(termsin_SourceRevision);
    terms_EffectiveAt := utc_micro input.(termsin_EffectiveAt);
    terms_ObservedAt := utc_micro input.(termsin_ObservedAt);
    terms_RawPayload := input.(termsin_RawPayload);
    terms_PayloadSHA256 := EncodeToString (Sum256 input.(termsin_RawPayload));
    terms_Metadata := metadata;
    terms_CreatedAt := createdAt |} in
  OptionContractTerms_Validate terms ;;
  Ok terms.

Definition SameOptionContractTermsPayload (left right : option OptionContractTerms) : bool :=
  match left, right with
  | Some l, Some r =>
      (l.(terms_ID) ==? r.(terms_ID)) &&
      (l.(terms_OptionInstrumentID) ==? r.(terms_OptionInstrumentID)) &&
      (l.(terms_UnderlyingInstrumentID) ==? r.(terms_UnderlyingInstrumentID)) &&
      (l.(terms_ContractType) ==? r.(terms_ContractType)) &&
      Equal l.(terms_StrikePrice) r.(terms_StrikePrice) &&
      (l.(terms_StrikeCurrency) ==? r.(terms_StrikeCurrency)) &&
      Equal l.(terms_DeliverableQuantity) r.(terms_DeliverableQuantity) &&
      (l.(terms_Source) ==? r.(terms_Source)) &&
      (l.(terms_SourceNamespace) ==? r.(terms_SourceNamespace)) &&
      (l.(terms_SourceRecordID) ==? r.(terms_SourceRecordID)) &&
      (l.(terms_SourceRevision) ==? r.(terms_SourceRevision)) &&
      TimeEqual l.(terms_EffectiveAt) r.(terms_EffectiveAt) &&
      TimeEqual l.(terms_ObservedAt) r.(terms_ObservedAt) &&
      (l.(terms_PayloadSHA256) ==? r.(terms_PayloadSHA256)) &&
      (l.(terms_RawPayload) ==? r.(terms_RawPayload)) &&
      jsonBytesEqual l.(terms_Metadata) r.(terms_Metadata)
  | _, _ => false
  end.

End instrument.
