(* ===== verification/Transaction.v ===== *)
(** * Double-entry ledger transactions (internal/ledger/transaction.go)

    A transaction is one immutable economic event; debits are positive, credits
    negative, and the postings net to zero independently for every unit. *)

From S2P Require Import Prelude GoStd Externals EconomicId.

Local Open Scope go_scope.

Inductive UnitKind :=
  | UnitKindCurrency
  | UnitKindInstrument
  | UnitKindOther (text : string).

#[global] Instance UnitKind_eq_dec : EqDecision UnitKind.
Proof. solve_decision. Defined.

#[global] Instance UnitKind_countable : Countable UnitKind.
Proof.
  refine (inj_countable'
    (fun k => match k with
              | UnitKindCurrency => inl true
              | UnitKindInstrument => inl false
              | UnitKindOther t => inr t
              end)
    (fun s => match s with
              | inl true => UnitKindCurrency
              | inl false => UnitKindInstrument
              | inr t => UnitKindOther t
              end) _).
  by intros [].
Defined.

(** [type postingUnit struct { kind UnitKind; value string }] *)
Definition postingUnit : Type := UnitKind * string.

Section transaction.
Context {E : Externals}.

Record Posting := MkPosting {
  post_ID : UUID;
  post_TransactionID : UUID;
  post_IdempotencyKey : string;
  post_LedgerAccount : string;
  post_UnitKind : UnitKind;
  post_Unit : string;
  post_Amount : dec;
  post_Metadata : string;
  post_CreatedAt : Time;
}.

Record Transaction := MkTransaction {
  tx_ID : UUID;
  tx_AccountID : UUID;
  tx_EventType : string;
  tx_IdempotencyKey : string;
  tx_OriginType : string;
  tx_OriginID : string;
  tx_ReferenceType : string;
  tx_ReferenceID : string;
  tx_EffectiveAt : Time;
  tx_ObservedAt : Time;
  tx_Metadata : string;
  tx_Postings : list Posting;
  tx_CreatedAt : Time;
}.

Record PostingInput := MkPostingInput {
  postin_IdempotencyKey : string;
  postin_LedgerAccount : string;
  postin_UnitKind : UnitKind;
  postin_Unit : string;
  postin_Amount : dec;
  postin_Metadata : string;
}.

Record TransactionInput := MkTransactionInput {
  txin_AccountID : UUID;
  txin_EventType : string;
  txin_IdempotencyKey : string;
  txin_OriginType : string;
  txin_OriginID : string;
  txin_ReferenceType : string;
  txin_ReferenceID : string;
  txin_EffectiveAt : Time;
  txin_ObservedAt : Time;
  txin_Metadata : string;
  txin_Postings : list PostingInput;
}.

(** ** Helpers *)

Definition isNormalizedRequired (value : string) : bool := (value !=? "") && (value ==? TrimSpace value).

Definition hasPostgresTimestampPrecision (value : Time) : bool := TimeEqual value (TruncateMicro value).

(** Three bytes, each rune between A and Z (see [Account.isCurrencyCode]). *)
Definition isCurrencyUnit (value : string) : bool :=
  (String.length value =? 3)%nat &&
  string_forallb (fun r => negb (code r <? 65)%N && negb (90 <? code r)%N) value.

Definition normalizeJSONObject (value label : string) : outcome string :=
  let normalized := if (String.length value =? 0)%nat then "{}" else value in
  match json_unmarshal normalized ≫= json_object_size with
  | Some _ => Ok normalized
  | None => Err (Errorf (label +:+ " must be a JSON object")%string)
  end.

(** ** Transaction.Validate *)

Definition posting_unit (p : Posting) : postingUnit := (p.(post_UnitKind), p.(post_Unit)).

(** One iteration of the loop over the postings; [postingKeys] and [balances]
    are the two maps of the Go function. *)
Definition validate_posting (id : UUID) (p : Posting)
    (postingKeys : gset string) (balances : gmap postingUnit dec) :
    outcome (gset string * gmap postingUnit dec) :=
  reject ((p.(post_ID) ==? Nil) || (p.(post_TransactionID) !=? id))
    "posting identity does not match ledger transaction" ;;
  reject (negb (isNormalizedRequired p.(post_IdempotencyKey)) || negb (isNormalizedRequired p.(post_LedgerAccount)))
    "posting idempotency key and ledger account must be non-empty and normalized" ;;
  reject (bool_decide (p.(post_IdempotencyKey) ∈ postingKeys)) "duplicate posting idempotency key %q" ;;
  let postingKeys := {[ p.(post_IdempotencyKey) ]} ∪ postingKeys in
  reject ((p.(post_UnitKind) !=? UnitKindCurrency) && (p.(post_UnitKind) !=? UnitKindInstrument))
    "posting unit kind %q is invalid" ;;
  reject (negb (isNormalizedRequired p.(post_Unit))) "posting unit must be non-empty and normalized" ;;
  reject ((p.(post_UnitKind) ==? UnitKindCurrency) && negb (isCurrencyUnit p.(post_Unit)))
    "posting currency unit %q must be a three-letter code" ;;
  reject (IsZero p.(post_Amount)) "posting amount must be non-zero" ;;
  reject (IsZeroTime p.(post_CreatedAt)) "posting creation time is required" ;;
  reject (negb (hasPostgresTimestampPrecision p.(post_CreatedAt)))
    "posting creation time must use PostgreSQL microsecond precision" ;;
  reject (negb (Equal p.(post_Amount) (Round p.(post_Amount) 12)))
    "posting amount supports at most 12 decimal places" ;;
  reject (26 <? NumDigits p.(post_Amount) + Exponent p.(post_Amount))%Z
    "posting amount exceeds NUMERIC(38,12) magnitude" ;;
  normalizeJSONObject p.(post_Metadata) "posting metadata" ;;
  let unit := posting_unit p in
  Ok (postingKeys, <[unit := Add (default ZeroValue (balances !! unit)) p.(post_Amount)]> balances).

Fixpoint validate_postings (id : UUID) (postings : list Posting)
    (postingKeys : gset string) (balances : gmap postingUnit dec) : outcome (gmap postingUnit dec) :=
  match postings with
  | [] => Ok balances
  | p :: rest =>
      '(keys, sums) ← validate_posting id p postingKeys balances ;
      validate_postings id rest keys sums
  end.

Definition Transaction_Validate (t : Transaction) : outcome unit :=
  reject ((t.(tx_ID) ==? Nil) || (t.(tx_AccountID) ==? Nil))
    "ledger transaction and account IDs are required" ;;
  reject (negb (isNormalizedRequired t.(tx_EventType)) || negb (isNormalizedRequired t.(tx_IdempotencyKey)))
    "ledger event type and idempotency key must be non-empty and normalized" ;;
  reject (negb (isNormalizedRequired t.(tx_OriginType)) || negb (isNormalizedRequired t.(tx_OriginID)))
    "ledger origin type and ID must be non-empty and normalized" ;;
  reject (negb (Bool.eqb (t.(tx_ReferenceType) ==? "") (t.(tx_ReferenceID) ==? "")))
    "ledger reference type and ID must be provided together" ;;
  reject ((t.(tx_ReferenceType) !=? "") &&
          (negb (isNormalizedRequired t.(tx_ReferenceType)) || negb (isNormalizedRequired t.(tx_ReferenceID))))
    "ledger reference type and ID must be normalized" ;;
  reject (IsZeroTime t.(tx_EffectiveAt) || IsZeroTime t.(tx_ObservedAt) || IsZeroTime t.(tx_CreatedAt))
    "ledger effective, observed, and creation times are required" ;;
  reject (negb (hasPostgresTimestampPrecision t.(tx_EffectiveAt)) ||
          negb (hasPostgresTimestampPrecision t.(tx_ObservedAt)) ||
          negb (hasPostgresTimestampPrecision t.(tx_CreatedAt)))
    "ledger timestamps must use PostgreSQL microsecond precision" ;;
  normalizeJSONObject t.(tx_Metadata) "transaction metadata" ;;
  reject (length t.(tx_Postings) <? 2)%nat "ledger transaction requires at least two postings" ;;
  balances ← validate_postings t.(tx_ID) t.(tx_Postings) ∅ ∅ ;
  reject (negb (forallb (fun '(_, balance) => IsZero balance) (map_to_list balances)))
    "ledger postings do not balance for %s %s: %s".

(** ** Construction

    [postingID] receives the position of the call as well as the posting key:
    [uuid.New()] gives every call its own identifier, the deterministic variant
    looks at the key only. *)
Definition materialize_posting (postingID : nat -> string -> UUID) (transactionID : UUID) (createdAt : Time)
    (index : nat) (candidate : PostingInput) : outcome Posting :=
  postingMetadata ← normalizeJSONObject candidate.(postin_Metadata) "posting metadata" ;
  let trimmed := TrimSpace candidate.(postin_Unit) in
  let unit := if candidate.(postin_UnitKind) ==? UnitKindCurrency then ToUpper trimmed else trimmed in
  let postingKey := TrimSpace candidate.(postin_IdempotencyKey) in
  Ok {| post_ID := postingID index postingKey;
        post_TransactionID := transactionID;
        post_IdempotencyKey := postingKey;
        post_LedgerAccount := TrimSpace candidate.(postin_LedgerAccount);
        post_UnitKind := candidate.(postin_UnitKind);
        post_Unit := unit;
        post_Amount := candidate.(postin_Amount);
        post_Metadata := postingMetadata;
        post_CreatedAt := createdAt |}.

Fixpoint materialize_postings (postingID : nat -> string -> UUID) (transactionID : UUID) (createdAt : Time)
    (index : nat) (candidates : list PostingInput) : outcome (list Posting) :=
  match candidates with
  | [] => Ok []
  | candidate :: rest =>
      p ← materialize_posting postingID transactionID createdAt index candidate ;
      ps ← materialize_postings postingID transactionID createdAt (S index) rest ;
      Ok (p :: ps)
  end.

Definition materializeTransaction (now : Time) (input : TransactionInput) (transactionID : UUID)
    (postingID : nat -> string -> UUID) (defaultObservedAt : bool) : outcome Transaction :=
  let createdAt := utc_micro now in
  metadata ← normalizeJSONObject input.(txin_Metadata) "transaction metadata" ;
  postings ← materialize_postings postingID transactionID createdAt 0 input.(txin_Postings) ;
  let observed := utc_micro input.(txin_ObservedAt) in
  let observedAt := if IsZeroTime observed && defaultObservedAt then createdAt else observed in
  let transaction := {|
    tx_ID := transactionID;
    tx_AccountID := input.(txin_AccountID);
    tx_EventType := TrimSpace input.(txin_EventType);
    tx_IdempotencyKey := TrimSpace input.(txin_IdempotencyKey);
    tx_OriginType := TrimSpace input.(txin_OriginType);
    tx_OriginID := TrimSpace input.(txin_OriginID);
    tx_ReferenceType := TrimSpace input.(txin_ReferenceType);
    tx_ReferenceID := TrimSpace input.(txin_ReferenceID);
    tx_EffectiveAt := utc_micro input.(txin_EffectiveAt);
    tx_ObservedAt := observedAt;
    tx_Metadata := metadata;
    tx_Postings := postings;
    tx_CreatedAt := createdAt |} in
  Transaction_Validate transaction ;;
  Ok transaction.

Definition NewTransaction (fresh : UUID) (fresh_posting : nat -> UUID) (now : Time) (input : TransactionInput) :
    outcome Transaction :=
  materializeTransaction now input fresh (fun index _ => fresh_posting index) true.

Definition newDeterministicTransaction (now : Time) (seed : UUID) (normalizerVersion : string)
    (input : TransactionInput) : outcome Transaction :=
  reject (seed ==? Nil) "deterministic ledger transaction seed is required" ;;
  reject (negb (isNormalizedRequired normalizerVersion))
    "deterministic ledger normalizer version must be non-empty and normalized" ;;
  reject (IsZeroTime input.(txin_ObservedAt)) "deterministic ledger observed time is required" ;;
  let transactionID :=
    DeterministicUUID "economic-ledger-transaction" [uuid_string seed; normalizerVersion] in
  materializeTransaction now input transactionID
    (fun _ postingKey => DeterministicUUID "economic-ledger-posting" [uuid_string seed; normalizerVersion; postingKey])
    false.

End transaction.
