(* ===== verification/SourceEvent.v ===== *)
(** * Raw evidence and marks (internal/ledger/economic_source_event.go, mark.go)

    Immutable provider evidence recorded before any economic interpretation,
    and canonical instrument-price observations. *)

From S2P Require Import Prelude GoStd Externals EconomicId Transaction.

Local Open Scope go_scope.

Definition economicSourceEventIDDomain : string := "economic-source-event".
Definition markObservationIDDomain : string := "canonical-mark-observation".

Section source_event.
Context {E : Externals}.

Record EconomicSourceEvent := MkEconomicSourceEvent {
  src_ID : UUID;
  src_AccountID : UUID;
  src_Source : string;
  src_SourceNamespace : string;
  src_SourceEventID : string;
  src_SourceRevision : string;
  src_ObservedAt : Time;
  src_RawPayload : string;
  src_PayloadSHA256 : string;
  src_CreatedAt : Time;
}.

Record EconomicSourceEventInput := MkEconomicSourceEventInput {
  srcin_AccountID : UUID;
  srcin_Source : string;
  srcin_SourceNamespace : string;
  srcin_SourceEventID : string;
  srcin_SourceRevision : string;
  srcin_ObservedAt : Time;
  srcin_RawPayload : string;
  srcin_CreatedAt : Time;
}.

Definition source_identity (event : EconomicSourceEvent) : UUID :=
  DeterministicUUID economicSourceEventIDDomain
    [uuid_string event.(src_AccountID); event.(src_Source); event.(src_SourceNamespace);
     event.(src_SourceEventID)].

Definition EconomicSourceEvent_Validate (event : EconomicSourceEvent) : outcome unit :=
  reject (event.(src_AccountID) ==? Nil) "economic source event account ID is required" ;;
  reject ((event.(src_Source) ==? "") || (event.(src_Source) !=? ToLower (TrimSpace event.(src_Source))))
    "economic source event source must be non-empty and normalized lowercase" ;;
  reject (negb (isNormalizedRequired event.(src_SourceNamespace)) ||
          negb (isNormalizedRequired event.(src_SourceEventID)))
    "economic source event namespace and source event ID must be non-empty and normalized" ;;
  reject (event.(src_SourceRevision) !=? TrimSpace event.(src_SourceRevision))
    "economic source event revision must be normalized" ;;
  reject (IsZeroTime event.(src_ObservedAt) || negb event.(src_ObservedAt).(location_utc) ||
          negb (hasPostgresTimestampPrecision event.(src_ObservedAt)))
    "economic source event observed time must use normalized UTC microsecond precision" ;;
  reject (IsZeroTime event.(src_CreatedAt) || negb event.(src_CreatedAt).(location_utc) ||
          negb (hasPostgresTimestampPrecision event.(src_CreatedAt)))
    "economic source event creation time must use normalized UTC microsecond precision" ;;
  reject ((String.length event.(src_RawPayload) =? 0)%nat || negb (json_valid event.(src_RawPayload)))
    "economic source event raw payload must be valid JSON" ;;
  reject (event.(src_PayloadSHA256) !=? EncodeToString (Sum256 event.(src_RawPayload)))
    "economic source event payload SHA-256 does not match raw bytes" ;;
  reject (event.(src_ID) !=? source_identity event)
    "economic source event ID does not match deterministic source identity".

Definition NewEconomicSourceEvent (now : Time) (input : EconomicSourceEventInput) :
    outcome EconomicSourceEvent :=
  let created := utc_micro input.(srcin_CreatedAt) in
  let createdAt := if IsZeroTime created then utc_micro now else created in
  let source := ToLower (TrimSpace input.(srcin_Source)) in
  let namespace := TrimSpace input.(srcin_SourceNamespace) in
  let eventID := TrimSpace input.(srcin_SourceEventID) in
  let event := {|
    src_ID := DeterministicUUID economicSourceEventIDDomain
      [uuid_string input.(srcin_AccountID); source; namespace; eventID];
    src_AccountID := input.(srcin_AccountID);
    src_Source := source;
    src_SourceNamespace := namespace;
    src_SourceEventID := eventID;
    src_SourceRevision := TrimSpace input.(srcin_SourceRevision);
    src_ObservedAt := utc_micro input.(srcin_ObservedAt);
    src_RawPayload := input.(srcin_RawPayload);
    src_PayloadSHA256 := EncodeToString (Sum256 input.(srcin_RawPayload));
    src_CreatedAt := createdAt |} in
  EconomicSourceEvent_Validate event ;;
  Ok event.

Definition SameEconomicSourceEventPayload (left right : option EconomicSourceEvent) : bool :=
  match left, right with
  | Some l, Some r =>
      (l.(src_ID) ==? r.(src_ID)) &&
      (l.(src_AccountID) ==? r.(src_AccountID)) &&
      (l.(src_Source) ==? r.(src_Source)) &&
      (l.(src_SourceNamespace) ==? r.(src_SourceNamespace)) &&
      (l.(src_SourceEventID) ==? r.(src_SourceEventID)) &&
      (l.(src_SourceRevision) ==? r.(src_SourceRevision)) &&
      TimeEqual l.(src_ObservedAt) r.(src_ObservedAt) &&
      (l.(src_PayloadSHA256) ==? r.(src_PayloadSHA256)) &&
      (l.(src_RawPayload) ==? r.(src_RawPayload))
  | _, _ => false
  end.

(** ** jsonSemanticEqual (economic_normalization.go): the first value of each
    stream, numbers kept as text, compared structurally. *)
Definition jsonSemanticEqual (left right : string) : bool :=
  match json_decode left, json_decode right with
  | Some (leftValue, _), Some (rightValue, _) => json_deep_equal leftValue rightValue
  | _, _ => false
  end.

(** ** Mark observations *)

Record MarkObservation := MkMarkObservation {
  mark_ID : UUID;
  mark_InstrumentID : UUID;
  mark_Price : dec;
  mark_PriceCurrency : string;
  mark_Source : string;
  mark_SourceNamespace : string;
  mark_SourceObservationID : string;
  mark_SourceRevision : string;
  mark_EffectiveAt : Time;
  mark_ObservedAt : Time;
  mark_Metadata : string;
  mark_CreatedAt : Time;
}.

Record MarkObservationInput := MkMarkObservationInput {
  markin_InstrumentID : UUID;
  markin_Price : dec;
  markin_PriceCurrency : string;
  markin_Source : string;
  markin_SourceNamespace : string;
  markin_SourceObservationID : string;
  markin_SourceRevision : string;
  markin_EffectiveAt : Time;
  markin_ObservedAt : Time;
  markin_Metadata : string;
}.

Definition validProjectionDecimal (value : dec) : bool :=
  if negb (Equal value (Round value 12)) then false
  else (NumDigits value + Exponent value <=? 26)%Z.

Definition markObservationID (mark : MarkObservation) : UUID :=
  DeterministicUUID markObservationIDDomain
    [uuid_string mark.(mark_InstrumentID); mark.(mark_PriceCurrency); mark.(mark_Source);
     mark.(mark_SourceNamespace); mark.(mark_SourceObservationID)].

Definition MarkObservation_Validate (mark : MarkObservation) : outcome unit :=
  reject ((mark.(mark_ID) ==? Nil) || (mark.(mark_InstrumentID) ==? Nil))
    "mark and instrument IDs are required" ;;
  reject (IsNegative mark.(mark_Price)) "mark price cannot be negative" ;;
  reject (negb (validProjectionDecimal mark.(mark_Price)))
    "mark price supports at most 12 fractional and 26 integer digits" ;;
  reject (negb (isCurrencyUnit mark.(mark_PriceCurrency)))
    "mark price currency %q must be a normalized three-letter code" ;;
  reject (negb (isNormalizedRequired mark.(mark_Source)) || (mark.(mark_Source) !=? ToLower mark.(mark_Source)))
    "mark source must be non-empty and lowercase normalized" ;;
  reject (negb (isNormalizedRequired mark.(mark_SourceNamespace)) ||
          negb (isNormalizedRequired mark.(mark_SourceObservationID)))
    "mark source namespace and observation ID must be non-empty and normalized" ;;
  reject (mark.(mark_SourceRevision) !=? TrimSpace mark.(mark_SourceRevision))
    "mark source revision must be normalized" ;;
  reject (IsZeroTime mark.(mark_EffectiveAt) || IsZeroTime mark.(mark_ObservedAt) ||
          IsZeroTime mark.(mark_CreatedAt))
    "mark effective, observed, and creation times are required" ;;
  for_each (fun value => reject (negb value.(location_utc) || negb (hasPostgresTimestampPrecision value))
                           "mark timestamps must use UTC PostgreSQL microsecond precision")
    [mark.(mark_EffectiveAt); mark.(mark_ObservedAt); mark.(mark_CreatedAt)] ;;
  reject (Before mark.(mark_ObservedAt) mark.(mark_EffectiveAt))
    "mark observed time cannot precede effective time" ;;
  normalizeJSONObject mark.(mark_Metadata) "mark metadata" ;;
  reject (mark.(mark_ID) !=? markObservationID mark)
    "mark ID %s does not match deterministic identity %s".

Definition NewMarkObservation (now : Time) (input : MarkObservationInput) : outcome MarkObservation :=
  metadata ← normalizeJSONObject input.(markin_Metadata) "mark metadata" ;
  let currency := ToUpper (TrimSpace input.(markin_PriceCurrency)) in
  let source := ToLower (TrimSpace input.(markin_Source)) in
  let namespace := TrimSpace input.(markin_SourceNamespace) in
  let observationID := TrimSpace input.(markin_SourceObservationID) in
  let mark := {|
    mark_ID := DeterministicUUID markObservationIDDomain
      [uuid_string input.(markin_InstrumentID); currency; source; namespace; observationID];
    mark_InstrumentID := input.(markin_InstrumentID);
    mark_Price := input.(markin_Price);
    mark_PriceCurrency := currency;
    mark_Source := source;
    mark_SourceNamespace := namespace;
    mark_SourceObservationID := observationID;
    mark_SourceRevision := TrimSpace input.(markin_SourceRevision);
    mark_EffectiveAt := utc_micro input.(markin_EffectiveAt);
    mark_ObservedAt := utc_micro input.(markin_ObservedAt);
    mark_Metadata := metadata;
    mark_CreatedAt := utc_micro now |} in
  MarkObservation_Validate mark ;;
  Ok mark.

(** [left == right] on two pointers, one of which is nil, says both are nil. *)
Definition SameMarkObservation (left right : option MarkObservation) : bool :=
  match left, right with
  | Some l, Some r =>
      (l.(mark_ID) ==? r.(mark_ID)) &&
      (l.(mark_InstrumentID) ==? r.(mark_InstrumentID)) &&
      Equal l.(mark_Price) r.(mark_Price) &&
      (l.(mark_PriceCurrency) ==? r.(mark_PriceCurrency)) &&
      (l.(mark_Source) ==? r.(mark_Source)) &&
      (l.(mark_SourceNamespace) ==? r.(mark_SourceNamespace)) &&
      (l.(mark_SourceObservationID) ==? r.(mark_SourceObservationID)) &&
      (l.(mark_SourceRevision) ==? r.(mark_SourceRevision)) &&
      TimeEqual l.(mark_EffectiveAt) r.(mark_EffectiveAt) &&
      TimeEqual l.(mark_ObservedAt) r.(mark_ObservedAt) &&
      jsonSemanticEqual l.(mark_Metadata) r.(mark_Metadata)
  | None, None => true
  | _, _ => false
  end.

End source_event.
