(* ===== verification/TransactionProofs.v ===== *)
(** * Ledger transactions: balance, uniqueness and bounds *)

From S2P Require Import Prelude GoStd Externals Decimals EconomicId Transaction SourceEvent.

Local Open Scope go_scope.

Section transaction_proofs.
Context {E : Externals} {L : ExternalLaws}.
Local Open Scope Q_scope.

(** ** What Validate demands of one posting *)

Definition valid_unit (p : Posting) : Prop :=
  (p.(post_UnitKind) = UnitKindCurrency /\ isCurrencyUnit p.(post_Unit) = true) \/
  p.(post_UnitKind) = UnitKindInstrument.

Record posting_wf (id : UUID) (p : Posting) : Prop := {
  pw_id : p.(post_ID) <> Nil;
  pw_transaction : p.(post_TransactionID) = id;
  pw_key : isNormalizedRequired p.(post_IdempotencyKey) = true;
  pw_account : isNormalizedRequired p.(post_LedgerAccount) = true;
  pw_unit : isNormalizedRequired p.(post_Unit) = true;
  pw_kind : valid_unit p;
  pw_nonzero : ~ val p.(post_Amount) == 0;
  pw_amount : numeric_38_12 (val p.(post_Amount));
  pw_created : IsZeroTime p.(post_CreatedAt) = false;
  pw_precision : hasPostgresTimestampPrecision p.(post_CreatedAt) = true;
  pw_metadata : exists normalized, normalizeJSONObject p.(post_Metadata) "posting metadata" = Ok normalized;
}.

(** Amount a posting contributes to a unit. *)
Definition unit_amount (u : postingUnit) (p : Posting) : Q :=
  if posting_unit p ==? u then val p.(post_Amount) else 0.

Definition balance_at (balances : gmap postingUnit dec) (u : postingUnit) : Q :=
  match balances !! u with Some d => val d | None => 0 end.

Lemma amount_shape v : ~ val v == 0 ->
  (negb (Equal v (Round v 12)) = false /\ (26 <? NumDigits v + Exponent v)%Z = false) <-> numeric_38_12 (val v).
Proof.
  intros Hv. rewrite <- fits_iff by done. unfold fits.
  rewrite negb_false_iff, Z.ltb_ge, andb_true_iff, Z.leb_le. reflexivity.
Qed.

Lemma validate_posting_iff id p keys sums r :
  (validate_posting id p keys sums = Ok r) <->
  posting_wf id p /\ (p.(post_IdempotencyKey) ∉ keys) /\
  r = ({[ p.(post_IdempotencyKey) ]} ∪ keys,
       <[posting_unit p := Add (default ZeroValue (sums !! posting_unit p)) p.(post_Amount)]> sums).
Proof.
  unfold validate_posting. split.
  - intros H. inv_ok H. split_bools. dec_bools. subst r. split; [|done].
    assert (Hshape : numeric_38_12 (val p.(post_Amount))).
    { apply amount_shape; [done|]. split; [apply negb_false_iff; by apply Equal_true|done]. }
    constructor; eauto. unfold valid_unit.
    destruct p.(post_UnitKind) eqn:Hk; [left|by right|done]. split; [done|].
    match goal with Hc : (_ && negb (isCurrencyUnit _)) = false |- _ =>
      simpl in Hc; by apply negb_false_iff in Hc end.
  - intros ([] & Hkey & ->). apply amount_shape in pw_amount0 as [Hround Hdigits]; [|done].
    destruct pw_metadata0 as [normalized Hm].
    rewrite (bool_decide_eq_false_2 _ pw_id0). rewrite (bool_decide_eq_true_2 _ pw_transaction0).
    rewrite pw_key0, pw_account0, (bool_decide_eq_false_2 _ Hkey), pw_unit0.
    assert (Hkind : ((p.(post_UnitKind) !=? UnitKindCurrency) && (p.(post_UnitKind) !=? UnitKindInstrument))%go = false /\
                    ((p.(post_UnitKind) ==? UnitKindCurrency) && negb (isCurrencyUnit p.(post_Unit)))%go = false).
    { destruct pw_kind0 as [[-> ->]| ->]; done. }
    destruct Hkind as [-> ->]. rewrite (proj2 (IsZero_false _) pw_nonzero0), pw_created0, pw_precision0, Hround, Hdigits, Hm.
    reflexivity.
Qed.

Lemma balance_insert sums p u :
  balance_at (<[posting_unit p := Add (default ZeroValue (sums !! posting_unit p)) p.(post_Amount)]> sums) u ==
  balance_at sums u + unit_amount u p.
Proof.
  unfold balance_at, unit_amount. case_bool_decide as Hu.
  - subst u. rewrite lookup_insert_eq, val_Add. destruct (sums !! _); simpl; rewrite ?val_ZeroValue; lra.
  - rewrite lookup_insert_ne by done. lra.
Qed.

Lemma validate_postings_Ok id ps keys sums out :
  validate_postings id ps keys sums = Ok out ->
  Forall (posting_wf id) ps /\ NoDup (post_IdempotencyKey <$> ps) /\
  (forall p, p ∈ ps -> p.(post_IdempotencyKey) ∉ keys) /\
  forall u, balance_at out u == balance_at sums u + sumQ (unit_amount u) ps.
Proof.
  revert keys sums. induction ps as [|p ps IH]; intros keys sums; cbn [validate_postings].
  { intros [= ->]. split; [done|]. split; [constructor|]. split; [set_solver|]. intros u. simpl. lra. }
  intros H. inv_ok H. destruct x as [keys' sums'].
  apply validate_posting_iff in H0 as (Hwf & Hkey & [= -> ->]). apply IH in H as (Hall & Hnd & Hdis & Hsum).
  split; [by constructor|]. split; [|split].
  - apply NoDup_cons. split; [|done]. intros (q & Hq & Hin)%list_elem_of_fmap. specialize (Hdis q Hin). set_solver.
  - intros q [->|Hin]%elem_of_cons; [done|]. specialize (Hdis q Hin). set_solver.
  - intros u. rewrite Hsum, balance_insert. simpl. lra.
Qed.

Lemma validate_postings_total id ps keys sums :
  Forall (posting_wf id) ps -> NoDup (post_IdempotencyKey <$> ps) ->
  (forall p, p ∈ ps -> p.(post_IdempotencyKey) ∉ keys) -> exists out, validate_postings id ps keys sums = Ok out.
Proof.
  revert keys sums. induction ps as [|p ps IH]; intros keys sums; cbn [validate_postings]; [eauto|].
  intros [Hwf Hall]%Forall_cons [Hnin Hnd]%NoDup_cons Hdis.
  rewrite (proj2 (validate_posting_iff id p keys sums _)) by (split; [done|split; [apply Hdis; set_solver|done]]).
  cbn [mbind outcome_bind]. apply IH; [done|done|]. intros q Hq. specialize (Hdis q ltac:(set_solver)).
  assert (q.(post_IdempotencyKey) ≠ p.(post_IdempotencyKey)).
  { intros Heq. apply Hnin. rewrite <- Heq. by apply list_elem_of_fmap_2. }
  set_solver.
Qed.

(** ** The contract of a transaction *)

Record transaction_wf (t : Transaction) : Prop := {
  tw_ids : t.(tx_ID) <> Nil /\ t.(tx_AccountID) <> Nil;
  tw_identity : isNormalizedRequired t.(tx_EventType) = true /\ isNormalizedRequired t.(tx_IdempotencyKey) = true /\
                isNormalizedRequired t.(tx_OriginType) = true /\ isNormalizedRequired t.(tx_OriginID) = true;
  tw_reference : (t.(tx_ReferenceType) = "" /\ t.(tx_ReferenceID) = "") \/
                 (isNormalizedRequired t.(tx_ReferenceType) = true /\ isNormalizedRequired t.(tx_ReferenceID) = true);
  tw_times : Forall (fun at_ => IsZeroTime at_ = false /\ hasPostgresTimestampPrecision at_ = true)
               [t.(tx_EffectiveAt); t.(tx_ObservedAt); t.(tx_CreatedAt)];
  tw_metadata : exists normalized, normalizeJSONObject t.(tx_Metadata) "transaction metadata" = Ok normalized;
  tw_count : (2 <= length t.(tx_Postings))%nat;
  tw_postings : Forall (posting_wf t.(tx_ID)) t.(tx_Postings);
  tw_keys : NoDup (post_IdempotencyKey <$> t.(tx_Postings));
  tw_balanced u : sumQ (unit_amount u) t.(tx_Postings) == 0;
}.

Lemma all_zero_iff (balances : gmap postingUnit dec) :
  forallb (fun '(_, balance) => IsZero balance) (map_to_list balances) = true <->
  forall u, balance_at balances u == 0.
Proof.
  rewrite forallb_forall. unfold balance_at. split.
  - intros H u. destruct (balances !! u) as [d|] eqn:Hu; [|reflexivity]. apply IsZero_true.
    apply (H (u, d)). by apply list_elem_of_In, elem_of_map_to_list.
  - intros H [u d] Hin%list_elem_of_In%elem_of_map_to_list. specialize (H u). rewrite Hin in H. by apply IsZero_true.
Qed.

Lemma isNormalizedRequired_true v : isNormalizedRequired v = true <-> v <> "" /\ TrimSpace v = v.
Proof.
  unfold isNormalizedRequired. rewrite andb_true_iff, negb_true_iff, bool_decide_eq_false, bool_decide_eq_true.
  naive_solver.
Qed.

Lemma reference_iff (kind id : string) :
  (negb (Bool.eqb (kind ==? "") (id ==? "")) = false /\
   ((kind !=? "") && (negb (isNormalizedRequired kind) || negb (isNormalizedRequired id))) = false) <->
  ((kind = "" /\ id = "") \/ (isNormalizedRequired kind = true /\ isNormalizedRequired id = true)).
Proof.
  assert (H0 : forall v, isNormalizedRequired v = true -> v <> "") by (intros v [? _]%isNormalizedRequired_true; done).
  destruct (isNormalizedRequired kind) eqn:Hk, (isNormalizedRequired id) eqn:Hi; repeat case_bool_decide; simpl;
    naive_solver.
Qed.

Lemma Transaction_Validate_sound t : Transaction_Validate t = Ok tt -> transaction_wf t.
Proof.
  unfold Transaction_Validate. intros H. inv_ok H. apply negb_false_iff in H.
  match goal with Hv : validate_postings _ _ _ _ = Ok _ |- _ => apply validate_postings_Ok in Hv as (Hall & Hnd & _ & Hsum) end.
  rewrite all_zero_iff in H.
  match goal with H1 : negb (Bool.eqb _ _) = false, H2 : (_ && _) = false |- _ =>
    pose proof (proj1 (reference_iff _ _) (conj H1 H2)) as Href; clear H1 H2 end.
  match goal with Hn : (_ <? 2)%nat = false |- _ => apply Nat.ltb_ge in Hn end.
  split_bools. split; eauto 10.
  intros u. specialize (Hsum u). unfold balance_at at 2 in Hsum. rewrite lookup_empty in Hsum. rewrite H in Hsum. lra.
Qed.

Lemma Transaction_Validate_complete t : transaction_wf t -> Transaction_Validate t = Ok tt.
Proof.
  unfold Transaction_Validate. intros [[Hid Hacc] (H1 & H2 & H3 & H4) Href Htimes [normalized Hm] Hn Hall Hnd Hbal].
  apply reference_iff in Href as [Hr1 Hr2].
  rewrite !Forall_cons in Htimes. destruct Htimes as ([E1 P1] & [E2 P2] & [E3 P3] & _).
  rewrite (bool_decide_eq_false_2 _ Hid), (bool_decide_eq_false_2 _ Hacc), H1, H2, H3, H4, Hr1, Hr2, E1, E2, E3, P1, P2,
    P3, Hm.
  rewrite (proj2 (Nat.ltb_ge _ _) Hn).
  destruct (validate_postings_total t.(tx_ID) t.(tx_Postings) ∅ ∅) as [out Hout]; [done|done|set_solver|].
  pose proof (validate_postings_Ok _ _ _ _ _ Hout) as (_ & _ & _ & Hsum).
  rewrite Hout. cbn [negb orb reject mbind outcome_bind]. apply reject_Ok, negb_false_iff, all_zero_iff.
  intros u. rewrite Hsum, Hbal. unfold balance_at. rewrite lookup_empty. lra.
Qed.

(** C5: [Transaction.Validate] accepts exactly the well-formed double-entry
    transactions: normalized identities, at least two postings with distinct
    keys, every amount nonzero and representable as NUMERIC(38,12), and
    postings that net to zero in every currency and every instrument. *)
Theorem Transaction_Validate_iff t : Transaction_Validate t = Ok tt <-> transaction_wf t.
Proof. split; [apply Transaction_Validate_sound|apply Transaction_Validate_complete]. Qed.

(** The decimal test of the projection is the NUMERIC(38,12) range: a
    nonzero amount passes exactly when it is a whole number of 1e-12 units and
    less than 1e26 in magnitude. *)
Theorem validProjectionDecimal_iff v : ~ val v == 0 ->
  (validProjectionDecimal v = true <-> numeric_38_12 (val v)).
Proof.
  intros Hv. rewrite <- fits_iff by done. unfold validProjectionDecimal, fits.
  destruct (Equal v (Round v 12)); simpl; reflexivity.
Qed.
End transaction_proofs.
