(* ===== verification/Normalization.v ===== *)
(** * Typed economic events and their ledger postings
    (internal/ledger/economic_normalization.go)

    Each normalizer turns one recorded source event into inventory, cash, cost
    and clearing postings, and rebuilds them to check a stored interpretation. *)

From S2P Require Import Prelude GoStd Externals EconomicId Account Instrument Transaction SourceEvent.

Local Open Scope go_scope.

Definition economicNormalizationIDDomain : string := "economic-normalization".

(** ** Enumerations *)

Inductive EconomicEventType :=
  | EconomicEventFillBuy
  | EconomicEventFillSell
  | EconomicEventFee
  | EconomicEventRebate
  | EconomicEventOptionCashSettlement
  | EconomicEventOptionExpiration
  | EconomicEventOptionExercise
  | EconomicEventOptionAssignment
  | EconomicEventPredictionPayout
  | EconomicEventOther (text : string).

Definition EconomicEventType_string (e : EconomicEventType) : string :=
  match e with
  | EconomicEventFillBuy => "fill.buy"
  | EconomicEventFillSell => "fill.sell"
  | EconomicEventFee => "cost.fee"
  | EconomicEventRebate => "cost.rebate"
  | EconomicEventOptionCashSettlement => "settlement.option_cash"
  | EconomicEventOptionExpiration => "settlement.option_expiration"
  | EconomicEventOptionExercise => "settlement.option_exercise"
  | EconomicEventOptionAssignment => "settlement.option_assignment"
  | EconomicEventPredictionPayout => "settlement.prediction_payout"
  | EconomicEventOther t => t
  end.

Inductive ExecutionOriginType :=
  | ExecutionOriginStrategyVersion
  | ExecutionOriginCopySubscription
  | ExecutionOriginPortfolioRebalance
  | ExecutionOriginRiskReduction
  | ExecutionOriginOperator
  | ExecutionOriginSettlement
  | ExecutionOriginReconciliation
  | ExecutionOriginOther (text : string).

Definition ExecutionOriginType_string (o : ExecutionOriginType) : string :=
  match o with
  | ExecutionOriginStrategyVersion => "strategy_version"
  | ExecutionOriginCopySubscription => "copy_subscription"
  | ExecutionOriginPortfolioRebalance => "portfolio_rebalance"
  | ExecutionOriginRiskReduction => "risk_reduction"
  | ExecutionOriginOperator => "operator"
  | ExecutionOriginSettlement => "settlement"
  | ExecutionOriginReconciliation => "reconciliation"
  | ExecutionOriginOther t => t
  end.

Inductive FillSide := FillSideBuy | FillSideSell | FillSideOther (text : string).
Inductive CostKind := CostKindFee | CostKindRebate | CostKindOther (text : string).
Inductive CashSettlementKind :=
  | CashSettlementOption
  | CashSettlementExpiration
  | CashSettlementPrediction
  | CashSettlementOther (text : string).
Inductive PhysicalOptionAction :=
  | PhysicalOptionExercise
  | PhysicalOptionAssignment
  | PhysicalOptionOther (text : string).

#[global] Instance EconomicEventType_eq_dec : EqDecision EconomicEventType.
Proof. solve_decision. Defined.
#[global] Instance ExecutionOriginType_eq_dec : EqDecision ExecutionOriginType.
Proof. solve_decision. Defined.
#[global] Instance CostKind_eq_dec : EqDecision CostKind.
Proof. solve_decision. Defined.

(** The zero value of a [CostKind] field. *)
Definition CostKindNone : CostKind := CostKindOther "".

Definition validExecutionOriginType (value : ExecutionOriginType) : bool :=
  match value with ExecutionOriginOther _ => false | _ => true end.

Section normalization.
Context {E : Externals}.

(** ** Records *)

Record CostComponent := MkCostComponent {
  cost_Kind : CostKind;
  cost_Currency : string;
  cost_Amount : dec;
}.

Record EconomicNormalization := MkEconomicNormalization {
  norm_ID : UUID;
  norm_SourceEvent : option EconomicSourceEvent;
  norm_Account : option Account;
  norm_EventType : EconomicEventType;
  norm_NormalizerVersion : string;
  norm_ExecutionOriginType : ExecutionOriginType;
  norm_ExecutionOriginID : string;
  norm_ReferenceType : string;
  norm_ReferenceID : string;
  norm_Venue : string;
  norm_Instrument : option Instrument;
  norm_SecondaryInstrument : option Instrument;
  norm_VenueContract : option VenueContract;
  norm_OptionTerms : option OptionContractTerms;
  norm_EffectiveAt : Time;
  norm_CashCurrency : string;
  norm_Quantity : option dec;
  norm_Price : option dec;
  norm_CostKind : CostKind;
  norm_CostCurrency : string;
  norm_CostAmount : option dec;
  norm_PositionQuantity : option dec;
  norm_SettlementPrice : option dec;
  norm_Transaction : option Transaction;
  norm_CreatedAt : Time;
}.

Record EconomicNormalizationBaseInput := MkBaseInput {
  base_SourceEvent : option EconomicSourceEvent;
  base_Account : option Account;
  base_NormalizerVersion : string;
  base_ExecutionOriginType : ExecutionOriginType;
  base_ExecutionOriginID : string;
  base_ReferenceType : string;
  base_ReferenceID : string;
  base_EffectiveAt : Time;
}.

Record FillEconomicEventInput := MkFillInput {
  fillin_Base : EconomicNormalizationBaseInput;
  fillin_Instrument : Instrument;
  fillin_VenueContract : VenueContract;
  fillin_Side : FillSide;
  fillin_Quantity : dec;
  fillin_Price : dec;
  fillin_Cost : option CostComponent;
}.

Record CostEconomicEventInput := MkCostInput {
  costin_Base : EconomicNormalizationBaseInput;
  costin_Kind : CostKind;
  costin_Currency : string;
  costin_Amount : dec;
}.

Record CashSettlementEconomicEventInput := MkCashSettlementInput {
  settlein_Base : EconomicNormalizationBaseInput;
  settlein_Kind : CashSettlementKind;
  settlein_Instrument : Instrument;
  settlein_VenueContract : VenueContract;
  settlein_PositionQuantity : dec;
  settlein_SettlementPrice : dec;
}.

Record PhysicalOptionEconomicEventInput := MkPhysicalOptionInput {
  physin_Base : EconomicNormalizationBaseInput;
  physin_Action : PhysicalOptionAction;
  physin_OptionInstrument : Instrument;
  physin_UnderlyingInstrument : Instrument;
  physin_VenueContract : VenueContract;
  physin_OptionTerms : OptionContractTerms;
  physin_PositionQuantity : dec;
}.

(** ** Helpers *)

Definition postingInput (key account : string) (kind : UnitKind) (unit : string) (amount : dec) : PostingInput :=
  {| postin_IdempotencyKey := key;
     postin_LedgerAccount := account;
     postin_UnitKind := kind;
     postin_Unit := unit;
     postin_Amount := amount;
     postin_Metadata := "{}" |}.

Definition inventoryLedgerAccount (assetClass : AssetClass) : outcome string :=
  match assetClass with
  | AssetClassEquity | AssetClassETF | AssetClassFuture => Ok "asset:security_inventory"
  | AssetClassCryptoSpot => Ok "asset:crypto_inventory"
  | AssetClassOption => Ok "asset:option_inventory"
  | AssetClassPredictionContract => Ok "asset:event_contract_inventory"
  | _ => Err (Errorf "instrument asset class %q has no ledger inventory account")
  end.

Definition validateEconomicDecimalShape (label : string) (value : dec) : outcome unit :=
  reject (negb (Equal value (Round value 12))) "%s supports at most 12 decimal places" ;;
  reject (26 <? NumDigits value + Exponent value)%Z "%s exceeds NUMERIC(38,12) magnitude".

Definition validatePositiveEconomicDecimal (label : string) (value : dec) : outcome unit :=
  reject (negb (IsPositive value)) "%s must be positive" ;;
  validateEconomicDecimalShape label value.

Definition validateNonnegativeEconomicDecimal (label : string) (value : dec) : outcome unit :=
  reject (IsNegative value) "%s must be nonnegative" ;;
  validateEconomicDecimalShape label value.

Definition isExactMultiple (value increment : dec) : bool :=
  IsPositive increment && IsZero (Mod value increment).

Definition sameUUIDPointer (left right : option UUID) : bool :=
  match left, right with Some l, Some r => l ==? r | None, None => true | _, _ => false end.
Definition sameTimePointer (left right : option Time) : bool :=
  match left, right with Some l, Some r => TimeEqual l r | None, None => true | _, _ => false end.
Definition sameEconomicDecimalPointer (left right : option dec) : bool :=
  match left, right with Some l, Some r => Equal l r | None, None => true | _, _ => false end.

(** ** Postings of each event kind *)

Definition requiredCostPostings (n : EconomicNormalization) : outcome (list PostingInput) :=
  reject (is_nil n.(norm_CostAmount)) "cost amount is required" ;;
  reject ((n.(norm_CostKind) !=? CostKindFee) && (n.(norm_CostKind) !=? CostKindRebate))
    "cost kind %q is invalid" ;;
  reject (n.(norm_CostCurrency) !=? n.(norm_CashCurrency)) "cost currency must match account base currency" ;;
  reject (some_and (fun c => n.(norm_CostCurrency) !=? c.(vc_Currency)) n.(norm_VenueContract))
    "fill-attached cost currency must match venue contract currency" ;;
  amount ← deref n.(norm_CostAmount) ;
  validatePositiveEconomicDecimal "cost amount" amount ;;
  if n.(norm_CostKind) ==? CostKindFee then
    Ok [postingInput "fee-expense" "expense:fees" UnitKindCurrency n.(norm_CashCurrency) amount;
        postingInput "fee-cash" "asset:cash" UnitKindCurrency n.(norm_CashCurrency) (Neg amount)]
  else
    Ok [postingInput "rebate-cash" "asset:cash" UnitKindCurrency n.(norm_CashCurrency) amount;
        postingInput "rebate-income" "income:rebates" UnitKindCurrency n.(norm_CashCurrency) (Neg amount)].

Definition optionalCostPostings (n : EconomicNormalization) : outcome (list PostingInput) :=
  if is_nil n.(norm_CostAmount) then
    reject ((n.(norm_CostKind) !=? CostKindNone) || (n.(norm_CostCurrency) !=? ""))
      "fill cost kind/currency require an amount" ;;
    Ok []
  else requiredCostPostings n.

Definition costPostings (n : EconomicNormalization) : outcome (list PostingInput) :=
  reject (negb (is_nil n.(norm_Instrument)) || negb (is_nil n.(norm_SecondaryInstrument)) ||
          negb (is_nil n.(norm_VenueContract)) || negb (is_nil n.(norm_OptionTerms)) ||
          (n.(norm_Venue) !=? "") ||
          negb (is_nil n.(norm_Quantity)) || negb (is_nil n.(norm_Price)) ||
          negb (is_nil n.(norm_PositionQuantity)) || negb (is_nil n.(norm_SettlementPrice)))
    "standalone cost normalization cannot carry instrument, venue, fill, or settlement fields" ;;
  let expectedKind := if n.(norm_EventType) ==? EconomicEventRebate then CostKindRebate else CostKindFee in
  reject (n.(norm_CostKind) !=? expectedKind) "standalone cost kind does not match event type" ;;
  requiredCostPostings n.

Definition fillPostings (n : EconomicNormalization) : outcome (list PostingInput) :=
  reject (is_nil n.(norm_Instrument) || is_nil n.(norm_VenueContract) ||
          is_nil n.(norm_Quantity) || is_nil n.(norm_Price))
    "fill normalization requires instrument, venue contract, quantity, and price" ;;
  reject (negb (is_nil n.(norm_SecondaryInstrument)) || negb (is_nil n.(norm_OptionTerms)) ||
          negb (is_nil n.(norm_PositionQuantity)) || negb (is_nil n.(norm_SettlementPrice)))
    "fill normalization contains irrelevant settlement references or values" ;;
  instrument ← deref n.(norm_Instrument) ;
  wrap "fill instrument: %w" (Instrument_Validate instrument) ;;
  reject (instrument.(inst_Status) !=? StatusActive) "fill instrument must be active" ;;
  contract ← deref n.(norm_VenueContract) ;
  wrap "fill venue contract: %w" (VenueContract_Validate contract) ;;
  reject ((contract.(vc_InstrumentID) !=? instrument.(inst_ID)) || (n.(norm_Venue) !=? contract.(vc_Venue)))
    "fill venue contract does not match the canonical instrument and venue" ;;
  reject ((instrument.(inst_Currency) !=? contract.(vc_Currency)) ||
          (contract.(vc_Currency) !=? n.(norm_CashCurrency)))
    "fill cash legs require instrument, contract, and account base currency agreement" ;;
  reject (Before n.(norm_EffectiveAt) contract.(vc_ValidFrom) ||
          some_and (fun validTo => negb (Before n.(norm_EffectiveAt) validTo)) contract.(vc_ValidTo))
    "fill venue contract is not effective at fill time" ;;
  quantity ← deref n.(norm_Quantity) ;
  validatePositiveEconomicDecimal "fill quantity" quantity ;;
  reject (negb (isExactMultiple quantity contract.(vc_LotSize)))
    "fill quantity is not an exact venue lot multiple" ;;
  price ← deref n.(norm_Price) ;
  validateNonnegativeEconomicDecimal "fill price" price ;;
  reject (negb (isExactMultiple price contract.(vc_TickSize)))
    "fill price is not an exact venue tick multiple" ;;
  reject ((instrument.(inst_AssetClass) ==? AssetClassPredictionContract) &&
          (IsNegative price || GreaterThan price (NewFromInt 1)))
    "prediction fill price must be between zero and one" ;;
  inventoryAccount ← inventoryLedgerAccount instrument.(inst_AssetClass) ;
  let direction := if n.(norm_EventType) ==? EconomicEventFillSell then Neg (NewFromInt 1) else NewFromInt 1 in
  let inventoryAmount := Mul quantity direction in
  let unit := uuid_string instrument.(inst_ID) in
  let postings :=
    [postingInput "inventory" inventoryAccount UnitKindInstrument unit inventoryAmount;
     postingInput "clearing-inventory" "clearing:execution" UnitKindInstrument unit (Neg inventoryAmount)] in
  let gross := Mul (Mul price quantity) contract.(vc_Multiplier) in
  validateNonnegativeEconomicDecimal "fill gross cash" gross ;;
  let cashAmount := Neg (Mul gross direction) in
  let postings :=
    if negb (IsZero gross) then
      postings ++
        [postingInput "gross-cash" "asset:cash" UnitKindCurrency n.(norm_CashCurrency) cashAmount;
         postingInput "clearing-gross-cash" "clearing:execution" UnitKindCurrency n.(norm_CashCurrency)
           (Neg cashAmount)]
    else postings in
  costs ← optionalCostPostings n ;
  Ok (postings ++ costs).

Definition validateSettlementReferences (n : EconomicNormalization) : outcome unit :=
  instrument ← deref n.(norm_Instrument) ;
  wrap "settlement instrument: %w" (Instrument_Validate instrument) ;;
  reject (instrument.(inst_Status) ==? StatusQuarantined) "settlement cannot use a quarantined instrument" ;;
  contract ← deref n.(norm_VenueContract) ;
  wrap "settlement venue contract: %w" (VenueContract_Validate contract) ;;
  reject ((contract.(vc_InstrumentID) !=? instrument.(inst_ID)) || (n.(norm_Venue) !=? contract.(vc_Venue)))
    "settlement venue contract does not match canonical instrument and venue" ;;
  reject ((instrument.(inst_Currency) !=? contract.(vc_Currency)) ||
          (contract.(vc_Currency) !=? n.(norm_CashCurrency)))
    "settlement cash requires instrument, contract, and account base currency agreement" ;;
  reject (After contract.(vc_ValidFrom) n.(norm_EffectiveAt))
    "settlement cannot use a venue contract that had not begun" ;;
  reject (negb (Equal instrument.(inst_Multiplier) contract.(vc_Multiplier)))
    "settlement instrument and venue multipliers must agree".

Definition cashSettlementPostings (n : EconomicNormalization) : outcome (list PostingInput) :=
  reject (is_nil n.(norm_Instrument) || is_nil n.(norm_VenueContract) ||
          is_nil n.(norm_PositionQuantity) || is_nil n.(norm_SettlementPrice))
    "cash settlement requires instrument, venue contract, position quantity, and settlement price" ;;
  reject (negb (is_nil n.(norm_SecondaryInstrument)) || negb (is_nil n.(norm_OptionTerms)) ||
          negb (is_nil n.(norm_Quantity)) || negb (is_nil n.(norm_Price)) || negb (is_nil n.(norm_CostAmount)) ||
          (n.(norm_CostKind) !=? CostKindNone) || (n.(norm_CostCurrency) !=? ""))
    "cash settlement contains irrelevant fill, cost, or physical-delivery fields" ;;
  validateSettlementReferences n ;;
  contract ← deref n.(norm_VenueContract) ;
  instrument ← deref n.(norm_Instrument) ;
  position ← deref n.(norm_PositionQuantity) ;
  settlementPrice ← deref n.(norm_SettlementPrice) ;
  match n.(norm_EventType) with
  | EconomicEventOptionCashSettlement =>
      reject ((instrument.(inst_AssetClass) !=? AssetClassOption) ||
              (instrument.(inst_SettlementMethod) !=? SettlementCash) ||
              (contract.(vc_SettlementMethod) !=? SettlementCash))
        "cash option settlement requires cash-settled option mechanics"
  | EconomicEventOptionExpiration =>
      reject ((instrument.(inst_AssetClass) !=? AssetClassOption) || negb (IsZero settlementPrice))
        "option expiration requires an option and zero settlement price" ;;
      reject (contract.(vc_SettlementMethod) !=? instrument.(inst_SettlementMethod))
        "option expiration contract mechanics do not match the instrument"
  | EconomicEventPredictionPayout =>
      reject ((instrument.(inst_AssetClass) !=? AssetClassPredictionContract) ||
              (instrument.(inst_SettlementMethod) !=? SettlementBinary) ||
              (contract.(vc_SettlementMethod) !=? SettlementBinary))
        "prediction payout requires binary prediction mechanics" ;;
      reject (negb (Equal settlementPrice Zero) && negb (Equal settlementPrice (NewFromInt 1)))
        "prediction payout must be exactly zero or one"
  | _ => Ok tt
  end ;;
  reject (IsZero position) "settlement position quantity must be nonzero" ;;
  validateEconomicDecimalShape "settlement position quantity" position ;;
  reject (negb (isExactMultiple (Abs position) contract.(vc_LotSize)))
    "settlement position quantity is not an exact venue lot multiple" ;;
  validateNonnegativeEconomicDecimal "settlement price" settlementPrice ;;
  reject (negb (isExactMultiple settlementPrice contract.(vc_TickSize)))
    "settlement price is not an exact venue tick multiple" ;;
  inventoryAccount ← inventoryLedgerAccount instrument.(inst_AssetClass) ;
  let inventoryAmount := Neg position in
  let unit := uuid_string instrument.(inst_ID) in
  let postings :=
    [postingInput "inventory-settlement" inventoryAccount UnitKindInstrument unit inventoryAmount;
     postingInput "clearing-inventory-settlement" "clearing:settlement" UnitKindInstrument unit
       (Neg inventoryAmount)] in
  let payout := Mul (Mul position settlementPrice) contract.(vc_Multiplier) in
  validateEconomicDecimalShape "settlement cash" payout ;;
  Ok (if negb (IsZero payout) then
        postings ++
          [postingInput "settlement-cash" "asset:cash" UnitKindCurrency n.(norm_CashCurrency) payout;
           postingInput "clearing-settlement-cash" "clearing:settlement" UnitKindCurrency n.(norm_CashCurrency)
             (Neg payout)]
      else postings).

Definition physicalOptionPostings (n : EconomicNormalization) : outcome (list PostingInput) :=
  reject (is_nil n.(norm_Instrument) || is_nil n.(norm_SecondaryInstrument) ||
          is_nil n.(norm_VenueContract) || is_nil n.(norm_OptionTerms) || is_nil n.(norm_PositionQuantity))
    "physical option normalization requires option, underlying, contract, terms, and position" ;;
  reject (negb (is_nil n.(norm_Quantity)) || negb (is_nil n.(norm_Price)) ||
          negb (is_nil n.(norm_SettlementPrice)) || negb (is_nil n.(norm_CostAmount)) ||
          (n.(norm_CostKind) !=? CostKindNone) || (n.(norm_CostCurrency) !=? ""))
    "physical option normalization contains irrelevant fill, cost, or cash-settlement fields" ;;
  option ← deref n.(norm_Instrument) ;
  underlying ← deref n.(norm_SecondaryInstrument) ;
  contract ← deref n.(norm_VenueContract) ;
  terms ← deref n.(norm_OptionTerms) ;
  wrap "physical option instrument: %w" (Instrument_Validate option) ;;
  wrap "physical option underlying: %w" (Instrument_Validate underlying) ;;
  reject ((option.(inst_Status) ==? StatusQuarantined) || (underlying.(inst_Status) ==? StatusQuarantined))
    "physical option settlement cannot use quarantined references" ;;
  reject ((option.(inst_AssetClass) !=? AssetClassOption) ||
          (option.(inst_UnderlyingID) !=? Some underlying.(inst_ID)))
    "physical option and canonical underlying do not match" ;;
  wrap "physical option venue contract: %w" (VenueContract_Validate contract) ;;
  reject ((contract.(vc_InstrumentID) !=? option.(inst_ID)) || (contract.(vc_Venue) !=? n.(norm_Venue)) ||
          (contract.(vc_SettlementMethod) !=? SettlementPhysical) ||
          (option.(inst_SettlementMethod) !=? SettlementPhysical))
    "physical option requires matching physical-settlement venue mechanics" ;;
  reject (After contract.(vc_ValidFrom) n.(norm_EffectiveAt))
    "physical option cannot use a venue contract that had not begun" ;;
  wrap "physical option terms: %w" (OptionContractTerms_Validate terms) ;;
  reject ((terms.(terms_OptionInstrumentID) !=? option.(inst_ID)) ||
          (terms.(terms_UnderlyingInstrumentID) !=? underlying.(inst_ID)))
    "physical option terms do not match option and underlying" ;;
  reject (After terms.(terms_EffectiveAt) n.(norm_EffectiveAt)) "physical option terms are not yet effective" ;;
  source ← deref n.(norm_SourceEvent) ;
  reject (After terms.(terms_ObservedAt) source.(src_ObservedAt))
    "physical option terms were not observed by source-event observation time" ;;
  reject ((option.(inst_Currency) !=? contract.(vc_Currency)) ||
          (contract.(vc_Currency) !=? n.(norm_CashCurrency)) ||
          (terms.(terms_StrikeCurrency) !=? n.(norm_CashCurrency)))
    "physical option strike, contract, instrument, and account currencies must agree" ;;
  reject (negb (Equal contract.(vc_Multiplier) terms.(terms_DeliverableQuantity)))
    "physical option venue multiplier and deliverable quantity must agree" ;;
  position ← deref n.(norm_PositionQuantity) ;
  reject (IsZero position) "physical option position quantity must be nonzero" ;;
  validateEconomicDecimalShape "physical option position quantity" position ;;
  reject (negb (isExactMultiple (Abs position) contract.(vc_LotSize)))
    "physical option position is not an exact venue lot multiple" ;;
  reject ((n.(norm_EventType) ==? EconomicEventOptionExercise) && negb (IsPositive position))
    "option exercise must close a positive long position" ;;
  reject ((n.(norm_EventType) ==? EconomicEventOptionAssignment) && negb (IsNegative position))
    "option assignment must close a negative short position" ;;
  let optionClose := Neg position in
  let longDelivery := Mul position terms.(terms_DeliverableQuantity) in
  let delivered :=
    if terms.(terms_ContractType) ==? OptionContractPut then Neg longDelivery else longDelivery in
  validateEconomicDecimalShape "physical option delivered quantity" delivered ;;
  reject (negb (isExactMultiple (Abs delivered) underlying.(inst_LotSize)))
    "physical option delivery is not an exact underlying lot multiple" ;;
  let strikeCash := Neg (Mul delivered terms.(terms_StrikePrice)) in
  validateEconomicDecimalShape "physical option strike cash" strikeCash ;;
  underlyingAccount ← inventoryLedgerAccount underlying.(inst_AssetClass) ;
  let optionUnit := uuid_string option.(inst_ID) in
  let underlyingUnit := uuid_string underlying.(inst_ID) in
  Ok [postingInput "option-close" "asset:option_inventory" UnitKindInstrument optionUnit optionClose;
      postingInput "clearing-option-close" "clearing:settlement" UnitKindInstrument optionUnit (Neg optionClose);
      postingInput "underlying-delivery" underlyingAccount UnitKindInstrument underlyingUnit delivered;
      postingInput "clearing-underlying-delivery" "clearing:settlement" UnitKindInstrument underlyingUnit
        (Neg delivered);
      postingInput "strike-cash" "asset:cash" UnitKindCurrency n.(norm_CashCurrency) strikeCash;
      postingInput "clearing-strike-cash" "clearing:settlement" UnitKindCurrency n.(norm_CashCurrency)
        (Neg strikeCash)].

Definition expectedPostings (n : EconomicNormalization) : outcome (list PostingInput) :=
  match n.(norm_EventType) with
  | EconomicEventFillBuy | EconomicEventFillSell => fillPostings n
  | EconomicEventFee | EconomicEventRebate => costPostings n
  | EconomicEventOptionCashSettlement | EconomicEventOptionExpiration | EconomicEventPredictionPayout =>
      cashSettlementPostings n
  | EconomicEventOptionExercise | EconomicEventOptionAssignment => physicalOptionPostings n
  | EconomicEventOther _ => Err (Errorf "economic event type %q is not supported")
  end.

Definition expectedTransaction (now : Time) (n : EconomicNormalization) : outcome Transaction :=
  postings ← expectedPostings n ;
  source ← deref n.(norm_SourceEvent) ;
  let metadata := json_marshal_map
    [("economic_normalization_id", uuid_string n.(norm_ID));
     ("execution_origin_id", n.(norm_ExecutionOriginID));
     ("execution_origin_type", ExecutionOriginType_string n.(norm_ExecutionOriginType));
     ("normalizer_version", n.(norm_NormalizerVersion));
     ("raw_payload_sha256", source.(src_PayloadSHA256));
     ("source_event_id", uuid_string source.(src_ID))] in
  newDeterministicTransaction now source.(src_ID) n.(norm_NormalizerVersion)
    {| txin_AccountID := source.(src_AccountID);
       txin_EventType := EconomicEventType_string n.(norm_EventType);
       txin_IdempotencyKey := ("economic-source-event:" +:+ uuid_string source.(src_ID))%string;
       txin_OriginType := "economic_source_event";
       txin_OriginID := uuid_string source.(src_ID);
       txin_ReferenceType := n.(norm_ReferenceType);
       txin_ReferenceID := n.(norm_ReferenceID);
       txin_EffectiveAt := n.(norm_EffectiveAt);
       txin_ObservedAt := source.(src_ObservedAt);
       txin_Metadata := metadata;
       txin_Postings := postings |}.

(** ** Comparing transactions

    [rightByKey] keeps the last posting stored under each key. *)
Definition posting_map (postings : list Posting) : gmap string Posting :=
  foldl (fun m p => <[p.(post_IdempotencyKey) := p]> m) ∅ postings.

Definition same_posting (p expected : Posting) : bool :=
  (p.(post_ID) ==? expected.(post_ID)) &&
  (p.(post_TransactionID) ==? expected.(post_TransactionID)) &&
  (p.(post_LedgerAccount) ==? expected.(post_LedgerAccount)) &&
  (p.(post_UnitKind) ==? expected.(post_UnitKind)) &&
  (p.(post_Unit) ==? expected.(post_Unit)) &&
  Equal p.(post_Amount) expected.(post_Amount) &&
  jsonSemanticEqual p.(post_Metadata) expected.(post_Metadata).

Definition sameEconomicTransaction (left right : option Transaction) : bool :=
  match left, right with
  | Some l, Some r =>
      (l.(tx_ID) ==? r.(tx_ID)) && (l.(tx_AccountID) ==? r.(tx_AccountID)) &&
      (l.(tx_EventType) ==? r.(tx_EventType)) && (l.(tx_IdempotencyKey) ==? r.(tx_IdempotencyKey)) &&
      (l.(tx_OriginType) ==? r.(tx_OriginType)) && (l.(tx_OriginID) ==? r.(tx_OriginID)) &&
      (l.(tx_ReferenceType) ==? r.(tx_ReferenceType)) && (l.(tx_ReferenceID) ==? r.(tx_ReferenceID)) &&
      TimeEqual l.(tx_EffectiveAt) r.(tx_EffectiveAt) && TimeEqual l.(tx_ObservedAt) r.(tx_ObservedAt) &&
      jsonSemanticEqual l.(tx_Metadata) r.(tx_Metadata) &&
      (length l.(tx_Postings) =? length r.(tx_Postings))%nat &&
      forallb (fun p => match posting_map r.(tx_Postings) !! p.(post_IdempotencyKey) with
                        | Some expected => same_posting p expected
                        | None => false
                        end) l.(tx_Postings)
  | _, _ => false
  end.

(** ** Validate *)

Definition EconomicNormalization_Validate (now : Time) (n : EconomicNormalization) : outcome unit :=
  reject (is_nil n.(norm_SourceEvent) || is_nil n.(norm_Account))
    "economic normalization source event and account are required" ;;
  source ← deref n.(norm_SourceEvent) ;
  account ← deref n.(norm_Account) ;
  wrap "economic normalization source event: %w" (EconomicSourceEvent_Validate source) ;;
  wrap "economic normalization account: %w" (Account_Validate account) ;;
  reject (source.(src_AccountID) !=? account.(acct_ID))
    "economic normalization source account does not match account reference" ;;
  reject (negb (isNormalizedRequired n.(norm_NormalizerVersion)))
    "economic normalization version must be non-empty and normalized" ;;
  reject (negb (validExecutionOriginType n.(norm_ExecutionOriginType)) ||
          negb (isNormalizedRequired n.(norm_ExecutionOriginID)))
    "economic normalization execution origin is invalid or missing" ;;
  reject (negb (isNormalizedRequired n.(norm_ReferenceType)) || negb (isNormalizedRequired n.(norm_ReferenceID)))
    "economic normalization reference type and ID are required and normalized" ;;
  reject (IsZeroTime n.(norm_EffectiveAt) || negb n.(norm_EffectiveAt).(location_utc) ||
          negb (hasPostgresTimestampPrecision n.(norm_EffectiveAt)))
    "economic normalization effective time must use normalized UTC microsecond precision" ;;
  reject (After n.(norm_EffectiveAt) source.(src_ObservedAt))
    "economic normalization effective time cannot follow source observation time" ;;
  reject (IsZeroTime n.(norm_CreatedAt) || negb n.(norm_CreatedAt).(location_utc) ||
          negb (hasPostgresTimestampPrecision n.(norm_CreatedAt)))
    "economic normalization creation time must use normalized UTC microsecond precision" ;;
  reject (n.(norm_CashCurrency) !=? account.(acct_BaseCurrency))
    "economic normalization cash currency must match account base currency" ;;
  reject (n.(norm_ID) !=? DeterministicUUID economicNormalizationIDDomain
                            [uuid_string source.(src_ID); n.(norm_NormalizerVersion)])
    "economic normalization ID is not deterministic for its source and version" ;;
  expected ← expectedTransaction now n ;
  reject (negb (sameEconomicTransaction n.(norm_Transaction) (Some expected)))
    "economic normalization ledger aggregate does not match typed event facts".

(** ** Constructors

    The Go constructors fill the fields of one freshly allocated value; the
    setters below are those assignments. *)
Definition newEconomicNormalization (now : Time) (input : EconomicNormalizationBaseInput)
    (eventType : EconomicEventType) : outcome EconomicNormalization :=
  reject (is_nil input.(base_SourceEvent) || is_nil input.(base_Account))
    "economic normalization source event and account are required" ;;
  source ← deref input.(base_SourceEvent) ;
  account ← deref input.(base_Account) ;
  let normalizerVersion := TrimSpace input.(base_NormalizerVersion) in
  Ok {| norm_ID := DeterministicUUID economicNormalizationIDDomain [uuid_string source.(src_ID); normalizerVersion];
        norm_SourceEvent := Some source;
        norm_Account := Some account;
        norm_EventType := eventType;
        norm_NormalizerVersion := normalizerVersion;
        norm_ExecutionOriginType := input.(base_ExecutionOriginType);
        norm_ExecutionOriginID := TrimSpace input.(base_ExecutionOriginID);
        norm_ReferenceType := TrimSpace input.(base_ReferenceType);
        norm_ReferenceID := TrimSpace input.(base_ReferenceID);
        norm_Venue := "";
        norm_Instrument := None;
        norm_SecondaryInstrument := None;
        norm_VenueContract := None;
        norm_OptionTerms := None;
        norm_EffectiveAt := utc_micro input.(base_EffectiveAt);
        norm_CashCurrency := account.(acct_BaseCurrency);
        norm_Quantity := None;
        norm_Price := None;
        norm_CostKind := CostKindNone;
        norm_CostCurrency := "";
        norm_CostAmount := None;
        norm_PositionQuantity := None;
        norm_SettlementPrice := None;
        norm_Transaction := None;
        norm_CreatedAt := utc_micro now |}.

Definition set_references (n : EconomicNormalization) (instrument : Instrument) (secondary : option Instrument)
    (contract : VenueContract) (terms : option OptionContractTerms) : EconomicNormalization :=
  {| norm_ID := n.(norm_ID); norm_SourceEvent := n.(norm_SourceEvent); norm_Account := n.(norm_Account);
     norm_EventType := n.(norm_EventType); norm_NormalizerVersion := n.(norm_NormalizerVersion);
     norm_ExecutionOriginType := n.(norm_ExecutionOriginType); norm_ExecutionOriginID := n.(norm_ExecutionOriginID);
     norm_ReferenceType := n.(norm_ReferenceType); norm_ReferenceID := n.(norm_ReferenceID);
     norm_Venue := contract.(vc_Venue);
     norm_Instrument := Some instrument;
     norm_SecondaryInstrument := secondary;
     norm_VenueContract := Some contract;
     norm_OptionTerms := terms;
     norm_EffectiveAt := n.(norm_EffectiveAt); norm_CashCurrency := n.(norm_CashCurrency);
     norm_Quantity := n.(norm_Quantity); norm_Price := n.(norm_Price);
     norm_CostKind := n.(norm_CostKind); norm_CostCurrency := n.(norm_CostCurrency);
     norm_CostAmount := n.(norm_CostAmount); norm_PositionQuantity := n.(norm_PositionQuantity);
     norm_SettlementPrice := n.(norm_SettlementPrice); norm_Transaction := n.(norm_Transaction);
     norm_CreatedAt := n.(norm_CreatedAt) |}.

Definition set_amounts (n : EconomicNormalization) (quantity price position settlement : option dec) :
    EconomicNormalization :=
  {| norm_ID := n.(norm_ID); norm_SourceEvent := n.(norm_SourceEvent); norm_Account := n.(norm_Account);
     norm_EventType := n.(norm_EventType); norm_NormalizerVersion := n.(norm_NormalizerVersion);
     norm_ExecutionOriginType := n.(norm_ExecutionOriginType); norm_ExecutionOriginID := n.(norm_ExecutionOriginID);
     norm_ReferenceType := n.(norm_ReferenceType); norm_ReferenceID := n.(norm_ReferenceID);
     norm_Venue := n.(norm_Venue); norm_Instrument := n.(norm_Instrument);
     norm_SecondaryInstrument := n.(norm_SecondaryInstrument); norm_VenueContract := n.(norm_VenueContract);
     norm_OptionTerms := n.(norm_OptionTerms);
     norm_EffectiveAt := n.(norm_EffectiveAt); norm_CashCurrency := n.(norm_CashCurrency);
     norm_Quantity := quantity; norm_Price := price;
     norm_CostKind := n.(norm_CostKind); norm_CostCurrency := n.(norm_CostCurrency);
     norm_CostAmount := n.(norm_CostAmount);
     norm_PositionQuantity := position; norm_SettlementPrice := settlement;
     norm_Transaction := n.(norm_Transaction); norm_CreatedAt := n.(norm_CreatedAt) |}.

Definition set_cost (n : EconomicNormalization) (cost : CostComponent) : EconomicNormalization :=
  {| norm_ID := n.(norm_ID); norm_SourceEvent := n.(norm_SourceEvent); norm_Account := n.(norm_Account);
     norm_EventType := n.(norm_EventType); norm_NormalizerVersion := n.(norm_NormalizerVersion);
     norm_ExecutionOriginType := n.(norm_ExecutionOriginType); norm_ExecutionOriginID := n.(norm_ExecutionOriginID);
     norm_ReferenceType := n.(norm_ReferenceType); norm_ReferenceID := n.(norm_ReferenceID);
     norm_Venue := n.(norm_Venue); norm_Instrument := n.(norm_Instrument);
     norm_SecondaryInstrument := n.(norm_SecondaryInstrument); norm_VenueContract := n.(norm_VenueContract);
     norm_OptionTerms := n.(norm_OptionTerms);
     norm_EffectiveAt := n.(norm_EffectiveAt); norm_CashCurrency := n.(norm_CashCurrency);
     norm_Quantity := n.(norm_Quantity); norm_Price := n.(norm_Price);
     norm_CostKind := cost.(cost_Kind);
     norm_CostCurrency := ToUpper (TrimSpace cost.(cost_Currency));
     norm_CostAmount := Some cost.(cost_Amount);
     norm_PositionQuantity := n.(norm_PositionQuantity); norm_SettlementPrice := n.(norm_SettlementPrice);
     norm_Transaction := n.(norm_Transaction); norm_CreatedAt := n.(norm_CreatedAt) |}.

Definition set_transaction (n : EconomicNormalization) (t : Transaction) : EconomicNormalization :=
  {| norm_ID := n.(norm_ID); norm_SourceEvent := n.(norm_SourceEvent); norm_Account := n.(norm_Account);
     norm_EventType := n.(norm_EventType); norm_NormalizerVersion := n.(norm_NormalizerVersion);
     norm_ExecutionOriginType := n.(norm_ExecutionOriginType); norm_ExecutionOriginID := n.(norm_ExecutionOriginID);
     norm_ReferenceType := n.(norm_ReferenceType); norm_ReferenceID := n.(norm_ReferenceID);
     norm_Venue := n.(norm_Venue); norm_Instrument := n.(norm_Instrument);
     norm_SecondaryInstrument := n.(norm_SecondaryInstrument); norm_VenueContract := n.(norm_VenueContract);
     norm_OptionTerms := n.(norm_OptionTerms);
     norm_EffectiveAt := n.(norm_EffectiveAt); norm_CashCurrency := n.(norm_CashCurrency);
     norm_Quantity := n.(norm_Quantity); norm_Price := n.(norm_Price);
     norm_CostKind := n.(norm_CostKind); norm_CostCurrency := n.(norm_CostCurrency);
     norm_CostAmount := n.(norm_CostAmount); norm_PositionQuantity := n.(norm_PositionQuantity);
     norm_SettlementPrice := n.(norm_SettlementPrice); norm_Transaction := Some t;
     norm_CreatedAt := n.(norm_CreatedAt) |}.

(** [created], [now] and [now'] are readings of the clock: for the record itself
    and for each rebuilt
    transaction. *)
Definition materializeAndValidate (now now' : Time) (n : EconomicNormalization) : outcome EconomicNormalization :=
  transaction ← expectedTransaction now n ;
  let n := set_transaction n transaction in
  EconomicNormalization_Validate now' n ;;
  Ok n.

Definition NewFillEconomicNormalization (created now now' : Time) (input : FillEconomicEventInput) :
    outcome EconomicNormalization :=
  eventType ← match input.(fillin_Side) with
              | FillSideSell => Ok EconomicEventFillSell
              | FillSideBuy => Ok EconomicEventFillBuy
              | FillSideOther _ => Err (Errorf "fill side %q is invalid")
              end ;
  normalization ← newEconomicNormalization created input.(fillin_Base) eventType ;
  let n := set_references normalization input.(fillin_Instrument) None input.(fillin_VenueContract) None in
  let n := set_amounts n (Some input.(fillin_Quantity)) (Some input.(fillin_Price)) None None in
  let n := match input.(fillin_Cost) with Some cost => set_cost n cost | None => n end in
  materializeAndValidate now now' n.

Definition NewCostEconomicNormalization (created now now' : Time) (input : CostEconomicEventInput) :
    outcome EconomicNormalization :=
  eventType ← match input.(costin_Kind) with
              | CostKindRebate => Ok EconomicEventRebate
              | CostKindFee => Ok EconomicEventFee
              | CostKindOther _ => Err (Errorf "cost kind %q is invalid")
              end ;
  normalization ← newEconomicNormalization created input.(costin_Base) eventType ;
  materializeAndValidate now now'
    (set_cost normalization (MkCostComponent input.(costin_Kind) input.(costin_Currency) input.(costin_Amount))).

Definition NewCashSettlementEconomicNormalization (created now now' : Time) (input : CashSettlementEconomicEventInput) :
    outcome EconomicNormalization :=
  eventType ← match input.(settlein_Kind) with
              | CashSettlementOption => Ok EconomicEventOptionCashSettlement
              | CashSettlementExpiration => Ok EconomicEventOptionExpiration
              | CashSettlementPrediction => Ok EconomicEventPredictionPayout
              | CashSettlementOther _ => Err (Errorf "cash settlement kind %q is invalid")
              end ;
  normalization ← newEconomicNormalization created input.(settlein_Base) eventType ;
  let n := set_references normalization input.(settlein_Instrument) None input.(settlein_VenueContract) None in
  materializeAndValidate now now'
    (set_amounts n None None (Some input.(settlein_PositionQuantity)) (Some input.(settlein_SettlementPrice))).

Definition NewPhysicalOptionEconomicNormalization (created now now' : Time) (input : PhysicalOptionEconomicEventInput) :
    outcome EconomicNormalization :=
  eventType ← match input.(physin_Action) with
              | PhysicalOptionExercise => Ok EconomicEventOptionExercise
              | PhysicalOptionAssignment => Ok EconomicEventOptionAssignment
              | PhysicalOptionOther _ => Err (Errorf "physical option action %q is invalid")
              end ;
  normalization ← newEconomicNormalization created input.(physin_Base) eventType ;
  let n := set_references normalization input.(physin_OptionInstrument) (Some input.(physin_UnderlyingInstrument))
             input.(physin_VenueContract) (Some input.(physin_OptionTerms)) in
  materializeAndValidate now now' (set_amounts n None None (Some input.(physin_PositionQuantity)) None).

(** ** Retry equality *)

Definition sameNormalizationInstrument (left right : option Instrument) : bool :=
  match left, right with
  | Some l, Some r =>
      (l.(inst_ID) ==? r.(inst_ID)) && (l.(inst_AssetClass) ==? r.(inst_AssetClass)) &&
      (l.(inst_Currency) ==? r.(inst_Currency)) && Equal l.(inst_TickSize) r.(inst_TickSize) &&
      Equal l.(inst_LotSize) r.(inst_LotSize) && Equal l.(inst_Multiplier) r.(inst_Multiplier) &&
      (l.(inst_SettlementMethod) ==? r.(inst_SettlementMethod)) && (l.(inst_Status) ==? r.(inst_Status)) &&
      sameUUIDPointer l.(inst_UnderlyingID) r.(inst_UnderlyingID)
  | None, None => true
  | _, _ => false
  end.

Definition sameNormalizationContract (left right : option VenueContract) : bool :=
  match left, right with
  | Some l, Some r =>
      (l.(vc_ID) ==? r.(vc_ID)) && (l.(vc_InstrumentID) ==? r.(vc_InstrumentID)) &&
      (l.(vc_Venue) ==? r.(vc_Venue)) && (l.(vc_ContractID) ==? r.(vc_ContractID)) &&
      (l.(vc_Currency) ==? r.(vc_Currency)) && Equal l.(vc_TickSize) r.(vc_TickSize) &&
      Equal l.(vc_LotSize) r.(vc_LotSize) && Equal l.(vc_Multiplier) r.(vc_Multiplier) &&
      (l.(vc_SettlementMethod) ==? r.(vc_SettlementMethod)) && TimeEqual l.(vc_ValidFrom) r.(vc_ValidFrom) &&
      sameTimePointer l.(vc_ValidTo) r.(vc_ValidTo)
  | None, None => true
  | _, _ => false
  end.

Definition sameNormalizationOptionTerms (left right : option OptionContractTerms) : bool :=
  match left, right with
  | Some _, Some _ => SameOptionContractTermsPayload left right
  | None, None => true
  | _, _ => false
  end.

Definition SameEconomicNormalizationPayload (left right : option EconomicNormalization) : bool :=
  match left, right with
  | Some l, Some r =>
      (l.(norm_ID) ==? r.(norm_ID)) &&
      SameEconomicSourceEventPayload l.(norm_SourceEvent) r.(norm_SourceEvent) &&
      match l.(norm_Account), r.(norm_Account) with
      | Some a, Some b => (a.(acct_ID) ==? b.(acct_ID)) && (a.(acct_BaseCurrency) ==? b.(acct_BaseCurrency))
      | _, _ => false
      end &&
      (l.(norm_EventType) ==? r.(norm_EventType)) &&
      (l.(norm_NormalizerVersion) ==? r.(norm_NormalizerVersion)) &&
      (l.(norm_ExecutionOriginType) ==? r.(norm_ExecutionOriginType)) &&
      (l.(norm_ExecutionOriginID) ==? r.(norm_ExecutionOriginID)) &&
      (l.(norm_ReferenceType) ==? r.(norm_ReferenceType)) && (l.(norm_ReferenceID) ==? r.(norm_ReferenceID)) &&
      (l.(norm_Venue) ==? r.(norm_Venue)) && TimeEqual l.(norm_EffectiveAt) r.(norm_EffectiveAt) &&
      (l.(norm_CashCurrency) ==? r.(norm_CashCurrency)) && (l.(norm_CostKind) ==? r.(norm_CostKind)) &&
      (l.(norm_CostCurrency) ==? r.(norm_CostCurrency)) &&
      sameEconomicDecimalPointer l.(norm_Quantity) r.(norm_Quantity) &&
      sameEconomicDecimalPointer l.(norm_Price) r.(norm_Price) &&
      sameEconomicDecimalPointer l.(norm_CostAmount) r.(norm_CostAmount) &&
      sameEconomicDecimalPointer l.(norm_PositionQuantity) r.(norm_PositionQuantity) &&
      sameEconomicDecimalPointer l.(norm_SettlementPrice) r.(norm_SettlementPrice) &&
      sameNormalizationInstrument l.(norm_Instrument) r.(norm_Instrument) &&
      sameNormalizationInstrument l.(norm_SecondaryInstrument) r.(norm_SecondaryInstrument) &&
      sameNormalizationContract l.(norm_VenueContract) r.(norm_VenueContract) &&
      sameNormalizationOptionTerms l.(norm_OptionTerms) r.(norm_OptionTerms) &&
      sameEconomicTransaction l.(norm_Transaction) r.(norm_Transaction)
  | _, _ => false
  end.

End normalization.
