(* ===== verification/NormalizationProofs.v ===== *)
(** * Normalized events: balanced entries, exact cash, deterministic retries *)

From S2P Require Import Prelude GoStd Externals Decimals EconomicId Account Instrument Transaction SourceEvent.
From S2P Require Import TransactionProofs Normalization.

Local Open Scope go_scope.

Section normalization_proofs.
Context {E : Externals} {L : ExternalLaws}.
Local Open Scope Q_scope.

(** ** Entries come in opposite pairs *)

Definition input_amount (u : postingUnit) (p : PostingInput) : Q :=
  if (p.(postin_UnitKind), p.(postin_Unit)) ==? u then val p.(postin_Amount) else 0.

(** A nonzero amount the ledger can store. *)
Definition storable (d : dec) : Prop := ~ val d == 0 /\ numeric_38_12 (val d).

(** The quantitative half of the ledger contract, for entries not yet
    materialized. *)
Record entries_ok (ps : list PostingInput) : Prop := {
  en_count : (2 <= length ps)%nat;
  en_keys : NoDup (postin_IdempotencyKey <$> ps);
  en_amounts : Forall (fun p => storable p.(postin_Amount)) ps;
  en_balanced u : sumQ (input_amount u) ps == 0;
}.

Lemma storable_neg d : storable d -> storable (Neg d).
Proof. intros [H1 H2]. split; rewrite val_Neg; [lra|by apply numeric_38_12_opp]. Qed.

Lemma storable_ext d d' : val d == val d' -> storable d -> storable d'.
Proof. intros H [H1 H2]. split; [by rewrite <- H|by rewrite <- H]. Qed.

Lemma shape_storable label d u : ~ val d == 0 -> validateEconomicDecimalShape label d = Ok u -> storable d.
Proof.
  intros Hd H. split; [done|]. unfold validateEconomicDecimalShape in H. inv_ok H. by apply amount_shape.
Qed.

(** Two entries of one unit with opposite amounts. *)
Definition opposite (p q : PostingInput) : Prop :=
  p.(postin_UnitKind) = q.(postin_UnitKind) /\ p.(postin_Unit) = q.(postin_Unit) /\
  q.(postin_Amount) = Neg p.(postin_Amount) /\ storable p.(postin_Amount).

Inductive paired : list PostingInput -> Prop :=
  | paired_nil : paired []
  | paired_cons p q ps : opposite p q -> paired ps -> paired (p :: q :: ps).

Lemma paired_app ps qs : paired ps -> paired qs -> paired (ps ++ qs).
Proof. induction 1; intros; simpl; [done|]. constructor; auto. Qed.

Lemma paired_ok ps : paired ps -> Forall (fun p => storable p.(postin_Amount)) ps /\
  forall u, sumQ (input_amount u) ps == 0.
Proof.
  induction 1 as [|p q ps (Hk & Hu & Ha & Hs) _ [IH1 IH2]]; [done|]. split.
  - repeat constructor; try apply Hs; try done; rewrite Ha; apply storable_neg, Hs.
  - intros u. simpl. rewrite IH2. unfold input_amount. rewrite Hk, Hu, Ha. case_bool_decide; rewrite ?val_Neg; lra.
Qed.

Lemma postingInput_opposite k1 k2 a1 a2 kind unit d : storable d ->
  opposite (postingInput k1 a1 kind unit d) (postingInput k2 a2 kind unit (Neg d)).
Proof. done. Qed.

#[local] Hint Constructors paired : core.
#[local] Hint Resolve postingInput_opposite : core.

Lemma requiredCost_paired n ps : requiredCostPostings n = Ok ps -> paired ps.
Proof.
  unfold requiredCostPostings. intros H. inv_ok H.
  match goal with Hv : validatePositiveEconomicDecimal _ _ = Ok _ |- _ => unfold validatePositiveEconomicDecimal in Hv; inv_ok Hv end.
  match goal with Ha : norm_CostAmount n = Some ?a |- _ =>
    assert (Hs : storable a) by (split_bools; dec_bools; eapply shape_storable; [|eassumption]; lra) end.
  destruct (_ ==? CostKindFee); inv_ok H; subst ps; auto.
Qed.

(** ** Facts the reference records contribute *)

Lemma reference_positive name v u : validatePositiveReferenceDecimal name v = Ok u -> 0 < val v.
Proof. unfold validatePositiveReferenceDecimal. intros H. inv_ok H. split_bools. by dec_bools. Qed.

Lemma contract_multiplier c u : VenueContract_Validate c = Ok u -> 0 < val c.(vc_Multiplier).
Proof.
  unfold VenueContract_Validate. intros H. inv_ok H.
  match goal with Hf : for_each _ _ = Ok _ |- _ => apply for_each_Ok in Hf; rewrite !Forall_cons in Hf;
    destruct Hf as (_ & _ & Hf & _) end.
  by eapply reference_positive.
Qed.

Lemma terms_positive t u : OptionContractTerms_Validate t = Ok u ->
  0 < val t.(terms_StrikePrice) /\ 0 < val t.(terms_DeliverableQuantity).
Proof.
  unfold OptionContractTerms_Validate. intros H. inv_ok H. split; by eapply reference_positive.
Qed.

Lemma positive_decimal label v u : validatePositiveEconomicDecimal label v = Ok u -> 0 < val v /\ storable v.
Proof.
  unfold validatePositiveEconomicDecimal. intros H. inv_ok H. split_bools. dec_bools. split; [done|].
  eapply shape_storable; [lra|done].
Qed.

Lemma nonnegative_decimal label v u : validateNonnegativeEconomicDecimal label v = Ok u ->
  0 <= val v /\ (~ val v == 0 -> storable v).
Proof.
  unfold validateNonnegativeEconomicDecimal. intros H. inv_ok H. dec_bools. split; [done|].
  intros. eapply shape_storable; [done|eassumption].
Qed.

(** ** Shape of the entries of each event *)

(** [+1] for a buy, [-1] for a sell. *)
Definition fill_direction (n : EconomicNormalization) : dec :=
  if n.(norm_EventType) ==? EconomicEventFillSell then Neg (NewFromInt 1) else NewFromInt 1.

Definition inventory_pair (prefix clearing account unit : string) (amount : dec) : list PostingInput :=
  [postingInput prefix account UnitKindInstrument unit amount;
   postingInput ("clearing-" +:+ prefix)%string clearing UnitKindInstrument unit (Neg amount)].

Definition cash_pair (prefix clearing currency : string) (amount : dec) : list PostingInput :=
  [postingInput prefix "asset:cash" UnitKindCurrency currency amount;
   postingInput ("clearing-" +:+ prefix)%string clearing UnitKindCurrency currency (Neg amount)].

Record fill_facts (n : EconomicNormalization) (ps : list PostingInput) (inst : Instrument) (c : VenueContract)
    (q p : dec) (account : string) (costs : list PostingInput) : Prop := {
  fl_instrument : n.(norm_Instrument) = Some inst;
  fl_contract : n.(norm_VenueContract) = Some c;
  fl_quantity : n.(norm_Quantity) = Some q;
  fl_price : n.(norm_Price) = Some p;
  fl_position : n.(norm_PositionQuantity) = None;
  fl_currency : c.(vc_Currency) = n.(norm_CashCurrency);
  fl_account : inventoryLedgerAccount inst.(inst_AssetClass) = Ok account;
  fl_costs : optionalCostPostings n = Ok costs;
  fl_positive : 0 < val q /\ 0 <= val p /\ 0 < val c.(vc_Multiplier);
  fl_storable : storable q;
  fl_gross : let gross := Mul (Mul p q) c.(vc_Multiplier) in ~ val gross == 0 -> storable gross;
  fl_entries : let gross := Mul (Mul p q) c.(vc_Multiplier) in
    ps = inventory_pair "inventory" "clearing:execution" account (uuid_string inst.(inst_ID)) (Mul q (fill_direction n)) ++
         (if IsZero gross then []
          else cash_pair "gross-cash" "clearing:execution" n.(norm_CashCurrency) (Neg (Mul gross (fill_direction n)))) ++
         costs;
}.

Lemma fillPostings_facts n ps : fillPostings n = Ok ps ->
  exists inst c q p account costs, fill_facts n ps inst c q p account costs.
Proof.
  unfold fillPostings. intros H. inv_ok H. split_bools. simplify_eq.
  repeat match goal with
  | Hv : VenueContract_Validate _ = Ok _ |- _ => apply contract_multiplier in Hv
  | Hv : validatePositiveEconomicDecimal _ _ = Ok _ |- _ => apply positive_decimal in Hv as [? ?]
  | Hv : validateNonnegativeEconomicDecimal _ _ = Ok _ |- _ => apply nonnegative_decimal in Hv as [? ?]
  end.
  eexists _, _, _, _, _, _. split; eauto.
  cbv zeta. unfold fill_direction. by destruct (IsZero _).
Qed.

Lemma optionalCost_paired n costs : optionalCostPostings n = Ok costs -> paired costs.
Proof.
  unfold optionalCostPostings. destruct (is_nil _); [|apply requiredCost_paired]. intros H. inv_ok H. subst. auto.
Qed.

Lemma fill_direction_cases n : val (fill_direction n) == 1 \/ val (fill_direction n) == -1.
Proof.
  unfold fill_direction. destruct (_ ==? _); rewrite ?val_Neg, !val_NewFromInt; [right|left]; reflexivity.
Qed.

Lemma storable_directed n d : storable d -> storable (Mul d (fill_direction n)).
Proof.
  intros Hd. destruct (fill_direction_cases n) as [H|H].
  - eapply storable_ext; [|exact Hd]. rewrite val_Mul, H. ring.
  - eapply storable_ext; [|apply storable_neg, Hd]. rewrite val_Mul, val_Neg, H. ring.
Qed.

Lemma fillPostings_paired n ps : fillPostings n = Ok ps -> paired ps.
Proof.
  intros (inst & c & q & p & account & costs & [])%fillPostings_facts. cbv zeta in *. subst ps.
  apply paired_app; [|apply paired_app].
  - constructor; [apply postingInput_opposite|constructor]. by apply (storable_directed n).
  - destruct (IsZero _) eqn:Hz; dec_bools; [constructor|].
    constructor; [apply postingInput_opposite|constructor]. by apply storable_neg, (storable_directed n), fl_gross0.
  - by eapply optionalCost_paired.
Qed.

Lemma costPostings_paired n ps : costPostings n = Ok ps -> paired ps.
Proof. unfold costPostings. intros H. inv_ok H. by eapply requiredCost_paired. Qed.

Record settlement_facts (n : EconomicNormalization) (ps : list PostingInput) (inst : Instrument) (c : VenueContract)
    (position price : dec) (account : string) : Prop := {
  sl_instrument : n.(norm_Instrument) = Some inst;
  sl_contract : n.(norm_VenueContract) = Some c;
  sl_position : n.(norm_PositionQuantity) = Some position;
  sl_price : n.(norm_SettlementPrice) = Some price;
  sl_account : inventoryLedgerAccount inst.(inst_AssetClass) = Ok account;
  sl_storable : storable position;
  sl_payout : let payout := Mul (Mul position price) c.(vc_Multiplier) in ~ val payout == 0 -> storable payout;
  sl_entries : let payout := Mul (Mul position price) c.(vc_Multiplier) in
    ps = inventory_pair "inventory-settlement" "clearing:settlement" account (uuid_string inst.(inst_ID)) (Neg position) ++
         (if IsZero payout then []
          else cash_pair "settlement-cash" "clearing:settlement" n.(norm_CashCurrency) payout);
}.

Lemma settlementPostings_facts n ps : cashSettlementPostings n = Ok ps ->
  exists inst c position price account, settlement_facts n ps inst c position price account.
Proof.
  unfold cashSettlementPostings. intros H. inv_ok H. split_bools. dec_bools. simplify_eq.
  eexists _, _, _, _, _. split; eauto.
  - eapply shape_storable; [done|eassumption].
  - intros payout Hp. eapply shape_storable; [done|eassumption].
  - cbv zeta. destruct (IsZero (Mul _ _)); reflexivity.
Qed.

Lemma settlementPostings_paired n ps : cashSettlementPostings n = Ok ps -> paired ps.
Proof.
  intros (inst & c & position & price & account & [])%settlementPostings_facts. cbv zeta in *. subst ps.
  apply paired_app.
  - constructor; [apply postingInput_opposite|constructor]. by apply storable_neg.
  - destruct (IsZero _) eqn:Hz; dec_bools; [constructor|].
    constructor; [apply postingInput_opposite|constructor]. by apply sl_payout0.
Qed.

Record physical_facts (n : EconomicNormalization) (ps : list PostingInput) (option_ underlying : Instrument)
    (terms : OptionContractTerms) (position delivered strikeCash : dec) (account : string) : Prop := {
  ph_option : n.(norm_Instrument) = Some option_;
  ph_underlying : n.(norm_SecondaryInstrument) = Some underlying;
  ph_terms : n.(norm_OptionTerms) = Some terms;
  ph_position : n.(norm_PositionQuantity) = Some position;
  ph_account : inventoryLedgerAccount underlying.(inst_AssetClass) = Ok account;
  ph_delivered : val delivered ==
    (if terms.(terms_ContractType) ==? OptionContractPut then -1 else 1) *
    (val position * val terms.(terms_DeliverableQuantity));
  ph_strike : val strikeCash == - (val delivered * val terms.(terms_StrikePrice));
  ph_storable : storable position /\ storable delivered /\ storable strikeCash;
  ph_entries :
    ps = inventory_pair "option-close" "clearing:settlement" "asset:option_inventory" (uuid_string option_.(inst_ID))
           (Neg position) ++
         inventory_pair "underlying-delivery" "clearing:settlement" account (uuid_string underlying.(inst_ID))
           delivered ++
         cash_pair "strike-cash" "clearing:settlement" n.(norm_CashCurrency) strikeCash;
}.

Lemma physicalPostings_facts n ps : physicalOptionPostings n = Ok ps ->
  exists option_ underlying terms position delivered strikeCash account,
    physical_facts n ps option_ underlying terms position delivered strikeCash account.
Proof.
  unfold physicalOptionPostings. intros H. inv_ok H.
  match goal with Ht : norm_OptionTerms n = Some ?t, Hp : norm_PositionQuantity n = Some ?k,
                  Hv : OptionContractTerms_Validate ?t = Ok _ |- _ =>
    apply terms_positive in Hv as [Hstrike Hdeliver];
    set (delivered := if t.(terms_ContractType) ==? OptionContractPut
                      then Neg (Mul k t.(terms_DeliverableQuantity)) else Mul k t.(terms_DeliverableQuantity)) in *;
    assert (Hval : val delivered == (if t.(terms_ContractType) ==? OptionContractPut then -1 else 1) *
                                    (val k * val t.(terms_DeliverableQuantity)));
    [unfold delivered; destruct (_ ==? OptionContractPut); dec_push; ring|];
    assert (Hk : ~ val k == 0);
    [split_bools; dec_bools; done|];
    assert (Hnz : ~ val delivered == 0);
    [rewrite Hval; destruct (_ ==? OptionContractPut); nra|]
  end.
  match goal with Ht : norm_OptionTerms n = Some ?t |- _ => rename t into terms end.
  eexists _, _, _, _, delivered, (Neg (Mul delivered terms.(terms_StrikePrice))), _. split; eauto.
  - dec_push. reflexivity.
  - split; [eapply shape_storable; [done|eassumption]|]. split; [eapply shape_storable; [done|eassumption]|].
    eapply shape_storable; [|eassumption]. dec_push. nra.
Qed.

Lemma physicalPostings_paired n ps : physicalOptionPostings n = Ok ps -> paired ps.
Proof.
  intros (o & u & t & k & d & c & a & [])%physicalPostings_facts. subst ps. destruct ph_storable0 as (Hk & Hd & Hc).
  repeat apply paired_app; (constructor; [apply postingInput_opposite|constructor]); by try apply storable_neg.
Qed.

Lemma expectedPostings_paired n ps : expectedPostings n = Ok ps -> paired ps.
Proof.
  unfold expectedPostings. destruct n.(norm_EventType);
    eauto using fillPostings_paired, costPostings_paired, settlementPostings_paired, physicalPostings_paired. done.
Qed.

(** ** Keys and cash *)

Definition input_posted (account : string) (ps : list PostingInput) : Q :=
  sumQ (fun p => if p.(postin_LedgerAccount) ==? account then val p.(postin_Amount) else 0) ps.

Lemma input_posted_app account ps qs : input_posted account (ps ++ qs) == input_posted account ps + input_posted account qs.
Proof. apply sumQ_app. Qed.

Lemma inventory_accounts cls account : inventoryLedgerAccount cls = Ok account ->
  account ∈ ["asset:security_inventory"; "asset:crypto_inventory"; "asset:option_inventory";
             "asset:event_contract_inventory"].
Proof. destruct cls; simpl; intros [= <-]; set_solver. Qed.

Lemma inventory_posted prefix clearing account unit amount cls :
  inventoryLedgerAccount cls = Ok account -> clearing <> "asset:cash" ->
  input_posted "asset:cash" (inventory_pair prefix clearing account unit amount) == 0.
Proof.
  intros Ha%inventory_accounts Hc. unfold input_posted; simpl. rewrite (bool_decide_eq_false_2 (clearing = _)) by done.
  rewrite bool_decide_eq_false_2; [lra|]. rewrite !elem_of_cons, elem_of_nil in Ha.
  by destruct Ha as [->|[->|[->|[->|[]]]]].
Qed.

Lemma cash_posted prefix clearing currency amount : clearing <> "asset:cash" ->
  input_posted "asset:cash" (cash_pair prefix clearing currency amount) == val amount.
Proof.
  intros Hc. unfold input_posted; simpl. rewrite (bool_decide_eq_false_2 (clearing = _)) by done. lra.
Qed.

(** Cash a fee takes and a rebate gives. *)
Definition cost_cash (n : EconomicNormalization) : Q :=
  match n.(norm_CostAmount) with
  | Some a => if n.(norm_CostKind) ==? CostKindFee then - val a else val a
  | None => 0
  end.

Definition cost_keys (n : EconomicNormalization) : list string :=
  if n.(norm_CostKind) ==? CostKindFee then ["fee-expense"; "fee-cash"] else ["rebate-cash"; "rebate-income"].

Lemma requiredCost_facts n ps : requiredCostPostings n = Ok ps ->
  input_posted "asset:cash" ps == cost_cash n /\ postin_IdempotencyKey <$> ps = cost_keys n /\
  is_Some n.(norm_CostAmount).
Proof.
  unfold requiredCostPostings, cost_cash, cost_keys. intros H. inv_ok H.
  match goal with Ha : norm_CostAmount n = Some _ |- _ => rewrite Ha end.
  destruct (_ ==? CostKindFee); inv_ok H; subst ps; unfold input_posted; cbn [sumQ postingInput postin_LedgerAccount
    postin_Amount]; (split; [repeat case_bool_decide; try congruence; rewrite ?val_Neg; lra|split; [done|eauto]]).
Qed.

Lemma optionalCost_facts n ps : optionalCostPostings n = Ok ps ->
  input_posted "asset:cash" ps == cost_cash n /\
  (postin_IdempotencyKey <$> ps = [] \/ postin_IdempotencyKey <$> ps = cost_keys n).
Proof.
  unfold optionalCostPostings. destruct (is_nil _) eqn:Hnil.
  - intros H. inv_ok H. subst. split_bools. unfold cost_cash. rewrite Hnil. split; [reflexivity|by left].
  - intros (? & ? & _)%requiredCost_facts. auto.
Qed.

Definition optQ (v : option dec) : Q := match v with Some d => val d | None => 0 end.

(** The cash an event brings the account, from its typed facts. *)
Definition economic_cash (n : EconomicNormalization) : Q :=
  let multiplier := optQ (vc_Multiplier <$> n.(norm_VenueContract)) in
  let gross := optQ n.(norm_Price) * optQ n.(norm_Quantity) * multiplier in
  match n.(norm_EventType) with
  | EconomicEventFillBuy => - gross + cost_cash n
  | EconomicEventFillSell => gross + cost_cash n
  | EconomicEventFee | EconomicEventRebate => cost_cash n
  | EconomicEventOptionCashSettlement | EconomicEventOptionExpiration | EconomicEventPredictionPayout =>
      optQ n.(norm_PositionQuantity) * optQ n.(norm_SettlementPrice) * multiplier
  | EconomicEventOptionExercise | EconomicEventOptionAssignment =>
      - ((if (terms_ContractType <$> n.(norm_OptionTerms)) ==? Some OptionContractPut then -1 else 1) *
         (optQ n.(norm_PositionQuantity) * optQ (terms_DeliverableQuantity <$> n.(norm_OptionTerms))) *
         optQ (terms_StrikePrice <$> n.(norm_OptionTerms)))
  | EconomicEventOther _ => 0
  end.

Lemma NoDup_strings (l : list string) : bool_decide (NoDup l) = true -> NoDup l.
Proof. apply bool_decide_eq_true_1. Qed.

Lemma fill_keys n ps : fillPostings n = Ok ps -> NoDup (postin_IdempotencyKey <$> ps) /\ (2 <= length ps)%nat.
Proof.
  intros (inst & c & q & p & account & costs & [])%fillPostings_facts. cbv zeta in *. subst ps.
  destruct (optionalCost_facts n costs fl_costs0) as [_ Hkeys]. split.
  - rewrite !fmap_app. unfold cost_keys in Hkeys.
    destruct (IsZero _), Hkeys as [-> | ->]; try destruct (_ ==? _); by apply NoDup_strings.
  - rewrite length_app. simpl. lia.
Qed.

Lemma fill_cash n ps : n.(norm_EventType) = EconomicEventFillBuy \/ n.(norm_EventType) = EconomicEventFillSell ->
  fillPostings n = Ok ps -> input_posted "asset:cash" ps == economic_cash n.
Proof.
  intros Hev (inst & c & q & p & account & costs & [])%fillPostings_facts. cbv zeta in *. subst ps.
  rewrite !input_posted_app. erewrite inventory_posted by done.
  destruct (optionalCost_facts n costs fl_costs0) as [-> _]. unfold economic_cash.
  rewrite fl_contract0, fl_quantity0, fl_price0. cbn [optQ fmap option_fmap option_map].
  assert (Hcash : forall b : bool, (b = IsZero (Mul (Mul p q) (vc_Multiplier c))) ->
    input_posted "asset:cash" (if b then [] else cash_pair "gross-cash" "clearing:execution" n.(norm_CashCurrency)
      (Neg (Mul (Mul (Mul p q) (vc_Multiplier c)) (fill_direction n)))) ==
    - (val p * val q * val c.(vc_Multiplier) * val (fill_direction n))).
  { intros [] Hz.
    - symmetry in Hz. dec_bools. rewrite !val_Mul in Hz. rewrite Hz. unfold input_posted; simpl. ring.
    - rewrite cash_posted by done. dec_push. ring. }
  rewrite Hcash by done. unfold fill_direction.
  destruct Hev as [-> | ->]; [rewrite bool_decide_eq_false_2 by done|rewrite bool_decide_eq_true_2 by done];
    rewrite ?val_Neg, val_NewFromInt; change (inject_Z 1) with 1; ring.
Qed.

Lemma cost_event n ps : costPostings n = Ok ps ->
  input_posted "asset:cash" ps == cost_cash n /\ NoDup (postin_IdempotencyKey <$> ps) /\ (2 <= length ps)%nat.
Proof.
  unfold costPostings. intros H. inv_ok H. destruct (requiredCost_facts n ps H) as (Hc & Hk & _). split; [done|].
  assert (Hlen : length (postin_IdempotencyKey <$> ps) = length ps) by apply length_fmap.
  rewrite Hk in *. unfold cost_keys in *. destruct (_ ==? CostKindFee); (split; [by apply NoDup_strings|simpl in *; lia]).
Qed.

Lemma settlement_event n ps : cashSettlementPostings n = Ok ps ->
  input_posted "asset:cash" ps ==
    optQ n.(norm_PositionQuantity) * optQ n.(norm_SettlementPrice) * optQ (vc_Multiplier <$> n.(norm_VenueContract)) /\
  NoDup (postin_IdempotencyKey <$> ps) /\ (2 <= length ps)%nat.
Proof.
  intros (inst & c & k & p & account & [])%settlementPostings_facts. cbv zeta in *. subst ps.
  rewrite sl_contract0, sl_position0, sl_price0. cbn [optQ fmap option_fmap option_map].
  rewrite input_posted_app. erewrite inventory_posted by done. rewrite fmap_app, length_app.
  destruct (IsZero _) eqn:Hz; dec_bools; rewrite ?cash_posted by done; dec_push; dec_push_in Hz.
  - rewrite Hz. split; [unfold input_posted; simpl; lra|]. split; [by apply NoDup_strings|simpl; lia].
  - split; [lra|]. split; [by apply NoDup_strings|simpl; lia].
Qed.

Lemma physical_event n ps : physicalOptionPostings n = Ok ps ->
  input_posted "asset:cash" ps ==
    - ((if (terms_ContractType <$> n.(norm_OptionTerms)) ==? Some OptionContractPut then -1 else 1) *
       (optQ n.(norm_PositionQuantity) * optQ (terms_DeliverableQuantity <$> n.(norm_OptionTerms))) *
       optQ (terms_StrikePrice <$> n.(norm_OptionTerms))) /\
  NoDup (postin_IdempotencyKey <$> ps) /\ (2 <= length ps)%nat.
Proof.
  intros (o & u & t & k & d & c & a & [])%physicalPostings_facts. subst ps.
  rewrite ph_terms0, ph_position0. cbn [optQ fmap option_fmap option_map].
  rewrite !input_posted_app, cash_posted by done. erewrite (inventory_posted "underlying-delivery") by done.
  rewrite (inventory_posted _ _ _ _ _ AssetClassOption) by done.
  split; [|split; [by apply NoDup_strings|simpl; lia]].
  rewrite ph_strike0, ph_delivered0. repeat case_bool_decide; try congruence; lra.
Qed.

(** every normalizer produces sound double-entry lines: at least two, with
    distinct keys, each amount nonzero and storable as NUMERIC(38,12), netting
    to zero in every unit, whatever the event. *)
Theorem expectedPostings_entries n ps : expectedPostings n = Ok ps -> entries_ok ps.
Proof.
  intros H. destruct (paired_ok ps (expectedPostings_paired n ps H)) as [Ham Hbal].
  assert (Hk : NoDup (postin_IdempotencyKey <$> ps) /\ (2 <= length ps)%nat).
  { unfold expectedPostings in H. destruct n.(norm_EventType); try done;
      first [by eapply fill_keys|by eapply cost_event|by eapply settlement_event|by eapply physical_event]. }
  by destruct Hk; split.
Qed.

(** C32: the cash legs are exact. The net amount the entries post to
    [asset:cash] is price times quantity times multiplier with the sign of the
    side, less fees plus rebates; the payout of a settlement; or the strike
    cash of an exercise or assignment. *)
Theorem expectedPostings_cash n ps : expectedPostings n = Ok ps ->
  input_posted "asset:cash" ps == economic_cash n.
Proof.
  unfold expectedPostings. intros H. destruct n.(norm_EventType) eqn:He; try done;
    try (by apply fill_cash; auto); unfold economic_cash; rewrite He; cbv zeta;
    first [by apply cost_event|by apply settlement_event|by apply physical_event].
Qed.
End normalization_proofs.
