(* ===== verification/Projection.v ===== *)
(** * Portfolio projections (internal/ledger/projection.go)

    A complete deterministic replay of the ledger of one account: FIFO lots,
    realized and unrealized profit, marks, positions, checksums and the
    checkpoint envelope. This file is the code; [ProjectionFifo] and
    [ProjectionProofs] reason about it. *)

From S2P Require Import Prelude GoStd Externals EconomicId Instrument Transaction SourceEvent Normalization.

Local Open Scope go_scope.

Definition PortfolioProjectionType : string := "portfolio".
Definition PortfolioProjectionVersion : string := "ledger_fifo_v1".
Definition ProjectionFIFO : string := "fifo".

Section projection.
Context {E : Externals}.

(** ** Records *)

Record ProjectionRequest := MkProjectionRequest {
  req_AccountID : UUID;
  req_AsOf : Time;
  req_MarkSource : string;
  req_MarkNamespace : string;
  req_MaxMarkAge : Duration;
}.

Record ProjectionMechanics := MkProjectionMechanics {
  mech_NormalizationID : UUID;
  mech_SourceEventID : UUID;
  mech_TransactionID : UUID;
  mech_EventType : EconomicEventType;
  mech_NormalizerVersion : string;
  mech_ExecutionOriginType : ExecutionOriginType;
  mech_ExecutionOriginID : string;
  mech_ReferenceType : string;
  mech_ReferenceID : string;
  mech_Venue : string;
  mech_InstrumentID : UUID;
  mech_SecondaryInstrumentID : UUID;
  mech_VenueContractID : UUID;
  mech_OptionTermsID : UUID;
  mech_CashCurrency : string;
  mech_Quantity : option dec;
  mech_Price : option dec;
  mech_CostKind : CostKind;
  mech_CostCurrency : string;
  mech_CostAmount : option dec;
  mech_PositionQuantity : option dec;
  mech_SettlementPrice : option dec;
  mech_OptionContractType : OptionContractType;
  mech_StrikePrice : option dec;
  mech_DeliverableQuantity : option dec;
  mech_PrimaryMultiplier : dec;
  mech_SecondaryMultiplier : dec;
}.

Record ProjectionInput := MkProjectionInput {
  pin_Request : ProjectionRequest;
  pin_BaseCurrency : string;
  pin_Transactions : list (option Transaction);
  pin_Mechanics : list ProjectionMechanics;
  pin_Marks : list (option MarkObservation);
}.

Record ProjectionMark := MkProjectionMark {
  pmark_ID : UUID;
  pmark_InstrumentID : UUID;
  pmark_Price : dec;
  pmark_PriceCurrency : string;
  pmark_Source : string;
  pmark_SourceNamespace : string;
  pmark_SourceObservationID : string;
  pmark_SourceRevision : string;
  pmark_EffectiveAt : Time;
  pmark_ObservedAt : Time;
  pmark_Metadata : string;
}.

Record ProjectionLot := MkProjectionLot {
  lot_ID : UUID;
  lot_InstrumentID : UUID;
  lot_OpeningTransactionID : UUID;
  lot_OpeningOriginType : ExecutionOriginType;
  lot_OpeningOriginID : string;
  lot_OpeningReferenceType : string;
  lot_OpeningReferenceID : string;
  lot_OpenedAt : Time;
  lot_Quantity : dec;
  lot_RemainingQuantity : dec;
  lot_OpeningCash : dec;
  lot_RemainingOpeningCash : dec;
  lot_MarkMultiplier : dec;
}.

Record ProjectionMatch := MkProjectionMatch {
  match_ID : UUID;
  match_LotID : UUID;
  match_InstrumentID : UUID;
  match_ClosingTransactionID : UUID;
  match_OpeningOriginType : ExecutionOriginType;
  match_OpeningOriginID : string;
  match_OpeningReferenceType : string;
  match_OpeningReferenceID : string;
  match_ClosingOriginType : ExecutionOriginType;
  match_ClosingOriginID : string;
  match_ClosingReferenceType : string;
  match_ClosingReferenceID : string;
  match_ClosedAt : Time;
  match_Quantity : dec;
  match_OpeningCash : dec;
  match_ClosingCash : dec;
  match_RealizedPnL : dec;
  match_Disposition : string;
}.

Record ProjectionPosition := MkProjectionPosition {
  pos_InstrumentID : UUID;
  pos_Open : bool;
  pos_Quantity : dec;
  pos_RemainingOpeningCash : dec;
  pos_RealizedPnL : dec;
  pos_MarketValue : dec;
  pos_UnrealizedPnL : dec;
  pos_MarkObservationID : UUID;
  pos_OpenLotCount : nat;
}.

Record ProjectionTotals := MkProjectionTotals {
  tot_Cash : dec;
  tot_NetCapital : dec;
  tot_Fees : dec;
  tot_Rebates : dec;
  tot_RealizedPnL : dec;
  tot_UnrealizedPnL : dec;
  tot_MarketValue : dec;
  tot_Equity : dec;
  tot_TotalPnL : dec;
}.

Record PortfolioProjection := MkPortfolioProjection {
  proj_CheckpointID : UUID;
  proj_ProjectionType : string;
  proj_Version : string;
  proj_FIFO : string;
  proj_AccountID : UUID;
  proj_BaseCurrency : string;
  proj_AsOf : Time;
  proj_MarkSource : string;
  proj_MarkNamespace : string;
  proj_MaxMarkAge : Duration;
  proj_ThroughTransactionID : UUID;
  proj_TransactionCount : nat;
  proj_InputChecksum : string;
  proj_OutputChecksum : string;
  proj_Marks : list ProjectionMark;
  proj_Lots : list ProjectionLot;
  proj_Matches : list ProjectionMatch;
  proj_Positions : list ProjectionPosition;
  proj_Totals : ProjectionTotals;
  proj_PayloadBytes : string;
}.

Record ProjectionCheckpoint := MkProjectionCheckpoint {
  cp_ID : UUID;
  cp_AccountID : UUID;
  cp_ProjectionType : string;
  cp_ThroughTransactionID : UUID;
  cp_ProjectionVersion : string;
  cp_AsOf : Time;
  cp_FIFO : string;
  cp_BaseCurrency : string;
  cp_MarkSource : string;
  cp_MarkNamespace : string;
  cp_MaxMarkAge : Duration;
  cp_TransactionCount : Z;
  cp_MarkCount : Z;
  cp_LotCount : Z;
  cp_MatchCount : Z;
  cp_PositionCount : Z;
  cp_InputChecksum : string;
  cp_OutputChecksum : string;
  cp_PayloadBytes : string;
  cp_AttestationKeyID : string;
  cp_AttestationHMAC : string;
  cp_CreatedAt : Time;
}.

Record projectionState := MkProjectionState {
  st_lots : list ProjectionLot;
  st_matches : list ProjectionMatch;
  st_activity : gset UUID;
  st_cash : dec;
  st_netCapital : dec;
  st_fees : dec;
  st_rebates : dec;
  st_realized : dec;
}.

(** ** ProjectionMechanics.Validate *)

Definition mechanics_decimals (m : ProjectionMechanics) : list (option dec) :=
  [m.(mech_Quantity); m.(mech_Price); m.(mech_CostAmount); m.(mech_PositionQuantity);
   m.(mech_SettlementPrice); m.(mech_StrikePrice); m.(mech_DeliverableQuantity)].

(** [value == nil || !f( *value)] *)
Definition nil_or_not (f : dec -> bool) (value : option dec) : bool :=
  match value with Some d => negb (f d) | None => true end.

Definition ProjectionMechanics_Validate (m : ProjectionMechanics) : outcome unit :=
  reject ((m.(mech_NormalizationID) ==? Nil) || (m.(mech_SourceEventID) ==? Nil) ||
          (m.(mech_TransactionID) ==? Nil))
    "projection normalization, source-event, and transaction IDs are required" ;;
  let identity domain := DeterministicUUID domain [uuid_string m.(mech_SourceEventID); m.(mech_NormalizerVersion)] in
  reject (negb (isNormalizedRequired m.(mech_NormalizerVersion)) ||
          (m.(mech_NormalizationID) !=? identity economicNormalizationIDDomain) ||
          (m.(mech_TransactionID) !=? identity "economic-ledger-transaction"))
    "projection normalization mechanics have invalid deterministic identity" ;;
  reject (negb (validExecutionOriginType m.(mech_ExecutionOriginType)) ||
          negb (isNormalizedRequired m.(mech_ExecutionOriginID)) ||
          negb (isNormalizedRequired m.(mech_ReferenceType)) || negb (isNormalizedRequired m.(mech_ReferenceID)) ||
          negb (isCurrencyUnit m.(mech_CashCurrency)))
    "projection execution origin and reference are invalid" ;;
  reject ((m.(mech_Venue) !=? "") &&
          (negb (isNormalizedRequired m.(mech_Venue)) || (m.(mech_Venue) !=? ToLower m.(mech_Venue))))
    "projection mechanics venue is not normalized" ;;
  for_each (fun value => reject (some_and (fun d => negb (validProjectionDecimal d)) value)
                           "projection mechanics decimal has invalid precision or magnitude")
    (mechanics_decimals m) ;;
  for_each (fun multiplier =>
              reject (negb (IsZero multiplier) &&
                      (negb (IsPositive multiplier) || negb (validProjectionDecimal multiplier)))
                "projection multiplier is not a positive exact decimal")
    [m.(mech_PrimaryMultiplier); m.(mech_SecondaryMultiplier)] ;;
  match m.(mech_EventType) with
  | EconomicEventFee | EconomicEventRebate =>
      reject ((m.(mech_InstrumentID) !=? Nil) || (m.(mech_SecondaryInstrumentID) !=? Nil) ||
              (m.(mech_VenueContractID) !=? Nil) || (m.(mech_OptionTermsID) !=? Nil) || (m.(mech_Venue) !=? "") ||
              negb (IsZero m.(mech_PrimaryMultiplier)) || negb (IsZero m.(mech_SecondaryMultiplier)) ||
              negb (is_nil m.(mech_Quantity)) || negb (is_nil m.(mech_Price)) ||
              negb (is_nil m.(mech_PositionQuantity)) || negb (is_nil m.(mech_SettlementPrice)) ||
              nil_or_not IsPositive m.(mech_CostAmount) ||
              (m.(mech_CostCurrency) !=? m.(mech_CashCurrency)) ||
              (m.(mech_OptionContractType) !=? OptionContractOther "") ||
              negb (is_nil m.(mech_StrikePrice)) || negb (is_nil m.(mech_DeliverableQuantity)) ||
              ((m.(mech_EventType) ==? EconomicEventFee) && (m.(mech_CostKind) !=? CostKindFee)) ||
              ((m.(mech_EventType) ==? EconomicEventRebate) && (m.(mech_CostKind) !=? CostKindRebate)))
        "standalone cost mechanics cannot contain instrument mechanics"
  | EconomicEventFillBuy | EconomicEventFillSell =>
      reject ((m.(mech_InstrumentID) ==? Nil) || (m.(mech_SecondaryInstrumentID) !=? Nil) ||
              (m.(mech_VenueContractID) ==? Nil) || (m.(mech_OptionTermsID) !=? Nil) || (m.(mech_Venue) ==? "") ||
              negb (IsPositive m.(mech_PrimaryMultiplier)) || negb (IsZero m.(mech_SecondaryMultiplier)) ||
              nil_or_not IsPositive m.(mech_Quantity) ||
              nil_or_not (fun d => negb (IsNegative d)) m.(mech_Price) ||
              negb (is_nil m.(mech_PositionQuantity)) || negb (is_nil m.(mech_SettlementPrice)) ||
              (m.(mech_OptionContractType) !=? OptionContractOther "") ||
              negb (is_nil m.(mech_StrikePrice)) || negb (is_nil m.(mech_DeliverableQuantity)))
        "fill projection mechanics are incomplete or contain irrelevant fields" ;;
      reject (negb (Bool.eqb (is_nil m.(mech_CostAmount))
                             ((m.(mech_CostKind) ==? CostKindNone) || (m.(mech_CostCurrency) ==? ""))))
        "fill cost projection mechanics must be wholly absent or present" ;;
      reject (some_and (fun amount =>
                negb (IsPositive amount) ||
                ((m.(mech_CostKind) !=? CostKindFee) && (m.(mech_CostKind) !=? CostKindRebate)) ||
                (m.(mech_CostCurrency) !=? m.(mech_CashCurrency))) m.(mech_CostAmount))
        "fill cost projection mechanics are invalid"
  | EconomicEventOptionCashSettlement | EconomicEventOptionExpiration | EconomicEventPredictionPayout =>
      reject ((m.(mech_InstrumentID) ==? Nil) || (m.(mech_SecondaryInstrumentID) !=? Nil) ||
              (m.(mech_VenueContractID) ==? Nil) || (m.(mech_OptionTermsID) !=? Nil) || (m.(mech_Venue) ==? "") ||
              negb (IsPositive m.(mech_PrimaryMultiplier)) || negb (IsZero m.(mech_SecondaryMultiplier)) ||
              negb (is_nil m.(mech_Quantity)) || negb (is_nil m.(mech_Price)) ||
              (m.(mech_CostKind) !=? CostKindNone) || (m.(mech_CostCurrency) !=? "") ||
              negb (is_nil m.(mech_CostAmount)) ||
              nil_or_not (fun d => negb (IsZero d)) m.(mech_PositionQuantity) ||
              nil_or_not (fun d => negb (IsNegative d)) m.(mech_SettlementPrice) ||
              (m.(mech_OptionContractType) !=? OptionContractOther "") ||
              negb (is_nil m.(mech_StrikePrice)) || negb (is_nil m.(mech_DeliverableQuantity)))
        "cash-settlement projection mechanics are incomplete or contain irrelevant fields"
  | EconomicEventOptionExercise | EconomicEventOptionAssignment =>
      reject ((m.(mech_InstrumentID) ==? Nil) || (m.(mech_SecondaryInstrumentID) ==? Nil) ||
              (m.(mech_VenueContractID) ==? Nil) || (m.(mech_OptionTermsID) ==? Nil) || (m.(mech_Venue) ==? "") ||
              negb (IsPositive m.(mech_PrimaryMultiplier)) || negb (IsPositive m.(mech_SecondaryMultiplier)) ||
              negb (is_nil m.(mech_Quantity)) || negb (is_nil m.(mech_Price)) ||
              (m.(mech_CostKind) !=? CostKindNone) || (m.(mech_CostCurrency) !=? "") ||
              negb (is_nil m.(mech_CostAmount)) ||
              nil_or_not (fun d => negb (IsZero d)) m.(mech_PositionQuantity) ||
              negb (is_nil m.(mech_SettlementPrice)) ||
              ((m.(mech_OptionContractType) !=? OptionContractCall) &&
               (m.(mech_OptionContractType) !=? OptionContractPut)) ||
              nil_or_not IsPositive m.(mech_StrikePrice) ||
              nil_or_not (fun d => IsPositive d && Equal m.(mech_PrimaryMultiplier) d) m.(mech_DeliverableQuantity))
        "physical option mechanics require both instruments and positive multipliers"
  | EconomicEventOther _ => Err (Errorf "projection instrument mechanics are invalid for %q")
  end.

(** [now] is the clock reading of the transaction that [Validate] rebuilds. *)
Definition ProjectionMechanicsFromNormalization (now : Time) (normalization : option EconomicNormalization) :
    outcome ProjectionMechanics :=
  reject (is_nil normalization) "projection mechanics require an economic normalization" ;;
  n ← deref normalization ;
  wrap "projection mechanics normalization: %w" (EconomicNormalization_Validate now n) ;;
  source ← deref n.(norm_SourceEvent) ;
  transaction ← deref n.(norm_Transaction) ;
  let mechanics := {|
    mech_NormalizationID := n.(norm_ID);
    mech_SourceEventID := source.(src_ID);
    mech_TransactionID := transaction.(tx_ID);
    mech_EventType := n.(norm_EventType);
    mech_NormalizerVersion := n.(norm_NormalizerVersion);
    mech_ExecutionOriginType := n.(norm_ExecutionOriginType);
    mech_ExecutionOriginID := n.(norm_ExecutionOriginID);
    mech_ReferenceType := n.(norm_ReferenceType);
    mech_ReferenceID := n.(norm_ReferenceID);
    mech_Venue := n.(norm_Venue);
    mech_InstrumentID := match n.(norm_Instrument) with Some i => i.(inst_ID) | None => Nil end;
    mech_SecondaryInstrumentID := match n.(norm_SecondaryInstrument) with Some i => i.(inst_ID) | None => Nil end;
    mech_VenueContractID := match n.(norm_VenueContract) with Some c => c.(vc_ID) | None => Nil end;
    mech_OptionTermsID := match n.(norm_OptionTerms) with Some t => t.(terms_ID) | None => Nil end;
    mech_CashCurrency := n.(norm_CashCurrency);
    mech_Quantity := n.(norm_Quantity);
    mech_Price := n.(norm_Price);
    mech_CostKind := n.(norm_CostKind);
    mech_CostCurrency := n.(norm_CostCurrency);
    mech_CostAmount := n.(norm_CostAmount);
    mech_PositionQuantity := n.(norm_PositionQuantity);
    mech_SettlementPrice := n.(norm_SettlementPrice);
    mech_OptionContractType :=
      match n.(norm_OptionTerms) with Some t => t.(terms_ContractType) | None => OptionContractOther "" end;
    mech_StrikePrice := terms_StrikePrice <$> n.(norm_OptionTerms);
    mech_DeliverableQuantity := terms_DeliverableQuantity <$> n.(norm_OptionTerms);
    mech_PrimaryMultiplier := match n.(norm_VenueContract) with Some c => c.(vc_Multiplier) | None => ZeroValue end;
    mech_SecondaryMultiplier :=
      match n.(norm_SecondaryInstrument) with Some i => i.(inst_Multiplier) | None => ZeroValue end |} in
  ProjectionMechanics_Validate mechanics ;;
  Ok mechanics.

(** ** Replay boundary *)

Definition normalizeProjectionBoundary (request : ProjectionRequest) (baseCurrency : string) :
    outcome (ProjectionRequest * string) :=
  let asOf := utc_micro request.(req_AsOf) in
  let markSource := ToLower (TrimSpace request.(req_MarkSource)) in
  let markNamespace := TrimSpace request.(req_MarkNamespace) in
  let currency := ToUpper (TrimSpace baseCurrency) in
  reject ((request.(req_AccountID) ==? Nil) || IsZeroTime asOf)
    "projection account and as-of time are required" ;;
  reject (negb (isNormalizedRequired markSource) || (markSource !=? ToLower markSource) ||
          negb (isNormalizedRequired markNamespace) || (request.(req_MaxMarkAge) <=? 0)%Z)
    "projection mark source, namespace, and positive maximum age are required" ;;
  let maxMarkAge := DurationTruncateMicro request.(req_MaxMarkAge) in
  reject ((maxMarkAge <=? 0)%Z || negb (isCurrencyUnit currency))
    "projection base currency or maximum mark age is invalid" ;;
  Ok (MkProjectionRequest request.(req_AccountID) asOf markSource markNamespace maxMarkAge, currency).

(** The loop at the top of [BuildPortfolioProjection]. *)
Fixpoint eligibleTransactions (request : ProjectionRequest) (candidates : list (option Transaction)) :
    outcome (list Transaction) :=
  match candidates with
  | [] => Ok []
  | None :: _ => Err (Errorf "projection transaction cannot be nil")
  | Some t :: rest =>
      if After t.(tx_EffectiveAt) request.(req_AsOf) || After t.(tx_ObservedAt) request.(req_AsOf)
      then eligibleTransactions request rest
      else
        wrap "projection transaction %s: %w" (Transaction_Validate t) ;;
        reject (t.(tx_AccountID) !=? request.(req_AccountID))
          "projection transaction %s belongs to another account" ;;
        ts ← eligibleTransactions request rest ;
        Ok (t :: ts)
  end.

Definition projectionTransactionLess (left right : Transaction) : bool :=
  if negb (TimeEqual left.(tx_EffectiveAt) right.(tx_EffectiveAt))
  then Before left.(tx_EffectiveAt) right.(tx_EffectiveAt)
  else if negb (TimeEqual left.(tx_ObservedAt) right.(tx_ObservedAt))
  then Before left.(tx_ObservedAt) right.(tx_ObservedAt)
  else string_lt (uuid_string left.(tx_ID)) (uuid_string right.(tx_ID)).

Fixpoint collectMechanics (eligible : gset UUID) (candidates : list ProjectionMechanics)
    (result : gmap UUID ProjectionMechanics) : outcome (gmap UUID ProjectionMechanics) :=
  match candidates with
  | [] => Ok result
  | m :: rest =>
      if bool_decide (m.(mech_TransactionID) ∈ eligible) then
        wrap "projection mechanics for transaction %s: %w" (ProjectionMechanics_Validate m) ;;
        reject (negb (is_nil (result !! m.(mech_TransactionID))))
          "duplicate projection mechanics for transaction %s" ;;
        collectMechanics eligible rest (<[m.(mech_TransactionID) := m]> result)
      else collectMechanics eligible rest result
  end.

Definition eligibleProjectionMechanics (candidates : list ProjectionMechanics) (transactions : list Transaction) :
    outcome (gmap UUID ProjectionMechanics) :=
  collectMechanics (list_to_set (tx_ID <$> transactions)) candidates ∅.

(** ** Reading postings *)

Fixpoint cashAndCosts (currency : string) (postings : list Posting) (cash fees rebates : dec) :
    outcome (dec * dec * dec) :=
  match postings with
  | [] => Ok (cash, fees, rebates)
  | p :: rest =>
      reject ((p.(post_UnitKind) ==? UnitKindCurrency) && (p.(post_Unit) !=? currency))
        "transaction %s contains foreign currency %s" ;;
      if p.(post_LedgerAccount) ==? "asset:cash" then
        reject (p.(post_UnitKind) !=? UnitKindCurrency) "transaction %s cash posting has a non-currency unit" ;;
        cashAndCosts currency rest (Add cash p.(post_Amount)) fees rebates
      else if p.(post_LedgerAccount) ==? "expense:fees" then
        reject ((p.(post_UnitKind) !=? UnitKindCurrency) || negb (IsPositive p.(post_Amount)))
          "transaction %s fee posting is invalid" ;;
        cashAndCosts currency rest cash (Add fees p.(post_Amount)) rebates
      else if p.(post_LedgerAccount) ==? "income:rebates" then
        reject ((p.(post_UnitKind) !=? UnitKindCurrency) || negb (IsNegative p.(post_Amount)))
          "transaction %s rebate posting is invalid" ;;
        cashAndCosts currency rest cash fees (Add rebates (Abs p.(post_Amount)))
      else cashAndCosts currency rest cash fees rebates
  end.

Definition projectionCashAndCosts (t : Transaction) (currency : string) : outcome (dec * dec * dec) :=
  cashAndCosts currency t.(tx_Postings) Zero Zero Zero.

Fixpoint findMovement (key : string) (instrumentID : UUID) (postings : list Posting) : outcome dec :=
  match postings with
  | [] => Err (Errorf "transaction %s is missing posting %q")
  | p :: rest =>
      if p.(post_IdempotencyKey) !=? key then findMovement key instrumentID rest
      else
        reject ((p.(post_UnitKind) !=? UnitKindInstrument) || (p.(post_Unit) !=? uuid_string instrumentID) ||
                negb (HasPrefix p.(post_LedgerAccount) "asset:"))
          "transaction %s posting %q does not match canonical instrument mechanics" ;;
        Ok p.(post_Amount)
  end.

Definition projectionInstrumentMovement (t : Transaction) (key : string) (instrumentID : UUID) : outcome dec :=
  findMovement key instrumentID t.(tx_Postings).

Definition projectionHasAssetInventory (t : Transaction) : bool :=
  existsb (fun p => (p.(post_UnitKind) ==? UnitKindInstrument) && HasPrefix p.(post_LedgerAccount) "asset:")
    t.(tx_Postings).

(** ** FIFO matching *)

(** Whether the scans skip a lot. *)
Definition lotSkipped (instrumentID : UUID) (movement : dec) (lot : ProjectionLot) : bool :=
  (lot.(lot_InstrumentID) !=? instrumentID) || IsZero lot.(lot_RemainingQuantity) ||
  (Sign lot.(lot_RemainingQuantity) =? Sign movement)%Z.

(** [decimal.NewFromInt(int64(movement.Sign())).Mul(quantity)] *)
Definition signedPart (movement quantity : dec) : dec := Mul (NewFromInt (Sign movement)) quantity.

Record closeSegment := MkCloseSegment { seg_lotIndex : nat; seg_quantity : dec }.

(** First loop of [applyMovement]: which lots are consumed, and by how much. *)
Fixpoint collectSegments (instrumentID : UUID) (movement : dec) (index : nat) (lots : list ProjectionLot)
    (remainingMovement : dec) : list closeSegment * dec :=
  match lots with
  | [] => ([], remainingMovement)
  | lot :: rest =>
      if lotSkipped instrumentID movement lot
      then collectSegments instrumentID movement (S index) rest remainingMovement
      else
        let closeQuantity := Min (Abs lot.(lot_RemainingQuantity)) (Abs remainingMovement) in
        let segment := MkCloseSegment index closeQuantity in
        let remainingMovement := Sub remainingMovement (signedPart movement closeQuantity) in
        if IsZero remainingMovement then ([segment], remainingMovement)
        else
          let '(segments, final) := collectSegments instrumentID movement (S index) rest remainingMovement in
          (segment :: segments, final)
  end.

(** [allocateProjectionAmount]: the amount, and the new contents of the two
    pointers. *)
Definition allocateProjectionAmount (total quantity totalQuantity remainingAmount remainingQuantity : dec)
    (final : bool) : outcome (dec * dec * dec) :=
  if final then Ok (remainingAmount, Zero, Zero)
  else
    quotient ← checked_Div (Mul total quantity) totalQuantity ;
    let allocated := Round quotient 12 in
    Ok (allocated, Sub remainingAmount allocated, Sub remainingQuantity quantity).

Definition set_remaining (lot : ProjectionLot) (quantity cash : dec) : ProjectionLot :=
  {| lot_ID := lot.(lot_ID);
     lot_InstrumentID := lot.(lot_InstrumentID);
     lot_OpeningTransactionID := lot.(lot_OpeningTransactionID);
     lot_OpeningOriginType := lot.(lot_OpeningOriginType);
     lot_OpeningOriginID := lot.(lot_OpeningOriginID);
     lot_OpeningReferenceType := lot.(lot_OpeningReferenceType);
     lot_OpeningReferenceID := lot.(lot_OpeningReferenceID);
     lot_OpenedAt := lot.(lot_OpenedAt);
     lot_Quantity := lot.(lot_Quantity);
     lot_RemainingQuantity := quantity;
     lot_OpeningCash := lot.(lot_OpeningCash);
     lot_RemainingOpeningCash := cash;
     lot_MarkMultiplier := lot.(lot_MarkMultiplier) |}.

(** The opening cash released by closing [quantity] of a lot, and the lot that
    is left; both loops of the file do this. *)
Definition consumeLot (movement quantity : dec) (lot : ProjectionLot) : outcome (dec * ProjectionLot) :=
  openingCash ←
    (if negb (Equal quantity (Abs lot.(lot_RemainingQuantity))) then
       quotient ← checked_Div (Mul lot.(lot_RemainingOpeningCash) quantity) (Abs lot.(lot_RemainingQuantity)) ;
       Ok (Round quotient 12)
     else Ok lot.(lot_RemainingOpeningCash)) ;
  let remaining := Add lot.(lot_RemainingQuantity) (signedPart movement quantity) in
  let remainingCash := Sub lot.(lot_RemainingOpeningCash) openingCash in
  Ok (openingCash, set_remaining lot remaining (if IsZero remaining then Zero else remainingCash)).

Definition newMatch (t : Transaction) (m : ProjectionMechanics) (lot : ProjectionLot) (ordinal : nat)
    (instrumentID : UUID) (quantity openingCash closingCash realized : dec) (disposition : string) :
    ProjectionMatch :=
  {| match_ID := DeterministicUUID "portfolio-projection-match"
       [uuid_string lot.(lot_ID); uuid_string t.(tx_ID); Itoa (N.of_nat ordinal)];
     match_LotID := lot.(lot_ID);
     match_InstrumentID := instrumentID;
     match_ClosingTransactionID := t.(tx_ID);
     match_OpeningOriginType := lot.(lot_OpeningOriginType);
     match_OpeningOriginID := lot.(lot_OpeningOriginID);
     match_OpeningReferenceType := lot.(lot_OpeningReferenceType);
     match_OpeningReferenceID := lot.(lot_OpeningReferenceID);
     match_ClosingOriginType := m.(mech_ExecutionOriginType);
     match_ClosingOriginID := m.(mech_ExecutionOriginID);
     match_ClosingReferenceType := m.(mech_ReferenceType);
     match_ClosingReferenceID := m.(mech_ReferenceID);
     match_ClosedAt := t.(tx_EffectiveAt);
     match_Quantity := quantity;
     match_OpeningCash := openingCash;
     match_ClosingCash := closingCash;
     match_RealizedPnL := realized;
     match_Disposition := disposition |}.

Definition set_lots (s : projectionState) (lots : list ProjectionLot) : projectionState :=
  MkProjectionState lots s.(st_matches) s.(st_activity) s.(st_cash) s.(st_netCapital) s.(st_fees) s.(st_rebates)
    s.(st_realized).
Definition add_match (s : projectionState) (m : ProjectionMatch) : projectionState :=
  MkProjectionState s.(st_lots) (s.(st_matches) ++ [m]) s.(st_activity) s.(st_cash) s.(st_netCapital) s.(st_fees)
    s.(st_rebates) s.(st_realized).
Definition add_realized (s : projectionState) (amount : dec) : projectionState :=
  MkProjectionState s.(st_lots) s.(st_matches) s.(st_activity) s.(st_cash) s.(st_netCapital) s.(st_fees)
    s.(st_rebates) (Add s.(st_realized) amount).
Definition touch (s : projectionState) (instrumentID : UUID) : projectionState :=
  MkProjectionState s.(st_lots) s.(st_matches) ({[ instrumentID ]} ∪ s.(st_activity)) s.(st_cash) s.(st_netCapital)
    s.(st_fees) s.(st_rebates) s.(st_realized).

(** Second loop of [applyMovement]. [index] is [segmentIndex], which always
    equals [matchOrdinal]; the result carries what is left in [remainingCash]. *)
Fixpoint closeSegments (t : Transaction) (m : ProjectionMechanics) (instrumentID : UUID)
    (movement eventCash : dec) (disposition : string) (segmentCount index : nat)
    (segments : list closeSegment) (remainingCash remainingQuantity : dec) (state : projectionState) :
    outcome (dec * projectionState) :=
  match segments with
  | [] => Ok (remainingCash, state)
  | segment :: rest =>
      '(closingCash, remainingCash, remainingQuantity) ←
        allocateProjectionAmount eventCash segment.(seg_quantity) (Abs movement) remainingCash remainingQuantity
          (index =? segmentCount - 1)%nat ;
      match state.(st_lots) !! segment.(seg_lotIndex) with
      | None => Panic IndexOutOfRange
      | Some lot =>
          '(openingCash, lot') ← consumeLot movement segment.(seg_quantity) lot ;
          let realized := Add openingCash closingCash in
          let state := set_lots state (<[segment.(seg_lotIndex) := lot']> state.(st_lots)) in
          let state := add_realized state realized in
          let state := add_match state
            (newMatch t m lot' index instrumentID segment.(seg_quantity) openingCash closingCash realized disposition) in
          closeSegments t m instrumentID movement eventCash disposition segmentCount (S index) rest
            remainingCash remainingQuantity state
      end
  end.

Definition openLot (t : Transaction) (m : ProjectionMechanics) (instrumentID : UUID)
    (quantity cash multiplier : dec) (state : projectionState) : projectionState :=
  let segment := length (filter (fun lot => lot.(lot_OpeningTransactionID) = t.(tx_ID) /\
                                            lot.(lot_InstrumentID) = instrumentID) state.(st_lots)) in
  let lot := {|
    lot_ID := DeterministicUUID "portfolio-projection-lot"
      [uuid_string t.(tx_ID); uuid_string instrumentID; Itoa (N.of_nat segment)];
    lot_InstrumentID := instrumentID;
    lot_OpeningTransactionID := t.(tx_ID);
    lot_OpeningOriginType := m.(mech_ExecutionOriginType);
    lot_OpeningOriginID := m.(mech_ExecutionOriginID);
    lot_OpeningReferenceType := m.(mech_ReferenceType);
    lot_OpeningReferenceID := m.(mech_ReferenceID);
    lot_OpenedAt := t.(tx_EffectiveAt);
    lot_Quantity := quantity;
    lot_RemainingQuantity := quantity;
    lot_OpeningCash := cash;
    lot_RemainingOpeningCash := cash;
    lot_MarkMultiplier := multiplier |} in
  set_lots state (state.(st_lots) ++ [lot]).

Definition applyMovement (t : Transaction) (m : ProjectionMechanics) (instrumentID : UUID)
    (movement eventCash multiplier : dec) (disposition : string) (requireExactClose : bool)
    (state : projectionState) : outcome projectionState :=
  reject (IsZero movement || (instrumentID ==? Nil) || negb (IsPositive multiplier))
    "transaction %s has invalid inventory movement mechanics" ;;
  let '(segments, remainingMovement) := collectSegments instrumentID movement 0 state.(st_lots) movement in
  reject (requireExactClose && negb (IsZero remainingMovement))
    "settlement transaction %s does not exactly close existing signed inventory" ;;
  let segmentCount := (length segments + (if IsZero remainingMovement then 0 else 1))%nat in
  reject (segmentCount =? 0)%nat "transaction %s produced no inventory segment" ;;
  '(remainingCash, state) ←
    closeSegments t m instrumentID movement eventCash disposition segmentCount 0 segments eventCash (Abs movement)
      state ;
  let state :=
    if negb (IsZero remainingMovement)
    then openLot t m instrumentID remainingMovement remainingCash multiplier state
    else state in
  Ok (touch state instrumentID).

(** ** Physical exercise and assignment

    The loop updates the lots in place; the model returns the updated list
    with the unconsumed movement, the transferred cash and the new matches. *)
Fixpoint transferLots (t : Transaction) (m : ProjectionMechanics) (optionMovement : dec) (ordinal : nat)
    (lots : list ProjectionLot) (remaining transferredCash : dec) :
    outcome (list ProjectionLot * dec * dec * list ProjectionMatch) :=
  match lots with
  | [] => Ok ([], remaining, transferredCash, [])
  | lot :: rest =>
      if lotSkipped m.(mech_InstrumentID) optionMovement lot then
        '(lots', remaining, transferredCash, matches) ←
          transferLots t m optionMovement ordinal rest remaining transferredCash ;
        Ok (lot :: lots', remaining, transferredCash, matches)
      else
        let closeQuantity := Min (Abs lot.(lot_RemainingQuantity)) (Abs remaining) in
        '(openingCash, lot') ← consumeLot optionMovement closeQuantity lot ;
        let transferredCash := Add transferredCash openingCash in
        let newmatch := newMatch t m lot' ordinal m.(mech_InstrumentID) closeQuantity openingCash (Neg openingCash)
                          Zero "basis_transfer" in
        let remaining := Sub remaining (signedPart optionMovement closeQuantity) in
        if IsZero remaining then Ok (lot' :: rest, remaining, transferredCash, [newmatch])
        else
          '(lots', remaining, transferredCash, matches) ←
            transferLots t m optionMovement (S ordinal) rest remaining transferredCash ;
          Ok (lot' :: lots', remaining, transferredCash, newmatch :: matches)
  end.

Definition applyPhysicalOption (t : Transaction) (m : ProjectionMechanics) (strikeCash : dec)
    (state : projectionState) : outcome projectionState :=
  optionMovement ← projectionInstrumentMovement t "option-close" m.(mech_InstrumentID) ;
  underlyingMovement ← projectionInstrumentMovement t "underlying-delivery" m.(mech_SecondaryInstrumentID) ;
  position ← deref m.(mech_PositionQuantity) ;
  deliverable ← deref m.(mech_DeliverableQuantity) ;
  let longDelivery := Mul position deliverable in
  let expectedUnderlyingMovement :=
    if m.(mech_OptionContractType) ==? OptionContractPut then Neg longDelivery else longDelivery in
  strike ← deref m.(mech_StrikePrice) ;
  let expectedStrikeCash := Neg (Mul expectedUnderlyingMovement strike) in
  reject (negb (Equal optionMovement (Neg position)) ||
          negb (Equal underlyingMovement expectedUnderlyingMovement) ||
          negb (Equal strikeCash expectedStrikeCash))
    "physical option transaction %s postings do not match immutable terms" ;;
  '(lots, remaining, transferredCash, matches) ←
    transferLots t m optionMovement 0 state.(st_lots) optionMovement Zero ;
  reject (negb (IsZero remaining))
    "physical option transaction %s does not exactly close existing signed option inventory" ;;
  let state := foldl add_match (set_lots state lots) matches in
  let state := touch state m.(mech_InstrumentID) in
  applyMovement t m m.(mech_SecondaryInstrumentID) underlyingMovement (Add strikeCash transferredCash)
    m.(mech_SecondaryMultiplier) "physical_delivery" false state.

(** ** One economic transaction *)

Definition applyEconomicTransaction (t : Transaction) (m : ProjectionMechanics) (cash : dec)
    (state : projectionState) : outcome projectionState :=
  reject ((m.(mech_ExecutionOriginType) ==? ExecutionOriginOther "") || (m.(mech_ExecutionOriginID) ==? "") ||
          (m.(mech_ReferenceType) !=? t.(tx_ReferenceType)) || (m.(mech_ReferenceID) !=? t.(tx_ReferenceID)))
    "transaction %s mechanics provenance does not match ledger reference" ;;
  match m.(mech_EventType) with
  | EconomicEventFillBuy | EconomicEventFillSell =>
      let buy := m.(mech_EventType) ==? EconomicEventFillBuy in
      movement ← projectionInstrumentMovement t "inventory" m.(mech_InstrumentID) ;
      reject (buy && negb (IsPositive movement) || negb buy && negb (IsNegative movement))
        "fill transaction %s inventory direction is invalid" ;;
      quantity ← deref m.(mech_Quantity) ;
      reject (negb (Equal (Abs movement) quantity))
        "fill transaction %s inventory does not match normalization quantity" ;;
      price ← deref m.(mech_Price) ;
      let gross := Mul (Mul quantity price) m.(mech_PrimaryMultiplier) in
      let expectedCash := if buy then Neg gross else gross in
      let expectedCash :=
        match m.(mech_CostAmount) with
        | Some amount =>
            if m.(mech_CostKind) ==? CostKindFee then Sub expectedCash amount else Add expectedCash amount
        | None => expectedCash
        end in
      reject (negb (Equal cash expectedCash)) "fill transaction %s cash does not match normalization mechanics" ;;
      applyMovement t m m.(mech_InstrumentID) movement cash m.(mech_PrimaryMultiplier) "trade" false state
  | EconomicEventFee | EconomicEventRebate =>
      let fee := m.(mech_EventType) ==? EconomicEventFee in
      reject (projectionHasAssetInventory t) "standalone cost transaction %s contains inventory" ;;
      reject (fee && negb (IsNegative cash) || negb fee && negb (IsPositive cash))
        "standalone cost transaction %s cash direction is invalid" ;;
      amount ← deref m.(mech_CostAmount) ;
      let expectedCash := if fee then Neg amount else amount in
      reject (negb (Equal cash expectedCash))
        "standalone cost transaction %s cash does not match normalization amount" ;;
      Ok (add_realized state cash)
  | EconomicEventOptionCashSettlement | EconomicEventOptionExpiration | EconomicEventPredictionPayout =>
      movement ← projectionInstrumentMovement t "inventory-settlement" m.(mech_InstrumentID) ;
      position ← deref m.(mech_PositionQuantity) ;
      reject (negb (Equal movement (Neg position)))
        "settlement transaction %s postings do not match normalization mechanics" ;;
      settlementPrice ← deref m.(mech_SettlementPrice) ;
      reject (negb (Equal cash (Mul (Mul position settlementPrice) m.(mech_PrimaryMultiplier))))
        "settlement transaction %s postings do not match normalization mechanics" ;;
      applyMovement t m m.(mech_InstrumentID) movement cash m.(mech_PrimaryMultiplier) "settlement" true state
  | EconomicEventOptionExercise | EconomicEventOptionAssignment => applyPhysicalOption t m cash state
  | EconomicEventOther _ => Err (Errorf "ledger transaction type %q is unsupported by projection %s")
  end.

Definition record_cash (state : projectionState) (cash fees rebates : dec) : projectionState :=
  MkProjectionState state.(st_lots) state.(st_matches) state.(st_activity) (Add state.(st_cash) cash)
    state.(st_netCapital) (Add state.(st_fees) fees) (Add state.(st_rebates) rebates) state.(st_realized).

Definition add_capital (state : projectionState) (cash : dec) : projectionState :=
  MkProjectionState state.(st_lots) state.(st_matches) state.(st_activity) state.(st_cash)
    (Add state.(st_netCapital) cash) state.(st_fees) state.(st_rebates) state.(st_realized).

(** Body of the replay loop of [BuildPortfolioProjection]. *)
Definition replayTransaction (currency : string) (mechanicsByTransaction : gmap UUID ProjectionMechanics)
    (t : Transaction) (state : projectionState) : outcome projectionState :=
  '(cash, fees, rebates) ← projectionCashAndCosts t currency ;
  let state := record_cash state cash fees rebates in
  let deposit := t.(tx_EventType) ==? "capital_flow.deposit" in
  let withdrawal := t.(tx_EventType) ==? "capital_flow.withdrawal" in
  if deposit || withdrawal then
    reject (negb (is_nil (mechanicsByTransaction !! t.(tx_ID))))
      "capital transaction %s unexpectedly has economic mechanics" ;;
    reject (projectionHasAssetInventory t || IsZero cash)
      "capital transaction %s has invalid cash or inventory shape" ;;
    reject (deposit && negb (IsPositive cash) || withdrawal && negb (IsNegative cash))
      "capital transaction %s cash direction is invalid" ;;
    Ok (add_capital state cash)
  else
    match mechanicsByTransaction !! t.(tx_ID) with
    | None => Err (Errorf "economic transaction %s lacks immutable normalization mechanics")
    | Some m =>
        reject (EconomicEventType_string m.(mech_EventType) !=? t.(tx_EventType))
          "transaction %s event type does not match mechanics" ;;
        reject (m.(mech_CashCurrency) !=? currency) "transaction %s mechanics currency does not match account" ;;
        applyEconomicTransaction t m cash state
    end.

Fixpoint replay (currency : string) (mechanicsByTransaction : gmap UUID ProjectionMechanics)
    (transactions : list Transaction) (state : projectionState) : outcome projectionState :=
  match transactions with
  | [] => Ok state
  | t :: rest =>
      state ← replayTransaction currency mechanicsByTransaction t state ;
      replay currency mechanicsByTransaction rest state
  end.

Definition emptyState : projectionState :=
  MkProjectionState [] [] ∅ ZeroValue ZeroValue ZeroValue ZeroValue ZeroValue.

(** ** finalize *)

Definition projectionMarkLater (left right : MarkObservation) : bool :=
  if negb (TimeEqual left.(mark_EffectiveAt) right.(mark_EffectiveAt))
  then After left.(mark_EffectiveAt) right.(mark_EffectiveAt)
  else if negb (TimeEqual left.(mark_ObservedAt) right.(mark_ObservedAt))
  then After left.(mark_ObservedAt) right.(mark_ObservedAt)
  else string_lt (uuid_string right.(mark_ID)) (uuid_string left.(mark_ID)).

Definition projectionMarkFromObservation (mark : MarkObservation) : ProjectionMark :=
  {| pmark_ID := mark.(mark_ID);
     pmark_InstrumentID := mark.(mark_InstrumentID);
     pmark_Price := mark.(mark_Price);
     pmark_PriceCurrency := mark.(mark_PriceCurrency);
     pmark_Source := mark.(mark_Source);
     pmark_SourceNamespace := mark.(mark_SourceNamespace);
     pmark_SourceObservationID := mark.(mark_SourceObservationID);
     pmark_SourceRevision := mark.(mark_SourceRevision);
     pmark_EffectiveAt := mark.(mark_EffectiveAt);
     pmark_ObservedAt := mark.(mark_ObservedAt);
     pmark_Metadata := mark.(mark_Metadata) |}.

(** The condition under which the selection loop skips a candidate. *)
Definition markIneligible (request : ProjectionRequest) (currency : string) (mark : MarkObservation) : bool :=
  (mark.(mark_PriceCurrency) !=? currency) || (mark.(mark_Source) !=? request.(req_MarkSource)) ||
  (mark.(mark_SourceNamespace) !=? request.(req_MarkNamespace)) ||
  After mark.(mark_EffectiveAt) request.(req_AsOf) || After mark.(mark_ObservedAt) request.(req_AsOf) ||
  (request.(req_MaxMarkAge) <? TimeSub request.(req_AsOf) mark.(mark_EffectiveAt))%Z.

Fixpoint selectMarks (request : ProjectionRequest) (currency : string) (candidates : list (option MarkObservation))
    (selected : gmap UUID MarkObservation) : outcome (gmap UUID MarkObservation) :=
  match candidates with
  | [] => Ok selected
  | None :: _ => Err (Errorf "projection mark cannot be nil")
  | Some candidate :: rest =>
      wrap "projection mark %s: %w" (MarkObservation_Validate candidate) ;;
      if markIneligible request currency candidate then selectMarks request currency rest selected
      else
        let later :=
          match selected !! candidate.(mark_InstrumentID) with
          | None => true
          | Some current => projectionMarkLater candidate current
          end in
        selectMarks request currency rest
          (if later then <[candidate.(mark_InstrumentID) := candidate]> selected else selected)
  end.

Definition addLotToPosition (instrumentID : UUID) (p : ProjectionPosition) (lot : ProjectionLot) :
    ProjectionPosition :=
  if lot.(lot_InstrumentID) !=? instrumentID then p else
  {| pos_InstrumentID := p.(pos_InstrumentID);
     pos_Open := p.(pos_Open);
     pos_Quantity := Add p.(pos_Quantity) lot.(lot_RemainingQuantity);
     pos_RemainingOpeningCash := Add p.(pos_RemainingOpeningCash) lot.(lot_RemainingOpeningCash);
     pos_RealizedPnL := p.(pos_RealizedPnL);
     pos_MarketValue := p.(pos_MarketValue);
     pos_UnrealizedPnL := p.(pos_UnrealizedPnL);
     pos_MarkObservationID := p.(pos_MarkObservationID);
     pos_OpenLotCount :=
       if IsZero lot.(lot_RemainingQuantity) then p.(pos_OpenLotCount) else S p.(pos_OpenLotCount) |}.

Definition emptyPosition (instrumentID : UUID) : ProjectionPosition :=
  MkProjectionPosition instrumentID false ZeroValue ZeroValue ZeroValue ZeroValue ZeroValue Nil 0.

Definition positionRealized (instrumentID : UUID) (matches : list ProjectionMatch) : dec :=
  foldl (fun acc m => if m.(match_InstrumentID) ==? instrumentID then Add acc m.(match_RealizedPnL) else acc)
    ZeroValue matches.

Definition positionMarketValue (instrumentID : UUID) (price : dec) (lots : list ProjectionLot) : dec :=
  foldl (fun acc lot =>
           if (lot.(lot_InstrumentID) ==? instrumentID) && negb (IsZero lot.(lot_RemainingQuantity))
           then Add acc (Mul (Mul lot.(lot_RemainingQuantity) price) lot.(lot_MarkMultiplier))
           else acc)
    ZeroValue lots.

(** Body of the loop over the sorted instruments. *)
Definition buildPosition (state : projectionState) (selected : gmap UUID MarkObservation) (instrumentID : UUID) :
    outcome (ProjectionPosition * option ProjectionMark) :=
  let p := foldl (addLotToPosition instrumentID) (emptyPosition instrumentID) state.(st_lots) in
  let realized := positionRealized instrumentID state.(st_matches) in
  let open := negb (IsZero p.(pos_Quantity)) in
  if open then
    match selected !! instrumentID with
    | None => Err (Errorf "open instrument %s has no fresh canonical mark for %s/%s")
    | Some mark =>
        let marketValue := positionMarketValue instrumentID mark.(mark_Price) state.(st_lots) in
        Ok (MkProjectionPosition instrumentID open p.(pos_Quantity) p.(pos_RemainingOpeningCash) realized
              marketValue (Add marketValue p.(pos_RemainingOpeningCash)) mark.(mark_ID) p.(pos_OpenLotCount),
            Some (projectionMarkFromObservation mark))
    end
  else
    Ok (MkProjectionPosition instrumentID open p.(pos_Quantity) p.(pos_RemainingOpeningCash) realized
          ZeroValue ZeroValue Nil p.(pos_OpenLotCount), None).

Fixpoint buildPositions (state : projectionState) (selected : gmap UUID MarkObservation) (ids : list UUID)
    (marketValue unrealized : dec) :
    outcome (list ProjectionMark * list ProjectionPosition * dec * dec) :=
  match ids with
  | [] => Ok ([], [], marketValue, unrealized)
  | id :: rest =>
      '(p, mark) ← buildPosition state selected id ;
      let marketValue := if p.(pos_Open) then Add marketValue p.(pos_MarketValue) else marketValue in
      let unrealized := if p.(pos_Open) then Add unrealized p.(pos_UnrealizedPnL) else unrealized in
      '(marks, positions, marketValue, unrealized) ←
        buildPositions state selected rest marketValue unrealized ;
      Ok (option_list mark ++ marks, p :: positions, marketValue, unrealized)
  end.

Definition uuidTextLess (left right : UUID) : bool := string_lt (uuid_string left) (uuid_string right).

Definition finalize (request : ProjectionRequest) (currency : string) (candidates : list (option MarkObservation))
    (state : projectionState) : outcome (list ProjectionMark * list ProjectionPosition * ProjectionTotals) :=
  selected ← selectMarks request currency candidates ∅ ;
  let instrumentIDs := sort_slice uuidTextLess (elements state.(st_activity)) in
  '(marks, positions, marketValue, unrealized) ← buildPositions state selected instrumentIDs Zero Zero ;
  let marks := sort_slice (fun l r => uuidTextLess l.(pmark_InstrumentID) r.(pmark_InstrumentID)) marks in
  let equity := Add state.(st_cash) marketValue in
  let totals := {|
    tot_Cash := state.(st_cash);
    tot_NetCapital := state.(st_netCapital);
    tot_Fees := state.(st_fees);
    tot_Rebates := state.(st_rebates);
    tot_RealizedPnL := state.(st_realized);
    tot_UnrealizedPnL := unrealized;
    tot_MarketValue := marketValue;
    tot_Equity := equity;
    tot_TotalPnL := Sub equity state.(st_netCapital) |} in
  reject (negb (Equal (Add totals.(tot_RealizedPnL) totals.(tot_UnrealizedPnL)) totals.(tot_TotalPnL)))
    "projection P&L equation failed: realized %s + unrealized %s != total %s" ;;
  Ok (marks, positions, totals).

End projection.
