(* ===== verification/ProjectionPayload.v ===== *)
(** * Canonical bytes, checksums and the projection itself
    (internal/ledger/projection.go)

    The canonical JSON of the replay input and of its result, their SHA-256
    checksums, [BuildPortfolioProjection] and the checkpoint envelope. *)

From S2P Require Import Prelude GoStd Externals EconomicId Instrument Transaction SourceEvent Normalization Projection.
From Stdlib Require Import Ascii.

Local Open Scope go_scope.

Definition UnitKind_string (k : UnitKind) : string :=
  match k with UnitKindCurrency => "currency" | UnitKindInstrument => "instrument" | UnitKindOther t => t end.
Definition CostKind_string (k : CostKind) : string :=
  match k with CostKindFee => "fee" | CostKindRebate => "rebate" | CostKindOther t => t end.
Definition OptionContractType_string (t : OptionContractType) : string :=
  match t with OptionContractCall => "call" | OptionContractPut => "put" | OptionContractOther t => t end.

(** ** json.Marshal of structs and slices

    A struct is printed with its fields in declaration order and no white
    space; the values below are already encoded. *)
Definition dquote : string := String (byte_of 34) EmptyString.

Fixpoint comma_separated (items : list string) : string :=
  match items with
  | [] => EmptyString
  | [item] => item
  | item :: rest => (item +:+ "," +:+ comma_separated rest)%string
  end.

Definition json_struct (fields : list (string * string)) : string :=
  ("{" +:+ comma_separated ((fun '(k, v) => dquote +:+ k +:+ dquote +:+ ":" +:+ v)%string <$> fields) +:+ "}")%string.
Definition json_slice (items : list string) : string := ("[" +:+ comma_separated items +:+ "]")%string.
Definition json_bool (b : bool) : string := if b then "true" else "false".
Definition json_nat (n : nat) : string := Itoa (N.of_nat n).

Section payload.
Context {E : Externals}.

Definition str (k v : string) : string * string := (k, json_marshal_string v).

Definition projectionTime (value : Time) : string := format_micro (utc_micro value).
Definition projectionUUID (value : UUID) : string := if value ==? Nil then "" else uuid_string value.
Definition projectionDecimalPointer (value : option dec) : string :=
  match value with Some d => DecimalString d | None => "" end.
Definition sha256Hex (value : string) : string := EncodeToString (Sum256 value).

Definition canonicalJSON (raw : string) : outcome string :=
  match json_decode raw with
  | None => Err (Errorf "decode canonical JSON: %w")
  | Some (value, rest) =>
      reject (negb (json_eof rest)) "canonical JSON contains trailing values or syntax: %w" ;;
      Ok (json_marshal value)
  end.

(** [for ... { x, err := f(...); if err != nil { return }; r = append(r, x) }] *)
Fixpoint map_outcome {A B} (f : A -> outcome B) (l : list A) : outcome (list B) :=
  match l with
  | [] => Ok []
  | x :: rest => y ← f x ; ys ← map_outcome f rest ; Ok (y :: ys)
  end.

(** ** Input checksum *)

Definition postingLess (left right : Posting) : bool :=
  if left.(post_IdempotencyKey) !=? right.(post_IdempotencyKey)
  then string_lt left.(post_IdempotencyKey) right.(post_IdempotencyKey)
  else string_lt (uuid_string left.(post_ID)) (uuid_string right.(post_ID)).

Definition canonicalPosting (p : Posting) : outcome string :=
  metadata ← canonicalJSON p.(post_Metadata) ;
  Ok (json_struct
    [str "id" (uuid_string p.(post_ID)); str "idempotency_key" p.(post_IdempotencyKey);
     str "ledger_account" p.(post_LedgerAccount); str "unit_kind" (UnitKind_string p.(post_UnitKind));
     str "unit" p.(post_Unit); str "amount" (DecimalString p.(post_Amount)); ("metadata", metadata)]).

Definition canonicalTransaction (t : Transaction) : outcome string :=
  metadata ← canonicalJSON t.(tx_Metadata) ;
  postings ← map_outcome canonicalPosting (sort_slice postingLess t.(tx_Postings)) ;
  Ok (json_struct
    [str "id" (uuid_string t.(tx_ID)); str "account_id" (uuid_string t.(tx_AccountID));
     str "event_type" t.(tx_EventType); str "idempotency_key" t.(tx_IdempotencyKey);
     str "origin_type" t.(tx_OriginType); str "origin_id" t.(tx_OriginID);
     str "reference_type" t.(tx_ReferenceType); str "reference_id" t.(tx_ReferenceID);
     str "effective_at" (projectionTime t.(tx_EffectiveAt)); str "observed_at" (projectionTime t.(tx_ObservedAt));
     ("metadata", metadata); ("postings", json_slice postings)]).

Definition canonicalMechanics (m : ProjectionMechanics) : string :=
  json_struct
    [str "normalization_id" (uuid_string m.(mech_NormalizationID));
     str "source_event_id" (uuid_string m.(mech_SourceEventID));
     str "transaction_id" (uuid_string m.(mech_TransactionID));
     str "event_type" (EconomicEventType_string m.(mech_EventType));
     str "normalizer_version" m.(mech_NormalizerVersion);
     str "execution_origin_type" (ExecutionOriginType_string m.(mech_ExecutionOriginType));
     str "execution_origin_id" m.(mech_ExecutionOriginID);
     str "reference_type" m.(mech_ReferenceType); str "reference_id" m.(mech_ReferenceID);
     str "venue" m.(mech_Venue);
     str "instrument_id" (projectionUUID m.(mech_InstrumentID));
     str "secondary_instrument_id" (projectionUUID m.(mech_SecondaryInstrumentID));
     str "venue_contract_id" (projectionUUID m.(mech_VenueContractID));
     str "option_terms_id" (projectionUUID m.(mech_OptionTermsID));
     str "cash_currency" m.(mech_CashCurrency);
     str "quantity" (projectionDecimalPointer m.(mech_Quantity));
     str "price" (projectionDecimalPointer m.(mech_Price));
     str "cost_kind" (CostKind_string m.(mech_CostKind)); str "cost_currency" m.(mech_CostCurrency);
     str "cost_amount" (projectionDecimalPointer m.(mech_CostAmount));
     str "position_quantity" (projectionDecimalPointer m.(mech_PositionQuantity));
     str "settlement_price" (projectionDecimalPointer m.(mech_SettlementPrice));
     str "option_contract_type" (OptionContractType_string m.(mech_OptionContractType));
     str "strike_price" (projectionDecimalPointer m.(mech_StrikePrice));
     str "deliverable_quantity" (projectionDecimalPointer m.(mech_DeliverableQuantity));
     str "primary_multiplier" (DecimalString m.(mech_PrimaryMultiplier));
     str "secondary_multiplier" (DecimalString m.(mech_SecondaryMultiplier))].

Definition canonicalMark (mark : ProjectionMark) : outcome string :=
  metadata ← canonicalJSON mark.(pmark_Metadata) ;
  Ok (json_struct
    [str "id" (uuid_string mark.(pmark_ID)); str "instrument_id" (uuid_string mark.(pmark_InstrumentID));
     str "price" (DecimalString mark.(pmark_Price)); str "price_currency" mark.(pmark_PriceCurrency);
     str "source" mark.(pmark_Source); str "source_namespace" mark.(pmark_SourceNamespace);
     str "source_observation_id" mark.(pmark_SourceObservationID);
     str "source_revision" mark.(pmark_SourceRevision);
     str "effective_at" (projectionTime mark.(pmark_EffectiveAt));
     str "observed_at" (projectionTime mark.(pmark_ObservedAt)); ("metadata", metadata)]).

Definition canonicalProjectionMarks (marks : list ProjectionMark) : outcome (list string) :=
  map_outcome canonicalMark marks.

Definition projectionInputChecksum (request : ProjectionRequest) (currency : string)
    (transactions : list Transaction) (mechanics : gmap UUID ProjectionMechanics) (marks : list ProjectionMark) :
    outcome string :=
  canonicalTransactions ← map_outcome canonicalTransaction transactions ;
  let canonicalMechanicsRows :=
    canonicalMechanics <$> omap (fun t => mechanics !! t.(tx_ID)) transactions in
  canonicalMarks ← canonicalProjectionMarks marks ;
  Ok (sha256Hex (json_struct
    [str "version" PortfolioProjectionVersion; str "account_id" (uuid_string request.(req_AccountID));
     str "base_currency" currency; str "as_of" (projectionTime request.(req_AsOf));
     str "mark_source" request.(req_MarkSource); str "mark_namespace" request.(req_MarkNamespace);
     ("max_mark_age_microseconds", Itoa (Z.to_N (Microseconds request.(req_MaxMarkAge))));
     ("transactions", json_slice canonicalTransactions); ("mechanics", json_slice canonicalMechanicsRows);
     ("marks", json_slice canonicalMarks)])).

(** ** Output payload *)

Definition canonicalLot (lot : ProjectionLot) : string :=
  json_struct
    [str "id" (uuid_string lot.(lot_ID)); str "instrument_id" (uuid_string lot.(lot_InstrumentID));
     str "opening_transaction_id" (uuid_string lot.(lot_OpeningTransactionID));
     str "opening_origin_type" (ExecutionOriginType_string lot.(lot_OpeningOriginType));
     str "opening_origin_id" lot.(lot_OpeningOriginID);
     str "opening_reference_type" lot.(lot_OpeningReferenceType);
     str "opening_reference_id" lot.(lot_OpeningReferenceID);
     str "opened_at" (projectionTime lot.(lot_OpenedAt));
     str "quantity" (DecimalString lot.(lot_Quantity));
     str "remaining_quantity" (DecimalString lot.(lot_RemainingQuantity));
     str "opening_cash" (DecimalString lot.(lot_OpeningCash));
     str "remaining_opening_cash" (DecimalString lot.(lot_RemainingOpeningCash));
     str "mark_multiplier" (DecimalString lot.(lot_MarkMultiplier))].

Definition canonicalMatch (m : ProjectionMatch) : string :=
  json_struct
    [str "id" (uuid_string m.(match_ID)); str "lot_id" (uuid_string m.(match_LotID));
     str "instrument_id" (uuid_string m.(match_InstrumentID));
     str "closing_transaction_id" (uuid_string m.(match_ClosingTransactionID));
     str "opening_origin_type" (ExecutionOriginType_string m.(match_OpeningOriginType));
     str "opening_origin_id" m.(match_OpeningOriginID);
     str "opening_reference_type" m.(match_OpeningReferenceType);
     str "opening_reference_id" m.(match_OpeningReferenceID);
     str "closing_origin_type" (ExecutionOriginType_string m.(match_ClosingOriginType));
     str "closing_origin_id" m.(match_ClosingOriginID);
     str "closing_reference_type" m.(match_ClosingReferenceType);
     str "closing_reference_id" m.(match_ClosingReferenceID);
     str "closed_at" (projectionTime m.(match_ClosedAt));
     str "quantity" (DecimalString m.(match_Quantity));
     str "opening_cash" (DecimalString m.(match_OpeningCash));
     str "closing_cash" (DecimalString m.(match_ClosingCash));
     str "realized_pnl" (DecimalString m.(match_RealizedPnL));
     str "disposition" m.(match_Disposition)].

Definition canonicalPosition (p : ProjectionPosition) : string :=
  json_struct
    [str "instrument_id" (uuid_string p.(pos_InstrumentID)); ("open", json_bool p.(pos_Open));
     str "quantity" (DecimalString p.(pos_Quantity));
     str "remaining_opening_cash" (DecimalString p.(pos_RemainingOpeningCash));
     str "realized_pnl" (DecimalString p.(pos_RealizedPnL));
     str "market_value" (DecimalString p.(pos_MarketValue));
     str "unrealized_pnl" (DecimalString p.(pos_UnrealizedPnL));
     str "mark_observation_id" (projectionUUID p.(pos_MarkObservationID));
     ("open_lot_count", json_nat p.(pos_OpenLotCount))].

Definition canonicalTotals (t : ProjectionTotals) : string :=
  json_struct
    [str "cash" (DecimalString t.(tot_Cash)); str "net_capital" (DecimalString t.(tot_NetCapital));
     str "fees" (DecimalString t.(tot_Fees)); str "rebates" (DecimalString t.(tot_Rebates));
     str "realized_pnl" (DecimalString t.(tot_RealizedPnL));
     str "unrealized_pnl" (DecimalString t.(tot_UnrealizedPnL));
     str "market_value" (DecimalString t.(tot_MarketValue)); str "equity" (DecimalString t.(tot_Equity));
     str "total_pnl" (DecimalString t.(tot_TotalPnL))].

Definition marshalProjectionPayload (p : PortfolioProjection) : outcome string :=
  canonicalMarks ← canonicalProjectionMarks p.(proj_Marks) ;
  Ok (json_struct
    [str "checkpoint_id" (uuid_string p.(proj_CheckpointID)); str "projection_type" p.(proj_ProjectionType);
     str "version" p.(proj_Version); str "fifo" p.(proj_FIFO);
     str "account_id" (uuid_string p.(proj_AccountID)); str "base_currency" p.(proj_BaseCurrency);
     str "as_of" (projectionTime p.(proj_AsOf)); str "mark_source" p.(proj_MarkSource);
     str "mark_namespace" p.(proj_MarkNamespace);
     ("max_mark_age_microseconds", Itoa (Z.to_N (Microseconds p.(proj_MaxMarkAge))));
     str "through_transaction_id" (uuid_string p.(proj_ThroughTransactionID));
     ("transaction_count", json_nat p.(proj_TransactionCount)); str "input_checksum" p.(proj_InputChecksum);
     ("marks", json_slice canonicalMarks); ("lots", json_slice (canonicalLot <$> p.(proj_Lots)));
     ("matches", json_slice (canonicalMatch <$> p.(proj_Matches)));
     ("positions", json_slice (canonicalPosition <$> p.(proj_Positions)));
     ("totals", canonicalTotals p.(proj_Totals))]).

(** ** BuildPortfolioProjection *)

Definition projectionCheckpointID (accountID : UUID) (projectionType version : string) (asOf : Time)
    (inputChecksum : string) : UUID :=
  DeterministicUUID "portfolio-projection-checkpoint"
    [uuid_string accountID; projectionType; version; format_micro asOf; inputChecksum].

Definition set_payload (p : PortfolioProjection) (payloadBytes : string) : PortfolioProjection :=
  {| proj_CheckpointID := p.(proj_CheckpointID); proj_ProjectionType := p.(proj_ProjectionType);
     proj_Version := p.(proj_Version); proj_FIFO := p.(proj_FIFO); proj_AccountID := p.(proj_AccountID);
     proj_BaseCurrency := p.(proj_BaseCurrency); proj_AsOf := p.(proj_AsOf);
     proj_MarkSource := p.(proj_MarkSource); proj_MarkNamespace := p.(proj_MarkNamespace);
     proj_MaxMarkAge := p.(proj_MaxMarkAge); proj_ThroughTransactionID := p.(proj_ThroughTransactionID);
     proj_TransactionCount := p.(proj_TransactionCount); proj_InputChecksum := p.(proj_InputChecksum);
     proj_OutputChecksum := sha256Hex payloadBytes;
     proj_Marks := p.(proj_Marks); proj_Lots := p.(proj_Lots); proj_Matches := p.(proj_Matches);
     proj_Positions := p.(proj_Positions); proj_Totals := p.(proj_Totals);
     proj_PayloadBytes := payloadBytes |}.

Definition BuildPortfolioProjection (input : ProjectionInput) : outcome PortfolioProjection :=
  '(request, currency) ← normalizeProjectionBoundary input.(pin_Request) input.(pin_BaseCurrency) ;
  eligible ← eligibleTransactions request input.(pin_Transactions) ;
  reject (length eligible =? 0)%nat "projection requires at least one eligible ledger transaction" ;;
  let transactions := sort_slice projectionTransactionLess eligible in
  mechanicsByTransaction ← eligibleProjectionMechanics input.(pin_Mechanics) transactions ;
  state ← replay currency mechanicsByTransaction transactions emptyState ;
  '(marks, positions, totals) ← finalize request currency input.(pin_Marks) state ;
  inputChecksum ← projectionInputChecksum request currency transactions mechanicsByTransaction marks ;
  through ← match last transactions with Some t => Ok t.(tx_ID) | None => Panic IndexOutOfRange end ;
  let projection := {|
    proj_CheckpointID := projectionCheckpointID request.(req_AccountID) PortfolioProjectionType
                           PortfolioProjectionVersion request.(req_AsOf) inputChecksum;
    proj_ProjectionType := PortfolioProjectionType;
    proj_Version := PortfolioProjectionVersion;
    proj_FIFO := ProjectionFIFO;
    proj_AccountID := request.(req_AccountID);
    proj_BaseCurrency := currency;
    proj_AsOf := request.(req_AsOf);
    proj_MarkSource := request.(req_MarkSource);
    proj_MarkNamespace := request.(req_MarkNamespace);
    proj_MaxMarkAge := request.(req_MaxMarkAge);
    proj_ThroughTransactionID := through;
    proj_TransactionCount := length transactions;
    proj_InputChecksum := inputChecksum;
    proj_OutputChecksum := "";
    proj_Marks := marks;
    proj_Lots := state.(st_lots);
    proj_Matches := state.(st_matches);
    proj_Positions := positions;
    proj_Totals := totals;
    proj_PayloadBytes := "" |} in
  payloadBytes ← marshalProjectionPayload projection ;
  Ok (set_payload projection payloadBytes).

(** ** Checkpoint envelope *)

Definition Checkpoint (projection : option PortfolioProjection) : option ProjectionCheckpoint :=
  p ← projection ;
  Some {| cp_ID := p.(proj_CheckpointID);
          cp_AccountID := p.(proj_AccountID);
          cp_ProjectionType := p.(proj_ProjectionType);
          cp_ThroughTransactionID := p.(proj_ThroughTransactionID);
          cp_ProjectionVersion := p.(proj_Version);
          cp_AsOf := p.(proj_AsOf);
          cp_FIFO := p.(proj_FIFO);
          cp_BaseCurrency := p.(proj_BaseCurrency);
          cp_MarkSource := p.(proj_MarkSource);
          cp_MarkNamespace := p.(proj_MarkNamespace);
          cp_MaxMarkAge := p.(proj_MaxMarkAge);
          cp_TransactionCount := Z.of_nat p.(proj_TransactionCount);
          cp_MarkCount := Z.of_nat (length p.(proj_Marks));
          cp_LotCount := Z.of_nat (length p.(proj_Lots));
          cp_MatchCount := Z.of_nat (length p.(proj_Matches));
          cp_PositionCount := Z.of_nat (length p.(proj_Positions));
          cp_InputChecksum := p.(proj_InputChecksum);
          cp_OutputChecksum := p.(proj_OutputChecksum);
          cp_PayloadBytes := p.(proj_PayloadBytes);
          cp_AttestationKeyID := "";
          cp_AttestationHMAC := "";
          cp_CreatedAt := ZeroTime |}.

(** The loop of [isProjectionAttestationKeyID]; a rune outside ASCII is none of
    the accepted ones, so bytes are enough. *)
Fixpoint attestation_runes (index : nat) (value : string) : bool :=
  match value with
  | EmptyString => true
  | String r rest =>
      (((97 <=? code r) && (code r <=? 122) || (48 <=? code r) && (code r <=? 57))%N ||
       (0 <? index)%nat && ((code r =? 46) || (code r =? 95) || (code r =? 45))%N) &&
      attestation_runes (S index) rest
  end.

Definition isProjectionAttestationKeyID (value : string) : bool :=
  negb ((String.length value =? 0)%nat || (128 <? String.length value)%nat ||
        (value !=? TrimSpace value) || (value !=? ToLower value)) &&
  attestation_runes 0 value.

End payload.
