(* ===== verification/ProjectionFifo.v ===== *)
(** * A one-pass FIFO reference for the projection's inventory loops

    [applyMovement] first collects (index, quantity) segments and then updates
    the lots through those indices; [applyPhysicalOption] updates them in
    place. Both are shown equal to [fifo], one structural pass over the lots,
    and the facts the replay invariant needs are proved about that pass. *)

From S2P Require Import Prelude GoStd Externals EconomicId Instrument Transaction SourceEvent Normalization Projection.

Local Open Scope go_scope.

Section fifo.
Context {E : Externals}.

(** ** The reference pass *)

(** Opening cash released by closing [quantity] of a lot. *)
Definition releasedCash (quantity : dec) (lot : ProjectionLot) : dec :=
  if Equal quantity (Abs lot.(lot_RemainingQuantity)) then lot.(lot_RemainingOpeningCash)
  else Round (Div (Mul lot.(lot_RemainingOpeningCash) quantity) (Abs lot.(lot_RemainingQuantity))) 12.

Definition reducedLot (movement quantity : dec) (lot : ProjectionLot) : ProjectionLot :=
  let remaining := Add lot.(lot_RemainingQuantity) (signedPart movement quantity) in
  set_remaining lot remaining
    (if IsZero remaining then Zero else Sub lot.(lot_RemainingOpeningCash) (releasedCash quantity lot)).

(** One consumption: the lot it leaves, the quantity closed and the opening
    cash released. *)
Record consumption := MkConsumption { con_lot : ProjectionLot; con_quantity : dec; con_opening : dec }.

Definition closeQuantity (remaining : dec) (lot : ProjectionLot) : dec :=
  Min (Abs lot.(lot_RemainingQuantity)) (Abs remaining).

Definition consume (movement remaining : dec) (lot : ProjectionLot) : consumption :=
  let q := closeQuantity remaining lot in
  MkConsumption (reducedLot movement q lot) q (releasedCash q lot).

(** What is left of the movement after a lot has been consumed. *)
Definition leftAfter (movement remaining : dec) (lot : ProjectionLot) : dec :=
  Sub remaining (signedPart movement (closeQuantity remaining lot)).

Fixpoint fifo (instrumentID : UUID) (movement : dec) (lots : list ProjectionLot) (remaining : dec) :
    list ProjectionLot * list consumption * dec :=
  match lots with
  | [] => ([], [], remaining)
  | lot :: rest =>
      if lotSkipped instrumentID movement lot then
        let '(lots', cs, unmatched) := fifo instrumentID movement rest remaining in
        (lot :: lots', cs, unmatched)
      else
        let c := consume movement remaining lot in
        let remaining := leftAfter movement remaining lot in
        if IsZero remaining then (con_lot c :: rest, [c], remaining)
        else
          let '(lots', cs, unmatched) := fifo instrumentID movement rest remaining in
          (con_lot c :: lots', c :: cs, unmatched)
  end.

(** Cash is split in proportion to quantity; with [exact] the last consumption
    takes what is left. Returns the unallocated cash and the new state. *)
Fixpoint settle (t : Transaction) (m : ProjectionMechanics) (instrumentID : UUID) (movement eventCash : dec)
    (disposition : string) (exact : bool) (index : nat) (cs : list consumption) (remainingCash : dec)
    (state : projectionState) : dec * projectionState :=
  match cs with
  | [] => (remainingCash, state)
  | c :: rest =>
      let final := exact && match rest with [] => true | _ => false end in
      let closingCash :=
        if final then remainingCash
        else Round (Div (Mul eventCash (con_quantity c)) (Abs movement)) 12 in
      let remainingCash := if final then Zero else Sub remainingCash closingCash in
      let realized := Add (con_opening c) closingCash in
      settle t m instrumentID movement eventCash disposition exact (S index) rest remainingCash
        (add_match (add_realized state realized)
           (newMatch t m (con_lot c) index instrumentID (con_quantity c) (con_opening c) closingCash realized
              disposition))
  end.

(** Inventory movement in one pass. *)
Definition fifoMovement (t : Transaction) (m : ProjectionMechanics) (instrumentID : UUID)
    (movement eventCash multiplier : dec) (disposition : string) (state : projectionState) : projectionState :=
  let '(lots, cs, unmatched) := fifo instrumentID movement state.(st_lots) movement in
  let '(cash, settled) :=
    settle t m instrumentID movement eventCash disposition (IsZero unmatched) 0 cs eventCash state in
  let state := set_lots settled lots in
  touch (if IsZero unmatched then state else openLot t m instrumentID unmatched cash multiplier state) instrumentID.

(** ** Equivalence with the code *)

Context {L : ExternalLaws}.
Local Open Scope Q_scope.

Lemma lotSkipped_false i mv lot :
  lotSkipped i mv lot = false <->
  lot.(lot_InstrumentID) = i /\ ~ val lot.(lot_RemainingQuantity) == 0 /\
  Sign lot.(lot_RemainingQuantity) <> Sign mv.
Proof.
  unfold lotSkipped. rewrite !orb_false_iff, negb_false_iff, bool_decide_eq_true, IsZero_false, Z.eqb_neq.
  tauto.
Qed.

Lemma val_Abs_nonzero d : ~ val d == 0 -> ~ val (Abs d) == 0.
Proof.
  rewrite val_Abs. intros H Hd. apply H.
  apply Qabs_case with (P := fun q => q == 0 -> val d == 0) in Hd; [done|lra|lra].
Qed.

Lemma checked_Div_nonzero a d : ~ val d == 0 -> checked_Div a (Abs d) = Ok (Div a (Abs d)).
Proof. intros H. apply checked_Div_Ok. by split; [apply val_Abs_nonzero|]. Qed.

Lemma consumeLot_eq mv q lot :
  ~ val lot.(lot_RemainingQuantity) == 0 ->
  consumeLot mv q lot = Ok (releasedCash q lot, reducedLot mv q lot).
Proof.
  intros H. unfold consumeLot, reducedLot, releasedCash.
  destruct (Equal q _); simpl; [done|]. by rewrite checked_Div_nonzero.
Qed.

Lemma collectSegments_fifo i mv lots idx r :
  let '(segs, unmatched) := collectSegments i mv idx lots r in
  let '(_, cs, rest') := fifo i mv lots r in
  unmatched = rest' /\ length segs = length cs.
Proof.
  revert idx r. induction lots as [|lot lots IH]; intros idx r; simpl; [done|].
  destruct (lotSkipped i mv lot).
  - specialize (IH (S idx) r). destruct (collectSegments _ _ _ _ _), (fifo _ _ _ _) as [[??]?]. done.
  - fold (closeQuantity r lot). fold (leftAfter mv r lot). destruct (IsZero _); [done|].
    specialize (IH (S idx) (leftAfter mv r lot)).
    destruct (collectSegments _ _ _ _ _), (fifo _ _ _ _) as [[??]?]. simpl. destruct IH. by split; [|f_equal].
Qed.

(** The index arithmetic of [segmentIndex == segmentCount-1] singles out the
    last consumption of an exact close. *)
Lemma final_segment {A} index count (rest : list A) (exact : bool) :
  (index + S (length rest) + (if exact then 0 else 1) = count)%nat ->
  (index =? count - 1)%nat = exact && match rest with [] => true | _ => false end.
Proof.
  intros <-. destruct exact, rest; simpl; rewrite ?Nat.eqb_eq, ?Nat.eqb_neq; lia.
Qed.

Lemma set_lots_record s l l' a mt :
  add_match (add_realized (set_lots (set_lots s l) l') a) mt = set_lots (add_match (add_realized s a) mt) l'.
Proof. done. Qed.

Lemma closeSegments_settle t m i mv eventCash disposition count :
  ~ val mv == 0 ->
  forall lots front r index rc rq state,
  let '(segs, unmatched) := collectSegments i mv (length front) lots r in
  let '(lots', cs, _) := fifo i mv lots r in
  (index + length segs + (if IsZero unmatched then 0 else 1) = count)%nat ->
  closeSegments t m i mv eventCash disposition count index segs rc rq (set_lots state (front ++ lots)) =
  let '(rc', state') := settle t m i mv eventCash disposition (IsZero unmatched) index cs rc state in
  Ok (rc', set_lots state' (front ++ lots')).
Proof.
  intros Hmv. induction lots as [|lot lots IH]; intros front r index rc rq state; [by simpl|].
  cbn [collectSegments fifo]. destruct (lotSkipped i mv lot) eqn:Hskip.
  - specialize (IH (front ++ [lot]) r index rc rq state). rewrite length_app, Nat.add_1_r in IH.
    destruct (collectSegments _ _ _ _ _) as [segs unmatched], (fifo _ _ _ _) as [[lots' cs] rest'].
    by rewrite <- !app_assoc in IH.
  - apply lotSkipped_false in Hskip as (_ & Hrem & _).
    fold (closeQuantity r lot). fold (leftAfter mv r lot).
    destruct (IsZero (leftAfter mv r lot)) eqn:Hleft.
    + rewrite Hleft. simpl. intros Hcount.
      unfold allocateProjectionAmount.
      replace (index =? count - 1)%nat with true by (symmetry; apply Nat.eqb_eq; lia). simpl.
      rewrite list_lookup_middle, consumeLot_eq by done. simpl. by rewrite insert_app_r_alt, Nat.sub_diag by done.
    + specialize (IH (front ++ [reducedLot mv (closeQuantity r lot) lot]) (leftAfter mv r lot) (S index)).
      rewrite length_app, Nat.add_1_r in IH.
      pose proof (collectSegments_fifo i mv lots (S (length front)) (leftAfter mv r lot)) as Hlen.
      destruct (collectSegments _ _ _ _ _) as [segs unmatched], (fifo _ _ _ _) as [[lots' cs] rest'].
      destruct Hlen as [-> Hlen]. cbn [length closeSegments settle]. intros Hcount.
      unfold allocateProjectionAmount.
      rewrite (final_segment index count cs (IsZero rest')) by (rewrite <- Hlen; lia).
      cbn [st_lots set_lots seg_lotIndex seg_quantity con_quantity con_lot con_opening consume].
      rewrite list_lookup_middle by done. rewrite checked_Div_nonzero by done.
      destruct (IsZero rest' && _); cbn -[Nat.sub closeSegments settle]; rewrite consumeLot_eq by done;
        cbn -[Nat.sub closeSegments settle]; rewrite insert_app_r_alt, Nat.sub_diag by done; simpl;
        rewrite (cons_middle (reducedLot _ _ _) front lots), app_assoc, set_lots_record;
        (etrans; [apply IH; lia|]); by rewrite <- app_assoc.
Qed.

Lemma fifo_no_consumption i mv lots r :
  let '(_, cs, unmatched) := fifo i mv lots r in cs = [] -> unmatched = r.
Proof.
  induction lots as [|lot lots IH]; simpl; [done|].
  destruct (lotSkipped i mv lot); [|destruct (IsZero _); [done|]].
  - destruct (fifo _ _ _ _) as [[??]?]. exact IH.
  - destruct (fifo i mv lots (leftAfter mv r lot)) as [[??]?]. intros H. discriminate H.
Qed.

(** The two-phase loop of [applyMovement] is the one-pass reference; in
    particular its last guard never fires and it never panics. *)
Lemma applyMovement_eq t m i mv cash mult disposition exact s :
  applyMovement t m i mv cash mult disposition exact s =
  if IsZero mv || (i ==? Nil) || negb (IsPositive mult)
  then Err (Errorf "transaction %s has invalid inventory movement mechanics")
  else if exact && negb (IsZero (fifo i mv s.(st_lots) mv).2)
  then Err (Errorf "settlement transaction %s does not exactly close existing signed inventory")
  else Ok (fifoMovement t m i mv cash mult disposition s).
Proof.
  unfold applyMovement. destruct (IsZero mv || _ || _) eqn:Hguard; [done|]. split_bools. dec_bools.
  pose proof (fifo_no_consumption i mv s.(st_lots) mv) as Hnone.
  pose proof (collectSegments_fifo i mv s.(st_lots) 0 mv) as Hlen.
  pose proof (closeSegments_settle t m i mv cash disposition) as Hclose.
  cbn [reject mbind outcome_bind].
  set (count := fun (segs : list closeSegment) (u : dec) => (length segs + (if IsZero u then 0 else 1))%nat).
  unfold fifoMovement.
  specialize (Hclose (let '(segs, u) := collectSegments i mv 0 s.(st_lots) mv in count segs u) ltac:(done)
                s.(st_lots) [] mv 0%nat cash (Abs mv) s).
  cbn [length app] in Hclose. revert Hnone Hlen Hclose.
  destruct (collectSegments i mv 0 _ mv) as [segs u], (fifo i mv _ mv) as [[lots' cs] u'].
  intros Hnone [-> Hlen] Hclose. cbn [snd]. destruct (exact && _); [done|]. cbn [reject mbind outcome_bind].
  assert (Hcount : (count segs u' =? 0)%nat = false).
  { apply Nat.eqb_neq. unfold count. destruct segs; [|simpl; lia]. destruct cs; [|done].
    rewrite (Hnone eq_refl), (proj2 (IsZero_false mv)) by done. simpl. lia. }
  fold (count segs u'). rewrite Hcount. cbn [reject mbind outcome_bind].
  replace s with (set_lots s s.(st_lots)) at 1 by (by destruct s). rewrite Hclose by done.
  destruct (settle _ _ _ _ _ _ _ _ _ _ _) as [rc settled]. simpl. by destruct (IsZero u').
Qed.

(** ** The in-place loop of [applyPhysicalOption] *)

Definition transferMatch (t : Transaction) (m : ProjectionMechanics) (ordinal : nat) (c : consumption) :
    ProjectionMatch :=
  newMatch t m (con_lot c) ordinal m.(mech_InstrumentID) (con_quantity c) (con_opening c) (Neg (con_opening c)) Zero
    "basis_transfer".

Lemma transferLots_eq t m mv lots ordinal r cash :
  transferLots t m mv ordinal lots r cash =
  let '(lots', cs, unmatched) := fifo m.(mech_InstrumentID) mv lots r in
  Ok (lots', unmatched, foldl (fun acc c => Add acc (con_opening c)) cash cs,
      imap (fun k c => transferMatch t m (ordinal + k) c) cs).
Proof.
  revert ordinal r cash. induction lots as [|lot lots IH]; intros ordinal r cash; [done|].
  cbn [transferLots fifo]. destruct (lotSkipped _ mv lot) eqn:Hskip.
  - rewrite IH. by destruct (fifo _ _ _ _) as [[??]?].
  - apply lotSkipped_false in Hskip as (_ & Hrem & _). fold (closeQuantity r lot). fold (leftAfter mv r lot).
    rewrite consumeLot_eq by done. cbn [mbind outcome_bind].
    destruct (IsZero (leftAfter mv r lot)).
    + cbn. by rewrite Nat.add_0_r.
    + rewrite IH. destruct (fifo _ _ _ _) as [[lots' cs] u]. cbn. rewrite Nat.add_0_r. do 3 f_equal.
      apply imap_ext. intros k c _. simpl. by rewrite Nat.add_succ_r.
Qed.

(** ** What one consumption does

    [direction] is the sign of a nonzero movement as a rational. *)
Definition direction (mv : dec) : Q := if IsPositive mv then 1 else -1.

Lemma direction_cases mv : ~ val mv == 0 ->
  (direction mv = 1 /\ 0 < val mv) \/ (direction mv = -1 /\ val mv < 0).
Proof.
  unfold direction. destruct (IsPositive mv) eqn:H; dec_bools; intros; [left|right]; split; try done. lra.
Qed.

Lemma val_signedPart mv q : ~ val mv == 0 -> val (signedPart mv q) == direction mv * val q.
Proof.
  intros H. unfold signedPart. rewrite val_Mul. destruct (val_sign mv) as [Hp Hn].
  destruct (direction_cases mv H) as [[-> ?]|[-> ?]]; [rewrite Hp|rewrite Hn]; lra.
Qed.

(** A lot whose quantity is gone carries no cash. *)
Definition lot_settled (lot : ProjectionLot) : Prop :=
  val lot.(lot_RemainingQuantity) == 0 -> val lot.(lot_RemainingOpeningCash) == 0.

(** [lot'] is [lot] with its remainder moved toward zero. *)
Record lot_reduced (lot lot' : ProjectionLot) : Prop := {
  lr_same : lot' = set_remaining lot lot'.(lot_RemainingQuantity) lot'.(lot_RemainingOpeningCash);
  lr_within : 0 <= val lot'.(lot_RemainingQuantity) <= val lot.(lot_RemainingQuantity) \/
              val lot.(lot_RemainingQuantity) <= val lot'.(lot_RemainingQuantity) <= 0;
  lr_settled : lot_settled lot -> lot_settled lot';
}.

Lemma lot_reduced_refl lot : lot_reduced lot lot.
Proof.
  split; [by destruct lot| |done].
  destruct (Qlt_le_dec (val lot.(lot_RemainingQuantity)) 0); [right|left]; lra.
Qed.

Lemma lot_opposed i mv lot : ~ val mv == 0 -> lotSkipped i mv lot = false ->
  direction mv * val lot.(lot_RemainingQuantity) < 0.
Proof.
  intros Hmv (_ & Hrem & Hsign)%lotSkipped_false. rewrite Sign_eq in Hsign.
  destruct (direction_cases mv Hmv) as [[-> ?]|[-> ?]];
    destruct (Q_dec (val lot.(lot_RemainingQuantity)) 0) as [[?|?]|?]; try lra; exfalso; apply Hsign; lra.
Qed.

Lemma closeQuantity_cases r lot :
  let rem := Qabs (val lot.(lot_RemainingQuantity)) in
  (rem <= Qabs (val r) /\ val (closeQuantity r lot) == rem) \/
  (Qabs (val r) <= rem /\ val (closeQuantity r lot) == Qabs (val r)).
Proof.
  unfold closeQuantity. destruct (val_Min (Abs lot.(lot_RemainingQuantity)) (Abs r)) as [H|H];
    rewrite !val_Abs in H; tauto.
Qed.

Lemma consume_spec i mv r lot (c := consume mv r lot) (s := direction mv) :
  ~ val mv == 0 -> lotSkipped i mv lot = false -> 0 < s * val r ->
  0 < val (con_quantity c) /\
  val (con_lot c).(lot_RemainingQuantity) == val lot.(lot_RemainingQuantity) + s * val (con_quantity c) /\
  s * val (con_lot c).(lot_RemainingQuantity) <= 0 /\
  val (leftAfter mv r lot) == val r - s * val (con_quantity c) /\
  0 <= s * val (leftAfter mv r lot) /\
  (val (con_lot c).(lot_RemainingQuantity) == 0 \/ val (leftAfter mv r lot) == 0).
Proof.
  intros Hmv Hskip Hr. pose proof (lot_opposed i mv lot Hmv Hskip) as Hopp. subst c s.
  unfold leftAfter. cbn [consume con_quantity con_lot reducedLot set_remaining lot_RemainingQuantity].
  rewrite val_Add, val_Sub, !val_signedPart by done.
  pose proof (closeQuantity_cases r lot) as Hq. cbv zeta in Hq.
  destruct (direction_cases mv Hmv) as [[Hs _]|[Hs _]]; rewrite Hs in *.
  - rewrite (Qabs_neg (val lot.(lot_RemainingQuantity))), (Qabs_pos (val r)) in Hq by lra. lra.
  - rewrite (Qabs_pos (val lot.(lot_RemainingQuantity))), (Qabs_neg (val r)) in Hq by lra. lra.
Qed.

(** Closing the whole of a lot releases all of its cash, so the opening cash
    that leaves the lot is exactly what the match records. *)
Lemma consume_cash i mv r lot (c := consume mv r lot) :
  ~ val mv == 0 -> lotSkipped i mv lot = false -> 0 < direction mv * val r ->
  val (con_lot c).(lot_RemainingOpeningCash) + val (con_opening c) == val lot.(lot_RemainingOpeningCash) /\
  lot_settled (con_lot c).
Proof.
  intros Hmv Hskip Hr. destruct (consume_spec i mv r lot Hmv Hskip Hr) as (Hpos & Hrem & _).
  pose proof (lot_opposed i mv lot Hmv Hskip) as Hopp.
  subst c. revert Hpos Hrem. unfold lot_settled.
  cbn [consume con_quantity con_lot con_opening reducedLot set_remaining lot_RemainingQuantity
       lot_RemainingOpeningCash].
  set (q := closeQuantity r lot). intros Hpos Hrem. destruct (IsZero _) eqn:Hz; dec_bools.
  - assert (Hall : Equal q (Abs lot.(lot_RemainingQuantity)) = true).
    { apply Equal_true. rewrite val_Abs. destruct (direction_cases mv Hmv) as [[Hs _]|[Hs _]]; rewrite Hs in *.
      - rewrite Qabs_neg by lra. lra.
      - rewrite Qabs_pos by lra. lra. }
    unfold releasedCash. rewrite Hall. dec_push. split; [lra|]. intros _. reflexivity.
  - dec_push. split; [lra|]. intros H. dec_push_in H. dec_push_in Hz. done.
Qed.

Lemma consume_reduced i mv r lot :
  ~ val mv == 0 -> lotSkipped i mv lot = false -> 0 < direction mv * val r ->
  lot_reduced lot (con_lot (consume mv r lot)).
Proof.
  intros Hmv Hskip Hr. destruct (consume_spec i mv r lot Hmv Hskip Hr) as (Hpos & Hrem & Hside & _).
  destruct (consume_cash i mv r lot Hmv Hskip Hr) as [_ Hset].
  split; [done| |done].
  destruct (direction_cases mv Hmv) as [[Hs _]|[Hs _]]; rewrite Hs in *; [right|left]; lra.
Qed.

(** ** What a whole pass does *)

(** Signed quantity a lot contributes to instrument [i], and its cash. *)
Definition held (i : UUID) (lot : ProjectionLot) : Q :=
  if lot.(lot_InstrumentID) ==? i then val lot.(lot_RemainingQuantity) else 0.
Definition basis (lot : ProjectionLot) : Q := val lot.(lot_RemainingOpeningCash).

Record fifo_facts (i : UUID) (mv : dec) (lots : list ProjectionLot) (r : dec)
    (lots' : list ProjectionLot) (cs : list consumption) (u : dec) : Prop := {
  ff_left : 0 <= direction mv * val u;
  ff_reduced : Forall2 lot_reduced lots lots';
  ff_held j : sumQ (held j) lots' == sumQ (held j) lots + (if i ==? j then val r - val u else 0);
  ff_basis : sumQ basis lots' + sumQ (fun c => val (con_opening c)) cs == sumQ basis lots;
  ff_quantity : direction mv * sumQ (fun c => val (con_quantity c)) cs == val r - val u;
  ff_positive : Forall (fun c => 0 < val (con_quantity c)) cs;
  ff_opposed : ~ val u == 0 ->
    Forall (fun lot => lot.(lot_InstrumentID) = i -> 0 <= direction mv * val lot.(lot_RemainingQuantity)) lots';
}.

Lemma held_cons i mv r lot j :
  ~ val mv == 0 -> lotSkipped i mv lot = false -> 0 < direction mv * val r ->
  held j (con_lot (consume mv r lot)) == held j lot + (if i ==? j then val r - val (leftAfter mv r lot) else 0).
Proof.
  intros Hmv Hskip Hr. destruct (consume_spec i mv r lot Hmv Hskip Hr) as (_ & Hrem & _ & Hleft & _).
  apply lotSkipped_false in Hskip as (Hi & _). unfold held.
  change (lot_InstrumentID (con_lot (consume mv r lot))) with (lot_InstrumentID lot). rewrite Hi.
  destruct (i ==? j); lra.
Qed.

Lemma skipped_side i mv lot : ~ val mv == 0 -> lotSkipped i mv lot = true ->
  lot.(lot_InstrumentID) = i -> 0 <= direction mv * val lot.(lot_RemainingQuantity).
Proof.
  intros Hmv Hskip Hi. unfold lotSkipped in Hskip. rewrite !orb_true_iff, negb_true_iff, Z.eqb_eq, Sign_eq in Hskip.
  destruct (direction_cases mv Hmv) as [[-> ?]|[-> ?]];
    destruct Hskip as [[Hk%bool_decide_eq_false|Hk]|Hk]; dec_bools; (done || lra).
Qed.

Lemma fifo_sound i mv lots r : ~ val mv == 0 -> 0 < direction mv * val r ->
  let '(lots', cs, u) := fifo i mv lots r in fifo_facts i mv lots r lots' cs u.
Proof.
  intros Hmv. revert r. induction lots as [|lot lots IH]; intros r Hr; cbn [fifo].
  { split; simpl; try done; try lra; try by constructor. intros j. destruct (i ==? j); lra. }
  destruct (lotSkipped i mv lot) eqn:Hskip.
  - specialize (IH r Hr). destruct (fifo i mv lots r) as [[lots' cs] u]. destruct IH. split; simpl; try done.
    + constructor; [apply lot_reduced_refl|done].
    + intros j. rewrite ff_held0. lra.
    + lra.
    + intros Hu. constructor; [by eapply skipped_side|auto].
  - pose proof (held_cons i mv r lot) as Hheld.
    destruct (consume_spec i mv r lot Hmv Hskip Hr) as (Hpos & Hrem & Hside & Hleft & Hdir & Hdone).
    destruct (consume_cash i mv r lot Hmv Hskip Hr) as [Hcash _].
    pose proof (consume_reduced i mv r lot Hmv Hskip Hr) as Hred.
    pose proof (direction_cases mv Hmv) as Hs.
    destruct (IsZero (leftAfter mv r lot)) eqn:Hz; dec_bools.
    + split; cbn [sumQ]; try done.
      * constructor; [done|]. apply Forall2_same_length_lookup_2; [done|].
        intros k x y Hx Hy. simplify_eq. apply lot_reduced_refl.
      * intros j. rewrite Hheld by done. destruct (i ==? j); lra.
      * unfold basis in *. lra.
      * destruct Hs as [[Hs _]|[Hs _]]; rewrite Hs in *; lra.
      * by constructor.
    + assert (Hr' : 0 < direction mv * val (leftAfter mv r lot)).
      { destruct Hs as [[Hs _]|[Hs _]]; rewrite Hs in *; lra. }
      specialize (IH _ Hr'). destruct (fifo i mv lots _) as [[lots' cs] u]. destruct IH.
      split; cbn [sumQ]; try done.
      * by constructor.
      * intros j. rewrite ff_held0, Hheld by done. destruct (i ==? j); lra.
      * unfold basis in *. lra.
      * rewrite Qmult_plus_distr_r, ff_quantity0. lra.
      * by constructor.
      * intros Hu. constructor; [|auto]. intros _.
        destruct Hs as [[Hs _]|[Hs _]]; rewrite Hs in *; lra.
Qed.

(** First in, first out: a lot is touched only when every earlier lot that the
    movement could close has been closed in full. *)
Lemma fifo_order i mv lots r j k lj lk : ~ val mv == 0 -> 0 < direction mv * val r ->
  (j < k)%nat -> lots !! j = Some lj -> lots !! k = Some lk -> lotSkipped i mv lj = false ->
  (fifo i mv lots r).1.1 !! k <> Some lk ->
  exists lj', (fifo i mv lots r).1.1 !! j = Some lj' /\ val lj'.(lot_RemainingQuantity) == 0.
Proof.
  intros Hmv. revert r j k. induction lots as [|lot lots IH]; intros r j k Hr Hjk Hj Hk Hskip Hch; [done|].
  cbn [fifo] in *. destruct (lotSkipped i mv lot) eqn:Hs.
  - destruct k as [|k]; [lia|]. destruct j as [|j]; simplify_eq/=; [congruence|].
    specialize (IH r j k Hr ltac:(lia) Hj Hk Hskip).
    destruct (fifo i mv lots r) as [[lots' cs] u]. simpl in *. auto.
  - destruct (consume_spec i mv r lot Hmv Hs Hr) as (_ & _ & _ & _ & Hdir & Hdone).
    destruct (IsZero (leftAfter mv r lot)) eqn:Hz; dec_bools.
    + by destruct k; [lia|].
    + assert (Hr' : 0 < direction mv * val (leftAfter mv r lot)).
      { destruct (direction_cases mv Hmv) as [[Hd _]|[Hd _]]; rewrite Hd in *; lra. }
      specialize (IH (leftAfter mv r lot)).
      destruct (fifo i mv lots _) as [[lots' cs] u]. destruct k as [|k]; [lia|]. destruct j as [|j]; simplify_eq/=.
      * exists (con_lot (consume mv r lj)). by destruct Hdone.
      * by apply (IH j k Hr' ltac:(lia) Hj Hk Hskip).
Qed.

(** ** Cash allocation *)

Lemma settle_frame t m i mv cash disposition exact cs index rc s :
  let s' := (settle t m i mv cash disposition exact index cs rc s).2 in
  s' = MkProjectionState s.(st_lots) s'.(st_matches) s.(st_activity) s.(st_cash) s.(st_netCapital) s.(st_fees)
         s.(st_rebates) s'.(st_realized).
Proof.
  revert index rc s. induction cs as [|c cs IH]; intros index rc s; cbn [settle]; [by destruct s|].
  cbv zeta. etrans; [apply (IH (S index))|done].
Qed.

(** The matches one movement records, and where its cash goes. *)
Record settle_facts (i : UUID) (exact : bool) (cs : list consumption) (rc : dec) (s : projectionState)
    (rc' : dec) (s' : projectionState) : Prop := {
  sf_matches : exists new, s'.(st_matches) = s.(st_matches) ++ new /\
    Forall2 (fun c mt => mt.(match_InstrumentID) = i /\ mt.(match_Quantity) = con_quantity c /\
                         mt.(match_OpeningCash) = con_opening c /\ mt.(match_LotID) = (con_lot c).(lot_ID)) cs new /\
    Forall (fun mt => val mt.(match_RealizedPnL) == val mt.(match_OpeningCash) + val mt.(match_ClosingCash)) new /\
    sumQ (fun mt => val mt.(match_ClosingCash)) new + val rc' == val rc /\
    val s'.(st_realized) == val s.(st_realized) + sumQ (fun mt => val mt.(match_RealizedPnL)) new;
  sf_exact : exact = true -> cs <> [] -> val rc' == 0;
}.

Lemma settle_sound t m i mv cash disposition exact cs index rc s :
  let '(rc', s') := settle t m i mv cash disposition exact index cs rc s in
  settle_facts i exact cs rc s rc' s'.
Proof.
  revert index rc s. induction cs as [|c cs IH]; intros index rc s; cbn [settle].
  { split; [|done]. exists []. rewrite app_nil_r. cbn [sumQ].
    refine (conj eq_refl (conj _ (conj _ (conj _ _)))); [by constructor|by constructor|lra|lra]. }
  set (final := exact && _). set (closing := if final then rc else _).
  set (rc1 := if final then Zero else _). set (mt := newMatch _ _ _ _ _ _ _ closing _ _).
  specialize (IH (S index) rc1 (add_match (add_realized s (Add (con_opening c) closing)) mt)).
  destruct (settle _ _ _ _ _ _ _ _ _ _ _) as [rc' s']. destruct IH as [(new & Hm & Hc & Hr & Hcash & Hreal) Hex].
  assert (Hstep : val closing + val rc1 == val rc).
  { unfold rc1, closing. destruct final; dec_push; lra. }
  split.
  - exists (mt :: new). cbn [st_matches add_match add_realized st_realized] in *. rewrite <- app_assoc in Hm.
    dec_push_in Hreal.
    refine (conj Hm (conj _ (conj _ (conj _ _)))); [by constructor| | |].
    + constructor; [|done]. cbn. dec_push. lra.
    + cbn [sumQ]. change (match_ClosingCash mt) with closing. lra.
    + cbn [sumQ]. change (match_RealizedPnL mt) with (Add (con_opening c) closing). dec_push. lra.
  - intros Hexact _. destruct cs as [|c' cs]; [|by apply Hex].
    destruct Hm as []. subst rc1 final exact. simpl in *. inversion Hc; subst. simpl in Hcash.
    rewrite val_Zero in Hcash. lra.
Qed.

(** A partial close releases the pro-rata share of the opening cash, and a
    non-final consumption receives the pro-rata share of the event cash, up to
    the rounding of the division and of the result: less than 1e-12. *)
Lemma prorata_near total q whole : ~ val whole == 0 ->
  Qabs (val (Round (Div (Mul total q) whole) 12) - val total * val q / val whole) <= 1 # 1000000000000.
Proof.
  intros Hw. set (d := Div (Mul total q) whole).
  pose proof (Round_near d 12) as Hr. pose proof (Div_near (Mul total q) whole Hw) as Hd. fold d in Hd.
  rewrite val_Mul in Hd.
  assert (Ha : Qabs (val (Round d 12) - val total * val q / val whole) <=
               Qabs (val (Round d 12) - val d) + Qabs (val d - val total * val q / val whole)).
  { eapply Qle_trans; [|apply Qabs_triangle]. apply Qle_lteq. right. apply Qabs_wd. ring. }
  change ((10 # 1) ^ (-16)) with (1 # 10000000000000000) in Hd. change ((10 # 1) ^ (- (12))) with (1 # 1000000000000) in Hr. lra.
Qed.
End fifo.
