(* ===== verification/ProjectionProofs.v ===== *)
(** * Invariants of the projection replay

    The accounting identity behind every projection: what the account has
    gained in cash beyond the capital paid in is the realized profit plus the
    cash still tied up in open lots. It is an invariant of [replay], and it is
    why the equation [finalize] checks cannot fail. *)

From S2P Require Import Prelude GoStd Externals EconomicId Instrument Transaction SourceEvent Normalization.
From S2P Require Import Projection ProjectionFifo ProjectionPayload.

Local Open Scope go_scope.

Section proofs.
Context {E : Externals} {L : ExternalLaws}.
Local Open Scope Q_scope.

(** ** The invariant *)

(** A lot's remainder lies between zero and the quantity it was opened with. *)
Definition lot_within (lot : ProjectionLot) : Prop :=
  0 <= val lot.(lot_RemainingQuantity) <= val lot.(lot_Quantity) \/
  val lot.(lot_Quantity) <= val lot.(lot_RemainingQuantity) <= 0.

(** No instrument is long in one lot and short in another. *)
Definition one_sided (lots : list ProjectionLot) : Prop :=
  forall a b, a ∈ lots -> b ∈ lots -> a.(lot_InstrumentID) = b.(lot_InstrumentID) ->
  ~ (val a.(lot_RemainingQuantity) < 0 /\ 0 < val b.(lot_RemainingQuantity)).

Record shape (s : projectionState) : Prop := {
  sh_settled : Forall lot_settled s.(st_lots);
  sh_within : Forall lot_within s.(st_lots);
  sh_side : one_sided s.(st_lots);
  sh_active : Forall (fun lot => lot.(lot_InstrumentID) ∈ s.(st_activity)) s.(st_lots);
}.

(** Cash not yet explained by capital, realized profit and open lots. *)
Definition gap (s : projectionState) : Q :=
  val s.(st_cash) - val s.(st_netCapital) - val s.(st_realized) - sumQ basis s.(st_lots).

Definition replay_inv (s : projectionState) : Prop := shape s /\ gap s == 0.

(** Signed quantity of an instrument over all lots. *)
Definition position (s : projectionState) (i : UUID) : Q := sumQ (held i) s.(st_lots).

(** ** Lots that shrink *)

Lemma reduced_origin lots lots' lot' : Forall2 lot_reduced lots lots' -> lot' ∈ lots' ->
  exists lot, lot ∈ lots /\ lot_reduced lot lot'.
Proof.
  intros H (k & Hk)%list_elem_of_lookup. destruct (Forall2_lookup_r _ _ _ _ _ H Hk) as (lot & Hl & Hr).
  exists lot. split; [by eapply list_elem_of_lookup_2|done].
Qed.

Lemma reduced_fields lot lot' : lot_reduced lot lot' ->
  lot'.(lot_InstrumentID) = lot.(lot_InstrumentID) /\ lot'.(lot_Quantity) = lot.(lot_Quantity) /\
  lot'.(lot_OpeningTransactionID) = lot.(lot_OpeningTransactionID).
Proof. intros [-> _ _]. done. Qed.

Lemma within_reduced lots lots' : Forall2 lot_reduced lots lots' -> Forall lot_within lots -> Forall lot_within lots'.
Proof.
  intros H Hw. apply Forall_forall. intros lot' Hin. destruct (reduced_origin _ _ _ H Hin) as (lot & Hl & Hr).
  pose proof (proj1 (Forall_forall _ _) Hw _ Hl) as Hlot. destruct (reduced_fields _ _ Hr) as (_ & Hq & _).
  destruct Hr as [_ Hwithin _]. unfold lot_within in *. rewrite Hq. lra.
Qed.

Lemma settled_reduced lots lots' :
  Forall2 lot_reduced lots lots' -> Forall lot_settled lots -> Forall lot_settled lots'.
Proof.
  intros H Hw. apply Forall_forall. intros lot' Hin. destruct (reduced_origin _ _ _ H Hin) as (lot & Hl & Hr).
  by apply Hr, (proj1 (Forall_forall _ _) Hw).
Qed.

Lemma side_reduced lots lots' : Forall2 lot_reduced lots lots' -> one_sided lots -> one_sided lots'.
Proof.
  intros H Hw a b (a0 & Ha & Hra)%(reduced_origin _ _ _ H) (b0 & Hb & Hrb)%(reduced_origin _ _ _ H) Hab.
  destruct (reduced_fields _ _ Hra) as (Hia & _), (reduced_fields _ _ Hrb) as (Hib & _).
  specialize (Hw a0 b0 Ha Hb ltac:(congruence)). destruct Hra as [_ Hwa _], Hrb as [_ Hwb _]. lra.
Qed.

Lemma active_reduced lots lots' (act : gset UUID) : Forall2 lot_reduced lots lots' ->
  Forall (fun lot => lot.(lot_InstrumentID) ∈ act) lots -> Forall (fun lot => lot.(lot_InstrumentID) ∈ act) lots'.
Proof.
  intros H Hw. apply Forall_forall. intros lot' Hin. destruct (reduced_origin _ _ _ H Hin) as (lot & Hl & Hr).
  destruct (reduced_fields _ _ Hr) as (-> & _). by apply (proj1 (Forall_forall _ _) Hw).
Qed.

(** ** One inventory movement *)

(** The signed quantities a step moves, by instrument. *)
Definition only (i : UUID) (mv : Q) : UUID -> Q := fun j => if i ==? j then mv else 0.

(** What a step that moves [effect] for [cash] does to a state. *)
Record moved (effect : UUID -> Q) (cash : Q) (s s' : projectionState) : Prop := {
  mv_shape : shape s -> shape s';
  mv_gap : gap s' == gap s - cash;
  mv_position j : position s' j == position s j + effect j;
  mv_cash : s'.(st_cash) = s.(st_cash);
  mv_capital : s'.(st_netCapital) = s.(st_netCapital);
  mv_fees : s'.(st_fees) = s.(st_fees);
  mv_rebates : s'.(st_rebates) = s.(st_rebates);
  mv_active : s.(st_activity) ⊆ s'.(st_activity);
}.

Lemma moved_trans e1 e2 e c1 c2 c s1 s2 s3 :
  (forall j, e j == e1 j + e2 j) -> c == c1 + c2 ->
  moved e1 c1 s1 s2 -> moved e2 c2 s2 s3 -> moved e c s1 s3.
Proof.
  intros He Hc [] []. split; try congruence.
  - auto.
  - rewrite mv_gap1, mv_gap0, Hc. ring.
  - intros j. rewrite mv_position1, mv_position0, He. ring.
  - by transitivity s2.(st_activity).
Qed.

Lemma moved_ext e e' c c' s s' :
  (forall j, e' j == e j) -> c' == c -> moved e c s s' -> moved e' c' s s'.
Proof.
  intros He Hc []. split; try done.
  - by rewrite Hc.
  - intros j. by rewrite He.
Qed.

Lemma direction_self mv : ~ val mv == 0 -> 0 < direction mv * val mv.
Proof. intros H. destruct (direction_cases mv H) as [[-> ?]|[-> ?]]; lra. Qed.

Lemma matches_basis i cs new :
  Forall2 (fun c mt => mt.(match_InstrumentID) = i /\ mt.(match_Quantity) = con_quantity c /\
                       mt.(match_OpeningCash) = con_opening c /\ mt.(match_LotID) = (con_lot c).(lot_ID)) cs new ->
  Forall (fun mt => val mt.(match_RealizedPnL) == val mt.(match_OpeningCash) + val mt.(match_ClosingCash)) new ->
  sumQ (fun mt => val mt.(match_RealizedPnL)) new ==
  sumQ (fun c => val (con_opening c)) cs + sumQ (fun mt => val mt.(match_ClosingCash)) new.
Proof.
  induction 1 as [|c mt cs new (_ & _ & Ho & _) _ IH]; simpl; [intros; lra|].
  intros [Hmt Hnew]%Forall_cons. rewrite IH, Hmt, Ho by done. lra.
Qed.

Lemma shape_touch s i : shape s -> shape (touch s i).
Proof.
  intros []. split; simpl; try done. eapply Forall_impl; [done|]. simpl. set_solver.
Qed.

(** Appending a nonzero lot on the side its instrument is already on. *)
Lemma shape_openLot t m i u cash mult s (dir : Q) :
  (dir = 1 \/ dir = -1) -> 0 < dir * val u ->
  Forall (fun lot => lot.(lot_InstrumentID) = i -> 0 <= dir * val lot.(lot_RemainingQuantity)) s.(st_lots) ->
  shape s -> shape (touch (openLot t m i u cash mult s) i).
Proof.
  intros Hdir Hu Hside []. unfold openLot. split; simpl.
  - apply Forall_app; split; [done|]. constructor; [|done]. unfold lot_settled; simpl. intros Hz.
    destruct Hdir as [-> | ->]; lra.
  - apply Forall_app; split; [done|]. constructor; [|done]. unfold lot_within; simpl.
    destruct Hdir as [-> | ->]; [left|right]; lra.
  - rewrite Forall_forall in Hside. intros a b. rewrite !elem_of_app, !list_elem_of_singleton.
    intros [Ha| ->] [Hb| ->] Hab; simpl in *.
    + by apply sh_side0.
    + specialize (Hside _ Ha Hab). destruct Hdir as [-> | ->]; lra.
    + specialize (Hside _ Hb ltac:(done)). destruct Hdir as [-> | ->]; lra.
    + lra.
  - apply Forall_app; split; [|repeat constructor; simpl; set_solver].
    eapply Forall_impl; [done|]. simpl. set_solver.
Qed.

Lemma fifoMovement_moved t m i mv cash mult disposition s :
  ~ val mv == 0 -> moved (only i (val mv)) (val cash) s (fifoMovement t m i mv cash mult disposition s).
Proof.
  intros Hmv. unfold fifoMovement.
  pose proof (fifo_sound i mv s.(st_lots) mv Hmv (direction_self mv Hmv)) as Hff.
  pose proof (fifo_no_consumption i mv s.(st_lots) mv) as Hnone.
  destruct (fifo i mv s.(st_lots) mv) as [[lots cs] u]. destruct Hff.
  pose proof (settle_frame t m i mv cash disposition (IsZero u) cs 0 cash s) as Hframe.
  pose proof (settle_sound t m i mv cash disposition (IsZero u) cs 0 cash s) as Hsettle.
  destruct (settle _ _ _ _ _ _ _ _ _ _ _) as [rc s1]. simpl in Hframe.
  destruct Hsettle as [(new & _ & Hcs & Hr & Hcash & Hreal) Hexact].
  pose proof (matches_basis _ _ _ Hcs Hr) as Hmb.
  assert (Hdir : direction mv = 1 \/ direction mv = -1).
  { destruct (direction_cases mv Hmv) as [[? _]|[? _]]; tauto. }
  assert (Hshape : shape s -> shape (set_lots s1 lots)).
  { intros []. rewrite Hframe. split; simpl; eauto using settled_reduced, within_reduced, side_reduced, active_reduced. }
  destruct (IsZero u) eqn:Hu; dec_bools.
  - assert (Hcs' : cs <> []).
    { intros ->. rewrite (Hnone eq_refl) in Hu. done. }
    specialize (Hexact eq_refl Hcs'). rewrite Hframe in *.
    split; try done.
    + intros Hs. by apply shape_touch, Hshape.
    + unfold gap; simpl in *. lra.
    + intros j. unfold position, only; simpl. rewrite ff_held. destruct (i ==? j); lra.
    + simpl. set_solver.
  - assert (Hpos : 0 < direction mv * val u).
    { destruct Hdir as [Hd|Hd]; rewrite Hd in *; lra. }
    rewrite Hframe in *. split; try done.
    + intros Hs. eapply shape_openLot; eauto.
    + unfold gap; simpl in *. rewrite sumQ_app. simpl. unfold basis at 2. simpl. lra.
    + intros j. unfold position, only; simpl. rewrite sumQ_app, ff_held by done. simpl. unfold held at 2. simpl.
      destruct (i ==? j); lra.
    + simpl. set_solver.
Qed.

Lemma applyMovement_Ok t m i mv cash mult disposition exact s s' :
  applyMovement t m i mv cash mult disposition exact s = Ok s' ->
  ~ val mv == 0 /\ s' = fifoMovement t m i mv cash mult disposition s /\
  (exact = true -> val (fifo i mv s.(st_lots) mv).2 == 0).
Proof.
  rewrite applyMovement_eq. destruct (_ || _ || _) eqn:Hg; [done|]. split_bools. dec_bools.
  destruct (exact && _) eqn:Hx; [done|]. intros [= <-]. refine (conj _ (conj eq_refl _)); [done|].
  intros ->. simpl in Hx. split_bools. by apply IsZero_true.
Qed.

Lemma applyMovement_moved t m i mv cash mult disposition exact s s' :
  applyMovement t m i mv cash mult disposition exact s = Ok s' -> moved (only i (val mv)) (val cash) s s'.
Proof. intros (Hmv & -> & _)%applyMovement_Ok. by apply fifoMovement_moved. Qed.

(** ** Physical exercise and assignment *)

Lemma foldl_add_match ms s :
  foldl add_match s ms =
  MkProjectionState s.(st_lots) (s.(st_matches) ++ ms) s.(st_activity) s.(st_cash) s.(st_netCapital) s.(st_fees)
    s.(st_rebates) s.(st_realized).
Proof.
  revert s. induction ms as [|mt ms IH]; intros s; simpl; [rewrite app_nil_r; by destruct s|].
  rewrite IH. simpl. by rewrite <- app_assoc.
Qed.

Lemma foldl_opening cs a :
  val (foldl (fun acc c => Add acc (con_opening c)) a cs) == val a + sumQ (fun c => val (con_opening c)) cs.
Proof.
  revert a. induction cs as [|c cs IH]; intros a; simpl; [lra|]. rewrite IH, val_Add. lra.
Qed.

(** The basis transfer closes the option and releases its cash, unrealized. *)
Lemma transfer_moved t m mv s lots u cash ms :
  ~ val mv == 0 -> val u == 0 ->
  transferLots t m mv 0 s.(st_lots) mv Zero = Ok (lots, u, cash, ms) ->
  moved (only m.(mech_InstrumentID) (val mv)) (- val cash) s
    (touch (foldl add_match (set_lots s lots) ms) m.(mech_InstrumentID)).
Proof.
  intros Hmv Hu. rewrite transferLots_eq, foldl_add_match.
  pose proof (fifo_sound m.(mech_InstrumentID) mv s.(st_lots) mv Hmv (direction_self mv Hmv)) as Hff.
  destruct (fifo _ _ _ _) as [[lots' cs] u']. intros [= -> -> <- <-]. destruct Hff.
  split; try done.
  - intros []. apply shape_touch.
    split; simpl; eauto using settled_reduced, within_reduced, side_reduced, active_reduced.
  - unfold gap; simpl. rewrite foldl_opening, val_Zero. lra.
  - intros j. unfold position, only; simpl. rewrite ff_held. destruct (_ ==? j); lra.
  - simpl. set_solver.
Qed.

(** ** Validated mechanics *)

(** What [ProjectionMechanics.Validate] guarantees to the replay: the pointers
    each event kind dereferences are set, and quantities have their sign. *)
Definition mechanics_ready (m : ProjectionMechanics) : Prop :=
  match m.(mech_EventType) with
  | EconomicEventFillBuy | EconomicEventFillSell =>
      exists q p, m.(mech_Quantity) = Some q /\ m.(mech_Price) = Some p /\ 0 < val q /\ 0 <= val p /\
                  0 < val m.(mech_PrimaryMultiplier)
  | EconomicEventFee | EconomicEventRebate => exists a, m.(mech_CostAmount) = Some a /\ 0 < val a
  | EconomicEventOptionCashSettlement | EconomicEventOptionExpiration | EconomicEventPredictionPayout =>
      exists n p, m.(mech_PositionQuantity) = Some n /\ m.(mech_SettlementPrice) = Some p /\ ~ val n == 0
  | EconomicEventOptionExercise | EconomicEventOptionAssignment =>
      exists n k d, m.(mech_PositionQuantity) = Some n /\ m.(mech_StrikePrice) = Some k /\
                    m.(mech_DeliverableQuantity) = Some d /\ ~ val n == 0 /\ 0 < val k /\ 0 < val d
  | EconomicEventOther _ => False
  end.

Lemma nil_or_not_false f v : nil_or_not f v = false <-> exists d, v = Some d /\ f d = true.
Proof. destruct v as [d|]; simpl; [rewrite negb_false_iff|]; naive_solver. Qed.

Lemma mechanics_validated m : ProjectionMechanics_Validate m = Ok tt -> mechanics_ready m.
Proof.
  unfold ProjectionMechanics_Validate, mechanics_ready. intros H. inv_ok H.
  destruct m.(mech_EventType); inv_ok H; split_bools;
    repeat match goal with H : nil_or_not _ _ = false |- _ => apply nil_or_not_false in H as (? & ? & ?) end;
    split_bools; dec_bools; eauto 12.
Qed.

(** ** One economic transaction *)

Definition or0 (v : option dec) : Q := match v with Some d => val d | None => 0 end.

(** The inventory an event moves, read off its mechanics. *)
Definition inventory_effect (m : ProjectionMechanics) : UUID -> Q :=
  match m.(mech_EventType) with
  | EconomicEventFillBuy => only m.(mech_InstrumentID) (or0 m.(mech_Quantity))
  | EconomicEventFillSell => only m.(mech_InstrumentID) (- or0 m.(mech_Quantity))
  | EconomicEventOptionCashSettlement | EconomicEventOptionExpiration | EconomicEventPredictionPayout =>
      only m.(mech_InstrumentID) (- or0 m.(mech_PositionQuantity))
  | EconomicEventOptionExercise | EconomicEventOptionAssignment =>
      fun j => only m.(mech_InstrumentID) (- or0 m.(mech_PositionQuantity)) j +
               only m.(mech_SecondaryInstrumentID)
                 ((if m.(mech_OptionContractType) ==? OptionContractPut then -1 else 1) *
                  (or0 m.(mech_PositionQuantity) * or0 m.(mech_DeliverableQuantity))) j
  | _ => fun _ => 0
  end.

Lemma only_ext i q q' j : q == q' -> only i q j == only i q' j.
Proof. intros H. unfold only. by destruct (i ==? j). Qed.

Lemma movement_sign (mv q : dec) : val (Abs mv) == val q ->
  (0 < val mv -> val mv == val q) /\ (val mv < 0 -> val mv == - val q).
Proof.
  rewrite val_Abs. intros H. split; intros Hs.
  - rewrite Qabs_pos in H by lra. done.
  - rewrite Qabs_neg in H by lra. lra.
Qed.

Lemma fill_moved t m cash s s' :
  m.(mech_EventType) = EconomicEventFillBuy \/ m.(mech_EventType) = EconomicEventFillSell ->
  applyEconomicTransaction t m cash s = Ok s' -> moved (inventory_effect m) (val cash) s s'.
Proof.
  unfold applyEconomicTransaction, inventory_effect.
  intros [He|He]; rewrite He; simpl; intros H; inv_ok H;
    apply applyMovement_moved in H; eapply moved_ext; try exact H; try reflexivity;
    intros j; apply only_ext; split_bools; dec_bools;
    match goal with H : deref _ = Ok _ |- _ => idtac | H : mech_Quantity m = Some _ |- _ => rewrite H; simpl end;
    match goal with H : val (Abs _) == _ |- _ => apply movement_sign in H as [? ?] end; lra.
Qed.

Lemma settlement_moved t m cash s s' :
  m.(mech_EventType) ∈ [EconomicEventOptionCashSettlement; EconomicEventOptionExpiration;
                        EconomicEventPredictionPayout] ->
  applyEconomicTransaction t m cash s = Ok s' -> moved (inventory_effect m) (val cash) s s'.
Proof.
  unfold applyEconomicTransaction, inventory_effect. rewrite !elem_of_cons, elem_of_nil.
  intros [He|[He|[He|[]]]]; rewrite He; simpl; intros H; inv_ok H;
    apply applyMovement_moved in H; eapply moved_ext; try exact H; try reflexivity;
    intros j; apply only_ext; split_bools; dec_bools;
    match goal with H : mech_PositionQuantity m = Some _ |- _ => rewrite H; simpl end;
    match goal with H : val _ == val (Neg _) |- _ => rewrite val_Neg in H; lra end.
Qed.

Lemma cost_moved t m cash s s' :
  m.(mech_EventType) = EconomicEventFee \/ m.(mech_EventType) = EconomicEventRebate ->
  applyEconomicTransaction t m cash s = Ok s' -> moved (inventory_effect m) (val cash) s s'.
Proof.
  unfold applyEconomicTransaction, inventory_effect.
  intros [He|He]; rewrite He; simpl; intros H; inv_ok H; subst s'; (split; try done);
    first [by intros []; split | unfold gap; simpl; rewrite val_Add; ring | intros j; unfold position; simpl; ring].
Qed.

Lemma physical_moved t m cash s s' : mechanics_ready m ->
  m.(mech_EventType) = EconomicEventOptionExercise \/ m.(mech_EventType) = EconomicEventOptionAssignment ->
  applyPhysicalOption t m cash s = Ok s' -> moved (inventory_effect m) (val cash) s s'.
Proof.
  intros Hready He H.
  assert (Hm : exists n k d, m.(mech_PositionQuantity) = Some n /\ m.(mech_StrikePrice) = Some k /\
                 m.(mech_DeliverableQuantity) = Some d /\ ~ val n == 0 /\ 0 < val k /\ 0 < val d).
  { unfold mechanics_ready in Hready. by destruct He as [He|He]; rewrite He in Hready. }
  destruct Hm as (n & k & d & Hn & Hk & Hd & Hnz & _). unfold applyPhysicalOption in H.
  rewrite Hn, Hk, Hd in H. inv_ok H. cbn [deref] in *. simplify_eq.
  match goal with Ht : transferLots _ _ _ _ _ _ _ = Ok ?p |- _ => destruct p as [[[lots u] transferred] ms] end.
  inv_ok H. split_bools. dec_bools.
  rewrite val_Neg in *.
  assert (Hmv : ~ val x == 0) by lra.
  assert (Heff : forall j, inventory_effect m j ==
            only m.(mech_InstrumentID) (- or0 m.(mech_PositionQuantity)) j +
            only m.(mech_SecondaryInstrumentID)
              ((if m.(mech_OptionContractType) ==? OptionContractPut then -1 else 1) *
               (or0 m.(mech_PositionQuantity) * or0 m.(mech_DeliverableQuantity))) j).
  { intros j. unfold inventory_effect. by destruct He as [-> | ->]. }
  apply applyMovement_moved in H. eapply moved_trans; [| |eapply transfer_moved; eauto|exact H].
  - intros j. rewrite Heff, Hn, Hd. apply Qplus_comp; apply only_ext; cbn [or0]; [lra|].
    match goal with Hu : val _ == val (if _ then _ else _) |- _ => rename Hu into Hunder end.
    destruct (_ ==? OptionContractPut); dec_push_in Hunder; lra.
  - rewrite val_Add. ring.
Qed.

Lemma economic_moved t m cash s s' : mechanics_ready m ->
  applyEconomicTransaction t m cash s = Ok s' -> moved (inventory_effect m) (val cash) s s'.
Proof.
  intros Hready H. destruct m.(mech_EventType) eqn:He.
  1,2: (eapply fill_moved; eauto).
  1,2: (eapply cost_moved; eauto).
  1,2,5: (eapply settlement_moved; eauto; rewrite He; set_solver).
  1,2: (eapply physical_moved; eauto; unfold applyEconomicTransaction in H; rewrite He in H; by inv_ok H).
  unfold applyEconomicTransaction in H. rewrite He in H. inv_ok H.
Qed.

(** ** Cash and costs of a transaction *)

(** Sum of the amounts posted to one ledger account. *)
Definition posted (account : string) (t : Transaction) : Q :=
  sumQ (fun p => if p.(post_LedgerAccount) ==? account then val p.(post_Amount) else 0) t.(tx_Postings).

Lemma cashAndCosts_posted currency ps cash fees rebates c f r :
  cashAndCosts currency ps cash fees rebates = Ok (c, f, r) ->
  let total account := sumQ (fun p => if p.(post_LedgerAccount) ==? account then val p.(post_Amount) else 0) ps in
  val c == val cash + total "asset:cash" /\ val f == val fees + total "expense:fees" /\
  val r == val rebates - total "income:rebates".
Proof.
  revert cash fees rebates. induction ps as [|p ps IH]; intros cash fees rebates; cbn [cashAndCosts].
  { intros [= -> -> ->]. cbn. lra. }
  intros H. inv_ok H. cbn [sumQ].
  repeat case_bool_decide; try congruence; inv_ok H; split_bools; dec_bools; apply IH in H; cbv zeta in H;
    dec_push_in H; try lra.
  rewrite Qabs_neg in H by lra. lra.
Qed.

(** ** The replay *)

Definition is_capital (t : Transaction) : bool :=
  (t.(tx_EventType) ==? "capital_flow.deposit") || (t.(tx_EventType) ==? "capital_flow.withdrawal").

Definition tx_effect (mechs : gmap UUID ProjectionMechanics) (t : Transaction) (j : UUID) : Q :=
  match mechs !! t.(tx_ID) with Some m => inventory_effect m j | None => 0 end.

(** The totals a replay accumulates over the transactions it applied. *)
Record replayed (mechs : gmap UUID ProjectionMechanics) (ts : list Transaction) (s s' : projectionState) : Prop := {
  rp_shape : shape s -> shape s';
  rp_gap : gap s' == gap s;
  rp_position j : position s' j == position s j + sumQ (fun t => tx_effect mechs t j) ts;
  rp_cash : val s'.(st_cash) == val s.(st_cash) + sumQ (posted "asset:cash") ts;
  rp_capital : val s'.(st_netCapital) == val s.(st_netCapital) +
                 sumQ (fun t => if is_capital t then posted "asset:cash" t else 0) ts;
  rp_fees : val s'.(st_fees) == val s.(st_fees) + sumQ (posted "expense:fees") ts;
  rp_rebates : val s'.(st_rebates) == val s.(st_rebates) - sumQ (posted "income:rebates") ts;
}.

Lemma replayTransaction_sound currency mechs t s s' :
  map_Forall (fun _ => mechanics_ready) mechs ->
  replayTransaction currency mechs t s = Ok s' -> replayed mechs [t] s s'.
Proof.
  intros Hready H. unfold replayTransaction in H. inv_ok H. destruct x as [[cash fees] rebates].
  apply cashAndCosts_posted in H0. cbv zeta in H0. fold (posted "asset:cash" t) in H0.
  fold (posted "expense:fees" t) in H0. fold (posted "income:rebates" t) in H0.
  rewrite !val_Zero in H0. destruct H0 as (Hcash & Hfees & Hrebates). unfold is_capital.
  destruct (_ || _) eqn:Hkind in H.
  - inv_ok H. split_bools. subst s'.
    split; simpl; unfold is_capital; rewrite ?Hkind; dec_push; try lra.
    + by intros []; split.
    + unfold gap; simpl. dec_push. lra.
    + intros j. unfold position, tx_effect; simpl.
      match goal with Hm : mechs !! _ = None |- _ => rewrite Hm end. lra.
  - destruct (mechs !! t.(tx_ID)) as [m|] eqn:Hm; [|done]. inv_ok H.
    apply economic_moved in H; [|by eapply Hready]. destruct H.
    split; simpl; unfold is_capital; rewrite ?Hkind, ?mv_cash0, ?mv_capital0, ?mv_fees0, ?mv_rebates0; simpl;
      dec_push; try lra.
    + intros Hs. apply mv_shape0. by destruct Hs; split.
    + rewrite mv_gap0. unfold gap; simpl. dec_push. lra.
    + intros j. rewrite mv_position0. unfold tx_effect. rewrite Hm. unfold position; simpl. lra.
Qed.

Lemma replayed_trans mechs ts1 ts2 s1 s2 s3 :
  replayed mechs ts1 s1 s2 -> replayed mechs ts2 s2 s3 -> replayed mechs (ts1 ++ ts2) s1 s3.
Proof.
  intros [] []. split; rewrite ?sumQ_app; try lra.
  - auto.
  - intros j. rewrite rp_position1, rp_position0, sumQ_app. lra.
Qed.

Lemma replay_totals currency mechs ts s s' :
  map_Forall (fun _ => mechanics_ready) mechs ->
  replay currency mechs ts s = Ok s' -> replayed mechs ts s s'.
Proof.
  intros Hready. revert s. induction ts as [|t ts IH]; intros s; cbn [replay].
  { intros [= ->]. split; simpl; try lra; [done|]. intros j. simpl. lra. }
  intros H. inv_ok H. apply (replayed_trans mechs [t] ts s x).
  - by eapply replayTransaction_sound.
  - by apply IH.
Qed.

Lemma collectMechanics_valid eligible cs result out :
  collectMechanics eligible cs result = Ok out ->
  map_Forall (fun _ m => ProjectionMechanics_Validate m = Ok tt) result ->
  map_Forall (fun _ m => ProjectionMechanics_Validate m = Ok tt) out.
Proof.
  revert result. induction cs as [|m cs IH]; intros result; cbn [collectMechanics].
  { by intros [= ->]. }
  case_bool_decide; intros Hc; inv_ok Hc; [|by apply IH]. intros Hr. apply IH in Hc; [done|].
  apply map_Forall_insert_2; [|done]. by destruct x.
Qed.

Lemma eligible_ready cs ts mechs :
  eligibleProjectionMechanics cs ts = Ok mechs -> map_Forall (fun _ => mechanics_ready) mechs.
Proof.
  intros H. apply collectMechanics_valid in H; [|apply map_Forall_empty].
  eapply map_Forall_impl; [done|]. intros k m. apply mechanics_validated.
Qed.

Lemma emptyState_inv : replay_inv emptyState.
Proof.
  split; [split; simpl; try by constructor|].
  - intros a b Ha. by apply elem_of_nil in Ha.
  - unfold gap; simpl. rewrite !val_ZeroValue. lra.
Qed.
End proofs.
