(* ===== verification/ProjectionFinalize.v ===== *)
(** * Marks, positions and totals of a projection

    [finalize] values the open lots at the latest eligible marks. On a state
    that satisfies the replay invariant it succeeds whenever the marks are
    valid and every open instrument has an eligible one: the P&L equation it
    re-checks always holds. *)

From S2P Require Import Prelude GoStd Externals EconomicId Instrument Transaction SourceEvent Normalization.
From S2P Require Import Projection ProjectionFifo ProjectionPayload ProjectionProofs.

Local Open Scope go_scope.

Section finalize.
Context {E : Externals} {L : ExternalLaws}.
Local Open Scope Q_scope.

(** ** Positions *)

Definition basis_of (i : UUID) (lot : ProjectionLot) : Q := if lot.(lot_InstrumentID) ==? i then basis lot else 0.

Lemma one_sided_cases lots i : one_sided lots ->
  (forall lot, lot ∈ lots -> lot.(lot_InstrumentID) = i -> 0 <= val lot.(lot_RemainingQuantity)) \/
  (forall lot, lot ∈ lots -> lot.(lot_InstrumentID) = i -> val lot.(lot_RemainingQuantity) <= 0).
Proof.
  intros Hside.
  destruct (decide (Exists (fun lot => lot.(lot_InstrumentID) = i /\
                              IsNegative lot.(lot_RemainingQuantity) = true) lots)) as [Hex|Hno].
  - right. apply Exists_exists in Hex as (a & Ha & Hi & Hneg). dec_bools. intros b Hb Hbi.
    apply Qnot_lt_le. intros Hpos. by apply (Hside a b Ha Hb ltac:(congruence)).
  - left. intros lot Hlot Hi. apply Qnot_lt_le. intros Hneg. apply Hno, Exists_exists. exists lot.
    by rewrite IsNegative_true.
Qed.

(** A flat instrument has no open lot and no cash tied up. *)
Lemma flat_lots s i : shape s -> position s i == 0 ->
  forall lot, lot ∈ s.(st_lots) -> lot.(lot_InstrumentID) = i -> val lot.(lot_RemainingQuantity) == 0.
Proof.
  intros [_ _ Hside _] Hflat lot Hlot Hi. enough (held i lot == 0) as Hz.
  { unfold held in Hz. by rewrite bool_decide_eq_true_2 in Hz. }
  destruct (one_sided_cases _ i Hside) as [Hp|Hn];
    [apply (sumQ_nonneg_zero (held i) s.(st_lots))|apply (sumQ_nonpos_zero (held i) s.(st_lots))]; try done;
    intros x Hx; unfold held; case_bool_decide; auto; lra.
Qed.

Lemma flat_basis s i : shape s -> position s i == 0 -> sumQ (basis_of i) s.(st_lots) == 0.
Proof.
  intros Hs Hflat. apply sumQ_zero. intros lot Hlot. unfold basis_of. case_bool_decide; [|reflexivity].
  pose proof (flat_lots s i Hs Hflat lot Hlot ltac:(done)) as Hz.
  by apply (proj1 (Forall_forall _ _) (sh_settled _ Hs) lot Hlot).
Qed.

Lemma addLots_sum i lots p :
  let p' := foldl (addLotToPosition i) p lots in
  val p'.(pos_Quantity) == val p.(pos_Quantity) + sumQ (held i) lots /\
  val p'.(pos_RemainingOpeningCash) == val p.(pos_RemainingOpeningCash) + sumQ (basis_of i) lots.
Proof.
  revert p. induction lots as [|lot lots IH]; intros p; cbn [foldl sumQ]; [lra|].
  specialize (IH (addLotToPosition i p lot)). cbv zeta in *. destruct IH as [-> ->].
  unfold addLotToPosition, held, basis_of, basis. case_bool_decide; cbn [negb]; cbn; dec_push; lra.
Qed.

Lemma position_quantity s i :
  val (foldl (addLotToPosition i) (emptyPosition i) s.(st_lots)).(pos_Quantity) == position s i.
Proof. destruct (addLots_sum i s.(st_lots) (emptyPosition i)) as [-> _]. simpl. rewrite val_ZeroValue. unfold position. lra. Qed.

Lemma position_basis s i :
  val (foldl (addLotToPosition i) (emptyPosition i) s.(st_lots)).(pos_RemainingOpeningCash) ==
  sumQ (basis_of i) s.(st_lots).
Proof. destruct (addLots_sum i s.(st_lots) (emptyPosition i)) as [_ ->]. simpl. rewrite val_ZeroValue. lra. Qed.

(** Value of the open lots of [i] at a price. *)
Definition worth (i : UUID) (price : Q) (lot : ProjectionLot) : Q :=
  if lot.(lot_InstrumentID) ==? i
  then val lot.(lot_RemainingQuantity) * price * val lot.(lot_MarkMultiplier) else 0.

Lemma positionMarketValue_sum i price lots :
  val (positionMarketValue i price lots) == sumQ (worth i (val price)) lots.
Proof.
  unfold positionMarketValue. rewrite <- (Qplus_0_l (sumQ _ lots)), <- val_ZeroValue at 1.
  generalize ZeroValue. induction lots as [|lot lots IH]; intros a; cbn [foldl sumQ]; [lra|].
  rewrite IH. unfold worth at 2. case_bool_decide; cbn [andb]; [|lra].
  destruct (IsZero _) eqn:Hz; cbn [negb]; dec_bools; dec_push; [rewrite Hz|]; lra.
Qed.

(** ** Mark selection *)

(** Candidates the replay may use for an instrument. *)
Definition usable (request : ProjectionRequest) (currency : string) (i : UUID) (mark : MarkObservation) : Prop :=
  mark.(mark_InstrumentID) = i /\ markIneligible request currency mark = false.

(** No usable mark of [marks] is later than [mark]. *)
Definition latest (request : ProjectionRequest) (currency : string) (i : UUID) (mark : MarkObservation)
    (marks : list MarkObservation) : Prop :=
  usable request currency i mark /\ mark ∈ marks /\
  forall other, other ∈ marks -> usable request currency i other -> projectionMarkLater other mark = false.

Lemma mark_later_trans a b c :
  projectionMarkLater a b = true -> projectionMarkLater b c = true -> projectionMarkLater a c = true.
Proof.
  unfold projectionMarkLater, TimeEqual, After.
  destruct (Z.eqb_spec a.(mark_EffectiveAt).(instant) b.(mark_EffectiveAt).(instant)),
    (Z.eqb_spec b.(mark_EffectiveAt).(instant) c.(mark_EffectiveAt).(instant)),
    (Z.eqb_spec a.(mark_EffectiveAt).(instant) c.(mark_EffectiveAt).(instant)); cbn [negb];
    rewrite ?Z.ltb_lt; try (intros; lia).
  destruct (Z.eqb_spec a.(mark_ObservedAt).(instant) b.(mark_ObservedAt).(instant)),
    (Z.eqb_spec b.(mark_ObservedAt).(instant) c.(mark_ObservedAt).(instant)),
    (Z.eqb_spec a.(mark_ObservedAt).(instant) c.(mark_ObservedAt).(instant)); cbn [negb];
    rewrite ?Z.ltb_lt; try (intros; lia).
  intros Hab Hbc. by eapply string_lt_trans.
Qed.

Lemma mark_later_irrefl a : projectionMarkLater a a = false.
Proof. unfold projectionMarkLater, TimeEqual. rewrite !Z.eqb_refl. apply string_lt_irrefl. Qed.

(** The selection so far is the latest usable mark of the candidates seen. *)
Definition selection_ok (request : ProjectionRequest) (currency : string) (seen : list MarkObservation)
    (selected : gmap UUID MarkObservation) : Prop :=
  forall i, match selected !! i with
            | Some mark => latest request currency i mark seen
            | None => forall other, other ∈ seen -> ~ usable request currency i other
            end.

Lemma selectMarks_sound request currency marks seen selected out :
  selectMarks request currency (Some <$> marks) selected = Ok out ->
  selection_ok request currency seen selected -> selection_ok request currency (seen ++ marks) out.
Proof.
  revert seen selected. induction marks as [|mark marks IH]; intros seen selected; cbn [fmap list_fmap selectMarks].
  { intros [= ->]. by rewrite app_nil_r. }
  intros H Hok. inv_ok H. rewrite cons_middle, app_assoc.
  destruct (markIneligible request currency mark) eqn:Hel; eapply IH in H; try exact H; intros i.
  - specialize (Hok i). destruct (selected !! i) as [cur|].
    + destruct Hok as (Hu & Hin & Hmax). split; [done|]. split; [set_solver|].
      intros other [Ho|Ho]%elem_of_app; [by apply Hmax|].
      apply list_elem_of_singleton in Ho as ->. intros [_ Hne]. congruence.
    + intros other [Ho|Ho]%elem_of_app; [by apply Hok|].
      apply list_elem_of_singleton in Ho as ->. intros [_ Hne]. congruence.
  - assert (Hother : forall other, other ∈ seen ++ [mark] -> usable request currency i other ->
      other ∈ seen \/ (other = mark /\ mark.(mark_InstrumentID) = i)).
    { intros other [Ho|Ho]%elem_of_app [Hi _]; [by left|]. apply list_elem_of_singleton in Ho as ->. by right. }
    pose proof (Hok i) as Hi.
    destruct (decide (mark.(mark_InstrumentID) = i)) as [Heq|Hne]; [rewrite Heq|].
    + destruct (selected !! i) as [cur|] eqn:Hcur.
      * destruct Hi as (Hu & Hin & Hmax). destruct (projectionMarkLater mark cur) eqn:Hlater.
        -- rewrite lookup_insert_eq. split; [done|]. split; [set_solver|].
           intros other Ho Hous. destruct (Hother other Ho Hous) as [Hs|[-> _]]; [|apply mark_later_irrefl].
           specialize (Hmax other Hs Hous). destruct (projectionMarkLater other mark) eqn:Hom; [|done].
           by rewrite (mark_later_trans _ _ _ Hom Hlater) in Hmax.
        -- rewrite Hcur. split; [done|]. split; [set_solver|].
           intros other Ho Hous. destruct (Hother other Ho Hous) as [Hs|[-> _]]; auto.
      * rewrite lookup_insert_eq. split; [done|]. split; [set_solver|].
        intros other Ho Hous. destruct (Hother other Ho Hous) as [Hs|[-> _]]; [by destruct (Hi other)|].
        apply mark_later_irrefl.
    + destruct (match selected !! mark.(mark_InstrumentID) with
                | Some current => projectionMarkLater mark current | None => true end);
        rewrite ?lookup_insert_ne by done;
        (destruct (selected !! i) as [cur|];
         [destruct Hi as (Hu & Hin & Hmax); split; [done|]; split; [set_solver|]|]);
        intros other Ho; (intros Hous || intros Hous); destruct (Hother other Ho Hous) as [Hs|[-> ?]]; try done;
        try (by apply Hmax); by apply (Hi other).
Qed.

(** A selection that succeeds has read valid marks only. *)
Lemma selectMarks_valid request currency cs : forall selected out, selectMarks request currency cs selected = Ok out ->
  exists marks, cs = Some <$> marks /\ Forall (fun mark => MarkObservation_Validate mark = Ok tt) marks.
Proof.
  induction cs as [|[mark|] cs IH]; intros selected out; cbn [selectMarks]; [by exists []| |done].
  intros H. inv_ok H. repeat match goal with x : unit |- _ => destruct x end.
  assert (Hrec : exists selected', selectMarks request currency cs selected' = Ok out) by (destruct (markIneligible _ _ _); eauto).
  destruct Hrec as [selected' Hrec]. destruct (IH _ _ Hrec) as (marks & -> & Hv). exists (mark :: marks). split; [done|]. by constructor.
Qed.

(** The later of two marks is decided by their times and identifiers. *)
Lemma mark_later_total a b : projectionMarkLater a b = false -> projectionMarkLater b a = false -> a.(mark_ID) = b.(mark_ID).
Proof.
  unfold projectionMarkLater, TimeEqual, After.
  destruct (Z.eqb_spec a.(mark_EffectiveAt).(instant) b.(mark_EffectiveAt).(instant)) as [H1|H1],
    (Z.eqb_spec b.(mark_EffectiveAt).(instant) a.(mark_EffectiveAt).(instant)) as [H2|H2]; cbn [negb]; try lia;
    rewrite ?Z.ltb_ge; try (intros; lia).
  destruct (Z.eqb_spec a.(mark_ObservedAt).(instant) b.(mark_ObservedAt).(instant)) as [H3|H3],
    (Z.eqb_spec b.(mark_ObservedAt).(instant) a.(mark_ObservedAt).(instant)) as [H4|H4]; cbn [negb]; try lia;
    rewrite ?Z.ltb_ge; try (intros; lia).
  intros Hab Hba. apply (inj uuid_string). by apply string_lt_total.
Qed.

Lemma selection_unique request currency marks marks' s s' : marks ≡ₚ marks' -> NoDup (mark_ID <$> marks) ->
  selection_ok request currency marks s -> selection_ok request currency marks' s' -> s = s'.
Proof.
  intros Hp Hnd Hs Hs'. apply map_eq. intros i. specialize (Hs i). specialize (Hs' i).
  destruct (s !! i) as [m|], (s' !! i) as [m'|]; try done.
  - destruct Hs as (Hu & Hin & Hmax), Hs' as (Hu' & Hin' & Hmax'). rewrite <- Hp in Hin'. f_equal.
    assert (Hid : mark_ID m = mark_ID m').
    { apply mark_later_total; [apply Hmax'; [by rewrite <- Hp|done]|by apply Hmax]. }
    apply list_elem_of_lookup in Hin as [j Hj], Hin' as [k Hk].
    assert (j = k) as -> by (eapply NoDup_lookup; [exact Hnd|by rewrite list_lookup_fmap, Hj|rewrite list_lookup_fmap, Hk; cbn; by rewrite Hid]).
    congruence.
  - destruct Hs as (Hu & Hin & _). destruct (Hs' m); [by rewrite <- Hp|done].
  - destruct Hs' as (Hu & Hin & _). destruct (Hs m'); [by rewrite Hp|done].
Qed.

Lemma selectMarks_selects request currency marks selected :
  selectMarks request currency (Some <$> marks) ∅ = Ok selected -> selection_ok request currency marks selected.
Proof. intros Hs. apply (selectMarks_sound request currency marks [] ∅ selected Hs). intros i. rewrite lookup_empty. set_solver. Qed.

Lemma candidates_valid cs : (forall c, c ∈ cs -> exists mark, c = Some mark /\ MarkObservation_Validate mark = Ok tt) ->
  exists marks, cs = Some <$> marks /\ Forall (fun mark => MarkObservation_Validate mark = Ok tt) marks.
Proof.
  induction cs as [|c cs IH]; intros Hvalid; [by exists []|].
  destruct (Hvalid c ltac:(by left)) as (mark & -> & Hv). destruct IH as (marks & -> & Hm); [intros c' Hc'; apply Hvalid; by right|].
  exists (mark :: marks). split; [done|by constructor].
Qed.

Lemma selectMarks_total request currency marks selected :
  Forall (fun mark => MarkObservation_Validate mark = Ok tt) marks ->
  exists out, selectMarks request currency (Some <$> marks) selected = Ok out.
Proof.
  intros Hv. revert selected. induction Hv as [|mark marks Hm Hv IH]; intros selected; cbn [fmap list_fmap selectMarks].
  { eauto. }
  rewrite Hm. cbn [wrap mbind outcome_bind]. destruct (markIneligible _ _ _); apply IH.
Qed.

(** ** Totals *)

Lemma buildPosition_cases s selected i p mark :
  buildPosition s selected i = Ok (p, mark) ->
  p.(pos_InstrumentID) = i /\ val p.(pos_Quantity) == position s i /\
  val p.(pos_RemainingOpeningCash) == sumQ (basis_of i) s.(st_lots) /\
  ((p.(pos_Open) = true /\ ~ position s i == 0 /\
    exists obs, selected !! i = Some obs /\ mark = Some (projectionMarkFromObservation obs) /\
      p.(pos_MarkObservationID) = obs.(mark_ID) /\
      val p.(pos_MarketValue) == sumQ (worth i (val obs.(mark_Price))) s.(st_lots) /\
      val p.(pos_UnrealizedPnL) == val p.(pos_MarketValue) + sumQ (basis_of i) s.(st_lots)) \/
   (p.(pos_Open) = false /\ position s i == 0 /\ mark = None /\
    val p.(pos_MarketValue) == 0 /\ val p.(pos_UnrealizedPnL) == 0)).
Proof.
  unfold buildPosition. pose proof (position_quantity s i) as Hq. pose proof (position_basis s i) as Hb.
  destruct (IsZero _) eqn:Hz; cbn [negb]; dec_bools.
  - intros [= <- <-]. cbn. rewrite !val_ZeroValue. rewrite Hq in Hz. repeat (split; [done|]). right. done.
  - destruct (selected !! i) as [obs|]; [|done]. intros [= <- <-]. cbn.
    repeat (split; [done|]). left. split; [done|]. split; [by rewrite <- Hq|].
    exists obs. repeat (split; [done|]). split; [apply positionMarketValue_sum|]. rewrite val_Add, Hb. reflexivity.
Qed.

Lemma buildPositions_sums s selected ids mv un marks ps mv' un' :
  shape s -> buildPositions s selected ids mv un = Ok (marks, ps, mv', un') ->
  val mv' == val mv + sumQ (fun p => val p.(pos_MarketValue)) ps /\
  val un' == val un + sumQ (fun p => val p.(pos_UnrealizedPnL)) ps /\
  sumQ (fun p => val p.(pos_UnrealizedPnL)) ps ==
    sumQ (fun p => val p.(pos_MarketValue)) ps + sumQ (fun i => sumQ (basis_of i) s.(st_lots)) ids /\
  pos_InstrumentID <$> ps = ids.
Proof.
  intros Hs. revert mv un marks ps. induction ids as [|i ids IH]; intros mv un marks ps; cbn [buildPositions].
  { intros [= <- <- <- <-]. cbn. split; [lra|]. split; [lra|]. split; [lra|done]. }
  intros H. inv_ok H. destruct x as [p mark]. inv_ok H. destruct x as [[[marks' ps'] mv1] un1].
  injection H as <- <- <- <-. apply IH in H1 as (Hmv & Hun & Hsum & Hids).
  apply buildPosition_cases in H0 as (Hid & _ & _ & Hcase). cbn [sumQ fmap list_fmap].
  rewrite Hmv, Hun, Hsum. destruct Hcase as [(-> & _ & obs & _ & _ & _ & _ & Hu)|(-> & Hflat & _ & Hm0 & Hu0)].
  - dec_push. rewrite Hu. split; [lra|]. split; [lra|]. split; [lra|]. f_equal; done.
  - rewrite Hm0, Hu0, (flat_basis s i Hs Hflat). split; [lra|]. split; [lra|]. split; [lra|]. f_equal; done.
Qed.

(** Every reported position was built from the state. *)
Lemma buildPositions_built s selected ids mv un marks ps mv' un' q :
  buildPositions s selected ids mv un = Ok (marks, ps, mv', un') -> q ∈ ps ->
  exists mark, buildPosition s selected q.(pos_InstrumentID) = Ok (q, mark).
Proof.
  revert mv un marks ps. induction ids as [|i ids IH]; intros mv un marks ps; cbn [buildPositions].
  { intros [= <- <- <- <-] Hq. by apply elem_of_nil in Hq. }
  intros H Hq. inv_ok H. destruct x as [q0 mark]. inv_ok H. destruct x as [[[ms' ps'] mv2] un2].
  injection H as <- <- <- <-. apply elem_of_cons in Hq as [-> |Hq]; [|by eapply IH].
  destruct (buildPosition_cases _ _ _ _ _ H0) as (-> & _). eauto.
Qed.

Lemma buildPositions_member s selected ids mv un marks ps mv' un' q :
  buildPositions s selected ids mv un = Ok (marks, ps, mv', un') -> q ∈ ps ->
  val q.(pos_Quantity) == position s q.(pos_InstrumentID).
Proof.
  intros H Hq. destruct (buildPositions_built _ _ _ _ _ _ _ _ _ _ H Hq) as (mark & Hb).
  by apply buildPosition_cases in Hb as (_ & Hv & _).
Qed.

Lemma activity_sorted s : NoDup (sort_slice uuidTextLess (elements s.(st_activity))) /\
  forall i, i ∈ sort_slice uuidTextLess (elements s.(st_activity)) <-> i ∈ s.(st_activity).
Proof.
  pose proof (sort_slice_perm uuidTextLess (elements s.(st_activity))) as Hp. split.
  - rewrite Hp. apply NoDup_elements.
  - intros i. rewrite Hp. apply elem_of_elements.
Qed.

(** An instrument with a balance has been active. *)
Lemma position_active s i : shape s -> ~ position s i == 0 -> i ∈ s.(st_activity).
Proof.
  intros Hs Hi. destruct (decide (Exists (fun lot => lot.(lot_InstrumentID) = i) s.(st_lots))) as [Hex|Hno].
  - apply Exists_exists in Hex as (lot & Hlot & <-). by apply (proj1 (Forall_forall _ _) (sh_active _ Hs)).
  - exfalso. apply Hi. unfold position. apply sumQ_zero. intros lot Hlot. unfold held. case_bool_decide; [|done].
    exfalso. apply Hno, Exists_exists. eauto.
Qed.

Lemma basis_partition s : shape s ->
  sumQ (fun i => sumQ (basis_of i) s.(st_lots)) (sort_slice uuidTextLess (elements s.(st_activity))) ==
  sumQ basis s.(st_lots).
Proof.
  intros [_ _ _ Hact]. destruct (activity_sorted s) as [Hnd Hin].
  apply (sumQ_grouped lot_InstrumentID basis); [done|]. intros lot Hlot. apply Hin.
  by apply (proj1 (Forall_forall _ _) Hact).
Qed.

Lemma buildPositions_total s selected ids mv un :
  (forall i, i ∈ ids -> ~ position s i == 0 -> is_Some (selected !! i)) ->
  exists r, buildPositions s selected ids mv un = Ok r.
Proof.
  revert mv un. induction ids as [|i ids IH]; intros mv un Hsel; cbn [buildPositions]; [eauto|].
  assert (Hp : exists pm, buildPosition s selected i = Ok pm).
  { unfold buildPosition. destruct (IsZero _) eqn:Hz; cbn [negb]; [eauto|]. dec_bools.
    rewrite position_quantity in Hz. destruct (Hsel i ltac:(set_solver) Hz) as [obs ->]. eauto. }
  destruct Hp as [[p mark] ->]. cbn [mbind outcome_bind].
  edestruct IH as [[[[ms ps] mv'] un'] ->]; [set_solver|]. cbn. eauto.
Qed.

(** The equation [finalize] re-checks is a consequence of the invariant. *)
Lemma totals_equation s selected marks ps mv un :
  replay_inv s ->
  buildPositions s selected (sort_slice uuidTextLess (elements s.(st_activity))) Zero Zero = Ok (marks, ps, mv, un) ->
  val s.(st_realized) + val un == val s.(st_cash) + val mv - val s.(st_netCapital).
Proof.
  intros [Hs Hgap] H. apply buildPositions_sums in H as (Hmv & Hun & Hsum & _); [|done].
  rewrite (basis_partition s Hs) in Hsum. rewrite val_Zero in *. unfold gap in Hgap. lra.
Qed.

Lemma finalize_Ok request currency candidates s r :
  finalize request currency candidates s = Ok r ->
  exists selected marks mv un,
    selectMarks request currency candidates ∅ = Ok selected /\
    buildPositions s selected (sort_slice uuidTextLess (elements s.(st_activity))) Zero Zero =
      Ok (marks, r.1.2, mv, un) /\
    r.1.1 = sort_slice (fun l r => uuidTextLess l.(pmark_InstrumentID) r.(pmark_InstrumentID)) marks /\
    r.2 = MkProjectionTotals s.(st_cash) s.(st_netCapital) s.(st_fees) s.(st_rebates) s.(st_realized) un mv
            (Add s.(st_cash) mv) (Sub (Add s.(st_cash) mv) s.(st_netCapital)).
Proof.
  unfold finalize. intros H. inv_ok H. destruct x0 as [[[marks ps] mv] un]. inv_ok H. subst r. cbn. eauto 10.
Qed.
End finalize.
