(* ===== verification/ProjectionSafety.v ===== *)
(** * The projection neither dereferences nil, divides by zero nor indexes out of range

    Every pointer the replay dereferences was checked by
    [ProjectionMechanics.Validate], every divisor is a nonzero quantity, every
    index comes from the scan of the same slice. *)

From S2P Require Import Prelude GoStd Externals EconomicId Instrument Transaction SourceEvent Normalization.
From S2P Require Import Projection ProjectionFifo ProjectionPayload ProjectionProofs.

Local Open Scope go_scope.

Section safety.
Context {E : Externals}.

Lemma normalizeJSONObject_safe v label : safe (Transaction.normalizeJSONObject v label).
Proof. unfold Transaction.normalizeJSONObject. solve_safe. Qed.
#[local] Hint Resolve normalizeJSONObject_safe : safe.

Lemma validate_postings_safe id ps keys sums : safe (validate_postings id ps keys sums).
Proof.
  revert keys sums. induction ps as [|p ps IH]; intros keys sums; simpl; [auto with safe|].
  apply safe_bind; [unfold validate_posting; solve_safe|]. intros [ks ss] _. apply IH.
Qed.
#[local] Hint Resolve validate_postings_safe : safe.

Lemma Transaction_Validate_safe t : safe (Transaction_Validate t).
Proof. unfold Transaction_Validate. solve_safe. Qed.

Lemma MarkObservation_Validate_safe mark : safe (MarkObservation_Validate mark).
Proof. unfold MarkObservation_Validate. solve_safe. Qed.

Lemma ProjectionMechanics_Validate_safe m : safe (ProjectionMechanics_Validate m).
Proof. unfold ProjectionMechanics_Validate. solve_safe. Qed.
#[local] Hint Resolve Transaction_Validate_safe MarkObservation_Validate_safe ProjectionMechanics_Validate_safe : safe.

Lemma eligibleTransactions_safe request ts : safe (eligibleTransactions request ts).
Proof. induction ts as [|[t|] ts IH]; simpl; solve_safe. Qed.

Lemma collectMechanics_safe eligible cs result : safe (collectMechanics eligible cs result).
Proof. revert result. induction cs as [|m cs IH]; intros result; simpl; solve_safe. Qed.

Lemma cashAndCosts_safe currency ps cash fees rebates : safe (cashAndCosts currency ps cash fees rebates).
Proof. revert cash fees rebates. induction ps as [|p ps IH]; intros cash fees rebates; simpl; solve_safe. Qed.

Lemma findMovement_safe key i ps : safe (findMovement key i ps).
Proof. induction ps as [|p ps IH]; simpl; solve_safe. Qed.
#[local] Hint Resolve eligibleTransactions_safe collectMechanics_safe cashAndCosts_safe findMovement_safe : safe.

Lemma canonicalJSON_safe raw : safe (canonicalJSON raw).
Proof. unfold canonicalJSON. solve_safe. Qed.

Lemma map_outcome_safe {A B} (f : A -> outcome B) l : (forall x, safe (f x)) -> safe (map_outcome f l).
Proof. intros H. induction l as [|x l IH]; simpl; solve_safe. Qed.
#[local] Hint Resolve canonicalJSON_safe map_outcome_safe : safe.

Lemma canonicalTransaction_safe t : safe (canonicalTransaction t).
Proof.
  unfold canonicalTransaction. solve_safe. apply map_outcome_safe. intros p. unfold canonicalPosting. solve_safe.
Qed.

Lemma canonicalMarks_safe marks : safe (canonicalProjectionMarks marks).
Proof. apply map_outcome_safe. intros mark. unfold canonicalMark. solve_safe. Qed.
#[local] Hint Resolve canonicalTransaction_safe canonicalMarks_safe : safe.

Lemma selectMarks_safe request currency marks selected : safe (selectMarks request currency marks selected).
Proof. revert selected. induction marks as [|[mark|] marks IH]; intros selected; simpl; solve_safe. Qed.

Lemma buildPositions_safe s selected ids mv un : safe (buildPositions s selected ids mv un).
Proof.
  revert mv un. induction ids as [|i ids IH]; intros mv un; cbn [buildPositions]; [auto with safe|].
  apply safe_bind; [unfold buildPosition; solve_safe|]. intros [p mark] _.
  apply safe_bind; [apply IH|]. intros [[[??]?]?] _. auto with safe.
Qed.

Lemma finalize_safe request currency marks s : safe (finalize request currency marks s).
Proof.
  unfold finalize. apply safe_bind; [apply selectMarks_safe|]. intros selected _.
  apply safe_bind; [apply buildPositions_safe|]. intros [[[??]?]?] _. solve_safe.
Qed.

Context {L : ExternalLaws}.

Lemma applyMovement_safe t m i mv cash mult disposition exact s :
  safe (applyMovement t m i mv cash mult disposition exact s).
Proof. rewrite applyMovement_eq. solve_safe. Qed.

Lemma transferLots_safe t m mv ordinal lots r cash : safe (transferLots t m mv ordinal lots r cash).
Proof. rewrite transferLots_eq. destruct (fifo _ _ _ _) as [[??]?]. auto with safe. Qed.
#[local] Hint Resolve applyMovement_safe transferLots_safe : safe.

Lemma applyPhysicalOption_safe t m cash s :
  is_Some m.(mech_PositionQuantity) -> is_Some m.(mech_DeliverableQuantity) -> is_Some m.(mech_StrikePrice) ->
  safe (applyPhysicalOption t m cash s).
Proof.
  intros ???. unfold applyPhysicalOption, projectionInstrumentMovement. solve_safe; by apply safe_deref.
Qed.

Lemma applyEconomicTransaction_safe t m cash s : mechanics_ready m -> safe (applyEconomicTransaction t m cash s).
Proof.
  intros Hready. unfold applyEconomicTransaction, mechanics_ready in *. apply safe_bind; [auto with safe|].
  intros [] _. unfold projectionInstrumentMovement. destruct m.(mech_EventType); try done;
    try (apply applyPhysicalOption_safe; naive_solver); solve_safe; apply safe_deref; naive_solver.
Qed.

Lemma replay_safe currency mechs ts s :
  map_Forall (fun _ => mechanics_ready) mechs -> safe (replay currency mechs ts s).
Proof.
  intros Hready. revert s. induction ts as [|t ts IH]; intros s; cbn [replay]; [auto with safe|].
  apply safe_bind; [|intros; apply IH]. unfold replayTransaction.
  apply safe_bind; [apply cashAndCosts_safe|]. intros [[cash fees] rebates] _. solve_safe.
  apply applyEconomicTransaction_safe. by eapply Hready.
Qed.
End safety.
