(* ===== verification/ProjectionTheorems.v ===== *)
(** * What a portfolio projection shows

    The correctness theorems of [BuildPortfolioProjection]: the accounting
    equation, conservation of inventory, FIFO order, cash allocation, mark
    selection, independence from the order of the rows and from rows after the
    as-of time, and the absence of panics. *)

From S2P Require Import Prelude GoStd Externals EconomicId Instrument Transaction SourceEvent Normalization.
From S2P Require Import Projection ProjectionFifo ProjectionPayload ProjectionProofs ProjectionFinalize.
From S2P Require Import ProjectionSafety.

Local Open Scope go_scope.

Section theorems.
Context {E : Externals}.

(** ** Order of transactions *)

Lemma transaction_after_cases x y : not_after projectionTransactionLess x y <->
  (x.(tx_EffectiveAt).(instant) < y.(tx_EffectiveAt).(instant))%Z \/
  (x.(tx_EffectiveAt).(instant) = y.(tx_EffectiveAt).(instant) /\
   ((x.(tx_ObservedAt).(instant) < y.(tx_ObservedAt).(instant))%Z \/
    (x.(tx_ObservedAt).(instant) = y.(tx_ObservedAt).(instant) /\
     string_lt (uuid_string y.(tx_ID)) (uuid_string x.(tx_ID)) = false))).
Proof.
  unfold not_after, projectionTransactionLess, TimeEqual, Before.
  destruct (Z.eqb_spec y.(tx_EffectiveAt).(instant) x.(tx_EffectiveAt).(instant)); cbn [negb];
    [|rewrite Z.ltb_ge; lia].
  destruct (Z.eqb_spec y.(tx_ObservedAt).(instant) x.(tx_ObservedAt).(instant)); cbn [negb];
    [|rewrite Z.ltb_ge; lia].
  split; [|naive_solver lia]. intros. right. split; [lia|]. right. by split; [lia|].
Qed.

Lemma string_not_lt_trans s t u : string_lt t s = false -> string_lt u t = false -> string_lt u s = false.
Proof.
  intros H1 H2. destruct (string_lt u s) eqn:Hus; [|done].
  destruct (string_lt s t) eqn:Hst; [by rewrite (string_lt_trans u s t) in H2|].
  by rewrite (string_lt_total s t Hst H1) in Hus; congruence.
Qed.

#[local] Instance transaction_order_trans : Transitive (not_after projectionTransactionLess).
Proof.
  intros x y z. rewrite !transaction_after_cases.
  intros [?|[? [?|[? H1]]]] [?|[? [?|[? H2]]]]; try lia.
  right. split; [lia|]. right. split; [lia|]. by eapply string_not_lt_trans.
Qed.

#[local] Instance transaction_order_total : Total (not_after projectionTransactionLess).
Proof.
  intros x y. rewrite !transaction_after_cases.
  destruct (string_lt (uuid_string y.(tx_ID)) (uuid_string x.(tx_ID))) eqn:H.
  - destruct (string_lt (uuid_string x.(tx_ID)) (uuid_string y.(tx_ID))) eqn:H'; [|lia].
    pose proof (string_lt_trans _ _ _ H H') as Hc. by rewrite string_lt_irrefl in Hc.
  - lia.
Qed.

Context {L : ExternalLaws}.

Lemma sort_transactions_unique ts ts' : NoDup (tx_ID <$> ts) -> ts ≡ₚ ts' ->
  sort_slice projectionTransactionLess ts = sort_slice projectionTransactionLess ts'.
Proof.
  intros Hnd Hp. apply (StronglySorted_unique_strong (not_after projectionTransactionLess)).
  - intros x y Hx Hy Hxy Hyx. rewrite sort_slice_perm in Hx. rewrite sort_slice_perm, <- Hp in Hy.
    apply transaction_after_cases in Hxy, Hyx.
    assert (Hid : uuid_string x.(tx_ID) = uuid_string y.(tx_ID)).
    { destruct Hxy as [?|[? [?|[? H1]]]], Hyx as [?|[? [?|[? H2]]]]; try lia. by apply string_lt_total. }
    apply (inj uuid_string) in Hid.
    apply list_elem_of_lookup in Hx as [j Hj]. apply list_elem_of_lookup in Hy as [k Hk].
    enough (j = k) by congruence. eapply NoDup_lookup; [exact Hnd| |]; rewrite list_lookup_fmap.
    + rewrite Hj. reflexivity.
    + rewrite Hk. simpl. congruence.
  - apply StronglySorted_merge_sort; apply _.
  - apply StronglySorted_merge_sort; apply _.
  - by rewrite !sort_slice_perm.
Qed.

(** ** Inversion of a successful build *)

Record built (input : ProjectionInput) (request : ProjectionRequest) (currency : string) (ts : list Transaction)
    (mechs : gmap UUID ProjectionMechanics) (s : projectionState) (p : PortfolioProjection) : Prop := {
  bt_boundary : normalizeProjectionBoundary input.(pin_Request) input.(pin_BaseCurrency) = Ok (request, currency);
  bt_eligible : exists eligible, eligibleTransactions request input.(pin_Transactions) = Ok eligible /\
                  ts = sort_slice projectionTransactionLess eligible;
  bt_mechanics : eligibleProjectionMechanics input.(pin_Mechanics) ts = Ok mechs;
  bt_replay : replay currency mechs ts emptyState = Ok s;
  bt_finalize : finalize request currency input.(pin_Marks) s =
                  Ok (p.(proj_Marks), p.(proj_Positions), p.(proj_Totals));
  bt_lots : p.(proj_Lots) = s.(st_lots);
  bt_matches : p.(proj_Matches) = s.(st_matches);
}.

Lemma build_inversion input p : BuildPortfolioProjection input = Ok p ->
  exists request currency ts mechs s, built input request currency ts mechs s p.
Proof.
  unfold BuildPortfolioProjection. intros H. inv_ok H. destruct x as [request currency]. inv_ok H.
  match goal with Hf : finalize _ _ _ _ = Ok ?r |- _ => destruct r as [[marks positions] totals] end.
  inv_ok H. subst p. eexists request, currency, _, _, _. split; eauto.
Qed.

Lemma built_state input request currency ts mechs s p : built input request currency ts mechs s p ->
  replay_inv s /\ replayed mechs ts emptyState s.
Proof.
  intros []. assert (Hr : replayed mechs ts emptyState s).
  { eapply replay_totals; [|done]. by eapply eligible_ready. }
  split; [|done]. destruct emptyState_inv as [Hs Hg]. destruct Hr. split; [auto|]. by rewrite rp_gap.
Qed.

Local Open Scope Q_scope.

Lemma built_totals input request currency ts mechs s p : built input request currency ts mechs s p ->
  let totals := p.(proj_Totals) in
  val totals.(tot_RealizedPnL) + val totals.(tot_UnrealizedPnL) == val totals.(tot_TotalPnL) /\
  val totals.(tot_TotalPnL) == val totals.(tot_Equity) - val totals.(tot_NetCapital) /\
  val totals.(tot_Equity) == val totals.(tot_Cash) + val totals.(tot_MarketValue) /\
  val totals.(tot_MarketValue) == sumQ (fun q => val q.(pos_MarketValue)) p.(proj_Positions) /\
  val totals.(tot_UnrealizedPnL) == sumQ (fun q => val q.(pos_UnrealizedPnL)) p.(proj_Positions) /\
  val totals.(tot_RealizedPnL) == val s.(st_realized) /\ val totals.(tot_Cash) == val s.(st_cash) /\
  val totals.(tot_NetCapital) == val s.(st_netCapital) /\ val totals.(tot_Fees) == val s.(st_fees) /\
  val totals.(tot_Rebates) == val s.(st_rebates).
Proof.
  intros Hb. destruct (built_state _ _ _ _ _ _ _ Hb) as [Hinv _]. destruct Hb.
  apply finalize_Ok in bt_finalize0 as (selected & marks & mv & un & _ & Hpos & _ & Htot). simpl in *.
  pose proof (totals_equation _ _ _ _ _ _ Hinv Hpos) as Heq.
  apply buildPositions_sums in Hpos as (Hmv & Hun & _); [|apply Hinv]. rewrite val_Zero in *.
  rewrite Htot. cbn. dec_push. rewrite Hmv, Hun in *. repeat split; lra.
Qed.

(** ** Properties *)

(** C1: the accounting statement of a projection. The cash, capital, fee and
    rebate totals are the sums of the corresponding ledger postings of the
    eligible transactions; equity is cash plus market value; and realized plus
    unrealized profit equals equity less net capital, the sum over positions. *)
Theorem projection_accounting input p :
  BuildPortfolioProjection input = Ok p ->
  exists request currency ts,
    normalizeProjectionBoundary input.(pin_Request) input.(pin_BaseCurrency) = Ok (request, currency) /\
    eligibleTransactions request input.(pin_Transactions) = Ok ts /\
    let totals := p.(proj_Totals) in
    val totals.(tot_Cash) == sumQ (posted "asset:cash") ts /\
    val totals.(tot_NetCapital) == sumQ (fun t => if is_capital t then posted "asset:cash" t else 0) ts /\
    val totals.(tot_Fees) == sumQ (posted "expense:fees") ts /\
    val totals.(tot_Rebates) == - sumQ (posted "income:rebates") ts /\
    val totals.(tot_MarketValue) == sumQ (fun q => val q.(pos_MarketValue)) p.(proj_Positions) /\
    val totals.(tot_UnrealizedPnL) == sumQ (fun q => val q.(pos_UnrealizedPnL)) p.(proj_Positions) /\
    val totals.(tot_Equity) == val totals.(tot_Cash) + val totals.(tot_MarketValue) /\
    val totals.(tot_RealizedPnL) + val totals.(tot_UnrealizedPnL) ==
      val totals.(tot_Equity) - val totals.(tot_NetCapital).
Proof.
  intros (request & currency & ts & mechs & s & Hb)%build_inversion.
  destruct (built_totals _ _ _ _ _ _ _ Hb) as (H1 & H2 & H3 & H4 & H5 & _ & H6 & H7 & H8 & H9).
  destruct (built_state _ _ _ _ _ _ _ Hb) as [_ [_ _ _ Hcash Hcap Hfees Hreb]].
  destruct Hb as [Hbd (eligible & Hel & ->) _ _ _ _ _].
  exists request, currency, eligible. split; [done|]. split; [done|]. cbv zeta.
  pose proof (sort_slice_perm projectionTransactionLess eligible) as Hp.
  rewrite (sumQ_perm _ _ _ Hp) in Hcash. rewrite (sumQ_perm _ _ _ Hp) in Hcap.
  rewrite (sumQ_perm _ _ _ Hp) in Hfees. rewrite (sumQ_perm _ _ _ Hp) in Hreb.
  cbn [emptyState st_cash st_netCapital st_fees st_rebates] in *. rewrite val_ZeroValue in *.
  repeat split; lra.
Qed.

(** C23: [finalize] succeeds exactly when the marks do. On every state the
    replay can reach, it succeeds if and only if every candidate mark is present
    and valid (also those it would skip) and every instrument with a nonzero
    position has a usable one; the P&L equation it re-checks never fails. *)
Theorem finalize_succeeds currency mechs ts s request candidates :
  map_Forall (fun _ m => ProjectionMechanics_Validate m = Ok tt) mechs ->
  replay currency mechs ts emptyState = Ok s ->
  (exists r, finalize request currency candidates s = Ok r) <->
  (forall c, c ∈ candidates -> exists mark, c = Some mark /\ MarkObservation_Validate mark = Ok tt) /\
  (forall i, ~ position s i == 0 -> exists mark, Some mark ∈ candidates /\ usable request currency i mark).
Proof.
  intros Hmech Hreplay.
  assert (Hready : map_Forall (fun _ => mechanics_ready) mechs).
  { eapply map_Forall_impl; [done|]. intros k m. apply mechanics_validated. }
  destruct (replay_totals _ _ _ _ _ Hready Hreplay) as [Hs Hg _ _ _ _ _].
  destruct emptyState_inv as [Hs0 Hg0].
  assert (Hinv : replay_inv s) by (split; [auto|by rewrite Hg]). split.
  - intros (r & (selected & ms & mv & un & Hsel & Hbuild & _)%finalize_Ok).
    destruct (selectMarks_valid _ _ _ _ _ Hsel) as (marks & -> & Hvalid). split.
    { intros c (mark & -> & Hin)%list_elem_of_fmap. exists mark. by rewrite Forall_forall in Hvalid; auto. }
    pose proof (selectMarks_selects _ _ _ _ Hsel) as Hok.
    intros i Hi. pose proof (position_active s i (proj1 Hinv) Hi) as Hact. apply activity_sorted in Hact.
    destruct (buildPositions_sums _ _ _ _ _ _ _ _ _ (proj1 Hinv) Hbuild) as (_ & _ & _ & Hids). rewrite <- Hids in Hact.
    apply list_elem_of_fmap in Hact as (q & Hq & Hin). destruct (buildPositions_built _ _ _ _ _ _ _ _ _ _ Hbuild Hin) as (mark & Hpos).
    apply buildPosition_cases in Hpos as (_ & _ & _ & [(_ & _ & obs & Hobs & _)|(_ & Hflat & _)]); [|by destruct Hi; rewrite Hq].
    specialize (Hok i). rewrite Hq in Hok. rewrite Hobs in Hok. destruct Hok as (Hu & Hmem & _). exists obs. rewrite Hq.
    split; [by apply list_elem_of_fmap_2|done].
  - intros [Hvalid Husable].
    destruct (candidates_valid candidates Hvalid) as (marks & -> & Hv). destruct (selectMarks_total request currency marks ∅ Hv) as [selected Hsel].
    pose proof (selectMarks_selects _ _ _ _ Hsel) as Hok.
    assert (Hsome : forall i, ~ position s i == 0 -> is_Some (selected !! i)).
    { intros i Hi. specialize (Hok i). destruct (selected !! i); [eauto|].
      destruct (Husable i Hi) as (mark & (? & [= <-] & Hin)%list_elem_of_fmap & Hu). by destruct (Hok mark). }
    destruct (buildPositions_total s selected (sort_slice uuidTextLess (elements s.(st_activity))) Zero Zero)
      as [[[[ms ps] mv] un] Hpos]; [auto|].
    pose proof (totals_equation _ _ _ _ _ _ Hinv Hpos) as Heq.
    unfold finalize. rewrite Hsel. cbn [mbind outcome_bind]. rewrite Hpos. cbn.
    rewrite (proj2 (Equal_true _ _)); [cbn; eauto|]. dec_push. lra.
Qed.

(** C28: conservation of inventory. The quantity of every reported position is
    the sum of what the mechanics of the eligible transactions move, and no
    instrument with a nonzero balance is missing from the report. *)
Theorem projection_positions input p :
  BuildPortfolioProjection input = Ok p ->
  exists request currency ts mechs,
    normalizeProjectionBoundary input.(pin_Request) input.(pin_BaseCurrency) = Ok (request, currency) /\
    eligibleTransactions request input.(pin_Transactions) = Ok ts /\
    eligibleProjectionMechanics input.(pin_Mechanics) (sort_slice projectionTransactionLess ts) = Ok mechs /\
    NoDup (pos_InstrumentID <$> p.(proj_Positions)) /\
    (forall q, q ∈ p.(proj_Positions) ->
       val q.(pos_Quantity) == sumQ (fun t => tx_effect mechs t q.(pos_InstrumentID)) ts) /\
    (forall i, ~ sumQ (fun t => tx_effect mechs t i) ts == 0 -> i ∈ pos_InstrumentID <$> p.(proj_Positions)).
Proof.
  intros (request & currency & ts & mechs & s & Hb)%build_inversion.
  destruct (built_state _ _ _ _ _ _ _ Hb) as [[Hs _] [_ _ Hpos _ _ _ _]].
  destruct Hb as [Hbd (eligible & Hel & ->) Hme _ Hfin _ _].
  apply finalize_Ok in Hfin as (selected & marks & mv & un & _ & Hbuild & _ & _). simpl in Hbuild.
  exists request, currency, eligible, mechs. do 3 (split; [done|]).
  destruct (activity_sorted s) as [Hnd Hin].
  destruct (buildPositions_sums _ _ _ _ _ _ _ _ _ Hs Hbuild) as (_ & _ & _ & Hids). rewrite Hids.
  assert (Hsum : forall j, position s j == sumQ (fun t => tx_effect mechs t j) eligible).
  { intros j. rewrite Hpos, (sumQ_perm _ _ _ (sort_slice_perm _ eligible)). unfold position; simpl. lra. }
  split; [done|]. split.
  - intros q Hq. rewrite <- Hsum. by eapply buildPositions_member.
  - intros i Hi. rewrite <- Hsum in Hi. apply Hin. by apply position_active.
Qed.

(** ** Inventory movements *)

(** C27: the two-phase, index-based loop of [applyMovement] is one structural
    FIFO pass: outside the two documented rejections it always returns, with
    exactly the state of the reference [fifoMovement]; its last guard never
    fires and no index, division or dereference can panic. *)
Theorem applyMovement_reference t m i mv cash mult disposition exact s :
  applyMovement t m i mv cash mult disposition exact s =
  if IsZero mv || (i ==? Nil) || negb (IsPositive mult)
  then Err (Errorf "transaction %s has invalid inventory movement mechanics")
  else if exact && negb (IsZero (fifo i mv s.(st_lots) mv).2)
  then Err (Errorf "settlement transaction %s does not exactly close existing signed inventory")
  else Ok (fifoMovement t m i mv cash mult disposition s).
Proof. apply applyMovement_eq. Qed.

Lemma fifoMovement_lots t m i mv cash mult disposition s :
  exists opened, (fifoMovement t m i mv cash mult disposition s).(st_lots) =
    (fifo i mv s.(st_lots) mv).1.1 ++ opened.
Proof.
  unfold fifoMovement. destruct (fifo _ _ _ _) as [[lots cs] u], (settle _ _ _ _ _ _ _ _ _ _ _) as [rc s1]. simpl.
  destruct (IsZero u); [exists []; by rewrite app_nil_r|]. simpl. eauto.
Qed.

(** First in, first out. If a movement touches a lot, every earlier lot it
    could have closed (same instrument, open, opposite side) is left with a
    remainder of zero. *)
Theorem movement_fifo_order t m i mv cash mult disposition exact s s' j k lj lk :
  applyMovement t m i mv cash mult disposition exact s = Ok s' ->
  (j < k)%nat -> s.(st_lots) !! j = Some lj -> s.(st_lots) !! k = Some lk ->
  lotSkipped i mv lj = false -> s'.(st_lots) !! k <> Some lk ->
  exists lj', s'.(st_lots) !! j = Some lj' /\ val lj'.(lot_RemainingQuantity) == 0.
Proof.
  intros (Hmv & -> & _)%applyMovement_Ok Hjk Hj Hk Hskip.
  destruct (fifoMovement_lots t m i mv cash mult disposition s) as [opened ->].
  pose proof (fifo_sound i mv s.(st_lots) mv Hmv (direction_self mv Hmv)) as Hff.
  pose proof (fifo_order i mv s.(st_lots) mv j k lj lk Hmv (direction_self mv Hmv) Hjk Hj Hk Hskip) as Horder.
  destruct (fifo i mv _ mv) as [[lots cs] u]. simpl in *. destruct Hff as [_ Hred _ _ _ _ _].
  pose proof (Forall2_length _ _ _ Hred) as Hlen. apply lookup_lt_Some in Hj, Hk.
  rewrite !lookup_app_l by lia. exact Horder.
Qed.

(** C29: a movement allocates its cash and its quantity exactly. The closing
    cash of the new matches plus the basis of the lot it opens is the event
    cash, the matched quantity plus the opened remainder is the movement, and
    the opening cash released is exactly what leaves the existing lots. *)
Theorem movement_allocates t m i mv cash mult disposition exact s s' :
  applyMovement t m i mv cash mult disposition exact s = Ok s' ->
  exists kept opened new,
    s'.(st_lots) = kept ++ opened /\ Forall2 lot_reduced s.(st_lots) kept /\ (length opened <= 1)%nat /\
    s'.(st_matches) = s.(st_matches) ++ new /\
    sumQ (fun mt => val mt.(match_ClosingCash)) new + sumQ basis opened == val cash /\
    direction mv * sumQ (fun mt => val mt.(match_Quantity)) new + sumQ (held i) opened == val mv /\
    sumQ basis kept + sumQ (fun mt => val mt.(match_OpeningCash)) new == sumQ basis s.(st_lots) /\
    Forall (fun mt => mt.(match_InstrumentID) = i /\ 0 < val mt.(match_Quantity) /\
              val mt.(match_RealizedPnL) == val mt.(match_OpeningCash) + val mt.(match_ClosingCash)) new.
Proof.
  intros (Hmv & -> & _)%applyMovement_Ok. unfold fifoMovement.
  pose proof (fifo_sound i mv s.(st_lots) mv Hmv (direction_self mv Hmv)) as Hff.
  pose proof (fifo_no_consumption i mv s.(st_lots) mv) as Hnone.
  destruct (fifo i mv _ mv) as [[lots cs] u]. destruct Hff as [_ Hred _ Hbasis Hqty Hpos _].
  pose proof (settle_frame t m i mv cash disposition (IsZero u) cs 0 cash s) as Hframe.
  pose proof (settle_sound t m i mv cash disposition (IsZero u) cs 0 cash s) as Hsettle.
  destruct (settle _ _ _ _ _ _ _ _ _ _ _) as [rc s1]. simpl in Hframe.
  destruct Hsettle as [(new & Hm & Hcs & Hreal & Hcash & _) Hexact].
  assert (Hsums : sumQ (fun mt => val mt.(match_Quantity)) new == sumQ (fun c => val (con_quantity c)) cs /\
                  sumQ (fun mt => val mt.(match_OpeningCash)) new == sumQ (fun c => val (con_opening c)) cs /\
                  Forall (fun mt => mt.(match_InstrumentID) = i /\ 0 < val mt.(match_Quantity)) new).
  { clear -Hcs Hpos. induction Hcs as [|c mt cs new (Hi & Hq & Ho & _) _ IH]; [done|].
    apply Forall_cons in Hpos as [Hc Hpos]. destruct (IH Hpos) as (H1 & H2 & H3). cbn [sumQ].
    rewrite H1, H2, Hq, Ho. repeat split; try reflexivity. constructor; [by rewrite Hq|done]. }
  destruct Hsums as (Hq & Ho & Hi).
  exists lots, (if IsZero u then [] else drop (length lots) (openLot t m i u rc mult (set_lots s1 lots)).(st_lots)), new.
  assert (Hall : Forall (fun mt => mt.(match_InstrumentID) = i /\ 0 < val mt.(match_Quantity) /\
              val mt.(match_RealizedPnL) == val mt.(match_OpeningCash) + val mt.(match_ClosingCash)) new).
  { rewrite Forall_forall in *. naive_solver. }
  rewrite <- Ho in Hbasis. rewrite <- Hq in Hqty.
  destruct (IsZero u) eqn:Hu; dec_bools; cbn [touch set_lots st_lots st_matches].
  - assert (Hne : cs <> []) by (intros ->; by rewrite (Hnone eq_refl) in Hu).
    specialize (Hexact eq_refl Hne). rewrite app_nil_r. cbn [sumQ length].
    refine (conj eq_refl (conj Hred (conj _ (conj Hm (conj _ (conj _ (conj Hbasis Hall))))))); [lia|lra|].
    rewrite Hqty. lra.
  - unfold openLot. cbn [set_lots st_lots st_matches]. rewrite drop_app_length. cbn [sumQ length].
    refine (conj eq_refl (conj Hred (conj _ (conj Hm (conj _ (conj _ (conj Hbasis Hall))))))); [lia| |].
    + unfold basis. cbn. lra.
    + rewrite Hqty. unfold held. cbn. rewrite bool_decide_eq_true_2 by done. lra.
Qed.

(** Accuracy of the pro-rata splits. A non-final allocation is within
    1e-12 of the exact share of the total and is subtracted from the remainder;
    the final one takes the remainder. *)
Theorem allocation_prorata total quantity whole remainingAmount remainingQuantity final r :
  allocateProjectionAmount total quantity whole remainingAmount remainingQuantity final = Ok r ->
  let '(allocated, amount', quantity') := r in
  val allocated + val amount' == val remainingAmount /\
  (final = true -> val amount' == 0) /\
  (final = false -> ~ val whole == 0 /\
     Qabs (val allocated - val total * val quantity / val whole) <= 1 # 1000000000000 /\
     val quantity' == val remainingQuantity - val quantity).
Proof.
  unfold allocateProjectionAmount. destruct final.
  - intros [= <-]. rewrite val_Zero. split; [lra|]. split; [intros; lra|done].
  - intros H. inv_ok H. apply checked_Div_Ok in H0 as [Hw ->]. subst r. dec_push. split; [lra|].
    split; [done|]. intros _. split; [done|]. split; [by apply prorata_near|lra].
Qed.

(** Accuracy of the released basis. Closing part of a lot releases the
    pro-rata share of its remaining opening cash to within 1e-12, closing all
    of it releases everything, and no cash is lost between the two. *)
Theorem consume_prorata mv quantity lot opening lot' :
  ~ val mv == 0 -> 0 <= val quantity -> direction mv * val lot.(lot_RemainingQuantity) < 0 ->
  consumeLot mv quantity lot = Ok (opening, lot') ->
  Qabs (val opening - val lot.(lot_RemainingOpeningCash) * val quantity / Qabs (val lot.(lot_RemainingQuantity)))
    <= 1 # 1000000000000 /\
  val lot'.(lot_RemainingOpeningCash) + val opening == val lot.(lot_RemainingOpeningCash) /\
  val lot'.(lot_RemainingQuantity) == val lot.(lot_RemainingQuantity) + direction mv * val quantity /\
  lot_settled lot'.
Proof.
  intros Hmv Hq Hopp. set (rem := val lot.(lot_RemainingQuantity)) in *.
  assert (Hrem : ~ rem == 0) by (intros Hz; rewrite Hz in Hopp; lra).
  rewrite consumeLot_eq by done. intros [= <- <-]. unfold lot_settled, reducedLot, releasedCash.
  cbn [set_remaining lot_RemainingOpeningCash lot_RemainingQuantity].
  pose proof (val_signedPart mv quantity Hmv) as Hsp.
  assert (Habs : val (Abs lot.(lot_RemainingQuantity)) == Qabs rem) by apply val_Abs.
  assert (Habs0 : ~ Qabs rem == 0) by (rewrite <- Habs; by apply val_Abs_nonzero).
  destruct (Equal quantity _) eqn:Heq; dec_bools.
  - rewrite Habs in Heq. rewrite Heq.
    assert (Hzero : rem + direction mv * Qabs rem == 0).
    { destruct (direction_cases mv Hmv) as [[Hd _]|[Hd _]]; rewrite Hd in *;
        [rewrite Qabs_neg by lra|rewrite Qabs_pos by lra]; lra. }
    rewrite (proj2 (IsZero_true _)) by (rewrite val_Add, Hsp; fold rem; by rewrite Heq).
    dec_push. rewrite Hsp, Heq. split; [|split; [lra|split; [reflexivity|intros; reflexivity]]].
    unfold Qdiv. rewrite <- Qmult_assoc, Qmult_inv_r, Qmult_1_r by done.
    unfold Qminus. by rewrite Qplus_opp_r.
  - rewrite (proj2 (IsZero_false _)).
    + dec_push. rewrite Hsp. split; [|split; [lra|split; [reflexivity|]]].
      * rewrite <- Habs. apply prorata_near. by rewrite Habs.
      * intros Hz. exfalso. apply Heq. rewrite Habs.
        destruct (direction_cases mv Hmv) as [[Hd _]|[Hd _]]; rewrite Hd in *;
          [rewrite Qabs_neg by lra|rewrite Qabs_pos by lra]; fold rem in Hz; lra.
    + rewrite val_Add, Hsp. fold rem. intros Hz. apply Heq. rewrite Habs.
      destruct (direction_cases mv Hmv) as [[Hd _]|[Hd _]]; rewrite Hd in *;
        [rewrite Qabs_neg by lra|rewrite Qabs_pos by lra]; lra.
Qed.

(** ** Valuation *)

(** every open position is valued at the latest usable mark: one of the
    candidates, in the account currency and requested source, effective and
    observed no later than the as-of time and no older than the maximum age,
    with no usable candidate after it; the market value is the value of the
    open lots at that price. *)
Theorem positions_latest_mark input p marks :
  BuildPortfolioProjection input = Ok p -> input.(pin_Marks) = Some <$> marks ->
  exists request currency,
    normalizeProjectionBoundary input.(pin_Request) input.(pin_BaseCurrency) = Ok (request, currency) /\
    forall q, q ∈ p.(proj_Positions) -> q.(pos_Open) = true ->
    exists mark, latest request currency q.(pos_InstrumentID) mark marks /\
      q.(pos_MarkObservationID) = mark.(mark_ID) /\
      (mark.(mark_EffectiveAt).(instant) <= request.(req_AsOf).(instant))%Z /\
      (mark.(mark_ObservedAt).(instant) <= request.(req_AsOf).(instant))%Z /\
      val q.(pos_MarketValue) == sumQ (worth q.(pos_InstrumentID) (val mark.(mark_Price))) p.(proj_Lots).
Proof.
  intros (request & currency & ts & mechs & s & Hb)%build_inversion Hmarks.
  exists request, currency. destruct Hb as [Hbd _ _ _ Hfin Hlots _]. split; [done|]. intros q Hq Hopen.
  apply finalize_Ok in Hfin as (selected & ms & mv & un & Hsel & Hbuild & _ & _). simpl in Hbuild.
  rewrite Hmarks in Hsel. rewrite Hlots.
  destruct (buildPositions_built _ _ _ _ _ _ _ _ _ _ Hbuild Hq) as (mark & Hpos).
  apply buildPosition_cases in Hpos as (_ & _ & _ & [(_ & _ & obs & Hobs & _ & Hid & Hval & _)|(Hclosed & _)]);
    [|congruence].
  pose proof (selectMarks_selects _ _ _ _ Hsel) as Hok.
  specialize (Hok q.(pos_InstrumentID)). rewrite Hobs in Hok. exists obs. do 2 (split; [done|]).
  destruct Hok as ([_ Hel] & _). unfold markIneligible, After in Hel. split_bools.
  repeat match goal with Hx : (_ <? _)%Z = false |- _ => apply Z.ltb_ge in Hx end. done.
Qed.

(** ** Rows the replay must not see *)

Lemma eligibleTransactions_skip request a t b :
  After t.(tx_EffectiveAt) request.(req_AsOf) || After t.(tx_ObservedAt) request.(req_AsOf) = true ->
  eligibleTransactions request (a ++ Some t :: b) = eligibleTransactions request (a ++ b).
Proof.
  intros Hf. induction a as [|[x|] a IH]; cbn [app eligibleTransactions].
  - by rewrite Hf.
  - by rewrite IH.
  - done.
Qed.

Lemma selectMarks_skip request currency a mark b selected :
  MarkObservation_Validate mark = Ok tt -> markIneligible request currency mark = true ->
  selectMarks request currency (a ++ Some mark :: b) selected = selectMarks request currency (a ++ b) selected.
Proof.
  intros Hv Hi. revert selected. induction a as [|[x|] a IH]; intros selected; cbn [app selectMarks].
  - by rewrite Hv, Hi.
  - destruct (MarkObservation_Validate x); cbn; [|done|done]. destruct (markIneligible request currency x); apply IH.
  - done.
Qed.

Definition with_rows (input : ProjectionInput) (ts : list (option Transaction)) (marks : list (option MarkObservation)) :
    ProjectionInput :=
  MkProjectionInput input.(pin_Request) input.(pin_BaseCurrency) ts input.(pin_Mechanics) marks.

(** No look-ahead. Adding a transaction effective or observed after the
    as-of time, or a valid mark that is effective or observed after it, changes
    nothing: same projection, same checksums, same errors. *)
Theorem projection_no_look_ahead input request currency ts1 t ts2 ms1 mark ms2 :
  normalizeProjectionBoundary input.(pin_Request) input.(pin_BaseCurrency) = Ok (request, currency) ->
  After t.(tx_EffectiveAt) request.(req_AsOf) || After t.(tx_ObservedAt) request.(req_AsOf) = true ->
  MarkObservation_Validate mark = Ok tt ->
  After mark.(mark_EffectiveAt) request.(req_AsOf) || After mark.(mark_ObservedAt) request.(req_AsOf) = true ->
  BuildPortfolioProjection (with_rows input (ts1 ++ Some t :: ts2) (ms1 ++ Some mark :: ms2)) =
  BuildPortfolioProjection (with_rows input (ts1 ++ ts2) (ms1 ++ ms2)).
Proof.
  intros Hbd Ht Hv Hm. unfold BuildPortfolioProjection, finalize. cbn [with_rows pin_Request pin_BaseCurrency
    pin_Transactions pin_Mechanics pin_Marks]. rewrite Hbd. cbn [mbind outcome_bind].
  rewrite (eligibleTransactions_skip request ts1 t ts2 Ht).
  assert (Hin : markIneligible request currency mark = true).
  { unfold markIneligible. apply orb_true_iff in Hm as [-> | ->]; rewrite ?orb_true_r; done. }
  rewrite (selectMarks_skip request currency ms1 mark ms2 ∅ Hv Hin). reflexivity.
Qed.

(** ** Order of the rows *)

Lemma eligibleTransactions_perm request cs cs' ts : cs ≡ₚ cs' -> eligibleTransactions request cs = Ok ts ->
  exists ts', eligibleTransactions request cs' = Ok ts' /\ ts ≡ₚ ts'.
Proof.
  intros Hp. revert ts. induction Hp as [|c cs cs' _ IH|c c' cs|cs1 cs2 cs3 _ IH1 _ IH2]; intros ts.
  - eauto.
  - cbn [eligibleTransactions]. destruct c as [t|]; [|done]. destruct (_ || _); [apply IH|].
    intros H. inv_ok H. destruct x. rewrite H0, H1. cbn. destruct (IH _ H2) as (ts' & -> & Hts).
    subst ts. cbn. eauto.
  - cbn [eligibleTransactions]. destruct c as [t|], c' as [t'|]; try done.
    + destruct (_ || _), (_ || _); eauto. intros H. inv_ok H. inv_ok H2.
      repeat match goal with x : unit |- _ => destruct x end. simplify_eq.
      repeat match goal with
      | Hok : ?m = Ok _ |- context [?m] => rewrite Hok; cbn [wrap mbind outcome_bind]
      | Hb : ?b = false |- context [reject ?b _] => rewrite Hb; cbn [reject mbind outcome_bind]
      end.
      eexists. split; [done|]. apply Permutation_swap.
    + destruct (_ || _); [done|]. intros H. inv_ok H.
  - intros H. destruct (IH1 _ H) as (ts2 & H2 & Hp2). destruct (IH2 _ H2) as (ts3 & H3 & Hp3).
    exists ts3. split; [done|]. by rewrite Hp2.
Qed.

Lemma eligible_sublist request cs ts : eligibleTransactions request cs = Ok ts ->
  sublist (tx_ID <$> ts) (omap (fmap tx_ID) cs).
Proof.
  revert ts. induction cs as [|[t|] cs IH]; intros ts; cbn [eligibleTransactions].
  - intros [= <-]. constructor.
  - cbn. destruct (_ || _); [intros; constructor; auto|]. intros H. inv_ok H. subst ts. cbn. constructor. auto.
  - done.
Qed.

Lemma collectMechanics_perm eligible cs cs' r out : cs ≡ₚ cs' ->
  collectMechanics eligible cs r = Ok out -> collectMechanics eligible cs' r = Ok out.
Proof.
  intros Hp. revert r out. induction Hp as [|c cs cs' _ IH|c c' cs|cs1 cs2 cs3 _ IH1 _ IH2]; intros r out; [done| | |auto].
  - cbn [collectMechanics]. case_bool_decide; [|apply IH]. intros Hc. inv_ok Hc. destruct x.
    rewrite H0. cbn. rewrite (proj2 (reject_Ok _ _ tt) H1). cbn. by apply IH.
  - cbn [collectMechanics]. case_bool_decide as Hc1; case_bool_decide as Hc2; try done.
    intros H. inv_ok H. repeat match goal with x : unit |- _ => destruct x end.
    split_bools. rewrite lookup_insert_None in *. destruct_and!.
    match goal with Hv : ProjectionMechanics_Validate c = Ok tt |- _ => rewrite Hv end. cbn.
    match goal with Hv : r !! mech_TransactionID c = None |- _ => rewrite Hv end. cbn.
    match goal with Hv : ProjectionMechanics_Validate c' = Ok tt |- _ => rewrite Hv end. cbn.
    rewrite lookup_insert_ne by done.
    match goal with Hv : r !! mech_TransactionID c' = None |- _ => rewrite Hv end. cbn.
    by rewrite insert_insert_ne.
Qed.

Lemma selectMarks_perm request currency cs cs' selected : cs ≡ₚ cs' -> NoDup (omap (fmap mark_ID) cs) ->
  selectMarks request currency cs ∅ = Ok selected -> selectMarks request currency cs' ∅ = Ok selected.
Proof.
  intros Hp Hnd Hs. destruct (selectMarks_valid _ _ _ _ _ Hs) as (marks & -> & Hv).
  destruct (Permutation_map_inv Some marks (symmetry Hp)) as (marks' & -> & Hp'). change (map Some marks') with (Some <$> marks').
  assert (Hids : omap (fmap mark_ID) (Some <$> marks) = mark_ID <$> marks).
  { clear. induction marks as [|m marks IH]; [done|]. cbn. by rewrite <- IH. }
  rewrite Hids in Hnd. destruct (selectMarks_total request currency marks' ∅) as [selected' Hs']; [by rewrite <- Hp'|].
  rewrite Hs'. f_equal. symmetry. by apply (selection_unique request currency marks marks'); [| |eapply selectMarks_selects..].
Qed.

(** C37: a projection does not depend on the order in which rows are loaded:
    permuting the transactions, the mechanics and the marks of a successful
    build gives the same projection, byte for byte, where no two transactions
    and no two marks share an identifier (their primary keys). *)
Theorem projection_order_independent input input' p :
  BuildPortfolioProjection input = Ok p ->
  input'.(pin_Request) = input.(pin_Request) -> input'.(pin_BaseCurrency) = input.(pin_BaseCurrency) ->
  input.(pin_Transactions) ≡ₚ input'.(pin_Transactions) -> input.(pin_Mechanics) ≡ₚ input'.(pin_Mechanics) ->
  input.(pin_Marks) ≡ₚ input'.(pin_Marks) ->
  NoDup (omap (fmap tx_ID) input.(pin_Transactions)) -> NoDup (omap (fmap mark_ID) input.(pin_Marks)) ->
  BuildPortfolioProjection input' = Ok p.
Proof.
  intros Hb Hreq Hcur Hts Hms Hmarks Hnd Hndm. unfold BuildPortfolioProjection in *. rewrite Hreq, Hcur.
  apply bind_Ok in Hb as ([request currency] & -> & Hb). apply bind_Ok in Hb as (ts & Hel & Hb).
  destruct (eligibleTransactions_perm _ _ _ _ Hts Hel) as (ts' & Hel' & Hp). cbn [mbind outcome_bind]. rewrite Hel'.
  cbn [mbind outcome_bind].
  assert (Hids : NoDup (tx_ID <$> ts)).
  { eapply sublist_NoDup; [exact Hnd|]. by eapply eligible_sublist. }
  rewrite <- (sort_transactions_unique ts ts' Hids Hp). rewrite <- (Permutation_length Hp).
  destruct (reject _ _); cbn [mbind outcome_bind] in *; [|done|done].
  apply bind_Ok in Hb as (mechs & Hmech & Hb).
  unfold eligibleProjectionMechanics in *. rewrite (collectMechanics_perm _ _ _ _ _ Hms Hmech). cbn [mbind outcome_bind].
  apply bind_Ok in Hb as (state & Hreplay & Hb). rewrite Hreplay. cbn [mbind outcome_bind].
  apply bind_Ok in Hb as (r & Hfin & Hb). eapply bind_pass; [|exact Hb].
  unfold finalize in *. apply bind_Ok in Hfin as (selected & Hsel & Hfin).
  eapply bind_pass; [by eapply selectMarks_perm|exact Hfin].
Qed.

(** ** Absence of panics *)

(** [BuildPortfolioProjection] never panics, whatever its input: every
    pointer it dereferences is set, every divisor nonzero, every index in
    range. *)
Theorem projection_never_panics input : safe (BuildPortfolioProjection input).
Proof.
  unfold BuildPortfolioProjection. apply safe_bind; [unfold normalizeProjectionBoundary; solve_safe|].
  intros [request currency] _. apply safe_bind; [apply eligibleTransactions_safe|]. intros ts _.
  apply safe_bind; [apply safe_reject|]. intros [] Hne%reject_Ok%Nat.eqb_neq. cbv zeta.
  apply safe_bind; [apply collectMechanics_safe|]. intros mechs Hmech.
  apply safe_bind; [by eapply replay_safe, eligible_ready|]. intros s _.
  apply safe_bind; [apply finalize_safe|]. intros [[marks positions] totals] _.
  apply safe_bind.
  { unfold projectionInputChecksum. apply safe_bind; [apply map_outcome_safe, canonicalTransaction_safe|].
    intros ? _. apply safe_bind; [apply canonicalMarks_safe|]. intros ? _. apply safe_Ok. }
  intros checksum _. apply safe_bind.
  - destruct (last _) eqn:Hlast; [apply safe_Ok|]. apply last_None in Hlast.
    pose proof (sort_slice_perm projectionTransactionLess ts) as Hp. rewrite Hlast in Hp.
    apply Permutation_nil_l in Hp. by subst ts.
  - intros through _. unfold marshalProjectionPayload. apply safe_bind; [|intros ? _; apply safe_Ok].
    apply safe_bind; [apply canonicalMarks_safe|]. intros ? _. apply safe_Ok.
Qed.

(** The invariant of the replay. In every reachable state each lot's
    remainder lies between zero and its opening quantity, an exhausted lot
    carries no cash, no instrument is held both long and short, and cash less
    net capital is realized profit plus the cash tied up in lots. *)
Theorem replay_invariant currency candidates eligible mechs ts s :
  eligibleProjectionMechanics candidates eligible = Ok mechs ->
  replay currency mechs ts emptyState = Ok s ->
  Forall lot_settled s.(st_lots) /\ Forall lot_within s.(st_lots) /\ one_sided s.(st_lots) /\
  val s.(st_cash) - val s.(st_netCapital) == val s.(st_realized) + sumQ basis s.(st_lots).
Proof.
  intros Hm%eligible_ready Hr. destruct (replay_totals _ _ _ _ _ Hm Hr) as [Hs Hg _ _ _ _ _].
  destruct emptyState_inv as [Hs0 Hg0]. destruct (Hs Hs0). do 3 (split; [done|]).
  rewrite Hg0 in Hg. unfold gap in Hg. lra.
Qed.
End theorems.
