(* ===== verification/JsonReader.v ===== *)
(** * Reading JSON into a struct (encoding/json)

    Decoding an object into a struct visits its members in order: a member is
    stored in the field its name matches, later ones win, [null] leaves a scalar
    field as it is and empties a slice, and a value of the wrong type makes the
    whole decoding fail. Splitting the bytes into raw members and elements, and
    reading one scalar, belong to the package and are parameters. *)

From S2P Require Import Prelude GoStd GoText Digits Externals ProjectionPayload TextProofs.
From Stdlib Require Import Ascii.

Local Open Scope go_scope.

(** ** Valid UTF-8 ([utf8.ValidString])

    [json.Marshal] replaces bytes that are not UTF-8, so only valid text is read
    back as it was. *)

Definition byte_in (lo hi : N) (a : ascii) : bool := ((lo <=? code a) && (code a <=? hi))%N.
Definition continuation : ascii -> bool := byte_in 128 191.

(** The range of the second byte, by the first one: [None] for a byte that
    starts no sequence; the number of bytes after the second. *)
Definition sequence_start (a : ascii) : option (N * N * nat) :=
  if byte_in 194 223 a then Some (128, 191, 0%nat)%N
  else if byte_in 224 224 a then Some (160, 191, 1%nat)%N
  else if byte_in 237 237 a then Some (128, 159, 1%nat)%N
  else if byte_in 225 239 a then Some (128, 191, 1%nat)%N
  else if byte_in 240 240 a then Some (144, 191, 2%nat)%N
  else if byte_in 241 243 a then Some (128, 191, 2%nat)%N
  else if byte_in 244 244 a then Some (128, 143, 2%nat)%N
  else None.

Fixpoint ValidString (s : string) : bool :=
  match s with
  | EmptyString => true
  | String a rest =>
      if (code a <? 128)%N then ValidString rest
      else match sequence_start a, rest with
           | Some (lo, hi, n), String b rest =>
               byte_in lo hi b &&
               match n, rest with
               | 0%nat, _ => ValidString rest
               | 1%nat, String c rest => continuation c && ValidString rest
               | _, String c (String d rest) => continuation c && continuation d && ValidString rest
               | _, _ => false
               end
           | _, _ => false
           end
  end.

Lemma graphic_valid s : string_forallb graphic s = true -> ValidString s = true.
Proof.
  induction s as [|a s IH]; [done|]. cbn [string_forallb ValidString]. intros Hs. split_bools.
  match goal with H : graphic a = true |- _ => unfold graphic in H; apply andb_true_iff in H as [_ Ha%N.leb_le] end.
  rewrite (proj2 (N.ltb_lt _ _)) by lia. by apply IH.
Qed.

(** ** [strconv.ParseInt(s, 10, 64)] *)
Definition ParseInt (s : string) : option Z :=
  let signed (sign : Z) (digits : list ascii) : option Z :=
    match digits with
    | [] => None
    | _ => n ← digits_value 0 digits ;
           let z := (sign * Z.of_N n)%Z in
           if ((min_int64 <=? z) && (z <=? max_int64))%Z then Some z else None
    end in
  match bytes s with
  | a :: rest => if (code a =? 45)%N then signed (-1)%Z rest else if (code a =? 43)%N then signed 1%Z rest else signed 1%Z (a :: rest)
  | [] => None
  end.

(** ** The package *)

Class JsonReader `{Externals} := {
  json_compact : string -> Prop;                              (* the text of one value, without white space around it *)
  json_members : string -> option (list (string * string));   (* the first value of a stream as an object: names and raw values *)
  json_elements : string -> option (list string);             (* a raw value into a []json.RawMessage *)
  json_unmarshal_string : string -> option string;            (* a raw value into a string *)
  json_unmarshal_number : string -> option string;            (* a raw value into a json.Number *)
  json_unmarshal_int : string -> option Z;                    (* a raw value into an int *)
  json_name_matches : string -> string -> bool;               (* the tag of a field and the name of a member *)
}.

(** Lower-case letters and underscores. *)
Definition plain_name (name : string) : bool := string_forallb (fun a => byte_in 97 122 a || (code a =? 95)%N) name.

(** Values that [Marshal] wrote are compact and read back as they were; an
    object and an array have the members and elements they were written with. *)
Class JsonReaderLaws `{R : JsonReader} : Prop := {
  compact_string s : json_compact (json_marshal_string s);
  compact_number n : json_compact (Itoa n);
  compact_bool b : json_compact (json_bool b);
  compact_value v : json_compact (json_marshal v);
  compact_struct fields : Forall (fun kv => plain_name kv.1 = true /\ json_compact kv.2) fields -> json_compact (json_struct fields);
  compact_slice items : Forall json_compact items -> json_compact (json_slice items);
  members_struct fields : Forall (fun kv => plain_name kv.1 = true /\ json_compact kv.2) fields ->
    json_members (json_struct fields) = Some fields;
  elements_slice items : Forall json_compact items -> json_elements (json_slice items) = Some items;
  unmarshal_string s : ValidString s = true -> json_unmarshal_string (json_marshal_string s) = Some s;
  unmarshal_number n : json_unmarshal_number (Itoa n) = Some (Itoa n);
  unmarshal_int n : (Z.of_N n <= max_int64)%Z -> json_unmarshal_int (Itoa n) = Some (Z.of_N n);
  marshal_not_null s : json_marshal_string s <> "null";
  name_matches tag name : plain_name tag = true -> plain_name name = true -> json_name_matches tag name = bool_decide (tag = name);
}.

(** ** The fields of a struct *)
Section fields.
Context `{R : JsonReader}.

(** The members a field receives, one after the other. *)
Definition field {A} (store : A -> string -> option A) (zero : A) (tag : string) (members : list (string * string)) : option A :=
  foldl (fun acc kv => current ← acc ; if json_name_matches tag kv.1 then store current kv.2 else Some current) (Some zero) members.

(** A scalar keeps its value when it meets [null]. *)
Definition scalar {A} (read : string -> option A) (current : A) (raw : string) : option A :=
  if raw ==? "null" then Some current else read raw.

Definition string_field : string -> list (string * string) -> option string := field (scalar json_unmarshal_string) "".
Definition number_field : string -> list (string * string) -> option string := field (scalar json_unmarshal_number) "".
Definition int_field : string -> list (string * string) -> option Z := field (scalar json_unmarshal_int) 0%Z.
Definition slice_field : string -> list (string * string) -> option (list string) := field (fun _ raw => json_elements raw) [].

Context {RL : JsonReaderLaws}.

Definition plain_fields (members : list (string * string)) : Prop :=
  NoDup members.*1 /\ Forall (fun kv => plain_name kv.1 = true) members.

(** Where names are plain and distinct, a field receives the member of its name. *)
Lemma field_skip {A} (store : A -> string -> option A) tag members : forall acc,
  plain_name tag = true -> Forall (fun kv => plain_name kv.1 = true) members -> tag ∉ members.*1 ->
  foldl (fun acc kv => current ← acc ; if json_name_matches tag kv.1 then store current kv.2 else Some current) acc members = acc.
Proof.
  induction members as [|[k v] members IH]; intros acc Htag Hplain Hnin; [done|]. cbn [foldl].
  apply Forall_cons in Hplain as [Hk Hplain]. cbn [fst] in *. cbn [fmap list_fmap fst] in Hnin. apply not_elem_of_cons in Hnin as [Hne Hnin].
  rewrite name_matches, bool_decide_eq_false_2 by done. rewrite IH by done. by destruct acc.
Qed.

Lemma field_found {A} (store : A -> string -> option A) zero tag members v : plain_name tag = true -> plain_fields members ->
  (tag, v) ∈ members -> field store zero tag members = store zero v.
Proof.
  unfold field. intros Htag [Hnd Hplain] Hin. apply list_elem_of_split in Hin as (l & k & ->).
  rewrite fmap_app in Hnd. cbn [fmap list_fmap fst] in Hnd. apply NoDup_app in Hnd as (_ & Hl & [Hk _]%NoDup_cons).
  apply Forall_app in Hplain as [Hpl [_ Hpk]%Forall_cons]. rewrite foldl_app. cbn [foldl].
  rewrite (field_skip store tag l), name_matches by (try done; intros Hin; apply (Hl tag Hin); by left).
  cbn [fst]. rewrite eq_self. cbn [mbind option_bind snd]. by apply field_skip.
Qed.

Lemma string_field_found tag members s : plain_name tag = true -> plain_fields members -> str tag s ∈ members -> ValidString s = true ->
  string_field tag members = Some s.
Proof.
  intros Ht Hp Hin Hs. unfold string_field. rewrite (field_found _ _ _ _ _ Ht Hp Hin). unfold scalar.
  rewrite bool_decide_eq_false_2 by apply marshal_not_null. by apply unmarshal_string.
Qed.

Lemma Itoa_not_null n : Itoa n <> "null".
Proof. intros Hn. pose proof (Itoa_value n) as Hv. by rewrite Hn in Hv. Qed.

Lemma number_field_found tag members n : plain_name tag = true -> plain_fields members -> (tag, Itoa n) ∈ members ->
  number_field tag members = Some (Itoa n).
Proof.
  intros Ht Hp Hin. unfold number_field. rewrite (field_found _ _ _ _ _ Ht Hp Hin). unfold scalar.
  rewrite bool_decide_eq_false_2 by apply Itoa_not_null. apply unmarshal_number.
Qed.

Lemma int_field_found tag members n : plain_name tag = true -> plain_fields members -> (tag, Itoa n) ∈ members ->
  (Z.of_N n <= max_int64)%Z -> int_field tag members = Some (Z.of_N n).
Proof.
  intros Ht Hp Hin Hn. unfold int_field. rewrite (field_found _ _ _ _ _ Ht Hp Hin). unfold scalar.
  rewrite bool_decide_eq_false_2 by apply Itoa_not_null. by apply unmarshal_int.
Qed.

Lemma slice_field_found tag members items : plain_name tag = true -> plain_fields members -> (tag, json_slice items) ∈ members ->
  Forall json_compact items -> slice_field tag members = Some items.
Proof. intros Ht Hp Hin Hi. unfold slice_field. rewrite (field_found _ _ _ _ _ Ht Hp Hin). by apply elements_slice. Qed.
End fields.

Lemma ParseInt_Itoa n : (Z.of_N n <= max_int64)%Z -> ParseInt (Itoa n) = Some (Z.of_N n).
Proof.
  intros Hn. unfold ParseInt. pose proof (Itoa_value n) as Hv. pose proof (Itoa_digits n) as Hd. rewrite string_forallb_bytes in Hd.
  destruct (bytes (Itoa n)) as [|a rest] eqn:Hb.
  - injection Hv as <-. by vm_compute in Hb.
  - cbn [forallb] in Hd. apply andb_true_iff in Hd as [Ha _]. unfold is_digit in Ha. apply andb_true_iff in Ha as [Ha%N.leb_le _].
    rewrite !(proj2 (N.eqb_neq _ _)) by lia. rewrite Hv. cbn [mbind option_bind]. rewrite Z.mul_1_l.
    rewrite (proj2 (Z.leb_le min_int64 _)), (proj2 (Z.leb_le _ max_int64)) by (try done; unfold min_int64; lia). done.
Qed.
