(* ===== verification/JsonInstances.v ===== *)
(** * A concrete JSON reader

    The laws of [JsonReader] are satisfiable: objects and arrays are split at the
    commas outside brackets and texts, by the scanner of [Instances.Json]. The
    witnesses decode with it; no theorem about the program depends on it. *)

From S2P Require Import Prelude GoStd GoText Digits Externals Instances ProjectionPayload EconomicIdProofs TextProofs JsonReader.
From Stdlib Require Import Ascii.
Import Instances.Json.

Local Open Scope go_scope.

(** ** Scanning *)

Definition deeper (k : nat) (m : mode) : mode :=
  match m with Out d => Out (d + k) | In d => In (d + k) | Esc d => Esc (d + k) end.

Lemma scan_app s t : forall m, scan m (s +:+ t)%string = scan m s ≫= fun m' => scan m' t.
Proof.
  induction s as [|a s IH]; intros m; [done|]. change (String a s +:+ t)%string with (String a (s +:+ t)). cbn [scan].
  destruct (step m a); [apply IH|done].
Qed.

Lemma step_deeper k m a m' : step m a = Some m' -> step (deeper k m) a = Some (deeper k m').
Proof.
  destruct m as [d|d|d]; cbn [step deeper].
  - destruct (code a =? 34)%N; [by intros [= <-]|]. destruct (opening a); [by intros [= <-]|].
    destruct (closing a); [destruct d; [done|by intros [= <-]]|]. destruct (comma a); [destruct d; [done|by intros [= <-]]|].
    by intros [= <-].
  - intros [= <-]. destruct (code a =? 34)%N; [done|]. by destruct (code a =? 92)%N.
  - by intros [= <-].
Qed.

Lemma scan_deeper k s : forall m m', scan m s = Some m' -> scan (deeper k m) s = Some (deeper k m').
Proof.
  induction s as [|a s IH]; cbn [scan]; intros m m' Hs; [by injection Hs as <-|].
  destruct (step m a) as [m''|] eqn:Hstep; [|done]. rewrite (step_deeper k _ _ _ Hstep). exact (IH _ _ Hs).
Qed.

Lemma scan_inside d s : scan (Out 0) s = Some (Out 0) -> scan (Out d) s = Some (Out d).
Proof. exact (scan_deeper d s (Out 0) (Out 0)). Qed.

Lemma scan_escaped d s : scan (In d) (escape s) = Some (In d).
Proof.
  induction s as [|a s IH]; [done|]. cbn [escape]. unfold special. destruct (code a =? 34)%N eqn:H1; [exact IH|].
  destruct (code a =? 92)%N eqn:H2; [exact IH|]. cbn [orb scan step]. by rewrite H1, H2.
Qed.

Lemma scan_quoted d s : scan (Out d) (quoted s) = Some (Out d).
Proof.
  unfold quoted. change (scan (In d) (escape s +:+ quote)%string = Some (Out d)). by rewrite scan_app, scan_escaped.
Qed.

(** Texts without brackets, commas and quotation marks. *)
Definition neutral (a : ascii) : bool := negb (code a =? 34)%N && negb (opening a) && negb (closing a) && negb (comma a).

Lemma scan_neutral d s : string_forallb neutral s = true -> scan (Out d) s = Some (Out d).
Proof.
  induction s as [|a s IH]; [done|]. cbn [string_forallb]. unfold neutral. intros Hs. split_bools. cbn [scan step].
  repeat match goal with H : _ = false |- _ => rewrite H end. by apply IH.
Qed.

Lemma digit_neutral a : is_digit a = true -> neutral a = true.
Proof.
  unfold is_digit, neutral, opening, closing, comma. intros Hd. split_bools.
  repeat match goal with H : (_ <=? _)%N = true |- _ => apply N.leb_le in H end. rewrite !(proj2 (N.eqb_neq _ _)) by lia. done.
Qed.

Lemma compact_intro s : s <> EmptyString -> scan (Out 0) s = Some (Out 0) -> compact s = true.
Proof. intros Hne Hs. unfold compact. by rewrite !bool_decide_eq_true_2. Qed.

Lemma compact_scan s : compact s = true -> s <> EmptyString /\ scan (Out 0) s = Some (Out 0).
Proof. unfold compact. intros Hs. by split_bools. Qed.

Lemma Itoa_compact n : compact (Itoa n) = true.
Proof.
  apply compact_intro.
  - intros Hn. pose proof (Itoa_value n) as Hv. rewrite Hn in Hv. injection Hv as <-. by vm_compute in Hn.
  - apply scan_neutral. pose proof (Itoa_digits n) as Hd. rewrite string_forallb_bytes, forallb_forall in *. auto using digit_neutral.
Qed.

(** ** Items between brackets *)

(** An item reads to the end of what it opened. *)
Definition item (s : string) : Prop := scan (Out 0) s = Some (Out 0).

Lemma scan_items d items : Forall item items -> scan (Out (S d)) (comma_separated items) = Some (Out (S d)).
Proof.
  induction 1 as [|i items Hi Hitems IH]; [done|]. destruct items as [|j items]; [by apply scan_inside|].
  change (comma_separated (i :: j :: items)) with (i +:+ String (byte_of 44) (comma_separated (j :: items)))%string.
  rewrite scan_app, (scan_inside (S d) i Hi). exact IH.
Qed.

Lemma bracketed_compact l r items : l = byte_of 123 \/ l = byte_of 91 -> r = byte_of 125 \/ r = byte_of 93 -> Forall item items ->
  compact (String l (comma_separated items +:+ String r EmptyString)%string) = true.
Proof.
  intros Hl Hr Hitems. apply compact_intro; [done|].
  assert (Ho : step (Out 0) l = Some (Out 1)) by (by destruct Hl as [->| ->]). cbn [scan]. rewrite Ho. cbn [mbind option_bind].
  rewrite scan_app, (scan_items 0) by done. by destruct Hr as [->| ->].
Qed.

(** The items up to the bracket that closes them, and the rest. *)
Fixpoint read_items (m : mode) (s : string) : option (list string * string) :=
  match s with
  | EmptyString => None
  | String a s =>
      if bool_decide (m = Out 0) && comma a then '(items, rest) ← read_items (Out 0) s ; Some (EmptyString :: items, rest)
      else if bool_decide (m = Out 0) && closing a then Some ([EmptyString], s)
      else m' ← step m a ;
           '(items, rest) ← read_items m' s ;
           match items with i :: items => Some (String a i :: items, rest) | [] => None end
  end.

Lemma read_item i : forall m w items rest, scan m i = Some (Out 0) -> read_items (Out 0) w = Some (EmptyString :: items, rest) ->
  read_items m (i +:+ w)%string = Some (i :: items, rest).
Proof.
  induction i as [|a i IH]; intros m w items rest Hs Hw; cbn [scan] in Hs; [by injection Hs as ->|].
  destruct (step m a) as [m'|] eqn:Hstep; [|done]. change (String a i +:+ w)%string with (String a (i +:+ w)). cbn [read_items].
  assert (Hc : bool_decide (m = Out 0) && comma a = false).
  { apply andb_false_iff. destruct (decide (m = Out 0)) as [->|Hne]; [right|left; by apply bool_decide_eq_false_2].
    cbn [step] in Hstep. destruct (comma a) eqn:Hc; [|done]. unfold comma in Hc. apply N.eqb_eq in Hc.
    unfold opening, closing in Hstep. rewrite Hc in Hstep. done. }
  assert (Hd : bool_decide (m = Out 0) && closing a = false).
  { apply andb_false_iff. destruct (decide (m = Out 0)) as [->|Hne]; [right|left; by apply bool_decide_eq_false_2].
    cbn [step] in Hstep. destruct (closing a) eqn:Hd; [|done]. unfold closing, opening in *. apply orb_true_iff in Hd as [Hd|Hd];
      apply N.eqb_eq in Hd; rewrite Hd in Hstep; done. }
  rewrite Hc, Hd, Hstep. cbn [mbind option_bind]. by rewrite (IH m' w items rest Hs Hw).
Qed.

Lemma read_all r items rest : r = byte_of 125 \/ r = byte_of 93 -> items <> [] -> Forall item items ->
  read_items (Out 0) (comma_separated items +:+ String r rest)%string = Some (items, rest).
Proof.
  intros Hr. induction items as [|i items IH]; [done|]. intros _ [Hi Hitems]%Forall_cons. destruct items as [|j items].
  - apply read_item; [exact Hi|]. by destruct Hr as [->| ->].
  - assert (Hrec : read_items (Out 0) (comma_separated (j :: items) +:+ String r rest)%string = Some (j :: items, rest)) by (by apply IH).
    change (comma_separated (i :: j :: items)) with (i +:+ String (byte_of 44) (comma_separated (j :: items)))%string.
    rewrite append_assoc_string. apply read_item; [exact Hi|]. change (String (byte_of 44) (comma_separated (j :: items)) +:+ String r rest)%string
      with (String (byte_of 44) (comma_separated (j :: items) +:+ String r rest)). cbn [read_items]. by rewrite Hrec.
Qed.

(** ** Members, elements and scalars *)

Fixpoint read_name (s : string) : option (string * string) :=
  match s with
  | EmptyString => None
  | String a s =>
      if (code a =? 34)%N then match s with String c v => if (code c =? 58)%N then Some (EmptyString, v) else None | EmptyString => None end
      else '(name, v) ← read_name s ; Some (String a name, v)
  end.

Definition read_member (s : string) : option (string * string) :=
  match s with String q s => if (code q =? 34)%N then read_name s else None | EmptyString => None end.

(** Nothing between two brackets is no item. *)
Definition inside (bracket : N) (s : string) : option (list string) :=
  match s with
  | String a s =>
      if (code a =? bracket)%N
      then '(items, _) ← read_items (Out 0) s ; Some (if bool_decide (items = [EmptyString]) then [] else items)
      else None
  | EmptyString => None
  end.

Fixpoint unescape (s : string) : option string :=
  match s with
  | EmptyString => None
  | String a s =>
      if (code a =? 34)%N then (if bool_decide (s = EmptyString) then Some EmptyString else None)
      else if (code a =? 92)%N then match s with String b s => String b <$> unescape s | EmptyString => None end
      else String a <$> unescape s
  end.

#[export] Instance reader : JsonReader := {
  json_compact s := compact s = true;
  json_members s := inside 123 s ≫= mapM read_member;
  json_elements s := if bool_decide (s = "null") then Some [] else inside 91 s;
  json_unmarshal_string s := match s with String q s => if (code q =? 34)%N then unescape s else None | EmptyString => None end;
  json_unmarshal_number s := if string_forallb is_digit s then Some s else None;
  json_unmarshal_int s := ParseInt s;
  json_name_matches tag name := bool_decide (tag = name);
}.

Lemma inside_items l r items : l = byte_of 123 /\ r = byte_of 125 \/ l = byte_of 91 /\ r = byte_of 93 ->
  Forall (fun i => item i /\ i <> EmptyString) items ->
  inside (code l) (String l (comma_separated items +:+ String r EmptyString)%string) = Some items.
Proof.
  intros Hlr Hitems. unfold inside. rewrite N.eqb_refl. destruct items as [|i items].
  - by destruct Hlr as [[-> ->]|[-> ->]].
  - rewrite read_all; [|tauto|done|by eapply Forall_impl; [exact Hitems|intros ? [? _]]]. cbn [mbind option_bind].
    apply Forall_cons in Hitems as [[_ Hne] _]. rewrite bool_decide_eq_false_2; [done|]. by intros [= -> _].
Qed.

Definition member_text (kv : string * string) : string := (dquote +:+ kv.1 +:+ dquote +:+ ":" +:+ kv.2)%string.

Lemma plain_char a : byte_in 97 122 a || (code a =? 95)%N = true -> (code a =? 34)%N = false /\ (code a =? 92)%N = false.
Proof.
  unfold byte_in. intros [Ha|Ha%N.eqb_eq]%orb_true_iff; [|by rewrite Ha]. apply andb_true_iff in Ha as [H1%N.leb_le H2%N.leb_le].
  split; apply N.eqb_neq; lia.
Qed.

Lemma scan_name d name w : plain_name name = true -> scan (In d) (name +:+ String (byte_of 34) w)%string = scan (Out d) w.
Proof.
  unfold plain_name. induction name as [|a name IH]; [done|]. cbn [string_forallb]. intros [[H1 H2]%plain_char Hs]%andb_true_iff.
  change (String a name +:+ String (byte_of 34) w)%string with (String a (name +:+ String (byte_of 34) w)). cbn [scan step].
  rewrite H1, H2. by apply IH.
Qed.

Lemma read_name_plain name v : plain_name name = true ->
  read_name (name +:+ String (byte_of 34) (String (byte_of 58) v))%string = Some (name, v).
Proof.
  unfold plain_name. induction name as [|a name IH]; [done|]. cbn [string_forallb]. intros [[H1 _]%plain_char Hs]%andb_true_iff.
  change (String a name +:+ String (byte_of 34) (String (byte_of 58) v))%string
    with (String a (name +:+ String (byte_of 34) (String (byte_of 58) v))). cbn [read_name]. by rewrite H1, IH.
Qed.

Lemma member_item kv : plain_name kv.1 = true -> compact kv.2 = true ->
  (item (member_text kv) /\ member_text kv <> EmptyString) /\ read_member (member_text kv) = Some kv.
Proof.
  destruct kv as [name v]. cbn [fst snd]. intros Hn [_ Hv]%compact_scan. unfold member_text. cbn [fst snd].
  change (dquote +:+ name +:+ dquote +:+ ":" +:+ v)%string
    with (String (byte_of 34) (name +:+ String (byte_of 34) (String (byte_of 58) v))). split; [split; [|done]|].
  - change (scan (In 0) (name +:+ String (byte_of 34) (String (byte_of 58) v))%string = Some (Out 0)). by rewrite scan_name.
  - by apply read_name_plain.
Qed.

Definition readable (fields : list (string * string)) : Prop := Forall (fun kv => plain_name kv.1 = true /\ compact kv.2 = true) fields.

Lemma json_struct_text fields :
  json_struct fields = String (byte_of 123) (comma_separated (member_text <$> fields) +:+ String (byte_of 125) EmptyString)%string.
Proof.
  unfold json_struct. assert (Hf : ((fun '(k, v) => dquote +:+ k +:+ dquote +:+ ":" +:+ v)%string <$> fields) = member_text <$> fields).
  { apply list_fmap_ext. by intros _ [k v] _. }
  by rewrite Hf.
Qed.

Lemma readable_items fields : readable fields -> Forall (fun i => item i /\ i <> EmptyString) (member_text <$> fields).
Proof. intros Hf. apply Forall_fmap. eapply Forall_impl; [exact Hf|]. intros kv [Hn Hc]. by apply member_item. Qed.

Lemma unescape_escape s : unescape (escape s +:+ quote)%string = Some s.
Proof.
  induction s as [|a s IH]; [done|]. cbn [escape]. unfold special. destruct (code a =? 34)%N eqn:H1; [|destruct (code a =? 92)%N eqn:H2]; cbn [orb].
  - change (String (byte_of 92) (String a (escape s)) +:+ quote)%string with (String (byte_of 92) (String a (escape s +:+ quote))).
    change (String a <$> unescape (escape s +:+ quote)%string = Some (String a s)). by rewrite IH.
  - change (String (byte_of 92) (String a (escape s)) +:+ quote)%string with (String (byte_of 92) (String a (escape s +:+ quote))).
    change (String a <$> unescape (escape s +:+ quote)%string = Some (String a s)). by rewrite IH.
  - change (String a (escape s) +:+ quote)%string with (String a (escape s +:+ quote)). cbn [unescape]. by rewrite H1, H2, IH.
Qed.

#[export] Instance reader_laws : JsonReaderLaws.
Proof.
  constructor.
  - intros s. apply compact_intro; [done|]. apply scan_quoted.
  - apply Itoa_compact.
  - by intros [].
  - intros v. cbn [json_marshal json_compact reader ext_json concrete ops]. by destruct (compact v) eqn:Hc.
  - intros fields Hf. cbn [json_compact reader]. rewrite json_struct_text. apply bracketed_compact; [by left|by left|].
    eapply Forall_impl; [exact (readable_items _ Hf)|]. by intros ? [? _].
  - intros items Hi. apply (bracketed_compact (byte_of 91) (byte_of 93)); [by right|by right|].
    eapply Forall_impl; [exact Hi|]. by intros i [_ ?]%compact_scan.
  - intros fields Hf. cbn [json_members reader]. rewrite json_struct_text.
    rewrite (inside_items (byte_of 123) (byte_of 125)); [|by left|by apply readable_items]. cbn [mbind option_bind].
    induction Hf as [|kv fields [Hn Hc] Hf IH]; [done|]. cbn [fmap list_fmap mapM]. destruct (member_item kv Hn Hc) as [_ ->].
    cbn [mbind option_bind]. by rewrite IH.
  - intros items Hi. cbn [json_elements reader].
    change (json_slice items) with (String (byte_of 91) (comma_separated items +:+ String (byte_of 93) EmptyString)%string).
    rewrite bool_decide_eq_false_2 by done. apply (inside_items (byte_of 91) (byte_of 93)); [by right|].
    eapply Forall_impl; [exact Hi|]. intros i Hc. cbn in Hc. apply compact_scan in Hc as [? ?]. by split.
  - intros s _. exact (unescape_escape s).
  - intros n. cbn [json_unmarshal_number reader]. by rewrite Itoa_digits.
  - intros n Hn. by apply ParseInt_Itoa.
  - intros s. cbn. done.
  - done.
Qed.
