(* ===== verification/Checkpoint.v ===== *)
(** * Projection checkpoints (internal/ledger/projection.go)

    The stored envelope of a projection and its validation when it is loaded
    again: the payload bytes are decoded into a struct, field by field from the
    members of the object, and compared with the columns of the row. *)

From S2P Require Import Prelude GoStd Externals EconomicId Transaction Projection ProjectionPayload TextProofs.
From S2P Require Import TransactionProofs ProjectionTheorems NormalizationProofs JsonReader EconomicIdProofs.

Local Open Scope go_scope.

(** The anonymous struct of [ProjectionCheckpoint.Validate]: the numbers are
    what [json.Number.Int64] (if it succeeds) and the [int] field hold, the raw
    collections are kept by their length. *)
Record checkpointPayload := MkCheckpointPayload {
  pay_CheckpointID : string;
  pay_ProjectionType : string;
  pay_Version : string;
  pay_FIFO : string;
  pay_AccountID : string;
  pay_BaseCurrency : string;
  pay_AsOf : string;
  pay_MarkSource : string;
  pay_MarkNamespace : string;
  pay_MaxMarkAgeMicroseconds : option Z;
  pay_ThroughTransactionID : string;
  pay_TransactionCount : Z;
  pay_InputChecksum : string;
  pay_Marks : Z;
  pay_Lots : Z;
  pay_Matches : Z;
  pay_Positions : Z;
}.

Section checkpoint.
Context {E : Externals} {R : JsonReader}.

(** [decoder.Decode(&payload)] with [UseNumber], then [Int64] of the number;
    [None] is an error. Other members are ignored. *)
Definition decodePayload (raw : string) : option checkpointPayload :=
  members ← json_members raw ;
  checkpointID ← string_field "checkpoint_id" members ;
  projectionType ← string_field "projection_type" members ;
  version ← string_field "version" members ;
  fifo ← string_field "fifo" members ;
  accountID ← string_field "account_id" members ;
  baseCurrency ← string_field "base_currency" members ;
  asOf ← string_field "as_of" members ;
  markSource ← string_field "mark_source" members ;
  markNamespace ← string_field "mark_namespace" members ;
  maxMarkAge ← number_field "max_mark_age_microseconds" members ;
  throughTransactionID ← string_field "through_transaction_id" members ;
  transactionCount ← int_field "transaction_count" members ;
  inputChecksum ← string_field "input_checksum" members ;
  marks ← slice_field "marks" members ;
  lots ← slice_field "lots" members ;
  matches ← slice_field "matches" members ;
  positions ← slice_field "positions" members ;
  Some {| pay_CheckpointID := checkpointID; pay_ProjectionType := projectionType; pay_Version := version; pay_FIFO := fifo;
          pay_AccountID := accountID; pay_BaseCurrency := baseCurrency; pay_AsOf := asOf; pay_MarkSource := markSource;
          pay_MarkNamespace := markNamespace; pay_MaxMarkAgeMicroseconds := ParseInt maxMarkAge;
          pay_ThroughTransactionID := throughTransactionID; pay_TransactionCount := transactionCount;
          pay_InputChecksum := inputChecksum; pay_Marks := Z.of_nat (length marks); pay_Lots := Z.of_nat (length lots);
          pay_Matches := Z.of_nat (length matches); pay_Positions := Z.of_nat (length positions) |}.

Definition ProjectionCheckpoint_Validate (c : ProjectionCheckpoint) : outcome unit :=
  reject ((c.(cp_ID) ==? Nil) || (c.(cp_AccountID) ==? Nil) || (c.(cp_ThroughTransactionID) ==? Nil))
    "projection checkpoint identities are required" ;;
  reject ((c.(cp_ProjectionType) !=? PortfolioProjectionType) ||
          (c.(cp_ProjectionVersion) !=? PortfolioProjectionVersion) ||
          (c.(cp_FIFO) !=? ProjectionFIFO) || negb (isCurrencyUnit c.(cp_BaseCurrency)) ||
          negb (isNormalizedRequired c.(cp_MarkSource)) || (c.(cp_MarkSource) !=? ToLower c.(cp_MarkSource)) ||
          negb (isNormalizedRequired c.(cp_MarkNamespace)) ||
          (c.(cp_MaxMarkAge) <=? 0)%Z || (c.(cp_TransactionCount) <=? 0)%Z)
    "projection checkpoint contract fields are invalid" ;;
  reject ((c.(cp_MarkCount) <? 0)%Z || (c.(cp_LotCount) <? 0)%Z || (c.(cp_MatchCount) <? 0)%Z ||
          (c.(cp_PositionCount) <? 0)%Z)
    "projection checkpoint counts cannot be negative" ;;
  reject (IsZeroTime c.(cp_AsOf) || negb c.(cp_AsOf).(location_utc) || negb (hasPostgresTimestampPrecision c.(cp_AsOf)))
    "projection checkpoint as-of must use UTC microsecond precision" ;;
  reject (negb (String.length c.(cp_InputChecksum) =? 64)%nat || negb (String.length c.(cp_OutputChecksum) =? 64)%nat ||
          (sha256Hex c.(cp_PayloadBytes) !=? c.(cp_OutputChecksum)))
    "projection checkpoint checksum evidence is invalid" ;;
  reject (negb (isProjectionAttestationKeyID c.(cp_AttestationKeyID)) ||
          negb (String.length c.(cp_AttestationHMAC) =? 32)%nat)
    "projection checkpoint attestation evidence is invalid" ;;
  let expectedID :=
    DeterministicUUID "portfolio-projection-checkpoint"
      [uuid_string c.(cp_AccountID); c.(cp_ProjectionType); c.(cp_ProjectionVersion); projectionTime c.(cp_AsOf);
       c.(cp_InputChecksum)] in
  reject (c.(cp_ID) !=? expectedID) "projection checkpoint ID does not match input identity" ;;
  match decodePayload c.(cp_PayloadBytes) with
  | None => Err (Errorf "decode projection checkpoint payload: %w")
  | Some payload =>
      match payload.(pay_MaxMarkAgeMicroseconds) with
      | None => Err (Errorf "decode projection checkpoint mark age: %w")
      | Some maxAge =>
          reject ((payload.(pay_CheckpointID) !=? uuid_string c.(cp_ID)) ||
                  (payload.(pay_ProjectionType) !=? c.(cp_ProjectionType)) ||
                  (payload.(pay_Version) !=? c.(cp_ProjectionVersion)) || (payload.(pay_FIFO) !=? c.(cp_FIFO)) ||
                  (payload.(pay_AccountID) !=? uuid_string c.(cp_AccountID)) ||
                  (payload.(pay_BaseCurrency) !=? c.(cp_BaseCurrency)) ||
                  (payload.(pay_AsOf) !=? projectionTime c.(cp_AsOf)) ||
                  (payload.(pay_MarkSource) !=? c.(cp_MarkSource)) ||
                  (payload.(pay_MarkNamespace) !=? c.(cp_MarkNamespace)) ||
                  (maxAge !=? Microseconds c.(cp_MaxMarkAge)) ||
                  (payload.(pay_ThroughTransactionID) !=? uuid_string c.(cp_ThroughTransactionID)) ||
                  (payload.(pay_TransactionCount) !=? c.(cp_TransactionCount)) ||
                  (payload.(pay_InputChecksum) !=? c.(cp_InputChecksum)) ||
                  (payload.(pay_Marks) !=? c.(cp_MarkCount)) || (payload.(pay_Lots) !=? c.(cp_LotCount)) ||
                  (payload.(pay_Matches) !=? c.(cp_MatchCount)) || (payload.(pay_Positions) !=? c.(cp_PositionCount)))
            "projection checkpoint payload does not match relational envelope"
      end
  end.

(** The attestation the repository attaches before it validates. *)
Definition attest (keyID hmac : string) (c : ProjectionCheckpoint) : ProjectionCheckpoint := {|
  cp_ID := c.(cp_ID); cp_AccountID := c.(cp_AccountID); cp_ProjectionType := c.(cp_ProjectionType);
  cp_ThroughTransactionID := c.(cp_ThroughTransactionID); cp_ProjectionVersion := c.(cp_ProjectionVersion);
  cp_AsOf := c.(cp_AsOf); cp_FIFO := c.(cp_FIFO); cp_BaseCurrency := c.(cp_BaseCurrency);
  cp_MarkSource := c.(cp_MarkSource); cp_MarkNamespace := c.(cp_MarkNamespace); cp_MaxMarkAge := c.(cp_MaxMarkAge);
  cp_TransactionCount := c.(cp_TransactionCount); cp_MarkCount := c.(cp_MarkCount); cp_LotCount := c.(cp_LotCount);
  cp_MatchCount := c.(cp_MatchCount); cp_PositionCount := c.(cp_PositionCount); cp_InputChecksum := c.(cp_InputChecksum);
  cp_OutputChecksum := c.(cp_OutputChecksum); cp_PayloadBytes := c.(cp_PayloadBytes);
  cp_AttestationKeyID := keyID; cp_AttestationHMAC := hmac; cp_CreatedAt := c.(cp_CreatedAt) |}.

(** The header [json.Marshal] wrote into the payload of a projection. *)
Definition payload_header (p : PortfolioProjection) : checkpointPayload := {|
  pay_CheckpointID := uuid_string p.(proj_CheckpointID);
  pay_ProjectionType := p.(proj_ProjectionType);
  pay_Version := p.(proj_Version);
  pay_FIFO := p.(proj_FIFO);
  pay_AccountID := uuid_string p.(proj_AccountID);
  pay_BaseCurrency := p.(proj_BaseCurrency);
  pay_AsOf := projectionTime p.(proj_AsOf);
  pay_MarkSource := p.(proj_MarkSource);
  pay_MarkNamespace := p.(proj_MarkNamespace);
  pay_MaxMarkAgeMicroseconds := Some (Microseconds p.(proj_MaxMarkAge));
  pay_ThroughTransactionID := uuid_string p.(proj_ThroughTransactionID);
  pay_TransactionCount := Z.of_nat p.(proj_TransactionCount);
  pay_InputChecksum := p.(proj_InputChecksum);
  pay_Marks := Z.of_nat (length p.(proj_Marks));
  pay_Lots := Z.of_nat (length p.(proj_Lots));
  pay_Matches := Z.of_nat (length p.(proj_Matches));
  pay_Positions := Z.of_nat (length p.(proj_Positions)) |}.

Lemma length_sha256Hex s : String.length (sha256Hex s) = 64%nat.
Proof. unfold sha256Hex. by rewrite length_EncodeToString, length_Sum256. Qed.

Lemma projectionTime_normal t : utc_micro t = t -> projectionTime t = format_micro t.
Proof. unfold projectionTime. by intros ->. Qed.

#[local] Opaque DeterministicUUID Sum256 sha256Hex json_struct projectionTime.

(** What the boundary and the loops establish about the header. *)
Record header_ok (p : PortfolioProjection) : Prop := {
  ho_account : p.(proj_AccountID) <> Nil;
  ho_through : p.(proj_ThroughTransactionID) <> Nil;
  ho_kind : p.(proj_ProjectionType) = PortfolioProjectionType /\ p.(proj_Version) = PortfolioProjectionVersion /\
            p.(proj_FIFO) = ProjectionFIFO;
  ho_currency : isCurrencyUnit p.(proj_BaseCurrency) = true;
  ho_source : isNormalizedRequired p.(proj_MarkSource) = true /\ p.(proj_MarkSource) = ToLower p.(proj_MarkSource);
  ho_namespace : isNormalizedRequired p.(proj_MarkNamespace) = true;
  ho_age : (0 < p.(proj_MaxMarkAge))%Z;
  ho_count : (0 < p.(proj_TransactionCount))%nat;
  ho_as_of : IsZeroTime p.(proj_AsOf) = false /\ utc_micro p.(proj_AsOf) = p.(proj_AsOf);
  ho_input : String.length p.(proj_InputChecksum) = 64%nat;
  ho_output : p.(proj_OutputChecksum) = sha256Hex p.(proj_PayloadBytes);
  ho_checksum : exists text, p.(proj_InputChecksum) = sha256Hex text;
  ho_payload : marshalProjectionPayload p = Ok p.(proj_PayloadBytes);
  ho_identity : p.(proj_CheckpointID) =
    projectionCheckpointID p.(proj_AccountID) p.(proj_ProjectionType) p.(proj_Version) p.(proj_AsOf)
      p.(proj_InputChecksum);
}.

Lemma eligible_valid request candidates ts : eligibleTransactions request candidates = Ok ts ->
  Forall (fun t => t.(tx_ID) <> Nil) ts.
Proof.
  revert ts. induction candidates as [|[t|] rest IH]; intros ts; cbn [eligibleTransactions]; intros H; try discriminate H.
  - inv_ok H. by subst ts.
  - destruct (_ || _); [by apply IH|]. inv_ok H. subst ts. constructor; [|by apply IH].
    match goal with Hv : Transaction_Validate _ = Ok _ |- _ => unfold Transaction_Validate in Hv; inv_ok Hv end.
    by split_bools.
Qed.

Record boundary_ok (request : ProjectionRequest) (currency : string) : Prop := {
  bo_account : request.(req_AccountID) <> Nil;
  bo_as_of : IsZeroTime request.(req_AsOf) = false /\ utc_micro request.(req_AsOf) = request.(req_AsOf);
  bo_source : isNormalizedRequired request.(req_MarkSource) = true /\
              request.(req_MarkSource) = ToLower request.(req_MarkSource);
  bo_namespace : isNormalizedRequired request.(req_MarkNamespace) = true;
  bo_age : (0 < request.(req_MaxMarkAge))%Z;
  bo_currency : isCurrencyUnit currency = true;
}.

Lemma boundary_facts r c request currency : normalizeProjectionBoundary r c = Ok (request, currency) ->
  boundary_ok request currency.
Proof.
  unfold normalizeProjectionBoundary. intros H. inv_ok H. injection H as <- <-. split_bools.
  repeat match goal with Hx : (_ <=? 0)%Z = false |- _ => apply Z.leb_gt in Hx end.
  split; cbn; try done. split; [done|]. apply utc_micro_idemp.
Qed.

Lemma last_elem {A} (l : list A) x : last l = Some x -> x ∈ l.
Proof. intros [l' ->]%last_Some. apply elem_of_app. right. by apply list_elem_of_singleton. Qed.

Lemma build_header input p : BuildPortfolioProjection input = Ok p -> header_ok p.
Proof.
  unfold BuildPortfolioProjection. intros H. inv_ok H. destruct x as [request currency]. inv_ok H.
  match goal with Hf : finalize _ _ _ _ = Ok ?r |- _ => destruct r as [[marks positions] totals] end.
  inv_ok H. apply boundary_facts in H0 as []. apply eligible_valid in H1. rewrite Forall_forall in H1.
  apply Nat.eqb_neq in H2.
  destruct (last (sort_slice projectionTransactionLess x)) as [t|] eqn:Hlast; [|discriminate H7].
  apply last_elem in Hlast. rewrite sort_slice_perm in Hlast. inv_ok H7.
  match goal with Hm : marshalProjectionPayload _ = Ok _ |- _ => rename Hm into Hmarshal end.
  unfold projectionInputChecksum in H6. inv_ok H6. subst p x2 x3.
  split; cbn; try done; rewrite ?length_sha256Hex; try done.
  - by apply H1.
  - rewrite sort_slice_perm. lia.
  - by eexists.
Qed.

(** ** The payload that was written is the payload that is read *)
Section reading.
Context {L : ExternalLaws} {RL : JsonReaderLaws}.

Lemma hex_valid s : ValidString (sha256Hex s) = true.
Proof. apply graphic_valid. exact (proj1 (hex_plain _)). Qed.

Lemma uuid_valid u : ValidString (uuid_string u) = true.
Proof. apply graphic_valid, uuid_string_graphic. Qed.

Lemma time_valid t : ValidString (projectionTime t) = true.
Proof. exact (graphic_valid _ (format_micro_graphic _)). Qed.

Lemma currency_valid s : isCurrencyUnit s = true -> ValidString s = true.
Proof.
  unfold isCurrencyUnit. intros Hs. split_bools. apply graphic_valid. clear -H0. induction s as [|a s IH]; [done|].
  cbn [string_forallb] in *. split_bools. repeat match goal with H : (_ <? _)%N = false |- _ => apply N.ltb_ge in H end.
  apply andb_true_iff. split; [|by apply IH]. unfold graphic. apply andb_true_iff. split; apply N.leb_le; lia.
Qed.

(** Every field of a canonical row is a plain name and a compact value. *)
Ltac compact_fields :=
  repeat (apply Forall_cons; split;
    [split; [vm_compute; reflexivity|
             first [apply compact_string|apply compact_number|apply compact_bool|apply compact_value|assumption]]|]); apply Forall_nil; exact I.

Lemma canonicalLot_compact lot : json_compact (canonicalLot lot).
Proof. apply compact_struct. compact_fields. Qed.
Lemma canonicalMatch_compact m : json_compact (canonicalMatch m).
Proof. apply compact_struct. compact_fields. Qed.
Lemma canonicalPosition_compact p : json_compact (canonicalPosition p).
Proof. apply compact_struct. compact_fields. Qed.
Lemma canonicalTotals_compact t : json_compact (canonicalTotals t).
Proof. apply compact_struct. compact_fields. Qed.

Lemma canonicalJSON_compact raw text : canonicalJSON raw = Ok text -> json_compact text.
Proof.
  unfold canonicalJSON. intros H. destruct (json_decode raw) as [[value rest]|]; [|done]. inv_ok H. subst text. apply compact_value.
Qed.

Lemma canonicalMark_compact mark text : canonicalMark mark = Ok text -> json_compact text.
Proof.
  unfold canonicalMark. intros H. apply bind_Ok in H as (metadata & Hm%canonicalJSON_compact & <-%Ok_inj).
  apply compact_struct. compact_fields.
Qed.

Lemma canonicalMarks_compact marks texts : canonicalProjectionMarks marks = Ok texts ->
  Forall json_compact texts /\ length texts = length marks.
Proof.
  unfold canonicalProjectionMarks. revert texts. induction marks as [|mark marks IH]; cbn [map_outcome]; intros texts H.
  - injection H as <-. split; [constructor|done].
  - apply bind_Ok in H as (text & Ht%canonicalMark_compact & H). apply bind_Ok in H as (rest & Hr & <-%Ok_inj).
    destruct (IH rest Hr) as [Hc Hl]. split; [by constructor|cbn; lia].
Qed.

Lemma map_compact {A} (f : A -> string) l : (forall x, json_compact (f x)) -> Forall json_compact (f <$> l).
Proof. intros Hf. apply Forall_fmap, Forall_true. exact Hf. Qed.

(** ** The members of the payload *)

Definition payload_names : list string :=
  ["checkpoint_id"; "projection_type"; "version"; "fifo"; "account_id"; "base_currency"; "as_of"; "mark_source"; "mark_namespace";
   "max_mark_age_microseconds"; "through_transaction_id"; "transaction_count"; "input_checksum"; "marks"; "lots"; "matches"; "positions";
   "totals"].

Lemma plain_by_name (members : list (string * string)) : members.*1 = payload_names -> plain_fields members.
Proof.
  intros Hn. split; [rewrite Hn; apply (bool_decide_unpack _); by vm_compute|].
  assert (Hp : Forall (fun k => plain_name k = true) members.*1).
  { rewrite Hn. by repeat (apply Forall_cons; split; [vm_compute; reflexivity|]). }
  apply Forall_fmap in Hp. exact Hp.
Qed.

(** The texts a projection may hold: valid UTF-8, as the columns they come from;
    and numbers of the machine's width. *)
Record payload_fits (p : PortfolioProjection) : Prop := {
  pf_source : ValidString p.(proj_MarkSource) = true;
  pf_namespace : ValidString p.(proj_MarkNamespace) = true;
  pf_age : (Microseconds p.(proj_MaxMarkAge) <= max_int64)%Z;
  pf_count : (Z.of_nat p.(proj_TransactionCount) <= max_int64)%Z;
}.

Ltac member := repeat (apply elem_of_cons; first [left; reflexivity|right]).

Ltac reads tag value valid :=
  match goal with
  | Hstr : forall tag s, plain_name tag = true -> str tag s ∈ ?members -> _ |- _ =>
      rewrite (Hstr tag value); [|reflexivity|unfold members; member|valid]
  end.

Lemma payload_decodes p : header_ok p -> payload_fits p -> decodePayload p.(proj_PayloadBytes) = Some (payload_header p).
Proof.
  intros [] []. unfold marshalProjectionPayload in ho_payload0.
  apply bind_Ok in ho_payload0 as (marks & Hmarks & Hraw%Ok_inj). rewrite <- Hraw. clear Hraw.
  destruct (canonicalMarks_compact _ _ Hmarks) as [Hcompact Hlen]. set (members := cons _ _).
  assert (Hplain : plain_fields members) by (by apply plain_by_name).
  assert (Hlots : Forall json_compact (canonicalLot <$> proj_Lots p)) by apply map_compact, canonicalLot_compact.
  assert (Hmatches : Forall json_compact (canonicalMatch <$> proj_Matches p)) by apply map_compact, canonicalMatch_compact.
  assert (Hpositions : Forall json_compact (canonicalPosition <$> proj_Positions p)) by apply map_compact, canonicalPosition_compact.
  assert (Hall : Forall (fun kv => plain_name kv.1 = true /\ json_compact kv.2) members).
  { unfold members. repeat (apply Forall_cons; split; [split; [vm_compute; reflexivity|
      first [apply compact_string|apply compact_number|by apply compact_slice|apply canonicalTotals_compact]]|]); by apply Forall_nil. }
  unfold decodePayload. rewrite (members_struct _ Hall). cbn [mbind option_bind].
  assert (Hstr : forall tag s, plain_name tag = true -> str tag s ∈ members -> ValidString s = true -> string_field tag members = Some s).
  { intros tag s Ht Hin Hs. by apply string_field_found. }
  destruct ho_kind0 as (Hk1 & Hk2 & Hk3), ho_checksum0 as [text Htext].
  reads "checkpoint_id" (uuid_string p.(proj_CheckpointID)) ltac:(apply uuid_valid).
  reads "projection_type" p.(proj_ProjectionType) ltac:(rewrite Hk1; by vm_compute).
  reads "version" p.(proj_Version) ltac:(rewrite Hk2; by vm_compute).
  reads "fifo" p.(proj_FIFO) ltac:(rewrite Hk3; by vm_compute).
  reads "account_id" (uuid_string p.(proj_AccountID)) ltac:(apply uuid_valid).
  reads "base_currency" p.(proj_BaseCurrency) ltac:(by apply currency_valid).
  reads "as_of" (projectionTime p.(proj_AsOf)) ltac:(apply time_valid).
  reads "mark_source" p.(proj_MarkSource) ltac:(assumption).
  reads "mark_namespace" p.(proj_MarkNamespace) ltac:(assumption).
  reads "through_transaction_id" (uuid_string p.(proj_ThroughTransactionID)) ltac:(apply uuid_valid).
  reads "input_checksum" p.(proj_InputChecksum) ltac:(rewrite Htext; apply hex_valid).
  rewrite (number_field_found "max_mark_age_microseconds" members (Z.to_N (Microseconds p.(proj_MaxMarkAge))));
    [|reflexivity|exact Hplain|unfold members; member].
  rewrite (int_field_found "transaction_count" members (N.of_nat p.(proj_TransactionCount)));
    [|reflexivity|exact Hplain|unfold members; member|by rewrite nat_N_Z].
  rewrite (slice_field_found "marks" members marks), (slice_field_found "lots" members (canonicalLot <$> proj_Lots p)),
    (slice_field_found "matches" members (canonicalMatch <$> proj_Matches p)),
    (slice_field_found "positions" members (canonicalPosition <$> proj_Positions p));
    try first [reflexivity|assumption|unfold members; member].
  cbn [mbind option_bind]. assert (Hage : (0 <= Microseconds p.(proj_MaxMarkAge))%Z) by (by apply Z.quot_pos; [apply Z.lt_le_incl|]).
  pose proof (Z2N.id _ Hage) as Hn. rewrite ParseInt_Itoa by (by rewrite Hn). by rewrite Hn, nat_N_Z, !length_fmap, Hlen.
Qed.
(** Two envelopes that agree on every column but the attestation and the time
    of insertion; times to the microsecond, as they are stored. *)
Record same_envelope (c c' : ProjectionCheckpoint) : Prop := {
  se_identity : c.(cp_ID) = c'.(cp_ID) /\ c.(cp_AccountID) = c'.(cp_AccountID) /\
                c.(cp_ThroughTransactionID) = c'.(cp_ThroughTransactionID);
  se_contract : c.(cp_ProjectionType) = c'.(cp_ProjectionType) /\ c.(cp_ProjectionVersion) = c'.(cp_ProjectionVersion) /\
                c.(cp_FIFO) = c'.(cp_FIFO) /\ c.(cp_BaseCurrency) = c'.(cp_BaseCurrency);
  se_marks : c.(cp_MarkSource) = c'.(cp_MarkSource) /\ c.(cp_MarkNamespace) = c'.(cp_MarkNamespace) /\
             Microseconds c.(cp_MaxMarkAge) = Microseconds c'.(cp_MaxMarkAge);
  se_as_of : projectionTime c.(cp_AsOf) = projectionTime c'.(cp_AsOf);
  se_counts : c.(cp_TransactionCount) = c'.(cp_TransactionCount) /\ c.(cp_MarkCount) = c'.(cp_MarkCount) /\
              c.(cp_LotCount) = c'.(cp_LotCount) /\ c.(cp_MatchCount) = c'.(cp_MatchCount) /\ c.(cp_PositionCount) = c'.(cp_PositionCount);
  se_checksums : c.(cp_InputChecksum) = c'.(cp_InputChecksum) /\ c.(cp_OutputChecksum) = c'.(cp_OutputChecksum);
}.

(** C39: what the projector writes can be loaded, and only as it was written. The
    checkpoint of every projection that was built, with an attestation attached,
    passes the checks made after loading it: the struct decoded from its payload
    has the columns of its row. And a row with these payload bytes passes only
    if every column is the one the projector wrote. The projection's mark source
    and namespace are valid UTF-8, its age and count fit an [int64]. *)
Theorem checkpoint_loads input p keyID hmac :
  BuildPortfolioProjection input = Ok p -> p.(proj_CheckpointID) <> Nil ->
  isProjectionAttestationKeyID keyID = true -> String.length hmac = 32%nat -> payload_fits p ->
  exists c, Checkpoint (Some p) = Some c /\
    ProjectionCheckpoint_Validate (attest keyID hmac c) = Ok tt /\
    (forall c', c'.(cp_PayloadBytes) = c.(cp_PayloadBytes) -> ProjectionCheckpoint_Validate c' = Ok tt -> same_envelope c c').
Proof.
  intros Hb Hid Hkey Hhmac Hfits. apply build_header in Hb. pose proof (payload_decodes p Hb Hfits) as Hdec. destruct Hb.
  eexists. split; [reflexivity|]. split.
  - unfold ProjectionCheckpoint_Validate. cbn -[String.length PortfolioProjectionType PortfolioProjectionVersion ProjectionFIFO decodePayload].
    destruct ho_kind0 as (Hk1 & Hk2 & Hk3), ho_source0 as [Hs1 Hs2], ho_as_of0 as [Ht1 Ht2].
    apply reject_pass; [by rewrite !bool_decide_eq_false_2|].
    apply reject_pass.
    { rewrite Hk1, Hk2, Hk3, ho_currency0, Hs1, ho_namespace0, <- Hs2, !eq_self. cbn. apply orb_false_iff.
      split; [by apply Z.leb_gt|apply Z.leb_gt; lia]. }
    apply reject_pass; [rewrite !(proj2 (Z.ltb_ge _ _)); [done|lia..]|].
    apply reject_pass.
    { rewrite Ht1, <- Ht2. cbn. unfold hasPostgresTimestampPrecision, TimeEqual. cbn. by rewrite truncate_mod, Z.sub_0_r, Z.eqb_refl. }
    apply reject_pass; [by rewrite ho_output0, ho_input0, length_sha256Hex, eq_self|].
    apply reject_pass; [by rewrite Hkey, Hhmac|].
    apply reject_pass; [|rewrite Hdec; cbn -[String.length]; by rewrite !eq_self].
    rewrite (projectionTime_normal _ Ht2), ho_identity0. unfold projectionCheckpointID. by rewrite eq_self.
  - intros c' Hbytes Hv. cbn [cp_PayloadBytes] in Hbytes. unfold ProjectionCheckpoint_Validate in Hv. rewrite Hbytes, Hdec in Hv.
    inv_ok Hv. cbn [payload_header pay_MaxMarkAgeMicroseconds] in Hv. inv_ok Hv. split_bools.
    cbn [pay_CheckpointID pay_ProjectionType pay_Version pay_FIFO pay_AccountID pay_BaseCurrency pay_AsOf pay_MarkSource pay_MarkNamespace
      pay_ThroughTransactionID pay_TransactionCount pay_InputChecksum pay_Marks pay_Lots pay_Matches pay_Positions payload_header] in *.
    repeat match goal with H : uuid_string _ = uuid_string _ |- _ => apply (inj uuid_string) in H end.
    split; cbn [cp_ID cp_AccountID cp_ThroughTransactionID cp_ProjectionType cp_ProjectionVersion cp_FIFO cp_BaseCurrency cp_MarkSource
      cp_MarkNamespace cp_MaxMarkAge cp_AsOf cp_TransactionCount cp_MarkCount cp_LotCount cp_MatchCount cp_PositionCount
      cp_InputChecksum cp_OutputChecksum]; try split_and!; first [done|congruence].
Qed.
End reading.

End checkpoint.
