(* ===== verification/NormalizedReplay.v ===== *)
(** * From normalized events to the projection

    The normalizer writes postings and the projector re-derives them from the
    reduced mechanics; these lemmas show that the two agree, and that a retried
    normalization produces the same ledger aggregate. *)

From S2P Require Import Prelude GoStd Externals Decimals EconomicId Account Instrument Transaction SourceEvent.
From S2P Require Import TransactionProofs Normalization NormalizationProofs.
From S2P Require Import Projection ProjectionFifo ProjectionProofs.

Local Open Scope go_scope.

Section replay.
Context {E : Externals} {L : ExternalLaws}.

(** ** Materialized postings *)

(** [q] is what [materializeTransaction] makes of [p]. *)
Record posting_of (p : PostingInput) (q : Posting) : Prop := {
  po_key : q.(post_IdempotencyKey) = TrimSpace p.(postin_IdempotencyKey);
  po_account : q.(post_LedgerAccount) = TrimSpace p.(postin_LedgerAccount);
  po_kind : q.(post_UnitKind) = p.(postin_UnitKind);
  po_unit : q.(post_Unit) = if p.(postin_UnitKind) ==? UnitKindCurrency then ToUpper (TrimSpace p.(postin_Unit))
                            else TrimSpace p.(postin_Unit);
  po_amount : q.(post_Amount) = p.(postin_Amount);
}.

Lemma materialize_spec f id at_ k ps out :
  materialize_postings f id at_ k ps = Ok out -> Forall2 posting_of ps out.
Proof.
  revert k out. induction ps as [|p ps IH]; intros k out; cbn [materialize_postings].
  { intros [= <-]. constructor. }
  intros H. inv_ok H. subst out. constructor; [|by eapply IH].
  unfold materialize_posting in H0. inv_ok H0. subst. by split.
Qed.

Lemma deterministic_Ok now seed v input t : newDeterministicTransaction now seed v input = Ok t ->
  Transaction_Validate t = Ok tt /\ Forall2 posting_of input.(txin_Postings) t.(tx_Postings) /\
  t.(tx_ID) = DeterministicUUID "economic-ledger-transaction" [uuid_string seed; v] /\
  t.(tx_EventType) = TrimSpace input.(txin_EventType) /\
  t.(tx_ReferenceType) = TrimSpace input.(txin_ReferenceType) /\
  t.(tx_ReferenceID) = TrimSpace input.(txin_ReferenceID).
Proof.
  unfold newDeterministicTransaction, materializeTransaction. intros H. inv_ok H. subst t.
  match goal with Hv : Transaction_Validate _ = Ok ?u |- _ => destruct u end.
  split; [done|]. split; [|done]. by eapply materialize_spec.
Qed.

(** ** Retries *)

Definition restamp_posting (at_ : Time) (p : Posting) : Posting :=
  MkPosting p.(post_ID) p.(post_TransactionID) p.(post_IdempotencyKey) p.(post_LedgerAccount) p.(post_UnitKind)
    p.(post_Unit) p.(post_Amount) p.(post_Metadata) at_.

Definition restamp (at_ : Time) (t : Transaction) : Transaction :=
  MkTransaction t.(tx_ID) t.(tx_AccountID) t.(tx_EventType) t.(tx_IdempotencyKey) t.(tx_OriginType) t.(tx_OriginID)
    t.(tx_ReferenceType) t.(tx_ReferenceID) t.(tx_EffectiveAt) t.(tx_ObservedAt) t.(tx_Metadata)
    (restamp_posting at_ <$> t.(tx_Postings)) at_.

Lemma materialize_restamp f id at_ at' k ps out :
  materialize_postings f id at_ k ps = Ok out ->
  materialize_postings f id at' k ps = Ok (restamp_posting at' <$> out).
Proof.
  revert k out. induction ps as [|p ps IH]; intros k out; cbn [materialize_postings].
  { by intros [= <-]. }
  intros H. inv_ok H. subst out. rewrite (IH _ _ H1). unfold materialize_posting in *. inv_ok H0. subst x.
  match goal with Hn : Transaction.normalizeJSONObject _ _ = Ok _ |- _ => by rewrite Hn end.
Qed.

Lemma utc_micro_precise t : hasPostgresTimestampPrecision (utc_micro t) = true.
Proof.
  unfold hasPostgresTimestampPrecision, TimeEqual. apply Z.eqb_eq. unfold utc_micro, UTC, TruncateMicro; simpl.
  rewrite truncate_mod. lia.
Qed.

Lemma restamp_wf at_ t : IsZeroTime at_ = false -> hasPostgresTimestampPrecision at_ = true ->
  transaction_wf t -> transaction_wf (restamp at_ t).
Proof.
  intros Hz Hp []. split; try done; cbn [restamp tx_EffectiveAt tx_ObservedAt tx_CreatedAt tx_Postings tx_ID].
  - rewrite !Forall_cons in *. naive_solver.
  - by rewrite length_fmap.
  - apply Forall_fmap. eapply Forall_impl; [done|]. intros p []. by split.
  - rewrite <- list_fmap_compose. done.
  - intros u. rewrite sumQ_map. apply tw_balanced.
Qed.

Lemma normalized_json_self v label m : Transaction.normalizeJSONObject v label = Ok m -> jsonSemanticEqual m m = true.
Proof.
  unfold Transaction.normalizeJSONObject. cbv zeta. intros H.
  destruct (json_unmarshal _) as [j|] eqn:Hj; simpl in H; [|done]. destruct (json_object_size j); [|done].
  injection H as <-. destruct (json_decode_unmarshal _ _ Hj) as [[w rest] Hd]. unfold jsonSemanticEqual.
  rewrite Hd. apply json_deep_equal_refl.
Qed.

Lemma posting_map_lookup ps p : NoDup (post_IdempotencyKey <$> ps) -> p ∈ ps ->
  posting_map ps !! p.(post_IdempotencyKey) = Some p.
Proof.
  unfold posting_map. intros Hnd Hin.
  enough (Hgen : forall m, foldl (fun m p => <[p.(post_IdempotencyKey) := p]> m) m ps !! p.(post_IdempotencyKey) = Some p)
    by apply Hgen.
  induction ps as [|q ps IH]; [by apply elem_of_nil in Hin|]. apply NoDup_cons in Hnd as [Hq Hnd].
  intros m. cbn [foldl]. apply elem_of_cons in Hin as [->|Hin]; [|by apply IH].
  clear IH Hnd. assert (Hm : <[q.(post_IdempotencyKey) := q]> m !! q.(post_IdempotencyKey) = Some q)
    by apply lookup_insert_eq.
  revert Hm. generalize (<[q.(post_IdempotencyKey) := q]> m). clear m.
  induction ps as [|r ps IH]; intros m Hm; [done|]. cbn [foldl]. apply IH; [set_solver|].
  rewrite lookup_insert_ne; [done|]. set_solver.
Qed.

Lemma materialize_metadata f id at_ k ps out p : materialize_postings f id at_ k ps = Ok out -> p ∈ out ->
  jsonSemanticEqual p.(post_Metadata) p.(post_Metadata) = true.
Proof.
  revert k out. induction ps as [|q ps IH]; intros k out; cbn [materialize_postings].
  { intros [= <-] H. by apply elem_of_nil in H. }
  intros H Hin. inv_ok H. subst out. apply elem_of_cons in Hin as [->|Hin]; [|by eapply IH].
  unfold materialize_posting in H0. inv_ok H0. subst. by eapply normalized_json_self.
Qed.

Lemma same_restamp at_ t : transaction_wf t ->
  jsonSemanticEqual t.(tx_Metadata) t.(tx_Metadata) = true ->
  (forall p, p ∈ t.(tx_Postings) -> jsonSemanticEqual p.(post_Metadata) p.(post_Metadata) = true) ->
  sameEconomicTransaction (Some t) (Some (restamp at_ t)) = true.
Proof.
  intros Hwf Hm Hp. unfold sameEconomicTransaction.
  cbn [restamp tx_ID tx_AccountID tx_EventType tx_IdempotencyKey tx_OriginType tx_OriginID tx_ReferenceType
       tx_ReferenceID tx_EffectiveAt tx_ObservedAt tx_Metadata tx_Postings]. rewrite !bool_decide_eq_true_2 by done. unfold TimeEqual.
  rewrite !Z.eqb_refl, Hm, length_fmap, Nat.eqb_refl. cbn [andb]. apply forallb_forall. intros p Hin%list_elem_of_In.
  change (post_IdempotencyKey p) with (post_IdempotencyKey (restamp_posting at_ p)).
  rewrite (posting_map_lookup _ (restamp_posting at_ p)).
  - unfold same_posting. cbn. rewrite !bool_decide_eq_true_2 by done. rewrite (Hp p Hin).
    by rewrite (proj2 (Equal_true _ _)).
  - rewrite <- list_fmap_compose. apply Hwf.
  - by apply list_elem_of_fmap_2.
Qed.

Lemma materialize_retry now now' input id f t :
  materializeTransaction now input id f false = Ok t -> IsZeroTime (utc_micro now') = false ->
  materializeTransaction now' input id f false = Ok (restamp (utc_micro now') t) /\
  sameEconomicTransaction (Some t) (Some (restamp (utc_micro now') t)) = true.
Proof.
  unfold materializeTransaction. rewrite !andb_false_r.
  intros (metadata & Hm & H)%bind_Ok Hnow. apply bind_Ok in H as (postings & Hp & H).
  apply bind_Ok in H as ([] & Hv & [= Ht]). apply Transaction_Validate_sound in Hv. rewrite Ht in Hv.
  pose proof (restamp_wf (utc_micro now') t Hnow (utc_micro_precise now') Hv) as Hwf'.
  rewrite Hm, (materialize_restamp _ _ _ (utc_micro now') _ _ _ Hp). cbn [mbind outcome_bind]. subst t.
  apply Transaction_Validate_complete in Hwf'. cbv [restamp] in Hwf' |- *.
  cbn [tx_ID tx_AccountID tx_EventType tx_IdempotencyKey tx_OriginType tx_OriginID tx_ReferenceType tx_ReferenceID
       tx_EffectiveAt tx_ObservedAt tx_Metadata tx_Postings] in *.
  rewrite Hwf'. split; [done|]. apply (same_restamp (utc_micro now')); [done| |].
  - by eapply normalized_json_self.
  - intros p Hin. by eapply materialize_metadata.
Qed.

(** Materializing the same event again, at any later clock reading,
    succeeds and gives an aggregate that [sameEconomicTransaction] recognises
    as the exact retry: identities, entries, amounts and metadata agree. *)
Theorem deterministic_retry now now' seed v input t :
  newDeterministicTransaction now seed v input = Ok t -> IsZeroTime (utc_micro now') = false ->
  exists t', newDeterministicTransaction now' seed v input = Ok t' /\
             sameEconomicTransaction (Some t) (Some t') = true.
Proof.
  unfold newDeterministicTransaction.
  intros ([] & H1 & H)%bind_Ok Hnow. apply bind_Ok in H as ([] & H2 & H). apply bind_Ok in H as ([] & H3 & H).
  destruct (materialize_retry _ now' _ _ _ _ H Hnow) as [Hok Hsame].
  exists (restamp (utc_micro now') t). rewrite H1, H2, H3. done.
Qed.

(** ** The projector reads back what the normalizer wrote *)

Local Open Scope Q_scope.

Definition cash_accounts : list string := ["asset:cash"; "expense:fees"; "income:rebates"].

(** Entries whose text survives materialization and whose cash accounts have
    the unit and sign the projector expects. *)
Record input_clean (currency : string) (p : PostingInput) : Prop := {
  ic_key : TrimSpace p.(postin_IdempotencyKey) = p.(postin_IdempotencyKey);
  ic_account : TrimSpace p.(postin_LedgerAccount) = p.(postin_LedgerAccount);
  ic_unit : (p.(postin_UnitKind) = UnitKindCurrency /\ p.(postin_Unit) = currency) \/
            (p.(postin_UnitKind) = UnitKindInstrument /\ string_forallb graphic p.(postin_Unit) = true /\
             p.(postin_LedgerAccount) ∉ cash_accounts);
  ic_fee : p.(postin_LedgerAccount) = "expense:fees" -> 0 < val p.(postin_Amount);
  ic_rebate : p.(postin_LedgerAccount) = "income:rebates" -> val p.(postin_Amount) < 0;
}.

Definition fixed_currency (currency : string) : Prop := TrimSpace currency = currency /\ ToUpper currency = currency.

Lemma currency_fixed c : isCurrencyUnit c = true -> fixed_currency c.
Proof.
  unfold isCurrencyUnit. intros H. apply andb_true_iff in H as [_ H]. exact (capitals_fixed c H).
Qed.

(** The posting [p] turns into, field by field. *)
Lemma clean_posting currency p q : fixed_currency currency -> input_clean currency p -> posting_of p q ->
  q.(post_IdempotencyKey) = p.(postin_IdempotencyKey) /\ q.(post_LedgerAccount) = p.(postin_LedgerAccount) /\
  q.(post_UnitKind) = p.(postin_UnitKind) /\ q.(post_Unit) = p.(postin_Unit) /\
  q.(post_Amount) = p.(postin_Amount).
Proof.
  intros [Ht Hu] [Hk Ha Hunit _ _] [-> -> -> -> ->]. rewrite Hk, Ha.
  destruct Hunit as [[-> ->]|(-> & Hg & _)]; cbn [bool_decide]; repeat (split; [done|]).
  - rewrite bool_decide_eq_true_2 by done. by rewrite Ht, Hu.
  - rewrite bool_decide_eq_false_2 by done. by rewrite (TrimSpace_graphic _ Hg).
Qed.

Lemma clean_cash currency ps qs a b c : fixed_currency currency ->
  Forall (input_clean currency) ps -> Forall2 posting_of ps qs ->
  exists cash fees rebates, cashAndCosts currency qs a b c = Ok (cash, fees, rebates) /\
    val cash == val a + input_posted "asset:cash" ps.
Proof.
  intros Hcur Hclean H2. revert a b c. induction H2 as [|p q ps qs Hpq _ IH]; intros a b c.
  { exists a, b, c. split; [done|]. unfold input_posted; simpl. lra. }
  apply Forall_cons in Hclean as [Hp Hps]. specialize (IH Hps).
  destruct (clean_posting _ _ _ Hcur Hp Hpq) as (_ & Ha & Hk & Hu & Hm). destruct Hp as [_ _ Hunit Hfee Hreb].
  cbn [cashAndCosts]. rewrite Ha, Hk, Hu, Hm. unfold input_posted in *. cbn [sumQ].
  assert (Hforeign : ((p.(postin_UnitKind) ==? UnitKindCurrency) && (p.(postin_Unit) !=? currency)) = false).
  { destruct Hunit as [[-> ->]|[-> _]]; repeat case_bool_decide; done. }
  rewrite Hforeign. cbn [reject mbind outcome_bind].
  assert (Hkind : p.(postin_LedgerAccount) ∈ ["asset:cash"; "expense:fees"; "income:rebates"] ->
                  (p.(postin_UnitKind) !=? UnitKindCurrency) = false).
  { intros Hin. destruct Hunit as [[-> _]|(_ & _ & Hn)]; [by rewrite bool_decide_eq_true_2|done]. }
  rewrite !elem_of_cons in Hkind.
  destruct (_ ==? "asset:cash") eqn:H1; [|destruct (_ ==? "expense:fees") eqn:H2;
    [|destruct (_ ==? "income:rebates") eqn:H3]]; split_bools; rewrite ?Hkind by auto.
  - destruct (IH (Add a p.(postin_Amount)) b c) as (cash & fees & rebates & Hc & Hv).
    exists cash, fees, rebates. split; [done|]. rewrite Hv, val_Add. lra.
  - rewrite (proj2 (IsPositive_true _)) by auto.
    destruct (IH a (Add b p.(postin_Amount)) c) as (cash & fees & rebates & Hc & Hv).
    exists cash, fees, rebates. split; [done|]. rewrite Hv. lra.
  - rewrite (proj2 (IsNegative_true _)) by auto.
    destruct (IH a b (Add c (Abs p.(postin_Amount)))) as (cash & fees & rebates & Hc & Hv).
    exists cash, fees, rebates. split; [done|]. rewrite Hv. lra.
  - destruct (IH a b c) as (cash & fees & rebates & Hc & Hv).
    exists cash, fees, rebates. split; [done|]. rewrite Hv. lra.
Qed.

Lemma clean_instrument_entry currency key account id amount :
  string_forallb graphic key = true -> string_forallb graphic account = true -> account ∉ cash_accounts ->
  input_clean currency (postingInput key account UnitKindInstrument (uuid_string id) amount).
Proof.
  intros Hk Ha Hn. split; cbn [postingInput postin_IdempotencyKey postin_LedgerAccount postin_UnitKind postin_Unit].
  - by apply TrimSpace_graphic.
  - by apply TrimSpace_graphic.
  - right. split; [done|]. split; [apply uuid_string_graphic|done].
  - intros ->. by destruct Hn; right; left.
  - intros ->. by destruct Hn; right; right; left.
Qed.

Lemma clean_cash_entry currency key account amount :
  string_forallb graphic key = true -> string_forallb graphic account = true ->
  (account = "expense:fees" -> 0 < val amount) -> (account = "income:rebates" -> val amount < 0) ->
  input_clean currency (postingInput key account UnitKindCurrency currency amount).
Proof.
  intros Hk Ha. split; cbn [postingInput postin_IdempotencyKey postin_LedgerAccount postin_UnitKind postin_Unit];
    try (by apply TrimSpace_graphic); by auto.
Qed.

Lemma inventory_account_facts cls account : inventoryLedgerAccount cls = Ok account ->
  string_forallb graphic account = true /\ (account ∉ cash_accounts) /\ HasPrefix account "asset:" = true.
Proof.
  destruct cls; intros [= <-]; (split; [done|]); (split; [by apply (bool_decide_eq_false_1 _)|done]).
Qed.

Lemma clean_inventory currency key clearing account id amount cls :
  inventoryLedgerAccount cls = Ok account -> string_forallb graphic key = true ->
  string_forallb graphic ("clearing-" +:+ key)%string = true ->
  string_forallb graphic clearing = true -> clearing ∉ cash_accounts ->
  Forall (input_clean currency) (inventory_pair key clearing account (uuid_string id) amount).
Proof.
  intros (Ha & Hn & _)%inventory_account_facts Hk Hck Hc Hcn.
  constructor; [by apply clean_instrument_entry|]. constructor; [by apply clean_instrument_entry|done].
Qed.

Lemma clean_cash_pair currency key clearing amount :
  string_forallb graphic key = true -> string_forallb graphic ("clearing-" +:+ key)%string = true ->
  string_forallb graphic clearing = true -> clearing ∉ cash_accounts ->
  Forall (input_clean currency) (cash_pair key clearing currency amount).
Proof.
  intros Hk Hck Hc Hn. constructor; [|constructor; [|done]]; apply clean_cash_entry; try done;
    intros ->; destruct Hn; [by right; left|by right; right; left].
Qed.

Lemma clean_costs n ps : requiredCostPostings n = Ok ps -> Forall (input_clean n.(norm_CashCurrency)) ps.
Proof.
  unfold requiredCostPostings. intros H. inv_ok H.
  match goal with Hv : validatePositiveEconomicDecimal _ _ = Ok _ |- _ => apply positive_decimal in Hv as [Hpos _] end.
  destruct (_ ==? CostKindFee); inv_ok H; subst ps; (constructor; [|constructor; [|done]]);
    apply clean_cash_entry; try done; intros; dec_push; lra.
Qed.

Lemma not_cash_account account : bool_decide (account ∈ cash_accounts) = false -> account ∉ cash_accounts.
Proof. apply bool_decide_eq_false_1. Qed.

Lemma clean_fill n ps : fillPostings n = Ok ps -> Forall (input_clean n.(norm_CashCurrency)) ps.
Proof.
  intros (inst & c & q & p & account & costs & [])%fillPostings_facts. cbv zeta in *. subst ps.
  apply Forall_app. split; [|apply Forall_app; split].
  - eapply clean_inventory; [done|done|done|done|by apply not_cash_account].
  - destruct (IsZero _); [done|]. apply clean_cash_pair; [done|done|done|by apply not_cash_account].
  - match goal with Hc : optionalCostPostings _ = Ok _ |- _ => rename Hc into Hcosts end.
    unfold optionalCostPostings in Hcosts. destruct (is_nil _); [|by apply clean_costs]. inv_ok Hcosts. by subst.
Qed.

(** What the projector retains of a normalization. *)
Record mechanics_of (n : EconomicNormalization) (m : ProjectionMechanics) : Prop := {
  mo_valid : ProjectionMechanics_Validate m = Ok tt;
  mo_transaction : exists t, n.(norm_Transaction) = Some t /\ m.(mech_TransactionID) = t.(tx_ID);
  mo_event : m.(mech_EventType) = n.(norm_EventType);
  mo_reference : m.(mech_ReferenceType) = n.(norm_ReferenceType) /\ m.(mech_ReferenceID) = n.(norm_ReferenceID);
  mo_instrument : m.(mech_InstrumentID) = match n.(norm_Instrument) with Some i => i.(inst_ID) | None => Nil end;
  mo_currency : m.(mech_CashCurrency) = n.(norm_CashCurrency);
  mo_trade : m.(mech_Quantity) = n.(norm_Quantity) /\ m.(mech_Price) = n.(norm_Price);
  mo_cost : m.(mech_CostKind) = n.(norm_CostKind) /\ m.(mech_CostAmount) = n.(norm_CostAmount);
  mo_multiplier : m.(mech_PrimaryMultiplier) =
    match n.(norm_VenueContract) with Some c => c.(vc_Multiplier) | None => ZeroValue end;
}.

Lemma from_normalization now n m : ProjectionMechanicsFromNormalization now (Some n) = Ok m -> mechanics_of n m.
Proof.
  unfold ProjectionMechanicsFromNormalization. intros H. inv_ok H. subst m. simplify_eq.
  match goal with Hv : ProjectionMechanics_Validate _ = Ok ?u |- _ => destruct u end. split; first [done|by split|eauto].
Qed.

Lemma mechanics_text m : ProjectionMechanics_Validate m = Ok tt ->
  fixed_currency m.(mech_CashCurrency) /\
  TrimSpace m.(mech_ReferenceType) = m.(mech_ReferenceType) /\
  TrimSpace m.(mech_ReferenceID) = m.(mech_ReferenceID) /\
  m.(mech_ExecutionOriginType) <> ExecutionOriginOther "" /\ m.(mech_ExecutionOriginID) <> "".
Proof.
  unfold ProjectionMechanics_Validate. intros H. inv_ok H. clear H. split_bools.
  unfold isNormalizedRequired in *. split_bools.
  split; [by apply currency_fixed|]. split; [done|]. split; [done|]. split; [|done].
  intros Ho. rewrite Ho in *. done.
Qed.

Lemma expected_Ok now n t : expectedTransaction now n = Ok t ->
  exists ps, expectedPostings n = Ok ps /\ Forall2 posting_of ps t.(tx_Postings) /\
    t.(tx_EventType) = TrimSpace (EconomicEventType_string n.(norm_EventType)) /\
    t.(tx_ReferenceType) = TrimSpace n.(norm_ReferenceType) /\ t.(tx_ReferenceID) = TrimSpace n.(norm_ReferenceID).
Proof.
  unfold expectedTransaction. intros H. inv_ok H. apply deterministic_Ok in H as (_ & H & _ & ? & ? & ?). eauto 10.
Qed.

Lemma fill_movement n ps qs i q : fixed_currency n.(norm_CashCurrency) -> n.(norm_Instrument) = Some i ->
  n.(norm_Quantity) = Some q -> fillPostings n = Ok ps -> Forall2 posting_of ps qs ->
  findMovement "inventory" i.(inst_ID) qs = Ok (Mul q (fill_direction n)).
Proof.
  intros Hcur Hi Hq Hps H2. pose proof (clean_fill _ _ Hps) as Hclean.
  apply fillPostings_facts in Hps as (inst & c & q' & p & account & costs & []). cbv zeta in *. subst ps.
  simplify_eq. inversion H2 as [|p1 q1 ps1 qs1 Hp1 _]; subst.
  apply Forall_cons in Hclean as [Hc1 _].
  destruct (clean_posting _ _ _ Hcur Hc1 Hp1) as (Hk & Ha & Hkind & Hu & Hm).
  cbn [findMovement]. rewrite Hk, Ha, Hkind, Hu, Hm.
  cbn [postingInput postin_IdempotencyKey postin_LedgerAccount postin_UnitKind postin_Unit postin_Amount].
  rewrite !bool_decide_eq_true_2 by done.
  match goal with Hacc : inventoryLedgerAccount _ = Ok _ |- _ => apply inventory_account_facts in Hacc as (_ & _ & ->) end.
  done.
Qed.

(** A fill whose movement and cash agree with its mechanics is applied. *)
Lemma fill_applies t m cash mv q p s :
  m.(mech_EventType) = EconomicEventFillBuy \/ m.(mech_EventType) = EconomicEventFillSell ->
  m.(mech_ExecutionOriginType) <> ExecutionOriginOther "" -> m.(mech_ExecutionOriginID) <> "" ->
  m.(mech_ReferenceType) = t.(tx_ReferenceType) -> m.(mech_ReferenceID) = t.(tx_ReferenceID) ->
  m.(mech_InstrumentID) <> Nil -> 0 < val q -> 0 < val m.(mech_PrimaryMultiplier) ->
  m.(mech_Quantity) = Some q -> m.(mech_Price) = Some p ->
  projectionInstrumentMovement t "inventory" m.(mech_InstrumentID) = Ok mv ->
  let side := if m.(mech_EventType) ==? EconomicEventFillBuy then 1 else -1 in
  val mv == side * val q ->
  val cash == - side * (val p * val q * val m.(mech_PrimaryMultiplier)) +
    match m.(mech_CostAmount) with
    | Some a => if m.(mech_CostKind) ==? CostKindFee then - val a else val a
    | None => 0
    end ->
  exists s', applyEconomicTransaction t m cash s = Ok s'.
Proof.
  intros Hev Hot Hoi Hrt Hri Hi Hq Hmult Hquantity Hprice Hmv side Hval Hcash.
  assert (Hside : side = (if m.(mech_EventType) ==? EconomicEventFillBuy then 1 else -1)) by done. clearbody side.
  assert (Hcases : side == 1 /\ m.(mech_EventType) = EconomicEventFillBuy \/
                   side == -1 /\ m.(mech_EventType) = EconomicEventFillSell).
  { destruct Hev as [He|He]; rewrite He in Hside; subst side; [left|right]; done. }
  assert (Hnz : ~ val mv == 0) by (rewrite Hval; destruct Hcases as [[-> _]|[-> _]]; lra).
  assert (Happly : exists s', applyMovement t m m.(mech_InstrumentID) mv cash m.(mech_PrimaryMultiplier) "trade" false s = Ok s').
  { rewrite applyMovement_eq, (proj2 (IsZero_false _)), bool_decide_eq_false_2, (proj2 (IsPositive_true _)) by done. eauto. }
  assert (Habs : Equal (Abs mv) q = true).
  { apply Equal_true. rewrite val_Abs, Hval. destruct Hcases as [[-> _]|[-> _]]; [rewrite Qabs_pos; lra|rewrite Qabs_neg; lra]. }
  unfold applyEconomicTransaction.
  rewrite (bool_decide_eq_false_2 (_ = ExecutionOriginOther "")), (bool_decide_eq_false_2 (_ = "")) by done.
  rewrite Hrt, Hri, !(bool_decide_eq_true_2 (_ = tx_ReferenceType t)), !(bool_decide_eq_true_2 (_ = tx_ReferenceID t)) by done.
  cbn [negb orb reject mbind outcome_bind].
  rewrite Hmv, Hquantity, Hprice. cbn [deref mbind outcome_bind]. rewrite Habs.
  destruct Hcases as [[Hs He]|[Hs He]]; rewrite Hs in Hval, Hcash; rewrite He; clear Hside.
  - rewrite (bool_decide_eq_true_2 (EconomicEventFillBuy = _)), (proj2 (IsPositive_true mv)) by (done || lra). cbn [negb andb orb reject mbind outcome_bind].
    rewrite (proj2 (Equal_true _ _)); [done|]. rewrite Hcash.
    destruct m.(mech_CostAmount); [destruct (_ ==? CostKindFee)|]; dec_push; lra.
  - rewrite (bool_decide_eq_false_2 (EconomicEventFillSell = _)), (proj2 (IsNegative_true mv)) by (done || lra). cbn [negb andb orb reject mbind outcome_bind].
    rewrite (proj2 (Equal_true _ _)); [done|]. rewrite Hcash.
    destruct m.(mech_CostAmount); [destruct (_ ==? CostKindFee)|]; dec_push; lra.
Qed.

Lemma fill_replays now now' n t m mechs s :
  n.(norm_EventType) = EconomicEventFillBuy \/ n.(norm_EventType) = EconomicEventFillSell ->
  expectedTransaction now n = Ok t -> ProjectionMechanicsFromNormalization now' (Some n) = Ok m ->
  mechs !! t.(tx_ID) = Some m ->
  exists s', replayTransaction n.(norm_CashCurrency) mechs t s = Ok s'.
Proof.
  intros Hev (ps & Hps & H2 & Htype & Href)%expected_Ok Hm%from_normalization Hlook.
  assert (Hfill : fillPostings n = Ok ps) by (unfold expectedPostings in Hps; by destruct Hev as [He|He]; rewrite He in Hps).
  destruct Hm as [Hvalid _ Hevent [Hrt Hri] Hinst Hcur [Hq Hp] [Hck Hca] Hmult].
  destruct (mechanics_text m Hvalid) as (Hfix & Htrt & Htri & Hot & Hoi).
  rewrite Hrt in Htrt. rewrite Hri in Htri. rewrite Hcur in Hfix. rewrite Htrt, Htri in Href. destruct Href as [Hrt' Hri'].
  destruct (clean_cash _ _ _ Zero Zero Zero Hfix (clean_fill n ps Hfill) H2) as (cash & fees & rebates & Hcash & Hval).
  rewrite (fill_cash n ps Hev Hfill), val_Zero in Hval.
  destruct (fillPostings_facts n ps Hfill) as (inst & c & q & p & account & costs & []). cbv zeta in *.
  unfold replayTransaction, projectionCashAndCosts. rewrite Hcash. cbn [mbind outcome_bind].
  assert (Hnames : t.(tx_EventType) = EconomicEventType_string n.(norm_EventType) /\
                   (t.(tx_EventType) ==? "capital_flow.deposit") || (t.(tx_EventType) ==? "capital_flow.withdrawal") = false).
  { rewrite Htype. destruct Hev as [-> | ->]; done. }
  destruct Hnames as [Hname ->]. rewrite Hlook, Hevent, Hname, Hcur.
  rewrite !bool_decide_eq_true_2 by done. cbn [negb reject mbind outcome_bind].
  rewrite fl_instrument in Hinst. rewrite fl_contract in Hmult. rewrite fl_quantity in Hq. rewrite fl_price in Hp.
  assert (Hmv : projectionInstrumentMovement t "inventory" m.(mech_InstrumentID) = Ok (Mul q (fill_direction n))).
  { unfold projectionInstrumentMovement. rewrite Hinst. by eapply fill_movement. }
  assert (Hnil : m.(mech_InstrumentID) <> Nil).
  { intros Hnil. unfold ProjectionMechanics_Validate in Hvalid. inv_ok Hvalid.
    destruct Hev as [He|He]; rewrite Hevent, He in Hvalid; inv_ok Hvalid; split_bools; done. }
  destruct fl_positive as (Hq0 & _ & Hmult0).
  assert (Hdir : val (fill_direction n) == if m.(mech_EventType) ==? EconomicEventFillBuy then 1 else -1).
  { unfold fill_direction. rewrite Hevent. destruct Hev as [-> | ->];
      [rewrite bool_decide_eq_false_2, bool_decide_eq_true_2 by done|
       rewrite bool_decide_eq_true_2, bool_decide_eq_false_2 by done]; dec_push; reflexivity. }
  eapply (fill_applies _ _ _ _ q); try eassumption; try congruence.
  - rewrite val_Mul, Hdir. apply Qmult_comm.
  - rewrite Hval. unfold economic_cash, cost_cash. rewrite fl_contract, fl_price, fl_quantity, Hevent, Hmult, Hck, Hca.
    cbn [optQ fmap option_fmap option_map].
    destruct Hev as [-> | ->];
      [rewrite (bool_decide_eq_true_2 (EconomicEventFillBuy = _)) by done|
       rewrite (bool_decide_eq_false_2 (EconomicEventFillSell = _)) by done]; lra.
Qed.

(** C33: what the fill normalizer writes, the projector replays: for every
    fill accepted by [NewFillEconomicNormalization] and every replay state, the
    postings of its transaction agree with its reduced mechanics, so that
    [replayTransaction] accepts the transaction. *)
Theorem fill_normalization_replays created now now' now'' input n m mechs s :
  NewFillEconomicNormalization created now now' input = Ok n ->
  ProjectionMechanicsFromNormalization now'' (Some n) = Ok m ->
  mechs !! m.(mech_TransactionID) = Some m ->
  exists t s', n.(norm_Transaction) = Some t /\ replayTransaction n.(norm_CashCurrency) mechs t s = Ok s'.
Proof.
  unfold NewFillEconomicNormalization, materializeAndValidate. intros H Hm Hlook. inv_ok H.
  match goal with Ht : expectedTransaction now ?n0 = Ok ?t0 |- _ => rename t0 into t, Ht into Ht0; set (base := n0) in * end.
  assert (Hev : base.(norm_EventType) = EconomicEventFillBuy \/ base.(norm_EventType) = EconomicEventFillSell).
  { match goal with Hb : newEconomicNormalization _ _ _ = Ok _ |- _ => unfold newEconomicNormalization in Hb; inv_ok Hb end.
    subst. unfold base. destruct (fillin_Cost input), (fillin_Side input); simplify_eq/=; auto. }
  subst n. exists t.
  destruct (fill_replays now now'' (set_transaction base t) t m mechs s) as [s' Hs']; eauto.
  destruct (mo_transaction _ _ (from_normalization _ _ _ Hm)) as (t' & [= <-] & <-). done.
Qed.
End replay.
