(* ===== verification/Snapshot.v ===== *)
(** * Point-in-time market observations (internal/marketdata/snapshot.go)

    One immutable quote observation with its ordered book, the checks that make
    it durable evidence, and the assessment an execution boundary runs on it. *)

From S2P Require Import Prelude GoStd Externals Instrument.

Local Open Scope go_scope.

(** ** Enumerations *)

Inductive DepthSide :=
  | DepthSideBid
  | DepthSideAsk
  | DepthSideOther (text : string).

#[global] Instance DepthSide_eq_dec : EqDecision DepthSide.
Proof. solve_decision. Defined.

Inductive AssessmentCode :=
  | AssessmentMissingSource
  | AssessmentMissingVenueContract
  | AssessmentMissingAvailability
  | AssessmentMissingBid
  | AssessmentMissingAsk
  | AssessmentMissingExchangeTime
  | AssessmentFutureObservation
  | AssessmentStaleQuote
  | AssessmentMissingBidDepth
  | AssessmentMissingAskDepth
  | AssessmentMissingMarketStatus
  | AssessmentMissingSessionStatus
  | AssessmentMarketNotExecutable
  | AssessmentSessionNotExecutable
  | AssessmentInstrumentMismatch
  | AssessmentInstrumentNotExecutable
  | AssessmentVenueContractMismatch
  | AssessmentInvalidPriceTick
  | AssessmentInvalidLotSize.

Definition AssessmentCode_string (c : AssessmentCode) : string :=
  match c with
  | AssessmentMissingSource => "missing_source"
  | AssessmentMissingVenueContract => "missing_venue_contract"
  | AssessmentMissingAvailability => "missing_availability_time"
  | AssessmentMissingBid => "missing_bid"
  | AssessmentMissingAsk => "missing_ask"
  | AssessmentMissingExchangeTime => "missing_exchange_time"
  | AssessmentFutureObservation => "future_observation"
  | AssessmentStaleQuote => "stale_quote"
  | AssessmentMissingBidDepth => "missing_bid_depth"
  | AssessmentMissingAskDepth => "missing_ask_depth"
  | AssessmentMissingMarketStatus => "missing_market_status"
  | AssessmentMissingSessionStatus => "missing_session_status"
  | AssessmentMarketNotExecutable => "market_not_executable"
  | AssessmentSessionNotExecutable => "session_not_executable"
  | AssessmentInstrumentMismatch => "instrument_mismatch"
  | AssessmentInstrumentNotExecutable => "instrument_not_executable"
  | AssessmentVenueContractMismatch => "venue_contract_mismatch"
  | AssessmentInvalidPriceTick => "invalid_price_tick"
  | AssessmentInvalidLotSize => "invalid_lot_size"
  end.

(** An [*AssessmentError] returned as the error; the arguments interpolated
    into the detail are left out. *)
Definition assessmentFailure (code : AssessmentCode) (detail : string) : error :=
  Coded (AssessmentCode_string code) detail.

(** [if b { return assessmentFailure(code, detail) }] *)
Definition fail_if (b : bool) (code : AssessmentCode) (detail : string) : outcome unit :=
  if b then Err (assessmentFailure code detail) else Ok tt.

Definition MaxDepthLevelsPerSide : nat := 1000.

Section snapshot.
Context {E : Externals}.

(** ** Records *)

Record DepthLevel := MkDepthLevel {
  lvl_Side : DepthSide;
  lvl_Level : Z;
  lvl_Price : dec;
  lvl_Size : dec;
}.

Record DepthLevelInput := MkDepthLevelInput { lvlin_Price : dec; lvlin_Size : dec }.

Record QuoteSnapshot := MkQuoteSnapshot {
  snap_ID : UUID;
  snap_IngestSequence : Z;
  snap_InstrumentID : UUID;
  snap_VenueContractID : option UUID;
  snap_Provider : string;
  snap_Venue : string;
  snap_Source : string;
  snap_ObservationNamespace : string;
  snap_ObservationID : string;
  snap_SourceRevision : string;
  snap_SourceSequence : option Z;
  snap_ExchangeAt : option Time;
  snap_ReceivedAt : Time;
  snap_AvailableAt : option Time;
  snap_Bid : option dec;
  snap_BidSize : option dec;
  snap_Ask : option dec;
  snap_AskSize : option dec;
  snap_Last : option dec;
  snap_Mark : option dec;
  snap_MarketStatus : string;
  snap_SessionStatus : string;
  snap_Depth : list DepthLevel;
  snap_Metadata : string;
  snap_CreatedAt : Time;
}.

Record QuoteSnapshotInput := MkQuoteSnapshotInput {
  snapin_InstrumentID : UUID;
  snapin_VenueContractID : option UUID;
  snapin_Provider : string;
  snapin_Venue : string;
  snapin_Source : string;
  snapin_ObservationNamespace : string;
  snapin_ObservationID : string;
  snapin_SourceRevision : string;
  snapin_SourceSequence : option Z;
  snapin_ExchangeAt : option Time;
  snapin_ReceivedAt : Time;
  snapin_AvailableAt : option Time;
  snapin_Bid : option dec;
  snapin_BidSize : option dec;
  snapin_Ask : option dec;
  snapin_AskSize : option dec;
  snapin_Last : option dec;
  snapin_Mark : option dec;
  snapin_MarketStatus : string;
  snapin_SessionStatus : string;
  snapin_Bids : list DepthLevelInput;
  snapin_Asks : list DepthLevelInput;
  snapin_Metadata : string;
  snapin_CreatedAt : Time;
}.

Record QuoteSelector := MkQuoteSelector {
  sel_InstrumentID : UUID;
  sel_Provider : string;
  sel_Venue : string;
  sel_ObservationNamespace : string;
  sel_AsOf : Time;
}.

Record QuoteRequirements := MkQuoteRequirements {
  qr_RequireSource : bool;
  qr_RequireVenueContract : bool;
  qr_RequireBid : bool;
  qr_RequireAsk : bool;
  qr_RequireBidDepth : bool;
  qr_RequireAskDepth : bool;
  qr_RequireMarketStatus : bool;
  qr_RequireSessionStatus : bool;
  qr_AllowedMarketStatuses : list string;
  qr_AllowedSessionStatuses : list string;
  qr_MaxAge : Duration;
}.

Record QuoteAssessment := MkQuoteAssessment {
  qa_SnapshotID : UUID;
  qa_VenueContractID : option UUID;
  qa_EvaluatedAt : Time;
  qa_ExchangeAge : option Duration;
  qa_ReceiveAge : Duration;
  qa_AvailabilityAge : Duration;
  qa_TransportLatency : option Duration;
  qa_ValidationLatency : option Duration;
  qa_Spread : option dec;
}.

(** ** Helpers *)

Definition normalizeLower (value : string) : string := ToLower (TrimSpace value).
Definition isNormalizedLowerRequired (value : string) : bool :=
  (value !=? "") && (value ==? normalizeLower value).
Definition isNormalizedLowerOptional (value : string) : bool :=
  (value ==? "") || (value ==? normalizeLower value).
Definition isNormalizedRequired (value : string) : bool :=
  (value !=? "") && (value ==? TrimSpace value).

Definition normalizeOptionalTime (value : option Time) : option Time := utc_micro <$> value.

Definition validateRequiredTimestamp (value : Time) : outcome unit :=
  reject (IsZeroTime value || negb value.(location_utc) || negb (TimeEqual value (TruncateMicro value)))
    "quote snapshot %s time must use normalized UTC microsecond precision".

Definition validateOptionalTimestamp (value : option Time) : outcome unit :=
  match value with None => Ok tt | Some t => validateRequiredTimestamp t end.

Definition validateOptionalDecimal (value : option dec) : outcome unit :=
  match value with
  | None => Ok tt
  | Some v =>
      reject (IsNegative v) "quote snapshot %s cannot be negative" ;;
      reject (negb (Equal v (Round v 12))) "quote snapshot %s supports at most 12 decimal places" ;;
      reject (26 <? NumDigits v + Exponent v)%Z "quote snapshot %s exceeds exact decimal magnitude"
  end.

Definition normalizeJSONObject (value label : string) : outcome string :=
  let normalized := if (String.length value =? 0)%nat then "{}" else value in
  match json_unmarshal normalized ≫= json_object_size with
  | Some _ => Ok normalized
  | None => Err (Errorf (label +:+ " must be a JSON object")%string)
  end.

Definition side_levels (side : DepthSide) (bids : list DepthLevelInput) : list DepthLevel :=
  imap (fun level value => MkDepthLevel side (Z.of_nat level) value.(lvlin_Price) value.(lvlin_Size)) bids.

Definition makeDepth (bids asks : list DepthLevelInput) : list DepthLevel :=
  side_levels DepthSideBid bids ++ side_levels DepthSideAsk asks.

Definition hasDepthSide (snapshot : QuoteSnapshot) (side : DepthSide) : bool :=
  existsb (fun level => level.(lvl_Side) ==? side) snapshot.(snap_Depth).

Definition venueContractEffectiveAt (contract : VenueContract) (at_ : Time) : bool :=
  negb (Before at_ contract.(vc_ValidFrom)) &&
  match contract.(vc_ValidTo) with None => true | Some validTo => Before at_ validTo end.

(** [value.Mod(increment).IsZero()]; [Mod] panics on a zero increment. *)
Definition isExactMultiple (value increment : dec) : outcome bool :=
  if IsZero increment then Panic DivisionByZero else Ok (IsZero (Mod value increment)).

(** The set of normalized statuses, as the list of its members. *)
Fixpoint normalizeAllowedStatuses (values : list string) : outcome (list string) :=
  match values with
  | [] => Ok []
  | value :: rest =>
      let normalized := normalizeLower value in
      reject (normalized ==? "") "quote assessment allowed %s statuses cannot contain an empty value" ;;
      allowed ← normalizeAllowedStatuses rest ;
      Ok (normalized :: allowed)
  end.

Definition statusAllowed (value : string) (allowed : list string) : bool :=
  existsb (fun status => status ==? value) allowed.

(** ** validateDepth *)

(** First loop: sides, decimals and indexes; returns the two halves. *)
Fixpoint splitDepth (levels bids asks : list DepthLevel) (seenAsk : bool) :
    outcome (list DepthLevel * list DepthLevel) :=
  match levels with
  | [] => Ok (bids, asks)
  | level :: rest =>
      reject ((level.(lvl_Side) !=? DepthSideBid) && (level.(lvl_Side) !=? DepthSideAsk))
        "quote snapshot depth side %q is invalid" ;;
      let ask := level.(lvl_Side) ==? DepthSideAsk in
      reject (negb ask && seenAsk) "quote snapshot bid depth cannot follow ask depth" ;;
      validateOptionalDecimal (Some level.(lvl_Price)) ;;
      validateOptionalDecimal (Some level.(lvl_Size)) ;;
      reject (level.(lvl_Level) !=? Z.of_nat (length (if ask then asks else bids)))
        "quote snapshot %s depth indexes must be contiguous from zero" ;;
      if ask then splitDepth rest bids (asks ++ [level]) true
      else splitDepth rest (bids ++ [level]) asks seenAsk
  end.

(** The loops over adjacent levels. *)
Fixpoint adjacent (ordered : dec -> dec -> bool) (levels : list DepthLevel) : bool :=
  match levels with
  | a :: ((b :: _) as rest) => ordered a.(lvl_Price) b.(lvl_Price) && adjacent ordered rest
  | _ => true
  end.

Definition equals_if_set (value : option dec) (d : dec) : bool :=
  match value with None => true | Some v => Equal d v end.

Definition validateDepth (snapshot : QuoteSnapshot) : outcome unit :=
  '(bids, asks) ← splitDepth snapshot.(snap_Depth) [] [] false ;
  reject ((MaxDepthLevelsPerSide <? length bids)%nat || (MaxDepthLevelsPerSide <? length asks)%nat)
    "quote snapshot depth exceeds %d levels per side" ;;
  reject (negb (adjacent GreaterThan bids)) "quote snapshot bid depth must strictly descend" ;;
  reject (negb (adjacent LessThan asks)) "quote snapshot ask depth must strictly ascend" ;;
  reject (match bids, asks with
          | bid :: _, ask :: _ => GreaterThan bid.(lvl_Price) ask.(lvl_Price)
          | _, _ => false
          end) "quote snapshot depth bid cannot exceed depth ask" ;;
  match bids with
  | [] => Ok tt
  | bid :: _ =>
      reject (negb (equals_if_set snapshot.(snap_Bid) bid.(lvl_Price))) "quote snapshot bid depth top must equal bid" ;;
      reject (negb (equals_if_set snapshot.(snap_BidSize) bid.(lvl_Size)))
        "quote snapshot bid depth top size must equal bid size"
  end ;;
  match asks with
  | [] => Ok tt
  | ask :: _ =>
      reject (negb (equals_if_set snapshot.(snap_Ask) ask.(lvl_Price))) "quote snapshot ask depth top must equal ask" ;;
      reject (negb (equals_if_set snapshot.(snap_AskSize) ask.(lvl_Size)))
        "quote snapshot ask depth top size must equal ask size"
  end.

(** ** QuoteSnapshot.Validate

    The six optional values are ranged over a map; the first failure of the
    listing order below may be another one in Go. *)
Definition QuoteSnapshot_Validate (snapshot : QuoteSnapshot) : outcome unit :=
  reject ((snapshot.(snap_ID) ==? Nil) || (snapshot.(snap_InstrumentID) ==? Nil))
    "quote snapshot and instrument IDs are required" ;;
  reject (snapshot.(snap_IngestSequence) <? 0)%Z "quote snapshot ingest sequence cannot be negative" ;;
  reject (some_and (fun id => id ==? Nil) snapshot.(snap_VenueContractID))
    "quote snapshot venue contract ID cannot be nil" ;;
  reject (negb (isNormalizedLowerRequired snapshot.(snap_Provider)) ||
          negb (isNormalizedLowerRequired snapshot.(snap_Venue)))
    "quote snapshot provider and venue must be non-empty normalized lowercase values" ;;
  reject (snapshot.(snap_Source) !=? TrimSpace snapshot.(snap_Source)) "quote snapshot source must be normalized" ;;
  reject (negb (isNormalizedRequired snapshot.(snap_ObservationNamespace)) ||
          negb (isNormalizedRequired snapshot.(snap_ObservationID)))
    "quote snapshot observation namespace and ID must be non-empty normalized values" ;;
  reject (snapshot.(snap_SourceRevision) !=? TrimSpace snapshot.(snap_SourceRevision))
    "quote snapshot source revision must be normalized" ;;
  reject (some_and (fun sequence => sequence <? 0)%Z snapshot.(snap_SourceSequence))
    "quote snapshot source sequence cannot be negative" ;;
  validateRequiredTimestamp snapshot.(snap_ReceivedAt) ;;
  validateRequiredTimestamp snapshot.(snap_CreatedAt) ;;
  validateOptionalTimestamp snapshot.(snap_ExchangeAt) ;;
  validateOptionalTimestamp snapshot.(snap_AvailableAt) ;;
  reject (some_and (fun t => After t snapshot.(snap_ReceivedAt)) snapshot.(snap_ExchangeAt))
    "quote snapshot exchange time cannot be after receive time" ;;
  reject (some_and (fun t => Before t snapshot.(snap_ReceivedAt)) snapshot.(snap_AvailableAt))
    "quote snapshot availability time cannot be before receive time" ;;
  for_each validateOptionalDecimal
    [snapshot.(snap_Bid); snapshot.(snap_BidSize); snapshot.(snap_Ask); snapshot.(snap_AskSize);
     snapshot.(snap_Last); snapshot.(snap_Mark)] ;;
  reject (negb (is_nil snapshot.(snap_BidSize)) && is_nil snapshot.(snap_Bid))
    "quote snapshot bid size requires bid" ;;
  reject (negb (is_nil snapshot.(snap_AskSize)) && is_nil snapshot.(snap_Ask))
    "quote snapshot ask size requires ask" ;;
  reject (match snapshot.(snap_Bid), snapshot.(snap_Ask) with
          | Some bid, Some ask => GreaterThan bid ask
          | _, _ => false
          end) "quote snapshot bid cannot exceed ask" ;;
  reject (negb (isNormalizedLowerOptional snapshot.(snap_MarketStatus)) ||
          negb (isNormalizedLowerOptional snapshot.(snap_SessionStatus)))
    "quote snapshot market and session statuses must be normalized lowercase values" ;;
  validateDepth snapshot ;;
  normalizeJSONObject snapshot.(snap_Metadata) "quote snapshot metadata" ;;
  Ok tt.

(** ** Constructors; [fresh] is [uuid.New()] and [now] is [time.Now()] *)

Definition NewQuoteSnapshot (fresh : UUID) (now : Time) (input : QuoteSnapshotInput) : outcome QuoteSnapshot :=
  metadata ← normalizeJSONObject input.(snapin_Metadata) "quote snapshot metadata" ;
  let created := utc_micro input.(snapin_CreatedAt) in
  let createdAt := if IsZeroTime created then utc_micro now else created in
  let snapshot := {|
    snap_ID := fresh;
    snap_IngestSequence := 0;
    snap_InstrumentID := input.(snapin_InstrumentID);
    snap_VenueContractID := input.(snapin_VenueContractID);
    snap_Provider := normalizeLower input.(snapin_Provider);
    snap_Venue := normalizeLower input.(snapin_Venue);
    snap_Source := TrimSpace input.(snapin_Source);
    snap_ObservationNamespace := TrimSpace input.(snapin_ObservationNamespace);
    snap_ObservationID := TrimSpace input.(snapin_ObservationID);
    snap_SourceRevision := TrimSpace input.(snapin_SourceRevision);
    snap_SourceSequence := input.(snapin_SourceSequence);
    snap_ExchangeAt := normalizeOptionalTime input.(snapin_ExchangeAt);
    snap_ReceivedAt := utc_micro input.(snapin_ReceivedAt);
    snap_AvailableAt := normalizeOptionalTime input.(snapin_AvailableAt);
    snap_Bid := input.(snapin_Bid);
    snap_BidSize := input.(snapin_BidSize);
    snap_Ask := input.(snapin_Ask);
    snap_AskSize := input.(snapin_AskSize);
    snap_Last := input.(snapin_Last);
    snap_Mark := input.(snapin_Mark);
    snap_MarketStatus := normalizeLower input.(snapin_MarketStatus);
    snap_SessionStatus := normalizeLower input.(snapin_SessionStatus);
    snap_Depth := makeDepth input.(snapin_Bids) input.(snapin_Asks);
    snap_Metadata := metadata;
    snap_CreatedAt := createdAt |} in
  QuoteSnapshot_Validate snapshot ;;
  Ok snapshot.

Definition QuoteSelector_Validate (selector : QuoteSelector) : outcome unit :=
  reject (selector.(sel_InstrumentID) ==? Nil) "quote selector instrument ID is required" ;;
  reject (negb (isNormalizedLowerRequired selector.(sel_Provider)) ||
          negb (isNormalizedLowerRequired selector.(sel_Venue)))
    "quote selector provider and venue must be non-empty normalized lowercase values" ;;
  reject (negb (isNormalizedRequired selector.(sel_ObservationNamespace)))
    "quote selector observation namespace must be non-empty and normalized" ;;
  validateRequiredTimestamp selector.(sel_AsOf).

Definition NewQuoteSelector (instrumentID : UUID) (provider venue observationNamespace : string) (asOf : Time) :
    outcome QuoteSelector :=
  let selector := {|
    sel_InstrumentID := instrumentID;
    sel_Provider := normalizeLower provider;
    sel_Venue := normalizeLower venue;
    sel_ObservationNamespace := TrimSpace observationNamespace;
    sel_AsOf := utc_micro asOf |} in
  QuoteSelector_Validate selector ;;
  Ok selector.

(** ** Assessment *)

Definition Assess (snapshot : QuoteSnapshot) (asOf : Time) (requirements : QuoteRequirements) :
    outcome QuoteAssessment :=
  wrap "assess quote snapshot: %w" (QuoteSnapshot_Validate snapshot) ;;
  let evaluatedAt := utc_micro asOf in
  validateRequiredTimestamp evaluatedAt ;;
  reject (requirements.(qr_MaxAge) <? 0)%Z "quote assessment max age cannot be negative" ;;
  allowedMarket ← normalizeAllowedStatuses requirements.(qr_AllowedMarketStatuses) ;
  allowedSession ← normalizeAllowedStatuses requirements.(qr_AllowedSessionStatuses) ;
  fail_if (is_nil snapshot.(snap_AvailableAt)) AssessmentMissingAvailability
    "observation has no decision-availability time" ;;
  availableAt ← deref snapshot.(snap_AvailableAt) ;
  fail_if (After availableAt evaluatedAt) AssessmentFutureObservation
    "observation was not available at the requested time" ;;
  fail_if (requirements.(qr_RequireSource) && (snapshot.(snap_Source) ==? "")) AssessmentMissingSource
    "source is required" ;;
  fail_if (requirements.(qr_RequireVenueContract) && is_nil snapshot.(snap_VenueContractID))
    AssessmentMissingVenueContract "dated venue mechanics are required" ;;
  fail_if (requirements.(qr_RequireBid) && is_nil snapshot.(snap_Bid)) AssessmentMissingBid "bid is required" ;;
  fail_if (requirements.(qr_RequireAsk) && is_nil snapshot.(snap_Ask)) AssessmentMissingAsk "ask is required" ;;
  fail_if (requirements.(qr_RequireBidDepth) && negb (hasDepthSide snapshot DepthSideBid)) AssessmentMissingBidDepth
    "bid depth is required" ;;
  fail_if (requirements.(qr_RequireAskDepth) && negb (hasDepthSide snapshot DepthSideAsk)) AssessmentMissingAskDepth
    "ask depth is required" ;;
  let marketRequired := requirements.(qr_RequireMarketStatus) || (0 <? length allowedMarket)%nat in
  fail_if (marketRequired && (snapshot.(snap_MarketStatus) ==? "")) AssessmentMissingMarketStatus
    "market status is required" ;;
  fail_if ((0 <? length allowedMarket)%nat && negb (statusAllowed snapshot.(snap_MarketStatus) allowedMarket))
    AssessmentMarketNotExecutable "market status is not allowed" ;;
  let sessionRequired := requirements.(qr_RequireSessionStatus) || (0 <? length allowedSession)%nat in
  fail_if (sessionRequired && (snapshot.(snap_SessionStatus) ==? "")) AssessmentMissingSessionStatus
    "session status is required" ;;
  fail_if ((0 <? length allowedSession)%nat && negb (statusAllowed snapshot.(snap_SessionStatus) allowedSession))
    AssessmentSessionNotExecutable "session status is not allowed" ;;
  let exchangeAge := TimeSub evaluatedAt <$> snapshot.(snap_ExchangeAt) in
  (if (0 <? requirements.(qr_MaxAge))%Z then
     fail_if (is_nil exchangeAge) AssessmentMissingExchangeTime "exchange time is required to calculate quote age" ;;
     age ← deref exchangeAge ;
     fail_if (requirements.(qr_MaxAge) <? age)%Z AssessmentStaleQuote "exchange age %s exceeds %s"
   else Ok tt) ;;
  Ok {| qa_SnapshotID := snapshot.(snap_ID);
        qa_VenueContractID := snapshot.(snap_VenueContractID);
        qa_EvaluatedAt := evaluatedAt;
        qa_ExchangeAge := exchangeAge;
        qa_ReceiveAge := TimeSub evaluatedAt snapshot.(snap_ReceivedAt);
        qa_AvailabilityAge := TimeSub evaluatedAt availableAt;
        qa_TransportLatency := TimeSub snapshot.(snap_ReceivedAt) <$> snapshot.(snap_ExchangeAt);
        qa_ValidationLatency := Some (TimeSub availableAt snapshot.(snap_ReceivedAt));
        qa_Spread := match snapshot.(snap_Bid), snapshot.(snap_Ask) with
                     | Some bid, Some ask => Some (Sub ask bid)
                     | _, _ => None
                     end |}.

(** [reference.Validate()] and [contract.Validate()] become the detail of an
    assessment error, not a wrapped error. *)
Definition as_failure (code : AssessmentCode) (detail : string) (m : outcome unit) : outcome unit :=
  match m with Err _ => Err (assessmentFailure code detail) | _ => m end.

Definition ValidateInstrumentEligibility (snapshot : QuoteSnapshot) (reference : Instrument) (asOf : Time) :
    outcome unit :=
  wrap "validate quote snapshot instrument eligibility: %w" (QuoteSnapshot_Validate snapshot) ;;
  as_failure AssessmentInstrumentNotExecutable "instrument reference is invalid: %v" (Instrument_Validate reference) ;;
  fail_if (reference.(inst_ID) !=? snapshot.(snap_InstrumentID)) AssessmentInstrumentMismatch
    "instrument reference does not match the observation" ;;
  fail_if (reference.(inst_Status) !=? StatusActive) AssessmentInstrumentNotExecutable
    "instrument status %q is not active" ;;
  let evaluatedAt := utc_micro asOf in
  validateRequiredTimestamp evaluatedAt ;;
  fail_if (some_and (fun expiration => negb (Before evaluatedAt expiration)) reference.(inst_Expiration))
    AssessmentInstrumentNotExecutable "instrument is expired at the requested time".

(** [if value != nil && !isExactMultiple( *value, increment)] *)
Definition check_multiple (code : AssessmentCode) (detail : string) (increment : dec) (value : option dec) :
    outcome unit :=
  match value with
  | None => Ok tt
  | Some v => exact_ ← isExactMultiple v increment ; fail_if (negb exact_) code detail
  end.

Definition ValidateAgainstVenueContract (snapshot : QuoteSnapshot) (contract : VenueContract) : outcome unit :=
  wrap "validate quote snapshot venue contract: %w" (QuoteSnapshot_Validate snapshot) ;;
  fail_if (is_nil snapshot.(snap_VenueContractID)) AssessmentMissingVenueContract
    "dated venue mechanics are required" ;;
  as_failure AssessmentVenueContractMismatch "venue contract reference is invalid: %v"
    (VenueContract_Validate contract) ;;
  contractID ← deref snapshot.(snap_VenueContractID) ;
  fail_if ((contract.(vc_ID) !=? contractID) || (contract.(vc_InstrumentID) !=? snapshot.(snap_InstrumentID)) ||
           (contract.(vc_Venue) !=? snapshot.(snap_Venue)))
    AssessmentVenueContractMismatch "venue contract identity does not match the observation" ;;
  let observedAt := default snapshot.(snap_ReceivedAt) snapshot.(snap_ExchangeAt) in
  fail_if (negb (venueContractEffectiveAt contract observedAt)) AssessmentVenueContractMismatch
    "venue contract is not effective at the observation time" ;;
  for_each (check_multiple AssessmentInvalidPriceTick "%s %s is not an exact multiple of tick size %s"
              contract.(vc_TickSize)) [snapshot.(snap_Bid); snapshot.(snap_Ask)] ;;
  for_each (check_multiple AssessmentInvalidLotSize "%s %s is not an exact multiple of lot size %s"
              contract.(vc_LotSize)) [snapshot.(snap_BidSize); snapshot.(snap_AskSize)] ;;
  for_each (fun level =>
    check_multiple AssessmentInvalidPriceTick "%s depth level %d price %s is not an exact multiple of tick size %s"
      contract.(vc_TickSize) (Some level.(lvl_Price)) ;;
    check_multiple AssessmentInvalidLotSize "%s depth level %d size %s is not an exact multiple of lot size %s"
      contract.(vc_LotSize) (Some level.(lvl_Size))) snapshot.(snap_Depth).

Definition require_venue_contract (r : QuoteRequirements) : QuoteRequirements :=
  MkQuoteRequirements r.(qr_RequireSource) true r.(qr_RequireBid) r.(qr_RequireAsk) r.(qr_RequireBidDepth)
    r.(qr_RequireAskDepth) r.(qr_RequireMarketStatus) r.(qr_RequireSessionStatus) r.(qr_AllowedMarketStatuses)
    r.(qr_AllowedSessionStatuses) r.(qr_MaxAge).

Definition AssessForExecution (snapshot : QuoteSnapshot) (asOf : Time) (requirements : QuoteRequirements)
    (reference : Instrument) (contract : VenueContract) : outcome QuoteAssessment :=
  assessment ← Assess snapshot asOf (require_venue_contract requirements) ;
  ValidateInstrumentEligibility snapshot reference assessment.(qa_EvaluatedAt) ;;
  ValidateAgainstVenueContract snapshot contract ;;
  fail_if (negb (venueContractEffectiveAt contract assessment.(qa_EvaluatedAt))) AssessmentVenueContractMismatch
    "venue contract is not effective at the execution evaluation time" ;;
  Ok assessment.
End snapshot.
