(* ===== verification/Lifecycle.v ===== *)
(** * Intents, orders, bindings and fills (internal/execution/lifecycle)

    The immutable facts of one execution: types.go, the validators of intent.go,
    order.go and fill.go, [newEvent], [Event.Validate] and the retry
    comparisons. The commands and the replay are in the file that follows. *)

From S2P Require Import Prelude GoStd Externals EconomicId Account Instrument Transaction SourceEvent Normalization.
From S2P Require Import Snapshot.

Local Open Scope go_scope.

Definition intentIDDomain : string := "execution-intent".
Definition eventIDDomain : string := "execution-lifecycle-event".
Definition orderIDDomain : string := "execution-order".
Definition bindingIDDomain : string := "execution-order-binding".
Definition fillIDDomain : string := "execution-fill".

(** ** Enumerations *)

Inductive State :=
  | StateNone
  | StateProposed
  | StateAllocated
  | StateRiskApproved
  | StateRiskRejected
  | StateRouted
  | StateWorking
  | StatePartiallyFilled
  | StateFilled
  | StateCancelled
  | StateExpired
  | StateRejected
  | StateFailedReconciliation
  | StateOther (text : string).

Inductive EventKind :=
  | EventIntentProposed
  | EventIntentAllocated
  | EventRiskApproved
  | EventRiskRejected
  | EventOrderRouted
  | EventOrderWorking
  | EventCancelRequested
  | EventFillAcknowledged
  | EventFillRecorded
  | EventOrderCancelled
  | EventOrderExpired
  | EventOrderRejected
  | EventUnknownVenueState
  | EventContradictoryVenueState
  | EventFillCorrectionObserved
  | EventFillBustObserved
  | EventKindOther (text : string).

Inductive ObservationClass :=
  | ObservationOrdinary
  | ObservationCorrection
  | ObservationBust
  | ObservationOther (text : string).

Definition ObservationClass_string (c : ObservationClass) : string :=
  match c with
  | ObservationOrdinary => "ordinary"
  | ObservationCorrection => "correction"
  | ObservationBust => "bust"
  | ObservationOther t => t
  end.

Inductive PolicyKind :=
  | PolicySimulation
  | PolicyVenue
  | PolicyOther (text : string).

Inductive Side := SideBuy | SideSell | SideOther (text : string).

Inductive OrderType :=
  | OrderMarket
  | OrderLimit
  | OrderStop
  | OrderStopLimit
  | OrderTypeOther (text : string).

Inductive TimeInForce :=
  | TimeInForceDay
  | TimeInForceGTC
  | TimeInForceIOC
  | TimeInForceFOK
  | TimeInForceGTD
  | TimeInForceOther (text : string).

#[global] Instance State_eq_dec : EqDecision State.
Proof. solve_decision. Defined.
#[global] Instance EventKind_eq_dec : EqDecision EventKind.
Proof. solve_decision. Defined.
#[global] Instance ObservationClass_eq_dec : EqDecision ObservationClass.
Proof. solve_decision. Defined.
#[global] Instance PolicyKind_eq_dec : EqDecision PolicyKind.
Proof. solve_decision. Defined.
#[global] Instance Side_eq_dec : EqDecision Side.
Proof. solve_decision. Defined.
#[global] Instance OrderType_eq_dec : EqDecision OrderType.
Proof. solve_decision. Defined.
#[global] Instance TimeInForce_eq_dec : EqDecision TimeInForce.
Proof. solve_decision. Defined.

(** [p == nil] rejected, [*p] otherwise. *)
Definition required {A} (o : option A) (msg : string) : outcome A :=
  match o with Some a => Ok a | None => Err (Errorf msg) end.

(** [p != nil && *p == id] *)
Definition points_to (o : option UUID) (id : UUID) : bool := some_and (fun x => x ==? id) o.

Section lifecycle.
Context {E : Externals}.

(** ** Records *)

Record EventInput := MkEventInput {
  evin_Source : string;
  evin_SourceNamespace : string;
  evin_SourceEventID : string;
  evin_SourceRevision : string;
  evin_ObservationClass : ObservationClass;
  evin_ObservationDiscriminator : string;
  evin_SourceAt : Time;
  evin_ReceivedAt : Time;
  evin_Actor : string;
  evin_ReasonCode : string;
  evin_Reason : string;
  evin_Evidence : string;
  evin_OriginalFillID : option UUID;
  evin_OriginalSourceEventID : string;
}.

Record Event := MkEvent {
  ev_ID : UUID;
  ev_IngestSequence : Z;
  ev_IntentID : UUID;
  ev_OrderID : option UUID;
  ev_BindingID : option UUID;
  ev_FillID : option UUID;
  ev_Kind : EventKind;
  ev_ObservationClass : ObservationClass;
  ev_ObservationDiscriminator : string;
  ev_PriorState : State;
  ev_NextState : State;
  ev_AccountID : UUID;
  ev_Environment : AccountEnvironment;
  ev_OriginType : ExecutionOriginType;
  ev_OriginID : string;
  ev_StrategyVersionID : string;
  ev_PolicyKind : PolicyKind;
  ev_PolicyVersion : string;
  ev_QuantityDelta : option dec;
  ev_CumulativeFillQuantity : option dec;
  ev_QuoteSnapshotID : option UUID;
  ev_Source : string;
  ev_SourceNamespace : string;
  ev_SourceEventID : string;
  ev_SourceRevision : string;
  ev_SourceAt : Time;
  ev_ReceivedAt : Time;
  ev_Actor : string;
  ev_ReasonCode : string;
  ev_Reason : string;
  ev_Evidence : string;
  ev_EvidenceSHA256 : string;
  ev_OriginalFillID : option UUID;
  ev_OriginalSourceEventID : string;
  ev_CreatedAt : Time;
}.

Record Intent := MkIntent {
  intent_ID : UUID;
  intent_AccountID : UUID;
  intent_Environment : AccountEnvironment;
  intent_InstrumentID : UUID;
  intent_IdempotencyKey : string;
  intent_DesiredQuantityDelta : dec;
  intent_DecisionQuoteSnapshotID : UUID;
  intent_DecisionAt : Time;
  intent_OriginType : ExecutionOriginType;
  intent_OriginID : string;
  intent_StrategyVersionID : string;
  intent_Metadata : string;
  intent_CreatedAt : Time;
}.

Record Order := MkOrder {
  order_ID : UUID;
  order_IntentID : UUID;
  order_AccountID : UUID;
  order_InstrumentID : UUID;
  order_IdempotencyKey : string;
  order_ClientOrderID : string;
  order_Side : Side;
  order_OrderType : OrderType;
  order_TimeInForce : TimeInForce;
  order_Quantity : dec;
  order_LimitPrice : option dec;
  order_StopPrice : option dec;
  order_Venue : string;
  order_VenueContractID : UUID;
  order_RouteQuoteSnapshotID : UUID;
  order_RoutedAt : Time;
  order_PolicyKind : PolicyKind;
  order_PolicyVersion : string;
  order_CreatedAt : Time;
}.

Record OrderBinding := MkOrderBinding {
  bind_ID : UUID;
  bind_OrderID : UUID;
  bind_AccountID : UUID;
  bind_Venue : string;
  bind_ExternalOrderID : string;
  bind_CreatedAt : Time;
}.

Record Fill := MkFill {
  fill_ID : UUID;
  fill_IntentID : UUID;
  fill_OrderID : UUID;
  fill_AccountID : UUID;
  fill_InstrumentID : UUID;
  fill_VenueContractID : UUID;
  fill_EconomicSourceEventID : UUID;
  fill_NormalizationID : UUID;
  fill_LedgerTransactionID : UUID;
  fill_Side : Side;
  fill_Quantity : dec;
  fill_Price : dec;
  fill_Source : string;
  fill_SourceNamespace : string;
  fill_SourceEventID : string;
  fill_SourceRevision : string;
  fill_EffectiveAt : Time;
  fill_ReceivedAt : Time;
  fill_CreatedAt : Time;
}.

Record Aggregate := MkAggregate {
  agg_Intent : Intent;
  agg_State : State;
  agg_AllocatedQuantity : option dec;
  agg_Order : option Order;
  agg_Binding : option OrderBinding;
  agg_Fills : list Fill;
  agg_Events : list Event;
}.

Record Transition := MkTransition {
  tr_Event : Event;
  tr_Order : option Order;
  tr_Binding : option OrderBinding;
  tr_Fill : option Fill;
  tr_Normalization : option EconomicNormalization;
}.

(** ** Helpers of types.go *)

Definition validOrigin (value : ExecutionOriginType) : bool :=
  match value with ExecutionOriginOther _ => false | _ => true end.

Definition validExactDecimal (value : dec) (allowZero : bool) : bool :=
  if (negb allowZero && IsZero value) || negb (Equal value (Round value 12)) then false
  else LessThan (Abs value) (New 1 26).

Definition validateJSONObject (value label : string) : outcome unit :=
  reject (String.length value =? 0)%nat (label +:+ " must be a JSON object")%string ;;
  match json_decode value with
  | Some (object, rest) =>
      reject (is_nil (json_object_size object)) (label +:+ " must be a JSON object")%string ;;
      reject (negb (json_eof rest)) (label +:+ " must contain exactly one JSON object")%string
  | None => Err (Errorf (label +:+ " must be a JSON object")%string)
  end.

Definition jsonObjectEqual (left right : string) : bool :=
  match json_decode left, json_decode right with
  | Some (leftValue, _), Some (rightValue, _) => json_deep_equal leftValue rightValue
  | _, _ => false
  end.

Definition normalizeTime (value : Time) : Time := if IsZeroTime value then ZeroTime else utc_micro value.

(** [value.IsZero() || value.Location() != time.UTC || !value.Equal(value.Truncate(time.Microsecond))] *)
Definition badTime (value : Time) : bool :=
  IsZeroTime value || negb value.(location_utc) || negb (TimeEqual value (TruncateMicro value)).

Definition eventIdentitySourceEventID (observationClass : ObservationClass)
    (sourceEventID originalSourceEventID : string) : string :=
  if observationClass ==? ObservationOrdinary then sourceEventID else originalSourceEventID.

Definition event_identity (intentID : UUID) (observationClass : ObservationClass)
    (source namespace sourceEventID originalSourceEventID discriminator : string) : UUID :=
  DeterministicUUID eventIDDomain
    [uuid_string intentID; ObservationClass_string observationClass; source; namespace;
     eventIdentitySourceEventID observationClass sourceEventID originalSourceEventID; discriminator].

(** ** newEvent *)

Definition newEvent (now : Time) (intent : Intent) (kind : EventKind) (prior next : State) (input : EventInput)
    (createdAt : Time) : outcome Event :=
  let observationClass :=
    if input.(evin_ObservationClass) ==? ObservationOther "" then ObservationOrdinary
    else input.(evin_ObservationClass) in
  let source := ToLower (TrimSpace input.(evin_Source)) in
  let namespace := TrimSpace input.(evin_SourceNamespace) in
  let sourceEventID := TrimSpace input.(evin_SourceEventID) in
  let revision := TrimSpace input.(evin_SourceRevision) in
  let discriminator := TrimSpace input.(evin_ObservationDiscriminator) in
  let actor := TrimSpace input.(evin_Actor) in
  let reasonCode := ToLower (TrimSpace input.(evin_ReasonCode)) in
  let reason := TrimSpace input.(evin_Reason) in
  let originalSourceEventID := TrimSpace input.(evin_OriginalSourceEventID) in
  reject ((source ==? "") || (namespace ==? "") || (sourceEventID ==? ""))
    "lifecycle event source identity is required" ;;
  reject ((actor ==? "") || (reasonCode ==? "")) "lifecycle event actor and reason code are required" ;;
  reject (IsZeroTime input.(evin_SourceAt) || IsZeroTime input.(evin_ReceivedAt))
    "lifecycle event source and receive times are required" ;;
  let sourceAt := normalizeTime input.(evin_SourceAt) in
  let receivedAt := normalizeTime input.(evin_ReceivedAt) in
  reject (After sourceAt receivedAt) "lifecycle event source time cannot follow receive time" ;;
  let evidence := input.(evin_Evidence) in
  validateJSONObject evidence "lifecycle event evidence" ;;
  (if observationClass ==? ObservationOrdinary then
     reject ((discriminator !=? "") || negb (is_nil input.(evin_OriginalFillID)) || (originalSourceEventID !=? ""))
       "ordinary lifecycle event cannot carry correction identity"
   else
     reject ((observationClass !=? ObservationCorrection) && (observationClass !=? ObservationBust))
       "invalid lifecycle observation class %q" ;;
     reject ((discriminator ==? "") || is_nil input.(evin_OriginalFillID) ||
             points_to input.(evin_OriginalFillID) Nil || (originalSourceEventID ==? ""))
       "correction or bust observation requires discriminator and original fill identity" ;;
     reject (HasPrefix discriminator "revision:" &&
             ((revision ==? "") || (discriminator !=? ("revision:" +:+ revision)%string)))
       "correction revision discriminator must match nonempty source revision") ;;
  let created := normalizeTime createdAt in
  let createdAt := if IsZeroTime created then utc_micro now else created in
  Ok {| ev_ID := event_identity intent.(intent_ID) observationClass source namespace sourceEventID
                   originalSourceEventID discriminator;
        ev_IngestSequence := 0;
        ev_IntentID := intent.(intent_ID);
        ev_OrderID := None;
        ev_BindingID := None;
        ev_FillID := None;
        ev_Kind := kind;
        ev_ObservationClass := observationClass;
        ev_ObservationDiscriminator := discriminator;
        ev_PriorState := prior;
        ev_NextState := next;
        ev_AccountID := intent.(intent_AccountID);
        ev_Environment := intent.(intent_Environment);
        ev_OriginType := intent.(intent_OriginType);
        ev_OriginID := intent.(intent_OriginID);
        ev_StrategyVersionID := intent.(intent_StrategyVersionID);
        ev_PolicyKind := PolicyOther "";
        ev_PolicyVersion := "";
        ev_QuantityDelta := None;
        ev_CumulativeFillQuantity := None;
        ev_QuoteSnapshotID := None;
        ev_Source := source;
        ev_SourceNamespace := namespace;
        ev_SourceEventID := sourceEventID;
        ev_SourceRevision := revision;
        ev_SourceAt := sourceAt;
        ev_ReceivedAt := receivedAt;
        ev_Actor := actor;
        ev_ReasonCode := reasonCode;
        ev_Reason := reason;
        ev_Evidence := evidence;
        ev_EvidenceSHA256 := EncodeToString (Sum256 evidence);
        ev_OriginalFillID := input.(evin_OriginalFillID);
        ev_OriginalSourceEventID := originalSourceEventID;
        ev_CreatedAt := createdAt |}.

(** The assignments a command makes to the event [newEvent] returned. *)
Record event_context := EventContext {
  ctx_OrderID : option UUID;
  ctx_BindingID : option UUID;
  ctx_FillID : option UUID;
  ctx_PolicyKind : PolicyKind;
  ctx_PolicyVersion : string;
  ctx_QuantityDelta : option dec;
  ctx_CumulativeFillQuantity : option dec;
  ctx_QuoteSnapshotID : option UUID;
}.

Definition set_context (e : Event) (c : event_context) : Event := {|
  ev_ID := e.(ev_ID); ev_IngestSequence := e.(ev_IngestSequence); ev_IntentID := e.(ev_IntentID);
  ev_OrderID := c.(ctx_OrderID); ev_BindingID := c.(ctx_BindingID); ev_FillID := c.(ctx_FillID);
  ev_Kind := e.(ev_Kind); ev_ObservationClass := e.(ev_ObservationClass);
  ev_ObservationDiscriminator := e.(ev_ObservationDiscriminator);
  ev_PriorState := e.(ev_PriorState); ev_NextState := e.(ev_NextState); ev_AccountID := e.(ev_AccountID);
  ev_Environment := e.(ev_Environment); ev_OriginType := e.(ev_OriginType); ev_OriginID := e.(ev_OriginID);
  ev_StrategyVersionID := e.(ev_StrategyVersionID);
  ev_PolicyKind := c.(ctx_PolicyKind); ev_PolicyVersion := c.(ctx_PolicyVersion);
  ev_QuantityDelta := c.(ctx_QuantityDelta); ev_CumulativeFillQuantity := c.(ctx_CumulativeFillQuantity);
  ev_QuoteSnapshotID := c.(ctx_QuoteSnapshotID);
  ev_Source := e.(ev_Source); ev_SourceNamespace := e.(ev_SourceNamespace); ev_SourceEventID := e.(ev_SourceEventID);
  ev_SourceRevision := e.(ev_SourceRevision); ev_SourceAt := e.(ev_SourceAt); ev_ReceivedAt := e.(ev_ReceivedAt);
  ev_Actor := e.(ev_Actor); ev_ReasonCode := e.(ev_ReasonCode); ev_Reason := e.(ev_Reason);
  ev_Evidence := e.(ev_Evidence); ev_EvidenceSHA256 := e.(ev_EvidenceSHA256);
  ev_OriginalFillID := e.(ev_OriginalFillID); ev_OriginalSourceEventID := e.(ev_OriginalSourceEventID);
  ev_CreatedAt := e.(ev_CreatedAt) |}.

(** ** Event.Validate (aggregate.go) *)

Definition Event_Validate (e : Event) : outcome unit :=
  reject ((e.(ev_ID) ==? Nil) || (e.(ev_IntentID) ==? Nil) || (e.(ev_AccountID) ==? Nil))
    "lifecycle event identity is required" ;;
  reject ((e.(ev_Kind) ==? EventKindOther "") || (e.(ev_NextState) ==? StateNone) ||
          negb (AccountEnvironment_IsValid e.(ev_Environment)) || negb (validOrigin e.(ev_OriginType)))
    "lifecycle event kind, state, environment, and origin are required" ;;
  reject ((e.(ev_Source) ==? "") || (e.(ev_Source) !=? ToLower (TrimSpace e.(ev_Source))) ||
          (e.(ev_SourceNamespace) ==? "") || (e.(ev_SourceNamespace) !=? TrimSpace e.(ev_SourceNamespace)) ||
          (e.(ev_SourceEventID) ==? "") || (e.(ev_SourceEventID) !=? TrimSpace e.(ev_SourceEventID)) ||
          (e.(ev_SourceRevision) !=? TrimSpace e.(ev_SourceRevision)))
    "lifecycle event source identity must be normalized" ;;
  reject ((e.(ev_Actor) ==? "") || (e.(ev_Actor) !=? TrimSpace e.(ev_Actor)) || (e.(ev_ReasonCode) ==? "") ||
          (e.(ev_ReasonCode) !=? ToLower (TrimSpace e.(ev_ReasonCode))) || (e.(ev_Reason) !=? TrimSpace e.(ev_Reason)))
    "lifecycle event actor and reason must be normalized" ;;
  reject (IsZeroTime e.(ev_SourceAt) || IsZeroTime e.(ev_ReceivedAt) ||
          negb e.(ev_SourceAt).(location_utc) || negb e.(ev_ReceivedAt).(location_utc) ||
          negb (TimeEqual e.(ev_SourceAt) (TruncateMicro e.(ev_SourceAt))) ||
          negb (TimeEqual e.(ev_ReceivedAt) (TruncateMicro e.(ev_ReceivedAt))) ||
          After e.(ev_SourceAt) e.(ev_ReceivedAt))
    "lifecycle event timestamps must be ordered UTC microseconds" ;;
  reject (badTime e.(ev_CreatedAt)) "lifecycle event creation time must use UTC microsecond precision" ;;
  validateJSONObject e.(ev_Evidence) "lifecycle event evidence" ;;
  reject (e.(ev_EvidenceSHA256) !=? EncodeToString (Sum256 e.(ev_Evidence)))
    "lifecycle event evidence hash mismatch" ;;
  match e.(ev_ObservationClass) with
  | ObservationOrdinary =>
      reject ((e.(ev_ObservationDiscriminator) !=? "") || negb (is_nil e.(ev_OriginalFillID)) ||
              (e.(ev_OriginalSourceEventID) !=? ""))
        "ordinary lifecycle event carries correction identity"
  | ObservationCorrection | ObservationBust =>
      reject ((e.(ev_ObservationDiscriminator) ==? "") ||
              (e.(ev_ObservationDiscriminator) !=? TrimSpace e.(ev_ObservationDiscriminator)) ||
              is_nil e.(ev_OriginalFillID) || points_to e.(ev_OriginalFillID) Nil ||
              (e.(ev_OriginalSourceEventID) ==? "") ||
              (e.(ev_OriginalSourceEventID) !=? TrimSpace e.(ev_OriginalSourceEventID)))
        "correction or bust lifecycle event identity is incomplete" ;;
      reject (HasPrefix e.(ev_ObservationDiscriminator) "revision:" &&
              ((e.(ev_SourceRevision) ==? "") ||
               (e.(ev_ObservationDiscriminator) !=? ("revision:" +:+ e.(ev_SourceRevision))%string)))
        "correction revision discriminator does not match source revision" ;;
      reject (xorb (e.(ev_ObservationClass) ==? ObservationCorrection) (e.(ev_Kind) ==? EventFillCorrectionObserved) ||
              xorb (e.(ev_ObservationClass) ==? ObservationBust) (e.(ev_Kind) ==? EventFillBustObserved))
        "correction or bust observation class does not match event kind"
  | ObservationOther _ => Err (Errorf "lifecycle event observation class is invalid")
  end ;;
  let isFillEvent := (e.(ev_Kind) ==? EventFillAcknowledged) || (e.(ev_Kind) ==? EventFillRecorded) in
  reject (xorb isFillEvent (negb (is_nil e.(ev_CumulativeFillQuantity))))
    "lifecycle event cumulative fill quantity must exist exactly on fill events" ;;
  reject (e.(ev_ID) !=? event_identity e.(ev_IntentID) e.(ev_ObservationClass) e.(ev_Source) e.(ev_SourceNamespace)
                          e.(ev_SourceEventID) e.(ev_OriginalSourceEventID) e.(ev_ObservationDiscriminator))
    "lifecycle event ID does not match deterministic identity".

(** ** Intent.Validate *)

Definition intent_identity (accountID : UUID) (idempotencyKey : string) : UUID :=
  DeterministicUUID intentIDDomain [uuid_string accountID; idempotencyKey].

Definition Intent_Validate (i : Intent) : outcome unit :=
  reject ((i.(intent_ID) ==? Nil) || (i.(intent_AccountID) ==? Nil) || (i.(intent_InstrumentID) ==? Nil) ||
          (i.(intent_DecisionQuoteSnapshotID) ==? Nil)) "execution intent IDs are required" ;;
  reject (negb (AccountEnvironment_IsValid i.(intent_Environment))) "execution intent environment is invalid" ;;
  reject ((TrimSpace i.(intent_IdempotencyKey) ==? "") ||
          (i.(intent_IdempotencyKey) !=? TrimSpace i.(intent_IdempotencyKey)))
    "execution intent idempotency key must be normalized" ;;
  reject (negb (validExactDecimal i.(intent_DesiredQuantityDelta) false))
    "execution intent desired quantity is invalid" ;;
  reject (badTime i.(intent_DecisionAt)) "execution intent decision time must use UTC microsecond precision" ;;
  reject (negb (validOrigin i.(intent_OriginType)) || (i.(intent_OriginID) ==? "") ||
          (i.(intent_OriginID) !=? TrimSpace i.(intent_OriginID))) "execution intent origin is invalid" ;;
  reject ((i.(intent_StrategyVersionID) !=? TrimSpace i.(intent_StrategyVersionID)) ||
          ((i.(intent_OriginType) ==? ExecutionOriginStrategyVersion) &&
           (i.(intent_StrategyVersionID) !=? i.(intent_OriginID))))
    "execution intent strategy version is invalid" ;;
  validateJSONObject i.(intent_Metadata) "execution intent metadata" ;;
  reject (badTime i.(intent_CreatedAt)) "execution intent creation time must use UTC microsecond precision" ;;
  reject (i.(intent_ID) !=? intent_identity i.(intent_AccountID) i.(intent_IdempotencyKey))
    "execution intent ID does not match deterministic identity".

Definition SameIntentPayload (left right : option Intent) : bool :=
  match left, right with
  | Some l, Some r =>
      (l.(intent_ID) ==? r.(intent_ID)) && (l.(intent_AccountID) ==? r.(intent_AccountID)) &&
      (l.(intent_Environment) ==? r.(intent_Environment)) && (l.(intent_InstrumentID) ==? r.(intent_InstrumentID)) &&
      (l.(intent_IdempotencyKey) ==? r.(intent_IdempotencyKey)) &&
      Equal l.(intent_DesiredQuantityDelta) r.(intent_DesiredQuantityDelta) &&
      (l.(intent_DecisionQuoteSnapshotID) ==? r.(intent_DecisionQuoteSnapshotID)) &&
      TimeEqual l.(intent_DecisionAt) r.(intent_DecisionAt) && (l.(intent_OriginType) ==? r.(intent_OriginType)) &&
      (l.(intent_OriginID) ==? r.(intent_OriginID)) &&
      (l.(intent_StrategyVersionID) ==? r.(intent_StrategyVersionID)) &&
      jsonObjectEqual l.(intent_Metadata) r.(intent_Metadata)
  | _, _ => false
  end.

(** ** Order.Validate, OrderBinding.Validate *)

Definition validOrderType (value : OrderType) : bool :=
  match value with OrderTypeOther _ => false | _ => true end.

Definition validTimeInForce (value : TimeInForce) : bool :=
  match value with TimeInForceOther _ => false | _ => true end.

Definition isExactMultiple (value step : dec) : bool := IsPositive step && IsZero (Mod value step).

Definition sideForDelta (value : dec) : Side := if IsNegative value then SideSell else SideBuy.

(** The two prices are ranged over a map. *)
Definition validateOrderPrices (orderType : OrderType) (limitPrice stopPrice : option dec) (tick : dec) :
    outcome unit :=
  reject (negb (validOrderType orderType)) "invalid order type %q" ;;
  for_each (fun price =>
    reject (some_and (fun p => negb (validExactDecimal p true) || IsNegative p || negb (isExactMultiple p tick)) price)
      "%s price is invalid or off tick") [limitPrice; stopPrice] ;;
  match orderType with
  | OrderMarket => reject (negb (is_nil limitPrice) || negb (is_nil stopPrice))
                     "market order cannot carry limit or stop price"
  | OrderLimit => reject (is_nil limitPrice || negb (is_nil stopPrice)) "limit order requires only limit price"
  | OrderStop => reject (is_nil stopPrice || negb (is_nil limitPrice)) "stop order requires only stop price"
  | OrderStopLimit => reject (is_nil limitPrice || is_nil stopPrice) "stop-limit order requires limit and stop prices"
  | OrderTypeOther _ => Ok tt
  end.

Definition order_identity (intentID : UUID) (idempotencyKey : string) : UUID :=
  DeterministicUUID orderIDDomain [uuid_string intentID; idempotencyKey].

Definition Order_Validate (o : Order) : outcome unit :=
  reject ((o.(order_ID) ==? Nil) || (o.(order_IntentID) ==? Nil) || (o.(order_AccountID) ==? Nil) ||
          (o.(order_InstrumentID) ==? Nil) || (o.(order_VenueContractID) ==? Nil) ||
          (o.(order_RouteQuoteSnapshotID) ==? Nil)) "execution order IDs are required" ;;
  reject ((o.(order_IdempotencyKey) ==? "") || (o.(order_IdempotencyKey) !=? TrimSpace o.(order_IdempotencyKey)) ||
          (o.(order_ClientOrderID) !=? uuid_string o.(order_ID))) "execution order identity is invalid" ;;
  reject ((o.(order_Side) !=? SideBuy) && (o.(order_Side) !=? SideSell)) "execution order side is invalid" ;;
  reject (negb (validExactDecimal o.(order_Quantity) false) || negb (IsPositive o.(order_Quantity)) ||
          negb (validTimeInForce o.(order_TimeInForce))) "execution order quantity or time in force is invalid" ;;
  reject (negb (validOrderType o.(order_OrderType)) || (o.(order_Venue) ==? "") ||
          (o.(order_Venue) !=? ToLower (TrimSpace o.(order_Venue)))) "execution order type or venue is invalid" ;;
  reject (((o.(order_PolicyKind) !=? PolicySimulation) && (o.(order_PolicyKind) !=? PolicyVenue)) ||
          (o.(order_PolicyVersion) ==? "") || (o.(order_PolicyVersion) !=? TrimSpace o.(order_PolicyVersion)))
    "execution order policy is invalid" ;;
  reject (badTime o.(order_RoutedAt) || badTime o.(order_CreatedAt))
    "execution order timestamps must use UTC microsecond precision" ;;
  for_each (fun price =>
    reject (some_and (fun p => negb (validExactDecimal p true) || IsNegative p) price)
      "execution order price is invalid") [o.(order_LimitPrice); o.(order_StopPrice)] ;;
  reject (o.(order_ID) !=? order_identity o.(order_IntentID) o.(order_IdempotencyKey))
    "execution order ID does not match deterministic identity".

Definition binding_identity (orderID : UUID) : UUID := DeterministicUUID bindingIDDomain [uuid_string orderID].

Definition OrderBinding_Validate (b : OrderBinding) : outcome unit :=
  reject ((b.(bind_ID) ==? Nil) || (b.(bind_OrderID) ==? Nil) || (b.(bind_AccountID) ==? Nil) ||
          (b.(bind_Venue) ==? "") || (b.(bind_Venue) !=? ToLower (TrimSpace b.(bind_Venue))) ||
          (b.(bind_ExternalOrderID) ==? "") || (b.(bind_ExternalOrderID) !=? TrimSpace b.(bind_ExternalOrderID)))
    "execution order binding identity is invalid" ;;
  reject (badTime b.(bind_CreatedAt)) "execution order binding creation time must use UTC microsecond precision" ;;
  reject (b.(bind_ID) !=? binding_identity b.(bind_OrderID))
    "execution order binding ID does not match deterministic identity".

Definition equalUUID (left right : option UUID) : bool :=
  match left, right with
  | Some l, Some r => l ==? r
  | None, None => true
  | _, _ => false
  end.

Definition equalDecimal (left right : option dec) : bool :=
  match left, right with
  | Some l, Some r => Equal l r
  | None, None => true
  | _, _ => false
  end.

Definition SameOrderPayload (left right : option Order) : bool :=
  match left, right with
  | Some l, Some r =>
      (l.(order_ID) ==? r.(order_ID)) && (l.(order_IntentID) ==? r.(order_IntentID)) &&
      (l.(order_AccountID) ==? r.(order_AccountID)) && (l.(order_InstrumentID) ==? r.(order_InstrumentID)) &&
      (l.(order_IdempotencyKey) ==? r.(order_IdempotencyKey)) &&
      (l.(order_ClientOrderID) ==? r.(order_ClientOrderID)) && (l.(order_Side) ==? r.(order_Side)) &&
      (l.(order_OrderType) ==? r.(order_OrderType)) && (l.(order_TimeInForce) ==? r.(order_TimeInForce)) &&
      Equal l.(order_Quantity) r.(order_Quantity) && equalDecimal l.(order_LimitPrice) r.(order_LimitPrice) &&
      equalDecimal l.(order_StopPrice) r.(order_StopPrice) && (l.(order_Venue) ==? r.(order_Venue)) &&
      (l.(order_VenueContractID) ==? r.(order_VenueContractID)) &&
      (l.(order_RouteQuoteSnapshotID) ==? r.(order_RouteQuoteSnapshotID)) &&
      TimeEqual l.(order_RoutedAt) r.(order_RoutedAt) && (l.(order_PolicyKind) ==? r.(order_PolicyKind)) &&
      (l.(order_PolicyVersion) ==? r.(order_PolicyVersion))
  | _, _ => false
  end.

(** ** Fills *)

Definition FillID (orderID economicSourceEventID : UUID) : UUID :=
  DeterministicUUID fillIDDomain [uuid_string orderID; uuid_string economicSourceEventID].

(** The three times are ranged over a map. *)
Definition Fill_Validate (f : Fill) : outcome unit :=
  reject ((f.(fill_ID) ==? Nil) || (f.(fill_IntentID) ==? Nil) || (f.(fill_OrderID) ==? Nil) ||
          (f.(fill_AccountID) ==? Nil) || (f.(fill_InstrumentID) ==? Nil) || (f.(fill_VenueContractID) ==? Nil) ||
          (f.(fill_EconomicSourceEventID) ==? Nil) || (f.(fill_NormalizationID) ==? Nil) ||
          (f.(fill_LedgerTransactionID) ==? Nil)) "execution fill IDs are required" ;;
  reject (((f.(fill_Side) !=? SideBuy) && (f.(fill_Side) !=? SideSell)) || negb (IsPositive f.(fill_Quantity)) ||
          IsNegative f.(fill_Price) || negb (validExactDecimal f.(fill_Quantity) false) ||
          negb (validExactDecimal f.(fill_Price) true)) "execution fill side, quantity, or price is invalid" ;;
  reject ((f.(fill_Source) ==? "") || (f.(fill_Source) !=? ToLower (TrimSpace f.(fill_Source))) ||
          (f.(fill_SourceNamespace) ==? "") || (f.(fill_SourceNamespace) !=? TrimSpace f.(fill_SourceNamespace)) ||
          (f.(fill_SourceEventID) ==? "") || (f.(fill_SourceEventID) !=? TrimSpace f.(fill_SourceEventID)) ||
          (f.(fill_SourceRevision) !=? TrimSpace f.(fill_SourceRevision))) "execution fill source identity is invalid" ;;
  for_each (fun value => reject (badTime value) "execution fill %s time must use UTC microsecond precision")
    [f.(fill_EffectiveAt); f.(fill_ReceivedAt); f.(fill_CreatedAt)] ;;
  reject (After f.(fill_EffectiveAt) f.(fill_ReceivedAt)) "execution fill effective time cannot follow receive time" ;;
  reject (f.(fill_ID) !=? FillID f.(fill_OrderID) f.(fill_EconomicSourceEventID))
    "execution fill ID does not match deterministic identity".

Definition SameFillPayload (left right : option Fill) : bool :=
  match left, right with
  | Some l, Some r =>
      (l.(fill_ID) ==? r.(fill_ID)) && (l.(fill_IntentID) ==? r.(fill_IntentID)) &&
      (l.(fill_OrderID) ==? r.(fill_OrderID)) && (l.(fill_AccountID) ==? r.(fill_AccountID)) &&
      (l.(fill_InstrumentID) ==? r.(fill_InstrumentID)) && (l.(fill_VenueContractID) ==? r.(fill_VenueContractID)) &&
      (l.(fill_EconomicSourceEventID) ==? r.(fill_EconomicSourceEventID)) &&
      (l.(fill_NormalizationID) ==? r.(fill_NormalizationID)) &&
      (l.(fill_LedgerTransactionID) ==? r.(fill_LedgerTransactionID)) && (l.(fill_Side) ==? r.(fill_Side)) &&
      Equal l.(fill_Quantity) r.(fill_Quantity) && Equal l.(fill_Price) r.(fill_Price) &&
      (l.(fill_Source) ==? r.(fill_Source)) && (l.(fill_SourceNamespace) ==? r.(fill_SourceNamespace)) &&
      (l.(fill_SourceEventID) ==? r.(fill_SourceEventID)) && (l.(fill_SourceRevision) ==? r.(fill_SourceRevision)) &&
      TimeEqual l.(fill_EffectiveAt) r.(fill_EffectiveAt) && TimeEqual l.(fill_ReceivedAt) r.(fill_ReceivedAt)
  | _, _ => false
  end.

Definition sumFillQuantity (fills : list Fill) : dec :=
  foldl (fun total f => Add total f.(fill_Quantity)) Zero fills.

Definition SameEventPayload (left right : option Event) : bool :=
  match left, right with
  | Some l, Some r =>
      (l.(ev_ID) ==? r.(ev_ID)) && (l.(ev_IntentID) ==? r.(ev_IntentID)) &&
      equalUUID l.(ev_OrderID) r.(ev_OrderID) && equalUUID l.(ev_BindingID) r.(ev_BindingID) &&
      equalUUID l.(ev_FillID) r.(ev_FillID) && (l.(ev_Kind) ==? r.(ev_Kind)) &&
      (l.(ev_ObservationClass) ==? r.(ev_ObservationClass)) &&
      (l.(ev_ObservationDiscriminator) ==? r.(ev_ObservationDiscriminator)) &&
      (l.(ev_PriorState) ==? r.(ev_PriorState)) && (l.(ev_NextState) ==? r.(ev_NextState)) &&
      (l.(ev_AccountID) ==? r.(ev_AccountID)) && (l.(ev_Environment) ==? r.(ev_Environment)) &&
      (l.(ev_OriginType) ==? r.(ev_OriginType)) && (l.(ev_OriginID) ==? r.(ev_OriginID)) &&
      (l.(ev_StrategyVersionID) ==? r.(ev_StrategyVersionID)) && (l.(ev_PolicyKind) ==? r.(ev_PolicyKind)) &&
      (l.(ev_PolicyVersion) ==? r.(ev_PolicyVersion)) && equalDecimal l.(ev_QuantityDelta) r.(ev_QuantityDelta) &&
      equalDecimal l.(ev_CumulativeFillQuantity) r.(ev_CumulativeFillQuantity) &&
      equalUUID l.(ev_QuoteSnapshotID) r.(ev_QuoteSnapshotID) && (l.(ev_Source) ==? r.(ev_Source)) &&
      (l.(ev_SourceNamespace) ==? r.(ev_SourceNamespace)) && (l.(ev_SourceEventID) ==? r.(ev_SourceEventID)) &&
      (l.(ev_SourceRevision) ==? r.(ev_SourceRevision)) && TimeEqual l.(ev_SourceAt) r.(ev_SourceAt) &&
      TimeEqual l.(ev_ReceivedAt) r.(ev_ReceivedAt) && (l.(ev_Actor) ==? r.(ev_Actor)) &&
      (l.(ev_ReasonCode) ==? r.(ev_ReasonCode)) && (l.(ev_Reason) ==? r.(ev_Reason)) &&
      (l.(ev_EvidenceSHA256) ==? r.(ev_EvidenceSHA256)) && (l.(ev_Evidence) ==? r.(ev_Evidence)) &&
      equalUUID l.(ev_OriginalFillID) r.(ev_OriginalFillID) &&
      (l.(ev_OriginalSourceEventID) ==? r.(ev_OriginalSourceEventID))
  | _, _ => false
  end.
End lifecycle.
