(* ===== verification/LifecycleAggregate.v ===== *)
(** * Commands, transitions and replay (internal/execution/lifecycle)

    [Propose] (intent.go), [Route], [Acknowledge] (order.go), [RecordFill]
    (fill.go) and everything of aggregate.go. A command reads the current
    aggregate and returns one [Transition]; [ApplyTransition] checks a
    transition against the aggregate and returns the next one; [Replay] folds
    it over the stored history. [now] is [time.Now()]. *)

From S2P Require Import Prelude GoStd Externals EconomicId Account Instrument Transaction SourceEvent Normalization.
From S2P Require Import Snapshot Lifecycle.

Local Open Scope go_scope.

(** ** validEventTransition *)

Definition bound_states (s : State) : bool := (s ==? StateWorking) || (s ==? StatePartiallyFilled).
Definition open_states (s : State) : bool :=
  (s ==? StateRouted) || (s ==? StateWorking) || (s ==? StatePartiallyFilled).

Definition validEventTransition (kind : EventKind) (observationClass : ObservationClass) (prior next : State) : bool :=
  if (observationClass ==? ObservationCorrection) || (observationClass ==? ObservationBust) then
    ((kind ==? EventFillCorrectionObserved) || (kind ==? EventFillBustObserved)) &&
    (prior !=? StateNone) && (prior !=? StateFailedReconciliation) && (next ==? StateFailedReconciliation)
  else if observationClass !=? ObservationOrdinary then false
  else
    match kind with
    | EventIntentProposed => (prior ==? StateNone) && (next ==? StateProposed)
    | EventIntentAllocated => (prior ==? StateProposed) && (next ==? StateAllocated)
    | EventRiskApproved => (prior ==? StateAllocated) && (next ==? StateRiskApproved)
    | EventRiskRejected => (prior ==? StateAllocated) && (next ==? StateRiskRejected)
    | EventOrderRouted => (prior ==? StateRiskApproved) && (next ==? StateRouted)
    | EventOrderWorking => (prior ==? StateRouted) && (next ==? StateWorking)
    | EventCancelRequested => bound_states prior && (next ==? prior)
    | EventFillAcknowledged => (prior ==? StateRouted) && ((next ==? StatePartiallyFilled) || (next ==? StateFilled))
    | EventFillRecorded => bound_states prior && ((next ==? StatePartiallyFilled) || (next ==? StateFilled))
    | EventOrderCancelled => open_states prior && (next ==? StateCancelled)
    | EventOrderExpired => open_states prior && (next ==? StateExpired)
    | EventOrderRejected => open_states prior && (next ==? StateRejected)
    | EventUnknownVenueState | EventContradictoryVenueState =>
        (prior !=? StateNone) && (prior !=? StateFailedReconciliation) && (next ==? StateFailedReconciliation)
    | EventFillCorrectionObserved | EventFillBustObserved | EventKindOther _ => false
    end.

Section aggregate.
Context {E : Externals}.

(** [createdAt = normalizeTime(createdAt); if createdAt.IsZero() { createdAt = now }] *)
Definition creation_time (now createdAt : Time) : Time :=
  let created := normalizeTime createdAt in if IsZeroTime created then utc_micro now else created.

Definition no_children (t : Transition) : bool :=
  is_nil t.(tr_Order) && is_nil t.(tr_Binding) && is_nil t.(tr_Fill) && is_nil t.(tr_Normalization).

Definition event_only (e : Event) : Transition := MkTransition e None None None None.

(** ** Propose *)

Record ProposeInput := MkProposeInput {
  prop_Account : Account;
  prop_Instrument : Instrument;
  prop_DecisionSnapshot : QuoteSnapshot;
  prop_IdempotencyKey : string;
  prop_DesiredQuantityDelta : dec;
  prop_DecisionAt : Time;
  prop_OriginType : ExecutionOriginType;
  prop_OriginID : string;
  prop_StrategyVersionID : string;
  prop_Metadata : string;
  prop_Event : EventInput;
  prop_CreatedAt : Time;
}.

Definition Propose (now : Time) (input : ProposeInput) : outcome Aggregate :=
  let account := input.(prop_Account) in
  let inst := input.(prop_Instrument) in
  let snapshot := input.(prop_DecisionSnapshot) in
  wrap "propose execution intent: invalid account: %w" (Account_Validate account) ;;
  reject (account.(acct_Status) !=? AccountStatusActive) "propose execution intent: account must be active" ;;
  wrap "propose execution intent: invalid instrument: %w" (Instrument_Validate inst) ;;
  reject (inst.(inst_Status) !=? StatusActive) "propose execution intent: instrument must be active" ;;
  wrap "propose execution intent: invalid decision snapshot: %w" (QuoteSnapshot_Validate snapshot) ;;
  reject (snapshot.(snap_InstrumentID) !=? inst.(inst_ID))
    "propose execution intent: decision snapshot instrument mismatch" ;;
  let decisionAt := normalizeTime input.(prop_DecisionAt) in
  reject (IsZeroTime decisionAt) "propose execution intent: decision time is required" ;;
  reject (some_and (fun expiration => negb (Before decisionAt expiration)) inst.(inst_Expiration))
    "propose execution intent: instrument is expired at decision time" ;;
  reject (is_nil snapshot.(snap_AvailableAt)) "propose execution intent: decision snapshot availability is required" ;;
  reject (some_and (fun availableAt => After availableAt decisionAt) snapshot.(snap_AvailableAt))
    "propose execution intent: decision snapshot was not available" ;;
  reject (negb (validExactDecimal input.(prop_DesiredQuantityDelta) false))
    "propose execution intent: desired quantity must be nonzero with at most 12 fractional and 26 integer digits" ;;
  let idempotencyKey := TrimSpace input.(prop_IdempotencyKey) in
  let originID := TrimSpace input.(prop_OriginID) in
  let strategyVersionID := TrimSpace input.(prop_StrategyVersionID) in
  reject (idempotencyKey ==? "") "propose execution intent: idempotency key is required" ;;
  reject (negb (validOrigin input.(prop_OriginType)) || (originID ==? ""))
    "propose execution intent: execution origin is required" ;;
  reject ((input.(prop_OriginType) ==? ExecutionOriginStrategyVersion) && (strategyVersionID !=? originID))
    "propose execution intent: strategy origin must match strategy version" ;;
  validateJSONObject input.(prop_Metadata) "execution intent metadata" ;;
  let createdAt := creation_time now input.(prop_CreatedAt) in
  let intent := {|
    intent_ID := intent_identity account.(acct_ID) idempotencyKey;
    intent_AccountID := account.(acct_ID);
    intent_Environment := account.(acct_Environment);
    intent_InstrumentID := inst.(inst_ID);
    intent_IdempotencyKey := idempotencyKey;
    intent_DesiredQuantityDelta := input.(prop_DesiredQuantityDelta);
    intent_DecisionQuoteSnapshotID := snapshot.(snap_ID);
    intent_DecisionAt := decisionAt;
    intent_OriginType := input.(prop_OriginType);
    intent_OriginID := originID;
    intent_StrategyVersionID := strategyVersionID;
    intent_Metadata := input.(prop_Metadata);
    intent_CreatedAt := createdAt |} in
  Intent_Validate intent ;;
  event ← wrap "propose execution intent: %w"
            (newEvent now intent EventIntentProposed StateNone StateProposed input.(prop_Event) createdAt) ;
  let event := set_context event
    (EventContext None None None (PolicyOther "") "" (Some intent.(intent_DesiredQuantityDelta)) None
       (Some intent.(intent_DecisionQuoteSnapshotID))) in
  wrap "propose execution intent: %w" (Event_Validate event) ;;
  Ok (MkAggregate intent StateProposed None None None [] [event]).

(** ** Allocate, ApproveRisk, RejectRisk *)

Definition Allocate (now : Time) (aggregate : option Aggregate) (quantity : dec) (input : EventInput)
    (createdAt : Time) : outcome Transition :=
  a ← required aggregate "allocate execution intent: lifecycle must be proposed" ;
  reject (a.(agg_State) !=? StateProposed) "allocate execution intent: lifecycle must be proposed" ;;
  let desired := a.(agg_Intent).(intent_DesiredQuantityDelta) in
  reject (negb (validExactDecimal quantity false) || negb (Sign quantity =? Sign desired)%Z ||
          GreaterThan (Abs quantity) (Abs desired))
    "allocate execution intent: allocation must retain direction and not exceed desired quantity" ;;
  event ← wrap "allocate execution intent: %w"
            (newEvent now a.(agg_Intent) EventIntentAllocated StateProposed StateAllocated input createdAt) ;
  let event := set_context event (EventContext None None None (PolicyOther "") "" (Some quantity) None None) in
  wrap "allocate execution intent: %w" (Event_Validate event) ;;
  Ok (event_only event).

Definition riskTransition (now : Time) (aggregate : option Aggregate) (approved : bool) (input : EventInput)
    (createdAt : Time) : outcome Transition :=
  a ← required aggregate "risk execution intent: lifecycle must contain an allocation" ;
  reject ((a.(agg_State) !=? StateAllocated) || is_nil a.(agg_AllocatedQuantity))
    "risk execution intent: lifecycle must contain an allocation" ;;
  let kind := if approved then EventRiskApproved else EventRiskRejected in
  let next := if approved then StateRiskApproved else StateRiskRejected in
  event ← wrap "risk execution intent: %w" (newEvent now a.(agg_Intent) kind StateAllocated next input createdAt) ;
  let event := set_context event
    (EventContext None None None (PolicyOther "") "" a.(agg_AllocatedQuantity) None None) in
  wrap "risk execution intent: %w" (Event_Validate event) ;;
  Ok (event_only event).

Definition ApproveRisk (now : Time) (aggregate : option Aggregate) (input : EventInput) (createdAt : Time) :
    outcome Transition := riskTransition now aggregate true input createdAt.

Definition RejectRisk (now : Time) (aggregate : option Aggregate) (input : EventInput) (createdAt : Time) :
    outcome Transition := riskTransition now aggregate false input createdAt.

(** ** Route *)

Record RouteInput := MkRouteInput {
  route_OrderIdempotencyKey : string;
  route_Instrument : Instrument;
  route_VenueContract : VenueContract;
  route_RouteSnapshot : QuoteSnapshot;
  route_QuoteRequirements : QuoteRequirements;
  route_OrderType : OrderType;
  route_TimeInForce : TimeInForce;
  route_LimitPrice : option dec;
  route_StopPrice : option dec;
  route_PolicyKind : PolicyKind;
  route_PolicyVersion : string;
  route_Event : EventInput;
  route_RoutedAt : Time;
  route_CreatedAt : Time;
}.

Definition Route (now : Time) (aggregate : option Aggregate) (input : RouteInput) : outcome Transition :=
  let shape := "route execution intent: lifecycle must contain one approved allocation and no order" in
  a ← required aggregate shape ;
  reject (a.(agg_State) !=? StateRiskApproved) shape ;;
  allocated ← required a.(agg_AllocatedQuantity) shape ;
  reject (negb (is_nil a.(agg_Order))) shape ;;
  let intent := a.(agg_Intent) in
  let contract := input.(route_VenueContract) in
  let snapshot := input.(route_RouteSnapshot) in
  reject (input.(route_Instrument).(inst_ID) !=? intent.(intent_InstrumentID))
    "route execution intent: instrument mismatch" ;;
  wrap "route execution intent: instrument is not executable: %w" (Instrument_Validate input.(route_Instrument)) ;;
  reject (input.(route_Instrument).(inst_Status) !=? StatusActive)
    "route execution intent: instrument is not executable: %w" ;;
  wrap "route execution intent: invalid venue contract: %w" (VenueContract_Validate contract) ;;
  let routedAt := normalizeTime input.(route_RoutedAt) in
  reject (IsZeroTime routedAt) "route execution intent: route time is required" ;;
  assessment ← wrap "route execution intent: quote is not executable: %w"
    (AssessForExecution snapshot routedAt input.(route_QuoteRequirements) input.(route_Instrument) contract) ;
  reject ((assessment.(qa_SnapshotID) !=? snapshot.(snap_ID)) ||
          negb (points_to assessment.(qa_VenueContractID) contract.(vc_ID)) ||
          negb (TimeEqual assessment.(qa_EvaluatedAt) routedAt))
    "route execution intent: quote assessment identity mismatch" ;;
  let quantity := Abs allocated in
  reject (negb (isExactMultiple quantity contract.(vc_LotSize)))
    "route execution intent: quantity is not an exact venue lot" ;;
  wrap "route execution intent: %w"
    (validateOrderPrices input.(route_OrderType) input.(route_LimitPrice) input.(route_StopPrice) contract.(vc_TickSize)) ;;
  reject (negb (validTimeInForce input.(route_TimeInForce))) "route execution intent: invalid time in force %q" ;;
  reject ((input.(route_PolicyKind) !=? PolicySimulation) && (input.(route_PolicyKind) !=? PolicyVenue))
    "route execution intent: invalid policy kind %q" ;;
  let policyVersion := TrimSpace input.(route_PolicyVersion) in
  let orderKey := TrimSpace input.(route_OrderIdempotencyKey) in
  reject ((policyVersion ==? "") || (orderKey ==? ""))
    "route execution intent: order idempotency key and policy version are required" ;;
  let createdAt := creation_time now input.(route_CreatedAt) in
  let orderID := order_identity intent.(intent_ID) orderKey in
  let order := {|
    order_ID := orderID;
    order_IntentID := intent.(intent_ID);
    order_AccountID := intent.(intent_AccountID);
    order_InstrumentID := intent.(intent_InstrumentID);
    order_IdempotencyKey := orderKey;
    order_ClientOrderID := uuid_string orderID;
    order_Side := sideForDelta allocated;
    order_OrderType := input.(route_OrderType);
    order_TimeInForce := input.(route_TimeInForce);
    order_Quantity := quantity;
    order_LimitPrice := input.(route_LimitPrice);
    order_StopPrice := input.(route_StopPrice);
    order_Venue := contract.(vc_Venue);
    order_VenueContractID := contract.(vc_ID);
    order_RouteQuoteSnapshotID := snapshot.(snap_ID);
    order_RoutedAt := routedAt;
    order_PolicyKind := input.(route_PolicyKind);
    order_PolicyVersion := policyVersion;
    order_CreatedAt := createdAt |} in
  wrap "route execution intent: %w" (Order_Validate order) ;;
  event ← wrap "route execution intent: %w"
            (newEvent now intent EventOrderRouted StateRiskApproved StateRouted input.(route_Event) createdAt) ;
  let event := set_context event
    (EventContext (Some order.(order_ID)) None None order.(order_PolicyKind) order.(order_PolicyVersion)
       (Some allocated) None (Some order.(order_RouteQuoteSnapshotID))) in
  wrap "route execution intent: %w" (Event_Validate event) ;;
  Ok (MkTransition event (Some order) None None None).

(** ** Bindings and Acknowledge *)

Definition newOrderBinding (a : Aggregate) (order : Order) (externalOrderID : string) (createdAt : Time) :
    outcome OrderBinding :=
  let externalOrderID := TrimSpace externalOrderID in
  reject (externalOrderID ==? "") "external order ID is required" ;;
  let binding := {|
    bind_ID := binding_identity order.(order_ID);
    bind_OrderID := order.(order_ID);
    bind_AccountID := a.(agg_Intent).(intent_AccountID);
    bind_Venue := order.(order_Venue);
    bind_ExternalOrderID := externalOrderID;
    bind_CreatedAt := createdAt |} in
  OrderBinding_Validate binding ;;
  Ok binding.

Definition Acknowledge (now : Time) (aggregate : option Aggregate) (externalOrderID : string) (input : EventInput)
    (createdAt : Time) : outcome Transition :=
  let shape := "acknowledge execution order: lifecycle must be routed and unbound" in
  a ← required aggregate shape ;
  reject (a.(agg_State) !=? StateRouted) shape ;;
  order ← required a.(agg_Order) shape ;
  reject (negb (is_nil a.(agg_Binding))) shape ;;
  let createdAt := creation_time now createdAt in
  binding ← wrap "acknowledge execution order: %w" (newOrderBinding a order externalOrderID createdAt) ;
  event ← wrap "acknowledge execution order: %w"
            (newEvent now a.(agg_Intent) EventOrderWorking StateRouted StateWorking input createdAt) ;
  let event := set_context event
    (EventContext (Some order.(order_ID)) (Some binding.(bind_ID)) None order.(order_PolicyKind)
       order.(order_PolicyVersion) a.(agg_AllocatedQuantity) None None) in
  wrap "acknowledge execution order: %w" (Event_Validate event) ;;
  Ok (MkTransition event None (Some binding) None None).

(** ** RecordFill *)

(** The Go condition is one disjunction; its operands are evaluated from the
    left, so the pointers are dereferenced in this order. *)
Definition validateFillNormalization (a : Aggregate) (fillID : UUID) (n : EconomicNormalization) : outcome unit :=
  let mismatch := "record execution fill: normalization context does not match lifecycle" in
  let intent := a.(agg_Intent) in
  source ← deref n.(norm_SourceEvent) ;
  reject (source.(src_AccountID) !=? intent.(intent_AccountID)) mismatch ;;
  account ← required n.(norm_Account) mismatch ;
  reject (account.(acct_ID) !=? intent.(intent_AccountID)) mismatch ;;
  inst ← required n.(norm_Instrument) mismatch ;
  reject (inst.(inst_ID) !=? intent.(intent_InstrumentID)) mismatch ;;
  contract ← required n.(norm_VenueContract) mismatch ;
  order ← deref a.(agg_Order) ;
  reject ((contract.(vc_ID) !=? order.(order_VenueContractID)) || (n.(norm_Venue) !=? order.(order_Venue)) ||
          (n.(norm_ExecutionOriginType) !=? intent.(intent_OriginType)) ||
          (n.(norm_ExecutionOriginID) !=? intent.(intent_OriginID)) ||
          (n.(norm_ReferenceType) !=? "execution_fill") ||
          (n.(norm_ReferenceID) !=? uuid_string fillID) || is_nil n.(norm_Transaction)) mismatch ;;
  let wantEventType :=
    if order.(order_Side) ==? SideSell then EconomicEventFillSell else EconomicEventFillBuy in
  let mechanics := "record execution fill: normalization fill mechanics do not match order" in
  reject (n.(norm_EventType) !=? wantEventType) mechanics ;;
  quantity ← required n.(norm_Quantity) mechanics ;
  price ← required n.(norm_Price) mechanics ;
  reject (negb (IsPositive quantity) || IsNegative price || negb (validExactDecimal quantity false) ||
          negb (validExactDecimal price true)) mechanics.

Record FillInput := MkFillInput {
  recin_Normalization : option EconomicNormalization;
  recin_ExternalOrderID : string;
  recin_Event : EventInput;
  recin_CreatedAt : Time;
}.

(** [now'] is the clock reading of [normalization.Validate()]. *)
Definition RecordFill (now now' : Time) (aggregate : option Aggregate) (input : FillInput) : outcome Transition :=
  let shape := "record execution fill: routed lifecycle is required" in
  a ← required aggregate shape ;
  order ← required a.(agg_Order) shape ;
  reject (is_nil a.(agg_AllocatedQuantity)) shape ;;
  reject (negb (open_states a.(agg_State))) "record execution fill: lifecycle state %q cannot accept a fill" ;;
  n ← required input.(recin_Normalization) "record execution fill: normalization is required" ;
  wrap "record execution fill: invalid normalization: %w" (EconomicNormalization_Validate now' n) ;;
  source ← required n.(norm_SourceEvent) "record execution fill: raw economic source event is required" ;
  reject (source.(src_ID) ==? Nil) "record execution fill: raw economic source event is required" ;;
  let fillID := FillID order.(order_ID) source.(src_ID) in
  validateFillNormalization a fillID n ;;
  let evin := input.(recin_Event) in
  reject ((evin.(evin_ObservationClass) !=? ObservationOther "") &&
          (evin.(evin_ObservationClass) !=? ObservationOrdinary))
    "record execution fill: fill event must use ordinary observation identity" ;;
  reject ((source.(src_Source) !=? ToLower (TrimSpace evin.(evin_Source))) ||
          (source.(src_SourceNamespace) !=? TrimSpace evin.(evin_SourceNamespace)) ||
          (source.(src_SourceEventID) !=? TrimSpace evin.(evin_SourceEventID)) ||
          (source.(src_SourceRevision) !=? TrimSpace evin.(evin_SourceRevision)) ||
          negb (TimeEqual source.(src_ObservedAt) (normalizeTime evin.(evin_ReceivedAt))) ||
          (source.(src_RawPayload) !=? evin.(evin_Evidence)))
    "record execution fill: lifecycle evidence differs from raw economic source event" ;;
  validateJSONObject source.(src_RawPayload) "execution fill source payload" ;;
  let createdAt := creation_time now input.(recin_CreatedAt) in
  transaction ← deref n.(norm_Transaction) ;
  quantity ← deref n.(norm_Quantity) ;
  price ← deref n.(norm_Price) ;
  let fill := {|
    fill_ID := fillID;
    fill_IntentID := a.(agg_Intent).(intent_ID);
    fill_OrderID := order.(order_ID);
    fill_AccountID := a.(agg_Intent).(intent_AccountID);
    fill_InstrumentID := a.(agg_Intent).(intent_InstrumentID);
    fill_VenueContractID := order.(order_VenueContractID);
    fill_EconomicSourceEventID := source.(src_ID);
    fill_NormalizationID := n.(norm_ID);
    fill_LedgerTransactionID := transaction.(tx_ID);
    fill_Side := order.(order_Side);
    fill_Quantity := quantity;
    fill_Price := price;
    fill_Source := source.(src_Source);
    fill_SourceNamespace := source.(src_SourceNamespace);
    fill_SourceEventID := source.(src_SourceEventID);
    fill_SourceRevision := source.(src_SourceRevision);
    fill_EffectiveAt := n.(norm_EffectiveAt);
    fill_ReceivedAt := source.(src_ObservedAt);
    fill_CreatedAt := createdAt |} in
  wrap "record execution fill: %w" (Fill_Validate fill) ;;
  let cumulative := Add (sumFillQuantity a.(agg_Fills)) fill.(fill_Quantity) in
  reject (GreaterThan cumulative order.(order_Quantity))
    "record execution fill: cumulative quantity %s exceeds order quantity %s" ;;
  let nextState := if Equal cumulative order.(order_Quantity) then StateFilled else StatePartiallyFilled in
  '(kind, binding, bindingID) ←
    (if a.(agg_State) ==? StateRouted then
       reject (negb (is_nil a.(agg_Binding))) "record execution fill: routed lifecycle unexpectedly has a binding" ;;
       binding ← wrap "record execution fill: %w" (newOrderBinding a order input.(recin_ExternalOrderID) createdAt) ;
       Ok (EventFillAcknowledged, Some binding, binding.(bind_ID))
     else
       current ← required a.(agg_Binding) "record execution fill: working lifecycle has no external binding" ;
       let externalID := TrimSpace input.(recin_ExternalOrderID) in
       reject ((externalID !=? "") && (externalID !=? current.(bind_ExternalOrderID)))
         "record execution fill: external order ID does not match binding" ;;
       Ok (EventFillRecorded, None, current.(bind_ID))) ;
  event ← wrap "record execution fill: %w"
            (newEvent now a.(agg_Intent) kind a.(agg_State) nextState input.(recin_Event) createdAt) ;
  let event := set_context event
    (EventContext (Some order.(order_ID)) (Some bindingID) (Some fill.(fill_ID)) order.(order_PolicyKind)
       order.(order_PolicyVersion) a.(agg_AllocatedQuantity) (Some cumulative) None) in
  wrap "record execution fill: %w" (Event_Validate event) ;;
  Ok (MkTransition event None binding (Some fill) (Some n)).

(** ** ApplyTransition

    The clones are identities; [next] starts as the aggregate itself. *)

Definition hasFill (a : Aggregate) (id : UUID) (sourceEventID : string) : bool :=
  existsb (fun f => (f.(fill_ID) ==? id) && (f.(fill_SourceEventID) ==? sourceEventID)) a.(agg_Fills).

(** [next.State = event.NextState; next.Events = append(next.Events, event)]
    after the assignments of the case. *)
Definition advance (a : Aggregate) (e : Event) (allocated : option dec) (order : option Order)
    (binding : option OrderBinding) (fills : list Fill) : Aggregate :=
  MkAggregate a.(agg_Intent) e.(ev_NextState) allocated order binding fills (a.(agg_Events) ++ [e]).

Definition unchanged (a : Aggregate) (e : Event) : Aggregate :=
  advance a e a.(agg_AllocatedQuantity) a.(agg_Order) a.(agg_Binding) a.(agg_Fills).

Definition apply_allocated (a : Aggregate) (t : Transition) : outcome Aggregate :=
  let e := t.(tr_Event) in
  reject (negb (no_children t)) "apply execution transition: allocation cannot carry child facts" ;;
  let desired := a.(agg_Intent).(intent_DesiredQuantityDelta) in
  reject (match e.(ev_QuantityDelta) with
          | None => true
          | Some q => negb (validExactDecimal q false) || negb (Sign q =? Sign desired)%Z ||
                      GreaterThan (Abs q) (Abs desired)
          end) "apply execution transition: invalid allocated quantity" ;;
  Ok (advance a e e.(ev_QuantityDelta) a.(agg_Order) a.(agg_Binding) a.(agg_Fills)).

Definition apply_risk (a : Aggregate) (t : Transition) : outcome Aggregate :=
  let e := t.(tr_Event) in
  reject (negb (no_children t)) "apply execution transition: risk decision cannot carry child facts" ;;
  reject (match a.(agg_AllocatedQuantity), e.(ev_QuantityDelta) with
          | Some allocated, Some q => negb (Equal q allocated)
          | _, _ => true
          end) "apply execution transition: risk quantity does not match allocation" ;;
  Ok (unchanged a e).

Definition apply_routed (a : Aggregate) (t : Transition) : outcome Aggregate :=
  let e := t.(tr_Event) in
  let mismatch := "apply execution transition: routed order does not match lifecycle" in
  order ← required t.(tr_Order) mismatch ;
  reject (negb (is_nil a.(agg_Order)) || negb (points_to e.(ev_OrderID) order.(order_ID)) ||
          negb (is_nil t.(tr_Binding)) || negb (is_nil t.(tr_Fill)) || negb (is_nil t.(tr_Normalization)) ||
          (order.(order_IntentID) !=? a.(agg_Intent).(intent_ID)) ||
          (order.(order_AccountID) !=? a.(agg_Intent).(intent_AccountID)) ||
          (order.(order_InstrumentID) !=? a.(agg_Intent).(intent_InstrumentID))) mismatch ;;
  allocated ← required a.(agg_AllocatedQuantity) mismatch ;
  reject (negb (Equal order.(order_Quantity) (Abs allocated)) || (order.(order_Side) !=? sideForDelta allocated) ||
          (e.(ev_PolicyKind) !=? order.(order_PolicyKind)) || (e.(ev_PolicyVersion) !=? order.(order_PolicyVersion)) ||
          negb (points_to e.(ev_QuoteSnapshotID) order.(order_RouteQuoteSnapshotID))) mismatch ;;
  wrap "apply execution transition: %w" (Order_Validate order) ;;
  Ok (advance a e a.(agg_AllocatedQuantity) (Some order) a.(agg_Binding) a.(agg_Fills)).

Definition apply_working (a : Aggregate) (t : Transition) : outcome Aggregate :=
  let e := t.(tr_Event) in
  let mismatch := "apply execution transition: order binding does not match lifecycle" in
  order ← required a.(agg_Order) mismatch ;
  reject (negb (is_nil a.(agg_Binding))) mismatch ;;
  binding ← required t.(tr_Binding) mismatch ;
  reject (is_nil e.(ev_BindingID) || negb (is_nil t.(tr_Order)) || negb (is_nil t.(tr_Fill)) ||
          negb (is_nil t.(tr_Normalization)) || negb (points_to e.(ev_BindingID) binding.(bind_ID)) ||
          (binding.(bind_OrderID) !=? order.(order_ID)) ||
          (binding.(bind_AccountID) !=? a.(agg_Intent).(intent_AccountID)) ||
          (binding.(bind_Venue) !=? order.(order_Venue))) mismatch ;;
  wrap "apply execution transition: %w" (OrderBinding_Validate binding) ;;
  Ok (advance a e a.(agg_AllocatedQuantity) a.(agg_Order) (Some binding) a.(agg_Fills)).

Definition apply_cancel_requested (a : Aggregate) (t : Transition) : outcome Aggregate :=
  let e := t.(tr_Event) in
  let invalid := "apply execution transition: cancel request binding is invalid" in
  binding ← required a.(agg_Binding) invalid ;
  reject (negb (points_to e.(ev_BindingID) binding.(bind_ID)) || negb (no_children t)) invalid ;;
  Ok (unchanged a e).

Definition apply_terminal (a : Aggregate) (t : Transition) : outcome Aggregate :=
  let e := t.(tr_Event) in
  reject (negb (no_children t)) "apply execution transition: terminal observation cannot carry child facts" ;;
  (if bound_states a.(agg_State) then
     reject (match a.(agg_Binding) with
             | None => true
             | Some binding => negb (points_to e.(ev_BindingID) binding.(bind_ID))
             end) "apply execution transition: terminal observation binding is invalid"
   else
     reject ((a.(agg_State) ==? StateRouted) && negb (is_nil e.(ev_BindingID)))
       "apply execution transition: pre-ack terminal observation cannot carry a binding") ;;
  Ok (unchanged a e).

Definition apply_fill (a : Aggregate) (t : Transition) : outcome Aggregate :=
  let e := t.(tr_Event) in
  let mismatch := "apply execution transition: fill does not match lifecycle" in
  order ← required a.(agg_Order) mismatch ;
  fill ← required t.(tr_Fill) mismatch ;
  n ← required t.(tr_Normalization) mismatch ;
  reject (negb (is_nil t.(tr_Order)) || negb (points_to e.(ev_FillID) fill.(fill_ID)) ||
          (fill.(fill_IntentID) !=? a.(agg_Intent).(intent_ID)) || (fill.(fill_OrderID) !=? order.(order_ID)) ||
          (fill.(fill_AccountID) !=? a.(agg_Intent).(intent_AccountID)) ||
          (fill.(fill_InstrumentID) !=? a.(agg_Intent).(intent_InstrumentID)) ||
          (fill.(fill_VenueContractID) !=? order.(order_VenueContractID))) mismatch ;;
  wrap "apply execution transition: %w" (Fill_Validate fill) ;;
  wrap "apply execution transition: %w" (validateFillNormalization a fill.(fill_ID) n) ;;
  source ← deref n.(norm_SourceEvent) ;
  transaction ← deref n.(norm_Transaction) ;
  reject ((fill.(fill_EconomicSourceEventID) !=? source.(src_ID)) || (fill.(fill_NormalizationID) !=? n.(norm_ID)) ||
          (fill.(fill_LedgerTransactionID) !=? transaction.(tx_ID)) || (e.(ev_Source) !=? fill.(fill_Source)) ||
          (e.(ev_SourceNamespace) !=? fill.(fill_SourceNamespace)) ||
          (e.(ev_SourceEventID) !=? fill.(fill_SourceEventID)) ||
          (e.(ev_SourceRevision) !=? fill.(fill_SourceRevision)) ||
          negb (TimeEqual e.(ev_ReceivedAt) fill.(fill_ReceivedAt)))
    "apply execution transition: fill source or economic links mismatch" ;;
  let cumulative := Add (sumFillQuantity a.(agg_Fills)) fill.(fill_Quantity) in
  reject (GreaterThan cumulative order.(order_Quantity) ||
          match e.(ev_CumulativeFillQuantity) with None => true | Some q => negb (Equal q cumulative) end ||
          xorb (e.(ev_NextState) ==? StateFilled) (Equal cumulative order.(order_Quantity)))
    "apply execution transition: fill cumulative quantity is invalid" ;;
  binding ←
    (if e.(ev_Kind) ==? EventFillAcknowledged then
       let invalid := "apply execution transition: immediate fill binding is invalid" in
       reject ((a.(agg_State) !=? StateRouted) || negb (is_nil a.(agg_Binding))) invalid ;;
       binding ← required t.(tr_Binding) invalid ;
       reject (negb (points_to e.(ev_BindingID) binding.(bind_ID)) || (binding.(bind_OrderID) !=? order.(order_ID)))
         invalid ;;
       wrap "apply execution transition: %w" (OrderBinding_Validate binding) ;;
       Ok binding
     else
       let invalid := "apply execution transition: fill binding is invalid" in
       binding ← required a.(agg_Binding) invalid ;
       reject (negb (is_nil t.(tr_Binding)) || negb (points_to e.(ev_BindingID) binding.(bind_ID))) invalid ;;
       Ok binding) ;
  Ok (advance a e a.(agg_AllocatedQuantity) a.(agg_Order) (Some binding) (a.(agg_Fills) ++ [fill])).

Definition apply_revision (a : Aggregate) (t : Transition) : outcome Aggregate :=
  let e := t.(tr_Event) in
  reject (negb (no_children t) ||
          match e.(ev_OriginalFillID) with
          | None => true
          | Some id => negb (hasFill a id e.(ev_OriginalSourceEventID))
          end) "apply execution transition: correction or bust does not identify an existing fill" ;;
  Ok (unchanged a e).

Definition apply_venue_failure (a : Aggregate) (t : Transition) : outcome Aggregate :=
  reject (negb (no_children t)) "apply execution transition: reconciliation failure cannot carry child facts" ;;
  Ok (unchanged a t.(tr_Event)).

Definition ApplyTransition (aggregate : option Aggregate) (transition : option Transition) : outcome Aggregate :=
  let missing := "apply execution transition: aggregate and transition are required" in
  a ← required aggregate missing ;
  t ← required transition missing ;
  let e := t.(tr_Event) in
  let intent := a.(agg_Intent) in
  wrap "apply execution transition: %w" (Event_Validate e) ;;
  reject ((e.(ev_IntentID) !=? intent.(intent_ID)) || (e.(ev_AccountID) !=? intent.(intent_AccountID)) ||
          (e.(ev_Environment) !=? intent.(intent_Environment)) || (e.(ev_OriginType) !=? intent.(intent_OriginType)) ||
          (e.(ev_OriginID) !=? intent.(intent_OriginID)) ||
          (e.(ev_StrategyVersionID) !=? intent.(intent_StrategyVersionID)))
    "apply execution transition: event context does not match intent" ;;
  match a.(agg_Order) with
  | None =>
      reject ((e.(ev_Kind) !=? EventOrderRouted) &&
              (negb (is_nil e.(ev_OrderID)) || (e.(ev_PolicyKind) !=? PolicyOther "") || (e.(ev_PolicyVersion) !=? "")))
        "apply execution transition: pre-route event carries order policy context"
  | Some order =>
      reject ((e.(ev_Kind) !=? EventOrderRouted) &&
              (negb (points_to e.(ev_OrderID) order.(order_ID)) || (e.(ev_PolicyKind) !=? order.(order_PolicyKind)) ||
               (e.(ev_PolicyVersion) !=? order.(order_PolicyVersion))))
        "apply execution transition: event order policy context mismatch"
  end ;;
  reject (e.(ev_PriorState) !=? a.(agg_State)) "apply execution transition: stale prior state %q, current %q" ;;
  reject (negb (validEventTransition e.(ev_Kind) e.(ev_ObservationClass) e.(ev_PriorState) e.(ev_NextState)))
    "apply execution transition: illegal %s transition %s -> %s" ;;
  match e.(ev_Kind) with
  | EventIntentAllocated => apply_allocated a t
  | EventRiskApproved | EventRiskRejected => apply_risk a t
  | EventOrderRouted => apply_routed a t
  | EventOrderWorking => apply_working a t
  | EventCancelRequested => apply_cancel_requested a t
  | EventOrderCancelled | EventOrderExpired | EventOrderRejected => apply_terminal a t
  | EventFillAcknowledged | EventFillRecorded => apply_fill a t
  | EventFillCorrectionObserved | EventFillBustObserved => apply_revision a t
  | EventUnknownVenueState | EventContradictoryVenueState => apply_venue_failure a t
  | EventIntentProposed | EventKindOther _ => Ok (unchanged a e)
  end.

(** ** Replay *)

Fixpoint replay_events (transitions : list Transition) (seen : list UUID) (lastSequence : Z) (a : Aggregate) :
    outcome Aggregate :=
  match transitions with
  | [] => Ok a
  | t :: rest =>
      let e := t.(tr_Event) in
      reject (bool_decide (e.(ev_ID) ∈ seen)) "replay execution lifecycle: duplicate event %s" ;;
      let sequenced := (0 <? e.(ev_IngestSequence))%Z || (0 <? lastSequence)%Z in
      reject (sequenced && (e.(ev_IngestSequence) <=? lastSequence)%Z)
        "replay execution lifecycle: event ingest sequence is not increasing" ;;
      let lastSequence := if sequenced then e.(ev_IngestSequence) else lastSequence in
      next ← wrap "replay execution lifecycle event %d: %w" (ApplyTransition (Some a) (Some t)) ;
      replay_events rest (e.(ev_ID) :: seen) lastSequence next
  end.

Definition Replay (accountID : UUID) (intent : Intent) (transitions : list Transition) : outcome Aggregate :=
  reject ((accountID ==? Nil) || (intent.(intent_AccountID) !=? accountID))
    "replay execution lifecycle: account identity mismatch" ;;
  wrap "replay execution lifecycle: %w" (Intent_Validate intent) ;;
  match transitions with
  | [] => Err (Errorf "replay execution lifecycle: proposed event is required")
  | initial :: rest =>
      let e := initial.(tr_Event) in
      reject (negb (no_children initial) || (e.(ev_Kind) !=? EventIntentProposed) ||
              (e.(ev_ObservationClass) !=? ObservationOrdinary) || (e.(ev_PriorState) !=? StateNone) ||
              (e.(ev_NextState) !=? StateProposed) || (e.(ev_IntentID) !=? intent.(intent_ID)) ||
              (e.(ev_AccountID) !=? intent.(intent_AccountID)) || (e.(ev_Environment) !=? intent.(intent_Environment)) ||
              (e.(ev_OriginType) !=? intent.(intent_OriginType)) || (e.(ev_OriginID) !=? intent.(intent_OriginID)) ||
              (e.(ev_StrategyVersionID) !=? intent.(intent_StrategyVersionID)) ||
              match e.(ev_QuantityDelta) with
              | None => true
              | Some q => negb (Equal q intent.(intent_DesiredQuantityDelta))
              end ||
              negb (points_to e.(ev_QuoteSnapshotID) intent.(intent_DecisionQuoteSnapshotID)) ||
              negb (is_nil e.(ev_OrderID)) || negb (is_nil e.(ev_BindingID)) || negb (is_nil e.(ev_FillID)) ||
              (e.(ev_PolicyKind) !=? PolicyOther "") || (e.(ev_PolicyVersion) !=? ""))
        "replay execution lifecycle: invalid proposed event" ;;
      wrap "replay execution lifecycle: %w" (Event_Validate e) ;;
      replay_events rest [e.(ev_ID)] e.(ev_IngestSequence) (MkAggregate intent StateProposed None None None [] [e])
  end.

Definition RecoveryEligible (aggregate : option Aggregate) : bool :=
  match aggregate with
  | None => false
  | Some a => negb (is_nil a.(agg_Order)) && open_states a.(agg_State)
  end.

(** ** RequestCancel, ObserveOrderTerminal, FailReconciliation *)

Definition newOrderContextEvent (now : Time) (a : Aggregate) (order : Order) (kind : EventKind) (next : State)
    (input : EventInput) (createdAt : Time) (bindingID : option UUID) : outcome Event :=
  event ← newEvent now a.(agg_Intent) kind a.(agg_State) next input createdAt ;
  Ok (set_context event
        (EventContext (Some order.(order_ID)) bindingID None order.(order_PolicyKind) order.(order_PolicyVersion)
           a.(agg_AllocatedQuantity) None None)).

Definition RequestCancel (now : Time) (aggregate : option Aggregate) (input : EventInput) (createdAt : Time) :
    outcome Transition :=
  let shape := "request execution cancel: lifecycle must be bound and working or partially filled" in
  a ← required aggregate shape ;
  reject (negb (bound_states a.(agg_State))) shape ;;
  order ← required a.(agg_Order) shape ;
  binding ← required a.(agg_Binding) shape ;
  event ← wrap "request execution cancel: %w"
            (newOrderContextEvent now a order EventCancelRequested a.(agg_State) input createdAt
               (Some binding.(bind_ID))) ;
  wrap "request execution cancel: %w" (Event_Validate event) ;;
  Ok (event_only event).

Definition ObserveOrderTerminal (now : Time) (aggregate : option Aggregate) (kind : EventKind) (input : EventInput)
    (createdAt : Time) : outcome Transition :=
  a ← required aggregate "observe terminal execution order: routed lifecycle is required" ;
  order ← required a.(agg_Order) "observe terminal execution order: routed lifecycle is required" ;
  next ← match kind with
         | EventOrderCancelled => Ok StateCancelled
         | EventOrderExpired => Ok StateExpired
         | EventOrderRejected => Ok StateRejected
         | _ => Err (Errorf "observe terminal execution order: invalid terminal event kind %q")
         end ;
  reject (negb (validEventTransition kind ObservationOrdinary a.(agg_State) next))
    "observe terminal execution order: illegal transition from %q" ;;
  reject (bound_states a.(agg_State) && is_nil a.(agg_Binding))
    "observe terminal execution order: working lifecycle has no binding" ;;
  event ← wrap "observe terminal execution order: %w"
            (newOrderContextEvent now a order kind next input createdAt (bind_ID <$> a.(agg_Binding))) ;
  wrap "observe terminal execution order: %w" (Event_Validate event) ;;
  Ok (event_only event).

Definition FailReconciliation (now : Time) (aggregate : option Aggregate) (kind : EventKind) (input : EventInput)
    (createdAt : Time) : outcome Transition :=
  let shape := "fail execution reconciliation: lifecycle cannot accept failure evidence" in
  a ← required aggregate shape ;
  reject ((a.(agg_State) ==? StateNone) || (a.(agg_State) ==? StateFailedReconciliation)) shape ;;
  match kind with
  | EventFillCorrectionObserved =>
      reject (input.(evin_ObservationClass) !=? ObservationCorrection)
        "fail execution reconciliation: correction event class is required"
  | EventFillBustObserved =>
      reject (input.(evin_ObservationClass) !=? ObservationBust)
        "fail execution reconciliation: bust event class is required"
  | EventUnknownVenueState | EventContradictoryVenueState =>
      reject ((input.(evin_ObservationClass) !=? ObservationOther "") &&
              (input.(evin_ObservationClass) !=? ObservationOrdinary))
        "fail execution reconciliation: venue-state failure must use ordinary identity"
  | _ => Err (Errorf "fail execution reconciliation: unsupported event kind %q")
  end ;;
  event ← wrap "fail execution reconciliation: %w"
            (newEvent now a.(agg_Intent) kind a.(agg_State) StateFailedReconciliation input createdAt) ;
  let event := set_context event
    (EventContext (order_ID <$> a.(agg_Order)) (bind_ID <$> a.(agg_Binding)) None
       (match a.(agg_Order) with Some o => o.(order_PolicyKind) | None => PolicyOther "" end)
       (match a.(agg_Order) with Some o => o.(order_PolicyVersion) | None => "" end)
       a.(agg_AllocatedQuantity) None None) in
  reject (((kind ==? EventFillCorrectionObserved) || (kind ==? EventFillBustObserved)) &&
          match event.(ev_OriginalFillID) with
          | None => true
          | Some id => negb (hasFill a id event.(ev_OriginalSourceEventID))
          end) "fail execution reconciliation: correction or bust must reference an existing fill" ;;
  wrap "fail execution reconciliation: %w" (Event_Validate event) ;;
  Ok (event_only event).
End aggregate.
