(* ===== verification/LifecycleProofs.v ===== *)
(** * The execution lifecycle as a state machine

    The edges of the machine as an inductive relation, the invariant of a
    replayed aggregate, and the proof that every accepted transition keeps it. *)

From S2P Require Import Prelude GoStd Externals EconomicId Account Instrument Transaction SourceEvent Normalization.
From S2P Require Import Snapshot Lifecycle LifecycleAggregate.

Local Open Scope go_scope.

(** ** The edges *)

Inductive edge : EventKind -> ObservationClass -> State -> State -> Prop :=
  | edge_proposed : edge EventIntentProposed ObservationOrdinary StateNone StateProposed
  | edge_allocated : edge EventIntentAllocated ObservationOrdinary StateProposed StateAllocated
  | edge_approved : edge EventRiskApproved ObservationOrdinary StateAllocated StateRiskApproved
  | edge_risk_rejected : edge EventRiskRejected ObservationOrdinary StateAllocated StateRiskRejected
  | edge_routed : edge EventOrderRouted ObservationOrdinary StateRiskApproved StateRouted
  | edge_working : edge EventOrderWorking ObservationOrdinary StateRouted StateWorking
  | edge_cancel s : bound_states s = true -> edge EventCancelRequested ObservationOrdinary s s
  | edge_first_fill n : n = StatePartiallyFilled \/ n = StateFilled ->
      edge EventFillAcknowledged ObservationOrdinary StateRouted n
  | edge_fill s n : bound_states s = true -> n = StatePartiallyFilled \/ n = StateFilled ->
      edge EventFillRecorded ObservationOrdinary s n
  | edge_cancelled s : open_states s = true -> edge EventOrderCancelled ObservationOrdinary s StateCancelled
  | edge_expired s : open_states s = true -> edge EventOrderExpired ObservationOrdinary s StateExpired
  | edge_rejected s : open_states s = true -> edge EventOrderRejected ObservationOrdinary s StateRejected
  | edge_venue_failure k s : k = EventUnknownVenueState \/ k = EventContradictoryVenueState ->
      s <> StateNone -> s <> StateFailedReconciliation -> edge k ObservationOrdinary s StateFailedReconciliation
  | edge_revision k c s : k = EventFillCorrectionObserved \/ k = EventFillBustObserved ->
      c = ObservationCorrection \/ c = ObservationBust ->
      s <> StateNone -> s <> StateFailedReconciliation -> edge k c s StateFailedReconciliation.

Ltac or_cases :=
  repeat match goal with Hor : (_ || _) = true |- _ => apply orb_true_iff in Hor; destruct Hor end; split_bools.

Lemma valid_edge k c p n : validEventTransition k c p n = true -> edge k c p n.
Proof.
  unfold validEventTransition. destruct ((_ ==? ObservationCorrection) || _) eqn:Hrev.
  - intros Hv. split_bools. or_cases; subst; apply edge_revision; auto.
  - destruct (c !=? ObservationOrdinary) eqn:Hc; [done|]. split_bools. subst c.
    destruct k; intros Hv; try done; split_bools; or_cases; subst; constructor; auto.
Qed.

(** Inversion of an edge, by the kind of its event. *)
Definition edge_ends (k : EventKind) (p n : State) : Prop :=
  match k with
  | EventIntentProposed => p = StateNone /\ n = StateProposed
  | EventIntentAllocated => p = StateProposed /\ n = StateAllocated
  | EventRiskApproved => p = StateAllocated /\ n = StateRiskApproved
  | EventRiskRejected => p = StateAllocated /\ n = StateRiskRejected
  | EventOrderRouted => p = StateRiskApproved /\ n = StateRouted
  | EventOrderWorking => p = StateRouted /\ n = StateWorking
  | EventCancelRequested => bound_states p = true /\ n = p
  | EventFillAcknowledged => p = StateRouted /\ (n = StatePartiallyFilled \/ n = StateFilled)
  | EventFillRecorded => bound_states p = true /\ (n = StatePartiallyFilled \/ n = StateFilled)
  | EventOrderCancelled => open_states p = true /\ n = StateCancelled
  | EventOrderExpired => open_states p = true /\ n = StateExpired
  | EventOrderRejected => open_states p = true /\ n = StateRejected
  | EventUnknownVenueState | EventContradictoryVenueState | EventFillCorrectionObserved | EventFillBustObserved =>
      p <> StateNone /\ p <> StateFailedReconciliation /\ n = StateFailedReconciliation
  | EventKindOther _ => False
  end.

Lemma edge_inv k c p n : edge k c p n -> edge_ends k p n.
Proof. destruct 1; simpl; auto; naive_solver. Qed.

Lemma required_Ok {A} (o : option A) msg a : required o msg = Ok a <-> o = Some a.
Proof. destruct o; simpl; split; congruence. Qed.

Lemma is_nil_None {A} (o : option A) : negb (is_nil o) = false <-> o = None.
Proof. by destruct o. Qed.

Lemma points_to_true o id : points_to o id = true <-> o = Some id.
Proof. destruct o; simpl; [rewrite bool_decide_eq_true|]; naive_solver. Qed.

Ltac facts :=
  split_bools;
  repeat match goal with
  | Hr : required _ _ = Ok _ |- _ => apply required_Ok in Hr
  | Hr : negb (is_nil _) = false |- _ => apply is_nil_None in Hr
  | Hr : points_to _ _ = true |- _ => apply points_to_true in Hr
  end; split_bools; simplify_eq.

Section lifecycle_proofs.
Context {E : Externals} {L : ExternalLaws}.
Local Open Scope Q_scope.

(** ** The invariant *)

Definition filled (a : Aggregate) : Q := sumQ (fun f => val f.(fill_Quantity)) a.(agg_Fills).

(** Which facts exist in which state. *)
Definition stage (a : Aggregate) : Prop :=
  match a.(agg_State) with
  | StateProposed =>
      a.(agg_AllocatedQuantity) = None /\ a.(agg_Order) = None /\ a.(agg_Binding) = None /\ a.(agg_Fills) = []
  | StateAllocated | StateRiskApproved | StateRiskRejected =>
      is_Some a.(agg_AllocatedQuantity) /\ a.(agg_Order) = None /\ a.(agg_Binding) = None /\ a.(agg_Fills) = []
  | StateRouted => is_Some a.(agg_Order) /\ a.(agg_Binding) = None /\ a.(agg_Fills) = []
  | StateWorking => is_Some a.(agg_Order) /\ is_Some a.(agg_Binding) /\ a.(agg_Fills) = []
  | StatePartiallyFilled =>
      exists o, a.(agg_Order) = Some o /\ is_Some a.(agg_Binding) /\ a.(agg_Fills) <> [] /\
                filled a < val o.(order_Quantity)
  | StateFilled => exists o, a.(agg_Order) = Some o /\ is_Some a.(agg_Binding) /\ filled a == val o.(order_Quantity)
  | StateCancelled | StateExpired | StateRejected =>
      exists o, a.(agg_Order) = Some o /\ filled a < val o.(order_Quantity)
  | StateFailedReconciliation => True
  | StateNone | StateOther _ => False
  end.

(** The states visited: each event starts where the previous one ended. *)
Fixpoint chain (s : State) (es : list Event) (s' : State) : Prop :=
  match es with
  | [] => s = s'
  | e :: es => e.(ev_PriorState) = s /\ chain e.(ev_NextState) es s'
  end.

(** An order of the intent: the allocated amount in the allocated direction. *)
Record order_ok (i : Intent) (allocated : option dec) (o : Order) : Prop := {
  oo_valid : Order_Validate o = Ok tt;
  oo_intent : o.(order_IntentID) = i.(intent_ID) /\ o.(order_AccountID) = i.(intent_AccountID) /\
              o.(order_InstrumentID) = i.(intent_InstrumentID);
  oo_quantity : exists q, allocated = Some q /\ val o.(order_Quantity) == Qabs (val q) /\
                          o.(order_Side) = sideForDelta q;
}.

(** A fill of the order. *)
Record fill_ok (i : Intent) (o : Order) (f : Fill) : Prop := {
  fo_valid : Fill_Validate f = Ok tt;
  fo_links : f.(fill_IntentID) = i.(intent_ID) /\ f.(fill_OrderID) = o.(order_ID) /\
             f.(fill_AccountID) = i.(intent_AccountID) /\ f.(fill_InstrumentID) = i.(intent_InstrumentID) /\
             f.(fill_VenueContractID) = o.(order_VenueContractID);
}.

Record lifecycle_inv (a : Aggregate) : Prop := {
  li_intent : Intent_Validate a.(agg_Intent) = Ok tt;
  li_stage : stage a;
  li_allocation q : a.(agg_AllocatedQuantity) = Some q ->
    ~ val q == 0 /\ Sign q = Sign a.(agg_Intent).(intent_DesiredQuantityDelta) /\
    Qabs (val q) <= Qabs (val a.(agg_Intent).(intent_DesiredQuantityDelta));
  li_order o : a.(agg_Order) = Some o -> order_ok a.(agg_Intent) a.(agg_AllocatedQuantity) o;
  li_binding b : a.(agg_Binding) = Some b ->
    OrderBinding_Validate b = Ok tt /\ exists o, a.(agg_Order) = Some o /\ b.(bind_OrderID) = o.(order_ID);
  li_fills f : f ∈ a.(agg_Fills) ->
    is_Some a.(agg_Binding) /\ exists o, a.(agg_Order) = Some o /\ fill_ok a.(agg_Intent) o f;
  li_filled o : a.(agg_Order) = Some o -> filled a <= val o.(order_Quantity);
  li_history : chain StateNone a.(agg_Events) a.(agg_State);
  li_events : Forall (fun e => Event_Validate e = Ok tt /\ e.(ev_IntentID) = a.(agg_Intent).(intent_ID)) a.(agg_Events);
}.

(** ** Arithmetic of fills *)

Lemma sumFillQuantity_from fills start :
  val (foldl (fun total f => Add total f.(fill_Quantity)) start fills) ==
  val start + sumQ (fun f => val f.(fill_Quantity)) fills.
Proof.
  revert start. induction fills as [|f fills IH]; intros start; simpl; [lra|].
  rewrite IH, val_Add. lra.
Qed.

Lemma sumFillQuantity_val fills : val (sumFillQuantity fills) == sumQ (fun f => val f.(fill_Quantity)) fills.
Proof. unfold sumFillQuantity. rewrite sumFillQuantity_from, val_Zero. lra. Qed.

Lemma exact_nonzero d : validExactDecimal d false = true -> ~ val d == 0.
Proof.
  unfold validExactDecimal. destruct (negb false && IsZero d || _) eqn:Hz; [done|]. intros _.
  cbn [negb andb] in Hz. split_bools. by dec_bools.
Qed.

Lemma fill_positive f : Fill_Validate f = Ok tt -> 0 < val f.(fill_Quantity).
Proof. unfold Fill_Validate. intros Hv. inv_ok Hv. split_bools. by dec_bools. Qed.

Lemma order_positive o : Order_Validate o = Ok tt -> 0 < val o.(order_Quantity).
Proof. unfold Order_Validate. intros Hv. inv_ok Hv. split_bools. by dec_bools. Qed.

(** ** Histories *)

Lemma chain_app s es s' e : chain s es s' -> e.(ev_PriorState) = s' -> chain s (es ++ [e]) e.(ev_NextState).
Proof. revert s. induction es as [|x es IH]; intros s; simpl; [by intros ->|]. intros [? ?] ?. auto. Qed.

(** ** Preservation *)

(** What [ApplyTransition] establishes before the case analysis. *)
Record admitted (a : Aggregate) (e : Event) : Prop := {
  ad_valid : Event_Validate e = Ok tt;
  ad_intent : e.(ev_IntentID) = a.(agg_Intent).(intent_ID);
  ad_prior : e.(ev_PriorState) = a.(agg_State);
  ad_edge : edge e.(ev_Kind) e.(ev_ObservationClass) a.(agg_State) e.(ev_NextState);
}.

(** A transition that changes nothing but the state. *)
Lemma inv_unchanged a e : lifecycle_inv a -> admitted a e -> stage (unchanged a e) -> lifecycle_inv (unchanged a e).
Proof.
  intros [] [] Hstage. split; cbn [unchanged advance agg_Intent agg_State agg_AllocatedQuantity agg_Order agg_Binding
    agg_Fills agg_Events]; try done.
  - by apply (chain_app _ _ _ _ li_history0).
  - by apply Forall_app; split; [|apply Forall_singleton].
Qed.

Lemma open_cases s : open_states s = true ->
  s = StateRouted \/ s = StateWorking \/ s = StatePartiallyFilled.
Proof. unfold open_states. intros Ho. or_cases; auto. Qed.

Lemma bound_cases s : bound_states s = true -> s = StateWorking \/ s = StatePartiallyFilled.
Proof. unfold bound_states. intros Ho. or_cases; auto. Qed.

(** An open order is not yet completely filled. *)
Lemma open_unfilled a : lifecycle_inv a -> open_states a.(agg_State) = true ->
  exists o, a.(agg_Order) = Some o /\ filled a < val o.(order_Quantity).
Proof.
  intros Hinv Hopen. pose proof (li_stage a Hinv) as Hstage. unfold stage in Hstage.
  assert (Hempty : a.(agg_Fills) = [] -> forall o, a.(agg_Order) = Some o -> filled a < val o.(order_Quantity)).
  { intros Hf o Ho. unfold filled. rewrite Hf. simpl. apply order_positive, (oo_valid _ _ _ (li_order a Hinv o Ho)). }
  destruct (open_cases _ Hopen) as [Hs|[Hs|Hs]]; rewrite Hs in Hstage.
  - destruct Hstage as ([o Ho] & _ & Hf). eauto.
  - destruct Hstage as ([o Ho] & _ & Hf). eauto.
  - destruct Hstage as (o & Ho & _ & _ & Hf). eauto.
Qed.

Lemma admitted_ends a e k : admitted a e -> e.(ev_Kind) = k -> edge_ends k a.(agg_State) e.(ev_NextState).
Proof. intros Had <-. eapply edge_inv, (ad_edge _ _ Had). Qed.

Lemma inv_risk a t a' : lifecycle_inv a -> admitted a t.(tr_Event) ->
  t.(tr_Event).(ev_Kind) = EventRiskApproved \/ t.(tr_Event).(ev_Kind) = EventRiskRejected ->
  apply_risk a t = Ok a' -> lifecycle_inv a'.
Proof.
  intros Hinv Had Hk Happ. unfold apply_risk in Happ. inv_ok Happ. subst a'. apply inv_unchanged; [done|done|].
  pose proof (li_stage a Hinv) as Hs. unfold stage in *. cbn [unchanged advance agg_State agg_AllocatedQuantity agg_Order agg_Binding agg_Fills].
  destruct Hk as [Hk|Hk]; apply (admitted_ends _ _ _ Had) in Hk as [Hp Hn]; by rewrite Hn; rewrite Hp in Hs.
Qed.

Lemma inv_cancel_requested a t a' : lifecycle_inv a -> admitted a t.(tr_Event) ->
  t.(tr_Event).(ev_Kind) = EventCancelRequested -> apply_cancel_requested a t = Ok a' -> lifecycle_inv a'.
Proof.
  intros Hinv Had Hk Happ. unfold apply_cancel_requested in Happ. inv_ok Happ. subst a'.
  apply inv_unchanged; [done|done|]. apply (admitted_ends _ _ _ Had) in Hk as [_ Hn].
  pose proof (li_stage a Hinv) as Hs. unfold stage in *. cbn. by rewrite Hn.
Qed.

Lemma inv_terminal a t a' : lifecycle_inv a -> admitted a t.(tr_Event) ->
  t.(tr_Event).(ev_Kind) ∈ [EventOrderCancelled; EventOrderExpired; EventOrderRejected] ->
  apply_terminal a t = Ok a' -> lifecycle_inv a'.
Proof.
  intros Hinv Had Hk Happ. unfold apply_terminal in Happ. inv_ok Happ. subst a'.
  apply inv_unchanged; [done|done|].
  assert (Hopen : open_states a.(agg_State) = true /\
    t.(tr_Event).(ev_NextState) ∈ [StateCancelled; StateExpired; StateRejected]).
  { rewrite !elem_of_cons in *.
    destruct Hk as [Hk|[Hk|[Hk|Hk]]]; [| | |by apply elem_of_nil in Hk];
      apply (admitted_ends _ _ _ Had) in Hk as [Hp Hn]; rewrite Hn; auto. }
  destruct Hopen as [Hopen Hn]. destruct (open_unfilled a Hinv Hopen) as (o & Ho & Hf).
  unfold stage. cbn [unchanged advance agg_State agg_Order]. rewrite !elem_of_cons in Hn.
  destruct Hn as [-> |[-> |[-> |Hn]]]; [eauto..|by apply elem_of_nil in Hn].
Qed.

Lemma inv_failure a e : lifecycle_inv a -> admitted a e -> e.(ev_NextState) = StateFailedReconciliation ->
  lifecycle_inv (unchanged a e).
Proof. intros Hinv Had Hn. apply inv_unchanged; [done|done|]. unfold stage. cbn. by rewrite Hn. Qed.

Lemma inv_allocated a t a' : lifecycle_inv a -> admitted a t.(tr_Event) ->
  t.(tr_Event).(ev_Kind) = EventIntentAllocated -> apply_allocated a t = Ok a' -> lifecycle_inv a'.
Proof.
  intros Hinv Had Hk Happ. apply (admitted_ends _ _ _ Had) in Hk as [Hp Hn].
  pose proof (li_stage a Hinv) as Hs. unfold stage in Hs. rewrite Hp in Hs. destruct Hs as (Hq & Ho & Hb & Hf).
  unfold apply_allocated in Happ. inv_ok Happ. destruct (ev_QuantityDelta _) as [q|] eqn:Hqd; [|done]. split_bools.
  subst a'. destruct Hinv, Had.
  split; cbn [advance agg_Intent agg_State agg_AllocatedQuantity agg_Order agg_Binding agg_Fills agg_Events]; try done.
  - unfold stage. cbn. rewrite Hn. eauto.
  - intros q' [= <-]. dec_bools. rewrite !val_Abs in *. split; [by apply exact_nonzero|]. split; [by apply Z.eqb_eq|done].
  - intros o. by rewrite Ho.
  - by apply (chain_app _ _ _ _ li_history0).
  - by apply Forall_app; split; [|apply Forall_singleton].
Qed.

Lemma inv_routed a t a' : lifecycle_inv a -> admitted a t.(tr_Event) ->
  t.(tr_Event).(ev_Kind) = EventOrderRouted -> apply_routed a t = Ok a' -> lifecycle_inv a'.
Proof.
  intros Hinv Had Hk Happ. apply (admitted_ends _ _ _ Had) in Hk as [Hp Hn].
  pose proof (li_stage a Hinv) as Hs. unfold stage in Hs. rewrite Hp in Hs. destruct Hs as (_ & Ho & Hb & Hf).
  unfold apply_routed in Happ. inv_ok Happ. facts. dec_bools. rewrite val_Abs in *. destruct Hinv, Had.
  match goal with Hv : Order_Validate ?x = Ok ?u |- _ => rename x into order; destruct u; rename Hv into Hvalid end.
  split; cbn [advance agg_Intent agg_State agg_AllocatedQuantity agg_Order agg_Binding agg_Fills agg_Events]; try done.
  - unfold stage. cbn. rewrite Hn. eauto.
  - intros o [= <-]. split; [done|by auto|]. eauto.
  - intros b. by rewrite Hb.
  - intros f. rewrite Hf. by intros ?%elem_of_nil.
  - intros o [= <-]. unfold filled. cbn. rewrite Hf. simpl. apply Qlt_le_weak. by apply order_positive.
  - by apply (chain_app _ _ _ _ li_history0).
  - by apply Forall_app; split; [|apply Forall_singleton].
Qed.

Lemma inv_working a t a' : lifecycle_inv a -> admitted a t.(tr_Event) ->
  t.(tr_Event).(ev_Kind) = EventOrderWorking -> apply_working a t = Ok a' -> lifecycle_inv a'.
Proof.
  intros Hinv Had Hk Happ. apply (admitted_ends _ _ _ Had) in Hk as [Hp Hn].
  pose proof (li_stage a Hinv) as Hs. unfold stage in Hs. rewrite Hp in Hs. destruct Hs as (_ & Hb & Hf).
  unfold apply_working in Happ. inv_ok Happ. facts. destruct Hinv, Had.
  match goal with Hv : OrderBinding_Validate _ = Ok ?u |- _ => destruct u end.
  split; cbn [advance agg_Intent agg_State agg_AllocatedQuantity agg_Order agg_Binding agg_Fills agg_Events]; try done.
  - unfold stage. cbn. rewrite Hn. eauto.
  - intros b [= <-]. eauto.
  - intros f. rewrite Hf. by intros ?%elem_of_nil.
  - by apply (chain_app _ _ _ _ li_history0).
  - by apply Forall_app; split; [|apply Forall_singleton].
Qed.

(** What an accepted fill has established. *)
Record fill_applied (a : Aggregate) (t : Transition) (a' : Aggregate) (o : Order) (b : OrderBinding) (f : Fill) : Prop := {
  fa_order : a.(agg_Order) = Some o;
  fa_fill : t.(tr_Fill) = Some f;
  fa_ok : fill_ok a.(agg_Intent) o f;
  fa_bound : val (sumFillQuantity a.(agg_Fills)) + val f.(fill_Quantity) <= val o.(order_Quantity);
  fa_filled : t.(tr_Event).(ev_NextState) = StateFilled <->
              val (sumFillQuantity a.(agg_Fills)) + val f.(fill_Quantity) == val o.(order_Quantity);
  fa_binding : a.(agg_Binding) = Some b \/
               a.(agg_Binding) = None /\ OrderBinding_Validate b = Ok tt /\ b.(bind_OrderID) = o.(order_ID);
  fa_next : a' = advance a t.(tr_Event) a.(agg_AllocatedQuantity) a.(agg_Order) (Some b) (a.(agg_Fills) ++ [f]);
}.

Lemma apply_fill_facts a t a' : apply_fill a t = Ok a' -> exists o b f, fill_applied a t a' o b f.
Proof.
  unfold apply_fill. intros Happ. inv_ok Happ. facts. dec_bools.
  match goal with Hx : xorb _ _ = false |- _ => apply xorb_eq in Hx; rename Hx into Hstate end.
  match goal with Hv : Fill_Validate _ = Ok ?u |- _ => destruct u end.
  match goal with Hb : (if _ then _ else _) = Ok ?b |- _ => rename b into binding, Hb into Hbind end.
  exists x, binding, x0. split; try done; rewrite ?val_Add in *.
  - done.
  - by rewrite <- val_Add, <- Equal_true, <- Hstate, bool_decide_eq_true.
  - destruct (_ ==? EventFillAcknowledged); inv_ok Hbind; facts; [right|by left].
    match goal with Hv : OrderBinding_Validate _ = Ok ?u |- _ => destruct u end. done.
Qed.

Lemma inv_fill a t a' : lifecycle_inv a -> admitted a t.(tr_Event) ->
  t.(tr_Event).(ev_Kind) = EventFillAcknowledged \/ t.(tr_Event).(ev_Kind) = EventFillRecorded ->
  apply_fill a t = Ok a' -> lifecycle_inv a'.
Proof.
  intros Hinv Had Hk (o & b & f & [])%apply_fill_facts. rewrite sumFillQuantity_val in *. fold (filled a) in *.
  assert (Hn : t.(tr_Event).(ev_NextState) = StatePartiallyFilled \/ t.(tr_Event).(ev_NextState) = StateFilled).
  { destruct Hk as [Hk|Hk]; apply (admitted_ends _ _ _ Had) in Hk as [_ Hn]; done. }
  assert (Hsum : filled a' == filled a + val f.(fill_Quantity)).
  { subst a'. unfold filled. cbn. rewrite sumQ_app. simpl. lra. }
  destruct Hinv, Had. subst a'.
  split; cbn [advance agg_Intent agg_State agg_AllocatedQuantity agg_Order agg_Binding agg_Fills agg_Events]; try done.
  - unfold stage. cbn [advance agg_State agg_Order agg_Binding agg_Fills]. destruct Hn as [Hn|Hn]; rewrite Hn; exists o.
    + split; [done|]. split; [done|]. split; [by destruct (agg_Fills a)|]. rewrite Hsum.
      apply Qle_lteq in fa_bound0 as [?|Heq]; [done|]. apply fa_filled0 in Heq. congruence.
    + split; [done|]. split; [done|]. rewrite Hsum. by apply fa_filled0.
  - intros b' [= <-]. destruct fa_binding0 as [Hb|(_ & Hv & Hid)]; [by apply li_binding0|eauto].
  - intros f' Hf'. split; [done|]. apply elem_of_app in Hf' as [Hf'|Hf'].
    + by apply li_fills0.
    + apply list_elem_of_singleton in Hf' as ->. eauto.
  - intros o' Ho'. rewrite Hsum. by simplify_eq.
  - by apply (chain_app _ _ _ _ li_history0).
  - by apply Forall_app; split; [|apply Forall_singleton].
Qed.

Lemma applied_admitted a t a' : ApplyTransition (Some a) (Some t) = Ok a' -> admitted a t.(tr_Event).
Proof.
  unfold ApplyTransition. intros Happ. inv_ok Happ. facts.
  match goal with Hv : Event_Validate _ = Ok ?u |- _ => destruct u end. split; try done.
  match goal with Hp : ev_PriorState _ = _ |- _ => rewrite <- Hp end. by apply valid_edge.
Qed.

(** The case [ApplyTransition] dispatches to. *)
Definition apply_case (a : Aggregate) (t : Transition) : outcome Aggregate :=
  match t.(tr_Event).(ev_Kind) with
  | EventIntentAllocated => apply_allocated a t
  | EventRiskApproved | EventRiskRejected => apply_risk a t
  | EventOrderRouted => apply_routed a t
  | EventOrderWorking => apply_working a t
  | EventCancelRequested => apply_cancel_requested a t
  | EventOrderCancelled | EventOrderExpired | EventOrderRejected => apply_terminal a t
  | EventFillAcknowledged | EventFillRecorded => apply_fill a t
  | EventFillCorrectionObserved | EventFillBustObserved => apply_revision a t
  | EventUnknownVenueState | EventContradictoryVenueState => apply_venue_failure a t
  | EventIntentProposed | EventKindOther _ => Ok (unchanged a t.(tr_Event))
  end.

Lemma applied_case a t a' : ApplyTransition (Some a) (Some t) = Ok a' -> apply_case a t = Ok a'.
Proof. unfold ApplyTransition. intros Happ. inv_ok Happ. by facts. Qed.

Lemma inv_step a t a' : lifecycle_inv a -> ApplyTransition (Some a) (Some t) = Ok a' -> lifecycle_inv a'.
Proof.
  intros Hinv Happ. pose proof (applied_admitted _ _ _ Happ) as Had. apply applied_case in Happ. unfold apply_case in Happ.
  pose proof (admitted_ends _ _ _ Had eq_refl) as Hends.
  destruct (ev_Kind _) eqn:Hk.
  - destruct Hends as [Hp _]. pose proof (li_stage a Hinv) as Hs. unfold stage in Hs. by rewrite Hp in Hs.
  - by eapply inv_allocated.
  - eapply inv_risk; eauto.
  - eapply inv_risk; eauto.
  - by eapply inv_routed.
  - by eapply inv_working.
  - by eapply inv_cancel_requested.
  - eapply inv_fill; eauto.
  - eapply inv_fill; eauto.
  - eapply inv_terminal; eauto. rewrite Hk, !elem_of_cons. auto.
  - eapply inv_terminal; eauto. rewrite Hk, !elem_of_cons. auto.
  - eapply inv_terminal; eauto. rewrite Hk, !elem_of_cons. auto.
  - unfold apply_venue_failure in Happ. inv_ok Happ. subst a'. apply inv_failure; [done|done|by apply Hends].
  - unfold apply_venue_failure in Happ. inv_ok Happ. subst a'. apply inv_failure; [done|done|by apply Hends].
  - unfold apply_revision in Happ. inv_ok Happ. subst a'. apply inv_failure; [done|done|by apply Hends].
  - unfold apply_revision in Happ. inv_ok Happ. subst a'. apply inv_failure; [done|done|by apply Hends].
  - done.
Qed.

(** ** Monotonicity: facts are added, never changed *)

Record extends (a a' : Aggregate) : Prop := {
  ex_intent : a'.(agg_Intent) = a.(agg_Intent);
  ex_allocation q : a.(agg_AllocatedQuantity) = Some q -> a'.(agg_AllocatedQuantity) = Some q;
  ex_order o : a.(agg_Order) = Some o -> a'.(agg_Order) = Some o;
  ex_binding b : a.(agg_Binding) = Some b -> a'.(agg_Binding) = Some b;
  ex_fills : a.(agg_Fills) `prefix_of` a'.(agg_Fills);
  ex_events : a.(agg_Events) `prefix_of` a'.(agg_Events);
}.

#[global] Instance extends_preorder : PreOrder extends.
Proof.
  split; [by split|]. intros a b c [] []. split; auto; [congruence|by etrans|by etrans].
Qed.

Lemma step_extends a t a' : lifecycle_inv a -> ApplyTransition (Some a) (Some t) = Ok a' ->
  extends a a' /\ a'.(agg_Events) = a.(agg_Events) ++ [t.(tr_Event)] /\ a'.(agg_State) = t.(tr_Event).(ev_NextState).
Proof.
  intros Hinv Happ. pose proof (applied_admitted _ _ _ Happ) as Had. apply applied_case in Happ. unfold apply_case in Happ.
  pose proof (admitted_ends _ _ _ Had eq_refl) as Hends. pose proof (li_stage a Hinv) as Hstage. unfold stage in Hstage.
  assert (Hun : forall e, extends a (unchanged a e)) by (split; cbn; auto; by eexists).
  destruct (ev_Kind _) eqn:Hk; cbn [edge_ends] in Hends;
    try (by (unfold apply_risk, apply_cancel_requested, apply_terminal, apply_revision, apply_venue_failure in Happ;
             inv_ok Happ; subst a'; split; [apply Hun|done])).
  - destruct Hends as [Hp _]. rewrite Hp in Hstage. unfold apply_allocated in Happ. inv_ok Happ. subst a'.
    destruct Hstage as (Hq & _). split; [|done]. split; cbn; auto; [by rewrite Hq|by eexists].
  - destruct Hends as [Hp _]. rewrite Hp in Hstage. unfold apply_routed in Happ. inv_ok Happ. facts.
    split; [|done]. split; cbn; auto; [congruence|by eexists].
  - unfold apply_working in Happ. inv_ok Happ. facts. split; [|done]. split; cbn; auto; [congruence|by eexists].
  - apply apply_fill_facts in Happ as (o & b & f & []). subst a'. split; [|done].
    split; cbn; auto; [|by eexists|by eexists]. intros b' Hb'. destruct fa_binding0 as [Hb|(Hb & _)]; congruence.
  - apply apply_fill_facts in Happ as (o & b & f & []). subst a'. split; [|done].
    split; cbn; auto; [|by eexists|by eexists]. intros b' Hb'. destruct fa_binding0 as [Hb|(Hb & _)]; congruence.
Qed.
End lifecycle_proofs.
