(* ===== verification/LifecycleTheorems.v ===== *)
(** * Correctness of the execution lifecycle

    Reachable aggregates, the commands that drive them, and replay. *)

From S2P Require Import Prelude GoStd Externals EconomicId Account Instrument Transaction SourceEvent Normalization.
From S2P Require Import Snapshot Lifecycle LifecycleAggregate LifecycleProofs.

Local Open Scope go_scope.

(** Project the fields of a transition and its event, and nothing else. *)
Ltac ev_cbn :=
  cbn [event_only no_children tr_Event tr_Order tr_Binding tr_Fill tr_Normalization set_context
       ctx_OrderID ctx_BindingID ctx_FillID ctx_PolicyKind ctx_PolicyVersion ctx_QuantityDelta
       ctx_CumulativeFillQuantity ctx_QuoteSnapshotID ev_ID ev_IngestSequence ev_IntentID ev_OrderID ev_BindingID
       ev_FillID ev_Kind ev_ObservationClass ev_PriorState ev_NextState ev_AccountID ev_Environment ev_OriginType
       ev_OriginID ev_StrategyVersionID ev_PolicyKind ev_PolicyVersion ev_QuantityDelta ev_CumulativeFillQuantity
       ev_QuoteSnapshotID ev_OriginalFillID ev_OriginalSourceEventID ev_Source ev_SourceNamespace ev_SourceEventID
       ev_SourceRevision ev_ReceivedAt
       required mbind outcome_bind reject wrap deref is_nil points_to some_and negb orb andb fmap option_fmap option_map].

Section lifecycle_theorems.
Context {E : Externals} {L : ExternalLaws}.
Local Open Scope Q_scope.

#[local] Opaque DeterministicUUID Sum256.

(** ** Steps, runs and reachable aggregates *)

Inductive step (a : Aggregate) : Transition -> Aggregate -> Prop :=
  | step_apply t a' : ApplyTransition (Some a) (Some t) = Ok a' -> step a t a'.

Inductive run (a : Aggregate) : list Transition -> Aggregate -> Prop :=
  | run_nil : run a [] a
  | run_cons t a' ts a'' : step a t a' -> run a' ts a'' -> run a (t :: ts) a''.

Inductive reachable : Aggregate -> Prop :=
  | reach_propose now input a : Propose now input = Ok a -> reachable a
  | reach_step a t a' : reachable a -> step a t a' -> reachable a'.

(** An aggregate that holds nothing but its proposal. *)
Lemma proposed_inv intent e :
  Intent_Validate intent = Ok tt -> Event_Validate e = Ok tt -> e.(ev_IntentID) = intent.(intent_ID) ->
  e.(ev_PriorState) = StateNone -> e.(ev_NextState) = StateProposed ->
  lifecycle_inv (MkAggregate intent StateProposed None None None [] [e]).
Proof.
  intros Hi He Hid Hp Hn. split; cbn; try done.
  - intros f Hf. by apply elem_of_nil in Hf.
  - by apply Forall_singleton.
Qed.

Lemma newEvent_facts now intent kind prior next input created e :
  newEvent now intent kind prior next input created = Ok e ->
  e.(ev_Kind) = kind /\ e.(ev_PriorState) = prior /\ e.(ev_NextState) = next /\
  e.(ev_IntentID) = intent.(intent_ID) /\ e.(ev_AccountID) = intent.(intent_AccountID) /\
  e.(ev_Environment) = intent.(intent_Environment) /\ e.(ev_OriginType) = intent.(intent_OriginType) /\
  e.(ev_OriginID) = intent.(intent_OriginID) /\ e.(ev_StrategyVersionID) = intent.(intent_StrategyVersionID).
Proof. unfold newEvent. intros Hn. inv_ok Hn. by subst e. Qed.

Definition intent_context (i : Intent) (e : Event) : Prop :=
  e.(ev_IntentID) = i.(intent_ID) /\ e.(ev_AccountID) = i.(intent_AccountID) /\
  e.(ev_Environment) = i.(intent_Environment) /\ e.(ev_OriginType) = i.(intent_OriginType) /\
  e.(ev_OriginID) = i.(intent_OriginID) /\ e.(ev_StrategyVersionID) = i.(intent_StrategyVersionID).

(** The proposal of an intent and its event. *)
Record proposed_by (a : Aggregate) (e : Event) : Prop := {
  pb_aggregate : a = MkAggregate a.(agg_Intent) StateProposed None None None [] [e];
  pb_intent : Intent_Validate a.(agg_Intent) = Ok tt;
  pb_event : Event_Validate e = Ok tt;
  pb_kind : e.(ev_Kind) = EventIntentProposed /\ e.(ev_PriorState) = StateNone /\ e.(ev_NextState) = StateProposed;
  pb_context : intent_context a.(agg_Intent) e;
  pb_quantity : e.(ev_QuantityDelta) = Some a.(agg_Intent).(intent_DesiredQuantityDelta);
  pb_quote : e.(ev_QuoteSnapshotID) = Some a.(agg_Intent).(intent_DecisionQuoteSnapshotID);
  pb_bare : e.(ev_OrderID) = None /\ e.(ev_BindingID) = None /\ e.(ev_FillID) = None /\
            e.(ev_PolicyKind) = PolicyOther "" /\ e.(ev_PolicyVersion) = "" /\ e.(ev_IngestSequence) = 0%Z;
}.

Lemma newEvent_sequence now intent kind prior next input created e :
  newEvent now intent kind prior next input created = Ok e -> e.(ev_IngestSequence) = 0%Z.
Proof. unfold newEvent. intros Hn. inv_ok Hn. by subst e. Qed.

Lemma propose_facts now input a : Propose now input = Ok a -> exists e, proposed_by a e.
Proof.
  unfold Propose. intros Hp. inv_ok Hp.
  match goal with Hn : newEvent _ _ _ _ _ _ _ = Ok _ |- _ =>
    pose proof (newEvent_sequence _ _ _ _ _ _ _ _ Hn) as Hseq; apply newEvent_facts in Hn as (Hk & Hpr & Hnx & Hctx) end.
  match goal with Hv : Intent_Validate _ = Ok ?u, He : Event_Validate _ = Ok ?w |- _ => destruct u, w; rename Hv into Hi, He into Hev end.
  eexists. subst a. split; try reflexivity; try assumption; cbn [set_context ev_Kind ev_PriorState ev_NextState]; repeat split; try assumption; apply Hctx.
Qed.

Lemma reachable_inv a : reachable a -> lifecycle_inv a.
Proof.
  induction 1 as [now input a Hp|a t a' _ IH [t' a'' Happ]].
  - apply propose_facts in Hp as (e & [Ha Hi He (_ & Hp & Hn) (Hid & _) _ _ _]). rewrite Ha. by apply proposed_inv.
  - by eapply inv_step.
Qed.

Lemma run_app a ts a' us a'' : run a ts a' -> run a' us a'' -> run a (ts ++ us) a''.
Proof. induction 1; cbn; [done|]. intros. econstructor; eauto. Qed.

Lemma run_reachable a ts a' : reachable a -> run a ts a' -> reachable a'.
Proof. intros Ha. induction 1; [done|]. eauto using reach_step. Qed.

Lemma run_inv a ts a' : lifecycle_inv a -> run a ts a' -> lifecycle_inv a'.
Proof. intros Hinv Hrun. induction Hrun as [|a t a' ts a'' [? ? Happ] _ IH]; [done|]. apply IH. by eapply inv_step. Qed.

Lemma run_extends a ts a' : lifecycle_inv a -> run a ts a' ->
  extends a a' /\ a'.(agg_Events) = a.(agg_Events) ++ (tr_Event <$> ts).
Proof.
  intros Hinv Hrun. induction Hrun as [|a t a' ts a'' [? ? Happ] _ IH].
  - split; [done|]. by rewrite app_nil_r.
  - destruct (step_extends _ _ _ Hinv Happ) as (Hext & Hev & _).
    destruct IH as [IH1 IH2]; [by eapply inv_step|]. split; [by etrans|]. rewrite IH2, Hev. by rewrite <- app_assoc.
Qed.

(** C24: every aggregate reached from a proposal by accepted transitions is
    well formed: the facts present are those of its state, the allocation keeps
    the direction of the intent and never exceeds it, the order is the
    allocation, bindings and fills belong to that order, and the events chain
    from the empty state to the current one. *)
Theorem reachable_well_formed a : reachable a -> lifecycle_inv a.
Proof. apply reachable_inv. Qed.

(** C2: an order is never over-filled: in every reachable aggregate the fills
    are positive amounts that add up to at most the order quantity, which is the
    allocated magnitude and at most the desired one; [filled] means exactly the
    order quantity, [partially_filled] strictly between. *)
Theorem fills_bounded a o : reachable a -> a.(agg_Order) = Some o ->
  0 <= filled a <= val o.(order_Quantity) /\
  val o.(order_Quantity) <= Qabs (val a.(agg_Intent).(intent_DesiredQuantityDelta)) /\
  (a.(agg_State) = StateFilled -> filled a == val o.(order_Quantity)) /\
  (a.(agg_State) = StatePartiallyFilled -> 0 < filled a < val o.(order_Quantity)).
Proof.
  intros Hinv%reachable_inv Ho. pose proof (li_stage a Hinv) as Hs. unfold stage in Hs.
  assert (Hpos : forall f, f ∈ a.(agg_Fills) -> 0 < val f.(fill_Quantity)).
  { intros f Hf. destruct (li_fills a Hinv f Hf) as (_ & o' & _ & Hok). apply fill_positive, (fo_valid _ _ _ Hok). }
  destruct (oo_quantity _ _ _ (li_order a Hinv o Ho)) as (q & Hq & Hval & _).
  destruct (li_allocation a Hinv q Hq) as (_ & _ & Hle).
  split; [split; [|by apply (li_filled a Hinv)]|split; [by rewrite Hval|split]].
  - apply sumQ_nonneg. intros f Hf. apply Qlt_le_weak. by apply Hpos.
  - intros He. rewrite He in Hs. destruct Hs as (o' & Ho' & _ & Hf). by simplify_eq.
  - intros He. rewrite He in Hs. destruct Hs as (o' & Ho' & _ & Hne & Hf). simplify_eq. split; [|done].
    unfold filled. destruct (agg_Fills a) as [|f fs]; [done|]. simpl.
    assert (0 < val f.(fill_Quantity)) by (apply Hpos; left).
    assert (0 <= sumQ (fun f => val f.(fill_Quantity)) fs).
    { apply sumQ_nonneg. intros f' Hf'. apply Qlt_le_weak, Hpos. by right. }
    lra.
Qed.

(** ** Terminal states *)

Definition terminal (s : State) : Prop :=
  s ∈ [StateRiskRejected; StateFilled; StateCancelled; StateExpired; StateRejected].

(** A settled lifecycle accepts nothing but evidence that it is wrong:
    from a terminal state every accepted transition leads to
    [failed_reconciliation] and changes no fact, and from there no transition
    is accepted at all. *)
Theorem terminal_states a t a' : ApplyTransition (Some a) (Some t) = Ok a' ->
  a.(agg_State) <> StateFailedReconciliation /\
  (terminal a.(agg_State) ->
   a' = unchanged a t.(tr_Event) /\ a'.(agg_State) = StateFailedReconciliation).
Proof.
  intros Happ. pose proof (applied_admitted _ _ _ Happ) as Had. apply applied_case in Happ. unfold apply_case in Happ.
  pose proof (admitted_ends _ _ _ Had eq_refl) as Hends. unfold terminal. rewrite !elem_of_cons, elem_of_nil.
  destruct (ev_Kind _); cbn [edge_ends] in Hends;
    try (destruct Hends as [Hp _]; first [apply open_cases in Hp|apply bound_cases in Hp|idtac];
         split; [naive_solver congruence|naive_solver congruence]); [| | | |done].
  all: unfold apply_venue_failure, apply_revision in Happ; inv_ok Happ; subst a';
    destruct Hends as (_ & Hp & Hn); split; [done|]; intros _; split; [done|]; by cbn.
Qed.

(** ** Commands *)

(** An event of no revision kind has the ordinary class. *)
Lemma event_class e : Event_Validate e = Ok tt ->
  e.(ev_Kind) <> EventFillCorrectionObserved -> e.(ev_Kind) <> EventFillBustObserved ->
  e.(ev_ObservationClass) = ObservationOrdinary.
Proof.
  unfold Event_Validate. intros Hv Hc Hb. inv_ok Hv.
  destruct (ev_ObservationClass e) eqn:Hclass; [done| | |done].
  all: match goal with Hm : _ ≫= _ = Ok _ |- _ => inv_ok Hm end; split_bools;
    repeat match goal with Hx : xorb _ _ = false |- _ => apply xorb_eq in Hx end.
  all: rewrite (bool_decide_eq_false_2 (_ = EventFillCorrectionObserved)) in * by done;
    rewrite (bool_decide_eq_false_2 (_ = EventFillBustObserved)) in * by done; done.
Qed.

(** The order context every command but [Route] gives its event. *)
Definition order_context (a : Aggregate) (e : Event) : Prop :=
  e.(ev_OrderID) = order_ID <$> a.(agg_Order) /\
  e.(ev_PolicyKind) = match a.(agg_Order) with Some o => o.(order_PolicyKind) | None => PolicyOther "" end /\
  e.(ev_PolicyVersion) = match a.(agg_Order) with Some o => o.(order_PolicyVersion) | None => "" end.

Lemma apply_reduces a t : let e := t.(tr_Event) in
  Event_Validate e = Ok tt -> intent_context a.(agg_Intent) e ->
  (e.(ev_Kind) = EventOrderRouted \/ order_context a e) -> e.(ev_PriorState) = a.(agg_State) ->
  validEventTransition e.(ev_Kind) e.(ev_ObservationClass) e.(ev_PriorState) e.(ev_NextState) = true ->
  ApplyTransition (Some a) (Some t) = apply_case a t.
Proof.
  intros e Hv (H1 & H2 & H3 & H4 & H5 & H6) Hctx Hp Hvalid. unfold ApplyTransition. fold e.
  cbn [required mbind outcome_bind]. fold e. rewrite Hv. cbn [wrap mbind outcome_bind].
  rewrite H1, H2, H3, H4, H5, H6, !eq_self. cbn [negb orb reject mbind outcome_bind].
  assert (Hpre : (match a.(agg_Order) with
    | None => reject ((e.(ev_Kind) !=? EventOrderRouted) &&
              (negb (is_nil e.(ev_OrderID)) || (e.(ev_PolicyKind) !=? PolicyOther "") || (e.(ev_PolicyVersion) !=? "")))
              "apply execution transition: pre-route event carries order policy context"
    | Some order => reject ((e.(ev_Kind) !=? EventOrderRouted) &&
              (negb (points_to e.(ev_OrderID) order.(order_ID)) || (e.(ev_PolicyKind) !=? order.(order_PolicyKind)) ||
               (e.(ev_PolicyVersion) !=? order.(order_PolicyVersion))))
              "apply execution transition: event order policy context mismatch"
    end) = Ok tt).
  { destruct Hctx as [Hk|(Ho & Hk & Hver)].
    - rewrite Hk, bool_decide_eq_true_2 by done. by destruct (agg_Order a).
    - rewrite Ho, Hk, Hver. destruct (agg_Order a); cbn [fmap option_fmap option_map points_to some_and is_nil];
        (destruct (_ !=? EventOrderRouted); cbn [andb]; [|done]); by rewrite !eq_self. }
  rewrite Hpre. cbn [mbind outcome_bind]. rewrite Hp, eq_self. cbn [negb reject mbind outcome_bind].
  rewrite Hp in Hvalid. rewrite Hvalid. reflexivity.
Qed.

Inductive command :=
  | CmdAllocate (quantity : dec) (input : EventInput) (createdAt : Time)
  | CmdApproveRisk (input : EventInput) (createdAt : Time)
  | CmdRejectRisk (input : EventInput) (createdAt : Time)
  | CmdRoute (input : RouteInput)
  | CmdAcknowledge (externalOrderID : string) (input : EventInput) (createdAt : Time)
  | CmdRecordFill (input : FillInput)
  | CmdRequestCancel (input : EventInput) (createdAt : Time)
  | CmdObserveOrderTerminal (kind : EventKind) (input : EventInput) (createdAt : Time)
  | CmdFailReconciliation (kind : EventKind) (input : EventInput) (createdAt : Time).

Definition issue (now now' : Time) (a : Aggregate) (c : command) : outcome Transition :=
  match c with
  | CmdAllocate q input created => Allocate now (Some a) q input created
  | CmdApproveRisk input created => ApproveRisk now (Some a) input created
  | CmdRejectRisk input created => RejectRisk now (Some a) input created
  | CmdRoute input => Route now (Some a) input
  | CmdAcknowledge id input created => Acknowledge now (Some a) id input created
  | CmdRecordFill input => RecordFill now now' (Some a) input
  | CmdRequestCancel input created => RequestCancel now (Some a) input created
  | CmdObserveOrderTerminal kind input created => ObserveOrderTerminal now (Some a) kind input created
  | CmdFailReconciliation kind input created => FailReconciliation now (Some a) kind input created
  end.

(** What all commands have in common: the event of the new transition. *)
Ltac command_event :=
  match goal with
  | Hn : newEvent _ _ _ _ _ _ _ = Ok ?e0 |- _ =>
      apply newEvent_facts in Hn as (Hkind & Hprior & Hnext & Hcontext)
  end;
  match goal with Hv : Event_Validate ?e = Ok ?u |- _ =>
    destruct u; let Hc := fresh "Hclass" in pose proof (event_class e Hv) as Hc;
    cbn [set_context ev_Kind ev_ObservationClass] in Hc; rename Hv into Hvalid
  end.

Lemma accept_allocate now a q input created t : lifecycle_inv a ->
  Allocate now (Some a) q input created = Ok t -> exists a', ApplyTransition (Some a) (Some t) = Ok a'.
Proof.
  intros Hinv Hcmd. unfold Allocate in Hcmd. inv_ok Hcmd. facts. command_event.
  rewrite Hkind in Hclass. specialize (Hclass ltac:(done) ltac:(done)).
  pose proof (li_stage _ Hinv) as Hs. unfold stage in Hs.
  match goal with Hst : agg_State _ = _ |- _ => rewrite Hst in Hs; rename Hst into Hstate end.
  destruct Hs as (_ & Ho & _).
  rewrite apply_reduces; cbn; rewrite ?Hkind, ?Hprior, ?Hnext, ?Hclass; try done.
  - unfold apply_case, apply_allocated; cbn. rewrite Hkind.
    match goal with Hq : validExactDecimal q false = true, Hs : (_ =? _)%Z = true, Hg : GreaterThan _ _ = false |- _ =>
      rewrite Hq, Hs, Hg end. eauto.
  - right. unfold order_context. cbn. by rewrite Ho.
Qed.

Lemma accept_risk now a approved input created t : lifecycle_inv a ->
  riskTransition now (Some a) approved input created = Ok t -> exists a', ApplyTransition (Some a) (Some t) = Ok a'.
Proof.
  intros Hinv Hcmd. unfold riskTransition in Hcmd. inv_ok Hcmd. facts. command_event.
  rewrite Hkind in Hclass. specialize (Hclass ltac:(by destruct approved) ltac:(by destruct approved)).
  pose proof (li_stage _ Hinv) as Hs. unfold stage in Hs.
  match goal with Hst : agg_State _ = _, Hq : agg_AllocatedQuantity _ = Some _ |- _ =>
    rewrite Hst in Hs; rename Hst into Hstate, Hq into Hquantity end.
  destruct Hs as (_ & Ho & _).
  rewrite apply_reduces; cbn; rewrite ?Hkind, ?Hprior, ?Hnext, ?Hclass; try done; [| |by destruct approved].
  - unfold apply_case, apply_risk; cbn. rewrite Hkind, Hquantity.
    rewrite (proj2 (Equal_true _ _)) by reflexivity. destruct approved; cbn; eauto.
  - right. unfold order_context. cbn. by rewrite Ho.
Qed.

(** What [Route] has checked of the transition it returns. *)
Record routed_by (a : Aggregate) (t : Transition) (q : dec) (o : Order) : Prop := {
  rb_state : a.(agg_State) = StateRiskApproved;
  rb_order : a.(agg_Order) = None;
  rb_quantity : a.(agg_AllocatedQuantity) = Some q;
  rb_valid : Order_Validate o = Ok tt;
  rb_intent : o.(order_IntentID) = a.(agg_Intent).(intent_ID) /\ o.(order_AccountID) = a.(agg_Intent).(intent_AccountID) /\
              o.(order_InstrumentID) = a.(agg_Intent).(intent_InstrumentID);
  rb_allocation : o.(order_Quantity) = Abs q /\ o.(order_Side) = sideForDelta q;
  rb_transition : exists e, t = MkTransition e (Some o) None None None /\ Event_Validate e = Ok tt /\
    e.(ev_Kind) = EventOrderRouted /\ e.(ev_PriorState) = StateRiskApproved /\ e.(ev_NextState) = StateRouted /\
    intent_context a.(agg_Intent) e /\ e.(ev_OrderID) = Some o.(order_ID) /\
    e.(ev_PolicyKind) = o.(order_PolicyKind) /\ e.(ev_PolicyVersion) = o.(order_PolicyVersion) /\
    e.(ev_QuoteSnapshotID) = Some o.(order_RouteQuoteSnapshotID);
}.

Lemma route_facts now a input t : Route now (Some a) input = Ok t -> exists q o, routed_by a t q o.
Proof.
  intros Hcmd. unfold Route in Hcmd. inv_ok Hcmd. facts. command_event.
  match goal with Hv : Order_Validate ?o = Ok ?u |- _ => destruct u; exists x0, o end.
  split; try assumption; try (repeat split; fail).
  eexists. split; [reflexivity|]. split; [exact Hvalid|]. ev_cbn. repeat (split; [assumption|]).
  repeat (split; [reflexivity|]). reflexivity.
Qed.

Lemma accept_route now a input t : Route now (Some a) input = Ok t ->
  exists a', ApplyTransition (Some a) (Some t) = Ok a'.
Proof.
  intros (q & o & [Hstate Horder Hquantity Hov (F1 & F2 & F3) (F4 & F5) (e & -> & Hv & Hk & Hp & Hn & Hc & E1 & E2 & E3 & E4)])%route_facts.
  pose proof (event_class e Hv) as Hclass. rewrite Hk in Hclass. specialize (Hclass ltac:(done) ltac:(done)).
  rewrite apply_reduces; ev_cbn; rewrite ?Hclass, ?Hk, ?Hp, ?Hn; try done; [|by left].
  unfold apply_case, apply_routed. ev_cbn. rewrite Hk, Horder, Hquantity, E1, E2, E3, E4. ev_cbn.
  rewrite F1, F2, F3, F4, F5, !eq_self. ev_cbn.
  rewrite (proj2 (Equal_true _ _)) by reflexivity. ev_cbn. rewrite Hov. ev_cbn. eauto.
Qed.

Lemma binding_facts a o id created b : newOrderBinding a o id created = Ok b ->
  OrderBinding_Validate b = Ok tt /\ b.(bind_OrderID) = o.(order_ID) /\
  b.(bind_AccountID) = a.(agg_Intent).(intent_AccountID) /\ b.(bind_Venue) = o.(order_Venue).
Proof.
  unfold newOrderBinding. intros Hb. inv_ok Hb. subst b.
  match goal with Hv : OrderBinding_Validate _ = Ok ?u |- _ => destruct u; split; [exact Hv|] end. by repeat split.
Qed.

Lemma accept_acknowledge now a id input created t : Acknowledge now (Some a) id input created = Ok t ->
  exists a', ApplyTransition (Some a) (Some t) = Ok a'.
Proof.
  intros Hcmd. unfold Acknowledge in Hcmd. inv_ok Hcmd. facts. command_event.
  rewrite Hkind in Hclass. specialize (Hclass ltac:(done) ltac:(done)).
  match goal with Hst : agg_State _ = _, Ho : agg_Order _ = Some ?o, Hb : agg_Binding _ = None,
                  Hn : newOrderBinding _ _ _ _ = Ok ?b |- _ =>
    rename Hst into Hstate, Ho into Horder, Hb into Hunbound, o into order, b into binding;
    apply binding_facts in Hn as (Hbv & Hbo & Hba & Hbven) end.
  rewrite apply_reduces; ev_cbn; rewrite ?Hkind, ?Hprior, ?Hnext, ?Hclass; try done.
  - unfold apply_case, apply_working. ev_cbn. rewrite Hkind, Horder, Hunbound. ev_cbn.
    rewrite Hbo, Hba, Hbven, !eq_self. ev_cbn. rewrite Hbv. ev_cbn. eauto.
  - right. unfold order_context. rewrite Horder. done.
Qed.

Lemma accept_cancel now a input created t : RequestCancel now (Some a) input created = Ok t ->
  exists a', ApplyTransition (Some a) (Some t) = Ok a'.
Proof.
  intros Hcmd. unfold RequestCancel, newOrderContextEvent in Hcmd. inv_ok Hcmd. facts. command_event.
  rewrite Hkind in Hclass. specialize (Hclass ltac:(done) ltac:(done)).
  match goal with Hst : bound_states _ = true, Ho : agg_Order _ = Some _, Hb : agg_Binding _ = Some _ |- _ =>
    rename Hst into Hstate, Ho into Horder, Hb into Hbound end.
  rewrite apply_reduces; ev_cbn; rewrite ?Hkind, ?Hprior, ?Hnext, ?Hclass; try done.
  - unfold apply_case, apply_cancel_requested. ev_cbn. rewrite Hkind, Hbound. ev_cbn. rewrite !eq_self. ev_cbn. eauto.
  - right. unfold order_context. rewrite Horder. done.
  - unfold validEventTransition. rewrite Hstate, !eq_self. reflexivity.
Qed.

Lemma terminal_case a t : t.(tr_Event).(ev_Kind) = EventOrderCancelled \/ t.(tr_Event).(ev_Kind) = EventOrderExpired \/
  t.(tr_Event).(ev_Kind) = EventOrderRejected -> apply_case a t = apply_terminal a t.
Proof. unfold apply_case. by intros [-> |[-> | ->]]. Qed.

Lemma accept_terminal now a kind input created t : lifecycle_inv a ->
  ObserveOrderTerminal now (Some a) kind input created = Ok t ->
  exists a', ApplyTransition (Some a) (Some t) = Ok a'.
Proof.
  intros Hinv Hcmd. unfold ObserveOrderTerminal, newOrderContextEvent in Hcmd. inv_ok Hcmd. facts. command_event.
  assert (Hk : kind = EventOrderCancelled \/ kind = EventOrderExpired \/ kind = EventOrderRejected)
    by (destruct kind; try done; auto).
  rewrite Hkind in Hclass. specialize (Hclass ltac:(by destruct Hk as [-> |[-> | ->]]) ltac:(by destruct Hk as [-> |[-> | ->]])).
  match goal with Hst : validEventTransition _ _ _ _ = true, Ho : agg_Order ?a = Some _ |- _ =>
    rename Hst into Hedge, Ho into Horder, a into a0 end.
  assert (Hopen : open_states a0.(agg_State) = true).
  { apply valid_edge, edge_inv in Hedge. destruct Hk as [-> |[-> | ->]]; apply Hedge. }
  rewrite apply_reduces; ev_cbn; rewrite ?Hkind, ?Hprior, ?Hnext, ?Hclass; try done.
  - rewrite terminal_case by (ev_cbn; by rewrite Hkind).
    unfold apply_terminal. ev_cbn. pose proof (li_stage _ Hinv) as Hs. unfold stage in Hs.
    destruct (open_cases _ Hopen) as [Hst|[Hst|Hst]]; rewrite Hst in *; cbn [bound_states].
    + destruct Hs as (_ & Hb & _). rewrite Hb. cbn. eauto.
    + destruct Hs as (_ & [b Hb] & _). rewrite Hb. ev_cbn. rewrite eq_self. cbn. eauto.
    + destruct Hs as (o & _ & [b Hb] & _). rewrite Hb. ev_cbn. rewrite eq_self. cbn. eauto.
  - right. unfold order_context. rewrite Horder. done.
Qed.

Lemma newEvent_class now intent kind prior next input created e :
  newEvent now intent kind prior next input created = Ok e ->
  e.(ev_ObservationClass) = if input.(evin_ObservationClass) ==? ObservationOther "" then ObservationOrdinary
                            else input.(evin_ObservationClass).
Proof. unfold newEvent. intros Hn. inv_ok Hn. by subst e. Qed.

Lemma accept_failure now a kind input created t : FailReconciliation now (Some a) kind input created = Ok t ->
  exists a', ApplyTransition (Some a) (Some t) = Ok a'.
Proof.
  intros Hcmd. unfold FailReconciliation in Hcmd. inv_ok Hcmd. facts.
  match goal with Hn : newEvent _ _ _ _ _ _ _ = Ok _ |- _ => pose proof (newEvent_class _ _ _ _ _ _ _ _ Hn) as Hcl end.
  command_event.
  match goal with
  | Hs : agg_State ?a <> StateNone, Hf : agg_State ?a <> StateFailedReconciliation, Hk : (match kind with _ => _ end) = Ok _,
    Hr : (_ && _) = false |- _ => rename a into a0, Hs into Hnone, Hf into Hfailed, Hr into Horiginal, Hk into Hkinds
  end.
  assert (Hcases : (kind = EventFillCorrectionObserved \/ kind = EventFillBustObserved) /\
      (ev_ObservationClass x1 = ObservationCorrection \/ ev_ObservationClass x1 = ObservationBust) \/
      (kind = EventUnknownVenueState \/ kind = EventContradictoryVenueState) /\ ev_ObservationClass x1 = ObservationOrdinary).
  { destruct kind; try done.
    1,2: right; split; [auto|]; apply Hclass; by rewrite Hkind.
    1,2: apply reject_Ok in Hkinds; split_bools; rewrite Hkinds in Hcl; left; split; [by auto|]; rewrite Hcl; auto. }
  rewrite apply_reduces; ev_cbn; rewrite ?Hkind, ?Hprior, ?Hnext; try done; [|by right|].
  - unfold apply_case. ev_cbn. rewrite Hkind. cbn [set_context ev_OriginalFillID ev_OriginalSourceEventID] in Horiginal.
    destruct Hcases as [[[-> | ->] _]|[[-> | ->] _]]; unfold apply_revision, apply_venue_failure; ev_cbn; eauto.
    all: destruct (ev_OriginalFillID x1); [|by vm_compute in Horiginal]; apply andb_false_iff in Horiginal as [Ho|Ho];
      [by vm_compute in Ho|]; rewrite Ho; ev_cbn; eauto.
  - unfold validEventTransition. rewrite !(bool_decide_eq_false_2 (agg_State a0 = _)) by done.
    destruct Hcases as [[[-> | ->] [-> | ->]]|[[-> | ->] ->]]; reflexivity.
Qed.

(** What [RecordFill] has checked of the transition it returns. *)
Record filled_by (a : Aggregate) (t : Transition) (o : Order) (f : Fill) (n : EconomicNormalization)
    (source : EconomicSourceEvent) (tx : Transaction) (b : option OrderBinding) (e : Event) : Prop := {
  fb_transition : t = MkTransition e None b (Some f) (Some n);
  fb_order : a.(agg_Order) = Some o;
  fb_state : open_states a.(agg_State) = true;
  fb_event : Event_Validate e = Ok tt /\ intent_context a.(agg_Intent) e /\ order_context a e /\
             e.(ev_PriorState) = a.(agg_State);
  fb_fill : Fill_Validate f = Ok tt /\ e.(ev_FillID) = Some f.(fill_ID);
  fb_links : f.(fill_IntentID) = a.(agg_Intent).(intent_ID) /\ f.(fill_OrderID) = o.(order_ID) /\
             f.(fill_AccountID) = a.(agg_Intent).(intent_AccountID) /\
             f.(fill_InstrumentID) = a.(agg_Intent).(intent_InstrumentID) /\
             f.(fill_VenueContractID) = o.(order_VenueContractID);
  fb_normalization : validateFillNormalization a f.(fill_ID) n = Ok tt /\ n.(norm_SourceEvent) = Some source /\
             n.(norm_Transaction) = Some tx;
  fb_economic : f.(fill_EconomicSourceEventID) = source.(src_ID) /\ f.(fill_NormalizationID) = n.(norm_ID) /\
             f.(fill_LedgerTransactionID) = tx.(tx_ID);
  fb_source : e.(ev_Source) = f.(fill_Source) /\ e.(ev_SourceNamespace) = f.(fill_SourceNamespace) /\
             e.(ev_SourceEventID) = f.(fill_SourceEventID) /\ e.(ev_SourceRevision) = f.(fill_SourceRevision) /\
             TimeEqual e.(ev_ReceivedAt) f.(fill_ReceivedAt) = true;
  fb_cumulative : let total := Add (sumFillQuantity a.(agg_Fills)) f.(fill_Quantity) in
             GreaterThan total o.(order_Quantity) = false /\ e.(ev_CumulativeFillQuantity) = Some total /\
             e.(ev_NextState) = (if Equal total o.(order_Quantity) then StateFilled else StatePartiallyFilled);
  fb_binding :
    (a.(agg_State) = StateRouted /\ e.(ev_Kind) = EventFillAcknowledged /\ a.(agg_Binding) = None /\
     exists nb, b = Some nb /\ OrderBinding_Validate nb = Ok tt /\ nb.(bind_OrderID) = o.(order_ID) /\
                e.(ev_BindingID) = Some nb.(bind_ID)) \/
    (a.(agg_State) <> StateRouted /\ e.(ev_Kind) = EventFillRecorded /\ b = None /\
     exists cb, a.(agg_Binding) = Some cb /\ e.(ev_BindingID) = Some cb.(bind_ID));
}.

Lemma newEvent_source now intent kind prior next input created e :
  newEvent now intent kind prior next input created = Ok e ->
  e.(ev_Source) = ToLower (TrimSpace input.(evin_Source)) /\
  e.(ev_SourceNamespace) = TrimSpace input.(evin_SourceNamespace) /\
  e.(ev_SourceEventID) = TrimSpace input.(evin_SourceEventID) /\
  e.(ev_SourceRevision) = TrimSpace input.(evin_SourceRevision) /\
  e.(ev_ReceivedAt) = normalizeTime input.(evin_ReceivedAt).
Proof. unfold newEvent. intros Hn. inv_ok Hn. by subst e. Qed.

Lemma recordFill_facts now now' a input t : RecordFill now now' (Some a) input = Ok t ->
  exists o f n source tx b e, filled_by a t o f n source tx b e.
Proof.
  intros Hcmd. unfold RecordFill in Hcmd. inv_ok Hcmd. facts.
  match goal with Hb : _ = Ok ?p |- _ => match type of p with (_ * _ * _)%type =>
    destruct p as [[kind binding] bindingID]; rename Hb into Hbinding end end.
  inv_ok Hcmd.
  match goal with Hn : newEvent _ _ _ _ _ _ _ = Ok _ |- _ => pose proof (newEvent_source _ _ _ _ _ _ _ _ Hn) as Hsource end.
  command_event. destruct Hsource as (S1 & S2 & S3 & S4 & S5).
  match goal with Hv : Fill_Validate ?f = Ok ?u, Hvn : validateFillNormalization _ _ _ = Ok ?w |- _ =>
    destruct u, w; exists x0, f, x1, x3, x6, binding end.
  eexists. split; [symmetry; exact Hcmd|done|done| | | | | | | | ].
  - split; [exact Hvalid|]. ev_cbn. split; [exact Hcontext|]. split; [|exact Hprior].
    unfold order_context. rewrite H0. done.
  - split; [done|]. reflexivity.
  - by repeat split.
  - split; [done|]. split; done.
  - by repeat split.
  - ev_cbn. cbn [fill_Source fill_SourceNamespace fill_SourceEventID fill_SourceRevision fill_ReceivedAt].
    rewrite S1, S2, S3, S4, S5. repeat (split; [by symmetry|]). unfold TimeEqual in *. by rewrite Z.eqb_sym.
  - cbv zeta. split; [done|]. split; [reflexivity|]. ev_cbn. exact Hnext.
  - ev_cbn. rewrite Hkind. destruct (_ ==? StateRouted) eqn:Hrouted; split_bools; inv_ok Hbinding; facts.
    + left. match goal with Hn : newOrderBinding _ _ _ _ = Ok ?nb |- _ =>
        apply binding_facts in Hn as (Hbv & Hbo & _); repeat (split; [done|]); exists nb end. done.
    + right. repeat (split; [done|]). eauto.
Qed.

Lemma accept_fill now now' a input t : RecordFill now now' (Some a) input = Ok t ->
  exists a', ApplyTransition (Some a) (Some t) = Ok a'.
Proof.
  intros (o & f & n & source & tx & b & e & [-> Ho Hopen (Hv & Hic & Hoc & Hp) (Hfv & Hfid) (L1 & L2 & L3 & L4 & L5)
    (N1 & N2 & N3) (M1 & M2 & M3) (S1 & S2 & S3 & S4 & S5) (C1 & C2 & C3) Hb])%recordFill_facts. cbv zeta in *.
  assert (Hk : e.(ev_Kind) = EventFillAcknowledged \/ e.(ev_Kind) = EventFillRecorded).
  { destruct Hb as [(_ & Hk & _)|(_ & Hk & _)]; auto. }
  assert (Hclass : e.(ev_ObservationClass) = ObservationOrdinary)
    by (apply event_class; [done|by destruct Hk as [-> | ->]|by destruct Hk as [-> | ->]]).
  assert (Hnext : e.(ev_NextState) = StatePartiallyFilled \/ e.(ev_NextState) = StateFilled)
    by (rewrite C3; destruct (Equal _ _); auto).
  rewrite apply_reduces; ev_cbn; [| done..|by right|done|].
  - assert (Hcase : apply_case a (MkTransition e None b (Some f) (Some n)) = apply_fill a (MkTransition e None b (Some f) (Some n)))
      by (unfold apply_case; ev_cbn; by destruct Hk as [-> | ->]).
    rewrite Hcase. unfold apply_fill. ev_cbn. rewrite Ho, Hfid. ev_cbn.
    rewrite L1, L2, L3, L4, L5, !eq_self. ev_cbn. rewrite Hfv, N1, N2, N3. ev_cbn.
    rewrite M1, M2, M3, S1, S2, S3, S4, S5, !eq_self. ev_cbn. rewrite C1, C2, C3.
    rewrite (proj2 (Equal_true _ _)) by reflexivity.
    assert (Hx : xorb ((if Equal (Add (sumFillQuantity (agg_Fills a)) (fill_Quantity f)) (order_Quantity o)
      then StateFilled else StatePartiallyFilled) ==? StateFilled)
      (Equal (Add (sumFillQuantity (agg_Fills a)) (fill_Quantity f)) (order_Quantity o)) = false) by (by destruct (Equal _ _)).
    rewrite Hx. ev_cbn.
    destruct Hb as [(Hst & -> & Hun & nb & -> & Hbv & Hbo & Hbid)|(Hst & -> & -> & cb & Hcb & Hbid)].
    + rewrite Hst, Hun, Hbid, !eq_self. ev_cbn. rewrite Hbo, !eq_self. ev_cbn. rewrite Hbv. ev_cbn. eauto.
    + rewrite bool_decide_eq_false_2 by done. rewrite Hcb, Hbid. ev_cbn. rewrite !eq_self. ev_cbn. eauto.
  - rewrite Hclass, Hp. unfold validEventTransition.
    destruct Hb as [(Hst & -> & _)|(Hst & -> & _)].
    + rewrite Hst. by destruct Hnext as [-> | ->].
    + destruct (open_cases _ Hopen) as [?|[Hs|Hs]]; [done| |]; rewrite Hs; by destruct Hnext as [-> | ->].
Qed.

(** ** Observations that carry no facts *)

(** A step that records an observation of the order, and no fill. *)
Record observed (a : Aggregate) (t : Transition) (a' : Aggregate) (next : State) : Prop := {
  os_step : step a t a';
  os_bare : t.(tr_Fill) = None /\ t.(tr_Normalization) = None;
  os_facts : a'.(agg_Fills) = a.(agg_Fills) /\ a'.(agg_Order) = a.(agg_Order);
  os_state : a'.(agg_State) = next;
}.

Definition terminal_of (kind : EventKind) : option State :=
  match kind with
  | EventOrderCancelled => Some StateCancelled
  | EventOrderExpired => Some StateExpired
  | EventOrderRejected => Some StateRejected
  | _ => None
  end.

Lemma terminal_observed now a kind input created t a' :
  ObserveOrderTerminal now (Some a) kind input created = Ok t -> ApplyTransition (Some a) (Some t) = Ok a' ->
  exists next, terminal_of kind = Some next /\ observed a t a' next.
Proof.
  intros Hcmd Happ. pose proof (applied_case _ _ _ Happ) as Hcase.
  unfold ObserveOrderTerminal, newOrderContextEvent in Hcmd. inv_ok Hcmd. facts. command_event.
  assert (Hk : kind = EventOrderCancelled \/ kind = EventOrderExpired \/ kind = EventOrderRejected)
    by (destruct kind; try done; auto).
  rewrite terminal_case in Hcase by (ev_cbn; by rewrite Hkind).
  unfold apply_terminal in Hcase. inv_ok Hcase. subst a'.
  match type of Hnext with _ = ?n => exists n; assert (Hn : terminal_of kind = Some n)
    by (destruct Hk as [-> |[-> | ->]]; cbn; congruence) end.
  split; [exact Hn|]. split; try done.
Qed.

Lemma working_observed now a id input created t a' :
  Acknowledge now (Some a) id input created = Ok t -> ApplyTransition (Some a) (Some t) = Ok a' ->
  observed a t a' StateWorking.
Proof.
  intros Hcmd Happ. pose proof (applied_case _ _ _ Happ) as Hcase.
  unfold Acknowledge in Hcmd. inv_ok Hcmd. facts. command_event.
  unfold apply_case in Hcase. cbn [tr_Event set_context ev_Kind] in Hcase. rewrite Hkind in Hcase.
  unfold apply_working in Hcase. inv_ok Hcase. subst a'. split; try done.
Qed.

(** Every command yields a transition the aggregate accepts: whenever a
    command succeeds on a reachable lifecycle, [ApplyTransition] applies its
    result to that lifecycle, so commands and the check made after reloading the
    stored aggregate never disagree. *)
Theorem commands_accepted now now' a c t : reachable a -> issue now now' a c = Ok t ->
  exists a', step a t a' /\ reachable a'.
Proof.
  intros Hreach Hissue. pose proof (reachable_inv a Hreach) as Hinv.
  assert (Happ : exists a', ApplyTransition (Some a) (Some t) = Ok a').
  { destruct c; unfold issue in Hissue; eauto using accept_allocate, accept_risk, accept_route, accept_acknowledge,
      accept_fill, accept_cancel, accept_terminal, accept_failure. }
  destruct Happ as [a' Ha']. exists a'. split; [by constructor|]. eapply reach_step; [done|]. by constructor.
Qed.

(** Recorded facts are immutable: along any run of accepted transitions
    the intent, the allocation, the order, the binding and the fills already
    recorded stay as they are, and the event log grows by exactly the events
    applied. *)
Theorem facts_immutable a ts a' : reachable a -> run a ts a' ->
  extends a a' /\ a'.(agg_Events) = a.(agg_Events) ++ (tr_Event <$> ts).
Proof. intros Hr. apply run_extends. by apply reachable_inv. Qed.

(** An intent is routed at most once: after an order exists, no later
    lifecycle of the same intent lets [Route] build another one, whatever its
    input, and recovery continues the same order. *)
Theorem no_second_order a ts a' o : reachable a -> a.(agg_Order) = Some o -> run a ts a' ->
  a'.(agg_Order) = Some o /\
  (forall now input, exists msg, Route now (Some a') input = Err (Errorf msg)) /\
  (RecoveryEligible (Some a') = true <-> open_states a'.(agg_State) = true).
Proof.
  intros Hr Ho Hrun. pose proof (reachable_inv a Hr) as Hinv.
  destruct (run_extends a ts a' Hinv Hrun) as [Hext _]. pose proof (ex_order _ _ Hext o Ho) as Ho'.
  pose proof (run_inv a ts a' Hinv Hrun) as Hinv'. split; [done|]. split.
  - intros now input. assert (Hst : a'.(agg_State) <> StateRiskApproved).
    { intros Hst. pose proof (li_stage _ Hinv') as Hs. unfold stage in Hs. rewrite Hst in Hs.
      destruct Hs as (_ & Hno & _). congruence. }
    unfold Route. cbn [required mbind outcome_bind].
    rewrite (bool_decide_eq_false_2 (agg_State a' = StateRiskApproved)) by done.
    cbn [negb reject mbind outcome_bind]. eauto.
  - unfold RecoveryEligible. rewrite Ho'. done.
Qed.

(** ** Replay *)

Lemma replay_events_run ts seen seq a a' : replay_events ts seen seq a = Ok a' ->
  run a ts a' /\ NoDup (ev_ID <$> (tr_Event <$> ts)) /\ (forall t, t ∈ ts -> t.(tr_Event).(ev_ID) ∉ seen).
Proof.
  revert seen seq a. induction ts as [|t ts IH]; intros seen seq a; cbn [replay_events].
  { intros [= ->]. split; [constructor|]. split; [constructor|]. intros t Ht. by apply elem_of_nil in Ht. }
  intros Hr. inv_ok Hr. split_bools. apply IH in Hr as (Hrun & Hnd & Hfresh). split; [|split].
  - econstructor; [by constructor|done].
  - cbn. constructor; [|done]. intros Hin. rewrite <- list_fmap_compose in Hin.
    apply list_elem_of_fmap in Hin as (t' & Heq & Ht'). apply (Hfresh t' Ht'). cbn in Heq. rewrite <- Heq. left.
  - intros t' Ht'. apply elem_of_cons in Ht' as [-> |Ht']; [done|]. intros Hin. by apply (Hfresh t' Ht'); right.
Qed.

(** Replay is sound: an aggregate rebuilt from a stored history is well
    formed, belongs to the given intent and account, and carries exactly the
    events of the history, no event twice. *)
Theorem replay_sound accountID intent ts a : Replay accountID intent ts = Ok a ->
  lifecycle_inv a /\ a.(agg_Intent) = intent /\ intent.(intent_AccountID) = accountID /\
  a.(agg_Events) = tr_Event <$> ts /\ NoDup (ev_ID <$> a.(agg_Events)).
Proof.
  unfold Replay. intros Hr. inv_ok Hr. split_bools. destruct ts as [|t ts]; [done|]. inv_ok Hr. split_bools.
  match goal with Hi : Intent_Validate _ = Ok ?u, He : Event_Validate _ = Ok ?w |- _ => destruct u, w;
    rename Hi into Hintent, He into Hevent end.
  assert (Hinv : lifecycle_inv (MkAggregate intent StateProposed None None None [] [t.(tr_Event)]))
    by (apply proposed_inv; done).
  apply replay_events_run in Hr as (Hrun & Hnd & Hfresh).
  destruct (run_extends _ _ _ Hinv Hrun) as [Hext Hev]. cbn in Hev.
  split; [by eapply run_inv|]. split; [apply (ex_intent _ _ Hext)|]. split; [done|]. rewrite Hev. split; [done|].
  cbn. constructor; [|done]. intros Hin. rewrite <- list_fmap_compose in Hin.
  apply list_elem_of_fmap in Hin as (t' & Heq & Ht'). apply (Hfresh t' Ht'). cbn in Heq. rewrite <- Heq. left.
Qed.
End lifecycle_theorems.
