(* ===== verification/LifecycleReplay.v ===== *)
(** * Replay as the inverse of live execution

    The store numbers the events of a lifecycle as it appends them. Applying a
    transition does not read the number, so a stored history replays to the live
    aggregate with numbered events, exactly when no event occurs twice and the
    numbers increase once they are assigned. *)

From S2P Require Import Prelude GoStd Externals EconomicId Account Instrument Transaction SourceEvent Normalization.
From S2P Require Import Snapshot Lifecycle LifecycleAggregate LifecycleProofs LifecycleTheorems.

Local Open Scope go_scope.

(** ** Numbered events *)
Section numbered.
Context {E : Externals}.

Definition with_sequence (n : Z) (e : Event) : Event := {|
  ev_ID := e.(ev_ID); ev_IngestSequence := n; ev_IntentID := e.(ev_IntentID);
  ev_OrderID := e.(ev_OrderID); ev_BindingID := e.(ev_BindingID); ev_FillID := e.(ev_FillID);
  ev_Kind := e.(ev_Kind); ev_ObservationClass := e.(ev_ObservationClass);
  ev_ObservationDiscriminator := e.(ev_ObservationDiscriminator);
  ev_PriorState := e.(ev_PriorState); ev_NextState := e.(ev_NextState); ev_AccountID := e.(ev_AccountID);
  ev_Environment := e.(ev_Environment); ev_OriginType := e.(ev_OriginType); ev_OriginID := e.(ev_OriginID);
  ev_StrategyVersionID := e.(ev_StrategyVersionID);
  ev_PolicyKind := e.(ev_PolicyKind); ev_PolicyVersion := e.(ev_PolicyVersion);
  ev_QuantityDelta := e.(ev_QuantityDelta); ev_CumulativeFillQuantity := e.(ev_CumulativeFillQuantity);
  ev_QuoteSnapshotID := e.(ev_QuoteSnapshotID);
  ev_Source := e.(ev_Source); ev_SourceNamespace := e.(ev_SourceNamespace); ev_SourceEventID := e.(ev_SourceEventID);
  ev_SourceRevision := e.(ev_SourceRevision); ev_SourceAt := e.(ev_SourceAt); ev_ReceivedAt := e.(ev_ReceivedAt);
  ev_Actor := e.(ev_Actor); ev_ReasonCode := e.(ev_ReasonCode); ev_Reason := e.(ev_Reason);
  ev_Evidence := e.(ev_Evidence); ev_EvidenceSHA256 := e.(ev_EvidenceSHA256);
  ev_OriginalFillID := e.(ev_OriginalFillID); ev_OriginalSourceEventID := e.(ev_OriginalSourceEventID);
  ev_CreatedAt := e.(ev_CreatedAt) |}.

Definition numbered (n : Z) (t : Transition) : Transition :=
  MkTransition (with_sequence n t.(tr_Event)) t.(tr_Order) t.(tr_Binding) t.(tr_Fill) t.(tr_Normalization).

(** The aggregate with another event log. *)
Definition with_events (es : list Event) (a : Aggregate) : Aggregate :=
  MkAggregate a.(agg_Intent) a.(agg_State) a.(agg_AllocatedQuantity) a.(agg_Order) a.(agg_Binding) a.(agg_Fills) es.

Definition map_result {A B} (f : A -> B) (m : outcome A) : outcome B :=
  match m with Ok a => Ok (f a) | Err e => Err e | Panic p => Panic p end.

Lemma bind_map {A B C} (m : outcome A) (k : A -> outcome B) (k' : A -> outcome C) (f : B -> C) :
  (forall x, k' x = map_result f (k x)) -> m ≫= k' = map_result f (m ≫= k).
Proof. intros Hk. destruct m; [apply Hk|done|done]. Qed.

(** Both sides run the same checks; the fields they read are equal by definition. *)
Ltac same_checks :=
  repeat (apply bind_map; intros ?); try reflexivity.

Lemma validate_numbered n e : Event_Validate (with_sequence n e) = Event_Validate e.
Proof. reflexivity. Qed.

Section cases.
Context (es : list Event) (n : Z) (a : Aggregate) (t : Transition).
Let renumbered : Aggregate -> Aggregate := with_events (es ++ [with_sequence n t.(tr_Event)]).

Lemma allocated_numbered : apply_allocated (with_events es a) (numbered n t) = map_result renumbered (apply_allocated a t).
Proof. unfold apply_allocated. same_checks. Qed.
Lemma risk_numbered : apply_risk (with_events es a) (numbered n t) = map_result renumbered (apply_risk a t).
Proof. unfold apply_risk. same_checks. Qed.
Lemma routed_numbered : apply_routed (with_events es a) (numbered n t) = map_result renumbered (apply_routed a t).
Proof. unfold apply_routed. same_checks. Qed.
Lemma working_numbered : apply_working (with_events es a) (numbered n t) = map_result renumbered (apply_working a t).
Proof. unfold apply_working. same_checks. Qed.
Lemma cancel_numbered : apply_cancel_requested (with_events es a) (numbered n t) = map_result renumbered (apply_cancel_requested a t).
Proof. unfold apply_cancel_requested. same_checks. Qed.
Lemma terminal_numbered : apply_terminal (with_events es a) (numbered n t) = map_result renumbered (apply_terminal a t).
Proof. unfold apply_terminal. same_checks. Qed.
Lemma fill_numbered : apply_fill (with_events es a) (numbered n t) = map_result renumbered (apply_fill a t).
Proof. unfold apply_fill. same_checks. Qed.
Lemma revision_numbered : apply_revision (with_events es a) (numbered n t) = map_result renumbered (apply_revision a t).
Proof. unfold apply_revision. same_checks. Qed.
Lemma failure_numbered : apply_venue_failure (with_events es a) (numbered n t) = map_result renumbered (apply_venue_failure a t).
Proof. unfold apply_venue_failure. same_checks. Qed.

(** Applying a transition reads neither the log nor the number. *)
Lemma apply_renumbered :
  ApplyTransition (Some (with_events es a)) (Some (numbered n t)) = map_result renumbered (ApplyTransition (Some a) (Some t)).
Proof.
  unfold ApplyTransition. cbn [required mbind outcome_bind]. apply bind_map; intros ?. apply bind_map; intros ?.
  apply bind_map; intros ?. apply bind_map; intros ?. apply bind_map; intros ?.
  change (ev_Kind (tr_Event (numbered n t))) with (ev_Kind (tr_Event t)).
  destruct (ev_Kind (tr_Event t)); first [exact allocated_numbered|exact risk_numbered|exact routed_numbered|exact working_numbered
    |exact cancel_numbered|exact terminal_numbered|exact fill_numbered|exact revision_numbered|exact failure_numbered|reflexivity].
Qed.
End cases.
End numbered.

(** ** Histories *)
Section replay.
Context {E : Externals} {L : ExternalLaws}.

#[local] Opaque DeterministicUUID Sum256.

(** Once a number is positive, the numbers after it are larger. *)
Definition in_order (numbers : list Z) : Prop := StronglySorted (fun x y => (0 < x)%Z -> (x < y)%Z) numbers.

Lemma in_order_step last n rest : in_order (last :: n :: rest) <->
  let sequenced := (0 <? n)%Z || (0 <? last)%Z in
  sequenced && (n <=? last)%Z = false /\ in_order ((if sequenced then n else last) :: rest).
Proof.
  cbv zeta. unfold in_order. split.
  - intros [[Hs Hn]%StronglySorted_inv [Hlast Hall]%Forall_cons]%StronglySorted_inv.
    destruct (Z.ltb_spec 0 n), (Z.ltb_spec 0 last); cbn [orb andb]; (split; [try done; lia|]); constructor; try done.
  - intros [Hstep [Hs Hall]%StronglySorted_inv]. rewrite Forall_forall in Hall.
    assert (Hn : Forall (fun y => (0 < n -> n < y)%Z) rest).
    { apply Forall_forall. intros y Hy Hpos. specialize (Hall y Hy). rewrite (proj2 (Z.ltb_lt 0 n)) in Hall by done. by apply Hall. }
    constructor; [by constructor|]. constructor; [intros; destruct (Z.ltb_spec 0 n), (Z.ltb_spec 0 last); cbn in Hstep; lia|].
    apply Forall_forall. intros y Hy Hpos. specialize (Hall y Hy). rewrite (proj2 (Z.ltb_lt 0 last)), orb_true_r in * by done.
    cbn [andb] in Hstep. apply Z.leb_gt in Hstep. assert (n < y)%Z by (apply Hall; lia). lia.
Qed.

Lemma replay_events_numbered a ts a' : run a ts a' -> forall numbers es seen last r, length numbers = length ts ->
  replay_events (zip_with numbered numbers ts) seen last (with_events es a) = Ok r <->
  r = with_events (es ++ zip_with with_sequence numbers (tr_Event <$> ts)) a' /\
  NoDup (ev_ID <$> (tr_Event <$> ts)) /\ (forall t, t ∈ ts -> t.(tr_Event).(ev_ID) ∉ seen) /\ in_order (last :: numbers).
Proof.
  induction 1 as [a|a t a' ts a'' Hstep _ IH]; intros [|n numbers] es seen last r Hlen; try done.
  { cbn [zip_with fmap list_fmap replay_events]. rewrite app_nil_r. split.
    - intros [= <-]. split_and!; [done|constructor|by intros ? ?%elem_of_nil|by repeat constructor].
    - by intros (-> & _). }
  destruct Hstep as [t a' Happ]. injection Hlen as Hlen. cbn [zip_with fmap list_fmap replay_events]. rewrite in_order_step. cbv zeta.
  change (ev_ID (tr_Event (numbered n t))) with (ev_ID (tr_Event t)). change (ev_IngestSequence (tr_Event (numbered n t))) with n.
  rewrite apply_renumbered, Happ. cbn [map_result]. destruct (decide (ev_ID (tr_Event t) ∈ seen)) as [Hs|Hs].
  { rewrite bool_decide_eq_true_2 by done. split; [done|]. intros (_ & _ & Hnin & _). by destruct (Hnin t ltac:(by left)). }
  rewrite bool_decide_eq_false_2 by done. cbn [reject mbind outcome_bind].
  destruct (((0 <? n)%Z || (0 <? last)%Z) && (n <=? last)%Z) eqn:Hseq; cbn [reject mbind outcome_bind wrap].
  { split; [done|]. by intros (_ & _ & _ & ? & _). }
  rewrite IH by done. rewrite <- app_assoc. cbn [app]. rewrite NoDup_cons. split.
  - intros (-> & Hnd & Hnin & Ho). split_and!; try done.
    + intros (e & Heq & (u & -> & Hu)%list_elem_of_fmap)%list_elem_of_fmap. apply (Hnin u Hu). rewrite <- Heq. by left.
    + intros u [->|Hu]%elem_of_cons; [done|]. intros Hin. apply (Hnin u Hu). by right.
  - intros (-> & [Hni Hnd] & Hnin & _ & Ho). split_and!; try done.
    intros u Hu [Heq|Hin]%elem_of_cons; [|by apply (Hnin u ltac:(by right))].
    apply Hni. rewrite <- Heq. by apply list_elem_of_fmap_2, list_elem_of_fmap_2.
Qed.

(** C34: replay is the inverse of live execution. Take a lifecycle driven from its
    proposal by accepted transitions, and any numbers the store gave its events
    (none given is zero). [Replay] of that history succeeds exactly when no event
    occurs twice and the numbers increase from the first positive one on, and
    then returns the live aggregate, its events carrying their numbers. *)
Theorem replay_roundtrip now input a0 e0 ts a n0 numbers r :
  Propose now input = Ok a0 -> a0.(agg_Events) = [e0] -> run a0 ts a -> length numbers = length ts ->
  Replay a0.(agg_Intent).(intent_AccountID) a0.(agg_Intent) (zip_with numbered (n0 :: numbers) (event_only e0 :: ts)) = Ok r <->
  r = with_events (zip_with with_sequence (n0 :: numbers) a.(agg_Events)) a /\
  NoDup (ev_ID <$> a.(agg_Events)) /\ in_order (n0 :: numbers).
Proof.
  intros Hp He Hrun Hlen.
  assert (Hinv : lifecycle_inv a0) by (eapply reachable_inv, reach_propose; eauto).
  destruct (run_extends _ _ _ Hinv Hrun) as [_ Hev]. rewrite Hev, He. cbn [app].
  destruct (propose_facts _ _ _ Hp) as (e & [Ha Hi Hv (Hk & Hpr & Hnx) (C1 & C2 & C3 & C4 & C5 & C6) Hq Hqs
    (B1 & B2 & B3 & B4 & B5 & B6)]).
  assert (e = e0) as -> by (rewrite Ha in He; by injection He).
  assert (Hacct : a0.(agg_Intent).(intent_AccountID) <> Nil).
  { unfold Intent_Validate in Hi. inv_ok Hi. by split_bools. }
  assert (Hclass : e0.(ev_ObservationClass) = ObservationOrdinary) by (apply event_class; [done|by rewrite Hk|by rewrite Hk]).
  transitivity (replay_events (zip_with numbered numbers ts) [ev_ID e0] n0 (with_events [with_sequence n0 e0] a0) = Ok r).
  - cbn [zip_with]. unfold Replay. rewrite (bool_decide_eq_false_2 (intent_AccountID (agg_Intent a0) = Nil)), eq_self by done.
    cbn [negb orb reject mbind outcome_bind]. rewrite Hi. cbn [wrap mbind outcome_bind].
    assert (Hstart : with_events [with_sequence n0 e0] a0 = MkAggregate a0.(agg_Intent) StateProposed None None None [] [with_sequence n0 e0])
      by (by rewrite Ha).
    rewrite Hstart.
    cbn [numbered with_sequence event_only tr_Event tr_Order tr_Binding tr_Fill tr_Normalization no_children ev_ID ev_IngestSequence
      ev_IntentID ev_OrderID ev_BindingID ev_FillID ev_Kind ev_ObservationClass ev_PriorState ev_NextState ev_AccountID ev_Environment
      ev_OriginType ev_OriginID ev_StrategyVersionID ev_PolicyKind ev_PolicyVersion ev_QuantityDelta ev_QuoteSnapshotID].
    rewrite Hk, Hclass, Hpr, Hnx, C1, C2, C3, C4, C5, C6, Hq, Hqs, B1, B2, B3, B4, B5, !eq_self. ev_cbn.
    rewrite (proj2 (Equal_true _ _)) by reflexivity. ev_cbn. rewrite !eq_self. ev_cbn. rewrite validate_numbered, Hv. ev_cbn. done.
  - rewrite (replay_events_numbered _ _ _ Hrun) by done. cbn [zip_with app fmap list_fmap]. rewrite NoDup_cons. split.
    + intros (-> & Hnd & Hnin & Ho). split_and!; try done.
      intros (e & Heq & (u & -> & Hu)%list_elem_of_fmap)%list_elem_of_fmap. apply (Hnin u Hu). rewrite <- Heq. by left.
    + intros (-> & [Hni Hnd] & Ho). split_and!; try done. intros u Hu Hin%list_elem_of_singleton. apply Hni. rewrite <- Hin.
      by apply list_elem_of_fmap_2, list_elem_of_fmap_2.
Qed.
End replay.
