(* ===== verification/LifecycleSafety.v ===== *)
(** * The lifecycle never panics

    Every pointer a command dereferences was checked on the way, and every
    increment [Mod] divides by is positive. *)

From S2P Require Import Prelude GoStd Externals EconomicId Account Instrument Transaction SourceEvent Normalization.
From S2P Require Import NormalizationProofs ProjectionSafety.
From S2P Require Import Snapshot Lifecycle LifecycleAggregate LifecycleProofs LifecycleTheorems.

Local Open Scope go_scope.

Lemma fail_if_Ok b c d u : fail_if b c d = Ok u <-> b = false.
Proof. destruct b, u; simpl; split; congruence. Qed.

(** Dereferences guarded by an earlier check of the same pointer. *)
Ltac guards :=
  repeat match goal with
  | Hg : reject _ _ = Ok _ |- _ => apply reject_Ok in Hg
  | Hg : fail_if _ _ _ = Ok _ |- _ => apply fail_if_Ok in Hg
  | Hg : required _ _ = Ok _ |- _ => apply required_Ok in Hg
  | Hg : deref _ = Ok _ |- _ => apply deref_Ok in Hg
  end; split_bools; simplify_eq.
Ltac guarded := match goal with |- safe (deref _) => apply safe_deref; guards; eauto end.

Section lifecycle_safety.
Context {E : Externals} {L : ExternalLaws}.

Lemma required_safe {A} (o : option A) msg : safe (required o msg).
Proof. destruct o; cbn; auto with safe. Qed.
Lemma fail_if_safe b c d : safe (fail_if b c d).
Proof. destruct b; cbn; auto with safe. Qed.
#[local] Hint Resolve required_safe fail_if_safe : safe.

Lemma account_json_safe v label : safe (Account.normalizeJSONObject v label).
Proof. unfold Account.normalizeJSONObject. solve_safe. Qed.
Lemma instrument_json_safe v label : safe (Instrument.normalizeJSONObject v label).
Proof. unfold Instrument.normalizeJSONObject. solve_safe. Qed.
Lemma snapshot_json_safe v label : safe (Snapshot.normalizeJSONObject v label).
Proof. unfold Snapshot.normalizeJSONObject. solve_safe. Qed.
#[local] Hint Resolve account_json_safe instrument_json_safe snapshot_json_safe : safe.

Lemma instrument_mechanic_safe q v : safe (instrument_mechanic q v).
Proof. unfold instrument_mechanic. solve_safe. Qed.
Lemma reference_decimal_safe name v : safe (validatePositiveReferenceDecimal name v).
Proof. unfold validatePositiveReferenceDecimal. solve_safe. Qed.
#[local] Hint Resolve instrument_mechanic_safe reference_decimal_safe : safe.

Lemma Account_Validate_safe a : safe (Account_Validate a).
Proof. unfold Account_Validate. solve_safe. Qed.
Lemma Instrument_Validate_safe i : safe (Instrument_Validate i).
Proof. unfold Instrument_Validate. solve_safe. Qed.
Lemma VenueContract_Validate_safe c : safe (VenueContract_Validate c).
Proof. unfold VenueContract_Validate. solve_safe. Qed.
Lemma OptionContractTerms_Validate_safe t : safe (OptionContractTerms_Validate t).
Proof. unfold OptionContractTerms_Validate. solve_safe. Qed.
Lemma EconomicSourceEvent_Validate_safe e : safe (EconomicSourceEvent_Validate e).
Proof. unfold EconomicSourceEvent_Validate. solve_safe. Qed.
#[local] Hint Resolve Account_Validate_safe Instrument_Validate_safe VenueContract_Validate_safe
  OptionContractTerms_Validate_safe EconomicSourceEvent_Validate_safe : safe.

(** ** Normalization *)

Lemma decimal_shape_safe label v : safe (validateEconomicDecimalShape label v).
Proof. unfold validateEconomicDecimalShape. solve_safe. Qed.
Lemma positive_decimal_safe label v : safe (validatePositiveEconomicDecimal label v).
Proof. unfold validatePositiveEconomicDecimal. solve_safe. apply decimal_shape_safe. Qed.
Lemma nonnegative_decimal_safe label v : safe (validateNonnegativeEconomicDecimal label v).
Proof. unfold validateNonnegativeEconomicDecimal. solve_safe. apply decimal_shape_safe. Qed.
Lemma inventory_account_safe c : safe (inventoryLedgerAccount c).
Proof. unfold inventoryLedgerAccount. solve_safe. Qed.
#[local] Hint Resolve decimal_shape_safe positive_decimal_safe nonnegative_decimal_safe inventory_account_safe : safe.

Lemma requiredCostPostings_safe n : safe (requiredCostPostings n).
Proof. unfold requiredCostPostings. solve_safe; guarded. Qed.
#[local] Hint Resolve requiredCostPostings_safe : safe.

Lemma optionalCostPostings_safe n : safe (optionalCostPostings n).
Proof. unfold optionalCostPostings. solve_safe. Qed.
#[local] Hint Resolve optionalCostPostings_safe : safe.

Lemma fillPostings_safe n : safe (fillPostings n).
Proof. unfold fillPostings. solve_safe; guarded. Qed.

Lemma costPostings_safe n : safe (costPostings n).
Proof. unfold costPostings. solve_safe. Qed.

Lemma settlement_references_safe n : is_Some n.(norm_Instrument) -> is_Some n.(norm_VenueContract) ->
  safe (validateSettlementReferences n).
Proof. unfold validateSettlementReferences. intros [i Hi] [c Hc]. solve_safe; guarded. Qed.

Lemma cashSettlementPostings_safe n : safe (cashSettlementPostings n).
Proof.
  unfold cashSettlementPostings. solve_safe; try guarded.
  guards. apply settlement_references_safe; eauto.
Qed.

Lemma physicalOptionPostings_safe n : is_Some n.(norm_SourceEvent) -> safe (physicalOptionPostings n).
Proof. unfold physicalOptionPostings. intros [source Hsource]. solve_safe; guarded. Qed.

Lemma expectedPostings_safe n : is_Some n.(norm_SourceEvent) -> safe (expectedPostings n).
Proof.
  intros Hs. unfold expectedPostings. destruct n.(norm_EventType);
    auto using fillPostings_safe, costPostings_safe, cashSettlementPostings_safe, physicalOptionPostings_safe with safe.
Qed.

Lemma materialize_postings_safe f id at_ k ps : safe (materialize_postings f id at_ k ps).
Proof.
  revert k. induction ps as [|p ps IH]; intros k; cbn [materialize_postings]; [auto with safe|].
  solve_safe. unfold materialize_posting. solve_safe.
Qed.

Lemma expectedTransaction_safe now n : is_Some n.(norm_SourceEvent) -> safe (expectedTransaction now n).
Proof.
  intros Hs. unfold expectedTransaction, newDeterministicTransaction, materializeTransaction.
  solve_safe; auto using expectedPostings_safe, safe_deref, normalizeJSONObject_safe, materialize_postings_safe,
    Transaction_Validate_safe.
Qed.

Lemma EconomicNormalization_Validate_safe now n : safe (EconomicNormalization_Validate now n).
Proof.
  unfold EconomicNormalization_Validate. solve_safe; try guarded.
  apply expectedTransaction_safe. guards. eauto.
Qed.

(** ** Snapshots *)

Lemma timestamp_safe t : safe (validateRequiredTimestamp t).
Proof. unfold validateRequiredTimestamp. solve_safe. Qed.
Lemma optional_timestamp_safe t : safe (validateOptionalTimestamp t).
Proof. unfold validateOptionalTimestamp. solve_safe. apply timestamp_safe. Qed.
Lemma optional_decimal_safe v : safe (validateOptionalDecimal v).
Proof. unfold validateOptionalDecimal. solve_safe. Qed.
#[local] Hint Resolve timestamp_safe optional_timestamp_safe optional_decimal_safe : safe.

Lemma splitDepth_safe levels bids asks seen : safe (splitDepth levels bids asks seen).
Proof. revert bids asks seen. induction levels as [|l ls IH]; intros; cbn [splitDepth]; solve_safe. Qed.
#[local] Hint Resolve splitDepth_safe : safe.

Lemma QuoteSnapshot_Validate_safe s : safe (QuoteSnapshot_Validate s).
Proof. unfold QuoteSnapshot_Validate, validateDepth. solve_safe. Qed.
Lemma allowed_statuses_safe vs : safe (normalizeAllowedStatuses vs).
Proof. induction vs as [|v vs IH]; cbn [normalizeAllowedStatuses]; solve_safe. Qed.
#[local] Hint Resolve QuoteSnapshot_Validate_safe allowed_statuses_safe : safe.

Lemma Assess_safe s at_ r : safe (Assess s at_ r).
Proof. unfold Assess. solve_safe; guarded. Qed.

Lemma as_failure_safe c d m : safe m -> safe (as_failure c d m).
Proof. by destruct m. Qed.
Lemma as_failure_Ok c d m u : as_failure c d m = Ok u -> m = Ok u.
Proof. by destruct m. Qed.
#[local] Hint Resolve as_failure_safe : safe.

Lemma eligibility_safe s i at_ : safe (ValidateInstrumentEligibility s i at_).
Proof. unfold ValidateInstrumentEligibility. solve_safe. Qed.

Lemma check_multiple_safe c d inc v : ~ (val inc == 0)%Q -> safe (check_multiple c d inc v).
Proof.
  intros Hinc. unfold check_multiple, Snapshot.isExactMultiple. destruct v; [|auto with safe].
  rewrite (proj2 (IsZero_false _)) by done. solve_safe.
Qed.

(** Ticks and lots of a validated contract are positive. *)
Lemma contract_increments c u : VenueContract_Validate c = Ok u ->
  (0 < val c.(vc_TickSize) /\ 0 < val c.(vc_LotSize))%Q.
Proof.
  unfold VenueContract_Validate. intros Hv. inv_ok Hv.
  match goal with Hf : for_each _ _ = Ok _ |- _ => apply for_each_Ok in Hf; rewrite !Forall_cons in Hf;
    destruct Hf as (Htick & Hlot & _) end.
  split; by eapply reference_positive.
Qed.

Lemma against_contract_safe s c : safe (ValidateAgainstVenueContract s c).
Proof.
  unfold ValidateAgainstVenueContract. solve_safe; try guarded.
  all: match goal with Hc : as_failure _ _ _ = Ok _ |- _ => apply as_failure_Ok, contract_increments in Hc as [? ?] end;
    apply check_multiple_safe; lra.
Qed.

Lemma AssessForExecution_safe s at_ r i c : safe (AssessForExecution s at_ r i c).
Proof.
  unfold AssessForExecution. solve_safe; [apply Assess_safe|apply eligibility_safe|apply against_contract_safe].
Qed.

(** ** Commands *)

Lemma json_object_safe v label : safe (validateJSONObject v label).
Proof. unfold validateJSONObject. solve_safe. Qed.
#[local] Hint Resolve json_object_safe AssessForExecution_safe EconomicNormalization_Validate_safe : safe.

Lemma newEvent_safe now i k p n input created : safe (newEvent now i k p n input created).
Proof. unfold newEvent. solve_safe. Qed.
Lemma Event_Validate_safe e : safe (Event_Validate e).
Proof. unfold Event_Validate. solve_safe. Qed.
Lemma Intent_Validate_safe i : safe (Intent_Validate i).
Proof. unfold Intent_Validate. solve_safe. Qed.
Lemma Order_Validate_safe o : safe (Order_Validate o).
Proof. unfold Order_Validate. solve_safe. Qed.
Lemma OrderBinding_Validate_safe b : safe (OrderBinding_Validate b).
Proof. unfold OrderBinding_Validate. solve_safe. Qed.
Lemma Fill_Validate_safe f : safe (Fill_Validate f).
Proof. unfold Fill_Validate. solve_safe. Qed.
Lemma order_prices_safe t l s tick : safe (validateOrderPrices t l s tick).
Proof. unfold validateOrderPrices. solve_safe. Qed.
#[local] Hint Resolve newEvent_safe Event_Validate_safe Intent_Validate_safe Order_Validate_safe
  OrderBinding_Validate_safe Fill_Validate_safe order_prices_safe : safe.

Lemma newOrderBinding_safe a o id created : safe (newOrderBinding a o id created).
Proof. unfold newOrderBinding. solve_safe. Qed.
Lemma fill_normalization_safe a id n : is_Some n.(norm_SourceEvent) -> is_Some a.(agg_Order) ->
  safe (validateFillNormalization a id n).
Proof. intros Hs Ho. unfold validateFillNormalization. solve_safe; by apply safe_deref. Qed.
#[local] Hint Resolve newOrderBinding_safe : safe.

Lemma fill_normalization_Ok a id n u : validateFillNormalization a id n = Ok u ->
  is_Some n.(norm_Transaction) /\ is_Some n.(norm_Quantity) /\ is_Some n.(norm_Price).
Proof. unfold validateFillNormalization. intros Hv. inv_ok Hv. facts. eauto. Qed.

Lemma Propose_safe now input : safe (Propose now input).
Proof. unfold Propose. solve_safe. Qed.

Lemma RecordFill_safe now now' a input : safe (RecordFill now now' a input).
Proof.
  unfold RecordFill. solve_safe.
  all: try match goal with Hv : validateFillNormalization _ _ _ = Ok _ |- _ =>
    apply fill_normalization_Ok in Hv as (? & ? & ?); by apply safe_deref end.
  all: try (guards; apply fill_normalization_safe; eauto; fail).
Qed.

Lemma issue_safe now now' a c : safe (issue now now' a c).
Proof.
  destruct c; cbn [issue]; try apply RecordFill_safe;
    unfold Allocate, ApproveRisk, RejectRisk, riskTransition, Route, Acknowledge, RequestCancel, ObserveOrderTerminal,
      FailReconciliation, newOrderContextEvent; solve_safe; apply safe_wrap; solve_safe.
Qed.

Lemma apply_fill_safe a t :
  (forall n, t.(tr_Normalization) = Some n -> is_Some n.(norm_SourceEvent)) -> safe (apply_fill a t).
Proof.
  intros Hn. unfold apply_fill. solve_safe.
  all: try match goal with Hv : wrap _ (validateFillNormalization _ _ _) = Ok _ |- _ =>
    apply wrap_Ok, fill_normalization_Ok in Hv as (? & ? & ?) end.
  all: guards; try (apply safe_wrap, fill_normalization_safe; eauto; fail); apply safe_deref; eauto.
Qed.

Lemma ApplyTransition_safe a t :
  (forall n, t.(tr_Normalization) = Some n -> is_Some n.(norm_SourceEvent)) -> safe (ApplyTransition a (Some t)).
Proof.
  intros Hn. unfold ApplyTransition. solve_safe; guards; try (by apply apply_fill_safe);
    unfold apply_allocated, apply_risk, apply_routed, apply_working, apply_cancel_requested, apply_terminal,
      apply_revision, apply_venue_failure; solve_safe.
Qed.

(** No command panics. [Propose] and every command, on any aggregate and
    any input, return a transition or an error; so does [ApplyTransition] on
    every transition whose normalization names its source event, as all
    transitions built by [RecordFill] do. *)
Theorem lifecycle_never_panics now now' input a c t :
  (forall n, t.(tr_Normalization) = Some n -> is_Some n.(norm_SourceEvent)) ->
  safe (Propose now input) /\ safe (issue now now' a c) /\ safe (ApplyTransition (Some a) (Some t)).
Proof. intros Hn. split; [apply Propose_safe|]. split; [apply issue_safe|by apply ApplyTransition_safe]. Qed.
End lifecycle_safety.
