(* ===== verification/SnapshotProofs.v ===== *)
(** * Quote snapshots: ordered books and sound execution assessments *)

From S2P Require Import Prelude GoStd Externals Instrument Snapshot.
From S2P Require Import Transaction SourceEvent Normalization NormalizationProofs Lifecycle LifecycleAggregate.
From S2P Require Import LifecycleProofs LifecycleTheorems LifecycleSafety.
From S2P Require Import Snapshot.

Local Open Scope go_scope.

Section snapshot_proofs.
Context {E : Externals} {L : ExternalLaws}.
Local Open Scope Q_scope.

Implicit Types (s : QuoteSnapshot) (l : DepthLevel).

(** ** The book *)

Definition price_above (a b : DepthLevel) : Prop := val b.(lvl_Price) < val a.(lvl_Price).
Definition price_below (a b : DepthLevel) : Prop := val a.(lvl_Price) < val b.(lvl_Price).

Lemma adjacent_sorted (f : dec -> dec -> bool) (R : DepthLevel -> DepthLevel -> Prop) `{!Transitive R} levels :
  (forall a b, f a.(lvl_Price) b.(lvl_Price) = true -> R a b) -> adjacent f levels = true -> StronglySorted R levels.
Proof.
  intros Hf Ha. apply Sorted_StronglySorted; [intros ? ? ?; apply transitivity|].
  induction levels as [|a [|b levels] IH]; [constructor|by repeat constructor|].
  cbn [adjacent] in Ha. apply andb_true_iff in Ha as [Hab Ha]. constructor; [by apply IH|]. constructor. by apply Hf.
Qed.

#[local] Instance price_above_trans : Transitive price_above.
Proof. unfold price_above. intros a b c ? ?. lra. Qed.
#[local] Instance price_below_trans : Transitive price_below.
Proof. unfold price_below. intros a b c ? ?. lra. Qed.

(** The levels after the split: bids first, asks after them. *)
Lemma splitDepth_shape levels bids asks seen bids' asks' :
  splitDepth levels bids asks seen = Ok (bids', asks') ->
  exists bs as_, levels = bs ++ as_ /\ bids' = bids ++ bs /\ asks' = asks ++ as_ /\ (seen = true -> bs = []) /\
    Forall (fun l => l.(lvl_Side) = DepthSideBid) bs /\ Forall (fun l => l.(lvl_Side) = DepthSideAsk) as_.
Proof.
  revert bids asks seen. induction levels as [|l levels IH]; intros bids asks seen; cbn [splitDepth].
  { intros [= <- <-]. exists [], []. rewrite !app_nil_r. by repeat split. }
  intros Hs. inv_ok Hs. destruct (_ ==? DepthSideAsk) eqn:Hask.
  - apply IH in Hs as (bs & as_ & -> & -> & -> & Hseen & Hb & Ha). rewrite (Hseen eq_refl) in *. split_bools.
    exists [], (l :: as_). rewrite !app_nil_r, <- app_assoc. repeat split; try done. by constructor.
  - apply IH in Hs as (bs & as_ & -> & -> & -> & Hseen & Hb & Ha).
    cbn [negb andb] in *. subst seen. exists (l :: bs), as_. rewrite <- app_assoc. split_bools.
    repeat match goal with Hx : _ && _ = false |- _ => apply andb_false_iff in Hx as [Hx|Hx] end; split_bools; try done.
    repeat split; try done. by constructor.
Qed.

(** The [i]-th level of a side carries the index [i]. *)
Definition indexed (levels : list DepthLevel) : Prop :=
  forall i l, levels !! i = Some l -> l.(lvl_Level) = Z.of_nat i.

Lemma indexed_snoc levels l : indexed levels -> l.(lvl_Level) = Z.of_nat (length levels) -> indexed (levels ++ [l]).
Proof.
  intros Hi Hl i l' [Hin|[? Hin]]%lookup_app_Some; [by apply Hi|].
  apply list_lookup_singleton_Some in Hin as [? <-]. rewrite Hl. f_equal. lia.
Qed.

Lemma splitDepth_indexed levels bids asks seen bids' asks' :
  splitDepth levels bids asks seen = Ok (bids', asks') -> indexed bids -> indexed asks -> indexed bids' /\ indexed asks'.
Proof.
  revert bids asks seen. induction levels as [|l levels IH]; intros bids asks seen; cbn [splitDepth].
  { by intros [= <- <-]. }
  intros Hs Hb Ha. inv_ok Hs. split_bools. destruct (_ ==? DepthSideAsk);
    (eapply IH; [exact Hs|..]); auto using indexed_snoc.
Qed.

Lemma snapshot_depth s u : QuoteSnapshot_Validate s = Ok u -> validateDepth s = Ok tt.
Proof.
  unfold QuoteSnapshot_Validate. intros Hv. inv_ok Hv.
  match goal with Hd : validateDepth s = Ok ?w |- _ => by destruct w end.
Qed.

(** An ordered, uncrossed book: the bids come first and strictly descend, the
    asks strictly ascend, no bid is above any ask, each side is within the
    ingestion ceiling, and the levels of a side are numbered from zero. *)
Record ordered_book (s : QuoteSnapshot) (bids asks : list DepthLevel) : Prop := {
  ob_depth : s.(snap_Depth) = bids ++ asks;
  ob_bids : Forall (fun l => l.(lvl_Side) = DepthSideBid) bids;
  ob_asks : Forall (fun l => l.(lvl_Side) = DepthSideAsk) asks;
  ob_descending : StronglySorted price_above bids;
  ob_ascending : StronglySorted price_below asks;
  ob_uncrossed b a : b ∈ bids -> a ∈ asks -> val b.(lvl_Price) <= val a.(lvl_Price);
  ob_ceiling : (length bids <= MaxDepthLevelsPerSide /\ length asks <= MaxDepthLevelsPerSide)%nat;
  ob_indexes : indexed bids /\ indexed asks;
}.

Lemma book_shape s u : QuoteSnapshot_Validate s = Ok u -> exists bids asks, ordered_book s bids asks.
Proof.
  intros Hv. apply snapshot_depth in Hv. unfold validateDepth in Hv.
  apply bind_Ok in Hv as ([bids asks] & Hsplit & Hv). inv_ok Hv. split_bools.
  pose proof (splitDepth_indexed _ _ _ _ _ _ Hsplit ltac:(done) ltac:(done)) as Hindexed.
  apply splitDepth_shape in Hsplit as (bs & as_ & Hd & -> & -> & _ & Hb & Ha). cbn [app] in *.
  assert (Hbs : StronglySorted price_above bs)
    by (eapply adjacent_sorted; [apply _| |eassumption]; intros l1 l2; apply GreaterThan_true).
  assert (Has : StronglySorted price_below as_)
    by (eapply adjacent_sorted; [apply _| |eassumption]; intros l1 l2; apply LessThan_true).
  exists bs, as_. split; try done; [|rewrite Nat.ltb_ge in *; lia].
  intros b a Hbin Hain. destruct bs as [|b0 bs]; [by apply elem_of_nil in Hbin|].
  destruct as_ as [|a0 as_]; [by apply elem_of_nil in Hain|]. dec_bools.
  assert (val b.(lvl_Price) <= val b0.(lvl_Price)).
  { apply StronglySorted_inv in Hbs as [_ Hall]. rewrite Forall_forall in Hall. apply elem_of_cons in Hbin as [-> |Hin]; [lra|].
    apply Qlt_le_weak. by apply Hall. }
  assert (val a0.(lvl_Price) <= val a.(lvl_Price)).
  { apply StronglySorted_inv in Has as [_ Hall]. rewrite Forall_forall in Hall. apply elem_of_cons in Hain as [-> |Hin]; [lra|].
    apply Qlt_le_weak. by apply Hall. }
  lra.
Qed.

(** ** Execution assessments *)

Definition on_grid (increment d : dec) : Prop := exists k : Z, val d == inject_Z k * val increment.

Lemma exact_grid increment d : Snapshot.isExactMultiple d increment = Ok true -> on_grid increment d.
Proof.
  unfold Snapshot.isExactMultiple. destruct (IsZero increment) eqn:Hz; [done|]. intros [= Hm]. dec_bools.
  destruct (Mod_spec d increment Hz) as (k & Hk & _). exists k. rewrite Hk, Hm. lra.
Qed.

Lemma check_grid code detail increment v :
  check_multiple code detail increment v = Ok tt -> forall d, v = Some d -> on_grid increment d.
Proof.
  intros Hc d ->. unfold check_multiple in Hc. inv_ok Hc. apply fail_if_Ok in Hc. split_bools. subst. by apply exact_grid.
Qed.

(** What the boundary has established about the observation. *)
Record executable_quote (s : QuoteSnapshot) (r : QuoteRequirements) (i : Instrument) (c : VenueContract)
    (at_ : Time) (q : QuoteAssessment) : Prop := {
  eq_evaluated : q.(qa_EvaluatedAt) = at_;
  eq_available : exists t, s.(snap_AvailableAt) = Some t /\ (instant s.(snap_ReceivedAt) <= instant t <= instant at_)%Z;
  eq_exchange x : s.(snap_ExchangeAt) = Some x -> (instant x <= instant s.(snap_ReceivedAt))%Z;
  eq_fresh : (0 < r.(qr_MaxAge))%Z -> exists x, s.(snap_ExchangeAt) = Some x /\ (TimeSub at_ x <= r.(qr_MaxAge))%Z;
  eq_instrument : i.(inst_ID) = s.(snap_InstrumentID) /\ i.(inst_Status) = StatusActive /\
    (forall x, i.(inst_Expiration) = Some x -> (instant at_ < instant x)%Z);
  eq_contract : s.(snap_VenueContractID) = Some c.(vc_ID) /\ c.(vc_InstrumentID) = s.(snap_InstrumentID) /\
    c.(vc_Venue) = s.(snap_Venue) /\ venueContractEffectiveAt c at_ = true /\
    venueContractEffectiveAt c (default s.(snap_ReceivedAt) s.(snap_ExchangeAt)) = true;
  eq_prices d : s.(snap_Bid) = Some d \/ s.(snap_Ask) = Some d -> on_grid c.(vc_TickSize) d;
  eq_sizes d : s.(snap_BidSize) = Some d \/ s.(snap_AskSize) = Some d -> on_grid c.(vc_LotSize) d;
  eq_depth l : l ∈ s.(snap_Depth) -> on_grid c.(vc_TickSize) l.(lvl_Price) /\ on_grid c.(vc_LotSize) l.(lvl_Size);
  eq_spread b a : s.(snap_Bid) = Some b -> s.(snap_Ask) = Some a ->
    exists d, q.(qa_Spread) = Some d /\ val d == val a - val b /\ 0 <= val d;
}.

Ltac guards' := guards; unfold After, Before in *;
  repeat match goal with
  | Hz : (_ <? _)%Z = false |- _ => apply Z.ltb_ge in Hz
  | Hz : (_ <? _)%Z = true |- _ => apply Z.ltb_lt in Hz
  end.

Lemma snapshot_times s u : QuoteSnapshot_Validate s = Ok u ->
  (forall t, s.(snap_AvailableAt) = Some t -> (instant s.(snap_ReceivedAt) <= instant t)%Z) /\
  (forall x, s.(snap_ExchangeAt) = Some x -> (instant x <= instant s.(snap_ReceivedAt))%Z) /\
  (forall b a, s.(snap_Bid) = Some b -> s.(snap_Ask) = Some a -> val b <= val a).
Proof.
  unfold QuoteSnapshot_Validate. intros Hv. inv_ok Hv. repeat split; intros; repeat match goal with
    | Heq : snap_AvailableAt s = Some _ |- _ => rewrite Heq in *; clear Heq
    | Heq : snap_ExchangeAt s = Some _ |- _ => rewrite Heq in *; clear Heq
    | Heq : snap_Bid s = Some _ |- _ => rewrite Heq in *; clear Heq
    | Heq : snap_Ask s = Some _ |- _ => rewrite Heq in *; clear Heq
    end; cbn [some_and] in *; guards'; [lia|lia|by dec_bools].
Qed.

Lemma assess_facts s asOf r q : Assess s asOf r = Ok q ->
  q.(qa_EvaluatedAt) = utc_micro asOf /\
  (exists t, s.(snap_AvailableAt) = Some t /\ (instant t <= instant (utc_micro asOf))%Z) /\
  ((0 < r.(qr_MaxAge))%Z -> exists x, s.(snap_ExchangeAt) = Some x /\ (TimeSub (utc_micro asOf) x <= r.(qr_MaxAge))%Z) /\
  q.(qa_Spread) = match s.(snap_Bid), s.(snap_Ask) with Some b, Some a => Some (Sub a b) | _, _ => None end /\
  exists u, QuoteSnapshot_Validate s = Ok u.
Proof.
  unfold Assess. intros Ha. inv_ok Ha. subst q.
  match goal with Hif : (if _ then _ else _) = Ok _ |- _ => rename Hif into Hage end.
  split; [done|]. split; [|split; [|split; [done|eauto]]].
  - guards'. eexists. split; [eassumption|]. lia.
  - intros Hpos. rewrite (proj2 (Z.ltb_lt _ _)) in Hage by done. inv_ok Hage. guards'.
    match goal with Hx : TimeSub _ <$> _ = Some _ |- _ => apply fmap_Some in Hx as (x' & Hx & ->) end. eauto.
Qed.

Lemma eligibility_facts s i at_ u : ValidateInstrumentEligibility s i at_ = Ok u ->
  i.(inst_ID) = s.(snap_InstrumentID) /\ i.(inst_Status) = StatusActive /\
  (forall x, i.(inst_Expiration) = Some x -> (instant (utc_micro at_) < instant x)%Z).
Proof.
  unfold ValidateInstrumentEligibility. intros He. inv_ok He. guards'. split; [done|]. split; [done|].
  intros x' Hx'. rewrite Hx' in *. cbn [some_and] in *. guards'. done.
Qed.

Lemma contract_facts s c u : ValidateAgainstVenueContract s c = Ok u ->
  (s.(snap_VenueContractID) = Some c.(vc_ID) /\ c.(vc_InstrumentID) = s.(snap_InstrumentID) /\
   c.(vc_Venue) = s.(snap_Venue) /\
   venueContractEffectiveAt c (default s.(snap_ReceivedAt) s.(snap_ExchangeAt)) = true) /\
  (forall d, s.(snap_Bid) = Some d \/ s.(snap_Ask) = Some d -> on_grid c.(vc_TickSize) d) /\
  (forall d, s.(snap_BidSize) = Some d \/ s.(snap_AskSize) = Some d -> on_grid c.(vc_LotSize) d) /\
  (forall l, l ∈ s.(snap_Depth) -> on_grid c.(vc_TickSize) l.(lvl_Price) /\ on_grid c.(vc_LotSize) l.(lvl_Size)).
Proof.
  unfold ValidateAgainstVenueContract. intros Hc. inv_ok Hc. guards'.
  repeat match goal with Hf : for_each _ _ = Ok _ |- _ => apply for_each_Ok in Hf end.
  rewrite !Forall_cons in *. rewrite Forall_forall in Hc.
  repeat match goal with Hand : _ /\ _ |- _ => destruct Hand end.
  repeat split; try done; try congruence.
  - intros d [Hd|Hd]; (eapply check_grid; [|exact Hd]; eassumption).
  - intros d [Hd|Hd]; (eapply check_grid; [|exact Hd]; eassumption).
  - match goal with Hl : l ∈ _ |- _ => specialize (Hc l Hl) end. inv_ok Hc.
    match goal with Hx : check_multiple AssessmentInvalidPriceTick _ _ _ = Ok ?w |- _ => destruct w end.
    eapply check_grid; eauto.
  - match goal with Hl : l ∈ _ |- _ => specialize (Hc l Hl) end. inv_ok Hc. eapply check_grid; eauto.
Qed.

Lemma executable_facts s asOf r i c q :
  AssessForExecution s asOf r i c = Ok q -> executable_quote s r i c (utc_micro asOf) q.
Proof.
  unfold AssessForExecution. intros Ha. inv_ok Ha. subst.
  match goal with Hx : Assess _ _ _ = Ok _ |- _ => apply assess_facts in Hx as (He & (t & Ht & Hle) & Hfresh & Hspread & u & Hv) end.
  match goal with Hx : ValidateInstrumentEligibility _ _ _ = Ok _ |- _ => apply eligibility_facts in Hx as (I1 & I2 & I3) end.
  match goal with Hx : ValidateAgainstVenueContract _ _ = Ok _ |- _ => apply contract_facts in Hx as ((C1 & C2 & C3 & C4) & C5 & C6 & C7) end.
  rewrite He, utc_micro_idemp in *. guards'. apply snapshot_times in Hv as (T1 & T2 & T3).
  split; try done; [eauto|].
  intros b a Hb Ha. rewrite Hspread, Hb, Ha. eexists. split; [done|]. specialize (T3 b a Hb Ha).
  rewrite val_Sub. split; [done|]. lra.
Qed.

(** C31: a quote that passes the execution boundary is executable at that
    instant: it had been received and published by then, no look-ahead; it is
    fresh when an age is required; the instrument is the right one, active and
    unexpired; the venue contract is the dated one bound to the quote and in
    force both when observed and when used; every quoted price is a multiple of
    its tick, every size of its lot; and the spread is the nonnegative
    difference of ask and bid. *)
Theorem execution_assessment s asOf r i c q :
  AssessForExecution s asOf r i c = Ok q -> executable_quote s r i c (utc_micro asOf) q.
Proof. apply executable_facts. Qed.
End snapshot_proofs.
