(* ===== verification/SimulationPolicy.v ===== *)
(** * Simulation policy (internal/simulation/policy.go)

    The content-addressed contract of the simulated venue: per asset class the
    order types and times in force it takes, the quotes it requires, how much of
    the displayed depth it may consume, its latency, calendar and fees. *)

From S2P Require Import Prelude GoStd GoText GoTime Externals EconomicId Instrument ProjectionPayload.
From S2P Require Import Snapshot Lifecycle.
From Stdlib Require Import Ascii.

Local Open Scope go_scope.

Definition PolicySchemaV1 : string := "simulation-policy-v1".
Definition policyArtifactIDDomain : string := "simulation-policy-artifact".

(** [^[a-z0-9][a-z0-9_.:-]{0,63}$] and [^[A-Za-z0-9][A-Za-z0-9_.:/-]{0,127}$] *)
Definition policyStatusTokenPattern (s : string) : bool :=
  matches_token (fun a => lower_letter a || decimal_digit a)
    (fun a => lower_letter a || decimal_digit a || one_of "_.:-" a) 63 s.
Definition policySessionLabelPattern (s : string) : bool :=
  matches_token (fun a => upper_letter a || lower_letter a || decimal_digit a)
    (fun a => upper_letter a || lower_letter a || decimal_digit a || one_of "_.:/-" a) 127 s.

(** ** Texts of the enumerations *)

Definition AssetClass_string (c : AssetClass) : string :=
  match c with
  | AssetClassUnknown => "unknown"
  | AssetClassEquity => "equity"
  | AssetClassETF => "etf"
  | AssetClassOption => "option"
  | AssetClassCryptoSpot => "crypto_spot"
  | AssetClassPredictionContract => "prediction_contract"
  | AssetClassFuture => "future"
  | AssetClassOther t => t
  end.
Definition AssetClass_of_string (t : string) : AssetClass :=
  if t ==? "unknown" then AssetClassUnknown
  else if t ==? "equity" then AssetClassEquity
  else if t ==? "etf" then AssetClassETF
  else if t ==? "option" then AssetClassOption
  else if t ==? "crypto_spot" then AssetClassCryptoSpot
  else if t ==? "prediction_contract" then AssetClassPredictionContract
  else if t ==? "future" then AssetClassFuture
  else AssetClassOther t.

Definition OrderType_string (o : OrderType) : string :=
  match o with
  | OrderMarket => "market"
  | OrderLimit => "limit"
  | OrderStop => "stop"
  | OrderStopLimit => "stop_limit"
  | OrderTypeOther t => t
  end.
Definition OrderType_of_string (t : string) : OrderType :=
  if t ==? "market" then OrderMarket
  else if t ==? "limit" then OrderLimit
  else if t ==? "stop" then OrderStop
  else if t ==? "stop_limit" then OrderStopLimit
  else OrderTypeOther t.

Definition TimeInForce_string (f : TimeInForce) : string :=
  match f with
  | TimeInForceDay => "day"
  | TimeInForceGTC => "gtc"
  | TimeInForceIOC => "ioc"
  | TimeInForceFOK => "fok"
  | TimeInForceGTD => "gtd"
  | TimeInForceOther t => t
  end.
Definition TimeInForce_of_string (t : string) : TimeInForce :=
  if t ==? "day" then TimeInForceDay
  else if t ==? "gtc" then TimeInForceGTC
  else if t ==? "ioc" then TimeInForceIOC
  else if t ==? "fok" then TimeInForceFOK
  else if t ==? "gtd" then TimeInForceGTD
  else TimeInForceOther t.

Inductive CalendarKind :=
  | CalendarExplicitSessions
  | CalendarContinuous24x7
  | CalendarOther (text : string).

#[global] Instance CalendarKind_eq_dec : EqDecision CalendarKind.
Proof. solve_decision. Defined.

Definition CalendarKind_string (k : CalendarKind) : string :=
  match k with
  | CalendarExplicitSessions => "explicit_sessions"
  | CalendarContinuous24x7 => "continuous_24x7"
  | CalendarOther t => t
  end.
Definition CalendarKind_of_string (t : string) : CalendarKind :=
  if t ==? "explicit_sessions" then CalendarExplicitSessions
  else if t ==? "continuous_24x7" then CalendarContinuous24x7
  else CalendarOther t.

(** ** The structs of the canonical JSON *)

Record canonicalQuoteRequirements := MkCanonicalQuoteRequirements {
  cqr_RequireSource : bool;
  cqr_RequireVenueContract : bool;
  cqr_RequireBid : bool;
  cqr_RequireAsk : bool;
  cqr_RequireBidDepth : bool;
  cqr_RequireAskDepth : bool;
  cqr_RequireMarketStatus : bool;
  cqr_RequireSessionStatus : bool;
  cqr_AllowedMarketStatuses : list string;
  cqr_AllowedSessionStatuses : list string;
  cqr_MaxAgeNanoseconds : Z;
}.

Record canonicalSession := MkCanonicalSession {
  cses_Label : string;
  cses_OpenAt : string;
  cses_CloseAt : string;
}.

Record canonicalCalendar := MkCanonicalCalendar {
  ccal_Kind : string;
  ccal_Sessions : list canonicalSession;
}.

Record canonicalFees := MkCanonicalFees {
  cfee_PerOrder : string;
  cfee_PerUnit : string;
  cfee_NotionalBPS : string;
  cfee_Scale : Z;
}.

Record canonicalAssetPolicy := MkCanonicalAssetPolicy {
  casset_AssetClass : string;
  casset_OrderTypes : list string;
  casset_TimeInForce : list string;
  casset_QuoteRequirements : canonicalQuoteRequirements;
  casset_MaxDepthParticipation : string;
  casset_FixedLatencyNanoseconds : Z;
  casset_Calendar : canonicalCalendar;
  casset_Fees : canonicalFees;
}.

Record canonicalPolicy := MkCanonicalPolicy {
  cpol_Schema : string;
  cpol_Assets : list canonicalAssetPolicy;
}.

Section policy.
Context {E : Externals}.
(** [decoder.Decode] into a [canonicalPolicy] with unknown fields disallowed:
    the value and the unread rest; [None] is an error. *)
Context (decodePolicy : string -> option (canonicalPolicy * string)).

(** ** Records *)

Record SessionWindow := MkSessionWindow {
  ses_Label : string;
  ses_OpenAt : Time;
  ses_CloseAt : Time;
}.

Record CalendarPolicy := MkCalendarPolicy {
  cal_Kind : CalendarKind;
  cal_Sessions : list SessionWindow;
}.

Record FeePolicy := MkFeePolicy {
  fee_PerOrder : dec;
  fee_PerUnit : dec;
  fee_NotionalBPS : dec;
  fee_Scale : Z;
}.

Record AssetPolicy := MkAssetPolicy {
  asset_AssetClass : AssetClass;
  asset_OrderTypes : list OrderType;
  asset_TimeInForce : list TimeInForce;
  asset_QuoteRequirements : QuoteRequirements;
  asset_MaxDepthParticipation : dec;
  asset_FixedLatency : Duration;
  asset_Calendar : CalendarPolicy;
  asset_Fees : FeePolicy;
}.

Record PolicyInput := MkPolicyInput {
  polin_Schema : string;
  polin_Assets : list AssetPolicy;
}.

Record Policy := MkPolicy {
  pol_schema : string;
  pol_assets : list AssetPolicy;
  pol_canonicalBytes : string;
  pol_digest : string;
  pol_version : string;
  pol_artifactID : UUID;
}.

Record PolicyArtifact := MkPolicyArtifact {
  art_ID : UUID;
  art_Schema : string;
  art_Version : string;
  art_SHA256 : string;
  art_CanonicalBytes : string;
  art_CreatedAt : Time;
}.

(** ** Validators *)

Definition validatePolicyTime (value : Time) : outcome unit :=
  reject (IsZeroTime value || negb value.(location_utc) || negb (TimeEqual value (TruncateMicro value)))
    "simulation policy %s time must use UTC microsecond precision".

Definition validatePolicyDecimalShape (value : dec) : outcome unit :=
  reject (negb (Equal value (Round value 12))) "simulation policy %s supports at most 12 decimal places" ;;
  reject (26 <? NumDigits (Abs value) + Exponent value)%Z "simulation policy %s exceeds exact decimal magnitude".

Definition validatePositivePolicyDecimal (value : dec) : outcome unit :=
  reject (negb (IsPositive value)) "simulation policy %s must be positive" ;;
  validatePolicyDecimalShape value.

Definition validateNonnegativePolicyDecimal (value : dec) : outcome unit :=
  reject (IsNegative value) "simulation policy %s cannot be negative" ;;
  validatePolicyDecimalShape value.

(** ** Normalization *)

Definition supportedSimulationAsset (value : AssetClass) : bool :=
  match value with
  | AssetClassEquity | AssetClassETF | AssetClassOption | AssetClassCryptoSpot | AssetClassPredictionContract => true
  | _ => false
  end.

(** The loop that refuses unsupported and repeated values; [seen] is the set. *)
Fixpoint check_distinct {A} `{EqDecision A} (supported : A -> bool) (unsupported duplicated : string) (seen : list A)
    (values : list A) : outcome unit :=
  match values with
  | [] => Ok tt
  | value :: rest =>
      reject (negb (supported value)) unsupported ;;
      reject (bool_decide (value ∈ seen)) duplicated ;;
      check_distinct supported unsupported duplicated (value :: seen) rest
  end.

Definition orderTypeLess (left right : OrderType) : bool := string_lt (OrderType_string left) (OrderType_string right).
Definition timeInForceLess (left right : TimeInForce) : bool :=
  string_lt (TimeInForce_string left) (TimeInForce_string right).

Definition normalizeOrderTypes (values : list OrderType) : outcome (list OrderType) :=
  reject (length values =? 0)%nat "at least one order type is required" ;;
  check_distinct (fun value => (value ==? OrderMarket) || (value ==? OrderLimit))
    "order type %q is unsupported" "order type %q is duplicated" [] values ;;
  Ok (sort_slice orderTypeLess values).

Definition normalizeTimeInForce (values : list TimeInForce) : outcome (list TimeInForce) :=
  reject (length values =? 0)%nat "at least one time in force is required" ;;
  check_distinct
    (fun value => match value with
                  | TimeInForceDay | TimeInForceGTC | TimeInForceIOC | TimeInForceFOK => true
                  | _ => false
                  end)
    "time in force %q is unsupported" "time in force %q is duplicated" [] values ;;
  Ok (sort_slice timeInForceLess values).

(** The loop over the statuses: repeated ones are dropped. *)
Fixpoint collect_statuses (values : list string) (seen : list string) : outcome (list string) :=
  match values with
  | [] => Ok []
  | value :: rest =>
      let normalized := ToLower (TrimSpace value) in
      reject (normalized ==? "") "allowed %s status cannot be empty" ;;
      reject (negb (policyStatusTokenPattern normalized)) "allowed %s status %q is not a canonical token" ;;
      if bool_decide (normalized ∈ seen) then collect_statuses rest seen
      else result ← collect_statuses rest (normalized :: seen) ; Ok (normalized :: result)
  end.

Definition normalizeStatuses (values : list string) : outcome (list string) :=
  reject (length values =? 0)%nat "at least one allowed %s status is required" ;;
  result ← collect_statuses values [] ;
  Ok (sort_slice string_lt result).

Definition normalizeQuoteRequirements (input : QuoteRequirements) : outcome QuoteRequirements :=
  reject (negb input.(qr_RequireSource) || negb input.(qr_RequireVenueContract) || negb input.(qr_RequireBid) ||
          negb input.(qr_RequireAsk) || negb input.(qr_RequireBidDepth) || negb input.(qr_RequireAskDepth) ||
          negb input.(qr_RequireMarketStatus) || negb input.(qr_RequireSessionStatus))
    "source, venue contract, bid, ask, both depth sides, and both statuses are required" ;;
  reject (input.(qr_MaxAge) <=? 0)%Z "positive maximum quote age is required" ;;
  marketStatuses ← normalizeStatuses input.(qr_AllowedMarketStatuses) ;
  sessionStatuses ← normalizeStatuses input.(qr_AllowedSessionStatuses) ;
  Ok {| qr_RequireSource := input.(qr_RequireSource); qr_RequireVenueContract := input.(qr_RequireVenueContract);
        qr_RequireBid := input.(qr_RequireBid); qr_RequireAsk := input.(qr_RequireAsk);
        qr_RequireBidDepth := input.(qr_RequireBidDepth); qr_RequireAskDepth := input.(qr_RequireAskDepth);
        qr_RequireMarketStatus := input.(qr_RequireMarketStatus);
        qr_RequireSessionStatus := input.(qr_RequireSessionStatus);
        qr_AllowedMarketStatuses := marketStatuses; qr_AllowedSessionStatuses := sessionStatuses;
        qr_MaxAge := input.(qr_MaxAge) |}.

(** The loop over the sessions, with their labels trimmed. *)
Fixpoint check_sessions (sessions : list SessionWindow) (labels : list string) : outcome (list SessionWindow) :=
  match sessions with
  | [] => Ok []
  | session :: rest =>
      let label := TrimSpace session.(ses_Label) in
      reject (label ==? "") "session label is required" ;;
      reject (negb (policySessionLabelPattern label)) "session label %q is not a canonical token" ;;
      reject (bool_decide (label ∈ labels)) "session label %q is duplicated" ;;
      validatePolicyTime session.(ses_OpenAt) ;;
      validatePolicyTime session.(ses_CloseAt) ;;
      reject (negb (After session.(ses_CloseAt) session.(ses_OpenAt))) "session %q close must follow open" ;;
      sessions' ← check_sessions rest (label :: labels) ;
      Ok (MkSessionWindow label session.(ses_OpenAt) session.(ses_CloseAt) :: sessions')
  end.

Definition sessionLess (left right : SessionWindow) : bool :=
  if TimeEqual left.(ses_OpenAt) right.(ses_OpenAt) then string_lt left.(ses_Label) right.(ses_Label)
  else Before left.(ses_OpenAt) right.(ses_OpenAt).

(** [sessions[index].OpenAt.Before(sessions[index-1].CloseAt)] for some index. *)
Fixpoint sessions_overlap (sessions : list SessionWindow) : bool :=
  match sessions with
  | previous :: ((session :: _) as rest) =>
      Before session.(ses_OpenAt) previous.(ses_CloseAt) || sessions_overlap rest
  | _ => false
  end.

Definition normalizeCalendar (input : CalendarPolicy) (timeInForce : list TimeInForce) : outcome CalendarPolicy :=
  match input.(cal_Kind) with
  | CalendarContinuous24x7 =>
      reject (negb (length input.(cal_Sessions) =? 0)%nat) "continuous 24/7 calendar cannot contain explicit sessions" ;;
      reject (existsb (fun value => value ==? TimeInForceDay) timeInForce)
        "continuous 24/7 calendar cannot support DAY" ;;
      Ok (MkCalendarPolicy CalendarContinuous24x7 [])
  | CalendarExplicitSessions =>
      reject (length input.(cal_Sessions) =? 0)%nat "explicit calendar requires at least one session" ;;
      sessions ← check_sessions input.(cal_Sessions) [] ;
      let sessions := sort_slice sessionLess sessions in
      reject (sessions_overlap sessions) "sessions %q and %q overlap" ;;
      Ok (MkCalendarPolicy CalendarExplicitSessions sessions)
  | CalendarOther _ => Err (Errorf "calendar kind %q is invalid")
  end.

(** Ranged over a map: the order of the three decimals only selects the error. *)
Definition normalizeFees (input : FeePolicy) : outcome FeePolicy :=
  for_each validateNonnegativePolicyDecimal
    [input.(fee_PerOrder); input.(fee_PerUnit); input.(fee_NotionalBPS)] ;;
  reject ((input.(fee_Scale) <? 0)%Z || (12 <? input.(fee_Scale))%Z) "fee scale must be between 0 and 12" ;;
  Ok input.

Definition normalizeAssetPolicy (input : AssetPolicy) : outcome AssetPolicy :=
  reject (negb (supportedSimulationAsset input.(asset_AssetClass))) "asset class is unsupported" ;;
  orderTypes ← normalizeOrderTypes input.(asset_OrderTypes) ;
  timeInForce ← normalizeTimeInForce input.(asset_TimeInForce) ;
  requirements ← normalizeQuoteRequirements input.(asset_QuoteRequirements) ;
  validatePositivePolicyDecimal input.(asset_MaxDepthParticipation) ;;
  reject (GreaterThan input.(asset_MaxDepthParticipation) (NewFromInt 1))
    "maximum depth participation cannot exceed one" ;;
  reject (input.(asset_FixedLatency) <? 0)%Z "fixed latency cannot be negative" ;;
  calendar ← normalizeCalendar input.(asset_Calendar) timeInForce ;
  fees ← normalizeFees input.(asset_Fees) ;
  Ok {| asset_AssetClass := input.(asset_AssetClass); asset_OrderTypes := orderTypes;
        asset_TimeInForce := timeInForce; asset_QuoteRequirements := requirements;
        asset_MaxDepthParticipation := input.(asset_MaxDepthParticipation);
        asset_FixedLatency := input.(asset_FixedLatency); asset_Calendar := calendar; asset_Fees := fees |}.

(** ** Canonical JSON *)

Definition canonicalAsset (asset : AssetPolicy) : canonicalAssetPolicy :=
  let q := asset.(asset_QuoteRequirements) in {|
  casset_AssetClass := AssetClass_string asset.(asset_AssetClass);
  casset_OrderTypes := OrderType_string <$> asset.(asset_OrderTypes);
  casset_TimeInForce := TimeInForce_string <$> asset.(asset_TimeInForce);
  casset_QuoteRequirements := {|
    cqr_RequireSource := q.(qr_RequireSource); cqr_RequireVenueContract := q.(qr_RequireVenueContract);
    cqr_RequireBid := q.(qr_RequireBid); cqr_RequireAsk := q.(qr_RequireAsk);
    cqr_RequireBidDepth := q.(qr_RequireBidDepth); cqr_RequireAskDepth := q.(qr_RequireAskDepth);
    cqr_RequireMarketStatus := q.(qr_RequireMarketStatus); cqr_RequireSessionStatus := q.(qr_RequireSessionStatus);
    cqr_AllowedMarketStatuses := q.(qr_AllowedMarketStatuses);
    cqr_AllowedSessionStatuses := q.(qr_AllowedSessionStatuses); cqr_MaxAgeNanoseconds := q.(qr_MaxAge) |};
  casset_MaxDepthParticipation := DecimalString asset.(asset_MaxDepthParticipation);
  casset_FixedLatencyNanoseconds := asset.(asset_FixedLatency);
  casset_Calendar := {|
    ccal_Kind := CalendarKind_string asset.(asset_Calendar).(cal_Kind);
    ccal_Sessions := (fun session => MkCanonicalSession session.(ses_Label) (format_micro session.(ses_OpenAt))
                                       (format_micro session.(ses_CloseAt))) <$> asset.(asset_Calendar).(cal_Sessions) |};
  casset_Fees := {|
    cfee_PerOrder := DecimalString asset.(asset_Fees).(fee_PerOrder);
    cfee_PerUnit := DecimalString asset.(asset_Fees).(fee_PerUnit);
    cfee_NotionalBPS := DecimalString asset.(asset_Fees).(fee_NotionalBPS);
    cfee_Scale := asset.(asset_Fees).(fee_Scale) |} |}.

Definition json_strings (values : list string) : string := json_slice (json_marshal_string <$> values).

Definition marshal_requirements (q : canonicalQuoteRequirements) : string :=
  json_struct
    [("require_source", json_bool q.(cqr_RequireSource));
     ("require_venue_contract", json_bool q.(cqr_RequireVenueContract));
     ("require_bid", json_bool q.(cqr_RequireBid)); ("require_ask", json_bool q.(cqr_RequireAsk));
     ("require_bid_depth", json_bool q.(cqr_RequireBidDepth)); ("require_ask_depth", json_bool q.(cqr_RequireAskDepth));
     ("require_market_status", json_bool q.(cqr_RequireMarketStatus));
     ("require_session_status", json_bool q.(cqr_RequireSessionStatus));
     ("allowed_market_statuses", json_strings q.(cqr_AllowedMarketStatuses));
     ("allowed_session_statuses", json_strings q.(cqr_AllowedSessionStatuses));
     ("max_age_nanoseconds", json_int q.(cqr_MaxAgeNanoseconds))].

Definition marshal_session (s : canonicalSession) : string :=
  json_struct [str "label" s.(cses_Label); str "open_at" s.(cses_OpenAt); str "close_at" s.(cses_CloseAt)].

Definition marshal_asset (a : canonicalAssetPolicy) : string :=
  json_struct
    [str "asset_class" a.(casset_AssetClass); ("order_types", json_strings a.(casset_OrderTypes));
     ("time_in_force", json_strings a.(casset_TimeInForce));
     ("quote_requirements", marshal_requirements a.(casset_QuoteRequirements));
     str "max_depth_participation" a.(casset_MaxDepthParticipation);
     ("fixed_latency_nanoseconds", json_int a.(casset_FixedLatencyNanoseconds));
     ("calendar", json_struct [str "kind" a.(casset_Calendar).(ccal_Kind);
                               ("sessions", json_slice (marshal_session <$> a.(casset_Calendar).(ccal_Sessions)))]);
     ("fees", json_struct [str "per_order" a.(casset_Fees).(cfee_PerOrder); str "per_unit" a.(casset_Fees).(cfee_PerUnit);
                           str "notional_bps" a.(casset_Fees).(cfee_NotionalBPS);
                           ("scale", json_int a.(casset_Fees).(cfee_Scale))])].

Definition marshal_policy (p : canonicalPolicy) : string :=
  json_struct [str "schema" p.(cpol_Schema); ("assets", json_slice (marshal_asset <$> p.(cpol_Assets)))].

(** ** NewPolicy *)

(** The loop over the assets; [seen] is [seenAssets]. *)
Fixpoint normalize_assets (assets : list AssetPolicy) (seen : list AssetClass) : outcome (list AssetPolicy) :=
  match assets with
  | [] => Ok []
  | candidate :: rest =>
      reject (bool_decide (candidate.(asset_AssetClass) ∈ seen)) "simulation policy asset class %q is duplicated" ;;
      normalized ← wrap "simulation policy asset %q: %w" (normalizeAssetPolicy candidate) ;
      assets' ← normalize_assets rest (candidate.(asset_AssetClass) :: seen) ;
      Ok (normalized :: assets')
  end.

Definition assetLess (left right : AssetPolicy) : bool :=
  string_lt (AssetClass_string left.(asset_AssetClass)) (AssetClass_string right.(asset_AssetClass)).

Definition NewPolicy (input : PolicyInput) : outcome Policy :=
  let schema := TrimSpace input.(polin_Schema) in
  reject (schema !=? PolicySchemaV1) "simulation policy schema must be %q" ;;
  reject (length input.(polin_Assets) =? 0)%nat "simulation policy requires at least one asset policy" ;;
  assets ← normalize_assets input.(polin_Assets) [] ;
  let assets := sort_slice assetLess assets in
  let canonicalBytes := marshal_policy (MkCanonicalPolicy schema (canonicalAsset <$> assets)) in
  let digest := EncodeToString (Sum256 canonicalBytes) in
  let version := (schema +:+ "@sha256:" +:+ digest)%string in
  Ok {| pol_schema := schema; pol_assets := assets; pol_canonicalBytes := canonicalBytes; pol_digest := digest;
        pol_version := version; pol_artifactID := DeterministicUUID policyArtifactIDDomain [version] |}.

(** ** Accessors, on a possibly nil policy *)

Definition Policy_Schema (policy : option Policy) : string :=
  match policy with None => "" | Some p => p.(pol_schema) end.
Definition Policy_Version (policy : option Policy) : string :=
  match policy with None => "" | Some p => p.(pol_version) end.
Definition Policy_Digest (policy : option Policy) : string :=
  match policy with None => "" | Some p => p.(pol_digest) end.
Definition Policy_ArtifactID (policy : option Policy) : UUID :=
  match policy with None => Nil | Some p => p.(pol_artifactID) end.
Definition Policy_CanonicalBytes (policy : option Policy) : string :=
  match policy with None => "" | Some p => p.(pol_canonicalBytes) end.

(** The second result of the Go method is whether the class was found. *)
Definition Policy_AssetPolicy (policy : option Policy) (assetClass : AssetClass) : option AssetPolicy :=
  policy ≫= fun p => List.find (fun candidate => candidate.(asset_AssetClass) ==? assetClass) p.(pol_assets).

Definition in_session (t : Time) (session : SessionWindow) : bool :=
  negb (Before t session.(ses_OpenAt)) && Before t session.(ses_CloseAt).

Definition RouteSession (policy : option Policy) (assetClass : AssetClass) (routedAt : Time) :
    outcome (option SessionWindow) :=
  match Policy_AssetPolicy policy assetClass with
  | None => Err (Errorf "simulation policy has no asset policy for %q")
  | Some asset =>
      validatePolicyTime routedAt ;;
      if asset.(asset_Calendar).(cal_Kind) ==? CalendarContinuous24x7 then Ok None
      else match List.find (in_session routedAt) asset.(asset_Calendar).(cal_Sessions) with
           | Some session => Ok (Some session)
           | None => Err (Errorf "simulation route time %s is outside explicit sessions for %q")
           end
  end.

(** ** FillFee *)

Definition raw_fee (fees : FeePolicy) (quantity price multiplier : dec) (firstFill : bool) : outcome dec :=
  let fee := Mul fees.(fee_PerUnit) quantity in
  let fee := if firstFill then Add fee fees.(fee_PerOrder) else fee in
  notionalFee ← checked_Div (Mul (Mul (Mul price quantity) multiplier) fees.(fee_NotionalBPS)) (NewFromInt 10000) ;
  Ok (Round (Add fee notionalFee) fees.(fee_Scale)).

Definition FillFee (policy : option Policy) (assetClass : AssetClass) (quantity price multiplier : dec)
    (firstFill : bool) : outcome (option dec) :=
  match Policy_AssetPolicy policy assetClass with
  | None => Err (Errorf "simulation policy has no asset policy for %q")
  | Some asset =>
      validatePositivePolicyDecimal quantity ;;
      validateNonnegativePolicyDecimal price ;;
      validatePositivePolicyDecimal multiplier ;;
      fee ← raw_fee asset.(asset_Fees) quantity price multiplier firstFill ;
      if IsZero fee then Ok None
      else validatePositivePolicyDecimal fee ;; Ok (Some fee)
  end.

(** ** The durable artifact *)

Definition PolicyArtifact_Validate (artifact : PolicyArtifact) : outcome unit :=
  reject (artifact.(art_ID) ==? Nil) "simulation policy artifact ID is required" ;;
  reject (artifact.(art_Schema) !=? PolicySchemaV1) "simulation policy artifact schema must be %q" ;;
  reject (negb (String.length artifact.(art_SHA256) =? 64)%nat ||
          (artifact.(art_SHA256) !=? ToLower artifact.(art_SHA256)))
    "simulation policy artifact SHA-256 is invalid" ;;
  reject (negb (hex_decodes artifact.(art_SHA256))) "simulation policy artifact SHA-256 is invalid: %w" ;;
  reject ((String.length artifact.(art_CanonicalBytes) =? 0)%nat || negb (json_valid artifact.(art_CanonicalBytes)))
    "simulation policy artifact canonical bytes must be valid JSON" ;;
  reject (is_nil (json_unmarshal artifact.(art_CanonicalBytes) ≫= json_object_size))
    "simulation policy artifact canonical bytes must be a JSON object" ;;
  let digest := EncodeToString (Sum256 artifact.(art_CanonicalBytes)) in
  reject ((artifact.(art_SHA256) !=? digest) ||
          (artifact.(art_Version) !=? (artifact.(art_Schema) +:+ "@sha256:" +:+ digest)%string))
    "simulation policy artifact version or digest does not match canonical bytes" ;;
  reject (artifact.(art_ID) !=? DeterministicUUID policyArtifactIDDomain [artifact.(art_Version)])
    "simulation policy artifact ID does not match its version" ;;
  validatePolicyTime artifact.(art_CreatedAt).

(** [now] is what [time.Now()] returns. *)
Definition NewArtifact (now : Time) (policy : option Policy) (createdAt : Time) : outcome PolicyArtifact :=
  match policy with
  | None => Err (Errorf "simulation policy is required")
  | Some p =>
      reject (p.(pol_artifactID) ==? Nil) "simulation policy is required" ;;
      let createdAt := utc_micro createdAt in
      let createdAt := if IsZeroTime createdAt then utc_micro now else createdAt in
      let artifact := {|
        art_ID := p.(pol_artifactID); art_Schema := p.(pol_schema); art_Version := p.(pol_version);
        art_SHA256 := p.(pol_digest); art_CanonicalBytes := p.(pol_canonicalBytes); art_CreatedAt := createdAt |} in
      PolicyArtifact_Validate artifact ;;
      Ok artifact
  end.

Definition decodeCanonicalPolicy (value : string) : outcome canonicalPolicy :=
  match decodePolicy value with
  | None => Err (Errorf "decode canonical simulation policy: %w")
  | Some (decoded, rest) =>
      reject (negb (json_eof rest)) "decode canonical simulation policy: trailing JSON value" ;;
      Ok decoded
  end.

(** [decimal.NewFromString] and [time.Parse] with the error of the caller. *)
Definition parse_decimal (text msg : string) : outcome dec :=
  match NewFromString text with Some d => Ok d | None => Err (Errorf msg) end.
Definition parse_time (text msg : string) : outcome Time :=
  match parse_micro text with Some t => Ok t | None => Err (Errorf msg) end.

Definition session_from_canonical (session : canonicalSession) : outcome SessionWindow :=
  openAt ← parse_time session.(cses_OpenAt) "parse session open: %w" ;
  closeAt ← parse_time session.(cses_CloseAt) "parse session close: %w" ;
  Ok (MkSessionWindow session.(cses_Label) openAt closeAt).

Definition asset_from_canonical (asset : canonicalAssetPolicy) : outcome AssetPolicy :=
  participation ← parse_decimal asset.(casset_MaxDepthParticipation) "parse maximum depth participation: %w" ;
  perOrder ← parse_decimal asset.(casset_Fees).(cfee_PerOrder) "parse per-order fee: %w" ;
  perUnit ← parse_decimal asset.(casset_Fees).(cfee_PerUnit) "parse per-unit fee: %w" ;
  notionalBPS ← parse_decimal asset.(casset_Fees).(cfee_NotionalBPS) "parse notional basis points: %w" ;
  sessions ← map_outcome session_from_canonical asset.(casset_Calendar).(ccal_Sessions) ;
  let q := asset.(casset_QuoteRequirements) in
  Ok {| asset_AssetClass := AssetClass_of_string asset.(casset_AssetClass);
        asset_OrderTypes := OrderType_of_string <$> asset.(casset_OrderTypes);
        asset_TimeInForce := TimeInForce_of_string <$> asset.(casset_TimeInForce);
        asset_QuoteRequirements := {|
          qr_RequireSource := q.(cqr_RequireSource); qr_RequireVenueContract := q.(cqr_RequireVenueContract);
          qr_RequireBid := q.(cqr_RequireBid); qr_RequireAsk := q.(cqr_RequireAsk);
          qr_RequireBidDepth := q.(cqr_RequireBidDepth); qr_RequireAskDepth := q.(cqr_RequireAskDepth);
          qr_RequireMarketStatus := q.(cqr_RequireMarketStatus);
          qr_RequireSessionStatus := q.(cqr_RequireSessionStatus);
          qr_AllowedMarketStatuses := q.(cqr_AllowedMarketStatuses);
          qr_AllowedSessionStatuses := q.(cqr_AllowedSessionStatuses); qr_MaxAge := q.(cqr_MaxAgeNanoseconds) |};
        asset_MaxDepthParticipation := participation; asset_FixedLatency := asset.(casset_FixedLatencyNanoseconds);
        asset_Calendar := MkCalendarPolicy (CalendarKind_of_string asset.(casset_Calendar).(ccal_Kind)) sessions;
        asset_Fees := MkFeePolicy perOrder perUnit notionalBPS asset.(casset_Fees).(cfee_Scale) |}.

Definition policyInputFromCanonical (value : canonicalPolicy) : outcome PolicyInput :=
  assets ← map_outcome asset_from_canonical value.(cpol_Assets) ;
  Ok (MkPolicyInput value.(cpol_Schema) assets).

Definition PolicyFromArtifact (artifact : PolicyArtifact) : outcome Policy :=
  wrap "restore simulation policy artifact: %w" (PolicyArtifact_Validate artifact) ;;
  canonical ← wrap "restore simulation policy artifact: %w" (decodeCanonicalPolicy artifact.(art_CanonicalBytes)) ;
  input ← wrap "restore simulation policy artifact: %w" (policyInputFromCanonical canonical) ;
  restored ← wrap "restore simulation policy artifact: %w" (NewPolicy input) ;
  reject ((Policy_ArtifactID (Some restored) !=? artifact.(art_ID)) ||
          (Policy_Schema (Some restored) !=? artifact.(art_Schema)) ||
          (Policy_Version (Some restored) !=? artifact.(art_Version)) ||
          (Policy_Digest (Some restored) !=? artifact.(art_SHA256)) ||
          (Policy_CanonicalBytes (Some restored) !=? artifact.(art_CanonicalBytes)))
    "restore simulation policy artifact: canonical bytes or identity do not match" ;;
  Ok restored.

Definition SamePolicyArtifactPayload (left right : option PolicyArtifact) : bool :=
  match left, right with
  | Some l, Some r =>
      (l.(art_ID) ==? r.(art_ID)) && (l.(art_Schema) ==? r.(art_Schema)) && (l.(art_Version) ==? r.(art_Version)) &&
      (l.(art_SHA256) ==? r.(art_SHA256)) && (l.(art_CanonicalBytes) ==? r.(art_CanonicalBytes))
  | _, _ => false
  end.
End policy.
