(* ===== verification/SimulationFill.v ===== *)
(** * Simulated fills and their evidence
    (internal/simulation/evidence.go, internal/simulation/fill.go)

    The canonical JSON the simulator stores for an observation and for a fill,
    the identities of its source events, and the construction of one fill: fee,
    evidence, raw source event, normalization, lifecycle transition. *)

From S2P Require Import Prelude GoStd GoText GoTime Externals EconomicId Account Instrument ProjectionPayload.
From S2P Require Import SourceEvent Normalization Snapshot Lifecycle LifecycleAggregate SimulationPolicy.

Local Open Scope go_scope.

Definition observationEvidenceSchema : string := "simulation-observation-v1".
Definition fillEvidenceSchema : string := "simulation-fill-v1".

Definition Side_string (s : Side) : string :=
  match s with SideBuy => "buy" | SideSell => "sell" | SideOther t => t end.
Definition DepthSide_string (s : DepthSide) : string :=
  match s with DepthSideBid => "bid" | DepthSideAsk => "ask" | DepthSideOther t => t end.

(** [fmt.Sprintf("orders/%s/snapshots/%s/fills/%s/%d", ...)] *)
Definition simulationFillSourceEventID (orderID snapshotID : string) (side : DepthSide) (level : Z) : string :=
  ("orders/" +:+ orderID +:+ "/snapshots/" +:+ snapshotID +:+ "/fills/" +:+ DepthSide_string side +:+ "/" +:+
   json_int level)%string.

Definition simulationObservationSourceEventID (orderID snapshotID kind discriminator : string) : string :=
  Join (["orders"; orderID] ++ (if snapshotID !=? "" then ["snapshots"; snapshotID] else []) ++ [kind] ++
        (if discriminator !=? "" then [discriminator] else [])) "/".

Definition simulationExternalOrderID (orderID : string) : string := ("simulation/" +:+ orderID)%string.

Definition formatSimulationTime (value : Time) : string :=
  if IsZeroTime value then "" else format_micro (utc_micro value).
Definition formatOptionalSimulationTime (value : option Time) : string :=
  match value with None => "" | Some t => formatSimulationTime t end.

Section fill.
Context {E : Externals}.

Definition simulationSourceNamespace (account : Account) (kind : string) : outcome string :=
  let namespace := Join ["simulation"; AccountEnvironment_string account.(acct_Environment);
                         account.(acct_StorageNamespace); account.(acct_EvidenceClass); (kind +:+ "-v1")%string] "/" in
  reject ((namespace !=? TrimSpace namespace) || (256 <? String.length namespace)%nat)
    "simulation source namespace exceeds the lifecycle limit" ;;
  Ok namespace.

(** The fields of the evidence that depend on the route session. *)
Definition session_label (session : option SessionWindow) : string :=
  match session with None => "" | Some s => s.(ses_Label) end.
Definition session_close (session : option SessionWindow) : string :=
  match session with None => "" | Some s => formatSimulationTime s.(ses_CloseAt) end.

Definition marshalSimulationObservationEvidence (policy : option Policy) (account : Account)
    (aggregate : option Aggregate) (snapshot : option QuoteSnapshot) (kind reason : string)
    (evaluatedAt sourceAt receivedAt : Time) (session : option SessionWindow) : outcome string :=
  let missing := "simulation observation evidence requires policy and routed order" in
  reject (is_nil policy) missing ;;
  a ← required aggregate missing ;
  order ← required a.(agg_Order) missing ;
  Ok (json_struct
    [str "schema" observationEvidenceSchema; str "kind" kind; str "reason" reason;
     str "order_id" (uuid_string order.(order_ID));
     str "snapshot_id" (match snapshot with None => "" | Some s => uuid_string s.(snap_ID) end);
     str "policy_artifact_id" (uuid_string (Policy_ArtifactID policy)); str "policy_version" (Policy_Version policy);
     str "environment" (AccountEnvironment_string account.(acct_Environment));
     str "evidence_class" account.(acct_EvidenceClass); str "storage_namespace" account.(acct_StorageNamespace);
     str "evaluated_at" (formatSimulationTime evaluatedAt); str "source_at" (formatSimulationTime sourceAt);
     str "received_at" (formatSimulationTime receivedAt);
     str "available_at" (match snapshot with None => "" | Some s => formatOptionalSimulationTime s.(snap_AvailableAt) end);
     str "route_session_label" (session_label session); str "route_session_close" (session_close session)]).

Definition marshalSimulationFillEvidence (policy : option Policy) (asset : AssetPolicy) (account : Account)
    (aggregate : option Aggregate) (snapshot : QuoteSnapshot) (assessment : QuoteAssessment) (evaluatedAt : Time)
    (session : option SessionWindow) (level : DepthLevel) (capacity quantity multiplier : dec) (fee : option dec)
    (firstFill : bool) : outcome string :=
  let missing := "simulation fill evidence requires routed order" in
  a ← required aggregate missing ;
  order ← required a.(agg_Order) missing ;
  let feeAmount := match fee with None => "0" | Some f => DecimalString f end in
  let exchangeAge := match assessment.(qa_ExchangeAge) with None => "" | Some d => json_int d end in
  Ok (json_struct
    [str "schema" fillEvidenceSchema; str "order_id" (uuid_string order.(order_ID));
     str "snapshot_id" (uuid_string snapshot.(snap_ID)); str "provider" snapshot.(snap_Provider);
     str "venue" snapshot.(snap_Venue); str "exchange_at" (formatOptionalSimulationTime snapshot.(snap_ExchangeAt));
     str "received_at" (formatSimulationTime snapshot.(snap_ReceivedAt));
     str "available_at" (formatOptionalSimulationTime snapshot.(snap_AvailableAt));
     str "evaluated_at" (formatSimulationTime evaluatedAt); str "exchange_age_nanoseconds" exchangeAge;
     ("receive_age_nanoseconds", json_int assessment.(qa_ReceiveAge));
     ("available_age_nanoseconds", json_int assessment.(qa_AvailabilityAge));
     str "policy_artifact_id" (uuid_string (Policy_ArtifactID policy)); str "policy_version" (Policy_Version policy);
     str "environment" (AccountEnvironment_string account.(acct_Environment));
     str "evidence_class" account.(acct_EvidenceClass); str "storage_namespace" account.(acct_StorageNamespace);
     str "route_session_label" (session_label session); str "route_session_close" (session_close session);
     ("fixed_latency_nanoseconds", json_int asset.(asset_FixedLatency)); str "side" (Side_string order.(order_Side));
     str "order_type" (OrderType_string order.(order_OrderType));
     str "time_in_force" (TimeInForce_string order.(order_TimeInForce));
     str "depth_side" (DepthSide_string level.(lvl_Side)); ("depth_level", json_int level.(lvl_Level));
     str "displayed_size" (DecimalString level.(lvl_Size));
     str "participation" (DecimalString asset.(asset_MaxDepthParticipation)); str "capacity" (DecimalString capacity);
     str "quantity" (DecimalString quantity); str "price" (DecimalString level.(lvl_Price));
     str "multiplier" (DecimalString multiplier); str "fee_per_order" (DecimalString asset.(asset_Fees).(fee_PerOrder));
     str "fee_per_unit" (DecimalString asset.(asset_Fees).(fee_PerUnit));
     str "fee_notional_bps" (DecimalString asset.(asset_Fees).(fee_NotionalBPS));
     ("fee_scale", json_int asset.(asset_Fees).(fee_Scale)); str "fee_amount" feeAmount;
     ("first_fill", json_bool firstFill)]).

(** ** buildSimulationFill *)

Record FillEffect := MkFillEffect {
  fe_Fill : Fill;
  fe_DepthSide : DepthSide;
  fe_DepthLevel : Z;
  fe_DisplayedSize : dec;
  fe_Capacity : dec;
  fe_Quantity : dec;
  fe_Price : dec;
  fe_Fee : option dec;
  fe_SourceNamespace : string;
  fe_SourceEventID : string;
  fe_Evidence : string;
  fe_PolicyVersion : string;
  fe_NormalizerVersion : string;
}.

Record simulationFillInput := MkSimulationFillInput {
  sfi_Policy : option Policy;
  sfi_Asset : AssetPolicy;
  sfi_Account : Account;
  sfi_Instrument : Instrument;
  sfi_VenueContract : VenueContract;
  sfi_Aggregate : option Aggregate;
  sfi_Snapshot : QuoteSnapshot;
  sfi_Assessment : QuoteAssessment;
  sfi_EvaluatedAt : Time;
  sfi_RouteSession : option SessionWindow;
  sfi_Level : DepthLevel;
  sfi_Capacity : dec;
  sfi_Quantity : dec;
  sfi_FirstFill : bool;
}.

Definition simulationSnapshotSourceAt (snapshot : QuoteSnapshot) : Time :=
  match snapshot.(snap_ExchangeAt) with Some t => t | None => snapshot.(snap_ReceivedAt) end.

(** An event input of the simulator: the fields that are not set are zero. *)
Definition simulation_event (namespace sourceEventID revision : string) (sourceAt receivedAt : Time)
    (reason evidence : string) : EventInput := {|
  evin_Source := "simulation"; evin_SourceNamespace := namespace; evin_SourceEventID := sourceEventID;
  evin_SourceRevision := revision; evin_ObservationClass := ObservationOther ""; evin_ObservationDiscriminator := "";
  evin_SourceAt := sourceAt; evin_ReceivedAt := receivedAt; evin_Actor := "simulation-venue";
  evin_ReasonCode := reason; evin_Reason := ""; evin_Evidence := evidence; evin_OriginalFillID := None;
  evin_OriginalSourceEventID := "" |}.

(** [now i] is the [i]-th reading of the clock in this call. *)
Definition buildSimulationFill (now : nat -> Time) (input : simulationFillInput) : outcome (Transition * FillEffect) :=
  let missing := "build simulation fill: policy and routed lifecycle are required" in
  reject (is_nil input.(sfi_Policy)) missing ;;
  a ← required input.(sfi_Aggregate) missing ;
  order ← required a.(agg_Order) missing ;
  let account := input.(sfi_Account) in
  let contract := input.(sfi_VenueContract) in
  let snapshot := input.(sfi_Snapshot) in
  let level := input.(sfi_Level) in
  fee ← wrap "build simulation fill fee: %w"
    (FillFee input.(sfi_Policy) input.(sfi_Instrument).(inst_AssetClass) input.(sfi_Quantity) level.(lvl_Price)
       contract.(vc_Multiplier) input.(sfi_FirstFill)) ;
  evidence ← marshalSimulationFillEvidence input.(sfi_Policy) input.(sfi_Asset) account input.(sfi_Aggregate) snapshot
    input.(sfi_Assessment) input.(sfi_EvaluatedAt) input.(sfi_RouteSession) level input.(sfi_Capacity)
    input.(sfi_Quantity) contract.(vc_Multiplier) fee input.(sfi_FirstFill) ;
  namespace ← simulationSourceNamespace account "fill" ;
  let sourceEventID := simulationFillSourceEventID (uuid_string order.(order_ID)) (uuid_string snapshot.(snap_ID))
    level.(lvl_Side) level.(lvl_Level) in
  sourceEvent ← wrap "build simulation raw fill event: %w"
    (NewEconomicSourceEvent (now 0%nat) {|
       srcin_AccountID := account.(acct_ID); srcin_Source := "simulation"; srcin_SourceNamespace := namespace;
       srcin_SourceEventID := sourceEventID; srcin_SourceRevision := snapshot.(snap_SourceRevision);
       srcin_ObservedAt := snapshot.(snap_ReceivedAt); srcin_RawPayload := evidence;
       srcin_CreatedAt := input.(sfi_EvaluatedAt) |}) ;
  let fillID := FillID order.(order_ID) sourceEvent.(src_ID) in
  let cost := match fee with
              | Some amount => Some (MkCostComponent CostKindFee contract.(vc_Currency) amount)
              | None => None
              end in
  let effectiveAt := simulationSnapshotSourceAt snapshot in
  let normalizerVersion := (fillEvidenceSchema +:+ "@sha256:" +:+ Policy_Digest input.(sfi_Policy))%string in
  let side := if order.(order_Side) ==? SideSell then FillSideSell else FillSideBuy in
  normalization ← wrap "build simulation fill normalization: %w"
    (NewFillEconomicNormalization (now 1%nat) (now 2%nat) (now 3%nat) {|
       fillin_Base := {|
         base_SourceEvent := Some sourceEvent; base_Account := Some account;
         base_NormalizerVersion := normalizerVersion; base_ExecutionOriginType := a.(agg_Intent).(intent_OriginType);
         base_ExecutionOriginID := a.(agg_Intent).(intent_OriginID); base_ReferenceType := "execution_fill";
         base_ReferenceID := uuid_string fillID; base_EffectiveAt := effectiveAt |};
       fillin_Instrument := input.(sfi_Instrument); fillin_VenueContract := contract; fillin_Side := side;
       fillin_Quantity := input.(sfi_Quantity); fillin_Price := level.(lvl_Price); fillin_Cost := cost |}) ;
  transition ← wrap "build simulation lifecycle fill: %w"
    (RecordFill (now 4%nat) (now 5%nat) input.(sfi_Aggregate) {|
       recin_Normalization := Some normalization;
       recin_ExternalOrderID := simulationExternalOrderID (uuid_string order.(order_ID));
       recin_Event := simulation_event namespace sourceEventID snapshot.(snap_SourceRevision) effectiveAt
                        snapshot.(snap_ReceivedAt) "depth_fill" evidence;
       recin_CreatedAt := input.(sfi_EvaluatedAt) |}) ;
  fill ← deref transition.(tr_Fill) ;
  Ok (transition, {|
    fe_Fill := fill; fe_DepthSide := level.(lvl_Side); fe_DepthLevel := level.(lvl_Level);
    fe_DisplayedSize := level.(lvl_Size); fe_Capacity := input.(sfi_Capacity); fe_Quantity := input.(sfi_Quantity);
    fe_Price := level.(lvl_Price); fe_Fee := fee; fe_SourceNamespace := namespace; fe_SourceEventID := sourceEventID;
    fe_Evidence := evidence; fe_PolicyVersion := Policy_Version input.(sfi_Policy);
    fe_NormalizerVersion := normalizerVersion |}).
End fill.
