(* ===== verification/SimulationVenue.v ===== *)
(** * The simulated venue (internal/simulation/venue.go)

    One evaluation of a routed lifecycle against one quote snapshot: sessions,
    latency, eligible depth, the loop that consumes it, and the terminal or
    working observation that ends it. *)

From S2P Require Import Prelude GoStd GoText GoTime Externals EconomicId Account Instrument ProjectionPayload.
From S2P Require Import SourceEvent Normalization Snapshot Lifecycle LifecycleAggregate SimulationPolicy SimulationFill.

Local Open Scope go_scope.

Inductive VenueErrorCode :=
  | VenueErrorInvalidRequest
  | VenueErrorPolicyMismatch
  | VenueErrorReferenceMismatch
  | VenueErrorUnsupportedInstruction
  | VenueErrorQuoteNotExecutable.

Definition VenueErrorCode_string (c : VenueErrorCode) : string :=
  match c with
  | VenueErrorInvalidRequest => "invalid_request"
  | VenueErrorPolicyMismatch => "policy_mismatch"
  | VenueErrorReferenceMismatch => "reference_mismatch"
  | VenueErrorUnsupportedInstruction => "unsupported_instruction"
  | VenueErrorQuoteNotExecutable => "quote_not_executable"
  end.

Definition venueFailure (code : VenueErrorCode) (detail : string) (cause : option error) : error :=
  match cause with
  | None => Coded (VenueErrorCode_string code) detail
  | Some e => CodedCause (VenueErrorCode_string code) detail e
  end.

(** [if b { return venueFailure(code, detail, nil) }] *)
Definition venue_reject (b : bool) (code : VenueErrorCode) (detail : string) : outcome unit :=
  if b then Err (venueFailure code detail None) else Ok tt.
(** [if err != nil { return venueFailure(code, detail, err) }] *)
Definition venue_wrap {A} (code : VenueErrorCode) (detail : string) (m : outcome A) : outcome A :=
  match m with Ok a => Ok a | Err e => Err (venueFailure code detail (Some e)) | Panic p => Panic p end.

Inductive Decision :=
  | DecisionNoop
  | DecisionWaitingLatency
  | DecisionResting
  | DecisionPartiallyFilled
  | DecisionFilled
  | DecisionCancelled
  | DecisionExpired
  | DecisionRejected.

(** [t.Add(d)] *)
Definition TimeAdd (t : Time) (d : Duration) : Time := MkTime (t.(instant) + d) t.(location_utc).

(** [strings.Contains(err.Error(), text)], read on the format strings. *)
Fixpoint error_mentions (e : error) (text : string) : bool :=
  match e with
  | Errorf format => Contains format text
  | Wrapf format inner => Contains format text || error_mentions inner text
  | Coded code detail => Contains code text || Contains detail text
  | CodedCause code detail cause => Contains code text || Contains detail text || error_mentions cause text
  end.

Definition terminalSimulationState (state : State) : bool :=
  match state with
  | StateFilled | StateCancelled | StateExpired | StateRejected | StateRiskRejected | StateFailedReconciliation => true
  | _ => false
  end.

Definition EventKind_string (kind : EventKind) : string :=
  match kind with
  | EventIntentProposed => "intent_proposed"
  | EventIntentAllocated => "intent_allocated"
  | EventRiskApproved => "risk_approved"
  | EventRiskRejected => "risk_rejected"
  | EventOrderRouted => "order_routed"
  | EventOrderWorking => "order_working"
  | EventCancelRequested => "cancel_requested"
  | EventFillAcknowledged => "fill_acknowledged"
  | EventFillRecorded => "fill_recorded"
  | EventOrderCancelled => "order_cancelled"
  | EventOrderExpired => "order_expired"
  | EventOrderRejected => "order_rejected"
  | EventUnknownVenueState => "unknown_venue_state"
  | EventContradictoryVenueState => "contradictory_venue_state"
  | EventFillCorrectionObserved => "fill_correction_observed"
  | EventFillBustObserved => "fill_bust_observed"
  | EventKindOther t => t
  end.

Section venue.
Context {E : Externals}.
Context (decodePolicy : string -> option (canonicalPolicy * string)).

Record EvaluationRequest := MkEvaluationRequest {
  req_Account : Account;
  req_Instrument : Instrument;
  req_VenueContract : VenueContract;
  req_Aggregate : option Aggregate;
  req_Snapshot : QuoteSnapshot;
  req_EvaluatedAt : Time;
}.

Record Result := MkResult {
  res_Decision : Decision;
  res_Aggregate : option Aggregate;
  res_Transitions : list Transition;
  res_Fills : list FillEffect;
}.

Record Venue := MkVenue { venue_policy : option Policy }.

(** [now] is what [time.Now()] returns; the artifact is dated at the epoch. *)
Definition unix_epoch : Time := MkTime (62135596800 * 1000000000) true.

Definition NewVenue (now : Time) (policy : option Policy) : outcome Venue :=
  reject (is_nil policy) "simulation venue policy is required" ;;
  artifact ← wrap "construct simulation venue: %w" (NewArtifact now policy unix_epoch) ;
  wrap "construct simulation venue: %w" (PolicyFromArtifact decodePolicy artifact) ;;
  Ok (MkVenue policy).

Definition Venue_policy (venue : option Venue) : option Policy := venue ≫= venue_policy.
Definition PolicyVersion (venue : option Venue) : string := Policy_Version (Venue_policy venue).
Definition PolicyDigest (venue : option Venue) : string := Policy_Digest (Venue_policy venue).

(** ** Helpers *)

Definition containsSimulationOrderType (values : list OrderType) (target : OrderType) : bool :=
  existsb (fun value => value ==? target) values.
Definition containsSimulationTimeInForce (values : list TimeInForce) (target : TimeInForce) : bool :=
  existsb (fun value => value ==? target) values.

Definition simulationTimeInSession (calendar : CalendarPolicy) (evaluatedAt : Time) : bool :=
  existsb (in_session evaluatedAt) calendar.(cal_Sessions).

Definition simulationLevelCrosses (order : Order) (price : dec) : bool :=
  if order.(order_OrderType) ==? OrderMarket then true
  else if order.(order_OrderType) !=? OrderLimit then false
  else match order.(order_LimitPrice) with
       | None => false
       | Some limit =>
           if order.(order_Side) ==? SideBuy then negb (GreaterThan price limit)
           else negb (LessThan price limit)
       end.

(** [Div] panics on a zero divisor, which the guard excludes. *)
Definition floorSimulationLot (value lot : dec) : outcome dec :=
  if negb (IsPositive value) || negb (IsPositive lot) then Ok Zero
  else lots ← checked_Div value lot ; Ok (Mul (Floor lots) lot).

Definition simulationFilledQuantity (aggregate : option Aggregate) : dec :=
  match aggregate with
  | None => Zero
  | Some a => foldl (fun total f => Add total f.(fill_Quantity)) Zero a.(agg_Fills)
  end.

Definition simulationAggregateHasSourceEvent (aggregate : option Aggregate) (sourceEventID : string) : bool :=
  match aggregate with
  | None => false
  | Some a => existsb (fun f => (f.(fill_Source) ==? "simulation") && (f.(fill_SourceEventID) ==? sourceEventID))
                a.(agg_Fills)
  end.

(** ** validateRequest *)

Definition check_references (request : EvaluationRequest) (a : Aggregate) (order : Order) : outcome unit :=
  let account := request.(req_Account) in
  let inst := request.(req_Instrument) in
  let contract := request.(req_VenueContract) in
  let intent := a.(agg_Intent) in
  venue_reject
    ((intent.(intent_AccountID) !=? account.(acct_ID)) || (intent.(intent_Environment) !=? account.(acct_Environment)) ||
     (intent.(intent_InstrumentID) !=? inst.(inst_ID)) || (order.(order_AccountID) !=? account.(acct_ID)) ||
     (order.(order_InstrumentID) !=? inst.(inst_ID)) || (order.(order_VenueContractID) !=? contract.(vc_ID)) ||
     (order.(order_Venue) !=? contract.(vc_Venue)) || (contract.(vc_InstrumentID) !=? inst.(inst_ID)) ||
     (inst.(inst_PrimaryVenue) !=? contract.(vc_Venue)) || (account.(acct_BaseCurrency) !=? inst.(inst_Currency)) ||
     (account.(acct_BaseCurrency) !=? contract.(vc_Currency)) ||
     negb (Equal inst.(inst_TickSize) contract.(vc_TickSize)) || negb (Equal inst.(inst_LotSize) contract.(vc_LotSize)) ||
     negb (Equal inst.(inst_Multiplier) contract.(vc_Multiplier)))
    VenueErrorReferenceMismatch "account, instrument, contract, venue, currency, or mechanics mismatch".

Definition validateRequest (venue : option Venue) (request : EvaluationRequest) :
    outcome (AssetPolicy * option SessionWindow) :=
  let policy := Venue_policy venue in
  let missing := venueFailure VenueErrorInvalidRequest "routed lifecycle and venue are required" None in
  venue_reject (is_nil policy) VenueErrorInvalidRequest "routed lifecycle and venue are required" ;;
  a ← match request.(req_Aggregate) with Some a => Ok a | None => Err missing end ;
  order ← match a.(agg_Order) with Some o => Ok o | None => Err missing end ;
  let evaluatedAt := request.(req_EvaluatedAt) in
  venue_reject (IsZeroTime evaluatedAt || negb evaluatedAt.(location_utc) ||
                negb (TimeEqual evaluatedAt (TruncateMicro evaluatedAt)) || Before evaluatedAt order.(order_RoutedAt))
    VenueErrorInvalidRequest "evaluation time is invalid" ;;
  venue_wrap VenueErrorReferenceMismatch "account is invalid" (Account_Validate request.(req_Account)) ;;
  venue_reject (request.(req_Account).(acct_Status) !=? AccountStatusActive)
    VenueErrorReferenceMismatch "account is not active" ;;
  venue_wrap VenueErrorReferenceMismatch "instrument is invalid" (Instrument_Validate request.(req_Instrument)) ;;
  venue_wrap VenueErrorReferenceMismatch "venue contract is invalid" (VenueContract_Validate request.(req_VenueContract)) ;;
  venue_wrap VenueErrorInvalidRequest "execution intent is invalid" (Intent_Validate a.(agg_Intent)) ;;
  venue_wrap VenueErrorInvalidRequest "execution order is invalid" (Order_Validate order) ;;
  check_references request a order ;;
  venue_reject ((order.(order_PolicyKind) !=? PolicySimulation) || (order.(order_PolicyVersion) !=? Policy_Version policy))
    VenueErrorPolicyMismatch "order policy does not match simulation venue" ;;
  let unsupported := venueFailure VenueErrorUnsupportedInstruction
                       "asset, order type, or time in force is unsupported" None in
  asset ← match Policy_AssetPolicy policy request.(req_Instrument).(inst_AssetClass) with
          | Some asset => Ok asset
          | None => Err unsupported
          end ;
  venue_reject (negb (containsSimulationOrderType asset.(asset_OrderTypes) order.(order_OrderType)) ||
                negb (containsSimulationTimeInForce asset.(asset_TimeInForce) order.(order_TimeInForce)))
    VenueErrorUnsupportedInstruction "asset, order type, or time in force is unsupported" ;;
  match RouteSession policy request.(req_Instrument).(inst_AssetClass) order.(order_RoutedAt) with
  | Ok session => Ok (asset, session)
  | Panic p => Panic p
  | Err e =>
      if (asset.(asset_Calendar).(cal_Kind) ==? CalendarExplicitSessions) && error_mentions e "outside explicit sessions"
      then Ok (asset, None)
      else Err (venueFailure VenueErrorUnsupportedInstruction "route session cannot be resolved" (Some e))
  end.

(** ** eligibleLevels *)

Record eligibleSimulationLevel := MkEligibleLevel {
  el_level : DepthLevel;
  el_capacity : dec;
}.

Definition depth_side (order : Order) : DepthSide :=
  if order.(order_Side) ==? SideSell then DepthSideBid else DepthSideAsk.

(** The loop over [snapshot.Depth]. *)
Fixpoint eligible_of (a : Aggregate) (order : Order) (snapshotID : UUID) (asset : AssetPolicy) (lotSize : dec)
    (depth : list DepthLevel) : outcome (list eligibleSimulationLevel) :=
  match depth with
  | [] => Ok []
  | level :: rest =>
      if (level.(lvl_Side) !=? depth_side order) || negb (simulationLevelCrosses order level.(lvl_Price))
      then eligible_of a order snapshotID asset lotSize rest
      else
        let sourceID := simulationFillSourceEventID (uuid_string order.(order_ID)) (uuid_string snapshotID)
                          level.(lvl_Side) level.(lvl_Level) in
        if simulationAggregateHasSourceEvent (Some a) sourceID
        then eligible_of a order snapshotID asset lotSize rest
        else
          capacity ← floorSimulationLot (Mul level.(lvl_Size) asset.(asset_MaxDepthParticipation)) lotSize ;
          if negb (IsPositive capacity) then eligible_of a order snapshotID asset lotSize rest
          else levels ← eligible_of a order snapshotID asset lotSize rest ; Ok (MkEligibleLevel level capacity :: levels)
  end.

Definition eligibleLevels (a : Aggregate) (order : Order) (snapshot : QuoteSnapshot) (asset : AssetPolicy)
    (lotSize : dec) : outcome (list eligibleSimulationLevel) :=
  eligible_of a order snapshot.(snap_ID) asset lotSize snapshot.(snap_Depth).

(** ** ensureWorking and applyTerminal

    [result.Aggregate] and the order are dereferenced after the nil checks of
    the request. *)

Definition ensureWorking (now : nat -> Time) (venue : option Venue) (result : Result) (request : EvaluationRequest)
    (session : option SessionWindow) (decision : Decision) (reason : string) : outcome Result :=
  a ← deref result.(res_Aggregate) ;
  if a.(agg_State) !=? StateRouted
  then Ok (MkResult decision result.(res_Aggregate) result.(res_Transitions) result.(res_Fills))
  else
    let snapshot := request.(req_Snapshot) in
    let sourceAt := simulationSnapshotSourceAt snapshot in
    evidence ← marshalSimulationObservationEvidence (Venue_policy venue) request.(req_Account) (Some a) (Some snapshot)
      "working" reason request.(req_EvaluatedAt) sourceAt snapshot.(snap_ReceivedAt) session ;
    namespace ← simulationSourceNamespace request.(req_Account) "order" ;
    order ← deref a.(agg_Order) ;
    let orderID := uuid_string order.(order_ID) in
    transition ← wrap "build simulation acknowledgement: %w"
      (Acknowledge (now 0%nat) (Some a) (simulationExternalOrderID orderID)
         (simulation_event namespace
            (simulationObservationSourceEventID orderID (uuid_string snapshot.(snap_ID)) "working" reason)
            snapshot.(snap_SourceRevision) sourceAt snapshot.(snap_ReceivedAt) reason evidence)
         request.(req_EvaluatedAt)) ;
    next ← wrap "apply simulation acknowledgement: %w" (ApplyTransition (Some a) (Some transition)) ;
    Ok (MkResult decision (Some next) (result.(res_Transitions) ++ [transition]) result.(res_Fills)).

Definition terminalReceivedAt (request : EvaluationRequest) (order : Order) (snapshot : option QuoteSnapshot) : Time :=
  match snapshot with
  | None => request.(req_EvaluatedAt)
  | Some s =>
      if negb (IsZeroTime s.(snap_ReceivedAt)) && After s.(snap_ReceivedAt) order.(order_RoutedAt)
      then s.(snap_ReceivedAt)
      else request.(req_EvaluatedAt)
  end.

Definition applyTerminal (now : nat -> Time) (venue : option Venue) (result : Result) (request : EvaluationRequest)
    (kind : EventKind) (decision : Decision) (reason : string) (sourceAt : Time) (snapshot : option QuoteSnapshot)
    (session : option SessionWindow) : outcome Result :=
  current ← deref result.(res_Aggregate) ;
  requested ← deref request.(req_Aggregate) ;
  routed ← deref requested.(agg_Order) ;
  let received := terminalReceivedAt request routed snapshot in
  let receivedAt := if Before received sourceAt then request.(req_EvaluatedAt) else received in
  evidence ← marshalSimulationObservationEvidence (Venue_policy venue) request.(req_Account) (Some current) snapshot
    (EventKind_string kind) reason request.(req_EvaluatedAt) sourceAt receivedAt session ;
  namespace ← simulationSourceNamespace request.(req_Account) "order" ;
  let snapshotID := match snapshot with None => "" | Some s => uuid_string s.(snap_ID) end in
  let revision := match snapshot with None => "" | Some s => s.(snap_SourceRevision) end in
  order ← deref current.(agg_Order) ;
  transition ← wrap "build simulation terminal transition: %w"
    (ObserveOrderTerminal (now 0%nat) (Some current) kind
       (simulation_event namespace
          (simulationObservationSourceEventID (uuid_string order.(order_ID)) snapshotID (EventKind_string kind) reason)
          revision sourceAt receivedAt reason evidence)
       request.(req_EvaluatedAt)) ;
  next ← wrap "apply simulation terminal transition: %w" (ApplyTransition (Some current) (Some transition)) ;
  Ok (MkResult decision (Some next) (result.(res_Transitions) ++ [transition]) result.(res_Fills)).

(** ** Evaluate *)

(** The loop that consumes the eligible levels; [now k] are the clock readings
    of the [k]-th fill. *)
Fixpoint fill_levels (now : nat -> nat -> Time) (policy : option Policy) (asset : AssetPolicy)
    (request : EvaluationRequest) (assessment : QuoteAssessment) (session : option SessionWindow)
    (levels : list eligibleSimulationLevel) (current : Aggregate) (remaining : dec)
    (transitions : list Transition) (fills : list FillEffect) :
    outcome (Aggregate * list Transition * list FillEffect) :=
  match levels with
  | [] => Ok (current, transitions, fills)
  | candidate :: rest =>
      if IsZero remaining then Ok (current, transitions, fills)
      else
        let quantity := if GreaterThan candidate.(el_capacity) remaining then remaining else candidate.(el_capacity) in
        '(transition, effect) ← buildSimulationFill (now (length fills)) {|
          sfi_Policy := policy; sfi_Asset := asset; sfi_Account := request.(req_Account);
          sfi_Instrument := request.(req_Instrument); sfi_VenueContract := request.(req_VenueContract);
          sfi_Aggregate := Some current; sfi_Snapshot := request.(req_Snapshot); sfi_Assessment := assessment;
          sfi_EvaluatedAt := request.(req_EvaluatedAt); sfi_RouteSession := session;
          sfi_Level := candidate.(el_level); sfi_Capacity := candidate.(el_capacity); sfi_Quantity := quantity;
          sfi_FirstFill := (length current.(agg_Fills) =? 0)%nat |} ;
        next ← wrap "apply simulation fill transition: %w" (ApplyTransition (Some current) (Some transition)) ;
        fill_levels now policy asset request assessment session rest next (Sub remaining quantity)
          (transitions ++ [transition]) (fills ++ [effect])
  end.

Definition total_capacity (levels : list eligibleSimulationLevel) : dec :=
  foldl (fun total level => Add total level.(el_capacity)) Zero levels.

(** What follows the loop. *)
Definition after_fills (now : nat -> Time) (venue : option Venue) (request : EvaluationRequest) (order : Order)
    (session : option SessionWindow) (current : Aggregate) (transitions : list Transition) (fills : list FillEffect) :
    outcome Result :=
  let result := MkResult DecisionNoop (Some current) transitions fills in
  if current.(agg_State) ==? StateFilled then Ok (MkResult DecisionFilled (Some current) transitions fills)
  else if order.(order_TimeInForce) ==? TimeInForceIOC
  then
    applyTerminal now venue result
      {| req_Account := request.(req_Account); req_Instrument := request.(req_Instrument);
         req_VenueContract := request.(req_VenueContract); req_Aggregate := Some current;
         req_Snapshot := request.(req_Snapshot); req_EvaluatedAt := request.(req_EvaluatedAt) |}
      EventOrderCancelled DecisionCancelled "ioc_remainder_cancelled"
      (simulationSnapshotSourceAt request.(req_Snapshot)) (Some request.(req_Snapshot)) session
  else if (0 <? length fills)%nat then Ok (MkResult DecisionPartiallyFilled (Some current) transitions fills)
  else ensureWorking now venue result request session DecisionResting "no_marketable_depth".

(** From the quote assessment on. *)
Definition evaluate_quote (now : nat -> nat -> Time) (venue : option Venue) (request : EvaluationRequest)
    (asset : AssetPolicy) (session : option SessionWindow) (a : Aggregate) (order : Order) : outcome Result :=
  let snapshot := request.(req_Snapshot) in
  let result := MkResult DecisionNoop (Some a) [] [] in
  assessment ← venue_wrap VenueErrorQuoteNotExecutable "quote assessment failed"
    (AssessForExecution snapshot request.(req_EvaluatedAt) asset.(asset_QuoteRequirements) request.(req_Instrument)
       request.(req_VenueContract)) ;
  venue_reject ((assessment.(qa_SnapshotID) !=? snapshot.(snap_ID)) ||
                negb (TimeEqual assessment.(qa_EvaluatedAt) request.(req_EvaluatedAt)))
    VenueErrorQuoteNotExecutable "quote assessment identity mismatch" ;;
  let latencyEligibleAt := TimeAdd order.(order_RoutedAt) asset.(asset_FixedLatency) in
  if match snapshot.(snap_AvailableAt) with None => true | Some t => Before t latencyEligibleAt end
  then
    if (order.(order_TimeInForce) ==? TimeInForceIOC) || (order.(order_TimeInForce) ==? TimeInForceFOK)
    then Ok (MkResult DecisionWaitingLatency (Some a) [] [])
    else ensureWorking (now 0%nat) venue result request session DecisionWaitingLatency "fixed_latency_pending"
  else
    levels ← eligibleLevels a order snapshot asset request.(req_VenueContract).(vc_LotSize) ;
    let remaining := Sub order.(order_Quantity) (simulationFilledQuantity (Some a)) in
    if (order.(order_TimeInForce) ==? TimeInForceFOK) && LessThan (total_capacity levels) remaining
    then applyTerminal (now 0%nat) venue result request EventOrderRejected DecisionRejected "fok_insufficient_depth"
           (simulationSnapshotSourceAt snapshot) (Some snapshot) session
    else
      '(current, transitions, fills) ←
        fill_levels now (Venue_policy venue) asset request assessment session levels a remaining [] [] ;
      after_fills (now (length fills)) venue request order session current transitions fills.

Definition closed_session (session : option SessionWindow) (order : Order) (evaluatedAt : Time) : option SessionWindow :=
  match session with
  | None => None
  | Some s => if (order.(order_TimeInForce) ==? TimeInForceDay) && negb (Before evaluatedAt s.(ses_CloseAt))
              then Some s else None
  end.

Definition Evaluate (now : nat -> nat -> Time) (venue : option Venue) (request : EvaluationRequest) : outcome Result :=
  '(asset, routeSession) ← validateRequest venue request ;
  a ← deref request.(req_Aggregate) ;
  order ← deref a.(agg_Order) ;
  let result := MkResult DecisionNoop (Some a) [] [] in
  let explicit := asset.(asset_Calendar).(cal_Kind) ==? CalendarExplicitSessions in
  if terminalSimulationState a.(agg_State) then Ok result
  else if is_nil routeSession && explicit
  then applyTerminal (now 0%nat) venue result request EventOrderRejected DecisionRejected "route_outside_session"
         order.(order_RoutedAt) None None
  else
    match closed_session routeSession order request.(req_EvaluatedAt) with
    | Some session =>
        applyTerminal (now 0%nat) venue result request EventOrderExpired DecisionExpired "day_session_closed"
          session.(ses_CloseAt) (Some request.(req_Snapshot)) routeSession
    | None =>
        if explicit && negb (simulationTimeInSession asset.(asset_Calendar) request.(req_EvaluatedAt)) &&
           (order.(order_TimeInForce) ==? TimeInForceGTC)
        then ensureWorking (now 0%nat) venue result request routeSession DecisionResting "outside_current_session"
        else evaluate_quote now venue request asset routeSession a order
    end.
End venue.
