(* ===== verification/SimulationOutcome.v ===== *)
(** * Outcomes and persistence of a simulation
    (internal/simulation/outcome.go, internal/simulation/persist.go)

    The hashed economic projection of a simulated lifecycle, and the two loops
    that hand a policy and an evaluation to a store. *)

From S2P Require Import Prelude GoStd GoText GoTime Externals EconomicId Account Instrument ProjectionPayload.
From S2P Require Import SourceEvent Normalization Snapshot Lifecycle LifecycleAggregate SimulationPolicy SimulationFill.
From S2P Require Import SimulationVenue.

Local Open Scope go_scope.

Definition outcomeSchemaV1 : string := "simulation-outcome-v1".

Definition State_string (s : State) : string :=
  match s with
  | StateNone => ""
  | StateProposed => "proposed"
  | StateAllocated => "allocated"
  | StateRiskApproved => "risk_approved"
  | StateRiskRejected => "risk_rejected"
  | StateRouted => "routed"
  | StateWorking => "working"
  | StatePartiallyFilled => "partially_filled"
  | StateFilled => "filled"
  | StateCancelled => "cancelled"
  | StateExpired => "expired"
  | StateRejected => "rejected"
  | StateFailedReconciliation => "failed_reconciliation"
  | StateOther t => t
  end.

Section outcome.
Context {E : Externals}.

Record OutcomeInput := MkOutcomeInput {
  outin_Account : Account;
  outin_VenueContract : VenueContract;
  outin_Aggregate : option Aggregate;
  outin_Fills : list FillEffect;
}.

Record OutcomeFill := MkOutcomeFill {
  of_Quantity : dec;
  of_Price : dec;
  of_Fee : dec;
}.

(** The fields assigned before the loop over the fills. *)
Record OutcomeHeader := MkOutcomeHeader {
  oh_PolicyVersion : string;
  oh_FinalState : State;
  oh_Environment : AccountEnvironment;
  oh_EvidenceClass : string;
  oh_StorageNamespace : string;
  oh_Side : Side;
  oh_Currency : string;
  oh_Multiplier : dec;
}.

Record OutcomeTotals := MkOutcomeTotals {
  ot_TotalQuantity : dec;
  ot_GrossCash : dec;
  ot_TotalFee : dec;
  ot_Fills : list OutcomeFill;
}.

Record Outcome := MkOutcome {
  out_header :> OutcomeHeader;
  out_totals :> OutcomeTotals;
  out_canonicalBytes : string;
  out_hash : string;
}.

(** [effects], filled in the order of the input. *)
Fixpoint index_effects (fills : list FillEffect) (effects : gmap UUID FillEffect) : outcome (gmap UUID FillEffect) :=
  match fills with
  | [] => Ok effects
  | effect :: rest =>
      reject (effect.(fe_Fill).(fill_ID) ==? Nil) "simulation outcome fill effect identity is required" ;;
      reject (bool_decide (is_Some (effects !! effect.(fe_Fill).(fill_ID))))
        "simulation outcome fill effect %s is duplicated" ;;
      index_effects rest (<[effect.(fe_Fill).(fill_ID) := effect]> effects)
  end.

Definition no_totals : OutcomeTotals := MkOutcomeTotals ZeroValue ZeroValue ZeroValue [].

(** One iteration of the loop over [aggregate.Fills]. *)
Definition add_fill (header : OutcomeHeader) (effects : gmap UUID FillEffect) (totals : OutcomeTotals) (fill : Fill) :
    outcome OutcomeTotals :=
  wrap "simulation outcome lifecycle fill %s: %w" (Fill_Validate fill) ;;
  let mismatch := "simulation outcome effect does not match lifecycle fill %s" in
  effect ← required (effects !! fill.(fill_ID)) mismatch ;
  reject (negb (SameFillPayload (Some fill) (Some effect.(fe_Fill))) ||
          (effect.(fe_PolicyVersion) !=? header.(oh_PolicyVersion)) ||
          negb (Equal effect.(fe_Quantity) fill.(fill_Quantity)) || negb (Equal effect.(fe_Price) fill.(fill_Price)))
    mismatch ;;
  reject (some_and IsNegative effect.(fe_Fee)) "simulation outcome fee cannot be negative" ;;
  let fee := match effect.(fe_Fee) with None => Zero | Some f => f end in
  let notional := Mul (Mul fill.(fill_Quantity) fill.(fill_Price)) header.(oh_Multiplier) in
  let notional := if header.(oh_Side) ==? SideBuy then Neg notional else notional in
  Ok {| ot_TotalQuantity := Add totals.(ot_TotalQuantity) fill.(fill_Quantity);
        ot_GrossCash := Add totals.(ot_GrossCash) notional; ot_TotalFee := Add totals.(ot_TotalFee) fee;
        ot_Fills := totals.(ot_Fills) ++ [MkOutcomeFill fill.(fill_Quantity) fill.(fill_Price) fee] |}.

Fixpoint add_fills (header : OutcomeHeader) (effects : gmap UUID FillEffect) (totals : OutcomeTotals)
    (fills : list Fill) : outcome OutcomeTotals :=
  match fills with
  | [] => Ok totals
  | fill :: rest =>
      totals' ← add_fill header effects totals fill ;
      add_fills header effects totals' rest
  end.

Definition canonical_outcome (header : OutcomeHeader) (totals : OutcomeTotals) : string :=
  json_struct
    [str "schema" outcomeSchemaV1; str "policy_version" header.(oh_PolicyVersion);
     str "final_state" (State_string header.(oh_FinalState));
     str "environment" (AccountEnvironment_string header.(oh_Environment));
     str "evidence_class" header.(oh_EvidenceClass); str "storage_namespace" header.(oh_StorageNamespace);
     str "side" (Side_string header.(oh_Side)); str "currency" header.(oh_Currency);
     str "multiplier" (DecimalString header.(oh_Multiplier));
     str "total_quantity" (DecimalString totals.(ot_TotalQuantity));
     str "gross_cash" (DecimalString totals.(ot_GrossCash)); str "total_fee" (DecimalString totals.(ot_TotalFee));
     ("fills", json_slice ((fun f => json_struct [str "quantity" (DecimalString f.(of_Quantity));
                                                  str "price" (DecimalString f.(of_Price));
                                                  str "fee" (DecimalString f.(of_Fee))]) <$> totals.(ot_Fills)))].

Definition NewOutcome (input : OutcomeInput) : outcome Outcome :=
  let missing := "simulation outcome requires a routed lifecycle" in
  a ← required input.(outin_Aggregate) missing ;
  order ← required a.(agg_Order) missing ;
  let account := input.(outin_Account) in
  let contract := input.(outin_VenueContract) in
  wrap "simulation outcome account: %w" (Account_Validate account) ;;
  wrap "simulation outcome venue contract: %w" (VenueContract_Validate contract) ;;
  wrap "simulation outcome intent: %w" (Intent_Validate a.(agg_Intent)) ;;
  wrap "simulation outcome order: %w" (Order_Validate order) ;;
  reject ((a.(agg_Intent).(intent_AccountID) !=? account.(acct_ID)) ||
          (a.(agg_Intent).(intent_Environment) !=? account.(acct_Environment)) ||
          (order.(order_AccountID) !=? account.(acct_ID)) || (order.(order_VenueContractID) !=? contract.(vc_ID)) ||
          (order.(order_Venue) !=? contract.(vc_Venue)) || (account.(acct_BaseCurrency) !=? contract.(vc_Currency)))
    "simulation outcome account, lifecycle, and contract context mismatch" ;;
  reject (order.(order_PolicyKind) !=? PolicySimulation) "simulation outcome requires a simulation policy order" ;;
  effects ← index_effects input.(outin_Fills) ∅ ;
  reject (negb (size effects =? length a.(agg_Fills))%nat)
    "simulation outcome requires exactly one effect per lifecycle fill" ;;
  let header := {|
    oh_PolicyVersion := order.(order_PolicyVersion); oh_FinalState := a.(agg_State);
    oh_Environment := account.(acct_Environment); oh_EvidenceClass := account.(acct_EvidenceClass);
    oh_StorageNamespace := account.(acct_StorageNamespace); oh_Side := order.(order_Side);
    oh_Currency := contract.(vc_Currency); oh_Multiplier := contract.(vc_Multiplier) |} in
  totals ← add_fills header effects no_totals a.(agg_Fills) ;
  let encoded := canonical_outcome header totals in
  Ok {| out_header := header; out_totals := totals; out_canonicalBytes := encoded;
        out_hash := EncodeToString (Sum256 encoded) |}.

Definition Outcome_CanonicalBytes (o : option Outcome) : string :=
  match o with None => "" | Some v => v.(out_canonicalBytes) end.
Definition Outcome_Hash (o : option Outcome) : string := match o with None => "" | Some v => v.(out_hash) end.

(** ** Persistence

    The interfaces [Persistence] and [PolicyStore] are records of operations on
    the state [S] of a store; a returned pointer may be nil. *)

Record Persistence (S : Type) := MkPersistence {
  RecordEconomicSourceEvent : S -> EconomicSourceEvent -> S * outcome (option EconomicSourceEvent);
  ApplyExecutionFill : S -> UUID -> Transition -> S * outcome (option Aggregate);
  ApplyExecutionTransition : S -> UUID -> Transition -> S * outcome (option Aggregate);
}.
#[global] Arguments RecordEconomicSourceEvent {S} _ _ _.
#[global] Arguments ApplyExecutionFill {S} _ _ _ _.
#[global] Arguments ApplyExecutionTransition {S} _ _ _ _.

Record PolicyStore (S : Type) := MkPolicyStore {
  RegisterSimulationPolicy : S -> PolicyArtifact -> S * outcome (option PolicyArtifact);
}.
#[global] Arguments RegisterSimulationPolicy {S} _ _ _.

Definition RegisterPolicy {S} (now : Time) (store : option (PolicyStore S)) (s : S) (policy : option Policy)
    (createdAt : Time) : S * outcome PolicyArtifact :=
  match store with
  | None => (s, Err (Errorf "register simulation policy: store is required"))
  | Some st =>
      match wrap "register simulation policy: %w" (NewArtifact now policy createdAt) with
      | Err e => (s, Err e)
      | Panic p => (s, Panic p)
      | Ok artifact =>
          let '(s', registered) := st.(RegisterSimulationPolicy) s artifact in
          (s', registered ← wrap "register simulation policy %q: %w" registered ;
               reject (negb (SamePolicyArtifactPayload registered (Some artifact)))
                 "register simulation policy %q: store returned mismatched artifact" ;;
               deref registered)
      end
  end.

(** The branch of an iteration for a transition that is not nil. *)
Definition persist_transition {S} (st : Persistence S) (accountID : UUID) (s : S) (t : Transition) :
    S * outcome (option Aggregate) :=
  match t.(tr_Fill) with
  | Some _ =>
      match t.(tr_Normalization) ≫= norm_SourceEvent with
      | None => (s, Err (Errorf "persist simulation result: fill transition %d lacks raw normalization graph"))
      | Some raw =>
          let '(s1, persistedRaw) := st.(RecordEconomicSourceEvent) s raw in
          match wrap "persist simulation result raw fill %s: %w" persistedRaw with
          | Err e => (s1, Err e)
          | Panic p => (s1, Panic p)
          | Ok persistedRaw =>
              if negb (SameEconomicSourceEventPayload persistedRaw (Some raw))
              then (s1, Err (Errorf "persist simulation result raw fill %s: store returned mismatched event"))
              else
                let '(s2, persisted) := st.(ApplyExecutionFill) s1 accountID t in
                (s2, wrap "persist simulation result fill transition %s: %w" persisted)
          end
      end
  | None =>
      if negb (is_nil t.(tr_Normalization))
      then (s, Err (Errorf "persist simulation result: non-fill transition %d carries economic normalization"))
      else
        let '(s1, persisted) := st.(ApplyExecutionTransition) s accountID t in
        (s1, wrap "persist simulation result transition %s: %w" persisted)
  end.

Fixpoint persist_transitions {S} (st : Persistence S) (accountID : UUID) (s : S) (persisted : option Aggregate)
    (transitions : list (option Transition)) : S * outcome (option Aggregate) :=
  match transitions with
  | [] => (s, Ok persisted)
  | None :: _ => (s, Err (Errorf "persist simulation result: transition %d is nil"))
  | Some t :: rest =>
      match persist_transition st accountID s t with
      | (s', Ok persisted') => persist_transitions st accountID s' persisted' rest
      | (s', Err e) => (s', Err e)
      | (s', Panic p) => (s', Panic p)
      end
  end.

(** The transitions of a [Result] are pointers; the venue appends no nil one. *)
Definition PersistResult {S} (store : option (Persistence S)) (s : S) (accountID : UUID) (result : option Result) :
    S * outcome Aggregate :=
  let required_pair := Errorf "persist simulation result: matching account and result aggregate are required" in
  match store with
  | None => (s, Err (Errorf "persist simulation result: store is required"))
  | Some st =>
      match result with
      | None => (s, Err required_pair)
      | Some r =>
          match r.(res_Aggregate) with
          | None => (s, Err required_pair)
          | Some a =>
              if (accountID ==? Nil) || (a.(agg_Intent).(intent_AccountID) !=? accountID) then (s, Err required_pair)
              else if (length r.(res_Transitions) =? 0)%nat then (s, Ok a)
              else
                let '(s', persisted) := persist_transitions st accountID s None (Some <$> r.(res_Transitions)) in
                (s', persisted ← persisted ;
                     let mismatch := "persist simulation result: persisted lifecycle does not match evaluated result" in
                     p ← required persisted mismatch ;
                     reject ((p.(agg_Intent).(intent_ID) !=? a.(agg_Intent).(intent_ID)) ||
                             (p.(agg_State) !=? a.(agg_State)) ||
                             negb (length p.(agg_Fills) =? length a.(agg_Fills))%nat) mismatch ;;
                     Ok p)
          end
      end
  end.
End outcome.
