(* ===== verification/SimulationPolicyProofs.v ===== *)
(** * Proofs about the simulation policy *)

From S2P Require Import Prelude GoStd GoText Digits GoTime Externals Decimals EconomicId EconomicIdProofs TextProofs.
From S2P Require Import Instrument ProjectionPayload Snapshot Lifecycle LifecycleProofs SimulationPolicy.
From Stdlib Require Import Ascii.

Local Open Scope go_scope.
#[local] Opaque DeterministicUUID Sum256 json_struct.

Section policy_proofs.
Context {E : Externals} {L : ExternalLaws}.
Local Open Scope Q_scope.

(** ** What a policy promises of each asset class *)

Record sound_asset (asset : AssetPolicy) : Prop := {
  sa_class : supportedSimulationAsset asset.(asset_AssetClass) = true;
  sa_orders o : o ∈ asset.(asset_OrderTypes) -> o = OrderMarket \/ o = OrderLimit;
  sa_tif f : f ∈ asset.(asset_TimeInForce) ->
    f = TimeInForceDay \/ f = TimeInForceGTC \/ f = TimeInForceIOC \/ f = TimeInForceFOK;
  sa_participation : 0 < val asset.(asset_MaxDepthParticipation) <= 1 /\
    val asset.(asset_MaxDepthParticipation) == val (Round asset.(asset_MaxDepthParticipation) 12);
  sa_latency : (0 <= asset.(asset_FixedLatency))%Z;
  sa_quote : (0 < asset.(asset_QuoteRequirements).(qr_MaxAge))%Z;
  sa_fees : 0 <= val asset.(asset_Fees).(fee_PerOrder) /\ 0 <= val asset.(asset_Fees).(fee_PerUnit) /\
    0 <= val asset.(asset_Fees).(fee_NotionalBPS) /\ (0 <= asset.(asset_Fees).(fee_Scale) <= 12)%Z;
  sa_sessions s : s ∈ asset.(asset_Calendar).(cal_Sessions) -> (instant s.(ses_OpenAt) < instant s.(ses_CloseAt))%Z;
}.

Lemma check_distinct_supported {A} `{EqDecision A} supported m1 m2 (seen values : list A) u :
  check_distinct supported m1 m2 seen values = Ok u -> Forall (fun v => supported v = true) values.
Proof.
  revert seen. induction values as [|v values IH]; intros seen; cbn [check_distinct]; [constructor|].
  intros Hc. inv_ok Hc. split_bools. constructor; eauto.
Qed.

Lemma order_types_facts values sorted : normalizeOrderTypes values = Ok sorted ->
  forall o, o ∈ sorted -> o = OrderMarket \/ o = OrderLimit.
Proof.
  unfold normalizeOrderTypes. intros Hn. inv_ok Hn. subst sorted. intros o Ho. rewrite sort_slice_perm in Ho.
  match goal with Hc : check_distinct _ _ _ _ _ = Ok _ |- _ => apply check_distinct_supported in Hc end.
  rewrite Forall_forall in *. specialize (H0 o Ho). apply orb_true_iff in H0 as [?|?]; split_bools; auto.
Qed.

Lemma time_in_force_facts values sorted : normalizeTimeInForce values = Ok sorted ->
  forall f, f ∈ sorted -> f = TimeInForceDay \/ f = TimeInForceGTC \/ f = TimeInForceIOC \/ f = TimeInForceFOK.
Proof.
  unfold normalizeTimeInForce. intros Hn. inv_ok Hn. subst sorted. intros f Hf. rewrite sort_slice_perm in Hf.
  match goal with Hc : check_distinct _ _ _ _ _ = Ok _ |- _ => apply check_distinct_supported in Hc end.
  rewrite Forall_forall in *. specialize (H0 f Hf). destruct f; try done; auto.
Qed.

Lemma positive_decimal_facts v u : validatePositivePolicyDecimal v = Ok u -> 0 < val v /\ val v == val (Round v 12).
Proof.
  unfold validatePositivePolicyDecimal, validatePolicyDecimalShape. intros Hv. inv_ok Hv. split_bools. by dec_bools.
Qed.

Lemma nonnegative_decimal_facts v u : validateNonnegativePolicyDecimal v = Ok u -> 0 <= val v.
Proof.
  unfold validateNonnegativePolicyDecimal, validatePolicyDecimalShape. intros Hv. inv_ok Hv. split_bools. by dec_bools.
Qed.

Lemma check_sessions_facts sessions labels sessions' : check_sessions sessions labels = Ok sessions' ->
  forall s, s ∈ sessions' -> (instant s.(ses_OpenAt) < instant s.(ses_CloseAt))%Z.
Proof.
  revert labels sessions'. induction sessions as [|x sessions IH]; intros labels sessions'; cbn [check_sessions].
  { intros [= <-] s Hs. by apply elem_of_nil in Hs. }
  intros Hc. inv_ok Hc. subst sessions'. split_bools. unfold After in *. rewrite Z.ltb_lt in *.
  intros s [-> |Hs]%elem_of_cons; [done|]. by eapply IH.
Qed.

Lemma calendar_facts input tif calendar : normalizeCalendar input tif = Ok calendar ->
  forall s, s ∈ calendar.(cal_Sessions) -> (instant s.(ses_OpenAt) < instant s.(ses_CloseAt))%Z.
Proof.
  unfold normalizeCalendar. destruct (cal_Kind input); intros Hn; inv_ok Hn; subst; cbn [cal_Sessions]; intros s Hs.
  - rewrite sort_slice_perm in Hs. by eapply check_sessions_facts.
  - by apply elem_of_nil in Hs.
Qed.

Lemma requirements_facts input r : normalizeQuoteRequirements input = Ok r -> (0 < r.(qr_MaxAge))%Z.
Proof. unfold normalizeQuoteRequirements. intros Hn. inv_ok Hn. subst r. cbn. by rewrite Z.leb_gt in *. Qed.

Lemma asset_policy_sound input asset : normalizeAssetPolicy input = Ok asset ->
  sound_asset asset /\ asset.(asset_AssetClass) = input.(asset_AssetClass).
Proof.
  unfold normalizeAssetPolicy. intros Hn. inv_ok Hn. subst asset. split_bools. dec_bools. split; [|done].
  match goal with Hf : normalizeFees _ = Ok _ |- _ => unfold normalizeFees in Hf; inv_ok Hf; subst end.
  match goal with Hp : validatePositivePolicyDecimal _ = Ok _ |- _ => apply positive_decimal_facts in Hp as [P1 P2] end.
  match goal with Hp : for_each _ _ = Ok _ |- _ => apply for_each_Ok in Hp; rewrite !Forall_cons in Hp;
    destruct Hp as (F1%nonnegative_decimal_facts & F2%nonnegative_decimal_facts & F3%nonnegative_decimal_facts & _) end.
  split; cbn; try done; eauto using order_types_facts, time_in_force_facts, calendar_facts, requirements_facts.
  - split; [|done]. split; [done|]. rewrite val_NewFromInt in *. done.
  - lia.
  - split_and!; try done; lia.
Qed.

Lemma normalize_assets_sound assets seen normalized : normalize_assets assets seen = Ok normalized ->
  Forall sound_asset normalized.
Proof.
  revert seen normalized. induction assets as [|x assets IH]; intros seen normalized; cbn [normalize_assets].
  { intros [= <-]. constructor. }
  intros Hn. inv_ok Hn. subst normalized. constructor; [by eapply asset_policy_sound|by eapply IH].
Qed.

Lemma policy_sound input p : NewPolicy input = Ok p -> Forall sound_asset p.(pol_assets).
Proof.
  unfold NewPolicy. intros Hn. inv_ok Hn. subst p. cbn [pol_assets]. rewrite sort_slice_perm. by eapply normalize_assets_sound.
Qed.

Lemma found_asset p class asset : Policy_AssetPolicy (Some p) class = Some asset ->
  asset ∈ p.(pol_assets) /\ asset.(asset_AssetClass) = class.
Proof. cbn. intros [Hin Hc%bool_decide_eq_true]%find_some. split; [by apply list_elem_of_In|done]. Qed.

Lemma found_sound input p class asset : NewPolicy input = Ok p -> Policy_AssetPolicy (Some p) class = Some asset ->
  sound_asset asset.
Proof. intros Hp%policy_sound [Hin _]%found_asset. rewrite Forall_forall in Hp. by apply Hp. Qed.

(** ** Fees *)

(** The exact fee of a fill: per unit, per order on the first fill, and the
    basis points of the notional. *)
Definition exact_fee (fees : FeePolicy) (quantity price multiplier : Q) (first : bool) : Q :=
  val fees.(fee_PerUnit) * quantity + (if first then val fees.(fee_PerOrder) else 0) +
  price * quantity * multiplier * val fees.(fee_NotionalBPS) / 10000.

(** The fee of a result: no component stands for zero. *)
Definition fee_value (fee : option dec) : Q := match fee with Some f => val f | None => 0 end.

Lemma raw_fee_near fees quantity price multiplier first fee : raw_fee fees quantity price multiplier first = Ok fee ->
  (exists k : Z, val fee == inject_Z k * (10 # 1) ^ (- fees.(fee_Scale))) /\
  Qabs (val fee - exact_fee fees (val quantity) (val price) (val multiplier) first) <=
    (1 # 2) * (10 # 1) ^ (- fees.(fee_Scale)) + (1 # 2) * (10 # 1) ^ (- 16).
Proof.
  unfold raw_fee. intros Hr. apply bind_Ok in Hr as (notional & Hd & [= <-]). apply checked_Div_Ok in Hd as [Hz ->].
  split; [apply Round_grid|].
  set (numerator := Mul (Mul (Mul price quantity) multiplier) (fee_NotionalBPS fees)) in *.
  set (base := if first then _ else _).
  pose proof (Round_near (Add base (Div numerator (NewFromInt 10000))) fees.(fee_Scale)) as Hround.
  pose proof (Div_half numerator (NewFromInt 10000) Hz) as Hhalf.
  assert (Hb : val base == val fees.(fee_PerUnit) * val quantity + (if first then val fees.(fee_PerOrder) else 0)).
  { subst base. destruct first; rewrite ?val_Add, val_Mul; lra. }
  assert (Hn : val numerator / val (NewFromInt 10000) ==
    val price * val quantity * val multiplier * val fees.(fee_NotionalBPS) / 10000).
  { subst numerator. by rewrite !val_Mul, val_NewFromInt. }
  unfold exact_fee. rewrite <- Hb, <- Hn. rewrite Hn in Hhalf. rewrite Hn.
  rewrite val_Add in Hround. revert Hround Hhalf.
  generalize (val (Round (Add base (Div numerator (NewFromInt 10000))) (fee_Scale fees))), (val (Div numerator (NewFromInt 10000))).
  intros rounded quotient. rewrite !Qabs_Qle_condition. intros ? ?. lra.
Qed.

(** C38: the fee of a fill is a nonnegative multiple of the currency unit of the
    policy, within half a unit and the rounding of one division of the exact
    fee; an absent fee stands for an amount that rounds to zero, so a recorded
    one is positive. *)
Theorem fill_fee_bounds input p class asset quantity price multiplier first fee :
  NewPolicy input = Ok p -> Policy_AssetPolicy (Some p) class = Some asset ->
  FillFee (Some p) class quantity price multiplier first = Ok fee ->
  let fees := asset.(asset_Fees) in
  (exists k : Z, (0 <= k)%Z /\ fee_value fee == inject_Z k * (10 # 1) ^ (- fees.(fee_Scale))) /\
  Qabs (fee_value fee - exact_fee fees (val quantity) (val price) (val multiplier) first) <=
    (1 # 2) * (10 # 1) ^ (- fees.(fee_Scale)) + (1 # 2) * (10 # 1) ^ (- 16) /\
  (forall f, fee = Some f -> 0 < val f).
Proof.
  intros Hp Ha. unfold FillFee. rewrite Ha. intros Hf. inv_ok Hf.
  match goal with Hr : raw_fee _ _ _ _ _ = Ok ?f |- _ => destruct (raw_fee_near _ _ _ _ _ _ Hr) as [(k & Hk) Hnear]; rename f into raw end.
  pose proof (ten_power_pos (- asset.(asset_Fees).(fee_Scale))) as Hten.
  destruct (IsZero raw) eqn:Hz.
  - injection Hf as <-. dec_bools. cbn [fee_value]. split_and!; [|by rewrite Hz in Hnear|done].
    exists 0%Z. split; [done|]. change (inject_Z 0) with 0. lra.
  - inv_ok Hf. subst fee. match goal with Hp : validatePositivePolicyDecimal raw = Ok _ |- _ => apply positive_decimal_facts in Hp as [Hv _] end.
    cbn [fee_value]. split_and!; [|done|by intros ? [= <-]]. exists k. split; [|done].
    rewrite Hk in Hv. apply Z.lt_le_incl. rewrite Zlt_Qlt. change (inject_Z 0) with 0.
    apply (Qmult_lt_r _ _ _ Hten). lra.
Qed.

(** ** Sessions and classes are unambiguous *)

Lemma sessions_apart sessions :
  Forall (fun s => (instant s.(ses_OpenAt) < instant s.(ses_CloseAt))%Z) sessions -> sessions_overlap sessions = false ->
  StronglySorted (fun s s' => (instant s.(ses_CloseAt) <= instant s'.(ses_OpenAt))%Z) sessions.
Proof.
  induction sessions as [|s [|s' sessions] IH]; intros Hopen Ho; [constructor|by repeat constructor|].
  cbn [sessions_overlap] in Ho. apply orb_false_iff in Ho as [Hb Ho]. unfold Before in Hb. apply Z.ltb_ge in Hb.
  apply Forall_cons in Hopen as [_ Hopen]. specialize (IH Hopen Ho). constructor; [done|].
  apply StronglySorted_inv in IH as [_ Hall]. apply Forall_cons in Hopen as [Hs' _]. constructor; [done|].
  eapply Forall_impl; [exact Hall|]. cbv beta. intros x Hx. lia.
Qed.

Lemma sorted_contains sessions t s s' :
  StronglySorted (fun s s' => (instant s.(ses_CloseAt) <= instant s'.(ses_OpenAt))%Z) sessions ->
  s ∈ sessions -> s' ∈ sessions -> in_session t s = true -> in_session t s' = true -> s = s'.
Proof.
  unfold in_session, Before. intros Hs. rewrite !andb_true_iff, !negb_true_iff, !Z.ltb_lt, !Z.ltb_ge.
  induction Hs as [|x sessions _ IH Hx]; intros Hin Hin' [] []; [by apply elem_of_nil in Hin|]. rewrite Forall_forall in Hx.
  apply elem_of_cons in Hin as [-> |Hin], Hin' as [-> |Hin']; auto.
  - specialize (Hx s' Hin'). lia.
  - specialize (Hx s Hin). lia.
Qed.

Lemma calendar_apart input tif calendar t s s' : normalizeCalendar input tif = Ok calendar ->
  s ∈ calendar.(cal_Sessions) -> s' ∈ calendar.(cal_Sessions) -> in_session t s = true -> in_session t s' = true -> s = s'.
Proof.
  intros Hn Hs. pose proof (calendar_facts _ _ _ Hn) as Hopen. revert Hn Hs. unfold normalizeCalendar.
  destruct (cal_Kind input); intros Hn; inv_ok Hn; subst; cbn [cal_Sessions] in *; intros Hs; [|by apply elem_of_nil in Hs].
  apply sorted_contains; [|done]. apply sessions_apart; [by apply Forall_forall|done].
Qed.

Lemma normalize_assets_distinct assets seen normalized : normalize_assets assets seen = Ok normalized ->
  NoDup (asset_AssetClass <$> normalized) /\ Forall (fun a => a.(asset_AssetClass) ∉ seen) normalized /\
  Forall (fun a => exists input tif, normalizeCalendar input tif = Ok a.(asset_Calendar)) normalized.
Proof.
  revert seen normalized. induction assets as [|x assets IH]; intros seen normalized; cbn [normalize_assets].
  { intros [= <-]. repeat constructor. }
  intros Hn. inv_ok Hn. subst normalized. split_bools.
  match goal with Ha : normalizeAssetPolicy _ = Ok ?y |- _ =>
    pose proof (asset_policy_sound _ _ Ha) as [_ Hclass]; unfold normalizeAssetPolicy in Ha; inv_ok Ha; subst y end.
  match goal with Hr : normalize_assets _ _ = Ok _ |- _ => apply IH in Hr as (N1 & N2 & N3) end. cbn [asset_AssetClass] in *.
  split_and!.
  - cbn. constructor; [|done]. intros (a & Heq & Hin)%list_elem_of_fmap. rewrite Forall_forall in N2. apply (N2 a Hin). rewrite <- Heq. by left.
  - constructor; [done|]. eapply Forall_impl; [exact N2|]. cbv beta. intros a Ha Hin. apply Ha. by right.
  - constructor; [|done]. cbn. eauto.
Qed.

(** a policy is well formed: it takes only supported asset classes, each
    once; market and limit orders with the four times in force; a
    participation in (0, 1] with at most twelve decimals; a nonnegative
    latency and nonnegative fees; a positive quote age; and sessions that open
    before they close and do not overlap, so an order is routed in at most one. *)
Theorem policy_well_formed input p : NewPolicy input = Ok p ->
  Forall sound_asset p.(pol_assets) /\ NoDup (asset_AssetClass <$> p.(pol_assets)) /\
  (forall class t asset s s', Policy_AssetPolicy (Some p) class = Some asset ->
     s ∈ asset.(asset_Calendar).(cal_Sessions) -> in_session t s = true ->
     RouteSession (Some p) class t = Ok (Some s') -> s' = s).
Proof.
  intros Hp. split; [by eapply policy_sound|]. unfold NewPolicy in Hp. inv_ok Hp. subst p. cbn [pol_assets].
  match goal with Hn : normalize_assets _ _ = Ok ?l |- _ => apply normalize_assets_distinct in Hn as (H1' & _ & H3); rename l into assets end.
  split; [by rewrite sort_slice_perm|]. intros class t asset s s' Hf Hs Ht Hr.
  pose proof Hf as [Hin _]%found_asset. cbn [pol_assets] in Hin. rewrite sort_slice_perm in Hin. rewrite Forall_forall in H3.
  destruct (H3 asset Hin) as (input' & tif & Hcal). unfold RouteSession in Hr. rewrite Hf in Hr. inv_ok Hr.
  destruct (_ ==? CalendarContinuous24x7); [done|]. destruct (List.find _ _) as [s0|] eqn:Hfind; [|done]. simplify_eq.
  apply find_some in Hfind as [Hin' Ht']. apply list_elem_of_In in Hin'. by eapply calendar_apart.
Qed.

(** ** Content addresses *)

(** Two messages with the same SHA-256. *)
Definition sha_collision (m m' : string) : Prop := m <> m' /\ Sum256 m = Sum256 m'.

(** Policies come from the constructor or from a stored artifact. *)
Inductive policy_origin (decode : string -> option (canonicalPolicy * string)) (p : Policy) : Prop :=
  | origin_built input : NewPolicy input = Ok p -> policy_origin decode p
  | origin_restored artifact : PolicyFromArtifact decode artifact = Ok p -> policy_origin decode p.

Lemma origin_built_by decode p : policy_origin decode p -> exists input, NewPolicy input = Ok p.
Proof.
  intros [input Hp|artifact Hp]; [by exists input|]. unfold PolicyFromArtifact in Hp. inv_ok Hp. subst. eauto.
Qed.

Lemma built_identity input p : NewPolicy input = Ok p ->
  p.(pol_schema) = PolicySchemaV1 /\ p.(pol_digest) = EncodeToString (Sum256 p.(pol_canonicalBytes)) /\
  p.(pol_version) = (PolicySchemaV1 +:+ "@sha256:" +:+ p.(pol_digest))%string /\
  p.(pol_artifactID) = DeterministicUUID policyArtifactIDDomain [p.(pol_version)] /\
  p.(pol_canonicalBytes) = marshal_policy (MkCanonicalPolicy p.(pol_schema) (canonicalAsset <$> p.(pol_assets))).
Proof.
  unfold NewPolicy. intros Hp. inv_ok Hp. subst p. split_bools. cbn. by repeat match goal with Hs : TrimSpace _ = _ |- _ => rewrite Hs end.
Qed.

(** The version recorded on an order names one policy. Two policies of the
    same version, built here or restored from storage, have byte for byte the
    same canonical contract and the same identities, unless those bytes are a
    collision of SHA-256. *)
Theorem policy_content_addressed decode p q : policy_origin decode p -> policy_origin decode q ->
  p.(pol_version) = q.(pol_version) ->
  (p.(pol_canonicalBytes) = q.(pol_canonicalBytes) /\ p.(pol_digest) = q.(pol_digest) /\
   p.(pol_artifactID) = q.(pol_artifactID)) \/
  sha_collision p.(pol_canonicalBytes) q.(pol_canonicalBytes).
Proof.
  intros [i Hp]%origin_built_by [j Hq]%origin_built_by Hv.
  apply built_identity in Hp as (_ & Hd & Hpv & Hid & _). apply built_identity in Hq as (_ & Hd' & Hqv & Hid' & _).
  rewrite Hpv, Hqv in Hv. apply append_length_inj in Hv as [_ Hv]; [|done]. apply append_length_inj in Hv as [_ Hv]; [|done].
  destruct (decide (p.(pol_canonicalBytes) = q.(pol_canonicalBytes))) as [Hb|Hb].
  - left. split_and!; [done..|]. by rewrite Hid, Hid', Hpv, Hqv, Hv.
  - right. split; [done|]. apply EncodeToString_inj. congruence.
Qed.
End policy_proofs.
