(* ===== verification/SimulationProofs.v ===== *)
(** * The simulated venue: fills, the consuming loop, evaluations

    What one simulated fill records, the loop over the eligible depth as a greedy
    allocation, and every path through [Evaluate] as a run of the lifecycle. *)

From S2P Require Import Prelude GoStd GoText GoTime Externals Decimals EconomicId EconomicIdProofs TextProofs Account Instrument.
From S2P Require Import Transaction SourceEvent Normalization NormalizationProofs Snapshot Lifecycle LifecycleAggregate.
From S2P Require Import LifecycleProofs LifecycleTheorems LifecycleSafety SnapshotProofs.
From S2P Require Import ProjectionPayload SimulationPolicy SimulationFill SimulationVenue.

From Stdlib Require Import Qminmax.

Local Open Scope go_scope.
#[local] Opaque DeterministicUUID Sum256 json_struct.

(** Case analysis on the minima of the goal and the hypotheses. *)
Ltac min_cases :=
  repeat match goal with
  | |- context [Qmin ?p ?q] => let Hle := fresh in let Heq := fresh in
      destruct (Q.min_spec p q) as [[Hle Heq]|[Hle Heq]]; revert Heq; generalize (Qmin p q); intros ? Heq
  | Hc : context [Qmin ?p ?q] |- _ => let Hle := fresh in let Heq := fresh in
      destruct (Q.min_spec p q) as [[Hle Heq]|[Hle Heq]]; revert Heq; generalize dependent (Qmin p q); intros
  end.

Section simulation_proofs.
Context {E : Externals} {L : ExternalLaws}.
Local Open Scope Q_scope.

(** ** One fill *)

Lemma recordFill_amounts now now' a input t n source : RecordFill now now' (Some a) input = Ok t ->
  input.(recin_Normalization) = Some n -> n.(norm_SourceEvent) = Some source ->
  exists f, t.(tr_Fill) = Some f /\ t.(tr_Normalization) = Some n /\ n.(norm_Quantity) = Some f.(fill_Quantity) /\
    n.(norm_Price) = Some f.(fill_Price) /\ f.(fill_Source) = source.(src_Source) /\
    f.(fill_SourceEventID) = source.(src_SourceEventID).
Proof.
  unfold RecordFill. intros Hcmd Hn Hs. inv_ok Hcmd. facts.
  match type of Hcmd with context [match ?p with _ => _ end] => destruct p as [[kind binding] bindingID] end.
  inv_ok Hcmd. subst t. eexists. split; [reflexivity|]. cbn. by repeat split.
Qed.

Lemma new_normalization_source now input eventType n : newEconomicNormalization now input eventType = Ok n ->
  n.(norm_SourceEvent) = input.(base_SourceEvent).
Proof. unfold newEconomicNormalization. intros Hn. inv_ok Hn. facts. cbn. congruence. Qed.

Lemma fill_normalization_amounts created now now' input n :
  NewFillEconomicNormalization created now now' input = Ok n ->
  n.(norm_Quantity) = Some input.(fillin_Quantity) /\ n.(norm_Price) = Some input.(fillin_Price) /\
  n.(norm_SourceEvent) = input.(fillin_Base).(base_SourceEvent).
Proof.
  unfold NewFillEconomicNormalization, materializeAndValidate. intros Hn. inv_ok Hn.
  match goal with Hs : newEconomicNormalization _ _ _ = Ok _ |- _ => apply new_normalization_source in Hs end.
  subst n. by destruct (fillin_Cost input).
Qed.

(** The identity of the fill of one level of a snapshot. *)
Definition level_source (o : Order) (snapshot : QuoteSnapshot) (l : DepthLevel) : string :=
  simulationFillSourceEventID (uuid_string o.(order_ID)) (uuid_string snapshot.(snap_ID)) l.(lvl_Side) l.(lvl_Level).

Record built_fill (input : simulationFillInput) (a : Aggregate) (o : Order) (t : Transition) (e : FillEffect) : Prop := {
  bf_aggregate : input.(sfi_Aggregate) = Some a;
  bf_order : a.(agg_Order) = Some o;
  bf_command : exists now now' recin, RecordFill now now' (Some a) recin = Ok t;
  bf_fill : t.(tr_Fill) = Some e.(fe_Fill);
  bf_raw : exists n raw, t.(tr_Normalization) = Some n /\ n.(norm_SourceEvent) = Some raw /\
             raw.(src_RawPayload) = e.(fe_Evidence);
  bf_quantity : e.(fe_Quantity) = input.(sfi_Quantity) /\ e.(fe_Fill).(fill_Quantity) = input.(sfi_Quantity);
  bf_price : e.(fe_Price) = input.(sfi_Level).(lvl_Price) /\ e.(fe_Fill).(fill_Price) = input.(sfi_Level).(lvl_Price);
  bf_source : e.(fe_Fill).(fill_Source) = "simulation" /\
              e.(fe_Fill).(fill_SourceEventID) = TrimSpace (level_source o input.(sfi_Snapshot) input.(sfi_Level));
  bf_level : e.(fe_DepthSide) = input.(sfi_Level).(lvl_Side) /\ e.(fe_DepthLevel) = input.(sfi_Level).(lvl_Level) /\
             e.(fe_DisplayedSize) = input.(sfi_Level).(lvl_Size) /\ e.(fe_Capacity) = input.(sfi_Capacity);
  bf_policy : e.(fe_PolicyVersion) = Policy_Version input.(sfi_Policy);
  bf_fee : FillFee input.(sfi_Policy) input.(sfi_Instrument).(inst_AssetClass) input.(sfi_Quantity)
             input.(sfi_Level).(lvl_Price) input.(sfi_VenueContract).(vc_Multiplier) input.(sfi_FirstFill) = Ok e.(fe_Fee);
}.

Lemma build_fill_facts now input t e : buildSimulationFill now input = Ok (t, e) ->
  exists a o, built_fill input a o t e.
Proof.
  unfold buildSimulationFill. intros Hb. inv_ok Hb. facts.
  match goal with Hn : NewFillEconomicNormalization _ _ _ _ = Ok _, Hr : RecordFill _ _ _ _ = Ok _ |- _ =>
    pose proof (fill_normalization_amounts _ _ _ _ _ Hn) as (Q1 & Q2 & Q3); rename Hr into Hrecord end.
  cbn [fillin_Quantity fillin_Price fillin_Base base_SourceEvent] in *.
  match goal with Ha : sfi_Aggregate input = Some ?a, Ho : agg_Order ?a = Some ?o |- _ => rewrite Ha in *; exists a, o end.
  match goal with Hs : NewEconomicSourceEvent _ _ = Ok ?src |- _ =>
    destruct (recordFill_amounts _ _ _ _ _ _ src Hrecord eq_refl Q3) as (f & F1 & F2 & F3 & F4 & F5 & F6);
    unfold NewEconomicSourceEvent in Hs; inv_ok Hs; subst src end.
  rewrite F1 in *. simplify_eq. cbn [src_Source src_SourceEventID src_RawPayload] in *.
  split; cbn [fe_Fill fe_Evidence fe_Quantity fe_Price fe_DepthSide fe_DepthLevel fe_DisplayedSize fe_Capacity
              fe_PolicyVersion fe_Fee]; try done.
  - eauto.
  - eauto.
Qed.

Lemma level_source_plain o snapshot l : l.(lvl_Side) = DepthSideBid \/ l.(lvl_Side) = DepthSideAsk ->
  TrimSpace (level_source o snapshot l) = level_source o snapshot l.
Proof.
  intros Hside. apply TrimSpace_graphic. unfold level_source, simulationFillSourceEventID.
  repeat apply append_graphic; try done; try apply uuid_string_graphic; try apply json_int_graphic.
  by destruct Hside as [-> | ->].
Qed.

Lemma level_source_inj o snapshot l l' : l.(lvl_Side) = l'.(lvl_Side) ->
  level_source o snapshot l = level_source o snapshot l' -> l.(lvl_Level) = l'.(lvl_Level).
Proof.
  unfold level_source, simulationFillSourceEventID. intros -> Heq.
  repeat match type of Heq with (?s +:+ _)%string = (?s +:+ _)%string => destruct (append_length_inj s s _ _ eq_refl Heq) as [_ Heq'];
    clear Heq; rename Heq' into Heq end.
  by apply json_int_inj.
Qed.

(** ** The loop over the eligible levels *)

Definition capacity_of (l : eligibleSimulationLevel) : Q := val l.(el_capacity).
Definition quantity_of (e : FillEffect) : Q := val e.(fe_Quantity).

(** The effect of filling [quantity] units of one eligible level. *)
Record effect_of (policy : option Policy) (request : EvaluationRequest) (o : Order) (l : eligibleSimulationLevel)
    (e : FillEffect) : Prop := {
  ef_level : e.(fe_DepthSide) = l.(el_level).(lvl_Side) /\ e.(fe_DepthLevel) = l.(el_level).(lvl_Level) /\
             e.(fe_DisplayedSize) = l.(el_level).(lvl_Size) /\ e.(fe_Capacity) = l.(el_capacity);
  ef_price : e.(fe_Price) = l.(el_level).(lvl_Price) /\ e.(fe_Fill).(fill_Price) = l.(el_level).(lvl_Price);
  ef_quantity : e.(fe_Fill).(fill_Quantity) = e.(fe_Quantity);
  ef_source : e.(fe_Fill).(fill_Source) = "simulation" /\
              e.(fe_Fill).(fill_SourceEventID) = TrimSpace (level_source o request.(req_Snapshot) l.(el_level));
  ef_policy : e.(fe_PolicyVersion) = Policy_Version policy;
  ef_fee : exists first, FillFee policy request.(req_Instrument).(inst_AssetClass) e.(fe_Quantity)
             l.(el_level).(lvl_Price) request.(req_VenueContract).(vc_Multiplier) first = Ok e.(fe_Fee);
}.

(** A transition carries a fill and its raw source event, or neither. *)
Definition storable (t : Transition) : Prop :=
  match t.(tr_Fill) with
  | Some _ => is_Some (t.(tr_Normalization) ≫= norm_SourceEvent)
  | None => t.(tr_Normalization) = None
  end.

(** What the loop has done when it ends: a run of the lifecycle that recorded
    one fill per level of a prefix of the eligible levels, the [i]-th one for
    what the levels before it left of the order, at most its capacity. *)
Record consumed (policy : option Policy) (request : EvaluationRequest) (o : Order)
    (levels : list eligibleSimulationLevel) (a : Aggregate) (remaining : Q) (ts : list Transition)
    (es : list FillEffect) (a' : Aggregate) : Prop := {
  co_run : run a ts a';
  co_fills : a'.(agg_Fills) = a.(agg_Fills) ++ (fe_Fill <$> es);
  co_order : a'.(agg_Order) = Some o;
  co_transitions : (tr_Fill <$> ts) = (fun e => Some e.(fe_Fill)) <$> es;
  co_effects i e : es !! i = Some e -> exists l, levels !! i = Some l /\ effect_of policy request o l e /\
    0 < quantity_of e /\ quantity_of e == Qmin (capacity_of l) (remaining - sumQ capacity_of (take i levels));
  co_total : sumQ quantity_of es == Qmin remaining (sumQ capacity_of levels);
  co_storable : Forall storable ts;
  co_state : es <> [] -> a'.(agg_State) = StatePartiallyFilled \/ a'.(agg_State) = StateFilled;
}.

Lemma recorded_applied now now' a input t f a' : RecordFill now now' (Some a) input = Ok t -> t.(tr_Fill) = Some f ->
  ApplyTransition (Some a) (Some t) = Ok a' ->
  a'.(agg_Fills) = a.(agg_Fills) ++ [f] /\ a'.(agg_Order) = a.(agg_Order) /\
  (a'.(agg_State) = StatePartiallyFilled \/ a'.(agg_State) = StateFilled).
Proof.
  intros (o & f' & n & src & tx & b & e & Hf)%recordFill_facts Hfill Happ%applied_case.
  destruct Hf as [-> ? ? ? ? ? ? ? ? (_ & _ & Hnext) Hkind]. cbn in Hfill. simplify_eq.
  assert (Hcase : apply_fill a (MkTransition e None b (Some f) (Some n)) = Ok a').
  { unfold apply_case in Happ. cbn [tr_Event] in Happ. by destruct Hkind as [(_ & Hk & _)|(_ & Hk & _)]; rewrite Hk in Happ. }
  apply apply_fill_facts in Hcase as (o' & b' & f' & []). cbn [tr_Fill tr_Event] in *. simplify_eq. cbn [agg_Fills agg_Order agg_State advance].
  split_and!; [done..|]. rewrite Hnext. destruct (Equal _ _); auto.
Qed.

Lemma sumQ_capacity_nonneg levels : Forall (fun l => 0 < capacity_of l) levels -> 0 <= sumQ capacity_of levels.
Proof. induction 1; cbn [sumQ]; lra. Qed.

Lemma fill_levels_consumed now policy asset request assessment session levels a o remaining ts es a' ts' es' :
  a.(agg_Order) = Some o -> 0 <= val remaining -> Forall (fun l => 0 < capacity_of l) levels ->
  fill_levels now policy asset request assessment session levels a remaining ts es = Ok (a', ts', es') ->
  exists nts nes, ts' = ts ++ nts /\ es' = es ++ nes /\
    consumed policy request o levels a (val remaining) nts nes a'.
Proof.
  revert a remaining ts es. induction levels as [|l levels IH]; intros a remaining ts es Ho Hrem Hpos; cbn [fill_levels].
  { intros [= <- <- <-]. exists [], []. rewrite !app_nil_r. split_and!; [done..|]. split; try done; [constructor| |].
    - by rewrite app_nil_r.
    - cbn. by rewrite Q.min_r. }
  apply Forall_cons in Hpos as [Hl Hpos]. cbv beta in Hl. pose proof (sumQ_capacity_nonneg _ Hpos) as Hsum.
  destruct (IsZero remaining) eqn:Hz.
  { intros [= <- <- <-]. exists [], []. rewrite !app_nil_r. dec_bools. split_and!; [done..|].
    split; try done; [constructor|by rewrite app_nil_r|]. cbn [sumQ]. rewrite Q.min_l; [by symmetry|]. lra. }
  assert (Hleft : 0 < val remaining) by (dec_bools; apply Qle_lteq in Hrem as [?|Hr]; [done|by symmetry in Hr]).
  set (quantity := if GreaterThan _ _ then _ else _). 
  assert (Hq : val quantity == Qmin (capacity_of l) (val remaining)).
  { subst quantity. unfold capacity_of. destruct (GreaterThan _ _) eqn:Hg; dec_bools; [rewrite Q.min_r|rewrite Q.min_l]; lra. }
  clearbody quantity. intros Hrun. apply bind_Ok in Hrun as ([t e] & Hbuild & Hrun).
  inv_ok Hrun. match goal with Ha : ApplyTransition _ _ = Ok ?n |- _ => rename Ha into Happ, n into next end.
  apply build_fill_facts in Hbuild as (a0 & o0 & [Ha Ho0 (n1 & n2 & recin & Hrec) Hfill (rn & raw & Hrn & Hraw & _) [Q1 Q2] [P1 P2] Hsrc Hlevel Hpol Hfee]).
  cbn [sfi_Aggregate sfi_Quantity sfi_Level sfi_Capacity sfi_Snapshot sfi_Policy sfi_Instrument sfi_VenueContract sfi_FirstFill] in *.
  injection Ha as <-. assert (o0 = o) as -> by congruence. destruct (recorded_applied _ _ _ _ _ _ _ Hrec Hfill Happ) as (F1 & F2 & F3).
  assert (Hrem' : 0 <= val (Sub remaining quantity)).
  { rewrite val_Sub, Hq. pose proof (Q.le_min_r (capacity_of l) (val remaining)). lra. }
  apply IH in Hrun as (nts & nes & -> & -> & [C1 C2 C3 C4 C5 C6 C8 C7]); [|congruence|done|done].
  exists (t :: nts), (e :: nes). rewrite <- !app_assoc. split_and!; [done..|].
  assert (Hval : val (Sub remaining quantity) == val remaining - val quantity) by apply val_Sub.
  split.
  - by econstructor; [constructor|].
  - by rewrite C2, F1, <- app_assoc.
  - done.
  - cbn. by rewrite Hfill, C4.
  - intros [|i] e' He'; cbn in He'.
    + injection He' as <-. exists l. split; [done|]. split; [split; try done; rewrite ?Q1; eauto; congruence|]. cbn. unfold quantity_of. rewrite Q1, Hq. split; [min_cases; lra|min_cases; lra].
    + destruct (C5 i e' He') as (l' & Hl' & Heff & Hqp & Hqi). exists l'. split; [done|]. split; [done|]. split; [done|].
      rewrite Hqi in Hqp |- *. cbn [take sumQ]. rewrite Hval, Hq in *.
      pose proof (sumQ_capacity_nonneg (take i levels) (Forall_take _ _ _ Hpos)). min_cases; lra.
  - cbn [sumQ]. rewrite C6. unfold quantity_of at 1. rewrite Q1, Hval, Hq. min_cases; lra.
  - constructor; [|done]. unfold storable. rewrite Hfill, Hrn. cbn. by rewrite Hraw.
  - intros _. destruct nes as [|e' nes]; [|by apply C7].
    destruct nts as [|t' nts]; [|done]. by inversion C1; subst.
Qed.

(** ** Terminal and working observations *)

Lemma applyTerminal_facts now venue result request kind decision reason sourceAt snapshot session r a :
  applyTerminal now venue result request kind decision reason sourceAt snapshot session = Ok r ->
  result.(res_Aggregate) = Some a ->
  exists t a' next, r = MkResult decision (Some a') (result.(res_Transitions) ++ [t]) result.(res_Fills) /\
    terminal_of kind = Some next /\ observed a t a' next.
Proof.
  unfold applyTerminal. intros Ht Ha. inv_ok Ht. facts.
  match goal with Ho : ObserveOrderTerminal _ _ _ _ _ = Ok _, Hp : ApplyTransition _ _ = Ok _ |- _ =>
    destruct (terminal_observed _ _ _ _ _ _ _ Ho Hp) as (next & Hn & Hobs) end. eauto 10.
Qed.

Lemma ensureWorking_facts now venue result request session decision reason r a :
  ensureWorking now venue result request session decision reason = Ok r -> result.(res_Aggregate) = Some a ->
  (a.(agg_State) <> StateRouted /\
   r = MkResult decision (Some a) result.(res_Transitions) result.(res_Fills)) \/
  (a.(agg_State) = StateRouted /\ exists t a',
   r = MkResult decision (Some a') (result.(res_Transitions) ++ [t]) result.(res_Fills) /\
   observed a t a' StateWorking).
Proof.
  unfold ensureWorking. intros Hw Ha. rewrite Ha in Hw. cbn [deref mbind outcome_bind] in Hw.
  destruct (_ !=? StateRouted) eqn:Hst; split_bools.
  - left. split; [done|]. by injection Hw.
  - right. split; [done|]. inv_ok Hw. facts.
    match goal with Ho : Acknowledge _ _ _ _ _ = Ok _, Hp : ApplyTransition _ _ = Ok _ |- _ =>
      pose proof (working_observed _ _ _ _ _ _ _ Ho Hp) end. eauto.
Qed.

(** ** Eligible levels *)

Record eligible (a : Aggregate) (o : Order) (snapshot : QuoteSnapshot) (asset : AssetPolicy) (lot : dec)
    (l : eligibleSimulationLevel) : Prop := {
  eg_depth : l.(el_level) ∈ snapshot.(snap_Depth);
  eg_side : l.(el_level).(lvl_Side) = depth_side o;
  eg_crosses : simulationLevelCrosses o l.(el_level).(lvl_Price) = true;
  eg_fresh : simulationAggregateHasSourceEvent (Some a) (level_source o snapshot l.(el_level)) = false;
  eg_capacity : floorSimulationLot (Mul l.(el_level).(lvl_Size) asset.(asset_MaxDepthParticipation)) lot =
                Ok l.(el_capacity);
  eg_positive : 0 < capacity_of l;
}.

Lemma eligible_levels_facts a o snapshot asset lot levels : eligibleLevels a o snapshot asset lot = Ok levels ->
  Forall (eligible a o snapshot asset lot) levels /\ (el_level <$> levels) `sublist_of` snapshot.(snap_Depth).
Proof.
  unfold eligibleLevels. assert (Hsub : snapshot.(snap_Depth) ⊆ snapshot.(snap_Depth)) by done.
  revert Hsub levels. generalize (snap_Depth snapshot) at 1 3 4. intros depth.
  induction depth as [|d depth IH]; cbn [eligible_of]; intros Hsub levels Hl.
  { injection Hl as <-. split; constructor. }
  assert (Htail : depth ⊆ snapshot.(snap_Depth)) by set_solver.
  destruct (_ || _) eqn:Hside; [destruct (IH Htail _ Hl); split; [done|by constructor]|].
  destruct (simulationAggregateHasSourceEvent _ _) eqn:Hsrc; [destruct (IH Htail _ Hl); split; [done|by constructor]|].
  apply bind_Ok in Hl as (capacity & Hcap & Hl).
  destruct (IsPositive capacity) eqn:Hpos; cbn [negb] in Hl; [|destruct (IH Htail _ Hl); split; [done|by constructor]].
  inv_ok Hl. subst levels. match goal with He : eligible_of _ _ _ _ _ _ = Ok _ |- _ => destruct (IH Htail _ He) as [IH1 IH2] end.
  split_bools. dec_bools. split; [|by constructor]. constructor; [|done].
  split; cbn [el_level el_capacity]; try done. set_solver.
Qed.

(** ** The request *)

Record validated (venue : option Venue) (request : EvaluationRequest) (p : Policy) (asset : AssetPolicy)
    (session : option SessionWindow) (a : Aggregate) (o : Order) : Prop := {
  va_policy : Venue_policy venue = Some p;
  va_aggregate : request.(req_Aggregate) = Some a;
  va_order : a.(agg_Order) = Some o;
  va_time : request.(req_EvaluatedAt) = utc_micro request.(req_EvaluatedAt) /\
            (instant o.(order_RoutedAt) <= instant request.(req_EvaluatedAt))%Z;
  va_account : Account_Validate request.(req_Account) = Ok tt /\ request.(req_Account).(acct_Status) = AccountStatusActive;
  va_contract : VenueContract_Validate request.(req_VenueContract) = Ok tt;
  va_valid : Intent_Validate a.(agg_Intent) = Ok tt /\ Order_Validate o = Ok tt;
  va_references : check_references request a o = Ok tt;
  va_version : o.(order_PolicyKind) = PolicySimulation /\ o.(order_PolicyVersion) = p.(pol_version);
  va_asset : Policy_AssetPolicy (Some p) request.(req_Instrument).(inst_AssetClass) = Some asset;
  va_instruction : o.(order_OrderType) ∈ asset.(asset_OrderTypes) /\ o.(order_TimeInForce) ∈ asset.(asset_TimeInForce);
  va_session : match session with
               | Some s => s ∈ asset.(asset_Calendar).(cal_Sessions) /\ in_session o.(order_RoutedAt) s = true
               | None => asset.(asset_Calendar).(cal_Kind) = CalendarContinuous24x7 \/
                         asset.(asset_Calendar).(cal_Kind) = CalendarExplicitSessions /\
                         Forall (fun s => in_session o.(order_RoutedAt) s = false) asset.(asset_Calendar).(cal_Sessions)
               end;
}.

Lemma venue_reject_Ok b code detail u : venue_reject b code detail = Ok u <-> b = false.
Proof. destruct b, u; cbn; naive_solver. Qed.

Lemma venue_wrap_Ok {A} code detail (m : outcome A) x : venue_wrap code detail m = Ok x <-> m = Ok x.
Proof. destruct m; cbn; naive_solver. Qed.

Ltac venue_facts := repeat match goal with
  | Hr : venue_reject _ _ _ = Ok _ |- _ => apply venue_reject_Ok in Hr
  | Hw : venue_wrap _ _ _ = Ok ?u |- _ => apply venue_wrap_Ok in Hw; try match type of u with unit => is_var u; destruct u end
  end; split_bools.

Lemma contains_order_type values target : containsSimulationOrderType values target = true -> target ∈ values.
Proof. intros (v & Hin & Hv%bool_decide_eq_true)%existsb_exists. subst. by apply list_elem_of_In. Qed.
Lemma contains_time_in_force values target : containsSimulationTimeInForce values target = true -> target ∈ values.
Proof. intros (v & Hin & Hv%bool_decide_eq_true)%existsb_exists. subst. by apply list_elem_of_In. Qed.

Lemma utc_micro_fixed t : t.(location_utc) = true -> TimeEqual t (TruncateMicro t) = true -> t = utc_micro t.
Proof.
  destruct t as [i u]. unfold utc_micro, UTC, TruncateMicro, TimeEqual. cbn. intros -> Hi%Z.eqb_eq. congruence.
Qed.

Lemma route_session_facts p class asset routedAt r :
  Policy_AssetPolicy (Some p) class = Some asset -> RouteSession (Some p) class routedAt = r ->
  match r with
  | Ok (Some s) => s ∈ asset.(asset_Calendar).(cal_Sessions) /\ in_session routedAt s = true
  | Ok None => asset.(asset_Calendar).(cal_Kind) = CalendarContinuous24x7
  | Err e => error_mentions e "outside explicit sessions" = true ->
             Forall (fun s => in_session routedAt s = false) asset.(asset_Calendar).(cal_Sessions)
  | Panic _ => True
  end.
Proof.
  unfold RouteSession. intros -> <-. unfold validatePolicyTime, reject. destruct (_ || _); [cbn; by vm_compute|].
  cbn [mbind outcome_bind]. destruct (_ ==? CalendarContinuous24x7) eqn:Hk; [by split_bools|].
  destruct (List.find _ _) as [s|] eqn:Hf.
  - apply find_some in Hf as [Hin Hs]. split; [by apply list_elem_of_In|done].
  - intros _. apply Forall_forall. intros s Hs. apply (find_none _ _ Hf). by apply list_elem_of_In.
Qed.

Lemma validate_request_facts venue request asset session : validateRequest venue request = Ok (asset, session) ->
  exists p a o, validated venue request p asset session a o.
Proof.
  unfold validateRequest. intros Hv. inv_ok Hv. venue_facts. facts.
  repeat match goal with
  | Hm : match ?o with Some _ => Ok _ | None => Err _ end = Ok _ |- _ => destruct o eqn:?; [injection Hm as <-|done]
  end.
  match goal with Hp : Venue_policy venue = Some ?p, Ha : req_Aggregate request = Some ?a, Ho : agg_Order ?a = Some ?o |- _ =>
    exists p, a, o; rewrite Hp in * end.
  match goal with Hc : check_references _ _ _ = Ok ?u |- _ => destruct u end.
  match goal with Hs : match RouteSession (Some ?p) ?c ?t with _ => _ end = _, Hf : Policy_AssetPolicy _ _ = Some _ |- _ =>
    pose proof (route_session_facts p c _ t _ Hf eq_refl) as Hsession; rename Hs into Hroute end.
  unfold Before in *. rewrite Z.ltb_ge in *.
  destruct (RouteSession _ _ _) as [s|e|]; [|destruct (_ && _) eqn:Hk; [|done]|done]; injection Hroute as <- <-;
    (split; try done; [split; [by apply utc_micro_fixed|done]| |]);
    try (split; [by apply contains_order_type|by apply contains_time_in_force]).
  - destruct s; auto.
  - split_bools. auto.
Qed.

(** ** Every path through an evaluation *)

(** The order is acknowledged when it was only routed. *)
Inductive working (a : Aggregate) : list Transition -> Aggregate -> Prop :=
  | working_kept : a.(agg_State) <> StateRouted -> working a [] a
  | working_acknowledged t a' : a.(agg_State) = StateRouted -> observed a t a' StateWorking -> working a [t] a'.

(** How an evaluation ends after the loop. *)
Inductive ending (o : Order) (es : list FillEffect) (a : Aggregate) : Decision -> list Transition -> Aggregate -> Prop :=
  | end_filled : a.(agg_State) = StateFilled -> ending o es a DecisionFilled [] a
  | end_cancelled t a' : a.(agg_State) <> StateFilled -> o.(order_TimeInForce) = TimeInForceIOC ->
      observed a t a' StateCancelled -> ending o es a DecisionCancelled [t] a'
  | end_partial : a.(agg_State) <> StateFilled -> o.(order_TimeInForce) <> TimeInForceIOC -> es <> [] ->
      ending o es a DecisionPartiallyFilled [] a
  | end_resting ts a' : a.(agg_State) <> StateFilled -> o.(order_TimeInForce) <> TimeInForceIOC -> es = [] ->
      working a ts a' -> ending o es a DecisionResting ts a'.

(** The quote is executable at the evaluation, and the order could reach it. *)
Record marketable (request : EvaluationRequest) (asset : AssetPolicy) (o : Order) (q : QuoteAssessment) : Prop := {
  mk_quote : executable_quote request.(req_Snapshot) asset.(asset_QuoteRequirements) request.(req_Instrument)
               request.(req_VenueContract) request.(req_EvaluatedAt) q;
  mk_book : QuoteSnapshot_Validate request.(req_Snapshot) = Ok tt;
  mk_latency : exists t, request.(req_Snapshot).(snap_AvailableAt) = Some t /\
               (instant o.(order_RoutedAt) + asset.(asset_FixedLatency) <= instant t)%Z;
}.

Definition left_of (a : Aggregate) (o : Order) : Q := val o.(order_Quantity) - filled a.

Inductive evaluation (p : Policy) (request : EvaluationRequest) (asset : AssetPolicy) (session : option SessionWindow)
    (a : Aggregate) (o : Order) : Result -> Prop :=
  | ev_terminal : terminalSimulationState a.(agg_State) = true ->
      evaluation p request asset session a o (MkResult DecisionNoop (Some a) [] [])
  | ev_outside t a' : terminalSimulationState a.(agg_State) = false -> session = None ->
      asset.(asset_Calendar).(cal_Kind) = CalendarExplicitSessions -> observed a t a' StateRejected ->
      evaluation p request asset session a o (MkResult DecisionRejected (Some a') [t] [])
  | ev_expired s t a' : terminalSimulationState a.(agg_State) = false -> session = Some s ->
      o.(order_TimeInForce) = TimeInForceDay -> (instant s.(ses_CloseAt) <= instant request.(req_EvaluatedAt))%Z ->
      observed a t a' StateExpired ->
      evaluation p request asset session a o (MkResult DecisionExpired (Some a') [t] [])
  | ev_closed ts a' : terminalSimulationState a.(agg_State) = false -> o.(order_TimeInForce) = TimeInForceGTC ->
      working a ts a' -> evaluation p request asset session a o (MkResult DecisionResting (Some a') ts [])
  | ev_latency : terminalSimulationState a.(agg_State) = false ->
      o.(order_TimeInForce) = TimeInForceIOC \/ o.(order_TimeInForce) = TimeInForceFOK ->
      evaluation p request asset session a o (MkResult DecisionWaitingLatency (Some a) [] [])
  | ev_waiting ts a' : terminalSimulationState a.(agg_State) = false ->
      o.(order_TimeInForce) <> TimeInForceIOC -> o.(order_TimeInForce) <> TimeInForceFOK -> working a ts a' ->
      evaluation p request asset session a o (MkResult DecisionWaitingLatency (Some a') ts [])
  | ev_insufficient levels t a' q : terminalSimulationState a.(agg_State) = false ->
      o.(order_TimeInForce) = TimeInForceFOK -> marketable request asset o q ->
      eligibleLevels a o request.(req_Snapshot) asset request.(req_VenueContract).(vc_LotSize) = Ok levels ->
      sumQ capacity_of levels < left_of a o -> observed a t a' StateRejected ->
      evaluation p request asset session a o (MkResult DecisionRejected (Some a') [t] [])
  | ev_matched levels ts es a' d us a'' q : terminalSimulationState a.(agg_State) = false -> marketable request asset o q ->
      eligibleLevels a o request.(req_Snapshot) asset request.(req_VenueContract).(vc_LotSize) = Ok levels ->
      (o.(order_TimeInForce) = TimeInForceFOK -> left_of a o <= sumQ capacity_of levels) ->
      consumed (Some p) request o levels a (left_of a o) ts es a' -> ending o es a' d us a'' ->
      evaluation p request asset session a o (MkResult d (Some a'') (ts ++ us) es).

Lemma total_capacity_val levels : val (total_capacity levels) == sumQ capacity_of levels.
Proof.
  unfold total_capacity. assert (Hs : forall start, val (foldl (fun total l => Add total l.(el_capacity)) start levels) ==
    val start + sumQ capacity_of levels).
  { induction levels as [|l levels IH]; intros start; cbn [foldl sumQ]; [lra|]. rewrite IH, val_Add. unfold capacity_of at 2. lra. }
  rewrite Hs, val_Zero. lra.
Qed.

Lemma remaining_val a o : val (Sub o.(order_Quantity) (simulationFilledQuantity (Some a))) == left_of a o.
Proof. rewrite val_Sub. unfold left_of, filled. by rewrite <- sumFillQuantity_val. Qed.

#[local] Instance consumed_proper policy request o levels a :
  Proper (Qeq ==> eq ==> eq ==> eq ==> impl) (consumed policy request o levels a).
Proof.
  intros r r' Hr ts ? <- es ? <- a' ? <- [C1 C2 C3 C4 C5 C6 C8 C7]. split; try done.
  - intros i e He. destruct (C5 i e He) as (l & Hl & Hef & Hp & Hq). exists l. by rewrite Hq, <- Hr in *.
  - by rewrite C6, Hr.
Qed.

Lemma after_fills_ending now venue request o session a ts es r :
  after_fills now venue request o session a ts es = Ok r ->
  exists d us a', r = MkResult d (Some a') (ts ++ us) es /\ ending o es a d us a'.
Proof.
  unfold after_fills. destruct (_ ==? StateFilled) eqn:Hfilled; split_bools.
  { intros [= <-]. do 3 eexists. split; [by rewrite app_nil_r|by constructor]. }
  destruct (_ ==? TimeInForceIOC) eqn:Hioc; split_bools.
  { intros Ht. eapply applyTerminal_facts in Ht as (t & a' & next & -> & [= <-] & Hobs); [|reflexivity].
    do 3 eexists. split; [reflexivity|by econstructor]. }
  destruct (0 <? length es)%nat eqn:Hlen.
  { intros [= <-]. do 3 eexists. split; [by rewrite app_nil_r|]. constructor; try done. by intros ->. }
  intros Hw. assert (es = []) as -> by (destruct es; [done|cbn in Hlen; discriminate]).
  eapply ensureWorking_facts in Hw as [(Hst & ->)|(Hst & t & a' & -> & Hobs)]; [| |reflexivity]; cbn [res_Transitions res_Fills].
  - do 3 eexists. split; [by rewrite <- (app_nil_r ts) at 1|]. econstructor; try done. by constructor.
  - do 3 eexists. split; [reflexivity|]. econstructor; try done. by constructor.
Qed.

Lemma ensureWorking_working now venue request session decision reason r a :
  ensureWorking now venue (MkResult DecisionNoop (Some a) [] []) request session decision reason = Ok r ->
  exists ts a', r = MkResult decision (Some a') ts [] /\ working a ts a'.
Proof.
  intros Hw. eapply ensureWorking_facts in Hw as [(Hst & ->)|(Hst & t & a' & -> & Hobs)]; [| |reflexivity];
    do 2 eexists; (split; [reflexivity|by constructor]).
Qed.

Lemma evaluate_quote_spec now venue request p asset session a o r : lifecycle_inv a ->
  validated venue request p asset session a o -> terminalSimulationState a.(agg_State) = false ->
  evaluate_quote now venue request asset session a o = Ok r -> evaluation p request asset session a o r.
Proof.
  intros Hinv Hval Hopen. unfold evaluate_quote. intros He. inv_ok He. venue_facts.
  match goal with Hq : AssessForExecution _ _ _ _ _ = Ok ?q |- _ =>
    pose proof (executable_facts _ _ _ _ _ _ Hq) as Hquote; rename q into assessment, Hq into Hassess end.
  rewrite <- (proj1 (va_time _ _ _ _ _ _ _ Hval)) in Hquote.
  assert (Hbook : QuoteSnapshot_Validate request.(req_Snapshot) = Ok tt).
  { unfold AssessForExecution in Hassess. inv_ok Hassess.
    match goal with Hx : Assess _ _ _ = Ok _ |- _ => apply assess_facts in Hx as (_ & _ & _ & _ & [] & Hx) end. done. }
  match type of He with (if ?c then _ else _) = _ => destruct c eqn:Hlat end.
  { destruct (_ || _) eqn:Htif.
    - injection He as <-. constructor; [done|]. apply orb_true_iff in Htif as [?|?]; split_bools; auto.
    - split_bools. apply ensureWorking_working in He as (ts & a' & -> & Hw). by constructor. }
  destruct (snap_AvailableAt _) as [t|] eqn:Havail; [|done].
  assert (Hmk : marketable request asset o assessment).
  { split; try done. exists t. split; [done|]. unfold Before, TimeAdd in Hlat. cbn in Hlat. by apply Z.ltb_ge in Hlat. }
  apply bind_Ok in He as (levels & Hlevels & He).
  destruct (eligible_levels_facts _ _ _ _ _ _ Hlevels) as [Heg _].
  pose proof (va_order _ _ _ _ _ _ _ Hval) as Ho.
  assert (Hrem : 0 <= val (Sub o.(order_Quantity) (simulationFilledQuantity (Some a)))).
  { rewrite remaining_val. unfold left_of. pose proof (li_filled a Hinv o Ho). lra. }
  destruct (_ && _) eqn:Hfok.
  { split_bools. dec_bools. rewrite total_capacity_val, remaining_val in *.
    eapply applyTerminal_facts in He as (t' & a' & next & -> & [= <-] & Hobs); [|reflexivity]. by econstructor. }
  apply bind_Ok in He as ([[current ts] es] & Hloop & He).
  eapply fill_levels_consumed in Hloop as (nts & nes & -> & -> & Hc); [|done|done|by eapply Forall_impl; [exact Heg|]; intros ? []].
  rewrite remaining_val, (va_policy _ _ _ _ _ _ _ Hval) in Hc.
  apply after_fills_ending in He as (d & us & a' & -> & Hend). cbn [app]. econstructor; try done.
  intros Hf. rewrite Hf in Hfok. rewrite bool_decide_eq_true_2 in Hfok by done.
  apply Qnot_lt_le. rewrite <- total_capacity_val, <- remaining_val, <- LessThan_true.
  rewrite andb_true_l in Hfok. by rewrite Hfok.
Qed.

Lemma evaluate_spec now venue request r a : request.(req_Aggregate) = Some a -> lifecycle_inv a ->
  Evaluate now venue request = Ok r ->
  exists p asset session o, validated venue request p asset session a o /\ evaluation p request asset session a o r.
Proof.
  intros Ha Hinv. unfold Evaluate. intros He. apply bind_Ok in He as ([asset session] & Hv & He).
  apply validate_request_facts in Hv as (p & a0 & o & Hval). pose proof (va_aggregate _ _ _ _ _ _ _ Hval).
  pose proof (va_order _ _ _ _ _ _ _ Hval) as Ho. simplify_eq. rewrite Ha in He. cbn [deref mbind outcome_bind] in He.
  rewrite Ho in He. cbn [deref mbind outcome_bind] in He. exists p, asset, session, o. split; [done|].
  destruct (terminalSimulationState _) eqn:Hopen; [injection He as <-; by constructor|].
  destruct (_ && _) eqn:Hout.
  { split_bools. eapply applyTerminal_facts in He as (t & a' & next & -> & [= <-] & Hobs); [|reflexivity]. by constructor. }
  destruct (closed_session _ _ _) as [s|] eqn:Hclosed.
  { clear Hout. unfold closed_session in Hclosed. destruct session as [s'|]; [|done]. destruct (_ && _) eqn:Hc; [|done]. simplify_eq.
    split_bools. unfold Before in *. rewrite Z.ltb_ge in *.
    eapply applyTerminal_facts in He as (t & a' & next & -> & [= <-] & Hobs); [|reflexivity]. by econstructor. }
  destruct (_ && _) eqn:Hgtc in He.
  { split_bools. apply ensureWorking_working in He as (ts & a' & -> & Hw). by constructor. }
  by eapply evaluate_quote_spec.
Qed.
End simulation_proofs.
