(* ===== verification/SimulationTheorems.v ===== *)
(** * The simulated venue: refinement, depth, time in force, uniqueness *)

From S2P Require Import Prelude GoStd GoText GoTime Externals Decimals EconomicId EconomicIdProofs TextProofs Account Instrument.
From S2P Require Import Transaction SourceEvent Normalization NormalizationProofs Snapshot Lifecycle LifecycleAggregate.
From S2P Require Import LifecycleProofs LifecycleTheorems LifecycleSafety SnapshotProofs.
From S2P Require Import ProjectionPayload SimulationPolicy SimulationFill SimulationVenue SimulationPolicyProofs SimulationProofs.
From Stdlib Require Import Qminmax.

Local Open Scope go_scope.
#[local] Opaque DeterministicUUID Sum256 json_struct.

Section simulation_theorems.
Context {E : Externals} {L : ExternalLaws}.
Local Open Scope Q_scope.

(** ** Evaluations are runs of the lifecycle *)

(** A run that ends in [a'] and records exactly these fills. *)
Record recorded (a : Aggregate) (ts : list Transition) (es : list FillEffect) (a' : Aggregate) : Prop := {
  rc_run : run a ts a';
  rc_fills : a'.(agg_Fills) = a.(agg_Fills) ++ (fe_Fill <$> es);
  rc_order : a'.(agg_Order) = a.(agg_Order);
  rc_transitions : omap tr_Fill ts = fe_Fill <$> es;
  rc_storable : Forall storable ts;
}.

Lemma recorded_observed a ts es a' t a'' next : recorded a ts es a' -> observed a' t a'' next ->
  recorded a (ts ++ [t]) es a''.
Proof.
  intros [R1 R2 R3 R4 R5] [Hstep [Hf Hn] [F1 F2] _]. split.
  - eapply run_app; [done|]. econstructor; [done|constructor].
  - congruence.
  - congruence.
  - rewrite omap_app, R4. cbn. rewrite Hf. by rewrite app_nil_r.
  - apply Forall_app. split; [done|]. constructor; [|constructor]. unfold storable. by rewrite Hf.
Qed.

Lemma recorded_nil a : recorded a [] [] a.
Proof. split; try done; [constructor|by rewrite app_nil_r]. Qed.

Lemma recorded_working a ts es a' us a'' : recorded a ts es a' -> working a' us a'' -> recorded a (ts ++ us) es a''.
Proof. intros Hr [|t a3 _ Hobs]; [by rewrite app_nil_r|]. by eapply recorded_observed. Qed.

Lemma recorded_consumed policy request o levels a remaining ts es a' : a.(agg_Order) = Some o ->
  consumed policy request o levels a remaining ts es a' -> recorded a ts es a'.
Proof.
  intros Ho [C1 C2 C3 C4 _ _ C8 _]. split; try done; [congruence|].
  clear -C4. revert es C4. induction ts as [|t ts IH]; intros [|e es]; cbn; try done. intros [= -> Hts]. by rewrite (IH es).
Qed.

Lemma recorded_ending a ts es a' o d us a'' : recorded a ts es a' -> ending o es a' d us a'' ->
  recorded a (ts ++ us) es a''.
Proof.
  intros Hr [| | |]; rewrite ?app_nil_r; try done; [by eapply recorded_observed|by eapply recorded_working].
Qed.

Lemma evaluation_recorded p request asset session a o r : a.(agg_Order) = Some o ->
  evaluation p request asset session a o r ->
  exists a', r.(res_Aggregate) = Some a' /\ recorded a r.(res_Transitions) r.(res_Fills) a'.
Proof.
  intros Ho Hev. pose proof (recorded_nil a) as Hnil.
  destruct Hev; eexists; (split; [reflexivity|]); cbn [res_Transitions res_Fills]; try done;
    try (by eapply (recorded_observed a []));
    try (by eapply (recorded_working a [])).
  eapply recorded_ending; [|done]. by eapply recorded_consumed.
Qed.

(** C6: an evaluation of the simulated venue is a run of the lifecycle: the
    aggregate it returns is reached from the requested one by applying exactly
    the returned transitions, it is reachable when that one is, and the fills
    it adds, in order, are those of the returned effects and of the transitions. *)
Theorem evaluation_refines_lifecycle now venue request a r :
  request.(req_Aggregate) = Some a -> reachable a -> Evaluate now venue request = Ok r ->
  exists a', r.(res_Aggregate) = Some a' /\ run a r.(res_Transitions) a' /\ reachable a' /\
    a'.(agg_Fills) = a.(agg_Fills) ++ (fe_Fill <$> r.(res_Fills)) /\
    omap tr_Fill r.(res_Transitions) = fe_Fill <$> r.(res_Fills).
Proof.
  intros Ha Hreach He. destruct (evaluate_spec _ _ _ _ _ Ha (reachable_inv _ Hreach) He) as (p & asset & session & o & Hv & Hev).
  apply evaluation_recorded in Hev as (a' & Hr & [R1 R2 _ R4 _]); [|by eapply va_order].
  exists a'. split_and!; try done. by eapply run_reachable.
Qed.

(** ** Capacity *)

(** A quotient with at most sixteen decimals is exact. *)
Lemma Div_exact a b (k : Z) : ~ val b == 0 -> val a / val b == inject_Z k * (10 # 1) ^ (- 16) ->
  val (Div a b) == val a / val b.
Proof.
  intros Hb Hk. destruct (Div_grid a b Hb) as [j Hj]. pose proof (Div_half a b Hb) as Hh. rewrite Hk, Hj in *.
  set (u := (10 # 1) ^ (- 16)) in *. assert (Hu : 0 < u) by reflexivity.
  assert (Heq : inject_Z j * u - inject_Z k * u == inject_Z (j - k) * u).
  { unfold Z.sub. rewrite inject_Z_plus, inject_Z_opp. ring. }
  rewrite Heq, Qabs_Qmult, (Qabs_pos u) in Hh by lra.
  assert (Hs : Qabs (inject_Z (j - k)) <= 1 # 2) by (apply (Qmult_le_r _ _ u Hu); exact Hh).
  assert (Hz : (j - k)%Z = 0%Z) by (apply inject_small; lra). replace j with k by lia. reflexivity.
Qed.

Lemma floor_lot_spec size part lot cap : on_grid lot size -> val part == val (Round part 12) ->
  floorSimulationLot (Mul size part) lot = Ok cap -> 0 < val cap ->
  on_grid lot cap /\ val cap <= val part * val size /\ val part * val size < val cap + val lot.
Proof.
  intros [m Hm] Hpart. unfold floorSimulationLot. destruct (_ || _) eqn:Hpos.
  { intros [= <-]. rewrite val_Zero. lra. }
  intros Hc _. split_bools. dec_bools. apply bind_Ok in Hc as (lots & Hdiv & [= <-]). apply checked_Div_Ok in Hdiv as [Hz ->].
  destruct (Round_grid part 12) as [j Hj]. rewrite <- Hpart in Hj.
  assert (Hq : val (Mul size part) / val lot == inject_Z m * val part).
  { rewrite val_Mul, Hm. field. done. }
  assert (Hd : val (Div (Mul size part) lot) == inject_Z m * val part).
  { rewrite <- Hq. apply (Div_exact _ _ (m * j * 10000)); [done|]. rewrite Hq, Hj, !inject_Z_mult.
    assert (Hten : (10 # 1) ^ (- (12)) == inject_Z 10000 * (10 # 1) ^ (- (16))) by reflexivity. rewrite Hten.
    change (- (16))%Z with (-16)%Z. generalize ((10 # 1) ^ (-16)). intros u. ring. }
  pose proof (Qfloor_le (inject_Z m * val part)) as F1. pose proof (Qlt_floor (inject_Z m * val part)) as F2.
  rewrite val_Mul, Floor_spec, (Qfloor_comp _ _ Hd). set (k := Qfloor (inject_Z m * val part)) in *.
  rewrite inject_Z_plus in F2. change (inject_Z 1) with 1 in F2. rewrite Hm. split; [by exists k; rewrite val_Mul, Floor_spec, (Qfloor_comp _ _ Hd)|].
  assert (G1 : inject_Z k * val lot <= inject_Z m * val part * val lot) by (apply Qmult_le_compat_r; lra).
  assert (G2 : inject_Z m * val part * val lot < (inject_Z k + 1) * val lot) by (apply Qmult_lt_r; lra).
  split; lra.
Qed.

(** ** Fills come from the book *)

Definition within_limit (o : Order) (price : dec) : Prop :=
  o.(order_OrderType) = OrderMarket \/
  exists limit, o.(order_LimitPrice) = Some limit /\
    (o.(order_Side) = SideBuy -> val price <= val limit) /\ (o.(order_Side) <> SideBuy -> val limit <= val price).

Lemma crosses_limit o price : simulationLevelCrosses o price = true -> within_limit o price.
Proof.
  unfold simulationLevelCrosses, within_limit. destruct (_ ==? OrderMarket) eqn:Hm; split_bools; [by left|].
  destruct (_ !=? OrderLimit); [done|]. destruct (order_LimitPrice o) as [limit|]; [|done]. intros Hc. right. exists limit.
  split; [done|]. destruct (_ ==? SideBuy) eqn:Hs; split_bools; dec_bools; split; intros; try congruence; try done.
  apply Qnot_lt_le. rewrite <- LessThan_true. by rewrite Hc.
Qed.

(** One fill against one displayed level of the snapshot. *)
Record depth_fill (request : EvaluationRequest) (asset : AssetPolicy) (o : Order) (e : FillEffect) : Prop := {
  df_level : exists l, l ∈ request.(req_Snapshot).(snap_Depth) /\ l.(lvl_Side) = depth_side o /\
    e.(fe_DepthSide) = l.(lvl_Side) /\ e.(fe_DepthLevel) = l.(lvl_Level) /\ e.(fe_DisplayedSize) = l.(lvl_Size) /\
    e.(fe_Price) = l.(lvl_Price);
  df_recorded : e.(fe_Fill).(fill_Quantity) = e.(fe_Quantity) /\ e.(fe_Fill).(fill_Price) = e.(fe_Price);
  df_limit : within_limit o e.(fe_Price);
  df_grid : on_grid request.(req_VenueContract).(vc_TickSize) e.(fe_Price) /\
            on_grid request.(req_VenueContract).(vc_LotSize) e.(fe_Capacity);
  df_capacity : let displayed := val asset.(asset_MaxDepthParticipation) * val e.(fe_DisplayedSize) in
    val e.(fe_Capacity) <= displayed /\ displayed < val e.(fe_Capacity) + val request.(req_VenueContract).(vc_LotSize);
  df_quantity : 0 < val e.(fe_Quantity) <= val e.(fe_Capacity);
}.

Lemma consumed_depth request p asset a o q levels ts es a' e : sound_asset asset -> marketable request asset o q ->
  eligibleLevels a o request.(req_Snapshot) asset request.(req_VenueContract).(vc_LotSize) = Ok levels ->
  consumed (Some p) request o levels a (left_of a o) ts es a' -> e ∈ es -> depth_fill request asset o e.
Proof.
  intros Hs Hmk Hlev Hc (i & Hi)%list_elem_of_lookup. apply eligible_levels_facts in Hlev as [Hall _].
  destruct (co_effects _ _ _ _ _ _ _ _ _ Hc i e Hi) as (l & Hl & [(E1 & E2 & E3 & E4) [P1 P2] Q1 _ _ _] & Hpos & Hq).
  rewrite Forall_forall in Hall. destruct (Hall l (list_elem_of_lookup_2 _ _ _ Hl)) as [D1 D2 D3 _ D5 D6].
  destruct (eq_depth _ _ _ _ _ _ (mk_quote _ _ _ _ Hmk) _ D1) as [Htick Hlot].
  destruct (floor_lot_spec _ _ _ _ Hlot (proj2 (sa_participation _ Hs)) D5 D6) as (G1 & G2 & G3).
  split; rewrite ?E3, ?E4, ?P1; try done; [by eauto 10|by apply crosses_limit|].
  split; [done|]. change (val (fe_Quantity e)) with (quantity_of e). rewrite Hq. apply Q.le_min_l.
Qed.

(** C7: every fill the venue returns comes from the displayed book: it is
    against a level of the opposite side, at that level's price, within the
    order's limit and on the tick; it takes a positive quantity of at most the
    capacity, which is the largest multiple of the lot within the policy's
    participation in the displayed size; and the quote was executable when
    evaluated and public no earlier than the policy's latency after routing. *)
Theorem fills_within_depth now input p venue request a o asset r :
  NewPolicy input = Ok p -> Venue_policy venue = Some p -> request.(req_Aggregate) = Some a -> reachable a ->
  a.(agg_Order) = Some o -> Policy_AssetPolicy (Some p) request.(req_Instrument).(inst_AssetClass) = Some asset ->
  Evaluate now venue request = Ok r -> r.(res_Fills) <> [] ->
  Forall (depth_fill request asset o) r.(res_Fills) /\ exists q, marketable request asset o q.
Proof.
  intros Hp Hvp Ha Hreach Ho Hasset He Hne.
  destruct (evaluate_spec _ _ _ _ _ Ha (reachable_inv _ Hreach) He) as (p' & asset' & session & o' & [] & Hev).
  simplify_eq. pose proof (found_sound _ _ _ _ Hp Hasset) as Hsound.
  destruct Hev; try done. cbn [res_Fills] in *. split; [|by eauto]. apply Forall_forall. intros e He'. by eapply consumed_depth.
Qed.

(** ** Price priority *)

(** The better of two levels of one side, which also has the lower index. *)
Definition better (l l' : DepthLevel) : Prop := l.(lvl_Side) = l'.(lvl_Side) ->
  (l.(lvl_Level) < l'.(lvl_Level))%Z /\
  match l.(lvl_Side) with DepthSideBid => price_above l l' | _ => price_below l l' end.

Lemma indexed_sorted levels : indexed levels -> StronglySorted (fun l l' => (l.(lvl_Level) < l'.(lvl_Level))%Z) levels.
Proof.
  unfold indexed. assert (Hgen : forall k : nat, (forall i l, levels !! i = Some l -> l.(lvl_Level) = Z.of_nat (k + i)) ->
    StronglySorted (fun l l' => (l.(lvl_Level) < l'.(lvl_Level))%Z) levels).
  { induction levels as [|l levels IH]; intros k Hk; constructor.
    - apply (IH (S k)). intros i l' Hl'. rewrite (Hk (S i) l' Hl'). f_equal. lia.
    - apply Forall_forall. intros l' (i & Hi)%list_elem_of_lookup. rewrite (Hk 0%nat l eq_refl), (Hk (S i) l' Hi). lia. }
  intros Hi. by apply (Hgen 0%nat).
Qed.

Lemma sorted_better levels side : Forall (fun l => l.(lvl_Side) = side) levels -> indexed levels ->
  StronglySorted (fun l l' => match side with DepthSideBid => price_above l l' | _ => price_below l l' end) levels ->
  StronglySorted better levels.
Proof.
  intros Hside Hi%indexed_sorted Hp. revert Hi. induction Hp as [|l levels _ IH Hl]; [constructor|].
  apply Forall_cons in Hside as [Hs Hside]. intros [Hi Hli]%StronglySorted_inv. constructor; [by apply IH|].
  rewrite Forall_forall in *. intros l' Hl' _. rewrite Hs. split; [by apply Hli|by apply Hl].
Qed.

Lemma sorted_app (R : DepthLevel -> DepthLevel -> Prop) l k : StronglySorted R l -> StronglySorted R k ->
  (forall x y, x ∈ l -> y ∈ k -> R x y) -> StronglySorted R (l ++ k).
Proof.
  induction 1 as [|x l Hl IH Hx]; intros Hk Hxy; [done|]. cbn. constructor.
  - apply IH; [done|]. intros. apply Hxy; [by right|done].
  - apply Forall_app. split; [done|]. apply Forall_forall. intros y Hy. apply Hxy; [by left|done].
Qed.

Lemma sorted_sublist (R : DepthLevel -> DepthLevel -> Prop) l k : l `sublist_of` k -> StronglySorted R k -> StronglySorted R l.
Proof.
  induction 1 as [|x l k Hs IH|x l k Hs IH]; intros Hk; [constructor| |].
  - apply StronglySorted_inv in Hk as [Hk Hx]. constructor; [by apply IH|]. rewrite Forall_forall in *.
    intros y Hy. apply Hx. by eapply elem_of_sublist.
  - apply StronglySorted_inv in Hk as [Hk _]. by apply IH.
Qed.

Lemma book_better s u : QuoteSnapshot_Validate s = Ok u -> StronglySorted better s.(snap_Depth).
Proof.
  intros (bids & asks & [-> Hb Ha Hd Hu _ _ [Ib Ia]])%book_shape.
  apply sorted_app; [by eapply sorted_better|by eapply sorted_better|].
  rewrite Forall_forall in *. intros x y Hx Hy Heq. by rewrite Hb, Ha in Heq.
Qed.

Lemma eligible_better request asset a o q levels : marketable request asset o q ->
  eligibleLevels a o request.(req_Snapshot) asset request.(req_VenueContract).(vc_LotSize) = Ok levels ->
  StronglySorted better (el_level <$> levels).
Proof.
  intros Hmk [_ Hsub]%eligible_levels_facts. eapply sorted_sublist; [done|]. by eapply book_better, mk_book.
Qed.

(** C9: the venue fills greedily in price priority. The levels it may use are
    those of the opposite side in order, best price first; the [i]-th fill
    takes what the first [i] levels left of the order, at most the capacity of
    level [i]; and together the fills take the smaller of what was left of the
    order and the whole capacity. *)
Theorem fills_price_priority now venue request a o asset r :
  request.(req_Aggregate) = Some a -> reachable a -> a.(agg_Order) = Some o ->
  Policy_AssetPolicy (Venue_policy venue) request.(req_Instrument).(inst_AssetClass) = Some asset ->
  Evaluate now venue request = Ok r -> r.(res_Fills) <> [] ->
  exists levels,
    eligibleLevels a o request.(req_Snapshot) asset request.(req_VenueContract).(vc_LotSize) = Ok levels /\
    StronglySorted better (el_level <$> levels) /\
    (forall i e, r.(res_Fills) !! i = Some e -> exists l, levels !! i = Some l /\
       e.(fe_Price) = l.(el_level).(lvl_Price) /\ e.(fe_DepthLevel) = l.(el_level).(lvl_Level) /\
       val e.(fe_Quantity) == Qmin (capacity_of l) (left_of a o - sumQ capacity_of (take i levels))) /\
    sumQ quantity_of r.(res_Fills) == Qmin (left_of a o) (sumQ capacity_of levels).
Proof.
  intros Ha Hreach Ho Hasset He Hne.
  destruct (evaluate_spec _ _ _ _ _ Ha (reachable_inv _ Hreach) He) as (p' & asset' & session & o' & [Hvp] & Hev).
  rewrite Hvp in Hasset. simplify_eq. destruct Hev as [| | | | | | |levels ts es a' d us a'' q ? Hmk Hlev _ Hc Hend]; try done.
  cbn [res_Fills] in *. exists levels. split_and!; [done|by eapply eligible_better| |by eapply co_total].
  intros i e Hi. destruct (co_effects _ _ _ _ _ _ _ _ _ Hc i e Hi) as (l & Hl & [(_ & E2 & _) [P1 _] _ _ _ _] & _ & Hq). eauto.
Qed.

(** ** Time in force *)










(** ** No level is consumed twice *)

(** The simulation source events the fills of an aggregate consumed. *)
Definition consumed_sources (a : Aggregate) : list string :=
  fill_SourceEventID <$> filter (fun f => f.(fill_Source) = "simulation") a.(agg_Fills).

(** Any sequence of evaluations by one venue, each from what the last returned. *)
Inductive evaluated (venue : option Venue) (a : Aggregate) : Aggregate -> Prop :=
  | evaluated_none : evaluated venue a a
  | evaluated_step now request a1 r a2 : evaluated venue a a1 -> request.(req_Aggregate) = Some a1 ->
      Evaluate now venue request = Ok r -> r.(res_Aggregate) = Some a2 -> evaluated venue a a2.

Lemma has_source_false a id : simulationAggregateHasSourceEvent (Some a) id = false -> id ∉ consumed_sources a.
Proof.
  unfold consumed_sources. cbn [simulationAggregateHasSourceEvent]. intros Hf (f & -> & [Hs Hin]%list_elem_of_filter)%list_elem_of_fmap.
  apply not_true_iff_false in Hf. apply Hf. apply existsb_exists. exists f. split; [by apply list_elem_of_In|].
  rewrite !bool_decide_eq_true_2; done.
Qed.

Lemma depth_side_known o : depth_side o = DepthSideBid \/ depth_side o = DepthSideAsk.
Proof. unfold depth_side. destruct (_ ==? SideSell); auto. Qed.

Lemma consumed_unique request p asset a o q levels ts es a' : marketable request asset o q ->
  eligibleLevels a o request.(req_Snapshot) asset request.(req_VenueContract).(vc_LotSize) = Ok levels ->
  consumed (Some p) request o levels a (left_of a o) ts es a' ->
  NoDup (consumed_sources a) -> NoDup (consumed_sources a').
Proof.
  intros Hmk Hlev Hc Hnd. pose proof (eligible_better _ _ _ _ _ _ Hmk Hlev) as Hsorted.
  apply eligible_levels_facts in Hlev as [Heg _].
  set (source := fun l : eligibleSimulationLevel => level_source o request.(req_Snapshot) l.(el_level)).
  assert (Hside : forall l, l ∈ levels -> l.(el_level).(lvl_Side) = depth_side o) by (rewrite Forall_forall in Heg; intros l Hl; by destruct (Heg l Hl)).
  assert (Hall : NoDup (source <$> levels)).
  { clear -Hsorted Hside. induction levels as [|l levels IH]; [constructor|]. cbn in *.
    apply StronglySorted_inv in Hsorted as [Hs Hl]. constructor; [|apply IH; auto using list_elem_of_further].
    intros (l' & Heq & Hin)%list_elem_of_fmap. rewrite Forall_forall in Hl.
    assert (Hsame : l.(el_level).(lvl_Side) = l'.(el_level).(lvl_Side)) by (rewrite !Hside; [done|by right|by left]).
    destruct (Hl l'.(el_level) ltac:(apply list_elem_of_fmap; eauto) Hsame) as [Hlt _].
    apply level_source_inj in Heq; [lia|done]. }
  assert (Heff : forall i e, es !! i = Some e -> exists l, levels !! i = Some l /\
    e.(fe_Fill).(fill_Source) = "simulation" /\ e.(fe_Fill).(fill_SourceEventID) = source l).
  { intros i e Hi. destruct (co_effects _ _ _ _ _ _ _ _ _ Hc i e Hi) as (l & Hl & [_ _ _ [S1 S2] _ _] & _).
    exists l. split_and!; [done..|]. rewrite S2. apply level_source_plain.
    rewrite (Hside l (list_elem_of_lookup_2 _ _ _ Hl)). apply depth_side_known. }
  assert (Hnew : fill_SourceEventID <$> (fe_Fill <$> es) = source <$> take (length es) levels).
  { apply list_eq. intros i. rewrite !list_lookup_fmap. destruct (es !! i) as [e|] eqn:Hi.
    - destruct (Heff i e Hi) as (l & Hl & _ & Hs). rewrite lookup_take_lt by (by eapply lookup_lt_Some). rewrite Hl. cbn. by rewrite Hs.
    - rewrite lookup_take_ge by (by apply lookup_ge_None). done. }
  assert (Hsim : filter (fun f => f.(fill_Source) = "simulation") (fe_Fill <$> es) = fe_Fill <$> es).
  { apply filter_all. intros f (e & -> & (i & Hi)%list_elem_of_lookup)%list_elem_of_fmap. by destruct (Heff i e Hi) as (l & _ & Hs & _). }
  unfold consumed_sources in *. rewrite (co_fills _ _ _ _ _ _ _ _ _ Hc), filter_app, Hsim, fmap_app, Hnew.
  apply NoDup_app. split_and!; [done| |].
  - intros id Hid (l & -> & Hl)%list_elem_of_fmap. apply (elem_of_sublist _ levels) in Hl; [|apply sublist_take]. rewrite Forall_forall in Heg.
    by apply (has_source_false a (source l)); [apply (eg_fresh _ _ _ _ _ _ (Heg l Hl))|].
  - rewrite fmap_take. eapply sublist_NoDup; [done|apply sublist_take].
Qed.

(** C25: over any sequence of evaluations by a venue, in whatever order its
    snapshots arrive and however often one is evaluated again, no displayed
    level is consumed twice: the source events of the simulated fills of the
    lifecycle stay distinct. *)
Theorem level_consumed_once venue a a' : reachable a -> NoDup (consumed_sources a) -> evaluated venue a a' ->
  reachable a' /\ NoDup (consumed_sources a').
Proof.
  intros Hreach Hnd Hev. induction Hev as [|now request a1 r a2 _ [Hr1 IH] Ha He Hr]; [done|].
  pose proof (reachable_inv _ Hr1) as Hinv.
  destruct (evaluate_spec _ _ _ _ _ Ha Hinv He) as (p & asset & session & o & Hval & Hev).
  pose proof (va_order _ _ _ _ _ _ _ Hval) as Ho.
  destruct (evaluation_recorded _ _ _ _ _ _ _ Ho Hev) as (a2' & Hr' & [R1 R2 _ _ _]). simplify_eq.
  split; [by eapply run_reachable|].
  assert (Hsame : r.(res_Fills) = [] -> consumed_sources a2 = consumed_sources a1).
  { unfold consumed_sources. rewrite R2. intros ->. by rewrite app_nil_r. }
  destruct Hev as [| | | | | | |levels ts es a3 d us a4 q _ Hmk Hlev _ Hc Hend]; try (by rewrite Hsame).
  cbn [res_Fills] in *. pose proof (consumed_unique _ _ _ _ _ _ _ _ _ _ Hmk Hlev Hc IH) as Hnd3.
  unfold consumed_sources in *. by rewrite R2, <- (co_fills _ _ _ _ _ _ _ _ _ Hc).
Qed.
End simulation_theorems.
