(* ===== verification/SimulationSafety.v ===== *)
(** * The simulated venue fails closed

    Every evaluation returns a result or a classified error: nothing panics, and
    no transition the venue builds is refused by the lifecycle. *)

From S2P Require Import Prelude GoStd GoText GoTime Externals EconomicId Account Instrument.
From S2P Require Import Transaction SourceEvent Normalization Snapshot Lifecycle LifecycleAggregate.
From S2P Require Import LifecycleProofs LifecycleTheorems LifecycleSafety SnapshotProofs.
From S2P Require Import ProjectionPayload SimulationPolicy SimulationFill SimulationVenue SimulationPolicyProofs SimulationProofs.
From S2P Require Import SimulationTheorems.

Local Open Scope go_scope.
#[local] Opaque DeterministicUUID Sum256 json_struct.

(** A call whose errors all satisfy [P], and which does not panic. *)
Definition errs {A} (P : error -> Prop) (m : outcome A) : Prop :=
  match m with Ok _ => True | Err e => P e | Panic _ => False end.

Section errs.
Context (P : error -> Prop).

Lemma errs_bind {A B} (m : outcome A) (k : A -> outcome B) : errs P m -> (forall a, m = Ok a -> errs P (k a)) ->
  errs P (m ≫= k).
Proof. destruct m; cbn; auto. Qed.

Lemma errs_wrap {A} msg (m : outcome A) : safe m -> (forall e, P (Wrapf msg e)) -> errs P (wrap msg m).
Proof. destruct m as [|e|p]; cbn; auto. intros Hs _. by apply Hs. Qed.

Lemma errs_reject b msg : P (Errorf msg) -> errs P (reject b msg).
Proof. by destruct b. Qed.

Lemma errs_venue_reject b code detail : P (venueFailure code detail None) -> errs P (venue_reject b code detail).
Proof. by destruct b. Qed.

Lemma errs_venue_wrap {A} code detail (m : outcome A) : safe m -> (forall e, P (venueFailure code detail (Some e))) ->
  errs P (venue_wrap code detail m).
Proof. destruct m as [|e|p]; cbn; auto. intros Hs _. by apply Hs. Qed.
End errs.

(** The steps of the venue that wrap the error of another component. *)
Definition build_stages : list string :=
  ["build simulation fill fee: %w"; "build simulation raw fill event: %w"; "build simulation fill normalization: %w";
   "build simulation lifecycle fill: %w"; "build simulation acknowledgement: %w";
   "build simulation terminal transition: %w"].

(** The errors an evaluation can return. *)
Inductive simulation_error : error -> Prop :=
  | se_venue code detail cause : simulation_error (venueFailure code detail cause)
  | se_build stage inner : stage ∈ build_stages -> simulation_error (Wrapf stage inner)
  | se_namespace : simulation_error (Errorf "simulation source namespace exceeds the lifecycle limit").

Section simulation_safety.
Context {E : Externals} {L : ExternalLaws}.

(** ** The calls of the venue do not panic *)

Lemma source_event_safe now input : safe (NewEconomicSourceEvent now input).
Proof. unfold NewEconomicSourceEvent. pose proof EconomicSourceEvent_Validate_safe. solve_safe. Qed.

Lemma new_normalization_safe now input eventType : safe (newEconomicNormalization now input eventType).
Proof. unfold newEconomicNormalization. solve_safe; guarded. Qed.

Lemma fill_normalization_total created now now' input : safe (NewFillEconomicNormalization created now now' input).
Proof.
  unfold NewFillEconomicNormalization, materializeAndValidate.
  apply safe_bind; [destruct (fillin_Side input); auto with safe|]. intros eventType _.
  apply safe_bind; [apply new_normalization_safe|]. intros n Hn.
  assert (Hs : is_Some n.(norm_SourceEvent)).
  { rewrite (new_normalization_source _ _ _ _ Hn). unfold newEconomicNormalization in Hn. inv_ok Hn. facts. eauto. }
  apply safe_bind.
  - apply expectedTransaction_safe. by destruct (fillin_Cost input).
  - intros t _. apply safe_bind; [apply EconomicNormalization_Validate_safe|auto with safe].
Qed.

Lemma ten_thousand : ~ (val (NewFromInt 10000) == 0)%Q.
Proof. rewrite val_NewFromInt. unfold inject_Z, Qeq. cbn. lia. Qed.

Lemma checked_Div_safe a b : ~ (val b == 0)%Q -> safe (checked_Div a b).
Proof. intros Hb. unfold checked_Div. destruct (IsZero b) eqn:Hz; [by dec_bools|]. auto with safe. Qed.

Lemma policy_decimal_safe v : safe (validatePositivePolicyDecimal v) /\ safe (validateNonnegativePolicyDecimal v).
Proof. unfold validatePositivePolicyDecimal, validateNonnegativePolicyDecimal, validatePolicyDecimalShape. split; solve_safe. Qed.

Lemma FillFee_safe policy class quantity price multiplier first : safe (FillFee policy class quantity price multiplier first).
Proof.
  unfold FillFee, raw_fee. solve_safe; try apply policy_decimal_safe.
  apply checked_Div_safe, ten_thousand.
Qed.

Lemma floor_lot_safe value lot : safe (floorSimulationLot value lot).
Proof.
  unfold floorSimulationLot. destruct (_ || _) eqn:Hp; [auto with safe|]. split_bools. dec_bools.
  apply safe_bind; [apply checked_Div_safe; lra|auto with safe].
Qed.

Lemma eligible_levels_total a o snapshot asset lot : exists levels, eligibleLevels a o snapshot asset lot = Ok levels.
Proof.
  unfold eligibleLevels. induction (snap_Depth snapshot) as [|d depth [levels IH]]; cbn [eligible_of]; [eauto|].
  destruct (_ || _); [eauto|]. destruct (simulationAggregateHasSourceEvent _ _); [eauto|].
  pose proof (floor_lot_safe (Mul d.(lvl_Size) asset.(asset_MaxDepthParticipation)) lot) as Hs.
  unfold floorSimulationLot in *. destruct (_ || _); cbn [mbind outcome_bind].
  - destruct (negb _); [eauto|]. rewrite IH. cbn. eauto.
  - unfold checked_Div in *. destruct (IsZero lot); [by destruct Hs|]. cbn [mbind outcome_bind].
    destruct (negb _); [eauto|]. rewrite IH. cbn. eauto.
Qed.

(** ** The steps of an evaluation *)

Notation closed := (errs simulation_error).

Lemma closed_build {A} stage (m : outcome A) : safe m -> stage ∈ build_stages -> closed (wrap stage m).
Proof. intros Hs Hin. apply errs_wrap; [done|]. intros e. by constructor. Qed.

Lemma closed_venue_reject b code detail : closed (venue_reject b code detail).
Proof. apply errs_venue_reject. constructor. Qed.

Lemma closed_venue_wrap {A} code detail (m : outcome A) : safe m -> closed (venue_wrap code detail m).
Proof. intros Hs. apply errs_venue_wrap; [done|]. intros e. constructor. Qed.

Lemma namespace_closed account kind : closed (simulationSourceNamespace account kind).
Proof. unfold simulationSourceNamespace. apply errs_bind; [apply errs_reject; constructor|done]. Qed.

(** A command whose transition the lifecycle accepts never fails to apply. *)
Lemma apply_closed {A} msg a t (k : Aggregate -> outcome A) :
  (exists a', ApplyTransition (Some a) (Some t) = Ok a') ->
  (forall a', ApplyTransition (Some a) (Some t) = Ok a' -> closed (k a')) ->
  closed (wrap msg (ApplyTransition (Some a) (Some t)) ≫= k).
Proof. intros [a' Ha] Hk. rewrite Ha. cbn. by apply Hk. Qed.

Lemma in_stages stage : existsb (String.eqb stage) build_stages = true -> stage ∈ build_stages.
Proof. intros (s & Hin & ->%String.eqb_eq)%existsb_exists. by apply list_elem_of_In. Qed.

Lemma build_fill_closed now input p a o : input.(sfi_Policy) = Some p -> input.(sfi_Aggregate) = Some a ->
  a.(agg_Order) = Some o -> closed (buildSimulationFill now input).
Proof.
  intros Hp Ha Ho. unfold buildSimulationFill, marshalSimulationFillEvidence. rewrite Hp, Ha.
  cbn [is_nil reject required mbind outcome_bind]. rewrite Ho. cbn [required mbind outcome_bind].
  apply errs_bind; [apply closed_build; [apply FillFee_safe|by apply in_stages]|]. intros fee _. cbn [mbind outcome_bind].
  apply errs_bind; [apply namespace_closed|]. intros namespace _.
  apply errs_bind; [apply closed_build; [apply source_event_safe|by apply in_stages]|]. intros source _.
  apply errs_bind; [apply closed_build; [apply fill_normalization_total|by apply in_stages]|]. intros n _.
  apply errs_bind; [apply closed_build; [apply RecordFill_safe|by apply in_stages]|]. intros t Ht. apply wrap_Ok in Ht.
  apply recordFill_facts in Ht as (? & f & ? & ? & ? & ? & ? & [-> _ _ _ _ _ _ _ _ _ _]). cbn. done.
Qed.

Lemma fill_levels_closed now p asset request assessment session levels a o remaining ts es :
  a.(agg_Order) = Some o ->
  closed (fill_levels now (Some p) asset request assessment session levels a remaining ts es).
Proof.
  revert a remaining ts es. induction levels as [|l levels IH]; intros a remaining ts es Ho; cbn [fill_levels]; [done|].
  destruct (IsZero remaining); [done|]. apply errs_bind; [by eapply build_fill_closed|]. intros [t e] Hb.
  apply build_fill_facts in Hb as (a0 & o0 & [Ha _ (n1 & n2 & recin & Hrec) Hfill _ _ _ _ _ _ _]). cbn in Ha. injection Ha as <-.
  apply apply_closed; [by eapply accept_fill|]. intros a' Happ. apply IH.
  destruct (recorded_applied _ _ _ _ _ _ _ Hrec Hfill Happ) as (_ & -> & _). done.
Qed.

Lemma applyTerminal_closed now venue p result request kind decision reason sourceAt snapshot session a o requested :
  Venue_policy venue = Some p -> result.(res_Aggregate) = Some a -> a.(agg_Order) = Some o -> lifecycle_inv a ->
  request.(req_Aggregate) = Some requested -> is_Some requested.(agg_Order) ->
  closed (applyTerminal now venue result request kind decision reason sourceAt snapshot session).
Proof.
  intros Hp Ha Ho Hinv Hreq [o' Ho']. unfold applyTerminal, marshalSimulationObservationEvidence.
  rewrite Ha, Hreq, Hp. cbn [deref mbind outcome_bind]. rewrite Ho'. cbn [deref is_nil reject required mbind outcome_bind].
  rewrite Ho. cbn [required deref mbind outcome_bind]. apply errs_bind; [apply namespace_closed|]. intros namespace _.
  apply errs_bind.
  - apply closed_build; [|by apply in_stages]. apply (issue_safe (now 0%nat) (now 0%nat) a (CmdObserveOrderTerminal kind _ _)).
  - intros t Ht%wrap_Ok. apply apply_closed; [by eapply accept_terminal|done].
Qed.

Lemma ensureWorking_closed now venue p result request session decision reason a o :
  Venue_policy venue = Some p -> result.(res_Aggregate) = Some a -> a.(agg_Order) = Some o ->
  closed (ensureWorking now venue result request session decision reason).
Proof.
  intros Hp Ha Ho. unfold ensureWorking, marshalSimulationObservationEvidence. rewrite Ha, Hp. cbn [deref mbind outcome_bind].
  destruct (_ !=? StateRouted); [done|]. cbn [is_nil reject required mbind outcome_bind]. rewrite Ho. cbn [required deref mbind outcome_bind].
  apply errs_bind; [apply namespace_closed|]. intros namespace _. apply errs_bind.
  - apply closed_build; [|by apply in_stages]. apply (issue_safe (now 0%nat) (now 0%nat) a (CmdAcknowledge _ _ _)).
  - intros t Ht%wrap_Ok. apply apply_closed; [by eapply accept_acknowledge|done].
Qed.

Lemma after_fills_closed now venue p request o session a ts es : Venue_policy venue = Some p ->
  a.(agg_Order) = Some o -> lifecycle_inv a -> closed (after_fills now venue request o session a ts es).
Proof.
  intros Hp Ho Hinv. unfold after_fills. destruct (_ ==? StateFilled); [done|]. destruct (_ ==? TimeInForceIOC).
  - by eapply applyTerminal_closed; eauto.
  - destruct (0 <? _)%nat; [done|]. by eapply ensureWorking_closed.
Qed.

Lemma evaluate_quote_closed now venue request p asset session a o : lifecycle_inv a ->
  validated venue request p asset session a o -> closed (evaluate_quote now venue request asset session a o).
Proof.
  intros Hinv [Hp Hreq Ho]. unfold evaluate_quote. rewrite Hp.
  apply errs_bind; [apply closed_venue_wrap, AssessForExecution_safe|]. intros assessment _.
  apply errs_bind; [apply closed_venue_reject|]. intros _ _.
  match goal with |- closed (if ?c then _ else _) => destruct c end.
  { destruct (_ || _); [done|]. by eapply ensureWorking_closed. }
  destruct (eligible_levels_total a o request.(req_Snapshot) asset request.(req_VenueContract).(vc_LotSize)) as [levels Hl].
  pose proof (eligible_levels_facts _ _ _ _ _ _ Hl) as [Heg _]. rewrite Hl. cbn [mbind outcome_bind].
  destruct (_ && _); [by eapply applyTerminal_closed; eauto|].
  apply errs_bind; [by eapply fill_levels_closed|]. intros [[current ts] es] Hloop.
  eapply fill_levels_consumed in Hloop as (nts & nes & -> & -> & Hc); [|done| |by eapply Forall_impl; [exact Heg|]; intros ? []].
  - eapply after_fills_closed; [done|by eapply co_order|]. by eapply run_inv, co_run.
  - rewrite remaining_val. unfold left_of. pose proof (li_filled a Hinv o Ho). lra.
Qed.

Lemma policy_time_safe t : safe (validatePolicyTime t).
Proof. unfold validatePolicyTime. auto with safe. Qed.

Lemma validate_request_closed venue request : closed (validateRequest venue request).
Proof.
  unfold validateRequest.
  apply errs_bind; [apply closed_venue_reject|]. intros _ _.
  apply errs_bind; [destruct (req_Aggregate request); [done|constructor]|]. intros a _.
  apply errs_bind; [destruct (agg_Order a); [done|constructor]|]. intros o _.
  repeat (apply errs_bind; [first [apply closed_venue_reject|apply closed_venue_wrap]|intros _ _]).
  all: try first [apply Account_Validate_safe|apply Instrument_Validate_safe|apply VenueContract_Validate_safe
                 |apply Intent_Validate_safe|apply Order_Validate_safe].
  apply errs_bind; [destruct (Policy_AssetPolicy _ _); [done|constructor]|]. intros asset _.
  apply errs_bind; [apply closed_venue_reject|]. intros _ _.
  destruct (RouteSession _ _ _) as [|e|pn] eqn:Hr; [done|destruct (_ && _); [done|constructor]|].
  exfalso. revert Hr. unfold RouteSession. pose proof (policy_time_safe o.(order_RoutedAt)) as Ht.
  destruct (Policy_AssetPolicy _ _); [|done]. destruct (validatePolicyTime _); [|done|by destruct Ht]. cbn [mbind outcome_bind].
  destruct (_ ==? CalendarContinuous24x7); [done|]. by destruct (List.find _ _).
Qed.

Lemma evaluate_closed now venue request a : request.(req_Aggregate) = Some a -> lifecycle_inv a ->
  closed (Evaluate now venue request).
Proof.
  intros Ha Hinv. unfold Evaluate. apply errs_bind; [apply validate_request_closed|]. intros [asset session] Hv.
  apply validate_request_facts in Hv as (p & a0 & o & Hval). pose proof Hval as [Hp Ha' Ho]. simplify_eq.
  rewrite Ha. cbn [deref mbind outcome_bind]. rewrite Ho. cbn [deref mbind outcome_bind].
  destruct (terminalSimulationState _); [done|].
  destruct (_ && _); [by eapply applyTerminal_closed; eauto|].
  destruct (closed_session _ _ _); [by eapply applyTerminal_closed; eauto|].
  destruct (_ && _); [by eapply ensureWorking_closed|by eapply evaluate_quote_closed].
Qed.

(** C26: an evaluation of a reachable lifecycle, at any clock, by any venue
    and on any quote, fails closed. It never panics. What it returns instead of
    a result is an error of one of the five stable codes, the error of another
    component under the name of the step that called it, or an account
    namespace that is too long; no transition the venue builds is refused. *)
Theorem evaluate_fails_closed now venue request a :
  request.(req_Aggregate) = Some a -> reachable a ->
  match Evaluate now venue request with
  | Ok r => is_Some r.(res_Aggregate)
  | Err e => simulation_error e
  | Panic _ => False
  end.
Proof.
  intros Ha Hreach. pose proof (reachable_inv _ Hreach) as Hinv.
  destruct (Evaluate now venue request) as [r| |] eqn:He.
  - destruct (evaluate_spec _ _ _ _ _ Ha Hinv He) as (p & asset & session & o & [_ _ Ho] & Hev).
    apply evaluation_recorded in Hev as (a' & -> & _); eauto.
  - change (closed (@Err Result e)). rewrite <- He. by eapply evaluate_closed.
  - change (closed (@Panic Result p)). rewrite <- He. by eapply evaluate_closed.
Qed.
End simulation_safety.
