(* ===== verification/SimulationOutcomeProofs.v ===== *)
(** * Outcomes and persistence of a simulation: totals, order independence,
    raw-first storage *)

From S2P Require Import Prelude GoStd GoText GoTime Externals EconomicId Account Instrument.
From S2P Require Import Transaction SourceEvent Normalization Snapshot Lifecycle LifecycleAggregate.
From S2P Require Import LifecycleProofs LifecycleTheorems LifecycleSafety SnapshotProofs.
From S2P Require Import ProjectionPayload SimulationPolicy SimulationFill SimulationVenue SimulationOutcome.
From S2P Require Import SimulationPolicyProofs SimulationProofs SimulationTheorems.

Local Open Scope go_scope.
#[local] Opaque DeterministicUUID Sum256 json_struct.

Section outcome_proofs.
Context {E : Externals} {L : ExternalLaws}.
Local Open Scope Q_scope.

(** ** The effects *)

Definition effect_id (e : FillEffect) : UUID := e.(fe_Fill).(fill_ID).
Definition effect_map (fills : list FillEffect) : gmap UUID FillEffect :=
  list_to_map ((fun e => (effect_id e, e)) <$> fills).

Lemma effect_map_None fills id : id ∉ effect_id <$> fills -> effect_map fills !! id = None.
Proof. intros Hid. apply not_elem_of_list_to_map_1. by rewrite <- list_fmap_compose. Qed.

Lemma reject_bind_Ok {A} b msg (k : outcome A) r : reject b msg ≫= (fun _ => k) = Ok r <-> b = false /\ k = Ok r.
Proof. destruct b; cbn; naive_solver. Qed.

(** The loop succeeds on effects with distinct identities that are not nil. *)
Lemma index_effects_Ok fills effects result : index_effects fills effects = Ok result <->
  Forall (fun e => effect_id e <> Nil) fills /\ NoDup (effect_id <$> fills) /\
  Forall (fun e => effects !! effect_id e = None) fills /\ result = effect_map fills ∪ effects.
Proof.
  revert effects. induction fills as [|e fills IH]; intros effects; cbn [index_effects].
  { unfold effect_map. cbn. rewrite (left_id_L ∅ (∪)). split; [intros [= <-]|intros (_ & _ & _ & ->)]; repeat constructor. }
  rewrite !reject_bind_Ok, IH, !Forall_cons. cbn [fmap list_fmap]. rewrite NoDup_cons.
  change (effect_map (e :: fills)) with (<[effect_id e := e]> (effect_map fills)).
  change (e.(fe_Fill).(fill_ID)) with (effect_id e). rewrite !bool_decide_eq_false.
  assert (Hfresh : (effect_id e ∉ effect_id <$> fills) -> effect_map fills ∪ <[effect_id e := e]> effects = <[effect_id e := e]> (effect_map fills) ∪ effects).
  { intros Hid%effect_map_None. by rewrite <- insert_union_r, insert_union_l. }
  assert (Hnone : Forall (fun e' => <[effect_id e := e]> effects !! effect_id e' = None) fills <->
    (effect_id e ∉ effect_id <$> fills) /\ Forall (fun e' => effects !! effect_id e' = None) fills).
  { rewrite !Forall_forall. setoid_rewrite lookup_insert_None. rewrite list_elem_of_fmap. naive_solver. }
  rewrite Hnone, eq_None_not_Some. split.
  - intros (H1 & H2 & H3 & H4 & (H5 & H6) & ->). by rewrite (Hfresh H5).
  - intros ((H1 & H2) & (H3 & H4) & (H5 & H6) & ->). by rewrite (Hfresh H3).
Qed.

Lemma index_effects_perm fills fills' result : fills ≡ₚ fills' -> index_effects fills ∅ = Ok result ->
  index_effects fills' ∅ = Ok result.
Proof.
  rewrite !index_effects_Ok. intros Hp (H1 & H2 & _ & ->).
  assert (Hnd : NoDup ((fun e => (effect_id e, e)) <$> fills).*1) by (by rewrite <- list_fmap_compose).
  split_and!.
  - by rewrite <- Hp.
  - by rewrite <- Hp.
  - apply Forall_true. intros e. apply lookup_empty.
  - f_equal. apply list_to_map_proper; [done|]. by rewrite Hp.
Qed.

(** ** The totals *)

Definition fill_cash (header : OutcomeHeader) (f : Fill) : Q :=
  (if header.(oh_Side) ==? SideBuy then -1 else 1) * (val f.(fill_Quantity) * val f.(fill_Price) * val header.(oh_Multiplier)).

(** The line of the outcome for a fill: its amounts and the fee of its effect. *)
Definition outcome_line (effects : list FillEffect) (f : Fill) (line : OutcomeFill) : Prop :=
  line.(of_Quantity) = f.(fill_Quantity) /\ line.(of_Price) = f.(fill_Price) /\
  exists e, e ∈ effects /\ effect_id e = f.(fill_ID) /\ SameFillPayload (Some f) (Some e.(fe_Fill)) = true /\
    val line.(of_Fee) == fee_value e.(fe_Fee) /\ 0 <= val line.(of_Fee).

Lemma add_fills_totals header fills effects totals totals' :
  add_fills header (effect_map effects) totals fills = Ok totals' ->
  exists lines, totals'.(ot_Fills) = totals.(ot_Fills) ++ lines /\ Forall2 (outcome_line effects) fills lines /\
    val totals'.(ot_TotalQuantity) == val totals.(ot_TotalQuantity) + sumQ (fun f => val f.(fill_Quantity)) fills /\
    val totals'.(ot_GrossCash) == val totals.(ot_GrossCash) + sumQ (fill_cash header) fills /\
    val totals'.(ot_TotalFee) == val totals.(ot_TotalFee) + sumQ (fun line => val line.(of_Fee)) lines.
Proof.
  revert totals. induction fills as [|f fills IH]; intros totals; cbn [add_fills].
  { intros [= <-]. exists []. rewrite app_nil_r. cbn [sumQ]. split_and!; [done|constructor|lra..]. }
  intros Ha. apply bind_Ok in Ha as (totals1 & Hadd & Ha). apply IH in Ha as (lines & H1 & H2 & H3 & H4 & H5).
  unfold add_fill in Hadd. inv_ok Hadd. facts. cbn [ot_Fills ot_TotalQuantity ot_GrossCash ot_TotalFee] in *.
  match goal with He : effect_map _ !! _ = Some ?e |- _ => rename e into effect;
    apply elem_of_list_to_map_2, list_elem_of_fmap in He as (e' & Heq & Hin) end.
  injection Heq as Hid <-. eexists (_ :: lines). split_and!.
  - by rewrite H1, <- app_assoc.
  - constructor; [|done]. split_and!; [done..|]. exists effect. split_and!; [done|done|done|..];
      cbn [of_Fee]; destruct (fe_Fee effect) as [fee|]; cbn [fee_value some_and] in *; rewrite ?val_Zero; dec_bools; lra.
  - rewrite H3, val_Add. cbn [sumQ]. lra.
  - rewrite H4, val_Add. cbn [sumQ]. unfold fill_cash at 2.
    destruct (_ ==? SideBuy); rewrite ?val_Neg, !val_Mul; lra.
  - rewrite H5, val_Add. cbn [sumQ of_Fee]. lra.
Qed.

Lemma new_outcome_facts input out : NewOutcome input = Ok out -> exists a o totals,
  input.(outin_Aggregate) = Some a /\ a.(agg_Order) = Some o /\ size (effect_map input.(outin_Fills)) = length a.(agg_Fills) /\
  NoDup (effect_id <$> input.(outin_Fills)) /\
  out.(out_header).(oh_Side) = o.(order_Side) /\ out.(out_header).(oh_Multiplier) = input.(outin_VenueContract).(vc_Multiplier) /\
  out.(out_header).(oh_FinalState) = a.(agg_State) /\
  add_fills out.(out_header) (effect_map input.(outin_Fills)) no_totals a.(agg_Fills) = Ok totals /\
  out.(out_totals) = totals /\ out.(out_hash) = EncodeToString (Sum256 out.(out_canonicalBytes)) /\
  out.(out_canonicalBytes) = canonical_outcome out.(out_header) totals.
Proof.
  unfold NewOutcome. intros Hn. inv_ok Hn. facts.
  match goal with Hi : index_effects _ _ = Ok _ |- _ => apply index_effects_Ok in Hi as (_ & Hnd & _ & ->) end.
  rewrite (right_id_L ∅ (∪)) in *. rewrite Nat.eqb_eq in *. cbn. eauto 15.
Qed.

(** the outcome of a simulation states exactly what its lifecycle did: one
    line per fill in order with the fee of the one effect of that fill, the
    filled quantity, the signed notional cash of the side at the contract
    multiplier, and the sum of the fees; and its hash is that of these bytes. *)
Theorem outcome_totals_exact input out a : NewOutcome input = Ok out -> input.(outin_Aggregate) = Some a ->
  Forall2 (outcome_line input.(outin_Fills)) a.(agg_Fills) out.(ot_Fills) /\
  length input.(outin_Fills) = length a.(agg_Fills) /\ NoDup (effect_id <$> input.(outin_Fills)) /\
  val out.(ot_TotalQuantity) == filled a /\
  val out.(ot_GrossCash) == sumQ (fill_cash out) a.(agg_Fills) /\
  val out.(ot_TotalFee) == sumQ (fun line => val line.(of_Fee)) out.(ot_Fills) /\
  out.(out_hash) = EncodeToString (Sum256 (canonical_outcome out out)).
Proof.
  intros (a' & o & totals & Ha' & Ho & Hsize & Hnd & _ & _ & _ & Hadd & <- & Hhash & Hbytes)%new_outcome_facts Ha. simplify_eq.
  apply add_fills_totals in Hadd as (lines & -> & H2 & H3 & H4 & H5). cbn [no_totals ot_Fills ot_TotalQuantity ot_GrossCash ot_TotalFee app] in *.
  rewrite val_ZeroValue in *. split_and!; try done; [|rewrite H3; unfold filled; lra|lra|lra|congruence].
  rewrite <- Hsize. unfold effect_map. rewrite map_size_list_to_map; [by rewrite length_fmap|by rewrite <- list_fmap_compose].
Qed.

(** The outcome, its bytes and its hash do not depend on the order in which
    the effects are supplied. *)
Theorem outcome_order_independent account contract aggregate fills fills' out : fills ≡ₚ fills' ->
  NewOutcome (MkOutcomeInput account contract aggregate fills) = Ok out ->
  NewOutcome (MkOutcomeInput account contract aggregate fills') = Ok out.
Proof.
  intros Hp. unfold NewOutcome. cbn [outin_Account outin_VenueContract outin_Aggregate outin_Fills].
  intros Hn. pose proof Hn as Hcopy. inv_ok Hcopy.
  match goal with Hi : index_effects fills ∅ = Ok _ |- _ =>
    rewrite Hi in Hn; rewrite (index_effects_perm _ _ _ Hp Hi); exact Hn end.
Qed.

(** ** Raw-first storage *)

(** What a store of lifecycles promises: it keeps an aggregate and the raw
    source events; recording an event returns it and keeps the aggregate; a
    fill is applied by the lifecycle when its raw event is already there. *)
Class LifecycleStore {S : Type} (st : Persistence S) (aggregate : S -> Aggregate) (recorded : S -> UUID -> Prop) : Prop := {
  store_raw s raw : exists s', st.(RecordEconomicSourceEvent) s raw = (s', Ok (Some raw)) /\
    aggregate s' = aggregate s /\ recorded s' raw.(src_ID) /\ (forall id, recorded s id -> recorded s' id);
  store_fill s id t raw a' : t.(tr_Normalization) ≫= norm_SourceEvent = Some raw -> recorded s raw.(src_ID) ->
    (aggregate s).(agg_Intent).(intent_AccountID) = id ->
    ApplyTransition (Some (aggregate s)) (Some t) = Ok a' ->
    exists s', st.(ApplyExecutionFill) s id t = (s', Ok (Some a')) /\ aggregate s' = a' /\
      (forall id, recorded s id -> recorded s' id);
  store_transition s id t a' : t.(tr_Fill) = None -> (aggregate s).(agg_Intent).(intent_AccountID) = id ->
    ApplyTransition (Some (aggregate s)) (Some t) = Ok a' ->
    exists s', st.(ApplyExecutionTransition) s id t = (s', Ok (Some a')) /\ aggregate s' = a' /\
      (forall id, recorded s id -> recorded s' id);
}.

Section storage.
Context {S : Type} (st : Persistence S) (aggregate : S -> Aggregate) (recorded : S -> UUID -> Prop).
Context `{!LifecycleStore st aggregate recorded}.

(** Every raw source event of the transitions is recorded. *)
Definition raw_recorded (s : S) (ts : list Transition) : Prop :=
  Forall (fun t => forall raw, t.(tr_Normalization) ≫= norm_SourceEvent = Some raw -> recorded s raw.(src_ID)) ts.

Lemma same_raw_payload raw : SameEconomicSourceEventPayload (Some raw) (Some raw) = true.
Proof. unfold SameEconomicSourceEventPayload, TimeEqual. by rewrite !bool_decide_eq_true_2, Z.eqb_refl by done. Qed.

Lemma persist_step s t a' : storable t -> ApplyTransition (Some (aggregate s)) (Some t) = Ok a' ->
  exists s', persist_transition st (aggregate s).(agg_Intent).(intent_AccountID) s t = (s', Ok (Some a')) /\
    aggregate s' = a' /\ (forall id, recorded s id -> recorded s' id) /\ raw_recorded s' [t].
Proof.
  unfold storable, persist_transition. intros Hs Happ. destruct (tr_Fill t) as [f|] eqn:Hf.
  - destruct Hs as [raw Hraw]. rewrite Hraw. destruct (store_raw s raw) as (s1 & -> & Ha & Hr & Hm). cbn [wrap].
    rewrite same_raw_payload. cbn [negb]. rewrite <- Ha in Happ |- *.
    destruct (store_fill s1 _ t raw a' Hraw Hr eq_refl Happ) as (s2 & -> & Ha2 & Hm2). exists s2. cbn [wrap].
    split_and!; [done|done|auto|]. constructor; [|constructor]. intros raw' Hraw'. simplify_eq. auto.
  - rewrite Hs. cbn [is_nil negb]. destruct (store_transition s _ t a' Hf eq_refl Happ) as (s1 & -> & Ha & Hm). exists s1. cbn [wrap].
    split_and!; [done..|]. constructor; [|constructor]. rewrite Hs. done.
Qed.

Lemma persist_run ts s a' persisted : lifecycle_inv (aggregate s) -> run (aggregate s) ts a' -> Forall storable ts ->
  exists s', persist_transitions st (aggregate s).(agg_Intent).(intent_AccountID) s persisted (Some <$> ts) =
      (s', Ok (if decide (ts = []) then persisted else Some a')) /\
    aggregate s' = a' /\ (forall id, recorded s id -> recorded s' id) /\ raw_recorded s' ts.
Proof.
  revert s persisted. induction ts as [|t ts IH]; intros s persisted Hinv Hrun Hst; inversion Hrun as [|? ? ? ? [? a1 Happ] Hrest]; subst.
  { exists s. split_and!; try done. constructor. }
  apply Forall_cons in Hst as [Ht Hst]. destruct (persist_step s t a1 Ht Happ) as (s1 & Hp & <- & Hm & Hraw).
  pose proof (inv_step _ _ _ Hinv Happ) as Hinv1. destruct (step_extends _ _ _ Hinv Happ) as ([Hintent _ _ _ _ _] & _ & _).
  destruct (IH s1 (Some (aggregate s1)) Hinv1 Hrest Hst) as (s2 & Hp2 & Ha2 & Hm2 & Hraw2).
  exists s2. cbn [fmap list_fmap persist_transitions]. rewrite Hp. rewrite Hintent in Hp2. rewrite Hp2. split_and!; [|done|auto|].
  - destruct (decide (ts = [])) as [-> |]; [|done]. by inversion Hrest; subst.
  - unfold raw_recorded in *. apply Forall_cons in Hraw as [Hraw _]. constructor; [auto|done].
Qed.

Lemma intent_account i : Intent_Validate i = Ok tt -> i.(intent_AccountID) <> Nil.
Proof. unfold Intent_Validate. intros Hv. inv_ok Hv. by split_bools. Qed.

(** A store that keeps the promises of the lifecycle repository accepts
    every result of an evaluation: [PersistResult] succeeds, the stored
    lifecycle is the evaluated one, and the raw source event of every fill was
    recorded before the fill was applied. *)
Theorem result_persists now venue request r s :
  request.(req_Aggregate) = Some (aggregate s) -> reachable (aggregate s) -> Evaluate now venue request = Ok r ->
  exists s' a', r.(res_Aggregate) = Some a' /\
    PersistResult (Some st) s (aggregate s).(agg_Intent).(intent_AccountID) (Some r) = (s', Ok a') /\
    aggregate s' = a' /\ raw_recorded s' r.(res_Transitions).
Proof.
  intros Ha Hreach He. pose proof (reachable_inv _ Hreach) as Hinv.
  destruct (evaluate_spec _ _ _ _ _ Ha Hinv He) as (p & asset & session & o & Hv & Hev).
  apply evaluation_recorded in Hev as (a' & Hr & [R1 _ _ _ R5]); [|by eapply va_order].
  pose proof (run_inv _ _ _ Hinv R1) as Hinv'. destruct (run_extends _ _ _ Hinv R1) as [[Hintent _ _ _ _ _] _].
  destruct (persist_run _ s a' None Hinv R1 R5) as (s' & Hp & Ha' & _ & Hraw). exists s', a'.
  split; [done|]. split; [|done]. unfold PersistResult. rewrite Hr, Hintent, Hp.
  rewrite (bool_decide_eq_false_2 _ (intent_account _ (li_intent _ Hinv))), (bool_decide_eq_true_2 _ eq_refl). cbn [negb orb].
  destruct (res_Transitions r) as [|t ts] eqn:Hts.
  - inversion R1; subst a'. cbn in Hp |- *. by injection Hp as ->.
  - cbn [length Nat.eqb]. rewrite decide_False by done. cbn [mbind outcome_bind required].
    by rewrite Hintent, !bool_decide_eq_true_2, Nat.eqb_refl by done.
Qed.
End storage.
End outcome_proofs.
