(* ===== verification/CapitalPolicy.v ===== *)
(** * Capital policy and account bindings
    (internal/capital/policy.go, internal/capital/binding.go)

    The reviewed capital tiers and margin profiles, their content-addressed
    policy and its durable artifact, and the binding of one account to one
    policy, tier and profile. *)

From S2P Require Import Prelude GoStd GoText Externals EconomicId Account ProjectionPayload.

Local Open Scope go_scope.

Definition MarginProfile_string (p : MarginProfile) : string :=
  match p with
  | MarginProfileCash => "cash"
  | MarginProfileRegT => "reg_t"
  | MarginProfilePortfolio => "portfolio"
  | MarginProfileStressUnlimited => "stress_unlimited"
  | MarginProfileOther t => t
  end.

(** [domain.MarginProfile(text)] *)
Definition MarginProfile_of_string (text : string) : MarginProfile :=
  if text ==? "cash" then MarginProfileCash
  else if text ==? "reg_t" then MarginProfileRegT
  else if text ==? "portfolio" then MarginProfilePortfolio
  else if text ==? "stress_unlimited" then MarginProfileStressUnlimited
  else MarginProfileOther text.

Definition PolicySchemaV1 : string := "capital-margin-policy-v1".
Definition policyArtifactDomain : string := "capital-margin-policy-artifact".
Definition bindingIDDomain : string := "capital-policy-binding".

(** The structs [json.Marshal] prints for a policy. *)
Record canonicalProfile := MkCanonicalProfile {
  cprof_Name : string;
  cprof_InitialLong : string;
  cprof_InitialShort : string;
  cprof_MaintenanceLong : string;
  cprof_MaintenanceShort : string;
  cprof_MaximumGross : string;
  cprof_CashReserve : string;
  cprof_AllowShort : bool;
  cprof_Unlimited : bool;
}.

Record canonicalPolicy := MkCanonicalPolicy {
  cpol_Schema : string;
  cpol_Currency : string;
  cpol_Scale : Z;
  cpol_Tiers : list string;
  cpol_Profiles : list canonicalProfile;
}.

Section policy.
Context {E : Externals}.
(** [decoder.Decode(&canonical)] with unknown fields disallowed: the value and
    the unread rest; [None] is an error. *)
Context (decodeCanonicalPolicy : string -> option (canonicalPolicy * string)).

(** ** Records *)

Record Profile := MkProfile {
  prof_Name : MarginProfile;
  prof_InitialLong : dec;
  prof_InitialShort : dec;
  prof_MaintenanceLong : dec;
  prof_MaintenanceShort : dec;
  prof_MaximumGross : dec;
  prof_CashReserve : dec;
  prof_AllowShort : bool;
  prof_Unlimited : bool;
}.

(** [Profile{}] *)
Definition NoProfile : Profile :=
  MkProfile (MarginProfileOther "") ZeroValue ZeroValue ZeroValue ZeroValue ZeroValue ZeroValue false false.

Record PolicyInput := MkPolicyInput {
  polin_Schema : string;
  polin_Currency : string;
  polin_Scale : Z;
  polin_Tiers : list dec;
  polin_Profiles : list Profile;
}.

Record Policy := MkPolicy {
  pol_schema : string;
  pol_currency : string;
  pol_scale : Z;
  pol_tiers : list dec;
  pol_profiles : list Profile;
  pol_canonicalBytes : string;
  pol_digest : string;
  pol_version : string;
  pol_artifactID : UUID;
}.

Record PolicyArtifact := MkPolicyArtifact {
  art_ID : UUID;
  art_Schema : string;
  art_Version : string;
  art_SHA256 : string;
  art_CanonicalBytes : string;
  art_CreatedAt : Time;
}.

Record Binding := MkBinding {
  bind_ID : UUID;
  bind_AccountID : UUID;
  bind_PolicyArtifactID : UUID;
  bind_PolicyVersion : string;
  bind_Tier : dec;
  bind_Profile : MarginProfile;
  bind_Environment : AccountEnvironment;
  bind_StartingCapital : dec;
  bind_BuyingPowerMultiplier : dec;
  bind_EvidenceClass : string;
  bind_StorageNamespace : string;
  bind_Currency : string;
  bind_CreatedAt : Time;
}.

(** ** The reviewed values

    [decimal.RequireFromString("0.15")] is the decimal 15e-2. *)
Definition reviewedCapitalTiers : list dec :=
  [NewFromInt 500; NewFromInt 5000; NewFromInt 25000; NewFromInt 100000; NewFromInt 1000000; NewFromInt 5000000].

Definition reviewedProfiles : list Profile :=
  [{| prof_Name := MarginProfileCash;
      prof_InitialLong := NewFromInt 1; prof_InitialShort := Zero;
      prof_MaintenanceLong := NewFromInt 1; prof_MaintenanceShort := Zero;
      prof_MaximumGross := NewFromInt 1; prof_CashReserve := Zero;
      prof_AllowShort := false; prof_Unlimited := false |};
   {| prof_Name := MarginProfilePortfolio;
      prof_InitialLong := New 15 (-2); prof_InitialShort := New 3 (-1);
      prof_MaintenanceLong := New 15 (-2); prof_MaintenanceShort := New 3 (-1);
      prof_MaximumGross := NewFromInt 6; prof_CashReserve := Zero;
      prof_AllowShort := true; prof_Unlimited := false |};
   {| prof_Name := MarginProfileRegT;
      prof_InitialLong := New 5 (-1); prof_InitialShort := New 15 (-1);
      prof_MaintenanceLong := New 25 (-2); prof_MaintenanceShort := New 3 (-1);
      prof_MaximumGross := NewFromInt 2; prof_CashReserve := Zero;
      prof_AllowShort := true; prof_Unlimited := false |};
   {| prof_Name := MarginProfileStressUnlimited;
      prof_InitialLong := Zero; prof_InitialShort := Zero;
      prof_MaintenanceLong := Zero; prof_MaintenanceShort := Zero;
      prof_MaximumGross := Zero; prof_CashReserve := Zero;
      prof_AllowShort := true; prof_Unlimited := true |}].

Definition ReviewedPolicyV1Input : PolicyInput := {|
  polin_Schema := PolicySchemaV1;
  polin_Currency := "USD";
  polin_Scale := 12;
  polin_Tiers := reviewedCapitalTiers;
  polin_Profiles := reviewedProfiles |}.

(** ** Validation of the input *)

Definition validPolicyDecimal (value : dec) : bool :=
  if negb (Equal value (Round value 12)) then false
  else
    let integer := DecimalString (Truncate (Abs value) 0) in
    (String.length (TrimPrefix integer "-") <=? 26)%nat.

Definition validateProfile (profile : Profile) : outcome unit :=
  reject (negb (MarginProfile_IsValid profile.(prof_Name))) "profile name %q is invalid" ;;
  for_each (fun value =>
      reject (negb (validPolicyDecimal value) || IsNegative value) "profile %q has an invalid exact decimal")
    [profile.(prof_InitialLong); profile.(prof_InitialShort); profile.(prof_MaintenanceLong);
     profile.(prof_MaintenanceShort); profile.(prof_MaximumGross); profile.(prof_CashReserve)].

Definition sameProfile (left right : Profile) : bool :=
  (left.(prof_Name) ==? right.(prof_Name)) &&
  Equal left.(prof_InitialLong) right.(prof_InitialLong) &&
  Equal left.(prof_InitialShort) right.(prof_InitialShort) &&
  Equal left.(prof_MaintenanceLong) right.(prof_MaintenanceLong) &&
  Equal left.(prof_MaintenanceShort) right.(prof_MaintenanceShort) &&
  Equal left.(prof_MaximumGross) right.(prof_MaximumGross) &&
  Equal left.(prof_CashReserve) right.(prof_CashReserve) &&
  (left.(prof_AllowShort) ==? right.(prof_AllowShort)) &&
  (left.(prof_Unlimited) ==? right.(prof_Unlimited)).

(** The loops compare the sorted slices position by position; both slices have
    the same length when they are reached. *)
Fixpoint check_tiers (tiers want : list dec) : outcome unit :=
  match tiers, want with
  | tier :: tiers', expected :: want' =>
      reject (negb (validPolicyDecimal tier) || negb (Equal tier expected))
        "capital policy tier %d is not the reviewed value" ;;
      check_tiers tiers' want'
  | _, _ => Ok tt
  end.

Fixpoint check_profiles (profiles want : list Profile) : outcome unit :=
  match profiles, want with
  | profile :: profiles', expected :: want' =>
      wrap "capital policy profile %d: %w" (validateProfile profile) ;;
      reject (negb (sameProfile profile expected))
        "capital policy profile %q does not match reviewed v1 economics" ;;
      check_profiles profiles' want'
  | _, _ => Ok tt
  end.

(** ** Canonical bytes *)

Definition canonical_profile (profile : Profile) : canonicalProfile := {|
  cprof_Name := MarginProfile_string profile.(prof_Name);
  cprof_InitialLong := DecimalString profile.(prof_InitialLong);
  cprof_InitialShort := DecimalString profile.(prof_InitialShort);
  cprof_MaintenanceLong := DecimalString profile.(prof_MaintenanceLong);
  cprof_MaintenanceShort := DecimalString profile.(prof_MaintenanceShort);
  cprof_MaximumGross := DecimalString profile.(prof_MaximumGross);
  cprof_CashReserve := DecimalString profile.(prof_CashReserve);
  cprof_AllowShort := profile.(prof_AllowShort);
  cprof_Unlimited := profile.(prof_Unlimited) |}.

Definition marshal_profile (p : canonicalProfile) : string :=
  json_struct
    [str "name" p.(cprof_Name); str "initial_long" p.(cprof_InitialLong);
     str "initial_short" p.(cprof_InitialShort); str "maintenance_long" p.(cprof_MaintenanceLong);
     str "maintenance_short" p.(cprof_MaintenanceShort); str "maximum_gross" p.(cprof_MaximumGross);
     str "cash_reserve" p.(cprof_CashReserve); ("allow_short", json_bool p.(cprof_AllowShort));
     ("unlimited", json_bool p.(cprof_Unlimited))].

Definition marshal_policy (c : canonicalPolicy) : string :=
  json_struct
    [str "schema" c.(cpol_Schema); str "currency" c.(cpol_Currency); ("scale", json_int c.(cpol_Scale));
     ("tiers", json_slice (json_marshal_string <$> c.(cpol_Tiers)));
     ("profiles", json_slice (marshal_profile <$> c.(cpol_Profiles)))].

(** ** NewPolicy *)

Definition tierLess (left right : dec) : bool := LessThan left right.
Definition profileLess (left right : Profile) : bool :=
  string_lt (MarginProfile_string left.(prof_Name)) (MarginProfile_string right.(prof_Name)).

Definition canonical_policy (input : PolicyInput) (tiers : list dec) (profiles : list Profile) : canonicalPolicy := {|
  cpol_Schema := input.(polin_Schema); cpol_Currency := input.(polin_Currency); cpol_Scale := input.(polin_Scale);
  cpol_Tiers := DecimalString <$> tiers; cpol_Profiles := canonical_profile <$> profiles |}.

Definition NewPolicy (input : PolicyInput) : outcome Policy :=
  reject (input.(polin_Schema) !=? PolicySchemaV1) "capital policy schema must be %q" ;;
  reject (input.(polin_Currency) !=? "USD") "capital policy currency must be USD" ;;
  reject (input.(polin_Scale) !=? 12%Z) "capital policy scale must be 12" ;;
  reject (negb (length input.(polin_Tiers) =? 6)%nat) "capital policy requires exactly six tiers" ;;
  let tiers := sort_slice tierLess input.(polin_Tiers) in
  check_tiers tiers reviewedCapitalTiers ;;
  reject (negb (length input.(polin_Profiles) =? 4)%nat) "capital policy requires exactly four profiles" ;;
  let profiles := sort_slice profileLess input.(polin_Profiles) in
  check_profiles profiles reviewedProfiles ;;
  let canonicalBytes := marshal_policy (canonical_policy input tiers profiles) in
  let digest := EncodeToString (Sum256 canonicalBytes) in
  let version := (input.(polin_Schema) +:+ "@sha256:" +:+ digest)%string in
  Ok {| pol_schema := input.(polin_Schema); pol_currency := input.(polin_Currency); pol_scale := input.(polin_Scale);
        pol_tiers := tiers; pol_profiles := profiles; pol_canonicalBytes := canonicalBytes; pol_digest := digest;
        pol_version := version; pol_artifactID := DeterministicUUID policyArtifactDomain [version] |}.

(** ** Accessors, on a possibly nil policy *)

Definition Policy_Schema (policy : option Policy) : string :=
  match policy with None => "" | Some p => p.(pol_schema) end.
Definition Policy_Currency (policy : option Policy) : string :=
  match policy with None => "" | Some p => p.(pol_currency) end.
Definition Policy_Scale (policy : option Policy) : Z :=
  match policy with None => 0%Z | Some p => p.(pol_scale) end.
Definition Policy_Version (policy : option Policy) : string :=
  match policy with None => "" | Some p => p.(pol_version) end.
Definition Policy_Digest (policy : option Policy) : string :=
  match policy with None => "" | Some p => p.(pol_digest) end.
Definition Policy_ArtifactID (policy : option Policy) : UUID :=
  match policy with None => Nil | Some p => p.(pol_artifactID) end.
Definition Policy_CanonicalBytes (policy : option Policy) : string :=
  match policy with None => "" | Some p => p.(pol_canonicalBytes) end.
Definition Policy_Tiers (policy : option Policy) : list dec :=
  match policy with None => [] | Some p => p.(pol_tiers) end.

(** The second result is whether the profile was found. *)
Definition Policy_Profile (policy : option Policy) (name : MarginProfile) : Profile * bool :=
  match policy with
  | None => (NoProfile, false)
  | Some p =>
      match List.find (fun profile => profile.(prof_Name) ==? name) p.(pol_profiles) with
      | Some profile => (profile, true)
      | None => (NoProfile, false)
      end
  end.

(** ** The durable artifact *)

Definition PolicyArtifact_Validate (artifact : PolicyArtifact) : outcome unit :=
  reject ((artifact.(art_ID) ==? Nil) || (artifact.(art_Schema) !=? PolicySchemaV1))
    "capital policy artifact identity or schema is invalid" ;;
  reject ((artifact.(art_Version) ==? "") || (artifact.(art_Version) !=? TrimSpace artifact.(art_Version)) ||
          (256 <? String.length artifact.(art_Version))%nat)
    "capital policy artifact version is invalid" ;;
  reject (negb (String.length artifact.(art_SHA256) =? 64)%nat ||
          (ToLower artifact.(art_SHA256) !=? artifact.(art_SHA256)))
    "capital policy artifact digest is invalid" ;;
  reject ((String.length artifact.(art_CanonicalBytes) =? 0)%nat || IsZeroTime artifact.(art_CreatedAt) ||
          negb artifact.(art_CreatedAt).(location_utc) ||
          negb (TimeEqual artifact.(art_CreatedAt) (TruncateMicro artifact.(art_CreatedAt))))
    "capital policy artifact bytes or creation time is invalid" ;;
  let digest := EncodeToString (Sum256 artifact.(art_CanonicalBytes)) in
  reject ((digest !=? artifact.(art_SHA256)) ||
          (artifact.(art_Version) !=? (artifact.(art_Schema) +:+ "@sha256:" +:+ digest)%string) ||
          (artifact.(art_ID) !=? DeterministicUUID policyArtifactDomain [artifact.(art_Version)]))
    "capital policy artifact digest, version, or ID does not match bytes".

(** [now] is what [time.Now()] returns. *)
Definition NewArtifact (now : Time) (policy : option Policy) (createdAt : Time) : outcome PolicyArtifact :=
  match policy with
  | None => Err (Errorf "capital policy is required")
  | Some p =>
      reject (p.(pol_artifactID) ==? Nil) "capital policy is required" ;;
      let createdAt := if IsZeroTime createdAt then utc_micro now else createdAt in
      let createdAt := utc_micro createdAt in
      let artifact := {|
        art_ID := p.(pol_artifactID); art_Schema := p.(pol_schema); art_Version := p.(pol_version);
        art_SHA256 := p.(pol_digest); art_CanonicalBytes := p.(pol_canonicalBytes); art_CreatedAt := createdAt |} in
      PolicyArtifact_Validate artifact ;;
      Ok artifact
  end.

(** A text that is the canonical print of the decimal it parses to. *)
Definition canonical_decimal (msg text : string) : outcome dec :=
  match NewFromString text with
  | None => Err (Errorf msg)
  | Some parsed =>
      reject (DecimalString parsed !=? text) msg ;;
      Ok parsed
  end.

Definition profile_from_canonical (encoded : canonicalProfile) : outcome Profile :=
  let parse := canonical_decimal "capital policy profile %q has noncanonical decimal %q" in
  initialLong ← parse encoded.(cprof_InitialLong) ;
  initialShort ← parse encoded.(cprof_InitialShort) ;
  maintenanceLong ← parse encoded.(cprof_MaintenanceLong) ;
  maintenanceShort ← parse encoded.(cprof_MaintenanceShort) ;
  maximumGross ← parse encoded.(cprof_MaximumGross) ;
  cashReserve ← parse encoded.(cprof_CashReserve) ;
  Ok {| prof_Name := MarginProfile_of_string encoded.(cprof_Name);
        prof_InitialLong := initialLong; prof_InitialShort := initialShort;
        prof_MaintenanceLong := maintenanceLong; prof_MaintenanceShort := maintenanceShort;
        prof_MaximumGross := maximumGross; prof_CashReserve := cashReserve;
        prof_AllowShort := encoded.(cprof_AllowShort); prof_Unlimited := encoded.(cprof_Unlimited) |}.

Definition policyInputFromCanonical (value : canonicalPolicy) : outcome PolicyInput :=
  tiers ← map_outcome (canonical_decimal "capital policy tier %q is not a canonical decimal") value.(cpol_Tiers) ;
  profiles ← map_outcome profile_from_canonical value.(cpol_Profiles) ;
  Ok {| polin_Schema := value.(cpol_Schema); polin_Currency := value.(cpol_Currency);
        polin_Scale := value.(cpol_Scale); polin_Tiers := tiers; polin_Profiles := profiles |}.

Definition requireJSONEOF (rest : string) : outcome unit :=
  reject (negb (json_eof rest)) "capital policy contains trailing JSON".

Definition PolicyFromArtifact (artifact : PolicyArtifact) : outcome Policy :=
  wrap "restore capital policy artifact: %w" (PolicyArtifact_Validate artifact) ;;
  match decodeCanonicalPolicy artifact.(art_CanonicalBytes) with
  | None => Err (Errorf "restore capital policy artifact: decode: %w")
  | Some (canonical, rest) =>
      wrap "restore capital policy artifact: %w" (requireJSONEOF rest) ;;
      input ← wrap "restore capital policy artifact: %w" (policyInputFromCanonical canonical) ;
      restored ← wrap "restore capital policy artifact: %w" (NewPolicy input) ;
      reject ((Policy_ArtifactID (Some restored) !=? artifact.(art_ID)) ||
              (Policy_Schema (Some restored) !=? artifact.(art_Schema)) ||
              (Policy_Version (Some restored) !=? artifact.(art_Version)) ||
              (Policy_Digest (Some restored) !=? artifact.(art_SHA256)) ||
              (Policy_CanonicalBytes (Some restored) !=? artifact.(art_CanonicalBytes)))
        "restore capital policy artifact: canonical bytes or identity do not match" ;;
      Ok restored
  end.

Definition SamePolicyArtifactPayload (left right : option PolicyArtifact) : bool :=
  match left, right with
  | Some l, Some r =>
      (l.(art_ID) ==? r.(art_ID)) && (l.(art_Schema) ==? r.(art_Schema)) && (l.(art_Version) ==? r.(art_Version)) &&
      (l.(art_SHA256) ==? r.(art_SHA256)) && (l.(art_CanonicalBytes) ==? r.(art_CanonicalBytes))
  | _, _ => false
  end.

(** ** Bindings *)

Definition policyHasTier (policy : option Policy) (tier : dec) : bool :=
  existsb (fun candidate => Equal candidate tier) (Policy_Tiers policy).

Definition Binding_Validate (binding : Binding) (account : Account) (policy : option Policy) : outcome unit :=
  reject (is_nil policy) "capital binding policy is required" ;;
  wrap "capital binding account: %w" (Account_Validate account) ;;
  reject ((binding.(bind_ID) ==? Nil) || (binding.(bind_AccountID) ==? Nil) ||
          (binding.(bind_PolicyArtifactID) ==? Nil))
    "capital binding identity is required" ;;
  reject ((binding.(bind_PolicyVersion) ==? "") ||
          (binding.(bind_PolicyVersion) !=? TrimSpace binding.(bind_PolicyVersion)) ||
          (256 <? String.length binding.(bind_PolicyVersion))%nat)
    "capital binding policy version is invalid" ;;
  reject (IsZeroTime binding.(bind_CreatedAt) || negb binding.(bind_CreatedAt).(location_utc) ||
          negb (TimeEqual binding.(bind_CreatedAt) (TruncateMicro binding.(bind_CreatedAt))))
    "capital binding creation time must be UTC microsecond precision" ;;
  reject ((binding.(bind_AccountID) !=? account.(acct_ID)) ||
          (binding.(bind_PolicyArtifactID) !=? Policy_ArtifactID policy) ||
          (binding.(bind_PolicyVersion) !=? Policy_Version policy) ||
          (binding.(bind_ID) !=? DeterministicUUID bindingIDDomain [uuid_string account.(acct_ID); Policy_Version policy]))
    "capital binding account or policy identity does not match" ;;
  reject ((binding.(bind_Environment) !=? account.(acct_Environment)) ||
          negb (Equal binding.(bind_StartingCapital) account.(acct_StartingCapital)) ||
          negb (Equal binding.(bind_BuyingPowerMultiplier) account.(acct_BuyingPowerMultiplier)) ||
          (binding.(bind_Profile) !=? account.(acct_MarginProfile)) ||
          (binding.(bind_EvidenceClass) !=? account.(acct_EvidenceClass)) ||
          (binding.(bind_StorageNamespace) !=? account.(acct_StorageNamespace)) ||
          (binding.(bind_Currency) !=? account.(acct_BaseCurrency)))
    "capital binding copied account facts do not match" ;;
  reject ((binding.(bind_Currency) !=? Policy_Currency policy) || (binding.(bind_Currency) !=? "USD"))
    "capital binding currency is not supported by policy" ;;
  reject (negb (validPolicyDecimal binding.(bind_Tier)) || negb (IsPositive binding.(bind_Tier)) ||
          negb (Equal binding.(bind_Tier) binding.(bind_StartingCapital)) ||
          negb (policyHasTier policy binding.(bind_Tier)))
    "capital binding tier must equal one reviewed account starting-capital tier" ;;
  let '(policyProfile, ok) := Policy_Profile policy binding.(bind_Profile) in
  reject (negb ok) "capital binding profile is not present in policy" ;;
  match binding.(bind_Environment) with
  | AccountEnvironmentPaperScored =>
      reject ((binding.(bind_EvidenceClass) !=? PaperEvidenceClassPromotion) ||
              negb (HasPrefix binding.(bind_StorageNamespace)
                      (AccountEnvironment_string AccountEnvironmentPaperScored +:+ "/")%string) ||
              (binding.(bind_Profile) ==? MarginProfileStressUnlimited) || policyProfile.(prof_Unlimited) ||
              negb (Equal binding.(bind_BuyingPowerMultiplier) policyProfile.(prof_MaximumGross)) ||
              negb (IsPositive binding.(bind_BuyingPowerMultiplier)))
        "scored capital binding requires a matching finite promotion profile"
  | AccountEnvironmentPaperStress =>
      reject ((binding.(bind_EvidenceClass) !=? PaperEvidenceClassSynthetic) ||
              negb (HasPrefix binding.(bind_StorageNamespace)
                      (AccountEnvironment_string AccountEnvironmentPaperStress +:+ "/")%string) ||
              (binding.(bind_Profile) !=? MarginProfileStressUnlimited) || negb policyProfile.(prof_Unlimited) ||
              negb (IsZero binding.(bind_BuyingPowerMultiplier)))
        "stress capital binding requires isolated stress-unlimited facts"
  | _ => Err (Errorf "capital policy v1 supports paper-scored and paper-stress accounts only")
  end.

Definition NewBinding (now : Time) (account : Account) (policy : option Policy) (tier : dec) (profile : MarginProfile)
    (createdAt : Time) : outcome Binding :=
  reject (is_nil policy) "capital binding policy is required" ;;
  wrap "capital binding account: %w" (Account_Validate account) ;;
  let createdAt := if IsZeroTime createdAt then utc_micro now else createdAt in
  let createdAt := utc_micro createdAt in
  let binding := {|
    bind_ID := DeterministicUUID bindingIDDomain [uuid_string account.(acct_ID); Policy_Version policy];
    bind_AccountID := account.(acct_ID); bind_PolicyArtifactID := Policy_ArtifactID policy;
    bind_PolicyVersion := Policy_Version policy; bind_Tier := tier; bind_Profile := profile;
    bind_Environment := account.(acct_Environment); bind_StartingCapital := account.(acct_StartingCapital);
    bind_BuyingPowerMultiplier := account.(acct_BuyingPowerMultiplier);
    bind_EvidenceClass := account.(acct_EvidenceClass); bind_StorageNamespace := account.(acct_StorageNamespace);
    bind_Currency := account.(acct_BaseCurrency); bind_CreatedAt := createdAt |} in
  Binding_Validate binding account policy ;;
  Ok binding.

Definition Binding_PromotionEligible (binding : Binding) : bool :=
  (binding.(bind_Environment) ==? AccountEnvironmentPaperScored) &&
  (binding.(bind_EvidenceClass) ==? PaperEvidenceClassPromotion) &&
  (binding.(bind_Profile) !=? MarginProfileStressUnlimited).

Definition SameBindingPayload (left right : option Binding) : bool :=
  match left, right with
  | Some l, Some r =>
      (l.(bind_ID) ==? r.(bind_ID)) && (l.(bind_AccountID) ==? r.(bind_AccountID)) &&
      (l.(bind_PolicyArtifactID) ==? r.(bind_PolicyArtifactID)) && (l.(bind_PolicyVersion) ==? r.(bind_PolicyVersion)) &&
      Equal l.(bind_Tier) r.(bind_Tier) && (l.(bind_Profile) ==? r.(bind_Profile)) &&
      (l.(bind_Environment) ==? r.(bind_Environment)) &&
      Equal l.(bind_StartingCapital) r.(bind_StartingCapital) &&
      Equal l.(bind_BuyingPowerMultiplier) r.(bind_BuyingPowerMultiplier) &&
      (l.(bind_EvidenceClass) ==? r.(bind_EvidenceClass)) && (l.(bind_StorageNamespace) ==? r.(bind_StorageNamespace)) &&
      (l.(bind_Currency) ==? r.(bind_Currency))
  | _, _ => false
  end.

End policy.
