(* ===== verification/CapitalState.v ===== *)
(** * Capital state (internal/capital/state.go)

    The sealed point-in-time capital view of an account, derived from a
    portfolio projection and the instruments of its open positions, or restored
    from its canonical bytes. *)

From S2P Require Import Prelude GoStd GoText GoTime Externals EconomicId Account Instrument Projection ProjectionPayload.
From S2P Require Import CapitalPolicy.

Local Open Scope go_scope.

Definition capitalStateSchema : string := "capital-state-v1".
Definition capitalStateDomain : string := "capital-state".

Record canonicalState := MkCanonicalState {
  cst_Schema : string;
  cst_AccountID : string;
  cst_BindingID : string;
  cst_PolicyVersion : string;
  cst_ProjectionCheckpointID : string;
  cst_ProjectionChecksum : string;
  cst_AsOf : string;
  cst_Currency : string;
  cst_Cash : string;
  cst_Equity : string;
  cst_LongExposure : string;
  cst_ShortExposure : string;
  cst_GrossExposure : string;
  cst_MaintenanceRequirement : string;
}.

(** The fields of the projection payload the capital state reads. *)
Record payloadPosition := MkPayloadPosition {
  ppos_InstrumentID : string;
  ppos_Open : bool;
  ppos_Quantity : string;
  ppos_MarketValue : string;
}.

Record projectionCapitalPayload := MkProjectionCapitalPayload {
  pcp_CheckpointID : string;
  pcp_AccountID : string;
  pcp_BaseCurrency : string;
  pcp_AsOf : string;
  pcp_Positions : list payloadPosition;
  pcp_Totals_Cash : string;
  pcp_Totals_MarketValue : string;
  pcp_Totals_Equity : string;
}.

Definition formatCapitalTime (value : Time) : string := format_micro (utc_micro value).

Section state.
Context {E : Externals}.
(** [decoder.Decode] into the two structs: the value and the unread rest;
    [None] is an error. Unknown fields are disallowed for the first. *)
Context (decodeCanonicalState : string -> option (canonicalState * string)).
Context (decodeCapitalPayload : string -> option (projectionCapitalPayload * string)).

(** The fields the constructor fills in, and what [seal] adds to them. *)
Record StateFields := MkStateFields {
  st_accountID : UUID;
  st_bindingID : UUID;
  st_policyVersion : string;
  st_projectionCheckpointID : UUID;
  st_projectionChecksum : string;
  st_asOf : Time;
  st_currency : string;
  st_cash : dec;
  st_equity : dec;
  st_longExposure : dec;
  st_shortExposure : dec;
  st_grossExposure : dec;
  st_maintenanceRequirement : dec;
}.

Record State := MkState {
  st_fields :> StateFields;
  st_id : UUID;
  st_canonicalBytes : string;
  st_hash : string;
}.

Definition validCapitalAmount (value : dec) : bool :=
  if negb (Equal value (Round value 12)) then false
  else
    let integer := DecimalString (Truncate (Abs value) 0) in
    (String.length (TrimPrefix integer "-") <=? 26)%nat.

Definition roundCapitalUp (value : dec) (scale : Z) : dec := RoundCeil value scale.

(** ** Sealing *)

Definition state_canonical (state : StateFields) : canonicalState := {|
  cst_Schema := capitalStateSchema; cst_AccountID := uuid_string state.(st_accountID);
  cst_BindingID := uuid_string state.(st_bindingID); cst_PolicyVersion := state.(st_policyVersion);
  cst_ProjectionCheckpointID := uuid_string state.(st_projectionCheckpointID);
  cst_ProjectionChecksum := state.(st_projectionChecksum); cst_AsOf := formatCapitalTime state.(st_asOf);
  cst_Currency := state.(st_currency); cst_Cash := DecimalString state.(st_cash);
  cst_Equity := DecimalString state.(st_equity); cst_LongExposure := DecimalString state.(st_longExposure);
  cst_ShortExposure := DecimalString state.(st_shortExposure);
  cst_GrossExposure := DecimalString state.(st_grossExposure);
  cst_MaintenanceRequirement := DecimalString state.(st_maintenanceRequirement) |}.

Definition marshal_state (c : canonicalState) : string :=
  json_struct
    [str "schema" c.(cst_Schema); str "account_id" c.(cst_AccountID); str "binding_id" c.(cst_BindingID);
     str "policy_version" c.(cst_PolicyVersion); str "projection_checkpoint_id" c.(cst_ProjectionCheckpointID);
     str "projection_checksum" c.(cst_ProjectionChecksum); str "as_of" c.(cst_AsOf); str "currency" c.(cst_Currency);
     str "cash" c.(cst_Cash); str "equity" c.(cst_Equity); str "long_exposure" c.(cst_LongExposure);
     str "short_exposure" c.(cst_ShortExposure); str "gross_exposure" c.(cst_GrossExposure);
     str "maintenance_requirement" c.(cst_MaintenanceRequirement)].

Definition seal (state : StateFields) : State :=
  let encoded := marshal_state (state_canonical state) in
  let hash := EncodeToString (Sum256 encoded) in
  {| st_fields := state; st_canonicalBytes := encoded; st_hash := hash;
     st_id := DeterministicUUID capitalStateDomain [hash] |}.

Definition State_validate (state : option State) (account : Account) (binding : Binding) (policy : option Policy) :
    outcome unit :=
  match state with
  | None => Err (Errorf "capital state identity is invalid")
  | Some s =>
      reject ((s.(st_id) ==? Nil) || (String.length s.(st_canonicalBytes) =? 0)%nat ||
              negb (String.length s.(st_hash) =? 64)%nat)
        "capital state identity is invalid" ;;
      reject ((s.(st_accountID) !=? account.(acct_ID)) || (s.(st_bindingID) !=? binding.(bind_ID)) ||
              (s.(st_policyVersion) !=? Policy_Version policy) || (s.(st_currency) !=? account.(acct_BaseCurrency)) ||
              (s.(st_projectionCheckpointID) ==? Nil) || negb (String.length s.(st_projectionChecksum) =? 64)%nat ||
              IsZeroTime s.(st_asOf) || negb s.(st_asOf).(location_utc) ||
              negb (TimeEqual s.(st_asOf) (TruncateMicro s.(st_asOf))))
        "capital state context is invalid" ;;
      for_each (fun value => reject (negb (validCapitalAmount value)) "capital state amount exceeds precision")
        [s.(st_cash); s.(st_equity); s.(st_longExposure); s.(st_shortExposure); s.(st_grossExposure);
         s.(st_maintenanceRequirement)] ;;
      reject (IsNegative s.(st_equity) || IsNegative s.(st_longExposure) || IsNegative s.(st_shortExposure) ||
              IsNegative s.(st_grossExposure) || IsNegative s.(st_maintenanceRequirement) ||
              negb (Equal s.(st_grossExposure) (Add s.(st_longExposure) s.(st_shortExposure))))
        "capital state exposure totals are inconsistent" ;;
      let encoded := marshal_state (state_canonical s) in
      let digest := EncodeToString (Sum256 encoded) in
      reject ((encoded !=? s.(st_canonicalBytes)) || (digest !=? s.(st_hash)) ||
              (s.(st_id) !=? DeterministicUUID capitalStateDomain [digest]))
        "capital state canonical evidence does not match fields"
  end.

(** ** Restoring from canonical bytes *)

Definition parse_uuid (msg text : string) : outcome UUID :=
  match uuid_parse text with Some id => Ok id | None => Err (Errorf msg) end.

Definition StateFromCanonical (id : UUID) (digest raw : string) (account : Account) (binding : Binding)
    (policy : option Policy) : outcome State :=
  reject ((id ==? Nil) || negb (String.length digest =? 64)%nat || (String.length raw =? 0)%nat)
    "restore capital state: envelope is invalid" ;;
  match decodeCanonicalState raw with
  | None => Err (Errorf "restore capital state: %w")
  | Some (canonical, rest) =>
      reject (negb (json_eof rest)) "restore capital state: canonical JSON has trailing content" ;;
      accountID ← parse_uuid "restore capital state account: %w" canonical.(cst_AccountID) ;
      bindingID ← parse_uuid "restore capital state binding: %w" canonical.(cst_BindingID) ;
      checkpointID ← parse_uuid "restore capital state checkpoint: %w" canonical.(cst_ProjectionCheckpointID) ;
      asOf ← match parse_micro canonical.(cst_AsOf) with
             | Some t => Ok t
             | None => Err (Errorf "restore capital state as-of: %w")
             end ;
      let amount := canonical_decimal "restore capital state: amount %d is not canonical" in
      cash ← amount canonical.(cst_Cash) ;
      equity ← amount canonical.(cst_Equity) ;
      longExposure ← amount canonical.(cst_LongExposure) ;
      shortExposure ← amount canonical.(cst_ShortExposure) ;
      grossExposure ← amount canonical.(cst_GrossExposure) ;
      maintenanceRequirement ← amount canonical.(cst_MaintenanceRequirement) ;
      let state := {|
        st_accountID := accountID; st_bindingID := bindingID; st_policyVersion := canonical.(cst_PolicyVersion);
        st_projectionCheckpointID := checkpointID; st_projectionChecksum := canonical.(cst_ProjectionChecksum);
        st_asOf := asOf; st_currency := canonical.(cst_Currency); st_cash := cash; st_equity := equity;
        st_longExposure := longExposure; st_shortExposure := shortExposure; st_grossExposure := grossExposure;
        st_maintenanceRequirement := maintenanceRequirement |} in
      reject (canonical.(cst_Schema) !=? capitalStateSchema) "restore capital state: schema is invalid" ;;
      let state := seal state in
      reject ((state.(st_id) !=? id) || (state.(st_hash) !=? digest) || (state.(st_canonicalBytes) !=? raw))
        "restore capital state: identity does not reconstruct" ;;
      wrap "restore capital state: %w" (State_validate (Some state) account binding policy) ;;
      Ok state
  end.

(** ** Deriving from a projection *)

Definition decodeProjectionCapitalPayload (raw : string) : outcome projectionCapitalPayload :=
  match decodeCapitalPayload raw with
  | None => Err (Errorf "decode projection payload: %w")
  | Some (payload, rest) =>
      wrap "decode projection payload: %w" (requireJSONEOF rest) ;;
      Ok payload
  end.

Definition validateCapitalProjectionTotals (totals : ProjectionTotals) : outcome unit :=
  for_each (fun value => reject (negb (validCapitalAmount value)) "projection total exceeds capital precision")
    [totals.(tot_Cash); totals.(tot_NetCapital); totals.(tot_Fees); totals.(tot_Rebates); totals.(tot_RealizedPnL);
     totals.(tot_UnrealizedPnL); totals.(tot_MarketValue); totals.(tot_Equity); totals.(tot_TotalPnL)] ;;
  reject (IsNegative totals.(tot_Equity)) "projection equity cannot be negative for admission".

(** [instrumentByID], filled in the order of the instruments. *)
Fixpoint index_instruments (currency : string) (instruments : list Instrument) (byID : gmap UUID Instrument) :
    outcome (gmap UUID Instrument) :=
  match instruments with
  | [] => Ok byID
  | reference :: rest =>
      wrap "derive capital state instrument %s: %w" (Instrument_Validate reference) ;;
      reject ((reference.(inst_Currency) !=? currency) ||
              ((reference.(inst_AssetClass) !=? AssetClassEquity) && (reference.(inst_AssetClass) !=? AssetClassETF)))
        "derive capital state: instrument %s has unsupported asset class or currency" ;;
      reject (bool_decide (is_Some (byID !! reference.(inst_ID)))) "derive capital state: instrument %s is duplicated" ;;
      index_instruments currency rest (<[reference.(inst_ID) := reference]> byID)
  end.

Record exposure := MkExposure {
  ex_seen : gset UUID;
  ex_long : dec;
  ex_short : dec;
  ex_market : dec;
  ex_open : nat;
}.

Definition no_exposure : exposure := MkExposure ∅ Zero Zero Zero 0.

(** One iteration of the loop over the positions; [encoded] is
    [payload.Positions[index]]. *)
Definition add_position (instruments : gmap UUID Instrument) (position : ProjectionPosition)
    (encoded : option payloadPosition) (acc : exposure) : outcome exposure :=
  reject (position.(pos_InstrumentID) ==? Nil) "derive capital state: projection position %d lacks instrument identity" ;;
  reject (bool_decide (position.(pos_InstrumentID) ∈ acc.(ex_seen)))
    "derive capital state: projection position %s is duplicated" ;;
  let seen := {[ position.(pos_InstrumentID) ]} ∪ acc.(ex_seen) in
  reject (negb (validCapitalAmount position.(pos_Quantity)) || negb (validCapitalAmount position.(pos_MarketValue)) ||
          (position.(pos_Open) !=? negb (IsZero position.(pos_Quantity))))
    "derive capital state: projection position %s is inconsistent" ;;
  match encoded with
  | None => Panic IndexOutOfRange
  | Some p =>
      reject ((p.(ppos_InstrumentID) !=? uuid_string position.(pos_InstrumentID)) ||
              (p.(ppos_Open) !=? position.(pos_Open)) ||
              (p.(ppos_Quantity) !=? DecimalString position.(pos_Quantity)) ||
              (p.(ppos_MarketValue) !=? DecimalString position.(pos_MarketValue)))
        "derive capital state: projection position %s differs from payload" ;;
      let market := Add acc.(ex_market) position.(pos_MarketValue) in
      if negb position.(pos_Open)
      then
        reject (negb (IsZero position.(pos_MarketValue)))
          "derive capital state: closed position %s has market exposure" ;;
        Ok (MkExposure seen acc.(ex_long) acc.(ex_short) market acc.(ex_open))
      else
        reject (bool_decide (instruments !! position.(pos_InstrumentID) = None))
          "derive capital state: open position %s lacks canonical instrument" ;;
        reject ((position.(pos_MarkObservationID) ==? Nil) || (position.(pos_OpenLotCount) =? 0)%nat ||
                (negb (IsZero position.(pos_MarketValue)) &&
                 negb (Sign position.(pos_Quantity) =? Sign position.(pos_MarketValue))%Z))
          "derive capital state: open position %s has inconsistent mark or sign" ;;
        let long := if IsPositive position.(pos_MarketValue)
                    then Add acc.(ex_long) position.(pos_MarketValue) else acc.(ex_long) in
        let short := if IsPositive position.(pos_MarketValue) then acc.(ex_short)
                     else if IsNegative position.(pos_MarketValue)
                     then Add acc.(ex_short) (Abs position.(pos_MarketValue)) else acc.(ex_short) in
        Ok (MkExposure seen long short market (S acc.(ex_open)))
  end.

Fixpoint add_positions (instruments : gmap UUID Instrument) (positions : list ProjectionPosition)
    (encoded : list payloadPosition) (acc : exposure) : outcome exposure :=
  match positions with
  | [] => Ok acc
  | position :: rest =>
      acc' ← add_position instruments position (head encoded) acc ;
      add_positions instruments rest (tail encoded) acc'
  end.

(** The envelope checks before the payload is decoded. *)
Definition check_envelope (account : Account) (projection : PortfolioProjection) : outcome unit :=
  reject ((projection.(proj_CheckpointID) ==? Nil) || (projection.(proj_AccountID) !=? account.(acct_ID)) ||
          (projection.(proj_ProjectionType) !=? PortfolioProjectionType) ||
          (projection.(proj_Version) !=? PortfolioProjectionVersion) || (projection.(proj_FIFO) !=? ProjectionFIFO) ||
          (projection.(proj_BaseCurrency) !=? account.(acct_BaseCurrency)) ||
          IsZeroTime projection.(proj_AsOf) || negb projection.(proj_AsOf).(location_utc) ||
          negb (TimeEqual projection.(proj_AsOf) (TruncateMicro projection.(proj_AsOf))) ||
          (projection.(proj_ThroughTransactionID) ==? Nil) || (projection.(proj_TransactionCount) =? 0)%nat ||
          negb (String.length projection.(proj_InputChecksum) =? 64)%nat ||
          negb (String.length projection.(proj_OutputChecksum) =? 64)%nat ||
          (String.length projection.(proj_PayloadBytes) =? 0)%nat)
    "derive capital state: projection envelope is invalid" ;;
  reject (EncodeToString (Sum256 projection.(proj_PayloadBytes)) !=? projection.(proj_OutputChecksum))
    "derive capital state: projection output checksum does not match payload" ;;
  wrap "derive capital state: %w" (validateCapitalProjectionTotals projection.(proj_Totals)).

Definition check_payload (projection : PortfolioProjection) (payload : projectionCapitalPayload) : outcome unit :=
  let totals := projection.(proj_Totals) in
  reject ((payload.(pcp_CheckpointID) !=? uuid_string projection.(proj_CheckpointID)) ||
          (payload.(pcp_AccountID) !=? uuid_string projection.(proj_AccountID)) ||
          (payload.(pcp_BaseCurrency) !=? projection.(proj_BaseCurrency)) ||
          (payload.(pcp_AsOf) !=? formatCapitalTime projection.(proj_AsOf)) ||
          (payload.(pcp_Totals_Cash) !=? DecimalString totals.(tot_Cash)) ||
          (payload.(pcp_Totals_MarketValue) !=? DecimalString totals.(tot_MarketValue)) ||
          (payload.(pcp_Totals_Equity) !=? DecimalString totals.(tot_Equity)) ||
          negb (length payload.(pcp_Positions) =? length projection.(proj_Positions))%nat)
    "derive capital state: projection payload does not match in-memory envelope".

Definition maintenance_of (profile : Profile) (long short : dec) (scale : Z) : dec :=
  if negb profile.(prof_Unlimited)
  then roundCapitalUp (Add (Mul long profile.(prof_MaintenanceLong)) (Mul short profile.(prof_MaintenanceShort))) scale
  else Zero.

Definition StateFromProjection (account : Account) (binding : Binding) (policy : option Policy)
    (projection : option PortfolioProjection) (instruments : list Instrument) : outcome State :=
  wrap "derive capital state binding: %w" (Binding_Validate binding account policy) ;;
  match projection with
  | None => Err (Errorf "derive capital state: portfolio projection is required")
  | Some projection =>
      check_envelope account projection ;;
      payload ← wrap "derive capital state: %w" (decodeProjectionCapitalPayload projection.(proj_PayloadBytes)) ;
      check_payload projection payload ;;
      byID ← index_instruments account.(acct_BaseCurrency) instruments ∅ ;
      acc ← add_positions byID projection.(proj_Positions) payload.(pcp_Positions) no_exposure ;
      reject (negb (size byID =? acc.(ex_open))%nat)
        "derive capital state: canonical instrument set does not exactly cover open positions" ;;
      reject (negb (Equal acc.(ex_market) projection.(proj_Totals).(tot_MarketValue)) ||
              negb (Equal projection.(proj_Totals).(tot_Equity)
                      (Add projection.(proj_Totals).(tot_Cash) projection.(proj_Totals).(tot_MarketValue))))
        "derive capital state: projection accounting totals are inconsistent" ;;
      let '(profile, ok) := Policy_Profile policy binding.(bind_Profile) in
      reject (negb ok) "derive capital state: binding profile is not in policy" ;;
      let state := seal {|
        st_accountID := account.(acct_ID); st_bindingID := binding.(bind_ID); st_policyVersion := Policy_Version policy;
        st_projectionCheckpointID := projection.(proj_CheckpointID);
        st_projectionChecksum := projection.(proj_OutputChecksum); st_asOf := projection.(proj_AsOf);
        st_currency := projection.(proj_BaseCurrency); st_cash := projection.(proj_Totals).(tot_Cash);
        st_equity := projection.(proj_Totals).(tot_Equity); st_longExposure := acc.(ex_long);
        st_shortExposure := acc.(ex_short); st_grossExposure := Add acc.(ex_long) acc.(ex_short);
        st_maintenanceRequirement := maintenance_of profile acc.(ex_long) acc.(ex_short) (Policy_Scale policy) |} in
      wrap "derive capital state: %w" (State_validate (Some state) account binding policy) ;;
      Ok state
  end.

(** ** Accessors, on a possibly nil state *)

Definition State_ID (state : option State) : UUID := match state with None => Nil | Some s => s.(st_id) end.
Definition State_ProjectionCheckpointID (state : option State) : UUID :=
  match state with None => Nil | Some s => s.(st_projectionCheckpointID) end.
Definition State_Cash (state : option State) : dec := match state with None => Zero | Some s => s.(st_cash) end.
Definition State_Equity (state : option State) : dec := match state with None => Zero | Some s => s.(st_equity) end.
Definition State_LongExposure (state : option State) : dec :=
  match state with None => Zero | Some s => s.(st_longExposure) end.
Definition State_ShortExposure (state : option State) : dec :=
  match state with None => Zero | Some s => s.(st_shortExposure) end.
Definition State_GrossExposure (state : option State) : dec :=
  match state with None => Zero | Some s => s.(st_grossExposure) end.
Definition State_MaintenanceRequirement (state : option State) : dec :=
  match state with None => Zero | Some s => s.(st_maintenanceRequirement) end.
Definition State_CanonicalBytes (state : option State) : string :=
  match state with None => "" | Some s => s.(st_canonicalBytes) end.
Definition State_Hash (state : option State) : string := match state with None => "" | Some s => s.(st_hash) end.

End state.
