(* ===== verification/CapitalAssessment.v ===== *)
(** * Pre-route capital assessment (internal/capital/assessment.go)

    Admission of one proposed notional against a sealed capital state: margin
    requirements, buying power and the decision with its reason. *)

From S2P Require Import Prelude GoStd GoText Externals EconomicId Account Instrument ProjectionPayload.
From S2P Require Import CapitalPolicy CapitalState.

Local Open Scope go_scope.

Definition assessmentSchema : string := "capital-assessment-v1".
Definition assessmentDomain : string := "capital-assessment".

Inductive ExposureDirection :=
  | ExposureIncreaseLong
  | ExposureIncreaseShort
  | ExposureReduceLong
  | ExposureReduceShort
  | ExposureOther (text : string).

Inductive Decision :=
  | DecisionAdmitted
  | DecisionRejected
  | DecisionOther (text : string).

Inductive ReasonCode :=
  | ReasonAdmitted
  | ReasonStressUnbounded
  | ReasonShortNotSupported
  | ReasonMaintenanceBreach
  | ReasonInsufficientSettledCash
  | ReasonReserveBreach
  | ReasonInsufficientBuyingPower
  | ReasonGrossExposureBreach
  | ReasonOther (text : string).

#[global] Instance ExposureDirection_eq_dec : EqDecision ExposureDirection.
Proof. solve_decision. Defined.
#[global] Instance Decision_eq_dec : EqDecision Decision.
Proof. solve_decision. Defined.
#[global] Instance ReasonCode_eq_dec : EqDecision ReasonCode.
Proof. solve_decision. Defined.

Definition ExposureDirection_string (d : ExposureDirection) : string :=
  match d with
  | ExposureIncreaseLong => "increase_long"
  | ExposureIncreaseShort => "increase_short"
  | ExposureReduceLong => "reduce_long"
  | ExposureReduceShort => "reduce_short"
  | ExposureOther t => t
  end.

Definition Decision_string (d : Decision) : string :=
  match d with DecisionAdmitted => "admitted" | DecisionRejected => "rejected" | DecisionOther t => t end.

Definition ReasonCode_string (r : ReasonCode) : string :=
  match r with
  | ReasonAdmitted => "admitted"
  | ReasonStressUnbounded => "stress_unbounded"
  | ReasonShortNotSupported => "short_not_supported"
  | ReasonMaintenanceBreach => "maintenance_breach"
  | ReasonInsufficientSettledCash => "insufficient_settled_cash"
  | ReasonReserveBreach => "reserve_breach"
  | ReasonInsufficientBuyingPower => "insufficient_buying_power"
  | ReasonGrossExposureBreach => "gross_exposure_breach"
  | ReasonOther t => t
  end.

Definition ExposureDirection_IsValid (d : ExposureDirection) : bool :=
  match d with ExposureOther _ => false | _ => true end.
Definition Decision_IsValid (d : Decision) : bool := (d ==? DecisionAdmitted) || (d ==? DecisionRejected).
Definition ReasonCode_IsValid (r : ReasonCode) : bool := match r with ReasonOther _ => false | _ => true end.
Definition isExposureReduction (d : ExposureDirection) : bool :=
  (d ==? ExposureReduceLong) || (d ==? ExposureReduceShort).

Section assessment.
Context {E : Externals}.

Record AssessmentInput := MkAssessmentInput {
  ain_Account : Account;
  ain_Binding : Binding;
  ain_Policy : option Policy;
  ain_State : option State;
  ain_Instrument : Instrument;
  ain_Currency : string;
  ain_ScenarioID : string;
  ain_Direction : ExposureDirection;
  ain_ProposedNotional : dec;
}.

(** The fields [Assess] computes, and what sealing adds to them. *)
Record AssessmentFields := MkAssessmentFields {
  as_StateID : UUID;
  as_AccountID : UUID;
  as_BindingID : UUID;
  as_PolicyVersion : string;
  as_InstrumentID : UUID;
  as_ScenarioID : string;
  as_Direction : ExposureDirection;
  as_Currency : string;
  as_ProposedNotional : dec;
  as_CurrentInitialRequirement : dec;
  as_RequestedInitialMargin : dec;
  as_InitialMarginHeadroom : dec;
  as_GrossHeadroom : dec;
  as_AvailableBuyingPower : dec;
  as_PostGrossExposure : dec;
  as_PostMaintenanceRequirement : dec;
  as_Decision : Decision;
  as_Reason : ReasonCode;
  as_Unbounded : bool;
  as_Environment : AccountEnvironment;
  as_EvidenceClass : string;
  as_StorageNamespace : string;
}.

Record Assessment := MkAssessment {
  as_fields :> AssessmentFields;
  as_ID : UUID;
  as_canonicalBytes : string;
  as_hash : string;
}.

(** ** Exposure after the proposal *)

Definition postDirectionalExposure (state : State) (direction : ExposureDirection) (notional : dec) : dec * dec :=
  let long := state.(st_longExposure) in
  let short := state.(st_shortExposure) in
  match direction with
  | ExposureIncreaseLong => (Add long notional, short)
  | ExposureIncreaseShort => (long, Add short notional)
  | ExposureReduceLong => (Sub long notional, short)
  | ExposureReduceShort => (long, Sub short notional)
  | ExposureOther _ => (long, short)
  end.

Definition postGrossExposure (state : State) (direction : ExposureDirection) (notional : dec) : dec :=
  let '(long, short) := postDirectionalExposure state direction notional in Add long short.

Definition nonnegative (value : dec) : dec := if IsNegative value then Zero else value.

(** ** Canonical bytes *)

(** [json.Marshal(assessment.canonical())] *)
Definition assessment_canonical (a : AssessmentFields) : string :=
  json_struct
    [str "schema" assessmentSchema; str "state_id" (uuid_string a.(as_StateID));
     str "account_id" (uuid_string a.(as_AccountID)); str "binding_id" (uuid_string a.(as_BindingID));
     str "policy_version" a.(as_PolicyVersion); str "instrument_id" (uuid_string a.(as_InstrumentID));
     str "scenario_id" a.(as_ScenarioID); str "direction" (ExposureDirection_string a.(as_Direction));
     str "currency" a.(as_Currency); str "proposed_notional" (DecimalString a.(as_ProposedNotional));
     str "current_initial_requirement" (DecimalString a.(as_CurrentInitialRequirement));
     str "requested_initial_margin" (DecimalString a.(as_RequestedInitialMargin));
     str "initial_margin_headroom" (DecimalString a.(as_InitialMarginHeadroom));
     str "gross_headroom" (DecimalString a.(as_GrossHeadroom));
     str "available_buying_power" (DecimalString a.(as_AvailableBuyingPower));
     str "post_gross_exposure" (DecimalString a.(as_PostGrossExposure));
     str "post_maintenance_requirement" (DecimalString a.(as_PostMaintenanceRequirement));
     str "decision" (Decision_string a.(as_Decision)); str "reason" (ReasonCode_string a.(as_Reason));
     ("unbounded", json_bool a.(as_Unbounded)); str "environment" (AccountEnvironment_string a.(as_Environment));
     str "evidence_class" a.(as_EvidenceClass); str "storage_namespace" a.(as_StorageNamespace)].

(** ** Validation *)

Definition Assessment_Validate (assessment : option Assessment) (account : Account) (binding : Binding)
    (policy : option Policy) (state : option State) : outcome unit :=
  match assessment with
  | None => Err (Errorf "capital assessment identity is invalid")
  | Some a =>
      reject (is_nil policy || is_nil state || (a.(as_ID) ==? Nil) || negb (String.length a.(as_hash) =? 64)%nat)
        "capital assessment identity is invalid" ;;
      Binding_Validate binding account policy ;;
      State_validate state account binding policy ;;
      reject ((a.(as_StateID) !=? State_ID state) || (a.(as_AccountID) !=? account.(acct_ID)) ||
              (a.(as_BindingID) !=? binding.(bind_ID)) || (a.(as_PolicyVersion) !=? Policy_Version policy) ||
              (a.(as_Environment) !=? account.(acct_Environment)) ||
              (a.(as_EvidenceClass) !=? account.(acct_EvidenceClass)) ||
              (a.(as_StorageNamespace) !=? account.(acct_StorageNamespace)) || (a.(as_InstrumentID) ==? Nil) ||
              (a.(as_ScenarioID) ==? "") || negb (ExposureDirection_IsValid a.(as_Direction)) ||
              (a.(as_Currency) !=? account.(acct_BaseCurrency)) || negb (IsPositive a.(as_ProposedNotional)))
        "capital assessment context is invalid" ;;
      for_each (fun value =>
          reject (negb (validCapitalAmount value) || IsNegative value) "capital assessment amount is invalid")
        [a.(as_ProposedNotional); a.(as_CurrentInitialRequirement); a.(as_RequestedInitialMargin);
         a.(as_InitialMarginHeadroom); a.(as_GrossHeadroom); a.(as_AvailableBuyingPower);
         a.(as_PostGrossExposure); a.(as_PostMaintenanceRequirement)] ;;
      reject (negb (Decision_IsValid a.(as_Decision)) || negb (ReasonCode_IsValid a.(as_Reason)) ||
              (a.(as_Unbounded) !=? (a.(as_Reason) ==? ReasonStressUnbounded)) ||
              ((a.(as_Decision) ==? DecisionAdmitted) !=?
               ((a.(as_Reason) ==? ReasonAdmitted) || (a.(as_Reason) ==? ReasonStressUnbounded))))
        "capital assessment decision or reason is inconsistent" ;;
      let encoded := assessment_canonical a in
      let digest := EncodeToString (Sum256 encoded) in
      reject ((encoded !=? a.(as_canonicalBytes)) || (digest !=? a.(as_hash)) ||
              (a.(as_ID) !=? DeterministicUUID assessmentDomain [digest]))
        "capital assessment canonical evidence does not match fields"
  end.

Definition sealAssessment (a : AssessmentFields) (input : AssessmentInput) : outcome Assessment :=
  let encoded := assessment_canonical a in
  let hash := EncodeToString (Sum256 encoded) in
  let assessment := {| as_fields := a; as_canonicalBytes := encoded; as_hash := hash;
                       as_ID := DeterministicUUID assessmentDomain [hash] |} in
  wrap "seal capital assessment: %w"
    (Assessment_Validate (Some assessment) input.(ain_Account) input.(ain_Binding) input.(ain_Policy) input.(ain_State)) ;;
  Ok assessment.

(** A reduction cannot exceed the exposure it reduces. *)
Definition check_reduction (input : AssessmentInput) (state : State) : outcome unit :=
  reject ((input.(ain_Direction) ==? ExposureReduceLong) &&
          GreaterThan input.(ain_ProposedNotional) state.(st_longExposure))
    "long reduction exceeds current long exposure" ;;
  reject ((input.(ain_Direction) ==? ExposureReduceShort) &&
          GreaterThan input.(ain_ProposedNotional) state.(st_shortExposure))
    "short reduction exceeds current short exposure".

Definition validateAssessmentInput (input : AssessmentInput) : outcome unit :=
  reject (is_nil input.(ain_Policy) || is_nil input.(ain_State)) "policy and builder-produced state are required" ;;
  Binding_Validate input.(ain_Binding) input.(ain_Account) input.(ain_Policy) ;;
  State_validate input.(ain_State) input.(ain_Account) input.(ain_Binding) input.(ain_Policy) ;;
  wrap "proposed instrument: %w" (Instrument_Validate input.(ain_Instrument)) ;;
  reject ((input.(ain_Instrument).(inst_AssetClass) !=? AssetClassEquity) &&
          (input.(ain_Instrument).(inst_AssetClass) !=? AssetClassETF) &&
          (input.(ain_Instrument).(inst_AssetClass) !=? AssetClassOption))
    "proposed instrument asset class %q is unsupported" ;;
  reject ((input.(ain_Currency) !=? "USD") || (input.(ain_Currency) !=? input.(ain_Account).(acct_BaseCurrency)) ||
          (input.(ain_Instrument).(inst_Currency) !=? input.(ain_Currency)))
    "assessment currency context does not match" ;;
  reject ((input.(ain_ScenarioID) ==? "") || (input.(ain_ScenarioID) !=? TrimSpace input.(ain_ScenarioID)) ||
          (256 <? String.length input.(ain_ScenarioID))%nat)
    "canonical scenario ID is required" ;;
  reject (negb (ExposureDirection_IsValid input.(ain_Direction)) || negb (IsPositive input.(ain_ProposedNotional)) ||
          negb (validCapitalAmount input.(ain_ProposedNotional)))
    "direction and positive exact proposed notional are required" ;;
  state ← deref input.(ain_State) ;
  check_reduction input state.

(** ** Assess *)

(** The amounts an assessment carries; a field that was not assigned is
    [decimal.Decimal{}]. *)
Record amounts := MkAmounts {
  am_CurrentInitialRequirement : dec;
  am_RequestedInitialMargin : dec;
  am_InitialMarginHeadroom : dec;
  am_GrossHeadroom : dec;
  am_AvailableBuyingPower : dec;
  am_PostGrossExposure : dec;
  am_PostMaintenanceRequirement : dec;
}.

Definition assessment_of (input : AssessmentInput) (m : amounts) (decision : Decision) (reason : ReasonCode)
    (unbounded : bool) : AssessmentFields := {|
  as_StateID := State_ID input.(ain_State); as_AccountID := input.(ain_Account).(acct_ID);
  as_BindingID := input.(ain_Binding).(bind_ID); as_PolicyVersion := Policy_Version input.(ain_Policy);
  as_InstrumentID := input.(ain_Instrument).(inst_ID); as_ScenarioID := input.(ain_ScenarioID);
  as_Direction := input.(ain_Direction); as_Currency := input.(ain_Currency);
  as_ProposedNotional := input.(ain_ProposedNotional);
  as_CurrentInitialRequirement := m.(am_CurrentInitialRequirement);
  as_RequestedInitialMargin := m.(am_RequestedInitialMargin);
  as_InitialMarginHeadroom := m.(am_InitialMarginHeadroom); as_GrossHeadroom := m.(am_GrossHeadroom);
  as_AvailableBuyingPower := m.(am_AvailableBuyingPower); as_PostGrossExposure := m.(am_PostGrossExposure);
  as_PostMaintenanceRequirement := m.(am_PostMaintenanceRequirement);
  as_Decision := decision; as_Reason := reason; as_Unbounded := unbounded;
  as_Environment := input.(ain_Account).(acct_Environment);
  as_EvidenceClass := input.(ain_Account).(acct_EvidenceClass);
  as_StorageNamespace := input.(ain_Account).(acct_StorageNamespace) |}.

(** The initial margin ratio of the direction; [None] when the profile does not
    allow the short. *)
Definition initial_ratio (profile : Profile) (direction : ExposureDirection) : option dec :=
  match direction with
  | ExposureIncreaseLong => Some profile.(prof_InitialLong)
  | ExposureIncreaseShort => if negb profile.(prof_AllowShort) then None else Some profile.(prof_InitialShort)
  | _ => Some Zero
  end.

Definition current_requirement (profile : Profile) (state : State) (scale : Z) : dec :=
  roundCapitalUp
    (Add (Mul state.(st_longExposure) profile.(prof_InitialLong)) (Mul state.(st_shortExposure) profile.(prof_InitialShort)))
    scale.

Definition gross_headroom (profile : Profile) (state : State) : dec :=
  nonnegative (Sub (Mul state.(st_equity) profile.(prof_MaximumGross)) state.(st_grossExposure)).

(** The amounts of a bounded assessment whose direction is supported. *)
Definition bounded_amounts (profile : Profile) (state : State) (scale : Z) (direction : ExposureDirection)
    (notional ratio : dec) : outcome amounts :=
  let current := current_requirement profile state scale in
  let headroom := nonnegative (Sub state.(st_equity) current) in
  let gross := gross_headroom profile state in
  available ←
    (if IsPositive ratio
     then capacity ← checked_Div headroom ratio ; Ok (Min gross (RoundFloor capacity scale))
     else Ok gross) ;
  let '(postLong, postShort) := postDirectionalExposure state direction notional in
  Ok {| am_CurrentInitialRequirement := current;
        am_RequestedInitialMargin := roundCapitalUp (Mul notional ratio) scale;
        am_InitialMarginHeadroom := headroom; am_GrossHeadroom := gross; am_AvailableBuyingPower := available;
        am_PostGrossExposure := postGrossExposure state direction notional;
        am_PostMaintenanceRequirement :=
          roundCapitalUp (Add (Mul postLong profile.(prof_MaintenanceLong)) (Mul postShort profile.(prof_MaintenanceShort)))
            scale |}.

(** The decision chain for a bounded assessment. *)
Definition decide_bounded (input : AssessmentInput) (profile : Profile) (state : State) (m : amounts) :
    Decision * ReasonCode :=
  let cashBuy := (input.(ain_Binding).(bind_Profile) ==? MarginProfileCash) &&
                 (input.(ain_Direction) ==? ExposureIncreaseLong) in
  let reserve := Mul input.(ain_Binding).(bind_Tier) profile.(prof_CashReserve) in
  if isExposureReduction input.(ain_Direction) then (DecisionAdmitted, ReasonAdmitted)
  else if GreaterThan state.(st_maintenanceRequirement) state.(st_equity) then (DecisionRejected, ReasonMaintenanceBreach)
  else if cashBuy && GreaterThan input.(ain_ProposedNotional) state.(st_cash)
       then (DecisionRejected, ReasonInsufficientSettledCash)
  else if cashBuy && LessThan (Sub state.(st_cash) input.(ain_ProposedNotional)) reserve
       then (DecisionRejected, ReasonReserveBreach)
  else if GreaterThan m.(am_RequestedInitialMargin) m.(am_InitialMarginHeadroom)
       then (DecisionRejected, ReasonInsufficientBuyingPower)
  else if GreaterThan input.(ain_ProposedNotional) m.(am_GrossHeadroom) then (DecisionRejected, ReasonGrossExposureBreach)
  else if GreaterThan m.(am_PostMaintenanceRequirement) state.(st_equity) then (DecisionRejected, ReasonMaintenanceBreach)
  else (DecisionAdmitted, ReasonAdmitted).

(** [Assess] after the validation of its input. *)
Definition assess_state (input : AssessmentInput) (profile : Profile) (scale : Z) (state : State) : outcome Assessment :=
  if profile.(prof_Unlimited)
  then
    let m := MkAmounts ZeroValue ZeroValue ZeroValue ZeroValue ZeroValue
               (postGrossExposure state input.(ain_Direction) input.(ain_ProposedNotional)) ZeroValue in
    sealAssessment (assessment_of input m DecisionAdmitted ReasonStressUnbounded true) input
  else
    match initial_ratio profile input.(ain_Direction) with
    | None =>
        let current := current_requirement profile state scale in
        let m := MkAmounts current ZeroValue (nonnegative (Sub state.(st_equity) current))
                   (gross_headroom profile state) ZeroValue ZeroValue ZeroValue in
        sealAssessment (assessment_of input m DecisionRejected ReasonShortNotSupported false) input
    | Some ratio =>
        m ← bounded_amounts profile state scale input.(ain_Direction) input.(ain_ProposedNotional) ratio ;
        let '(decision, reason) := decide_bounded input profile state m in
        sealAssessment (assessment_of input m decision reason false) input
    end.

Definition Assess (input : AssessmentInput) : outcome Assessment :=
  wrap "assess capital: %w" (validateAssessmentInput input) ;;
  let '(profile, _) := Policy_Profile input.(ain_Policy) input.(ain_Binding).(bind_Profile) in
  state ← deref input.(ain_State) ;
  assess_state input profile (Policy_Scale input.(ain_Policy)) state.

(** ** Accessors, on a possibly nil assessment *)

Definition Assessment_PromotionEligible (assessment : option Assessment) : bool :=
  match assessment with
  | None => false
  | Some a =>
      negb a.(as_Unbounded) && (a.(as_Environment) ==? AccountEnvironmentPaperScored) &&
      (a.(as_EvidenceClass) ==? PaperEvidenceClassPromotion)
  end.
Definition Assessment_CanonicalBytes (assessment : option Assessment) : string :=
  match assessment with None => "" | Some a => a.(as_canonicalBytes) end.
Definition Assessment_Hash (assessment : option Assessment) : string :=
  match assessment with None => "" | Some a => a.(as_hash) end.

End assessment.
