(* ===== verification/CapitalMatrix.v ===== *)
(** * The capital replay matrix (internal/capital/matrix.go)

    One scenario assessed at every reviewed capital tier under a scored margin
    profile, and once more under the isolated stress profile. *)

From S2P Require Import Prelude GoStd GoText Externals EconomicId Account Instrument Projection ProjectionPayload.
From S2P Require Import CapitalPolicy CapitalState CapitalAssessment.

Local Open Scope go_scope.

Definition matrixSchema : string := "capital-replay-matrix-v1".
Definition matrixScoredSchema : string := "capital-replay-matrix-scored-v1".
Definition matrixAccountDomain : string := "capital-matrix-account".

(** [hex.DecodeString] succeeds on an even number of hexadecimal digits. *)
Definition isLowerHex (value : string) : bool := hex_decodes value.

Section matrix.
Context {E : Externals}.
Context (decodeCapitalPayload : string -> option (projectionCapitalPayload * string)).

Record MatrixSpec := MkMatrixSpec {
  spec_ScenarioID : string;
  spec_MarketInputDigest : string;
  spec_SimulationPolicyVersion : string;
  spec_Seed : Z;
  spec_AsOf : Time;
}.

Record ScenarioContext := MkScenarioContext {
  ctx_Spec : MatrixSpec;
  ctx_Account : Account;
  ctx_Binding : Binding;
  ctx_Policy : option Policy;
  ctx_Tier : dec;
  ctx_Ordinal : nat;
  ctx_IsStress : bool;
}.

Record Scenario := MkScenario {
  scen_Projection : option PortfolioProjection;
  scen_Instruments : list Instrument;
  scen_ProposedInstrument : Instrument;
  scen_Direction : ExposureDirection;
  scen_ProposedNotional : dec;
  scen_MarketInputDigest : string;
  scen_SimulationPolicyVersion : string;
  scen_Seed : Z;
}.

(** The caller's callback. *)
Definition ScenarioFactory : Type := ScenarioContext -> outcome Scenario.

Record MatrixOutcome := MkMatrixOutcome {
  mo_Ordinal : nat;
  mo_Tier : dec;
  mo_Profile : MarginProfile;
  mo_Environment : AccountEnvironment;
  mo_Account : Account;
  mo_Binding : Binding;
  mo_State : State;
  mo_Assessment : Assessment;
}.

Record MatrixResult := MkMatrixResult {
  mr_Spec : MatrixSpec;
  mr_PolicyVersion : string;
  mr_ScoredProfile : MarginProfile;
  mr_Outcomes : list MatrixOutcome;
  mr_canonicalBytes : string;
  mr_hash : string;
  mr_scoredHash : string;
}.

Definition validateMatrixSpec (spec : MatrixSpec) : outcome unit :=
  reject ((spec.(spec_ScenarioID) ==? "") || (spec.(spec_ScenarioID) !=? TrimSpace spec.(spec_ScenarioID)) ||
          (256 <? String.length spec.(spec_ScenarioID))%nat)
    "canonical scenario ID is required" ;;
  reject (negb (String.length spec.(spec_MarketInputDigest) =? 64)%nat ||
          (ToLower spec.(spec_MarketInputDigest) !=? spec.(spec_MarketInputDigest)) ||
          negb (isLowerHex spec.(spec_MarketInputDigest)))
    "market input digest must be lowercase SHA-256" ;;
  reject ((spec.(spec_SimulationPolicyVersion) ==? "") ||
          (spec.(spec_SimulationPolicyVersion) !=? TrimSpace spec.(spec_SimulationPolicyVersion)) ||
          (256 <? String.length spec.(spec_SimulationPolicyVersion))%nat)
    "simulation policy version is required" ;;
  reject (spec.(spec_Seed) <? 0)%Z "matrix seed cannot be negative" ;;
  reject (IsZeroTime spec.(spec_AsOf) || negb spec.(spec_AsOf).(location_utc) ||
          negb (TimeEqual spec.(spec_AsOf) (TruncateMicro spec.(spec_AsOf))))
    "matrix as-of must use UTC microsecond precision".

(** [fresh] is the identifier [uuid.New()] returns inside [domain.NewAccount]
    and [now] what [time.Now()] returns. *)
Definition matrixAccount (fresh : UUID) (now : Time) (spec : MatrixSpec) (policy : option Policy) (tier : dec)
    (profile : MarginProfile) (environment : AccountEnvironment) (multiplier : dec) : outcome Account :=
  let namespaceDigest :=
    Sum256 (Join [spec.(spec_ScenarioID); Policy_Version policy; MarginProfile_string profile; DecimalString tier;
                  AccountEnvironment_string environment] (String (byte_of 0) EmptyString)) in
  let namespaceSuffix := String.substring 0 24 (EncodeToString namespaceDigest) in
  account ← NewAccount fresh now {|
    acctin_Name := ("capital matrix " +:+ DecimalString tier +:+ " " +:+ MarginProfile_string profile)%string;
    acctin_Environment := environment; acctin_Venue := "internal"; acctin_ExternalAccountID := "";
    acctin_BaseCurrency := Policy_Currency policy;
    acctin_StorageNamespace :=
      (AccountEnvironment_string environment +:+ "/capital-matrix/" +:+ namespaceSuffix)%string;
    acctin_StartingCapital := tier; acctin_BuyingPowerMultiplier := multiplier; acctin_MarginProfile := profile;
    acctin_CreatedBy := "capital-matrix-v1";
    acctin_CreationMetadata :=
      ("{" +:+ dquote +:+ "source" +:+ dquote +:+ ":" +:+ dquote +:+ "capital-matrix-v1" +:+ dquote +:+ "}")%string;
    acctin_CreatedAt := spec.(spec_AsOf) |} ;
  let account := {|
    acct_ID := DeterministicUUID matrixAccountDomain
      [spec.(spec_ScenarioID); Policy_Version policy; AccountEnvironment_string environment;
       MarginProfile_string profile; DecimalString tier];
    acct_Name := account.(acct_Name); acct_Environment := account.(acct_Environment); acct_Venue := account.(acct_Venue);
    acct_ExternalAccountID := account.(acct_ExternalAccountID); acct_BaseCurrency := account.(acct_BaseCurrency);
    acct_StorageNamespace := account.(acct_StorageNamespace); acct_EvidenceClass := account.(acct_EvidenceClass);
    acct_StartingCapital := account.(acct_StartingCapital);
    acct_BuyingPowerMultiplier := account.(acct_BuyingPowerMultiplier);
    acct_MarginProfile := account.(acct_MarginProfile); acct_Status := account.(acct_Status);
    acct_CreatedBy := account.(acct_CreatedBy); acct_CreationMetadata := account.(acct_CreationMetadata);
    acct_CreatedAt := account.(acct_CreatedAt) |} in
  Account_Validate account ;;
  Ok account.

(** ** Canonical bytes *)

Definition canonical_outcome (outcome : MatrixOutcome) : string :=
  json_struct
    [("ordinal", json_nat outcome.(mo_Ordinal)); str "tier" (DecimalString outcome.(mo_Tier));
     str "profile" (MarginProfile_string outcome.(mo_Profile));
     str "environment" (AccountEnvironment_string outcome.(mo_Environment));
     str "evidence_class" outcome.(mo_Account).(acct_EvidenceClass);
     str "storage_namespace" outcome.(mo_Account).(acct_StorageNamespace);
     str "account_id" (uuid_string outcome.(mo_Account).(acct_ID));
     str "binding_id" (uuid_string outcome.(mo_Binding).(bind_ID)); str "state_hash" outcome.(mo_State).(st_hash);
     str "assessment_hash" outcome.(mo_Assessment).(as_hash);
     str "decision" (Decision_string outcome.(mo_Assessment).(as_Decision));
     str "reason" (ReasonCode_string outcome.(mo_Assessment).(as_Reason))].

(** [json.Marshal(result.canonical(schema, outcomes))] *)
Definition canonical_matrix (schema : string) (spec : MatrixSpec) (policyVersion : string) (scored : MarginProfile)
    (outcomes : list MatrixOutcome) : string :=
  json_struct
    [str "schema" schema; str "scenario_id" spec.(spec_ScenarioID);
     str "market_input_digest" spec.(spec_MarketInputDigest);
     str "simulation_policy_version" spec.(spec_SimulationPolicyVersion);
     str "capital_policy_version" policyVersion; str "scored_profile" (MarginProfile_string scored);
     ("seed", json_int spec.(spec_Seed)); str "as_of" (formatCapitalTime spec.(spec_AsOf));
     ("outcomes", json_slice (canonical_outcome <$> outcomes))].

Definition seal_matrix (spec : MatrixSpec) (policyVersion : string) (scored : MarginProfile)
    (outcomes : list MatrixOutcome) : outcome MatrixResult :=
  reject (negb (length outcomes =? 7)%nat) "capital matrix requires seven outcomes" ;;
  let encoded := canonical_matrix matrixSchema spec policyVersion scored outcomes in
  let scoredEncoded := canonical_matrix matrixScoredSchema spec policyVersion scored (take 6 outcomes) in
  Ok {| mr_Spec := spec; mr_PolicyVersion := policyVersion; mr_ScoredProfile := scored; mr_Outcomes := outcomes;
        mr_canonicalBytes := encoded; mr_hash := EncodeToString (Sum256 encoded);
        mr_scoredHash := EncodeToString (Sum256 scoredEncoded) |}.

(** ** RunMatrix *)

(** One iteration of the loop. [proposed] is the instrument of the earlier
    ordinals; the result carries the instrument of this one. *)
Definition run_ordinal (fresh : nat -> UUID) (now : Time) (spec : MatrixSpec) (policy : option Policy)
    (scoredProfile : MarginProfile) (profile : Profile) (factory : ScenarioFactory) (proposed : UUID) (ordinal : nat) :
    outcome (UUID * MatrixOutcome) :=
  let tiers := Policy_Tiers policy in
  let isStress := (ordinal =? length tiers)%nat in
  let index := if isStress then (length tiers - 1)%nat else ordinal in
  tier ← match tiers !! index with Some t => Ok t | None => Panic IndexOutOfRange end ;
  let selectedProfile := if isStress then MarginProfileStressUnlimited else scoredProfile in
  let environment := if isStress then AccountEnvironmentPaperStress else AccountEnvironmentPaperScored in
  let multiplier := if isStress then Zero else profile.(prof_MaximumGross) in
  account ← wrap "run capital matrix ordinal %d account: %w"
    (matrixAccount (fresh ordinal) now spec policy tier selectedProfile environment multiplier) ;
  binding ← wrap "run capital matrix ordinal %d binding: %w"
    (NewBinding now account policy tier selectedProfile spec.(spec_AsOf)) ;
  scenario ← wrap "run capital matrix ordinal %d scenario: %w"
    (factory {| ctx_Spec := spec; ctx_Account := account; ctx_Binding := binding; ctx_Policy := policy;
                ctx_Tier := tier; ctx_Ordinal := ordinal; ctx_IsStress := isStress |}) ;
  reject (negb (some_and (fun p => TimeEqual p.(proj_AsOf) spec.(spec_AsOf)) scenario.(scen_Projection)) ||
          (scenario.(scen_MarketInputDigest) !=? spec.(spec_MarketInputDigest)) ||
          (scenario.(scen_SimulationPolicyVersion) !=? spec.(spec_SimulationPolicyVersion)) ||
          (scenario.(scen_Seed) !=? spec.(spec_Seed)))
    "run capital matrix ordinal %d changed shared replay facts" ;;
  let instrumentID := scenario.(scen_ProposedInstrument).(inst_ID) in
  reject (negb (ordinal =? 0)%nat && ((proposed ==? Nil) || (instrumentID !=? proposed)))
    "run capital matrix ordinal %d changed proposed instrument identity" ;;
  state ← wrap "run capital matrix ordinal %d state: %w"
    (StateFromProjection decodeCapitalPayload account binding policy scenario.(scen_Projection) scenario.(scen_Instruments)) ;
  assessment ← wrap "run capital matrix ordinal %d assessment: %w"
    (Assess {| ain_Account := account; ain_Binding := binding; ain_Policy := policy; ain_State := Some state;
               ain_Instrument := scenario.(scen_ProposedInstrument); ain_Currency := account.(acct_BaseCurrency);
               ain_ScenarioID := spec.(spec_ScenarioID); ain_Direction := scenario.(scen_Direction);
               ain_ProposedNotional := scenario.(scen_ProposedNotional) |}) ;
  Ok (if (ordinal =? 0)%nat then instrumentID else proposed,
      {| mo_Ordinal := ordinal; mo_Tier := tier; mo_Profile := selectedProfile; mo_Environment := environment;
         mo_Account := account; mo_Binding := binding; mo_State := state; mo_Assessment := assessment |}).

Fixpoint run_ordinals (fresh : nat -> UUID) (now : Time) (spec : MatrixSpec) (policy : option Policy)
    (scoredProfile : MarginProfile) (profile : Profile) (factory : ScenarioFactory) (proposed : UUID)
    (ordinals : list nat) : outcome (list MatrixOutcome) :=
  match ordinals with
  | [] => Ok []
  | ordinal :: rest =>
      '(proposed', o) ← run_ordinal fresh now spec policy scoredProfile profile factory proposed ordinal ;
      os ← run_ordinals fresh now spec policy scoredProfile profile factory proposed' rest ;
      Ok (o :: os)
  end.

Definition RunMatrix (fresh : nat -> UUID) (now : Time) (spec : MatrixSpec) (policy : option Policy)
    (scoredProfile : MarginProfile) (factory : option ScenarioFactory) : outcome MatrixResult :=
  wrap "run capital matrix: %w" (validateMatrixSpec spec) ;;
  reject (is_nil policy || is_nil factory) "run capital matrix: policy and scenario factory are required" ;;
  factory ← deref factory ;
  let '(profile, ok) := Policy_Profile policy scoredProfile in
  reject (negb ok || profile.(prof_Unlimited) || (scoredProfile ==? MarginProfileStressUnlimited))
    "run capital matrix: scored profile must be finite and reviewed" ;;
  outcomes ← run_ordinals fresh now spec policy scoredProfile profile factory Nil
               (seq 0 (S (length (Policy_Tiers policy)))) ;
  wrap "run capital matrix: %w" (seal_matrix spec (Policy_Version policy) scoredProfile outcomes).

(** ** Accessors, on a possibly nil result *)

Definition ScoredOutcomes (result : option MatrixResult) : list MatrixOutcome :=
  match result with
  | None => []
  | Some r => if (length r.(mr_Outcomes) <? 6)%nat then [] else take 6 r.(mr_Outcomes)
  end.
Definition StressOutcome (result : option MatrixResult) : option MatrixOutcome :=
  match result with
  | None => None
  | Some r => if negb (length r.(mr_Outcomes) =? 7)%nat then None else r.(mr_Outcomes) !! 6%nat
  end.
Definition MatrixResult_CanonicalBytes (result : option MatrixResult) : string :=
  match result with None => "" | Some r => r.(mr_canonicalBytes) end.
Definition MatrixResult_Hash (result : option MatrixResult) : string :=
  match result with None => "" | Some r => r.(mr_hash) end.
Definition ScoredHash (result : option MatrixResult) : string :=
  match result with None => "" | Some r => r.(mr_scoredHash) end.

End matrix.
