(* ===== verification/CapitalPolicyProofs.v ===== *)
(** * Proofs about the capital policy, its artifact and bindings *)

From S2P Require Import Prelude GoStd GoText Digits Externals Decimals EconomicId EconomicIdProofs TextProofs Account Instrument.
From S2P Require Import Projection ProjectionPayload Checkpoint CapitalPolicy CapitalState.
From Stdlib Require Import Qpower Qround Ascii.

Local Open Scope Q_scope.

#[local] Opaque DeterministicUUID Sum256 json_struct.

(** ** Amounts *)

Section amounts.
Context `{L : DecimalLaws}.

Lemma Qfloor_lt q (k : Z) : (Qfloor q < k)%Z <-> q < inject_Z k.
Proof.
  split; intros Hq.
  - pose proof (Qlt_floor q) as Hf. assert (Hk : (Qfloor q + 1 <= k)%Z) by lia. rewrite Zle_Qle in Hk. lra.
  - pose proof (Qfloor_le q) as Hf. rewrite Zlt_Qlt. lra.
Qed.

Lemma ten_26 : (10 ^ 26)%Z = Z.of_N (10 ^ N.of_nat 26).
Proof. vm_compute. reflexivity. Qed.

Lemma exact_amount_iff v :
  (if negb (Equal v (Round v 12)) then false
   else (String.length (TrimPrefix (DecimalString (Truncate (Abs v) 0)) "-") <=? 26)%nat) = true <->
  numeric_38_12 (val v).
Proof.
  unfold numeric_38_12. rewrite <- Equal_Round_iff. destruct (Equal v (Round v 12)); cbn [negb]; [|naive_solver].
  assert (Hpos : 0 <= val (Abs v)) by (rewrite val_Abs; apply Qabs_nonneg).
  assert (Hk : (0 <= Qfloor (val (Abs v)))%Z) by (change 0%Z with (Qfloor 0); by apply Qfloor_resp_le).
  rewrite (DecimalString_int _ _ Hk (Truncate_int _ Hpos)), Itoa_no_dash, Nat.leb_le, Itoa_length_iff by done.
  rewrite <- val_Abs. rewrite ten_26, <- Qfloor_lt. intuition lia.
Qed.

End amounts.

Section policy.
Context {E : Externals} {L : ExternalLaws}.

(** Both packages' tests accept exactly the values of a NUMERIC(38,12). *)
Lemma validCapitalAmount_iff v : validCapitalAmount v = true <-> numeric_38_12 (val v).
Proof. apply exact_amount_iff. Qed.
Lemma validPolicyDecimal_iff v : validPolicyDecimal v = true <-> numeric_38_12 (val v).
Proof. apply exact_amount_iff. Qed.

Lemma reject_false (b : bool) msg u : reject b msg = Ok u -> b = false.
Proof. by destruct b. Qed.

(** ** What NewPolicy accepts *)

Definition same_value (a b : dec) : Prop := val a == val b.
Definition same_profile (a b : Profile) : Prop := sameProfile a b = true.

Record profile_same (a b : Profile) : Prop := {
  ps_name : a.(prof_Name) = b.(prof_Name);
  ps_initial_long : same_value a.(prof_InitialLong) b.(prof_InitialLong);
  ps_initial_short : same_value a.(prof_InitialShort) b.(prof_InitialShort);
  ps_maintenance_long : same_value a.(prof_MaintenanceLong) b.(prof_MaintenanceLong);
  ps_maintenance_short : same_value a.(prof_MaintenanceShort) b.(prof_MaintenanceShort);
  ps_gross : same_value a.(prof_MaximumGross) b.(prof_MaximumGross);
  ps_reserve : same_value a.(prof_CashReserve) b.(prof_CashReserve);
  ps_short : a.(prof_AllowShort) = b.(prof_AllowShort);
  ps_unlimited : a.(prof_Unlimited) = b.(prof_Unlimited);
}.

Lemma sameProfile_iff a b : sameProfile a b = true <-> profile_same a b.
Proof.
  unfold sameProfile. rewrite !andb_true_iff, !bool_decide_eq_true, !Equal_true. split.
  - intros H. repeat match type of H with _ /\ _ => destruct H as [H ?] end. by split.
  - intros []. by repeat split.
Qed.

Lemma check_tiers_iff tiers want : length tiers = length want ->
  check_tiers tiers want = Ok tt <-> Forall2 (fun a b => numeric_38_12 (val a) /\ same_value a b) tiers want.
Proof.
  revert want. induction tiers as [|t tiers IH]; intros [|w want] Hl; try discriminate Hl; cbn [check_tiers].
  { split; [constructor|done]. }
  rewrite bind_Ok, Forall2_cons, <- IH by (by injection Hl). unfold same_value. split.
  - intros ([] & Hr & Hc). apply reject_false in Hr. split_bools.
    by rewrite <- validPolicyDecimal_iff, <- Equal_true.
  - intros [[Hv He] Hc]. exists tt. rewrite <- validPolicyDecimal_iff in Hv. rewrite <- Equal_true in He.
    split; [by rewrite Hv, He|done].
Qed.

Definition profile_exact (p : Profile) : Prop :=
  MarginProfile_IsValid p.(prof_Name) = true /\
  Forall (fun v => numeric_38_12 (val v) /\ 0 <= val v)
    [p.(prof_InitialLong); p.(prof_InitialShort); p.(prof_MaintenanceLong); p.(prof_MaintenanceShort);
     p.(prof_MaximumGross); p.(prof_CashReserve)].

Lemma validateProfile_iff p : validateProfile p = Ok tt <-> profile_exact p.
Proof.
  unfold validateProfile, profile_exact. rewrite bind_Ok. split.
  - intros ([] & Hr & Hf). apply reject_false in Hr. split_bools. split; [done|].
    rewrite for_each_Ok in Hf. eapply Forall_impl; [exact Hf|]. intros v Hv. cbn in Hv. apply reject_false in Hv.
    split_bools. dec_bools. by rewrite <- validPolicyDecimal_iff.
  - intros [Hn Hf]. exists tt. rewrite Hn. split; [done|]. rewrite for_each_Ok.
    eapply Forall_impl; [exact Hf|]. intros v [Hv Hp]. rewrite <- validPolicyDecimal_iff in Hv. rewrite Hv.
    cbn. by rewrite (proj2 (IsNegative_false v) Hp).
Qed.

Lemma check_profiles_iff profiles want : length profiles = length want ->
  check_profiles profiles want = Ok tt <-> Forall2 (fun a b => profile_exact a /\ profile_same a b) profiles want.
Proof.
  revert want. induction profiles as [|p profiles IH]; intros [|w want] Hl; try discriminate Hl; cbn [check_profiles].
  { split; [constructor|done]. }
  rewrite Forall2_cons, <- IH, <- validateProfile_iff, <- sameProfile_iff by (by injection Hl). split.
  - intros H. apply bind_Ok in H as ([] & Hv & H). apply wrap_Ok in Hv. apply bind_Ok in H as ([] & Hr & Hc).
    apply reject_false in Hr. by split_bools.
  - intros [[Hv Hs] Hc]. rewrite Hv, Hs. cbn. exact Hc.
Qed.

Lemma numeric_38_12_of (c e : Z) : (-12 <= e)%Z -> Qabs (inject_Z c * (10 # 1) ^ e) < inject_Z (10 ^ 26) ->
  numeric_38_12 (inject_Z c * (10 # 1) ^ e).
Proof.
  intros He Hb. split; [|done]. exists (c * 10 ^ (e + 12))%Z.
  rewrite inject_Z_mult, !Zpower_Qpower by lia. change (inject_Z 10) with (10 # 1).
  rewrite Qpower_plus by discriminate. field.
Qed.

(** ** The order of the reviewed values *)

Lemma tier_order : Transitive (not_after tierLess) /\ Total (not_after tierLess).
Proof.
  assert (Hiff : forall x y, not_after tierLess x y <-> val x <= val y).
  { intros x y. unfold not_after, tierLess. pose proof (LessThan_true y x) as Ht. destruct (LessThan y x).
    - split; [done|]. intros ?. pose proof (proj1 Ht eq_refl). lra.
    - split; [|done]. intros _. apply Qnot_lt_le. intros Hlt. by apply Ht in Hlt. }
  split.
  - intros x y z. rewrite !Hiff. intros. lra.
  - intros x y. rewrite !Hiff. destruct (Qlt_le_dec (val x) (val y)); [left; lra|by right].
Qed.

Lemma profile_order : Transitive (not_after profileLess) /\ Total (not_after profileLess).
Proof.
  split.
  - intros x y z. unfold not_after, profileLess. set (b := MarginProfile_string _). set (a := MarginProfile_string _).
    set (c := MarginProfile_string _). intros Hba Hcb. destruct (string_lt c a) eqn:Hca; [|done].
    destruct (string_lt a b) eqn:Hab; [by rewrite (string_lt_trans _ _ _ Hca Hab) in Hcb|].
    rewrite (string_lt_total _ _ Hba Hab) in Hcb. congruence.
  - intros x y. unfold not_after, profileLess. destruct (string_lt _ _) eqn:H; [right|by left].
    destruct (string_lt (MarginProfile_string (prof_Name x)) _) eqn:H'; [|done].
    pose proof (string_lt_trans _ _ _ H H') as Hi. by rewrite string_lt_irrefl in Hi.
Qed.

Ltac sorted_list :=
  repeat first [apply SSorted_nil | apply SSorted_cons | apply Forall_nil_2 | apply Forall_cons_2].

(** The reviewed tiers in the order of the code are increasing. *)
Lemma tiers_sorted tiers : Forall2 same_value tiers reviewedCapitalTiers ->
  StronglySorted (fun x y => tierLess x y = true) tiers.
Proof.
  unfold reviewedCapitalTiers, same_value. intros H. do 6 (apply Forall2_cons_inv_r in H as (? & ? & ? & H & ->)).
  apply Forall2_nil_inv_r in H as ->. rewrite val_NewFromInt in *. unfold tierLess, inject_Z in *.
  sorted_list; apply LessThan_true; lra.
Qed.

Lemma profiles_sorted profiles : Forall2 profile_same profiles reviewedProfiles ->
  StronglySorted (fun x y => profileLess x y = true) profiles.
Proof.
  unfold reviewedProfiles. intros H. do 4 (apply Forall2_cons_inv_r in H as (? & ? & [? _ _ _ _ _ _ _ _] & H & ->)).
  apply Forall2_nil_inv_r in H as ->. cbn in *. unfold profileLess.
  sorted_list; repeat match goal with H : prof_Name _ = _ |- _ => rewrite H; clear H end; done.
Qed.

(** ** NewPolicy *)

(** An input that holds the reviewed values, in any order. *)
Record reviewed_input (input : PolicyInput) : Prop := {
  ri_schema : input.(polin_Schema) = PolicySchemaV1;
  ri_currency : input.(polin_Currency) = "USD";
  ri_scale : input.(polin_Scale) = 12%Z;
  ri_tiers : exists tiers, input.(polin_Tiers) ≡ₚ tiers /\ Forall2 same_value tiers reviewedCapitalTiers;
  ri_profiles : exists profiles, input.(polin_Profiles) ≡ₚ profiles /\ Forall2 profile_same profiles reviewedProfiles;
}.

Definition reviewed_bytes : string :=
  marshal_policy (canonical_policy ReviewedPolicyV1Input reviewedCapitalTiers reviewedProfiles).
Definition reviewed_digest : string := EncodeToString (Sum256 reviewed_bytes).
Definition reviewed_version : string := (PolicySchemaV1 +:+ "@sha256:" +:+ reviewed_digest)%string.

(** The one policy there is, up to the representation of its decimals. *)
Record reviewed_policy (p : Policy) : Prop := {
  rp_schema : p.(pol_schema) = PolicySchemaV1;
  rp_currency : p.(pol_currency) = "USD";
  rp_scale : p.(pol_scale) = 12%Z;
  rp_tiers : Forall2 same_value p.(pol_tiers) reviewedCapitalTiers;
  rp_profiles : Forall2 profile_same p.(pol_profiles) reviewedProfiles;
  rp_bytes : p.(pol_canonicalBytes) = reviewed_bytes;
  rp_digest : p.(pol_digest) = reviewed_digest;
  rp_version : p.(pol_version) = reviewed_version;
  rp_id : p.(pol_artifactID) = DeterministicUUID policyArtifactDomain [reviewed_version];
}.

Lemma canonical_tiers_same tiers want : Forall2 same_value tiers want -> DecimalString <$> tiers = DecimalString <$> want.
Proof. induction 1 as [|t w tiers want Hv _ IH]; cbn; [done|]. by rewrite (DecimalString_value _ _ Hv), IH. Qed.

Lemma canonical_profiles_same profiles want : Forall2 profile_same profiles want ->
  canonical_profile <$> profiles = canonical_profile <$> want.
Proof.
  induction 1 as [|t w profiles want [] _ IH]; cbn; [done|]. rewrite IH. f_equal. unfold canonical_profile.
  by f_equal; try apply DecimalString_value; try congruence.
Qed.

Lemma canonical_reviewed input tiers profiles : reviewed_input input -> Forall2 same_value tiers reviewedCapitalTiers ->
  Forall2 profile_same profiles reviewedProfiles -> marshal_policy (canonical_policy input tiers profiles) = reviewed_bytes.
Proof.
  intros [Hs Hc Hn _ _] Ht Hp. unfold reviewed_bytes, canonical_policy. rewrite Hs, Hc, Hn.
  by rewrite (canonical_tiers_same _ _ Ht), (canonical_profiles_same _ _ Hp).
Qed.

Lemma numeric_New c e : (-12 <= e)%Z -> Qabs (inject_Z c * (10 # 1) ^ e) < inject_Z (10 ^ 26) ->
  numeric_38_12 (val (New c e)).
Proof. intros. rewrite val_New. by apply numeric_38_12_of. Qed.

Lemma numeric_int c : (Z.abs c < 10 ^ 26)%Z -> numeric_38_12 (inject_Z c).
Proof.
  intros Hc. rewrite <- (Qmult_1_r (inject_Z c)). apply (numeric_38_12_of c 0); [lia|].
  change ((10 # 1) ^ 0) with 1. rewrite Qmult_1_r. change (inject_Z (Z.abs c) < inject_Z (10 ^ 26)). by rewrite <- Zlt_Qlt.
Qed.

Ltac reviewed_number :=
  rewrite ?val_NewFromInt, ?val_Zero;
  first [apply numeric_New; [lia|reflexivity] | apply numeric_int; lia | apply (numeric_int 0); lia].

Lemma reviewed_tiers_exact tiers : Forall2 same_value tiers reviewedCapitalTiers ->
  Forall2 (fun a b => numeric_38_12 (val a) /\ same_value a b) tiers reviewedCapitalTiers.
Proof.
  assert (Hw : Forall (fun w => numeric_38_12 (val w)) reviewedCapitalTiers)
    by (repeat apply Forall_cons_2; try apply Forall_nil_2; reviewed_number).
  intros H. induction H as [|t w tiers want Hv H IH]; constructor; [|apply IH; by apply Forall_cons in Hw as [_ Hw]].
  apply Forall_cons in Hw as [Hw _]. split; [|done]. unfold same_value in Hv. by rewrite Hv.
Qed.

Lemma exact_same a b : numeric_38_12 (val b) /\ 0 <= val b -> same_value a b -> numeric_38_12 (val a) /\ 0 <= val a.
Proof. unfold same_value. intros Hb Hv. by rewrite Hv. Qed.

Lemma profile_same_exact a b : profile_exact b -> profile_same a b -> profile_exact a.
Proof.
  intros [Hn Hb] []. split; [by rewrite ps_name0|]. repeat (apply Forall_cons in Hb as [? Hb]).
  repeat apply Forall_cons_2; try apply Forall_nil_2; (eapply exact_same; [|eassumption]; done).
Qed.

Lemma reviewed_profiles_exact profiles : Forall2 profile_same profiles reviewedProfiles ->
  Forall2 (fun a b => profile_exact a /\ profile_same a b) profiles reviewedProfiles.
Proof.
  assert (Hw : Forall profile_exact reviewedProfiles).
  { repeat apply Forall_cons_2; try apply Forall_nil_2; (split; [done|]);
      repeat apply Forall_cons_2; try apply Forall_nil_2; cbn [prof_InitialLong prof_InitialShort prof_MaintenanceLong
        prof_MaintenanceShort prof_MaximumGross prof_CashReserve];
      (split; [reviewed_number|]); rewrite ?val_NewFromInt, ?val_Zero, ?val_New; by compute. }
  intros H. induction H as [|a b profiles want Hv H IH]; constructor; [|apply IH; by apply Forall_cons in Hw as [_ Hw]].
  apply Forall_cons in Hw as [Hw _]. split; [|done]. by eapply profile_same_exact.
Qed.

Lemma Forall2_second {A B} (P Q : A -> B -> Prop) l k : Forall2 (fun a b => P a b /\ Q a b) l k -> Forall2 Q l k.
Proof. intros H. eapply Forall2_impl; [exact H|]. by intros ? ? [_ ?]. Qed.

Lemma NewPolicy_reviewed input p : NewPolicy input = Ok p -> reviewed_input input /\ reviewed_policy p.
Proof.
  unfold NewPolicy. intros H. inv_ok H. split_bools.
  repeat match goal with Hx : (_ =? _)%nat = true |- _ => apply Nat.eqb_eq in Hx end.
  match goal with Hx : check_tiers _ _ = Ok _ |- _ => rename Hx into Ht end.
  match goal with Hx : check_profiles _ _ = Ok _ |- _ => rename Hx into Hp end.
  repeat match goal with u : unit |- _ => destruct u end.
  apply check_tiers_iff, Forall2_second in Ht; [|by rewrite sort_slice_perm].
  apply check_profiles_iff, Forall2_second in Hp; [|by rewrite sort_slice_perm].
  assert (Hin : reviewed_input input).
  { split; try done; [exists (sort_slice tierLess input.(polin_Tiers))|exists (sort_slice profileLess input.(polin_Profiles))];
      (split; [by rewrite sort_slice_perm|done]). }
  split; [done|]. pose proof (canonical_reviewed _ _ _ Hin Ht Hp) as Hb. destruct Hin as [Hs Hc Hn _ _].
  subst p. split; cbn; try done; unfold reviewed_version, reviewed_digest; by rewrite <- Hb, ?Hs.
Qed.

Lemma reviewed_NewPolicy input : reviewed_input input -> exists p, NewPolicy input = Ok p.
Proof.
  intros Hin. destruct Hin as [Hs Hc Hn (tiers & Hpt & Ht) (profiles & Hpp & Hp)].
  destruct tier_order as [Ht1 Ht2], profile_order as [Hp1 Hp2].
  assert (Hst : sort_slice tierLess input.(polin_Tiers) = tiers).
  { apply sort_slice_strict; auto using tiers_sorted. intros x y. unfold tierLess. intros Hlt%LessThan_true.
    destruct (LessThan y x) eqn:Hyx; [|done]. apply LessThan_true in Hyx. lra. }
  assert (Hsp : sort_slice profileLess input.(polin_Profiles) = profiles).
  { apply sort_slice_strict; auto using profiles_sorted. intros x y. unfold profileLess. intros Hlt.
    destruct (string_lt _ (MarginProfile_string (prof_Name x))) eqn:Hyx; [|done].
    pose proof (string_lt_trans _ _ _ Hlt Hyx) as Hi. by rewrite string_lt_irrefl in Hi. }
  unfold NewPolicy. rewrite Hs, Hc, Hn, Hst, Hsp, (Permutation_length Hpt), (Permutation_length Hpp). cbv zeta.
  rewrite (Forall2_length _ _ _ Ht), (Forall2_length _ _ _ Hp), !eq_self. cbn [negb reject mbind outcome_bind].
  rewrite (proj2 (check_tiers_iff _ _ (Forall2_length _ _ _ Ht)) (reviewed_tiers_exact _ Ht)).
  rewrite (proj2 (check_profiles_iff _ _ (Forall2_length _ _ _ Hp)) (reviewed_profiles_exact _ Hp)).
  by eexists.
Qed.

(** the capital policy is a closed contract: [NewPolicy] accepts exactly
    the inputs that hold the six reviewed tiers and the four reviewed profiles,
    in any order and in any decimal representation, and whatever input it
    accepts, the policy has the same currency, scale, economics, canonical
    bytes, digest, version and artifact identity. *)
Theorem policy_contract input :
  (reviewed_input input -> exists p, NewPolicy input = Ok p) /\
  (forall p, NewPolicy input = Ok p -> reviewed_input input /\ reviewed_policy p).
Proof. split; [apply reviewed_NewPolicy|intros p; apply NewPolicy_reviewed]. Qed.

Lemma Policy_Profile_reviewed p name q : reviewed_policy p -> Policy_Profile (Some p) name = (q, true) ->
  q.(prof_Name) = name /\ q ∈ p.(pol_profiles) /\
  exists r, r ∈ reviewedProfiles /\ r.(prof_Name) = name /\ profile_same q r.
Proof.
  intros [_ _ _ _ Hp _ _ _ _]. unfold Policy_Profile.
  destruct (find _ _) as [q'|] eqn:Hf; [|done]. intros [= ->]. apply find_some in Hf as [Hin Hn%bool_decide_eq_true].
  apply list_elem_of_In in Hin. split; [done|]. split; [done|].
  apply list_elem_of_lookup in Hin as [i Hi]. destruct (Forall2_lookup_l _ _ _ _ _ Hp Hi) as (r & Hr & Hs).
  exists r. split; [by eapply list_elem_of_lookup_2|]. split; [|done]. by rewrite <- (ps_name _ _ Hs).
Qed.

(** ** The durable artifact *)

Lemma version_plain : TrimSpace reviewed_version = reviewed_version /\ String.length reviewed_version = 96%nat.
Proof.
  unfold reviewed_version, reviewed_digest. split.
  - apply TrimSpace_graphic, append_graphic, append_graphic; [done|done|apply hex_plain].
  - rewrite <- !length_bytes, !bytes_append, !length_app, (length_bytes (EncodeToString _)).
    by rewrite length_EncodeToString, length_Sum256.
Qed.

Lemma reviewed_bytes_nonempty : String.length reviewed_bytes <> 0%nat.
Proof. with_strategy transparent [json_struct] done. Qed.

Lemma canonical_decimal_print msg a : exists b, canonical_decimal msg (DecimalString a) = Ok b /\ same_value b a.
Proof.
  destruct (NewFromString_String a) as (b & Hb & Hv). exists b. unfold canonical_decimal. rewrite Hb.
  rewrite (DecimalString_value _ _ Hv), eq_self. done.
Qed.

Lemma map_canonical_decimal msg l :
  exists k, map_outcome (canonical_decimal msg) (DecimalString <$> l) = Ok k /\ Forall2 same_value k l.
Proof.
  induction l as [|a l (k & IH & Hk)]; [by exists []|]. destruct (canonical_decimal_print msg a) as (b & Hb & Hv).
  exists (b :: k). cbn [fmap list_fmap map_outcome]. change (list_fmap _ _ DecimalString l) with (DecimalString <$> l).
  rewrite Hb, IH. by split; [|constructor].
Qed.

Lemma profile_from_canonical_print p : MarginProfile_IsValid p.(prof_Name) = true ->
  exists q, profile_from_canonical (canonical_profile p) = Ok q /\ profile_same q p.
Proof.
  intros Hn. unfold profile_from_canonical, canonical_profile. cbv zeta. cbn [cprof_Name cprof_InitialLong
    cprof_InitialShort cprof_MaintenanceLong cprof_MaintenanceShort cprof_MaximumGross cprof_CashReserve
    cprof_AllowShort cprof_Unlimited].
  set (msg := "capital policy profile %q has noncanonical decimal %q").
  destruct (canonical_decimal_print msg p.(prof_InitialLong)) as (a & -> & Ha).
  destruct (canonical_decimal_print msg p.(prof_InitialShort)) as (b & -> & Hb).
  destruct (canonical_decimal_print msg p.(prof_MaintenanceLong)) as (c & -> & Hc).
  destruct (canonical_decimal_print msg p.(prof_MaintenanceShort)) as (d & -> & Hd).
  destruct (canonical_decimal_print msg p.(prof_MaximumGross)) as (e & -> & He).
  destruct (canonical_decimal_print msg p.(prof_CashReserve)) as (f & -> & Hf).
  eexists. split; [reflexivity|]. split; try done. cbn. by destruct p.(prof_Name).
Qed.

Lemma map_profiles_canonical l : Forall (fun p => MarginProfile_IsValid p.(prof_Name) = true) l ->
  exists k, map_outcome profile_from_canonical (canonical_profile <$> l) = Ok k /\ Forall2 profile_same k l.
Proof.
  induction 1 as [|p l Hp _ (k & IH & Hk)]; [by exists []|].
  destruct (profile_from_canonical_print p Hp) as (q & Hq & Hs).
  exists (q :: k). cbn [fmap list_fmap map_outcome]. change (list_fmap _ _ canonical_profile l) with (canonical_profile <$> l).
  rewrite Hq, IH. by split; [|constructor].
Qed.

Lemma policyInputFromCanonical_reviewed :
  exists input, policyInputFromCanonical (canonical_policy ReviewedPolicyV1Input reviewedCapitalTiers reviewedProfiles) = Ok input /\
                reviewed_input input.
Proof.
  unfold policyInputFromCanonical, canonical_policy. cbn [cpol_Tiers cpol_Profiles cpol_Schema cpol_Currency cpol_Scale].
  destruct (map_canonical_decimal "capital policy tier %q is not a canonical decimal" reviewedCapitalTiers) as (ts & Hts & Ht).
  destruct (map_profiles_canonical reviewedProfiles) as (ps & Hps & Hp); [by repeat constructor|].
  rewrite Hts, Hps. eexists. split; [reflexivity|]. split; try done; cbn; eauto.
Qed.

Lemma NewArtifact_reviewed now p t : reviewed_policy p -> p.(pol_artifactID) <> Nil ->
  IsZeroTime (utc_micro (if IsZeroTime t then now else t)) = false ->
  exists a, NewArtifact now (Some p) t = Ok a /\ PolicyArtifact_Validate a = Ok tt /\
    a.(art_ID) = p.(pol_artifactID) /\ a.(art_Schema) = PolicySchemaV1 /\ a.(art_Version) = reviewed_version /\
    a.(art_SHA256) = reviewed_digest /\ a.(art_CanonicalBytes) = reviewed_bytes.
Proof.
  intros [Hs _ _ _ _ Hb Hd Hv Hid] Hnil Ht. set (created := if IsZeroTime t then utc_micro now else t).
  assert (Hc : IsZeroTime (utc_micro created) = false).
  { unfold created. destruct (IsZeroTime t); [by rewrite utc_micro_idemp|done]. }
  set (a := MkPolicyArtifact p.(pol_artifactID) p.(pol_schema) p.(pol_version) p.(pol_digest) p.(pol_canonicalBytes)
              (utc_micro created)).
  assert (Ha : PolicyArtifact_Validate a = Ok tt).
  { unfold PolicyArtifact_Validate, a. cbn [art_ID art_Schema art_Version art_SHA256 art_CanonicalBytes art_CreatedAt].
    rewrite Hs, Hv, Hd, Hb. destruct version_plain as [Htrim Hlen]. destruct (hex_plain (Sum256 reviewed_bytes)) as [_ Hlow].
    rewrite Htrim, Hlen, (bool_decide_eq_false_2 _ Hnil), !eq_self.
    rewrite (bool_decide_eq_false_2 (reviewed_version = "")) by (by unfold reviewed_version).
    change (ToLower reviewed_digest) with (ToLower (EncodeToString (Sum256 reviewed_bytes))). rewrite Hlow, eq_self.
    rewrite (proj2 (Nat.eqb_neq _ _) reviewed_bytes_nonempty), Hc. unfold reviewed_digest at 1.
    rewrite length_EncodeToString, length_Sum256. unfold TimeEqual, utc_micro, TruncateMicro, UTC. cbn [instant location_utc].
    rewrite truncate_mod, Z.sub_0_r, Z.eqb_refl. cbn [negb orb andb reject mbind outcome_bind Nat.mul Nat.add Nat.eqb Nat.ltb Nat.leb].
    by rewrite Hid, eq_self. }
  exists a. split; [|by repeat split]. unfold NewArtifact. rewrite (bool_decide_eq_false_2 _ Hnil). cbn [reject mbind outcome_bind].
  fold created. fold a. by rewrite Ha.
Qed.

(** A policy survives storage: the artifact of a policy can be written, it
    passes its own checks, and [PolicyFromArtifact] restores from it a policy
    with the same economics, bytes, digest, version and identity. The decoder
    of [encoding/json] is assumed to read back the struct it wrote. *)
Theorem artifact_roundtrip (decode : string -> option (canonicalPolicy * string)) now input p t rest :
  NewPolicy input = Ok p -> p.(pol_artifactID) <> Nil ->
  IsZeroTime (utc_micro (if IsZeroTime t then now else t)) = false ->
  decode p.(pol_canonicalBytes) = Some (canonical_policy input p.(pol_tiers) p.(pol_profiles), rest) ->
  json_eof rest = true ->
  exists a p', NewArtifact now (Some p) t = Ok a /\ PolicyFromArtifact decode a = Ok p' /\ reviewed_policy p' /\
    p'.(pol_artifactID) = p.(pol_artifactID) /\ p'.(pol_canonicalBytes) = p.(pol_canonicalBytes).
Proof.
  intros Hp Hnil Ht Hdec Heof. destruct (NewPolicy_reviewed _ _ Hp) as [Hin Hrp].
  assert (Hcanon : canonical_policy input p.(pol_tiers) p.(pol_profiles) =
                   canonical_policy ReviewedPolicyV1Input reviewedCapitalTiers reviewedProfiles).
  { destruct Hin as [Hs Hc Hn _ _]. unfold canonical_policy. rewrite Hs, Hc, Hn.
    by rewrite (canonical_tiers_same _ _ (rp_tiers _ Hrp)), (canonical_profiles_same _ _ (rp_profiles _ Hrp)). }
  destruct (NewArtifact_reviewed now p t Hrp Hnil Ht) as (a & Ha & Hv & Hid & Hs & Hver & Hsha & Hb).
  destruct policyInputFromCanonical_reviewed as (input' & Hin' & Hri).
  destruct (reviewed_NewPolicy _ Hri) as (p' & Hp'). destruct (NewPolicy_reviewed _ _ Hp') as [_ Hrp'].
  exists a, p'. split; [done|]. split; [|split; [done|]].
  - unfold PolicyFromArtifact. rewrite Hv. cbn [wrap mbind outcome_bind]. rewrite Hb, <- (rp_bytes _ Hrp), Hdec, Hcanon, Hin'.
    unfold requireJSONEOF. rewrite Heof. cbn [negb reject wrap mbind outcome_bind]. rewrite Hp'. cbn [wrap mbind outcome_bind].
    cbn [Policy_ArtifactID Policy_Schema Policy_Version Policy_Digest Policy_CanonicalBytes].
    rewrite Hid, Hs, Hver, Hsha, (rp_id _ Hrp'), (rp_id _ Hrp), (rp_schema _ Hrp'), (rp_version _ Hrp'), (rp_digest _ Hrp'),
      (rp_bytes _ Hrp'), (rp_bytes _ Hrp), !eq_self. done.
  - by rewrite (rp_id _ Hrp'), (rp_id _ Hrp), (rp_bytes _ Hrp'), (rp_bytes _ Hrp).
Qed.

End policy.
