(* ===== verification/CapitalStateProofs.v ===== *)
(** * Proofs about the capital state *)

From S2P Require Import Prelude GoStd GoText Digits GoTime Externals Decimals EconomicId Account Instrument.
From S2P Require Import Projection ProjectionPayload Checkpoint CapitalPolicy CapitalState CapitalPolicyProofs.
From Stdlib Require Import Qpower.

Local Open Scope Q_scope.

#[local] Opaque DeterministicUUID Sum256 json_struct.

Definition positive_part (q : Q) : Q := if Qlt_le_dec 0 q then q else 0.
Definition negative_part (q : Q) : Q := positive_part (- q).

Lemma parts_difference q : positive_part q - negative_part q == q.
Proof. unfold negative_part, positive_part. destruct (Qlt_le_dec 0 q), (Qlt_le_dec 0 (- q)); lra. Qed.
Lemma positive_part_nonneg q : 0 <= positive_part q.
Proof. unfold positive_part. destruct (Qlt_le_dec 0 q); lra. Qed.
Lemma positive_part_pos q : 0 < q -> positive_part q = q /\ negative_part q = 0.
Proof. unfold negative_part, positive_part. destruct (Qlt_le_dec 0 q), (Qlt_le_dec 0 (- q)); intros; lra || done. Qed.
Lemma positive_part_neg q : q < 0 -> positive_part q = 0 /\ negative_part q == - q.
Proof.
  unfold negative_part, positive_part. destruct (Qlt_le_dec 0 q), (Qlt_le_dec 0 (- q)); intros; try lra. done.
Qed.
Lemma positive_part_zero q : q == 0 -> positive_part q = 0 /\ negative_part q = 0.
Proof. unfold negative_part, positive_part. destruct (Qlt_le_dec 0 q), (Qlt_le_dec 0 (- q)); intros; lra || done. Qed.

Section state.
Context {E : Externals} {L : ExternalLaws}.

(** ** What a valid binding says *)

Record bound (binding : Binding) (account : Account) (p : Policy) : Prop := {
  bd_account : Account_Validate account = Ok tt;
  bd_ids : binding.(bind_AccountID) = account.(acct_ID) /\ binding.(bind_PolicyVersion) = p.(pol_version) /\
           binding.(bind_ID) = DeterministicUUID bindingIDDomain [uuid_string account.(acct_ID); p.(pol_version)];
  bd_currency : account.(acct_BaseCurrency) = "USD";
  bd_profile : binding.(bind_Profile) = account.(acct_MarginProfile);
  bd_evidence : binding.(bind_EvidenceClass) = account.(acct_EvidenceClass);
  bd_environment : binding.(bind_Environment) = account.(acct_Environment);
  bd_tier : same_value binding.(bind_Tier) account.(acct_StartingCapital) /\
            exists t, t ∈ p.(pol_tiers) /\ same_value t binding.(bind_Tier);
  bd_class : exists q, Policy_Profile (Some p) binding.(bind_Profile) = (q, true) /\
    ((account.(acct_Environment) = AccountEnvironmentPaperScored /\ q.(prof_Unlimited) = false /\
      account.(acct_EvidenceClass) = PaperEvidenceClassPromotion /\
      same_value account.(acct_BuyingPowerMultiplier) q.(prof_MaximumGross)) \/
     (account.(acct_Environment) = AccountEnvironmentPaperStress /\ q.(prof_Unlimited) = true /\
      account.(acct_EvidenceClass) = PaperEvidenceClassSynthetic /\
      binding.(bind_Profile) = MarginProfileStressUnlimited));
}.

Lemma Binding_Validate_bound binding account p :
  Binding_Validate binding account (Some p) = Ok tt -> bound binding account p.
Proof.
  unfold Binding_Validate. intros H. inv_ok H.
  destruct (Policy_Profile (Some p) binding.(bind_Profile)) as [q ok] eqn:Hq. inv_ok H. split_bools. subst ok.
  repeat match goal with u : unit |- _ => destruct u end.
  cbn [Policy_ArtifactID Policy_Version Policy_Currency] in *.
  match goal with Ht : policyHasTier _ _ = true |- _ => unfold policyHasTier in Ht; apply existsb_exists in Ht as (t & Hin & Ht) end.
  dec_bools.
  assert (Hclass :
    (account.(acct_Environment) = AccountEnvironmentPaperScored /\ q.(prof_Unlimited) = false /\
      account.(acct_EvidenceClass) = PaperEvidenceClassPromotion /\
      same_value account.(acct_BuyingPowerMultiplier) q.(prof_MaximumGross)) \/
     (account.(acct_Environment) = AccountEnvironmentPaperStress /\ q.(prof_Unlimited) = true /\
      account.(acct_EvidenceClass) = PaperEvidenceClassSynthetic /\
      binding.(bind_Profile) = MarginProfileStressUnlimited)).
  { destruct binding.(bind_Environment); try discriminate H; [left|right]; apply reject_false in H; split_bools; dec_bools;
      unfold same_value; repeat split; try congruence.
    match goal with Hm : _ == val account.(acct_BuyingPowerMultiplier) |- _ => by rewrite <- Hm end. }
  split; try done; try congruence.
  - unfold same_value. split; [lra|]. exists t. split; [by apply list_elem_of_In|done].
  - by exists q.
Qed.

(** ** The exposure loop *)

Definition open_of (q : ProjectionPosition) : nat := if q.(pos_Open) then 1%nat else 0%nat.

Fixpoint open_count (positions : list ProjectionPosition) : nat :=
  match positions with
  | [] => 0%nat
  | q :: rest => (open_of q + open_count rest)%nat
  end.

Record added (byID : gmap UUID Instrument) (positions : list ProjectionPosition) (acc acc' : exposure) : Prop := {
  ad_long : val acc'.(ex_long) == val acc.(ex_long) + sumQ (fun q => positive_part (val q.(pos_MarketValue))) positions;
  ad_short : val acc'.(ex_short) == val acc.(ex_short) + sumQ (fun q => negative_part (val q.(pos_MarketValue))) positions;
  ad_market : val acc'.(ex_market) == val acc.(ex_market) + sumQ (fun q => val q.(pos_MarketValue)) positions;
  ad_open : acc'.(ex_open) = (acc.(ex_open) + open_count positions)%nat;
  ad_known : forall q, q ∈ positions -> q.(pos_Open) = true -> is_Some (byID !! q.(pos_InstrumentID));
}.

Lemma add_position_added byID q encoded acc acc' : add_position byID q encoded acc = Ok acc' -> added byID [q] acc acc'.
Proof.
  unfold add_position. intros H. inv_ok H. destruct encoded as [e|]; [|done]. inv_ok H.
  destruct q.(pos_Open) eqn:Ho; cbn [negb] in H; inv_ok H; split_bools; subst acc'.
  - assert (Hknown : is_Some (byID !! q.(pos_InstrumentID))) by (by apply not_eq_None_Some).
    split; cbn [ex_long ex_short ex_market ex_open sumQ open_count].
    + destruct (IsPositive q.(pos_MarketValue)) eqn:Hp; dec_bools; dec_push.
      * destruct (positive_part_pos _ Hp) as [-> _]. lra.
      * assert (Hz : positive_part (val q.(pos_MarketValue)) == 0).
        { unfold positive_part. destruct (Qlt_le_dec 0 (val q.(pos_MarketValue))); lra. }
        lra.
    + destruct (IsPositive q.(pos_MarketValue)) eqn:Hp; [dec_bools; destruct (positive_part_pos _ Hp) as [_ ->]; lra|].
      destruct (IsNegative q.(pos_MarketValue)) eqn:Hn; dec_bools; dec_push.
      * destruct (positive_part_neg _ Hn) as [_ ->]. rewrite Qabs_neg by lra. lra.
      * destruct (positive_part_zero (val q.(pos_MarketValue)) ltac:(lra)) as [_ ->]. lra.
    + dec_push. lra.
    + unfold open_of. rewrite Ho. lia.
    + intros q' Hq' _. apply list_elem_of_singleton in Hq' as ->. done.
  - dec_bools. destruct (positive_part_zero (val q.(pos_MarketValue))) as [Hp Hn]; [done|].
    split; cbn [ex_long ex_short ex_market ex_open sumQ open_count]; rewrite ?Hp, ?Hn; dec_push; try lra.
    + unfold open_of. rewrite Ho. lia.
    + intros q' Hq' Ho'. apply list_elem_of_singleton in Hq' as ->. congruence.
Qed.

Lemma add_positions_added byID positions encoded acc acc' :
  add_positions byID positions encoded acc = Ok acc' -> added byID positions acc acc'.
Proof.
  revert encoded acc. induction positions as [|q positions IH]; intros encoded acc; cbn [add_positions].
  - intros [= <-]. split; cbn; try lra; try lia. intros q Hq. by apply elem_of_nil in Hq.
  - intros H. inv_ok H. apply IH in H. apply add_position_added in H0.
    destruct H0 as [Hl Hs Hm Ho Hk], H as [Hl' Hs' Hm' Ho' Hk']. cbn [sumQ open_count] in *.
    split; cbn [sumQ open_count]; try lra; try lia.
    intros q' [-> |Hq']%elem_of_cons Hopen; [|by apply Hk']. apply Hk; [by apply list_elem_of_singleton|done].
Qed.

(** Every instrument of the index is one of those given, valid and supported. *)
Definition supported (currency : string) (i : Instrument) : Prop :=
  Instrument_Validate i = Ok tt /\ i.(inst_Currency) = currency /\
  (i.(inst_AssetClass) = AssetClassEquity \/ i.(inst_AssetClass) = AssetClassETF).

Lemma index_instruments_spec currency instruments byID out :
  index_instruments currency instruments byID = Ok out ->
  Forall (supported currency) instruments /\ size out = (size byID + length instruments)%nat /\
  forall id i, out !! id = Some i -> byID !! id = Some i \/ (i ∈ instruments /\ i.(inst_ID) = id).
Proof.
  revert byID. induction instruments as [|i instruments IH]; intros byID; cbn [index_instruments].
  - intros [= <-]. split; [constructor|]. split; [cbn; lia|]. by left.
  - intros H. inv_ok H. destruct x. apply IH in H as (Hall & Hsize & Hin). split_bools.
    assert (Hnone : byID !! i.(inst_ID) = None).
    { destruct (byID !! i.(inst_ID)) eqn:Hl; [|done]. match goal with Hx : ~ is_Some _ |- _ => by destruct Hx end. }
    split; [constructor; [|done]|split].
    + split; [done|]. split; [done|]. match goal with Hx : _ && _ = false |- _ => apply andb_false_iff in Hx as [Hx|Hx] end;
        split_bools; auto.
    + rewrite Hsize, map_size_insert_None by done. cbn. lia.
    + intros id j Hj. destruct (Hin id j Hj) as [Hl|[Hl ?]].
      * destruct (decide (i.(inst_ID) = id)) as [<- |Hne].
        -- rewrite lookup_insert_eq in Hl. simplify_eq. right. split; [by left|done].
        -- rewrite lookup_insert_ne in Hl by done. by left.
      * right. split; [by right|done].
Qed.

(** ** Validity of a sealed state *)

Record state_valid (s : State) (account : Account) (binding : Binding) (policy : option Policy) : Prop := {
  sv_id : s.(st_id) <> Nil;
  sv_bytes : String.length s.(st_canonicalBytes) <> 0%nat;
  sv_hash : String.length s.(st_hash) = 64%nat;
  sv_account : s.(st_accountID) = account.(acct_ID);
  sv_binding : s.(st_bindingID) = binding.(bind_ID);
  sv_policy : s.(st_policyVersion) = Policy_Version policy;
  sv_currency : s.(st_currency) = account.(acct_BaseCurrency);
  sv_checkpoint : s.(st_projectionCheckpointID) <> Nil;
  sv_checksum : String.length s.(st_projectionChecksum) = 64%nat;
  sv_as_of : IsZeroTime s.(st_asOf) = false /\ s.(st_asOf).(location_utc) = true /\
             TimeEqual s.(st_asOf) (TruncateMicro s.(st_asOf)) = true;
  sv_amounts : Forall (fun v => numeric_38_12 (val v))
    [s.(st_cash); s.(st_equity); s.(st_longExposure); s.(st_shortExposure); s.(st_grossExposure);
     s.(st_maintenanceRequirement)];
  sv_signs : Forall (fun v => 0 <= val v)
    [s.(st_equity); s.(st_longExposure); s.(st_shortExposure); s.(st_grossExposure); s.(st_maintenanceRequirement)];
  sv_gross : val s.(st_grossExposure) == val s.(st_longExposure) + val s.(st_shortExposure);
  sv_evidence : s = seal s.(st_fields);
}.

Lemma amounts_storable msg l : for_each (fun v => reject (negb (validCapitalAmount v)) msg) l = Ok tt <->
  Forall (fun v => numeric_38_12 (val v)) l.
Proof.
  rewrite for_each_Ok. split; intros H; (eapply Forall_impl; [exact H|]); intros v Hv; cbn in *.
  - apply reject_false in Hv. split_bools. by apply validCapitalAmount_iff.
  - apply validCapitalAmount_iff in Hv. by rewrite Hv.
Qed.

Lemma State_validate_iff s account binding policy :
  State_validate (Some s) account binding policy = Ok tt <-> state_valid s account binding policy.
Proof.
  unfold State_validate. split.
  - intros H. inv_ok H. repeat match goal with u : unit |- _ => destruct u end. split_bools.
    match goal with Hf : for_each _ _ = Ok tt |- _ => apply amounts_storable in Hf end.
    repeat match goal with
    | Hx : (_ =? _)%nat = true |- _ => apply Nat.eqb_eq in Hx
    | Hx : (_ =? _)%nat = false |- _ => apply Nat.eqb_neq in Hx
    end.
    dec_bools. split; try done.
    + by repeat (apply Forall_cons_2; [done|]); apply Forall_nil_2.
    + match goal with Hg : val (st_grossExposure _) == _ |- _ => rewrite Hg end. by rewrite val_Add.
    + destruct s as [f i b h]. cbn in *. unfold seal. congruence.
  - intros [Hid Hb Hh Ha Hbi Hp Hc Hck Hcs (Ht1 & Ht2 & Ht3) Ham Hsg Hg He].
    rewrite (bool_decide_eq_false_2 _ Hid), (proj2 (Nat.eqb_neq _ _) Hb), Hh. cbn [negb orb Nat.eqb reject mbind outcome_bind].
    rewrite Ha, Hbi, Hp, Hc, Hcs, Ht1, Ht2, Ht3, !eq_self, (bool_decide_eq_false_2 _ Hck).
    cbn [negb orb Nat.eqb reject mbind outcome_bind]. rewrite (proj2 (amounts_storable _ _) Ham).
    repeat (apply Forall_cons in Hsg as [?%IsNegative_false Hsg]).
    rewrite <- val_Add in Hg. apply Equal_true in Hg. rewrite H, H0, H1, H2, H3, Hg. cbn [negb orb reject mbind outcome_bind].
    destruct s as [f i b h]. cbn [st_fields st_canonicalBytes st_hash st_id] in *. injection He as -> -> ->.
    by rewrite !eq_self.
Qed.

(** ** Deriving the state *)

(** The maintenance requirement of a profile before rounding. *)
Definition exact_maintenance (r : Profile) (long short : Q) : Q :=
  long * val r.(prof_MaintenanceLong) + short * val r.(prof_MaintenanceShort).

Lemma roundCapitalUp_near v : val v <= val (roundCapitalUp v 12) /\ val (roundCapitalUp v 12) < val v + (1 # 1000000000000).
Proof. unfold roundCapitalUp. exact (RoundCeil_near v 12). Qed.

Lemma maintenance_near p q r long short : reviewed_policy p -> profile_same q r ->
  let m := val (maintenance_of q long short (Policy_Scale (Some p))) in
  if r.(prof_Unlimited) then m == 0
  else exact_maintenance r (val long) (val short) <= m /\
       m < exact_maintenance r (val long) (val short) + (1 # 1000000000000).
Proof.
  intros Hp [_ _ _ Hml Hms _ _ _ Hu]. cbv zeta. unfold maintenance_of. rewrite Hu.
  destruct r.(prof_Unlimited); cbn [negb]; [apply val_Zero|]. cbn [Policy_Scale]. rewrite (rp_scale _ Hp).
  unfold exact_maintenance, same_value in *. rewrite <- Hml, <- Hms, <- !val_Mul, <- val_Add. apply roundCapitalUp_near.
Qed.

Record derived (decode : string -> option (projectionCapitalPayload * string)) (account : Account) (binding : Binding)
    (p : Policy) (projection : PortfolioProjection) (instruments : list Instrument) (s : State) : Prop := {
  dv_bound : bound binding account p;
  dv_valid : state_valid s account binding (Some p);
  dv_exposure : exists byID encoded acc q,
    added byID projection.(proj_Positions) no_exposure acc /\
    index_instruments account.(acct_BaseCurrency) instruments ∅ = Ok byID /\ size byID = acc.(ex_open) /\
    add_positions byID projection.(proj_Positions) encoded no_exposure = Ok acc /\
    val acc.(ex_market) == val projection.(proj_Totals).(tot_MarketValue) /\
    Policy_Profile (Some p) binding.(bind_Profile) = (q, true) /\
    s.(st_longExposure) = acc.(ex_long) /\ s.(st_shortExposure) = acc.(ex_short) /\
    s.(st_maintenanceRequirement) = maintenance_of q acc.(ex_long) acc.(ex_short) (Policy_Scale (Some p));
  dv_cash : s.(st_cash) = projection.(proj_Totals).(tot_Cash);
  dv_equity : s.(st_equity) = projection.(proj_Totals).(tot_Equity) /\
    val projection.(proj_Totals).(tot_Equity) ==
      val projection.(proj_Totals).(tot_Cash) + val projection.(proj_Totals).(tot_MarketValue);
}.

Lemma StateFromProjection_derived decode account binding p projection instruments s :
  StateFromProjection decode account binding (Some p) (Some projection) instruments = Ok s ->
  derived decode account binding p projection instruments s.
Proof.
  unfold StateFromProjection. intros H. inv_ok H.
  destruct (Policy_Profile (Some p) binding.(bind_Profile)) as [q ok] eqn:Hq. inv_ok H.
  repeat match goal with u : unit |- _ => destruct u end. split_bools. subst ok s. dec_bools.
  match goal with Hb : Binding_Validate _ _ _ = Ok tt |- _ => apply Binding_Validate_bound in Hb end.
  match goal with Hs : State_validate _ _ _ _ = Ok tt |- _ => apply State_validate_iff in Hs end.
  match goal with He : (_ =? _)%nat = true |- _ => apply Nat.eqb_eq in He end.
  split; try done.
  - eexists _, _, _, q. split; [by eapply add_positions_added|]. by repeat split.
  - split; [done|]. match goal with He : val (tot_Equity _) == _ |- _ => rewrite He end. by rewrite val_Add.
Qed.

Lemma sumQ_parts {A} (f : A -> Q) l :
  sumQ (fun x => positive_part (f x)) l - sumQ (fun x => negative_part (f x)) l == sumQ f l.
Proof.
  induction l as [|x l IH]; cbn; [lra|]. pose proof (parts_difference (f x)). lra.
Qed.

(** A capital state restates its projection. Long and short exposure are
    the sums of the positive and of the negative market values of the
    projection's positions, gross exposure is their sum, equity is cash plus
    long minus short and is not negative, the maintenance requirement is the
    reviewed ratios applied to the exposure, rounded up by less than 1e-12 (and
    zero under the unlimited profile), and the instruments given are exactly as
    many as the open positions, supported, and name each of them. *)
Theorem capital_state_exposure decode input p account binding projection instruments s :
  NewPolicy input = Ok p ->
  StateFromProjection decode account binding (Some p) (Some projection) instruments = Ok s ->
  let mv := fun q => val q.(pos_MarketValue) in
  val s.(st_longExposure) == sumQ (fun q => positive_part (mv q)) projection.(proj_Positions) /\
  val s.(st_shortExposure) == sumQ (fun q => negative_part (mv q)) projection.(proj_Positions) /\
  val s.(st_grossExposure) == val s.(st_longExposure) + val s.(st_shortExposure) /\
  val s.(st_equity) == val s.(st_cash) + val s.(st_longExposure) - val s.(st_shortExposure) /\
  s.(st_cash) = projection.(proj_Totals).(tot_Cash) /\ 0 <= val s.(st_equity) /\
  (exists r, r ∈ reviewedProfiles /\ r.(prof_Name) = account.(acct_MarginProfile) /\
     let exact := exact_maintenance r (val s.(st_longExposure)) (val s.(st_shortExposure)) in
     if r.(prof_Unlimited) then val s.(st_maintenanceRequirement) == 0
     else exact <= val s.(st_maintenanceRequirement) /\
          val s.(st_maintenanceRequirement) < exact + (1 # 1000000000000)) /\
  length instruments = open_count projection.(proj_Positions) /\ Forall (supported "USD") instruments /\
  (forall q, q ∈ projection.(proj_Positions) -> q.(pos_Open) = true ->
     exists i, i ∈ instruments /\ i.(inst_ID) = q.(pos_InstrumentID)).
Proof.
  intros Hpol H. apply NewPolicy_reviewed in Hpol as [_ Hp]. apply StateFromProjection_derived in H.
  destruct H as [Hb Hv (byID & enc & acc & q & [Hl Hs Hm Ho Hk] & Hidx & Hsz & _ & Hmv & Hq & Hls & Hss & Hms) Hc [He Heq]].
  cbn [no_exposure ex_long ex_short ex_market ex_open] in *. rewrite val_Zero in Hl, Hs, Hm.
  pose proof (sumQ_parts (fun q => val q.(pos_MarketValue)) projection.(proj_Positions)) as Hparts. cbv beta in Hparts.
  apply index_instruments_spec in Hidx as (Hall & Hsize & Hin). rewrite map_size_empty in Hsize.
  destruct (Policy_Profile_reviewed _ _ _ Hp Hq) as (_ & _ & r & Hr & Hrn & Hrs).
  pose proof (maintenance_near p q r acc.(ex_long) acc.(ex_short) Hp Hrs) as Hmain. cbv zeta in Hmain.
  pose proof (sv_signs _ _ _ _ Hv) as Hsigns. apply Forall_cons in Hsigns as [Hpos _]. cbv zeta.
  rewrite Hls, Hss, Hms, He, Hc. rewrite He in Hpos.
  split_and!; try done; try lra.
  - rewrite (sv_gross _ _ _ _ Hv), Hls, Hss. lra.
  - exists r. split; [done|]. split; [by rewrite Hrn, (bd_profile _ _ _ Hb)|]. done.
  - rewrite (bd_currency _ _ _ Hb) in Hall. lia.
  - by rewrite (bd_currency _ _ _ Hb) in Hall.
  - intros x Hx Hopen. destruct (Hk x Hx Hopen) as [i Hi]. destruct (Hin _ _ Hi) as [He'|[? ?]]; [by rewrite lookup_empty in He'|eauto].
Qed.

(** ** Restoring the state *)

Record fields_same (f g : StateFields) : Prop := {
  fs_account : f.(st_accountID) = g.(st_accountID);
  fs_binding : f.(st_bindingID) = g.(st_bindingID);
  fs_policy : f.(st_policyVersion) = g.(st_policyVersion);
  fs_checkpoint : f.(st_projectionCheckpointID) = g.(st_projectionCheckpointID);
  fs_checksum : f.(st_projectionChecksum) = g.(st_projectionChecksum);
  fs_as_of : f.(st_asOf) = g.(st_asOf);
  fs_currency : f.(st_currency) = g.(st_currency);
  fs_cash : same_value f.(st_cash) g.(st_cash);
  fs_equity : same_value f.(st_equity) g.(st_equity);
  fs_long : same_value f.(st_longExposure) g.(st_longExposure);
  fs_short : same_value f.(st_shortExposure) g.(st_shortExposure);
  fs_gross : same_value f.(st_grossExposure) g.(st_grossExposure);
  fs_maintenance : same_value f.(st_maintenanceRequirement) g.(st_maintenanceRequirement);
}.

Lemma canonical_same f g : fields_same f g -> state_canonical f = state_canonical g.
Proof. intros []. unfold state_canonical. f_equal; try congruence; by apply DecimalString_value. Qed.

Lemma seal_same f g : fields_same f g ->
  (seal f).(st_id) = (seal g).(st_id) /\ (seal f).(st_hash) = (seal g).(st_hash) /\
  (seal f).(st_canonicalBytes) = (seal g).(st_canonicalBytes).
Proof. intros Hs. unfold seal. cbn. by rewrite (canonical_same _ _ Hs). Qed.

Lemma valid_same f g account binding policy : fields_same f g ->
  state_valid (seal g) account binding policy -> state_valid (seal f) account binding policy.
Proof.
  intros Hs [Hid Hb Hh Ha Hbi Hp Hc Hck Hcs Ht Ham Hsg Hg _]. destruct (seal_same _ _ Hs) as (Hi & Hha & Hby).
  destruct Hs. unfold same_value in *. change (st_fields (seal ?x)) with x in *.
  split; change (st_fields (seal f)) with f; rewrite ?Hi, ?Hha, ?Hby, ?fs_account0, ?fs_binding0, ?fs_policy0, ?fs_checkpoint0,
    ?fs_checksum0, ?fs_as_of0, ?fs_currency0; try assumption; [| |lra|reflexivity].
  - repeat (apply Forall_cons in Ham as [? Ham]).
    repeat (apply Forall_cons_2); try apply Forall_nil_2; cbv beta;
      match goal with Hx : val ?a == _ |- numeric_38_12 (val ?a) => rewrite Hx; assumption end.
  - repeat (apply Forall_cons in Hsg as [? Hsg]). repeat (apply Forall_cons_2); try apply Forall_nil_2; lra.
Qed.

Lemma parse_uuid_string msg u : parse_uuid msg (uuid_string u) = Ok u.
Proof. unfold parse_uuid. by rewrite uuid_parse_string. Qed.

Lemma rebuilt_identity (f : StateFields) (s : State) : (seal f).(st_id) = s.(st_id) -> (seal f).(st_hash) = s.(st_hash) ->
  (seal f).(st_canonicalBytes) = s.(st_canonicalBytes) ->
  ((seal f).(st_id) !=? s.(st_id))%go || ((seal f).(st_hash) !=? s.(st_hash))%go ||
  ((seal f).(st_canonicalBytes) !=? s.(st_canonicalBytes))%go = false.
Proof. intros -> -> ->. by rewrite !eq_self. Qed.

(** a capital state survives storage: from the identity, digest and
    canonical bytes of any valid state dated between the years 1 and 9999,
    [StateFromCanonical] rebuilds a state with the same identity, digest and
    bytes and the same facts, amount by amount. The decoder of [encoding/json]
    is assumed to read back the struct it wrote. *)
Theorem capital_state_roundtrip (decode : string -> option (canonicalState * string)) s account binding policy rest :
  State_validate (Some s) account binding policy = Ok tt ->
  (0 <= s.(st_asOf).(instant) < year_10000)%Z ->
  decode s.(st_canonicalBytes) = Some (state_canonical s, rest) -> json_eof rest = true ->
  exists s', StateFromCanonical decode s.(st_id) s.(st_hash) s.(st_canonicalBytes) account binding policy = Ok s' /\
    s'.(st_id) = s.(st_id) /\ s'.(st_hash) = s.(st_hash) /\ s'.(st_canonicalBytes) = s.(st_canonicalBytes) /\
    fields_same s' s.
Proof.
  intros Hval Hyear Hdec Heof. apply State_validate_iff in Hval.
  pose proof Hval as [Hid Hb Hh _ _ _ _ _ _ (Ht1 & Ht2 & Ht3) _ _ _ He].
  assert (Htime : utc_micro s.(st_asOf) = s.(st_asOf)).
  { destruct s.(st_asOf) as [i u]. unfold TimeEqual, utc_micro, UTC, TruncateMicro in *. cbn in *.
    apply Z.eqb_eq in Ht3. congruence. }
  assert (Hparse : parse_micro (formatCapitalTime s.(st_asOf)) = Some s.(st_asOf)).
  { unfold formatCapitalTime. rewrite Htime. by apply parse_format_micro. }
  set (msg := "restore capital state: amount %d is not canonical").
  destruct (canonical_decimal_print msg s.(st_cash)) as (cash & Hcash & Vcash).
  destruct (canonical_decimal_print msg s.(st_equity)) as (equity & Hequity & Vequity).
  destruct (canonical_decimal_print msg s.(st_longExposure)) as (long & Hlong & Vlong).
  destruct (canonical_decimal_print msg s.(st_shortExposure)) as (short & Hshort & Vshort).
  destruct (canonical_decimal_print msg s.(st_grossExposure)) as (gross & Hgross & Vgross).
  destruct (canonical_decimal_print msg s.(st_maintenanceRequirement)) as (main & Hmain & Vmain).
  set (f := MkStateFields s.(st_accountID) s.(st_bindingID) s.(st_policyVersion) s.(st_projectionCheckpointID)
    s.(st_projectionChecksum) s.(st_asOf) s.(st_currency) cash equity long short gross main).
  assert (Hsame : fields_same f s) by (by split).
  destruct (seal_same f s Hsame) as (Sid & Shash & Sbytes). rewrite <- He in Sid, Shash, Sbytes.
  assert (Hvf : State_validate (Some (seal f)) account binding policy = Ok tt).
  { apply State_validate_iff, (valid_same f s); [done|]. by rewrite <- He. }
  exists (seal f). split; [|by split; [|split; [|split]]]. unfold StateFromCanonical.
  apply reject_pass; [by rewrite (bool_decide_eq_false_2 _ Hid), Hh, (proj2 (Nat.eqb_neq _ _) Hb)|].
  rewrite Hdec. apply reject_pass; [by rewrite Heof|].
  do 3 (eapply bind_pass; [apply parse_uuid_string|]).
  eapply bind_pass; [exact (f_equal (fun o => match o with Some t => Ok t | None => _ end) Hparse)|].
  eapply bind_pass; [exact Hcash|]. eapply bind_pass; [exact Hequity|]. eapply bind_pass; [exact Hlong|].
  eapply bind_pass; [exact Hshort|]. eapply bind_pass; [exact Hgross|]. eapply bind_pass; [exact Hmain|].
  apply reject_pass; [by rewrite eq_self|].
  apply reject_pass; [exact (rebuilt_identity f s Sid Shash Sbytes)|].
  eapply bind_pass; [apply wrap_Ok; exact Hvf|]. reflexivity.
Qed.

End state.
