(* ===== verification/CapitalAssessmentProofs.v ===== *)
(** * Proofs about the capital assessment

    The decision chain of [Assess] against a specification on exact rationals,
    and the meaning of the buying power it reports. *)

From S2P Require Import Prelude GoStd GoText Externals Decimals EconomicId TextProofs Account Instrument.
From S2P Require Import ProjectionPayload Checkpoint CapitalPolicy CapitalState CapitalAssessment.
From S2P Require Import CapitalPolicyProofs CapitalStateProofs.
From Stdlib Require Import Qround Qpower.

Local Open Scope Q_scope.

#[local] Opaque DeterministicUUID Sum256 json_struct.

(** ** Rounding up to twelve places *)

Definition ceil12 (q : Q) : Q := inject_Z (Qceiling (q * inject_Z (10 ^ 12))) / inject_Z (10 ^ 12).

#[global] Instance ceil12_proper : Proper (Qeq ==> Qeq) ceil12.
Proof. intros p q H. unfold ceil12. by rewrite H. Qed.

Lemma Qceiling_unique q (k : Z) : q <= inject_Z k -> inject_Z k < q + 1 -> Qceiling q = k.
Proof.
  intros H1 H2. pose proof (Qle_ceiling q) as H3. pose proof (Qceiling_lt q) as H4.
  unfold Z.sub in H4. rewrite inject_Z_plus in H4. change (inject_Z (- (1))) with (- (1)) in H4.
  assert (Ha : inject_Z k < inject_Z (Qceiling q + 1)) by (rewrite inject_Z_plus; change (inject_Z 1) with 1; lra).
  assert (Hb : inject_Z (Qceiling q) < inject_Z (k + 1)) by (rewrite inject_Z_plus; change (inject_Z 1) with 1; lra).
  rewrite <- Zlt_Qlt in Ha, Hb. lia.
Qed.

Section rounding.
Context `{DL : DecimalLaws}.

Lemma val_RoundCeil v : val (RoundCeil v 12) == ceil12 (val v).
Proof.
  destruct (RoundCeil_grid v 12) as [k Hk]. destruct (RoundCeil_near v 12) as [H1 H2].
  change ((10 # 1) ^ (- (12))) with (1 # 1000000000000) in *. unfold ceil12.
  change (inject_Z (10 ^ 12)) with (1000000000000 # 1).
  rewrite (Qceiling_unique (val v * (1000000000000 # 1)) k); [rewrite Hk; field|lra|lra].
Qed.

Lemma val_nonnegative `{E : Externals} `{L : !ExternalLaws} v : val (nonnegative v) == positive_part (val v).
Proof.
  unfold nonnegative, positive_part. destruct (IsNegative v) eqn:Hn; dec_bools.
  - rewrite val_Zero. destruct (Qlt_le_dec 0 (val v)); lra.
  - destruct (Qlt_le_dec 0 (val v)); lra.
Qed.
End rounding.

Lemma ceil12_ge q : q <= ceil12 q.
Proof.
  unfold ceil12. pose proof (Qle_ceiling (q * inject_Z (10 ^ 12))) as H.
  change (inject_Z (10 ^ 12)) with (1000000000000 # 1) in *. apply Qle_shift_div_l; [reflexivity|done].
Qed.

(** ** The specification *)

Section spec.
Context {E : Externals}.

Definition exceeds (a b : Q) : bool := if Qlt_le_dec b a then true else false.

Definition direction_ratio (r : Profile) (d : ExposureDirection) : Q :=
  match d with
  | ExposureIncreaseLong => val r.(prof_InitialLong)
  | ExposureIncreaseShort => val r.(prof_InitialShort)
  | _ => 0
  end.

(** Exposure after the proposal. *)
Definition post_long (s : State) (d : ExposureDirection) (n : Q) : Q :=
  match d with
  | ExposureIncreaseLong => val s.(st_longExposure) + n
  | ExposureReduceLong => val s.(st_longExposure) - n
  | _ => val s.(st_longExposure)
  end.
Definition post_short (s : State) (d : ExposureDirection) (n : Q) : Q :=
  match d with
  | ExposureIncreaseShort => val s.(st_shortExposure) + n
  | ExposureReduceShort => val s.(st_shortExposure) - n
  | _ => val s.(st_shortExposure)
  end.

Definition initial_requirement (r : Profile) (s : State) : Q :=
  ceil12 (val s.(st_longExposure) * val r.(prof_InitialLong) + val s.(st_shortExposure) * val r.(prof_InitialShort)).

(** What an assessment must decide, for a margin profile [r], a capital state
    and a proposed notional: reductions are admitted; an increase needs a state
    that meets its maintenance, settled cash under the cash profile, equity for
    the old and the new initial margin, a gross exposure within the leverage of
    the profile, and equity for the maintenance of the result. *)
Definition admission (r : Profile) (s : State) (d : ExposureDirection) (n : Q) : Decision * ReasonCode :=
  let equity := val s.(st_equity) in
  if r.(prof_Unlimited) then (DecisionAdmitted, ReasonStressUnbounded)
  else if bool_decide (d = ExposureIncreaseShort) && negb r.(prof_AllowShort)
  then (DecisionRejected, ReasonShortNotSupported)
  else if isExposureReduction d then (DecisionAdmitted, ReasonAdmitted)
  else if exceeds (val s.(st_maintenanceRequirement)) equity then (DecisionRejected, ReasonMaintenanceBreach)
  else if bool_decide (r.(prof_Name) = MarginProfileCash) && exceeds n (val s.(st_cash))
  then (DecisionRejected, ReasonInsufficientSettledCash)
  else if exceeds (initial_requirement r s + ceil12 (n * direction_ratio r d)) equity
  then (DecisionRejected, ReasonInsufficientBuyingPower)
  else if exceeds (val s.(st_grossExposure) + n) (equity * val r.(prof_MaximumGross))
  then (DecisionRejected, ReasonGrossExposureBreach)
  else if exceeds (ceil12 (exact_maintenance r (post_long s d n) (post_short s d n))) equity
  then (DecisionRejected, ReasonMaintenanceBreach)
  else (DecisionAdmitted, ReasonAdmitted).

Lemma exceeds_iff a b c d : (b < a <-> d < c) -> exceeds a b = exceeds c d.
Proof. unfold exceeds. destruct (Qlt_le_dec b a), (Qlt_le_dec d c); intros []; try done; exfalso; lra || naive_solver lra. Qed.

#[global] Instance exceeds_proper : Proper (Qeq ==> Qeq ==> eq) exceeds.
Proof. intros a a' Ha b b' Hb. apply exceeds_iff. rewrite Ha, Hb. done. Qed.
End spec.

Section assess.
Context {E : Externals} {L : ExternalLaws}.

Lemma GreaterThan_exceeds a b : GreaterThan a b = exceeds (val a) (val b).
Proof.
  unfold exceeds. pose proof (GreaterThan_true a b) as H. destruct (Qlt_le_dec (val b) (val a)); [tauto|].
  apply GreaterThan_false. done.
Qed.
Lemma LessThan_exceeds a b : LessThan a b = exceeds (val b) (val a).
Proof.
  unfold exceeds. pose proof (LessThan_true a b) as H. destruct (Qlt_le_dec (val a) (val b)); [tauto|].
  destruct (LessThan a b); [|done]. assert (val a < val b) by tauto. lra.
Qed.

(** ** The reviewed ratios *)

Definition increase (r : Profile) (d : ExposureDirection) : Prop :=
  d = ExposureIncreaseLong \/ (d = ExposureIncreaseShort /\ r.(prof_AllowShort) = true).

(** Every initial ratio of a bounded profile is a fraction with numerator one
    or three; no cash reserve is configured. *)
Lemma reviewed_ratio r d : r ∈ reviewedProfiles -> r.(prof_Unlimited) = false -> increase r d ->
  exists p q : positive, (p <= 3)%positive /\ direction_ratio r d == inject_Z (Zpos p) / inject_Z (Zpos q).
Proof.
  intros Hr Hu Hd. unfold reviewedProfiles in Hr. rewrite !elem_of_cons in Hr.
  destruct Hr as [-> |[-> |[-> |[-> |Hr]]]]; [..|by apply elem_of_nil in Hr]; cbn in Hu; try done;
    destruct Hd as [-> |[-> Ha]]; cbn in *; try done.
  - exists 1%positive, 1%positive. split; [lia|]. rewrite ?val_New, ?val_NewFromInt. reflexivity.
  - exists 3%positive, 20%positive. split; [lia|]. rewrite ?val_New, ?val_NewFromInt. reflexivity.
  - exists 3%positive, 10%positive. split; [lia|]. rewrite ?val_New, ?val_NewFromInt. reflexivity.
  - exists 1%positive, 2%positive. split; [lia|]. rewrite ?val_New, ?val_NewFromInt. reflexivity.
  - exists 3%positive, 2%positive. split; [lia|]. rewrite ?val_New, ?val_NewFromInt. reflexivity.
Qed.

Lemma reviewed_reserve r : r ∈ reviewedProfiles -> val r.(prof_CashReserve) == 0.
Proof.
  intros Hr. unfold reviewedProfiles in Hr. rewrite !elem_of_cons in Hr.
  destruct Hr as [-> |[-> |[-> |[-> |Hr]]]]; [..|by apply elem_of_nil in Hr]; cbn; apply val_Zero.
Qed.

Lemma ratio_pos r d : r ∈ reviewedProfiles -> r.(prof_Unlimited) = false -> increase r d -> 0 < direction_ratio r d.
Proof.
  intros Hr Hu Hd. destruct (reviewed_ratio r d Hr Hu Hd) as (p & q & _ & ->).
  apply Qlt_shift_div_l; [reflexivity|]. rewrite Qmult_0_l. reflexivity.
Qed.

(** ** The amounts *)

Record priced (r : Profile) (s : State) (d : ExposureDirection) (n : Q) (m : amounts) : Prop := {
  pr_current : val m.(am_CurrentInitialRequirement) == initial_requirement r s;
  pr_requested : val m.(am_RequestedInitialMargin) == ceil12 (n * direction_ratio r d);
  pr_headroom : val m.(am_InitialMarginHeadroom) == positive_part (val s.(st_equity) - initial_requirement r s);
  pr_gross : val m.(am_GrossHeadroom) ==
             positive_part (val s.(st_equity) * val r.(prof_MaximumGross) - val s.(st_grossExposure));
  pr_maintenance : val m.(am_PostMaintenanceRequirement) ==
                   ceil12 (exact_maintenance r (post_long s d n) (post_short s d n));
  pr_post_gross : val m.(am_PostGrossExposure) == post_long s d n + post_short s d n;
}.

#[global] Instance positive_part_proper : Proper (Qeq ==> Qeq) positive_part.
Proof.
  intros a b Hab. unfold positive_part. destruct (Qlt_le_dec 0 a), (Qlt_le_dec 0 b); lra.
Qed.

Lemma initial_ratio_val q r d ratio : profile_same q r -> initial_ratio q d = Some ratio -> val ratio == direction_ratio r d.
Proof.
  intros Hs. unfold initial_ratio, direction_ratio. destruct d; cbn [negb]; try (intros [= <-]; apply val_Zero).
  - intros [= <-]. apply Hs.
  - destruct (prof_AllowShort q); [|done]. intros [= <-]. apply Hs.
Qed.

Lemma bounded_amounts_priced q r s d n ratio m : profile_same q r -> initial_ratio q d = Some ratio ->
  bounded_amounts q s 12 d n ratio = Ok m -> priced r s d (val n) m.
Proof.
  intros Hs Hratio H. pose proof (initial_ratio_val q r d ratio Hs Hratio) as Hval. unfold bounded_amounts in H. inv_ok H.
  destruct (postDirectionalExposure s d n) as [long short] eqn:Hpost. inv_ok H. subst m.
  pose proof Hs as [_ Hil His Hml Hms Hmg _ _ _]. unfold same_value in *.
  assert (Hcur : val (current_requirement q s 12) == initial_requirement r s).
  { unfold current_requirement, roundCapitalUp, initial_requirement. rewrite val_RoundCeil. dec_push.
    by rewrite Hil, His. }
  assert (Hpl : val long == post_long s d (val n) /\ val short == post_short s d (val n)).
  { unfold postDirectionalExposure in Hpost. unfold post_long, post_short.
    destruct d; simplify_eq/=; dec_push; by split. }
  destruct Hpl as [Hpl Hps].
  split; cbn [am_CurrentInitialRequirement am_RequestedInitialMargin am_InitialMarginHeadroom am_GrossHeadroom
              am_PostMaintenanceRequirement am_PostGrossExposure].
  - done.
  - unfold roundCapitalUp. rewrite val_RoundCeil. dec_push. by rewrite Hval.
  - rewrite val_nonnegative. dec_push. by rewrite Hcur.
  - unfold gross_headroom. rewrite val_nonnegative. dec_push. by rewrite Hmg.
  - unfold roundCapitalUp, exact_maintenance. rewrite val_RoundCeil. dec_push.
    by rewrite Hpl, Hps, Hml, Hms.
  - unfold postGrossExposure. rewrite Hpost. dec_push. by rewrite Hpl, Hps.
Qed.

Lemma bounded_amounts_ok q s d n ratio : exists m, bounded_amounts q s 12 d n ratio = Ok m.
Proof.
  unfold bounded_amounts, checked_Div. destruct (postDirectionalExposure s d n) as [long short].
  destruct (IsPositive ratio) eqn:Hp; cbn; [|eauto]. dec_bools.
  destruct (IsZero ratio) eqn:Hz; [dec_bools; lra|]. cbn. eauto.
Qed.

(** ** The decision *)

Lemma margin_exceeds need equity current : 0 < need ->
  exceeds need (positive_part (equity - current)) = exceeds (current + need) equity.
Proof.
  intros Hn. apply exceeds_iff. unfold positive_part. destruct (Qlt_le_dec 0 (equity - current)); split; lra.
Qed.

Lemma decide_bounded_admission input q r s m :
  r ∈ reviewedProfiles -> profile_same q r -> r.(prof_Unlimited) = false ->
  q.(prof_Name) = input.(ain_Binding).(bind_Profile) ->
  ExposureDirection_IsValid input.(ain_Direction) = true -> 0 < val input.(ain_ProposedNotional) ->
  initial_ratio q input.(ain_Direction) <> None ->
  priced r s input.(ain_Direction) (val input.(ain_ProposedNotional)) m ->
  decide_bounded input q s m = admission r s input.(ain_Direction) (val input.(ain_ProposedNotional)).
Proof.
  intros Hr Hs Hu Hname Hd Hn Hratio [Hcur Hreq Hhead Hgross Hmain _]. unfold decide_bounded, admission.
  set (d := input.(ain_Direction)) in *. set (n := input.(ain_ProposedNotional)) in *. rewrite Hu.
  assert (Hallow : bool_decide (d = ExposureIncreaseShort) && negb r.(prof_AllowShort) = false).
  { case_bool_decide as Hdd; [|done]. rewrite Hdd in Hratio. cbn in Hratio. rewrite <- (ps_short _ _ Hs).
    by destruct (prof_AllowShort q). }
  rewrite Hallow. destruct (isExposureReduction d) eqn:Hred; [done|].
  assert (Hinc : increase r d).
  { unfold increase. destruct d; try done; [by left|right]. split; [done|].
    destruct (prof_AllowShort r); [done|]. by rewrite bool_decide_eq_true_2 in Hallow. }
  pose proof (ratio_pos r d Hr Hu Hinc) as Hpos.
  assert (Hneed : 0 < ceil12 (val n * direction_ratio r d)).
  { eapply Qlt_le_trans; [|apply ceil12_ge]. by apply Qmult_lt_0_compat. }
  rewrite !GreaterThan_exceeds, LessThan_exceeds. dec_push. pose proof (ps_reserve _ _ Hs) as Hresv. unfold same_value in Hresv.
  rewrite Hreq, Hhead, Hgross, Hmain, Hresv, (reviewed_reserve r Hr), (margin_exceeds _ _ _ Hneed).
  rewrite (margin_exceeds (val n)) by done.
  assert (Hcash : (bool_decide (input.(ain_Binding).(bind_Profile) = MarginProfileCash) && bool_decide (d = ExposureIncreaseLong))
                  = bool_decide (r.(prof_Name) = MarginProfileCash)).
  { rewrite <- Hname, (ps_name _ _ Hs). destruct (decide (r.(prof_Name) = MarginProfileCash)) as [Hc|Hc];
      [|by rewrite (bool_decide_eq_false_2 _ Hc)].
    rewrite (bool_decide_eq_true_2 _ Hc). apply bool_decide_eq_true_2. destruct Hinc as [?|[_ Ha]]; [done|].
    exfalso. unfold reviewedProfiles in Hr. rewrite !elem_of_cons in Hr.
    destruct Hr as [-> |[-> |[-> |[-> |Hr]]]]; [..|by apply elem_of_nil in Hr]; done. }
  rewrite Hcash. destruct (exceeds (val (st_maintenanceRequirement s)) (val (st_equity s))); [done|].
  destruct (bool_decide (r.(prof_Name) = MarginProfileCash)); cbn [andb]; [|reflexivity]. destruct (exceeds (val n) (val (st_cash s))) eqn:Hc; [done|].
  assert (Hres : exceeds (val (bind_Tier (ain_Binding input)) * 0) (val (st_cash s) - val n) = false).
  { unfold exceeds in *. destruct (Qlt_le_dec _ _) in Hc; [done|]. destruct (Qlt_le_dec _ _); [|done]. exfalso.
    rewrite Qmult_0_r in *. lra. }
  by rewrite Hres.
Qed.

(** ** Assess *)

Definition sealed (f : AssessmentFields) : Assessment := {|
  as_fields := f;
  as_ID := DeterministicUUID assessmentDomain [EncodeToString (Sum256 (assessment_canonical f))];
  as_canonicalBytes := assessment_canonical f;
  as_hash := EncodeToString (Sum256 (assessment_canonical f)) |}.

Lemma sealAssessment_Ok f input a : sealAssessment f input = Ok a ->
  a = sealed f /\
  Assessment_Validate (Some (sealed f)) input.(ain_Account) input.(ain_Binding) input.(ain_Policy) input.(ain_State) = Ok tt.
Proof. unfold sealAssessment. intros H. inv_ok H. destruct x. by subst a. Qed.

(** What the validation of the input establishes. *)
Record assessable (input : AssessmentInput) (p : Policy) (s : State) (q r : Profile) : Prop := {
  ab_state : input.(ain_State) = Some s;
  ab_bound : bound input.(ain_Binding) input.(ain_Account) p;
  ab_valid : state_valid s input.(ain_Account) input.(ain_Binding) (Some p);
  ab_profile : Policy_Profile (Some p) input.(ain_Binding).(bind_Profile) = (q, true);
  ab_name : q.(prof_Name) = input.(ain_Binding).(bind_Profile);
  ab_reviewed : r ∈ reviewedProfiles /\ r.(prof_Name) = input.(ain_Account).(acct_MarginProfile) /\ profile_same q r;
  ab_direction : ExposureDirection_IsValid input.(ain_Direction) = true;
  ab_notional : 0 < val input.(ain_ProposedNotional) /\ numeric_38_12 (val input.(ain_ProposedNotional));
  ab_reduction :
    (input.(ain_Direction) = ExposureReduceLong -> val input.(ain_ProposedNotional) <= val s.(st_longExposure)) /\
    (input.(ain_Direction) = ExposureReduceShort -> val input.(ain_ProposedNotional) <= val s.(st_shortExposure));
  ab_class : (r.(prof_Unlimited) = false /\ input.(ain_Account).(acct_Environment) = AccountEnvironmentPaperScored /\
              input.(ain_Account).(acct_EvidenceClass) = PaperEvidenceClassPromotion) \/
             (r.(prof_Unlimited) = true /\ input.(ain_Account).(acct_Environment) = AccountEnvironmentPaperStress);
}.

Lemma validate_assessable input p : reviewed_policy p -> input.(ain_Policy) = Some p ->
  validateAssessmentInput input = Ok tt -> exists s q r, assessable input p s q r.
Proof.
  intros Hp Hpol H. unfold validateAssessmentInput in H. rewrite Hpol in H. inv_ok H.
  repeat match goal with u : unit |- _ => destruct u end.
  match goal with Hs : ain_State _ = Some ?x |- _ => rename Hs into Hst; rename x into s end. rewrite Hst in *.
  unfold check_reduction in H. inv_ok H. split_bools. dec_bools.
  match goal with Hb : Binding_Validate _ _ _ = Ok tt |- _ => apply Binding_Validate_bound in Hb as Hbound end.
  match goal with Hv : State_validate _ _ _ _ = Ok tt |- _ => apply State_validate_iff in Hv as Hvalid end.
  destruct (bd_class _ _ _ Hbound) as (q & Hq & Hclass).
  destruct (Policy_Profile_reviewed _ _ _ Hp Hq) as (Hname & _ & r & Hr & Hrn & Hrs).
  exists s, q, r. split; try done.
  - split; [done|]. split; [by rewrite Hrn, (bd_profile _ _ _ Hbound)|done].
  - split; [done|]. by apply validCapitalAmount_iff.
  - split; intros Hd; rewrite Hd in *;
      match goal with Hx : bool_decide (?x = ?x) && _ = false |- _ => rewrite eq_self in Hx; by apply GreaterThan_false in Hx end.
  - rewrite <- (ps_unlimited _ _ Hrs). naive_solver.
Qed.

Lemma Assess_cases input p s q r : assessable input p s q r -> reviewed_policy p -> input.(ain_Policy) = Some p ->
  validateAssessmentInput input = Ok tt ->
  exists m, Assess input =
    sealAssessment (assessment_of input m (admission r s input.(ain_Direction) (val input.(ain_ProposedNotional))).1
                      (admission r s input.(ain_Direction) (val input.(ain_ProposedNotional))).2 r.(prof_Unlimited)) input /\
    ((r.(prof_Unlimited) = false /\ exists ratio, initial_ratio q input.(ain_Direction) = Some ratio /\
       bounded_amounts q s 12 input.(ain_Direction) input.(ain_ProposedNotional) ratio = Ok m) \/
     (r.(prof_Unlimited) = false /\ initial_ratio q input.(ain_Direction) = None /\
        m = MkAmounts (current_requirement q s 12) ZeroValue
              (nonnegative (Sub s.(st_equity) (current_requirement q s 12))) (gross_headroom q s) ZeroValue ZeroValue ZeroValue) \/
     (r.(prof_Unlimited) = true /\
        m = MkAmounts ZeroValue ZeroValue ZeroValue ZeroValue ZeroValue
              (postGrossExposure s input.(ain_Direction) input.(ain_ProposedNotional)) ZeroValue)).
Proof.
  intros [Hst _ _ Hq Hname (Hr & _ & Hs) Hd [Hn _] _ _] Hp Hpol Hv. unfold Assess. rewrite Hv, Hpol, Hq, Hst.
  cbn [wrap mbind outcome_bind deref Policy_Scale]. rewrite (rp_scale _ Hp). unfold assess_state.
  rewrite (ps_unlimited _ _ Hs). destruct (r.(prof_Unlimited)) eqn:Hu.
  - eexists. split; [|right; right; split; reflexivity]. unfold admission. by rewrite Hu.
  - destruct (initial_ratio q input.(ain_Direction)) as [ratio|] eqn:Hratio.
    + destruct (bounded_amounts_ok q s input.(ain_Direction) input.(ain_ProposedNotional) ratio) as [m Hm]. rewrite Hm.
      cbn [mbind outcome_bind]. exists m. split; [|left; eauto].
      pose proof (bounded_amounts_priced _ _ _ _ _ _ _ Hs Hratio Hm) as Hpriced.
      assert (Hsome : initial_ratio q input.(ain_Direction) <> None) by (by rewrite Hratio).
      rewrite (decide_bounded_admission input q r s m Hr Hs Hu Hname Hd Hn Hsome Hpriced).
      by destruct (admission _ _ _ _).
    + eexists. split; [|right; left; repeat split; reflexivity]. unfold admission, initial_ratio in *.
      rewrite Hu. destruct input.(ain_Direction); try done. rewrite (ps_short _ _ Hs) in Hratio.
      destruct (prof_AllowShort r); [done|]. rewrite eq_self. done.
Qed.

(** Everything a produced assessment rests on. *)
Lemma Assess_sound p input a : reviewed_policy p -> input.(ain_Policy) = Some p -> Assess input = Ok a ->
  exists s q r m, assessable input p s q r /\
    a = sealed (assessment_of input m (admission r s input.(ain_Direction) (val input.(ain_ProposedNotional))).1
                  (admission r s input.(ain_Direction) (val input.(ain_ProposedNotional))).2 r.(prof_Unlimited)).
Proof.
  intros Hp Hpol H.
  assert (Hv : validateAssessmentInput input = Ok tt).
  { unfold Assess in H. inv_ok H. by destruct x. }
  destruct (validate_assessable input p Hp Hpol Hv) as (s & q & r & Hab).
  destruct (Assess_cases input p s q r Hab Hp Hpol Hv) as (m & Ha & _). rewrite Ha in H.
  apply sealAssessment_Ok in H as [-> _]. by exists s, q, r, m.
Qed.

Lemma assessable_promotion input p s q r m d c : assessable input p s q r ->
  Assessment_PromotionEligible (Some (sealed (assessment_of input m d c r.(prof_Unlimited)))) = negb r.(prof_Unlimited).
Proof. intros [_ _ _ _ _ _ _ _ _ Hclass]. cbn. destruct Hclass as [(-> & -> & ->)|(-> & _)]; done. Qed.

(** C8: every assessment that is produced decides what the specification
    [admission] decides on exact rationals for the reviewed margin profile of the
    account, with the same reason; it is unbounded exactly under the unlimited
    profile, and exactly the bounded assessments are promotion evidence. The
    reserve rejection of the code is unreachable under the reviewed policy. *)
Theorem assess_admission pin p input a :
  NewPolicy pin = Ok p -> input.(ain_Policy) = Some p -> Assess input = Ok a ->
  exists s r, input.(ain_State) = Some s /\ r ∈ reviewedProfiles /\
    r.(prof_Name) = input.(ain_Account).(acct_MarginProfile) /\
    (a.(as_Decision), a.(as_Reason)) = admission r s input.(ain_Direction) (val input.(ain_ProposedNotional)) /\
    a.(as_Unbounded) = r.(prof_Unlimited) /\
    Assessment_PromotionEligible (Some a) = negb r.(prof_Unlimited) /\ a.(as_Reason) <> ReasonReserveBreach.
Proof.
  intros Hpin Hpol H. destruct (NewPolicy_reviewed _ _ Hpin) as [_ Hp].
  destruct (Assess_sound p input a Hp Hpol H) as (s & q & r & m & Hab & ->).
  pose proof (ab_reviewed _ _ _ _ _ Hab) as (Hr & Hrn & _).
  exists s, r. split_and!; try done.
  - apply Hab.
  - symmetry. apply surjective_pairing.
  - by eapply assessable_promotion.
  - cbn. unfold admission. repeat case_match; done.
Qed.

(** ** Buying power *)

Definition grid (q : Q) : Prop := exists k : Z, q == inject_Z k * (1 # 1000000000000).

#[global] Instance grid_proper : Proper (Qeq ==> iff) grid.
Proof. intros a b H. unfold grid. split; intros [k Hk]; exists k; [by rewrite <- H|by rewrite H]. Qed.

Lemma numeric_grid q : numeric_38_12 q -> grid q.
Proof. intros [[k Hk] _]. exists k. rewrite Hk. change (inject_Z (10 ^ 12)) with (1000000000000 # 1). field. Qed.

Lemma grid_plus a b : grid a -> grid b -> grid (a + b).
Proof. intros [j Hj] [k Hk]. exists (j + k)%Z. rewrite inject_Z_plus, Hj, Hk. ring. Qed.
Lemma grid_opp a : grid a -> grid (- a).
Proof. intros [j Hj]. exists (- j)%Z. rewrite inject_Z_opp, Hj. ring. Qed.
Lemma grid_minus a b : grid a -> grid b -> grid (a - b).
Proof. intros. apply grid_plus; [done|by apply grid_opp]. Qed.
Lemma grid_scale a (z : Z) : grid a -> grid (a * inject_Z z).
Proof. intros [j Hj]. exists (j * z)%Z. rewrite inject_Z_mult, Hj. ring. Qed.
Lemma grid_zero : grid 0.
Proof. by exists 0%Z. Qed.
Lemma grid_positive_part a : grid a -> grid (positive_part a).
Proof. unfold positive_part. destruct (Qlt_le_dec 0 a); [done|]. intros _. apply grid_zero. Qed.
Lemma grid_ceil q : grid (ceil12 q).
Proof. exists (Qceiling (q * inject_Z (10 ^ 12))). unfold ceil12. change (inject_Z (10 ^ 12)) with (1000000000000 # 1). field. Qed.

Lemma inject_le (j k : Z) : inject_Z j < inject_Z k + 1 -> (j <= k)%Z.
Proof.
  intros H. assert (Hlt : inject_Z j < inject_Z (k + 1)) by (rewrite inject_Z_plus; exact H).
  rewrite <- Zlt_Qlt in Hlt. lia.
Qed.

(** Rounding the quotient to sixteen places before rounding it down does not
    move a capacity across a multiple of 1e-12, for the reviewed ratios. *)
Lemma capacity_exact (headroom ratio n : dec) (p q : positive) :
  (p <= 3)%positive -> val ratio == inject_Z (Zpos p) / inject_Z (Zpos q) -> grid (val headroom) -> grid (val n) ->
  val n <= val (RoundFloor (Div headroom ratio) 12) <-> val n * val ratio <= val headroom.
Proof.
  intros Hp Hratio [H HH] [N HN]. set (P := inject_Z (Zpos p)) in *. set (Q' := inject_Z (Zpos q)) in *.
  assert (HP : 1 <= P /\ P <= 3).
  { split; unfold P; [change 1 with (inject_Z 1)|change 3 with (inject_Z 3)]; rewrite <- Zle_Qle; lia. }
  assert (HQ : 1 <= Q') by (unfold Q'; change 1 with (inject_Z 1); rewrite <- Zle_Qle; lia).
  assert (Hrz : ~ val ratio == 0).
  { rewrite Hratio. intros Hz. assert (Hm : P / Q' * Q' == P) by (field; lra). rewrite Hz in Hm. lra. }
  destruct (Div_grid headroom ratio Hrz) as [j Hj]. pose proof (Div_half headroom ratio Hrz) as Hd.
  destruct (RoundFloor_grid (Div headroom ratio) 12) as [k Hk]. destruct (RoundFloor_near (Div headroom ratio) 12) as [Hf1 Hf2].
  change ((10 # 1) ^ (- (12))) with (1 # 1000000000000) in *. change ((10 # 1) ^ (-16)) with (1 # 10000000000000000) in *.
  set (c := val (Div headroom ratio)) in *.
  assert (Hexact : val headroom / val ratio == inject_Z H * (1 # 1000000000000) * Q' / P).
  { rewrite HH, Hratio. field. split; lra. }
  rewrite Hexact in Hd. set (x := inject_Z H * (1 # 1000000000000) * Q' / P) in *. apply Qabs_Qle_condition in Hd as [Hd1 Hd2].
  assert (HxP : x * P == inject_Z H * (1 # 1000000000000) * Q') by (unfold x; field; lra).
  assert (Hcmp : val n * val ratio <= val headroom <-> (N * Zpos p <= H * Zpos q)%Z).
  { rewrite Hratio, HN, HH, Zle_Qle, !inject_Z_mult. fold P Q'.
    assert (Hm : inject_Z N * (1 # 1000000000000) * (P / Q') * Q' == inject_Z N * P * (1 # 1000000000000)) by (field; lra).
    split; intros Hle.
    - apply (Qmult_le_compat_r _ _ Q') in Hle; [|lra]. lra.
    - apply Qmult_le_r with Q'; lra. }
  rewrite Hcmp, Hk, HN. split.
  - intros Hle. apply inject_le. rewrite !inject_Z_mult. fold P Q'.
    assert (Hn : inject_Z N * (1 # 1000000000000) <= x + (1 # 2) * (1 # 10000000000000000)) by lra.
    apply (Qmult_le_compat_r _ _ P) in Hn; [|lra]. lra.
  - intros Hle. apply Qmult_le_compat_r; [|lra]. rewrite <- Zle_Qle. apply inject_le.
    assert (Hnc : inject_Z N * (1 # 1000000000000) <= c); [|lra].
    destruct (Z.eq_dec (N * Zpos p) (H * Zpos q)) as [He|He].
    + assert (Hx : x == inject_Z N * (1 # 1000000000000)).
      { apply (f_equal inject_Z) in He. rewrite !inject_Z_mult in He. fold P Q' in He.
        assert (Heq : inject_Z N * P == inject_Z H * Q') by (by rewrite He).
        assert (HxP' : x * P == inject_Z N * (1 # 1000000000000) * P) by (rewrite HxP; lra).
        apply Qmult_inj_r in HxP'; lra. }
      assert (Hjn : j = (N * 10000)%Z).
      { assert (Habs : Qabs (inject_Z (j - N * 10000)) < 1).
        { unfold Z.sub. rewrite inject_Z_plus, inject_Z_opp, inject_Z_mult. change (inject_Z 10000) with (10000 # 1).
          apply Qabs_case; intros; lra. }
        apply inject_small in Habs. lia. }
      rewrite Hj, Hjn, inject_Z_mult. change (inject_Z 10000) with (10000 # 1). lra.
    + assert (Hlt : (N * Zpos p + 1 <= H * Zpos q)%Z) by lia. rewrite Zle_Qle, inject_Z_plus, !inject_Z_mult in Hlt. fold P Q' in Hlt.
      change (inject_Z 1) with 1 in Hlt. apply Qle_trans with (x - (1 # 10000000000000000)); [|lra].
      apply Qmult_le_r with P; [lra|]. lra.
Qed.

Lemma ceil12_le_grid x h : grid h -> ceil12 x <= h <-> x <= h.
Proof.
  intros [k Hk]. split; [intros; eapply Qle_trans; [apply ceil12_ge|done]|]. intros Hx. rewrite Hk in *. unfold ceil12.
  change (inject_Z (10 ^ 12)) with (1000000000000 # 1). apply Qle_shift_div_r; [reflexivity|].
  assert (Hz : (Qceiling (x * (1000000000000 # 1)) <= k)%Z).
  { rewrite <- (Qceiling_Z k). apply Qceiling_resp_le. lra. }
  rewrite Zle_Qle in Hz. lra.
Qed.

Lemma val_Min_le a b x : x <= val (Min a b) <-> x <= val a /\ x <= val b.
Proof. destruct (val_Min a b) as [[? ->]|[? ->]]; split; intros; lra. Qed.

Lemma within_positive_part x equity used : 0 < x -> x <= positive_part (equity - used) <-> used + x <= equity.
Proof. intros Hx. unfold positive_part. destruct (Qlt_le_dec 0 (equity - used)); split; lra. Qed.

Lemma exceeds_false a b : exceeds a b = false <-> a <= b.
Proof. unfold exceeds. destruct (Qlt_le_dec b a); split; intros; try done; lra. Qed.

Lemma available_iff q r s d n ratio m :
  r ∈ reviewedProfiles -> profile_same q r -> r.(prof_Unlimited) = false -> increase r d ->
  initial_ratio q d = Some ratio -> bounded_amounts q s 12 d n ratio = Ok m ->
  grid (val s.(st_equity)) -> grid (val n) -> 0 < val n ->
  val n <= val m.(am_AvailableBuyingPower) <->
  initial_requirement r s + ceil12 (val n * direction_ratio r d) <= val s.(st_equity) /\
  val s.(st_grossExposure) + val n <= val s.(st_equity) * val r.(prof_MaximumGross).
Proof.
  intros Hr Hs Hu Hinc Hratio Hm He Hn Hpos. pose proof (bounded_amounts_priced _ _ _ _ _ _ _ Hs Hratio Hm) as [Hcur Hreq Hhead Hgross _ _].
  pose proof (initial_ratio_val q r d ratio Hs Hratio) as Hval. pose proof (ratio_pos r d Hr Hu Hinc) as Hrp.
  destruct (reviewed_ratio r d Hr Hu Hinc) as (p & q' & Hp3 & Hpq).
  assert (Hneed : 0 < val n * direction_ratio r d) by (by apply Qmult_lt_0_compat).
  pose proof (ceil12_ge (val n * direction_ratio r d)) as Hc.
  unfold bounded_amounts in Hm. rewrite (proj2 (IsPositive_true ratio)) in Hm by (by rewrite Hval).
  inv_ok Hm. destruct (postDirectionalExposure s d n) as [long short]. inv_ok Hm. inv_ok H.
  match goal with Hd : checked_Div _ _ = Ok _ |- _ => apply checked_Div_Ok in Hd as [_ Hd]; rename Hd into Hdiv end.
  subst. cbn [am_AvailableBuyingPower am_InitialMarginHeadroom am_GrossHeadroom] in *.
  set (headroom := nonnegative (Sub (st_equity s) (current_requirement q s 12))) in *.
  assert (Hgrid : grid (val headroom)).
  { rewrite Hhead. apply grid_positive_part, grid_minus; [done|]. apply grid_ceil. }
  rewrite val_Min_le, (capacity_exact headroom ratio n p q') by (done || by rewrite Hval).
  rewrite Hval, <- (ceil12_le_grid _ _ Hgrid), Hhead, Hgross, !within_positive_part by lra. tauto.
Qed.

(** C30: the reported buying power is exact. For an increase under a bounded
    profile that supports it, a notional above [AvailableBuyingPower] is always
    rejected, and one within it is never rejected for initial margin or for
    gross exposure: rounding the quotient and the requirement does not move the
    limit, for any of the reviewed ratios. *)
Theorem buying_power_exact pin p input a :
  NewPolicy pin = Ok p -> input.(ain_Policy) = Some p -> Assess input = Ok a ->
  a.(as_Unbounded) = false -> a.(as_Reason) <> ReasonShortNotSupported -> isExposureReduction a.(as_Direction) = false ->
  (val a.(as_AvailableBuyingPower) < val a.(as_ProposedNotional) -> a.(as_Decision) = DecisionRejected) /\
  (val a.(as_ProposedNotional) <= val a.(as_AvailableBuyingPower) ->
     a.(as_Reason) <> ReasonInsufficientBuyingPower /\ a.(as_Reason) <> ReasonGrossExposureBreach).
Proof.
  intros Hpin Hpol H. destruct (NewPolicy_reviewed _ _ Hpin) as [_ Hp].
  assert (Hv : validateAssessmentInput input = Ok tt).
  { unfold Assess in H. inv_ok H. by destruct x. }
  destruct (validate_assessable input p Hp Hpol Hv) as (s & q & r & Hab).
  destruct (Assess_cases input p s q r Hab Hp Hpol Hv) as (m & Ha & Hm). rewrite Ha in H.
  apply sealAssessment_Ok in H as [-> _]. destruct Hab as [_ _ Hval _ _ (Hr & _ & Hs) Hd [Hpos Hn] _ _].
  set (d := input.(ain_Direction)) in *. set (n := input.(ain_ProposedNotional)) in *.
  cbn [sealed as_fields assessment_of as_Unbounded as_Reason as_Direction as_AvailableBuyingPower as_ProposedNotional as_Decision].
  fold d n. intros Hu Hshort Hred. destruct Hm as [(_ & ratio & Hratio & Hm)|[(_ & Hratio & _)|(Hu' & _)]]; [| |congruence].
  - assert (Hinc : increase r d).
    { unfold increase. destruct d; try done; [by left|right]. split; [done|]. rewrite <- (ps_short _ _ Hs).
      cbn in Hratio. by destruct (prof_AllowShort q). }
    pose proof (sv_amounts _ _ _ _ Hval) as Ham. apply Forall_cons in Ham as [_ Ham]. apply Forall_cons in Ham as [Heq _].
    pose proof (available_iff q r s d n ratio m Hr Hs Hu Hinc Hratio Hm (numeric_grid _ Heq) (numeric_grid _ Hn) Hpos) as Hiff.
    rewrite <- !exceeds_false in Hiff. unfold admission. rewrite Hu, Hred.
    assert (Hallow : bool_decide (d = ExposureIncreaseShort) && negb r.(prof_AllowShort) = false).
    { destruct Hinc as [-> |[_ ->]]; [done|apply andb_false_r]. }
    rewrite Hallow. split; intros Hle.
    + assert (Hno : ~ (val n <= val m.(am_AvailableBuyingPower))) by lra. rewrite <- exceeds_false, Hiff in Hno.
      repeat case_match; cbn; try done. exfalso. by apply Hno.
    + apply exceeds_false, Hiff in Hle as [-> ->]. by repeat case_match.
  - exfalso. apply Hshort. unfold admission. rewrite Hu. unfold initial_ratio in Hratio. destruct d; try done.
    rewrite (ps_short _ _ Hs) in Hratio. destruct (prof_AllowShort r); [done|]. by rewrite eq_self.
Qed.

(** ** Every valid input is assessed *)

Definition amount_ok (v : dec) : Prop := numeric_38_12 (val v) /\ 0 <= val v.

(** Large enough for any portfolio, small enough that no product leaves
    NUMERIC(38,12). *)
Definition ceiling : Q := inject_Z (10 ^ 24).

Lemma amount_of v : grid (val v) -> 0 <= val v -> val v <= 12 * ceiling -> amount_ok v.
Proof.
  intros [k Hk] Hpos Hle. split; [|done]. split.
  - exists k. rewrite Hk. change (inject_Z (10 ^ 12)) with (1000000000000 # 1). field.
  - rewrite Qabs_pos by done. eapply Qle_lt_trans; [exact Hle|]. reflexivity.
Qed.

Lemma amount_val v w : val v == val w -> amount_ok w -> amount_ok v.
Proof. intros Hv [Hn Hp]. split; rewrite Hv; done. Qed.

Lemma zero_ok : amount_ok ZeroValue.
Proof. apply amount_of; rewrite val_ZeroValue; [apply grid_zero|done|done]. Qed.

Lemma ceil12_lt q : ceil12 q < q + (1 # 1000000000000).
Proof.
  unfold ceil12. pose proof (Qceiling_lt (q * inject_Z (10 ^ 12))) as H. unfold Z.sub in H. rewrite inject_Z_plus in H.
  change (inject_Z (- (1))) with (- (1)) in H. change (inject_Z (10 ^ 12)) with (1000000000000 # 1) in *.
  apply Qlt_shift_div_r; [reflexivity|]. lra.
Qed.

(** The reviewed ratios are between zero and three halves, leverages are whole
    numbers up to six. *)
Lemma reviewed_bounds r : r ∈ reviewedProfiles ->
  Forall (fun v => 0 <= val v /\ val v <= 3 # 2)
    [r.(prof_InitialLong); r.(prof_InitialShort); r.(prof_MaintenanceLong); r.(prof_MaintenanceShort)] /\
  exists g : Z, (0 <= g <= 6)%Z /\ val r.(prof_MaximumGross) == inject_Z g.
Proof.
  intros Hr. unfold reviewedProfiles in Hr. rewrite !elem_of_cons in Hr.
  destruct Hr as [-> |[-> |[-> |[-> |Hr]]]]; [..|by apply elem_of_nil in Hr]; cbn [prof_InitialLong prof_InitialShort
    prof_MaintenanceLong prof_MaintenanceShort prof_MaximumGross]; (split;
    [repeat apply Forall_cons_2; try apply Forall_nil_2; rewrite ?val_New, ?val_NewFromInt, ?val_Zero; by compute|]).
  - exists 1%Z. by rewrite val_NewFromInt.
  - exists 6%Z. by rewrite val_NewFromInt.
  - exists 2%Z. by rewrite val_NewFromInt.
  - exists 0%Z. by rewrite val_Zero.
Qed.

Lemma scaled_bound a ratio : 0 <= a -> a <= 2 * ceiling -> 0 <= ratio -> ratio <= 3 # 2 -> 0 <= a * ratio /\ a * ratio <= 3 * ceiling.
Proof.
  intros Ha Hc Hr Hr'. split; [by apply Qmult_le_0_compat|].
  apply Qle_trans with (a * (3 # 2)); [rewrite !(Qmult_comm a); by apply Qmult_le_compat_r|lra].
Qed.

Lemma ceil_ok v q : val v == ceil12 q -> 0 <= q -> q <= 6 * ceiling -> amount_ok v.
Proof.
  intros Hv Hq Hc. pose proof (ceil12_ge q). pose proof (ceil12_lt q). assert (1 <= ceiling) by (by compute).
  apply amount_of; rewrite Hv; [apply grid_ceil|lra|lra].
Qed.

(** The facts about a state and a notional the amounts depend on. *)
Record moderate (s : State) (d : ExposureDirection) (n : dec) : Prop := {
  md_equity : grid (val s.(st_equity)) /\ 0 <= val s.(st_equity) /\ val s.(st_equity) <= ceiling;
  md_long : grid (val s.(st_longExposure)) /\ 0 <= val s.(st_longExposure) /\ val s.(st_longExposure) <= ceiling;
  md_short : grid (val s.(st_shortExposure)) /\ 0 <= val s.(st_shortExposure) /\ val s.(st_shortExposure) <= ceiling;
  md_gross : val s.(st_grossExposure) == val s.(st_longExposure) + val s.(st_shortExposure);
  md_notional : grid (val n) /\ 0 < val n /\ val n <= ceiling;
  md_reduction : (d = ExposureReduceLong -> val n <= val s.(st_longExposure)) /\
                 (d = ExposureReduceShort -> val n <= val s.(st_shortExposure));
}.

Lemma post_exposure s d n : moderate s d n ->
  (grid (post_long s d (val n)) /\ 0 <= post_long s d (val n) /\ post_long s d (val n) <= 2 * ceiling) /\
  (grid (post_short s d (val n)) /\ 0 <= post_short s d (val n) /\ post_short s d (val n) <= 2 * ceiling).
Proof.
  intros [_ (Hl1 & Hl2 & Hl3) (Hs1 & Hs2 & Hs3) _ (Hn1 & Hn2 & Hn3) [Hr1 Hr2]]. unfold post_long, post_short.
  assert (0 < ceiling) by (by compute).
  destruct d; try specialize (Hr1 eq_refl); try specialize (Hr2 eq_refl);
    split_and!; auto using grid_plus, grid_minus; lra.
Qed.

Lemma gross_headroom_ok q r s d n : r ∈ reviewedProfiles -> profile_same q r -> moderate s d n ->
  amount_ok (gross_headroom q s) /\ val (gross_headroom q s) <= 6 * ceiling.
Proof.
  intros Hr Hs [(He1 & He2 & He3) (Hl1 & Hl2 & Hl3) (Hs1 & Hs2 & Hs3) Hg _ _].
  destruct (reviewed_bounds r Hr) as [_ (g & Hg6 & Hgv)].
  assert (Hv : val (gross_headroom q s) == positive_part (val s.(st_equity) * inject_Z g - val s.(st_grossExposure))).
  { unfold gross_headroom. rewrite val_nonnegative. dec_push. pose proof (ps_gross _ _ Hs) as Hgs. unfold same_value in Hgs.
    by rewrite Hgs, Hgv. }
  assert (Hle : val (gross_headroom q s) <= 6 * ceiling).
  { rewrite Hv. assert (0 <= ceiling) by (by compute).
    assert (Hz : val s.(st_equity) * inject_Z g <= ceiling * 6).
    { apply Qle_trans with (val s.(st_equity) * 6).
      - rewrite !(Qmult_comm (val _)). apply Qmult_le_compat_r; [|done]. change 6 with (inject_Z 6). rewrite <- Zle_Qle. lia.
      - by apply Qmult_le_compat_r. }
    unfold positive_part. destruct (Qlt_le_dec 0 _); lra. }
  split; [|done]. apply amount_of; [rewrite Hv|rewrite Hv; apply positive_part_nonneg|].
  - apply grid_positive_part, grid_minus; [by apply grid_scale|]. rewrite Hg. by apply grid_plus.
  - assert (0 <= ceiling) by (by compute). lra.
Qed.

Lemma requirement_ok q r s d n : r ∈ reviewedProfiles -> profile_same q r -> moderate s d n ->
  amount_ok (current_requirement q s 12) /\ amount_ok (nonnegative (Sub s.(st_equity) (current_requirement q s 12))).
Proof.
  intros Hr [_ Hil His _ _ _ _ _ _] [(He1 & He2 & He3) (Hl1 & Hl2 & Hl3) (Hs1 & Hs2 & Hs3) _ _ _].
  destruct (reviewed_bounds r Hr) as [Hb _]. apply Forall_cons in Hb as [[Hb1 Hb2] Hb]. apply Forall_cons in Hb as [[Hb3 Hb4] _].
  unfold same_value in *. assert (0 <= ceiling) by (by compute).
  destruct (scaled_bound (val s.(st_longExposure)) (val r.(prof_InitialLong))); [lra..|].
  destruct (scaled_bound (val s.(st_shortExposure)) (val r.(prof_InitialShort))); [lra..|].
  assert (Hc : val (current_requirement q s 12) == initial_requirement r s).
  { unfold current_requirement, roundCapitalUp, initial_requirement. rewrite val_RoundCeil. dec_push. by rewrite Hil, His. }
  assert (Hok : amount_ok (current_requirement q s 12)) by (eapply ceil_ok; [exact Hc|lra|lra]).
  split; [done|]. destruct Hok as [_ Hpos].
  assert (Hv : val (nonnegative (Sub s.(st_equity) (current_requirement q s 12))) ==
               positive_part (val s.(st_equity) - initial_requirement r s)).
  { rewrite val_nonnegative. dec_push. by rewrite Hc. }
  apply amount_of; rewrite Hv; [|apply positive_part_nonneg|].
  - apply grid_positive_part, grid_minus; [done|apply grid_ceil].
  - rewrite Hc in Hpos. unfold positive_part. destruct (Qlt_le_dec 0 _); lra.
Qed.

Definition amounts_ok (m : amounts) : Prop :=
  Forall amount_ok
    [m.(am_CurrentInitialRequirement); m.(am_RequestedInitialMargin); m.(am_InitialMarginHeadroom); m.(am_GrossHeadroom);
     m.(am_AvailableBuyingPower); m.(am_PostGrossExposure); m.(am_PostMaintenanceRequirement)].

Lemma direction_ratio_bound r d : r ∈ reviewedProfiles -> 0 <= direction_ratio r d /\ direction_ratio r d <= 3 # 2.
Proof.
  intros Hr. destruct (reviewed_bounds r Hr) as [Hb _]. apply Forall_cons in Hb as [? Hb]. apply Forall_cons in Hb as [? _].
  unfold direction_ratio. destruct d; try done.
Qed.

(** Buying power: the smaller of two storable capacities. *)
Lemma capacity_ok headroom gross ratio (p q : positive) : (p <= 3)%positive ->
  val ratio == inject_Z (Zpos p) / inject_Z (Zpos q) -> grid (val headroom) -> 0 <= val headroom ->
  amount_ok gross -> val gross <= 6 * ceiling -> amount_ok (Min gross (RoundFloor (Div headroom ratio) 12)).
Proof.
  intros Hp Hratio Hgrid Hpos [Hgn Hgp] Hle.
  assert (H0 : val Zero <= val (RoundFloor (Div headroom ratio) 12)).
  { apply (capacity_exact headroom ratio Zero p q); [done|done|done|rewrite val_Zero; apply grid_zero|].
    rewrite val_Zero, Qmult_0_l. done. }
  rewrite val_Zero in H0. destruct (RoundFloor_grid (Div headroom ratio) 12) as [k Hk].
  assert (0 <= ceiling) by (by compute).
  destruct (val_Min gross (RoundFloor (Div headroom ratio) 12)) as [[Hm Hv]|[Hm Hv]];
    apply amount_of; rewrite ?Hv; try done; try lra.
  - by apply numeric_grid.
  - exists k. exact Hk.
Qed.

Lemma bounded_ok q r s d n ratio m : r ∈ reviewedProfiles -> profile_same q r -> r.(prof_Unlimited) = false ->
  ExposureDirection_IsValid d = true -> moderate s d n -> initial_ratio q d = Some ratio ->
  bounded_amounts q s 12 d n ratio = Ok m -> amounts_ok m.
Proof.
  intros Hr Hs Hu Hd Hmd Hratio Hm. pose proof (bounded_amounts_priced _ _ _ _ _ _ _ Hs Hratio Hm) as [_ Hreq _ _ Hmain Hpg].
  destruct (requirement_ok q r s d n Hr Hs Hmd) as [Hcur Hhead]. destruct (gross_headroom_ok q r s d n Hr Hs Hmd) as [Hgross Hg6].
  destruct (post_exposure s d n Hmd) as [(Hpl1 & Hpl2 & Hpl3) (Hps1 & Hps2 & Hps3)].
  destruct (direction_ratio_bound r d Hr) as [Hb1 Hb2]. pose proof Hmd as [_ _ _ _ (Hn1 & Hn2 & Hn3) _].
  destruct (reviewed_bounds r Hr) as [Hb _]. do 2 apply Forall_cons in Hb as [_ Hb].
  apply Forall_cons in Hb as [[Hm1 Hm2] Hb]. apply Forall_cons in Hb as [[Hm3 Hm4] _]. assert (0 <= ceiling) by (by compute).
  destruct (scaled_bound (val n) (direction_ratio r d)); [lra..|].
  destruct (scaled_bound (post_long s d (val n)) (val r.(prof_MaintenanceLong))); [lra..|].
  destruct (scaled_bound (post_short s d (val n)) (val r.(prof_MaintenanceShort))); [lra..|].
  assert (Hreqok : amount_ok m.(am_RequestedInitialMargin)) by (eapply ceil_ok; [exact Hreq|lra|lra]).
  assert (Hmainok : amount_ok m.(am_PostMaintenanceRequirement))
    by (eapply ceil_ok; [exact Hmain|unfold exact_maintenance; lra..]).
  assert (Hpgok : amount_ok m.(am_PostGrossExposure)).
  { apply amount_of; rewrite Hpg; [by apply grid_plus|lra|lra]. }
  pose proof (initial_ratio_val q r d ratio Hs Hratio) as Hval.
  unfold bounded_amounts in Hm. inv_ok Hm. destruct (postDirectionalExposure s d n) as [long short]. inv_ok Hm. subst m.
  match goal with Hx : (if IsPositive ratio then _ else _) = Ok _ |- _ => rename Hx into Hav end.
  unfold amounts_ok. cbn [am_CurrentInitialRequirement am_RequestedInitialMargin am_InitialMarginHeadroom am_GrossHeadroom
    am_AvailableBuyingPower am_PostGrossExposure am_PostMaintenanceRequirement] in *.
  repeat apply Forall_cons_2; try apply Forall_nil_2; try assumption.
  destruct (IsPositive ratio) eqn:Hpos; [|inv_ok Hav; by subst]. apply bind_Ok in Hav as (c & [_ ->]%checked_Div_Ok & Hav).
  inv_ok Hav. subst x. dec_bools.
  assert (Hinc : increase r d).
  { unfold increase. destruct d; cbn in Hratio; simplify_eq/=; try (rewrite val_Zero in Hpos; lra); [by left|right].
    split; [done|]. rewrite <- (ps_short _ _ Hs). by destruct (prof_AllowShort q). }
  destruct (reviewed_ratio r d Hr Hu Hinc) as (p & q' & Hp3 & Hpq).
  destruct Hhead as [Hhn Hhp]. eapply capacity_ok; [exact Hp3|by rewrite Hval|by apply numeric_grid|done|done|done].
Qed.

Lemma seal_succeeds input m decision reason unbounded p s :
  input.(ain_Policy) = Some p -> input.(ain_State) = Some s -> validateAssessmentInput input = Ok tt ->
  amounts_ok m -> Decision_IsValid decision = true -> ReasonCode_IsValid reason = true ->
  unbounded = bool_decide (reason = ReasonStressUnbounded) ->
  bool_decide (decision = DecisionAdmitted) =
    (bool_decide (reason = ReasonAdmitted) || bool_decide (reason = ReasonStressUnbounded)) ->
  (sealed (assessment_of input m decision reason unbounded)).(as_ID) <> Nil ->
  sealAssessment (assessment_of input m decision reason unbounded) input =
    Ok (sealed (assessment_of input m decision reason unbounded)).
Proof.
  intros Hpol Hst H Hm Hd Hr Hu Hdr Hid. unfold validateAssessmentInput in H. inv_ok H.
  repeat match goal with u : unit |- _ => destruct u end. split_bools. dec_bools.
  match goal with Hi : Instrument_Validate _ = Ok _ |- _ => unfold Instrument_Validate in Hi; apply bind_Ok in Hi as ([] & Hi & _);
    apply reject_false in Hi; split_bools end.
  set (f := assessment_of input m decision reason unbounded) in *.
  assert (Hval : Assessment_Validate (Some (sealed f)) input.(ain_Account) input.(ain_Binding) input.(ain_Policy)
                   input.(ain_State) = Ok tt).
  { unfold Assessment_Validate.
    apply reject_pass.
    { rewrite Hpol, Hst, (bool_decide_eq_false_2 _ Hid). unfold sealed. cbn [as_hash is_nil orb].
      by rewrite length_EncodeToString, length_Sum256. }
    eapply bind_pass; [eassumption|]. eapply bind_pass; [eassumption|].
    apply reject_pass.
    { unfold f. cbn [sealed as_fields assessment_of as_StateID as_AccountID as_BindingID as_PolicyVersion as_Environment
        as_EvidenceClass as_StorageNamespace as_InstrumentID as_ScenarioID as_Direction as_Currency as_ProposedNotional].
      rewrite !eq_self. repeat match goal with
        | Hx : ~ ?P |- context [bool_decide ?P] => rewrite (bool_decide_eq_false_2 _ Hx)
        | Hx : ExposureDirection_IsValid _ = true |- _ => rewrite Hx; clear Hx
        end.
      rewrite (proj2 (IsPositive_true _)) by done. rewrite bool_decide_eq_true_2 by congruence. done. }
    apply (bind_pass _ tt); [apply for_each_Ok|].
    { unfold f. cbn [sealed as_fields assessment_of as_ProposedNotional as_CurrentInitialRequirement as_RequestedInitialMargin
        as_InitialMarginHeadroom as_GrossHeadroom as_AvailableBuyingPower as_PostGrossExposure as_PostMaintenanceRequirement].
      apply Forall_cons_2; [|eapply Forall_impl; [exact Hm|]; intros v [Hv Hp]].
      - match goal with Hx : validCapitalAmount _ = true |- _ => rewrite Hx end. rewrite (proj2 (IsNegative_false _)); [done|lra].
      - apply validCapitalAmount_iff in Hv. by rewrite Hv, (proj2 (IsNegative_false _) Hp). }
    apply reject_pass.
    { unfold f. cbn [sealed as_fields assessment_of as_Decision as_Reason as_Unbounded]. rewrite Hd, Hr, Hu, Hdr, !eq_self. done. }
    unfold sealed. cbn [as_fields as_canonicalBytes as_hash as_ID]. by rewrite !eq_self. }
  unfold sealAssessment. fold (sealed f). by rewrite Hval.
Qed.

(** C40: every valid input is assessed: with equity, exposures and notional up
    to 1e24, an input that passes its validation gets the decision of the
    specification and no amount overflows its column or is negative. The only
    way out is that the identity derived from the SHA-256 digest of this very
    assessment is the nil UUID. *)
Theorem assess_total pin p input s :
  NewPolicy pin = Ok p -> input.(ain_Policy) = Some p -> input.(ain_State) = Some s ->
  validateAssessmentInput input = Ok tt ->
  val s.(st_equity) <= ceiling -> val s.(st_longExposure) <= ceiling -> val s.(st_shortExposure) <= ceiling ->
  val input.(ain_ProposedNotional) <= ceiling ->
  exists r m, r ∈ reviewedProfiles /\ r.(prof_Name) = input.(ain_Account).(acct_MarginProfile) /\ amounts_ok m /\
    let '(decision, reason) := admission r s input.(ain_Direction) (val input.(ain_ProposedNotional)) in
    let a := sealed (assessment_of input m decision reason r.(prof_Unlimited)) in
    Assess input = Ok a \/ a.(as_ID) = Nil.
Proof.
  intros Hpin Hpol Hst Hv He Hl Hs Hn. destruct (NewPolicy_reviewed _ _ Hpin) as [_ Hp].
  destruct (validate_assessable input p Hp Hpol Hv) as (s' & q & r & Hab).
  assert (s' = s) as -> by (pose proof (ab_state _ _ _ _ _ Hab); congruence).
  destruct (Assess_cases input p s q r Hab Hp Hpol Hv) as (m & Ha & Hm).
  destruct Hab as [_ _ Hval _ _ (Hr & Hrn & Hps) Hd [Hpos Hnum] Hred _].
  set (adm := admission r s input.(ain_Direction) (val input.(ain_ProposedNotional))) in *.
  assert (Hmd : moderate s input.(ain_Direction) input.(ain_ProposedNotional)).
  { pose proof Hval as [_ _ _ _ _ _ _ _ _ _ Ham Hsg Hgr _]. repeat (apply Forall_cons in Ham as [? Ham]).
    repeat (apply Forall_cons in Hsg as [? Hsg]). split; split_and?; try assumption; (by apply numeric_grid) || apply Hred. }
  assert (Hok : amounts_ok m).
  { destruct Hm as [(Hu & ratio & Hratio & Hm)|[(Hu & _ & ->)|(Hu & ->)]].
    - by eapply bounded_ok.
    - destruct (requirement_ok q r s _ _ Hr Hps Hmd) as [? ?]. destruct (gross_headroom_ok q r s _ _ Hr Hps Hmd) as [? _].
      repeat apply Forall_cons_2; try apply Forall_nil_2; auto using zero_ok.
    - destruct (post_exposure s _ _ Hmd) as [(Hpl1 & Hpl2 & Hpl3) (Hps1 & Hps2 & Hps3)]. assert (0 <= ceiling) by (by compute).
      repeat apply Forall_cons_2; try apply Forall_nil_2; auto using zero_ok. cbn [am_PostGrossExposure].
      assert (Hpg : val (postGrossExposure s input.(ain_Direction) input.(ain_ProposedNotional)) ==
        post_long s input.(ain_Direction) (val input.(ain_ProposedNotional)) +
        post_short s input.(ain_Direction) (val input.(ain_ProposedNotional))).
      { unfold postGrossExposure, postDirectionalExposure, post_long, post_short. destruct input.(ain_Direction); dec_push; ring. }
      apply amount_of; rewrite Hpg; [by apply grid_plus|lra|lra]. }
  exists r, m. split; [done|]. split; [done|]. split; [done|]. fold adm. rewrite (surjective_pairing adm).
  set (f := assessment_of input m adm.1 adm.2 r.(prof_Unlimited)) in *. cbv zeta.
  destruct (decide ((sealed f).(as_ID) = Nil)) as [Hnil|Hnil]; [by right|left]. rewrite Ha.
  apply (seal_succeeds input m adm.1 adm.2 r.(prof_Unlimited) p s); try done;
    unfold adm, admission; destruct (r.(prof_Unlimited)); repeat case_match; done.
Qed.

End assess.
