(* ===== verification/CapitalMatrixProofs.v ===== *)
(** * Proofs about the capital replay matrix *)

From S2P Require Import Prelude GoStd GoText Externals Decimals EconomicId Account Instrument Projection ProjectionPayload.
From S2P Require Import CapitalPolicy CapitalState CapitalAssessment CapitalMatrix.
From S2P Require Import CapitalPolicyProofs CapitalStateProofs CapitalAssessmentProofs.

Local Open Scope Q_scope.

#[local] Opaque DeterministicUUID Sum256 json_struct.

Section matrix.
Context {E : Externals} {L : ExternalLaws}.
Context (decode : string -> option (projectionCapitalPayload * string)).

Lemma reviewed_tier_count p : reviewed_policy p -> length (Policy_Tiers (Some p)) = 6%nat.
Proof. intros Hp. cbn. by rewrite (Forall2_length _ _ _ (rp_tiers _ Hp)). Qed.

Lemma matrixAccount_facts fresh now spec policy tier profile environment multiplier a :
  matrixAccount fresh now spec policy tier profile environment multiplier = Ok a ->
  a.(acct_Environment) = environment /\ a.(acct_MarginProfile) = profile.
Proof.
  unfold matrixAccount. intros H. apply bind_Ok in H as (b & Hb & H). inv_ok H. subst a.
  unfold NewAccount in Hb. inv_ok Hb. by subst b.
Qed.

(** One row of the matrix. *)
Record row (p : Policy) (scored : MarginProfile) (ordinal : nat) (o : MatrixOutcome) : Prop := {
  row_ordinal : o.(mo_Ordinal) = ordinal;
  row_tier : Policy_Tiers (Some p) !! (if (ordinal =? 6)%nat then 5%nat else ordinal) = Some o.(mo_Tier);
  row_class :
    if (ordinal =? 6)%nat
    then o.(mo_Environment) = AccountEnvironmentPaperStress /\ o.(mo_Profile) = MarginProfileStressUnlimited /\
         o.(mo_Assessment).(as_Reason) = ReasonStressUnbounded /\
         Assessment_PromotionEligible (Some o.(mo_Assessment)) = false
    else o.(mo_Environment) = AccountEnvironmentPaperScored /\ o.(mo_Profile) = scored /\
         o.(mo_Assessment).(as_Unbounded) = false /\
         Assessment_PromotionEligible (Some o.(mo_Assessment)) = true;
}.

Lemma run_ordinal_row fresh now spec p scored profile factory proposed ordinal proposed' o :
  reviewed_policy p -> (ordinal <= 6)%nat ->
  run_ordinal decode fresh now spec (Some p) scored profile factory proposed ordinal = Ok (proposed', o) ->
  row p scored ordinal o /\ o.(mo_Assessment).(as_InstrumentID) = proposed' /\
  (ordinal <> 0%nat -> proposed' = proposed).
Proof.
  intros Hp Ho H. unfold run_ordinal in H. rewrite (reviewed_tier_count p Hp) in H.
  destruct (Policy_Tiers (Some p) !! _) as [tier|] eqn:Ht; [|done]. inv_ok H. injection H as <- <-.
  match goal with Ha : matrixAccount _ _ _ _ _ _ _ _ = Ok _ |- _ => apply matrixAccount_facts in Ha as [Henv Hprof] end.
  match goal with Ha : Assess _ = Ok _ |- _ => apply (Assess_sound p) in Ha as (s & q & r & m & Hab & ->); [|done|done] end.
  pose proof (assessable_promotion _ _ _ _ _ m
    (admission r s (scen_Direction x2) (val (scen_ProposedNotional x2))).1
    (admission r s (scen_Direction x2) (val (scen_ProposedNotional x2))).2 Hab) as Hprom.
  pose proof (ab_class _ _ _ _ _ Hab) as Hclass. cbn [ain_Account] in Hclass. rewrite Henv in Hclass.
  split_bools. split; [|split].
  - split; [done|cbn [mo_Tier]; match goal with Hx : tier = _ |- _ => rewrite <- Hx end; exact Ht|]. cbn [mo_Environment mo_Profile mo_Assessment] in *. destruct (ordinal =? 6)%nat.
    + destruct Hclass as [(_ & ? & _)|(Hu & _)]; [done|]. rewrite Hu in Hprom |- *.
      split; [done|]. split; [done|]. split; [cbn; unfold admission; by rewrite Hu|exact Hprom].
    + destruct Hclass as [(Hu & _)|(_ & ?)]; [|done]. rewrite Hu in Hprom |- *.
      split; [done|]. split; [done|]. split; [done|exact Hprom].
  - cbn [mo_Assessment sealed as_fields assessment_of as_InstrumentID ain_Instrument].
    destruct (Nat.eqb_spec ordinal 0); [done|].
    match goal with Hx : _ && _ = false |- _ => cbn in Hx; split_bools; congruence end.
  - intros Hz. by destruct (Nat.eqb_spec ordinal 0).
Qed.

Lemma run_ordinals_rows fresh now spec p scored profile factory proposed ordinals os :
  reviewed_policy p -> Forall (fun i => (i <= 6)%nat /\ i <> 0%nat) ordinals ->
  run_ordinals decode fresh now spec (Some p) scored profile factory proposed ordinals = Ok os ->
  Forall2 (row p scored) ordinals os /\ Forall (fun o => o.(mo_Assessment).(as_InstrumentID) = proposed) os.
Proof.
  intros Hp Hall. revert proposed os. induction Hall as [|i ordinals [Hi Hz] _ IH]; intros proposed os; cbn [run_ordinals].
  - intros [= <-]. by split.
  - intros H. apply bind_Ok in H as ([proposed' o] & Ho & H). inv_ok H. subst os.
    destruct (run_ordinal_row _ _ _ _ _ _ _ _ _ _ _ Hp Hi Ho) as (Hrow & Hinst & Hsame). rewrite (Hsame Hz) in *.
    match goal with Hr : run_ordinals _ _ _ _ _ _ _ _ _ _ = Ok _ |- _ => destruct (IH _ _ Hr) as [H1 H2] end. by split; constructor.
Qed.

Lemma RunMatrix_Ok fresh now spec p scored factory r : reviewed_policy p ->
  RunMatrix decode fresh now spec (Some p) scored (Some factory) = Ok r ->
  exists profile, Policy_Profile (Some p) scored = (profile, true) /\ length r.(mr_Outcomes) = 7%nat /\
    run_ordinals decode fresh now spec (Some p) scored profile factory Nil (seq 0 7) = Ok r.(mr_Outcomes) /\
    r.(mr_Spec) = spec /\
    r.(mr_scoredHash) = EncodeToString (Sum256 (canonical_matrix matrixScoredSchema spec p.(pol_version) scored (take 6 r.(mr_Outcomes)))).
Proof.
  intros Hp H. unfold RunMatrix in H. rewrite (reviewed_tier_count p Hp) in H.
  apply bind_Ok in H as (u1 & _ & H). apply bind_Ok in H as (u2 & _ & H). apply bind_Ok in H as (f & Hf & H). injection Hf as <-.
  destruct (Policy_Profile (Some p) scored) as [profile ok] eqn:Hprof. apply bind_Ok in H as (u3 & Hg & H).
  apply bind_Ok in H as (os & Hos & H). apply wrap_Ok in H. unfold seal_matrix in H. apply bind_Ok in H as (u4 & Hlen & H).
  apply Ok_inj in H. subst r. cbn [mr_Outcomes mr_Spec mr_scoredHash]. apply reject_false in Hg, Hlen. split_bools. subst ok.
  apply Nat.eqb_eq in Hlen. exists profile. by split_and!.
Qed.

(** the replay matrix holds six scored rows and one stress row. Rows are in
    the order of the reviewed tiers, the last repeats the largest tier under the
    unlimited profile; every row assesses the same instrument; the scored rows
    are bounded and promotion evidence, the stress row is neither. *)
Theorem matrix_contract fresh now spec pin p scored factory r :
  NewPolicy pin = Ok p -> RunMatrix decode fresh now spec (Some p) scored (Some factory) = Ok r ->
  Forall2 (row p scored) (seq 0 7) r.(mr_Outcomes) /\
  (exists instrument, Forall (fun o => o.(mo_Assessment).(as_InstrumentID) = instrument) r.(mr_Outcomes)) /\
  length (ScoredOutcomes (Some r)) = 6%nat /\
  Forall (fun o => Assessment_PromotionEligible (Some o.(mo_Assessment)) = true) (ScoredOutcomes (Some r)) /\
  exists stress, StressOutcome (Some r) = Some stress /\ Assessment_PromotionEligible (Some stress.(mo_Assessment)) = false.
Proof.
  intros Hpin H. destruct (NewPolicy_reviewed _ _ Hpin) as [_ Hp].
  destruct (RunMatrix_Ok _ _ _ _ _ _ _ Hp H) as (profile & _ & Hlen & Hrun & _ & _).
  change (seq 0 7) with (0 :: seq 1 6)%nat in Hrun. cbn [run_ordinals] in Hrun.
  apply bind_Ok in Hrun as ([instrument o0] & Ho & Hrun). apply bind_Ok in Hrun as (os & Hos & Hrun). apply Ok_inj in Hrun.
  destruct (run_ordinal_row _ _ _ _ _ _ _ _ _ _ _ Hp (Nat.le_0_l 6) Ho) as (Hrow & Hinst & _).
  apply run_ordinals_rows in Hos as [Hrows Hsame]; [|done|by repeat constructor].
  assert (Hall : Forall2 (row p scored) (seq 0 7) r.(mr_Outcomes)) by (rewrite <- Hrun; by constructor).
  split; [done|]. split; [exists instrument; rewrite <- Hrun; by constructor|].
  unfold ScoredOutcomes, StressOutcome. rewrite Hlen. cbn [Nat.ltb Nat.leb Nat.eqb negb].
  split; [by rewrite length_take, Hlen|]. split.
  - apply Forall_lookup. intros i o Hi. apply lookup_take_Some in Hi as [Hi Hlt].
    destruct (Forall2_lookup_r _ _ _ _ _ Hall Hi) as (k & Hk & [_ _ Hc]). apply lookup_seq in Hk as [-> _].
    destruct (Nat.eqb_spec (0 + i) 6); [lia|]. by destruct Hc as (_ & _ & _ & ?).
  - destruct (lookup_lt_is_Some_2 r.(mr_Outcomes) 6 ltac:(lia)) as [o Hi]. exists o. split; [done|].
    destruct (Forall2_lookup_r _ _ _ _ _ Hall Hi) as (k & Hk & [_ _ Hc]). apply lookup_seq in Hk as [-> _].
    by destruct Hc as (_ & _ & _ & ?).
Qed.

(** ** Isolation of the stress row *)

Lemma run_ordinal_ext fresh now spec p scored profile factory factory' proposed ordinal :
  reviewed_policy p -> ordinal <> 6%nat -> (forall c, c.(ctx_IsStress) = false -> factory c = factory' c) ->
  run_ordinal decode fresh now spec (Some p) scored profile factory proposed ordinal =
  run_ordinal decode fresh now spec (Some p) scored profile factory' proposed ordinal.
Proof.
  intros Hp Ho Hf. unfold run_ordinal. rewrite (reviewed_tier_count p Hp), (proj2 (Nat.eqb_neq _ _) Ho).
  destruct (match _ with Some _ => _ | None => _ end) as [tier|e|e]; cbn [mbind outcome_bind]; [|done|done].
  destruct (wrap _ (matrixAccount _ _ _ _ _ _ _ _)) as [account|e|e]; cbn [mbind outcome_bind]; [|done|done].
  destruct (wrap _ (NewBinding _ _ _ _ _ _)) as [binding|e|e]; cbn [mbind outcome_bind]; [|done|done].
  by rewrite (Hf (MkScenarioContext _ _ _ _ _ _ false) eq_refl).
Qed.

Lemma run_ordinals_ext fresh now spec p scored profile factory factory' proposed ordinals tail os os' :
  reviewed_policy p -> Forall (fun i => i <> 6%nat) ordinals ->
  (forall c, c.(ctx_IsStress) = false -> factory c = factory' c) ->
  run_ordinals decode fresh now spec (Some p) scored profile factory proposed (ordinals ++ tail) = Ok os ->
  run_ordinals decode fresh now spec (Some p) scored profile factory' proposed (ordinals ++ tail) = Ok os' ->
  take (length ordinals) os = take (length ordinals) os'.
Proof.
  intros Hp Hall Hf. revert proposed os os'. induction Hall as [|i ordinals Hi _ IH]; intros proposed os os'; [done|].
  cbn [app run_ordinals length]. rewrite (run_ordinal_ext _ _ _ _ _ _ factory factory' _ _ Hp Hi Hf).
  destruct (run_ordinal _ _ _ _ _ _ _ _ _ i) as [[proposed' o]|e|e]; cbn [mbind outcome_bind]; [|done|done].
  intros H H'. apply bind_Ok in H as (k & Hk & H), H' as (k' & Hk' & H'). apply Ok_inj in H, H'. subst os os'.
  cbn [take firstn]. f_equal. by eapply IH.
Qed.

(** C35: stress cannot leak into scored evidence: two runs whose scenario
    factories agree on the scored rows, whatever they do for the stress row,
    have the same scored outcomes and the same scored hash. *)
Theorem matrix_scored_isolated fresh now spec pin p scored factory factory' r r' :
  NewPolicy pin = Ok p -> (forall c, c.(ctx_IsStress) = false -> factory c = factory' c) ->
  RunMatrix decode fresh now spec (Some p) scored (Some factory) = Ok r ->
  RunMatrix decode fresh now spec (Some p) scored (Some factory') = Ok r' ->
  ScoredOutcomes (Some r) = ScoredOutcomes (Some r') /\ ScoredHash (Some r) = ScoredHash (Some r').
Proof.
  intros Hpin Hf H H'. destruct (NewPolicy_reviewed _ _ Hpin) as [_ Hp].
  destruct (RunMatrix_Ok _ _ _ _ _ _ _ Hp H) as (profile & Hprof & Hlen & Hrun & _ & Hhash).
  destruct (RunMatrix_Ok _ _ _ _ _ _ _ Hp H') as (profile' & Hprof' & Hlen' & Hrun' & _ & Hhash').
  assert (profile' = profile) as -> by congruence.
  assert (Htake : take 6 r.(mr_Outcomes) = take 6 r'.(mr_Outcomes)).
  { apply (run_ordinals_ext fresh now spec p scored profile factory factory' Nil (seq 0 6) [6%nat] _ _ Hp); try done.
    by repeat constructor. }
  unfold ScoredOutcomes, ScoredHash. rewrite Hlen, Hlen', Hhash, Hhash', Htake. done.
Qed.

End matrix.
