(* ===== verification/FinancialJobs.v ===== *)
(** * Scheduled financial jobs (internal/financialscheduler/model.go, catalog.go)

    An occurrence is one due run of a job, an effect is one business action of
    an occurrence, a definition classifies a job by what it may change. All
    three are named by the hash of their canonical JSON or of their key, so a
    retry names the same thing. *)

From S2P Require Import Prelude GoStd GoText Externals EconomicId ProjectionPayload.

Local Open Scope go_scope.

Definition OccurrenceSchemaV1 : string := "financial-job-occurrence-v1".
Definition EffectSchemaV1 : string := "financial-job-effect-v1".
Definition DefinitionSchemaV1 : string := "financial-job-definition-v1".

(** ** Enumerations *)

Inductive TriggerKind :=
  | TriggerScheduled
  | TriggerManual
  | TriggerOther (text : string).

Inductive MutationClass :=
  | MutationEvidence
  | MutationIntentOrder
  | MutationSettlement
  | MutationLedger
  | MutationReconciliation
  | MutationAllocation
  | MutationProvider
  | MutationOther (text : string).

Inductive EffectKind :=
  | EffectIntent
  | EffectOrder
  | EffectSettlement
  | EffectLedger
  | EffectAllocation
  | EffectProvider
  | EffectSupervisor
  | EffectOther (text : string).

#[global] Instance TriggerKind_eq_dec : EqDecision TriggerKind.
Proof. solve_decision. Defined.
#[global] Instance MutationClass_eq_dec : EqDecision MutationClass.
Proof. solve_decision. Defined.
#[global] Instance EffectKind_eq_dec : EqDecision EffectKind.
Proof. solve_decision. Defined.

Definition TriggerKind_string (k : TriggerKind) : string :=
  match k with
  | TriggerScheduled => "scheduled"
  | TriggerManual => "manual"
  | TriggerOther t => t
  end.

Definition MutationClass_string (c : MutationClass) : string :=
  match c with
  | MutationEvidence => "evidence"
  | MutationIntentOrder => "intent_order"
  | MutationSettlement => "settlement"
  | MutationLedger => "ledger"
  | MutationReconciliation => "reconciliation"
  | MutationAllocation => "allocation"
  | MutationProvider => "provider"
  | MutationOther t => t
  end.

Definition EffectKind_string (k : EffectKind) : string :=
  match k with
  | EffectIntent => "execution_intent"
  | EffectOrder => "execution_order"
  | EffectSettlement => "settlement"
  | EffectLedger => "ledger"
  | EffectAllocation => "allocation"
  | EffectProvider => "provider_mutation"
  | EffectSupervisor => "supervisor_assessment"
  | EffectOther t => t
  end.

Definition validMutationClass (value : MutationClass) : bool :=
  match value with MutationOther _ => false | _ => true end.
Definition validEffectKind (value : EffectKind) : bool :=
  match value with EffectOther _ => false | _ => true end.

(** [^[a-z0-9][a-z0-9_./:-]{0,191}$] *)
Definition normalizedKey (s : string) : bool :=
  matches_token (fun a => lower_letter a || decimal_digit a)
    (fun a => lower_letter a || decimal_digit a || one_of "_./:-" a) 191 s.

Section jobs.
Context {E : Externals}.

Definition validSHA256 (value : string) : bool :=
  if negb (String.length value =? 64)%nat || (value !=? ToLower value) then false
  else hex_decodes value.

Definition digestBytes (raw : string) : string := EncodeToString (Sum256 raw).
Definition formatTime (value : Time) : string := format_micro (utc_micro value).
Definition jsonEqual (left right : string) : bool := left ==? right.

(** ** Occurrences *)

Record OccurrenceInput := MkOccurrenceInput {
  occin_JobKey : string;
  occin_ScheduleRevision : string;
  occin_Trigger : TriggerKind;
  occin_DueAt : Time;
  occin_ManualRequestID : UUID;
}.

Record Occurrence := MkOccurrence {
  occ_ID : UUID;
  occ_JobKey : string;
  occ_ScheduleRevision : string;
  occ_Trigger : TriggerKind;
  occ_DueAt : Time;
  occ_ManualRequestID : UUID;
  occ_CanonicalJSON : string;
  occ_SHA256 : string;
}.

(** [json.Marshal] of [occurrenceCanonical]; the request is omitted when empty. *)
Definition occurrenceCanonical (jobKey revision : string) (trigger : TriggerKind) (dueAt : Time)
    (manualRequestID : string) : string :=
  json_struct
    ([str "schema" OccurrenceSchemaV1; str "job_key" jobKey; str "schedule_revision" revision;
      str "trigger" (TriggerKind_string trigger); str "due_at" (formatTime dueAt)] ++
     (if manualRequestID ==? "" then [] else [str "manual_request_id" manualRequestID])).

Definition NewOccurrence (input : OccurrenceInput) : outcome Occurrence :=
  let jobKey := TrimSpace input.(occin_JobKey) in
  let revision := TrimSpace input.(occin_ScheduleRevision) in
  let dueAt := utc_micro input.(occin_DueAt) in
  reject (negb (normalizedKey jobKey) || (jobKey !=? input.(occin_JobKey)))
    "financial scheduler: job key is not normalized" ;;
  reject ((revision ==? "") || (revision !=? input.(occin_ScheduleRevision)) || (256 <? String.length revision)%nat)
    "financial scheduler: schedule revision is invalid" ;;
  reject (IsZeroTime dueAt) "financial scheduler: due time is required" ;;
  reject ((input.(occin_Trigger) !=? TriggerScheduled) && (input.(occin_Trigger) !=? TriggerManual))
    "financial scheduler: trigger kind is invalid" ;;
  reject ((input.(occin_Trigger) ==? TriggerScheduled) && (input.(occin_ManualRequestID) !=? Nil))
    "financial scheduler: scheduled occurrence cannot have a manual request" ;;
  reject ((input.(occin_Trigger) ==? TriggerManual) && (input.(occin_ManualRequestID) ==? Nil))
    "financial scheduler: manual occurrence requires a request ID" ;;
  let request := if input.(occin_ManualRequestID) !=? Nil then uuid_string input.(occin_ManualRequestID) else "" in
  let raw := occurrenceCanonical jobKey revision input.(occin_Trigger) dueAt request in
  let digest := digestBytes raw in
  Ok {| occ_ID := DeterministicUUID "financial-job-occurrence" [(OccurrenceSchemaV1 +:+ "@sha256:" +:+ digest)%string];
        occ_JobKey := jobKey; occ_ScheduleRevision := revision; occ_Trigger := input.(occin_Trigger);
        occ_DueAt := dueAt; occ_ManualRequestID := input.(occin_ManualRequestID);
        occ_CanonicalJSON := raw; occ_SHA256 := digest |}.

Definition occurrence_input (o : Occurrence) : OccurrenceInput :=
  MkOccurrenceInput o.(occ_JobKey) o.(occ_ScheduleRevision) o.(occ_Trigger) o.(occ_DueAt) o.(occ_ManualRequestID).

Definition Occurrence_Validate (o : Occurrence) : outcome unit :=
  rebuilt ← NewOccurrence (occurrence_input o) ;
  reject ((rebuilt.(occ_ID) !=? o.(occ_ID)) || (rebuilt.(occ_SHA256) !=? o.(occ_SHA256)) ||
          negb (jsonEqual rebuilt.(occ_CanonicalJSON) o.(occ_CanonicalJSON)))
    "financial scheduler: occurrence identity or content mismatch".

(** ** Effects *)

Record EffectInput := MkEffectInput {
  effin_OccurrenceID : UUID;
  effin_Kind : EffectKind;
  effin_BusinessKey : string;
  effin_PayloadSHA256 : string;
}.

Record Effect := MkEffect {
  eff_ID : UUID;
  eff_OccurrenceID : UUID;
  eff_Kind : EffectKind;
  eff_BusinessKey : string;
  eff_PayloadSHA256 : string;
  eff_CanonicalJSON : string;
  eff_SHA256 : string;
}.

Definition effectCanonical (occurrenceID : UUID) (kind : EffectKind) (key payload : string) : string :=
  json_struct [str "schema" EffectSchemaV1; str "occurrence_id" (uuid_string occurrenceID);
               str "kind" (EffectKind_string kind); str "business_key" key; str "payload_sha256" payload].

(** The name of an effect leaves the payload out. *)
Definition effectID (occurrenceID : UUID) (kind : EffectKind) (key : string) : UUID :=
  DeterministicUUID "financial-job-effect" [uuid_string occurrenceID; EffectKind_string kind; key].

Definition NewEffect (input : EffectInput) : outcome Effect :=
  let key := TrimSpace input.(effin_BusinessKey) in
  reject ((input.(effin_OccurrenceID) ==? Nil) || negb (validEffectKind input.(effin_Kind)))
    "financial scheduler: effect occurrence and kind are required" ;;
  reject (negb (normalizedKey key) || (key !=? input.(effin_BusinessKey)))
    "financial scheduler: effect business key is not normalized" ;;
  reject (negb (validSHA256 input.(effin_PayloadSHA256)))
    "financial scheduler: effect payload sha256 is invalid" ;;
  let raw := effectCanonical input.(effin_OccurrenceID) input.(effin_Kind) key input.(effin_PayloadSHA256) in
  Ok (MkEffect (effectID input.(effin_OccurrenceID) input.(effin_Kind) key) input.(effin_OccurrenceID)
        input.(effin_Kind) key input.(effin_PayloadSHA256) raw (digestBytes raw)).

Definition effect_input (e : Effect) : EffectInput :=
  MkEffectInput e.(eff_OccurrenceID) e.(eff_Kind) e.(eff_BusinessKey) e.(eff_PayloadSHA256).

Definition Effect_Validate (e : Effect) : outcome unit :=
  rebuilt ← NewEffect (effect_input e) ;
  reject ((rebuilt.(eff_ID) !=? e.(eff_ID)) || (rebuilt.(eff_SHA256) !=? e.(eff_SHA256)) ||
          negb (jsonEqual rebuilt.(eff_CanonicalJSON) e.(eff_CanonicalJSON)))
    "financial scheduler: effect identity or content mismatch".

Definition IntentIdempotencyKey (e : Effect) : string := ("financial_effect:v1:" +:+ uuid_string e.(eff_ID))%string.
Definition OrderIdempotencyKey (e : Effect) : string := ("financial_effect_order:v1:" +:+ uuid_string e.(eff_ID))%string.
Definition SettlementIdempotencyKey (e : Effect) : string :=
  ("financial_effect_settlement:v1:" +:+ uuid_string e.(eff_ID))%string.

(** ** Job definitions *)

Record JobDefinition := MkJobDefinition {
  def_ID : UUID;
  def_Key : string;
  def_Mutations : list MutationClass;
  def_CanonicalJSON : string;
  def_SHA256 : string;
}.

Definition definitionCanonical (key : string) (mutations : list MutationClass) : string :=
  json_struct [str "schema" DefinitionSchemaV1; str "key" key;
               ("mutations", json_slice ((fun m => json_marshal_string (MutationClass_string m)) <$> mutations))].

(** The loop over the classes: an unknown one is an error, a repeated one is
    skipped. *)
Fixpoint normalizeMutations (mutations seen normalized : list MutationClass) : outcome (list MutationClass) :=
  match mutations with
  | [] => Ok normalized
  | mutation :: rest =>
      reject (negb (validMutationClass mutation)) "financial scheduler: mutation class %q is invalid" ;;
      if bool_decide (mutation ∈ seen) then normalizeMutations rest seen normalized
      else normalizeMutations rest (mutation :: seen) (normalized ++ [mutation])
  end.

Definition NewJobDefinition (key : string) (mutations : list MutationClass) : outcome JobDefinition :=
  reject (negb (normalizedKey key)) "financial scheduler: job definition key is invalid" ;;
  reject (length mutations =? 0)%nat "financial scheduler: job definition requires a mutation class" ;;
  normalized ← normalizeMutations mutations [] [] ;
  let sorted := sort_slice (fun a b => string_lt (MutationClass_string a) (MutationClass_string b)) normalized in
  let raw := definitionCanonical key sorted in
  let digest := digestBytes raw in
  Ok {| def_ID := DeterministicUUID "financial-job-definition" [(DefinitionSchemaV1 +:+ "@sha256:" +:+ digest)%string];
        def_Key := key; def_Mutations := sorted; def_CanonicalJSON := raw; def_SHA256 := digest |}.

(** ** The catalog *)

Definition catalogEntries : list (string * list MutationClass) :=
  [("alpaca_reconcile", [MutationReconciliation; MutationProvider]);
   ("current_data_refresh", [MutationEvidence; MutationProvider]);
   ("daily_supervisor", [MutationEvidence]);
   ("daily_review", [MutationEvidence]);
   ("deep_scan", [MutationEvidence; MutationProvider]);
   ("discovery_run", [MutationEvidence]);
   ("earnings_scanner", [MutationEvidence; MutationProvider]);
   ("filing_monitor", [MutationEvidence; MutationProvider]);
   ("gap_scanner", [MutationEvidence; MutationProvider]);
   ("history_refresh", [MutationEvidence; MutationProvider]);
   ("hot_scan", [MutationEvidence]);
   ("kalshi_discovery", [MutationEvidence; MutationProvider]);
   ("kalshi_reconcile", [MutationReconciliation; MutationProvider]);
   ("kalshi_settlement", [MutationSettlement; MutationLedger; MutationProvider]);
   ("news_scan", [MutationEvidence; MutationProvider]);
   ("options_discovery", [MutationEvidence; MutationProvider]);
   ("options_expiry_settlement", [MutationSettlement; MutationLedger]);
   ("options_lifecycle_reconcile", [MutationReconciliation]);
   ("options_scan", [MutationEvidence; MutationProvider]);
   ("overnight_backtest", [MutationEvidence]);
   ("overnight_generate", [MutationEvidence]);
   ("overnight_sweep", [MutationEvidence]);
   ("paper_validation_report", [MutationEvidence]);
   ("polymarket_profiles", [MutationEvidence; MutationProvider]);
   ("polymarket_reconcile", [MutationReconciliation; MutationProvider]);
   ("polymarket_resolutions", [MutationSettlement; MutationProvider]);
   ("polymarket_strategy_discovery", [MutationEvidence; MutationProvider]);
   ("portfolio_allocator", [MutationAllocation; MutationIntentOrder]);
   ("position_review", [MutationEvidence]);
   ("social_scan", [MutationEvidence; MutationProvider]);
   ("strategy_resweep", [MutationEvidence]);
   ("strategy_tournament", [MutationEvidence]);
   ("ticker_discovery", [MutationEvidence; MutationProvider]);
   ("universe_refresh", [MutationEvidence; MutationProvider]);
   ("strategy_execution", [MutationIntentOrder]);
   ("backtest_execution", [MutationEvidence])].

Fixpoint buildCatalog (entries : list (string * list MutationClass)) (result : gmap string JobDefinition)
    : outcome (gmap string JobDefinition) :=
  match entries with
  | [] => Ok result
  | (key, mutations) :: rest =>
      definition ← match NewJobDefinition key mutations with
                   | Err _ => Panic ExplicitPanic
                   | m => m
                   end ;
      if bool_decide (is_Some (result !! key)) then Panic ExplicitPanic
      else buildCatalog rest (<[key := definition]> result)
  end.

Definition Catalog : outcome (gmap string JobDefinition) := buildCatalog catalogEntries ∅.

(** The loop of [ValidateCatalogCoverage]: [seen] and [missing] accumulate. *)
Fixpoint coverageLoop (catalog : gmap string JobDefinition) (registeredKeys seen missing : list string)
    : outcome (list string) :=
  match registeredKeys with
  | [] => Ok missing
  | key :: rest =>
      reject (bool_decide (key ∈ seen)) "financial scheduler: duplicate registered job %q" ;;
      coverageLoop catalog rest (key :: seen)
        (if bool_decide (is_Some (catalog !! key)) then missing else missing ++ [key])
  end.

Definition ValidateCatalogCoverage (registeredKeys : list string) : outcome unit :=
  catalog ← Catalog ;
  missing ← coverageLoop catalog registeredKeys [] [] ;
  reject (0 <? length missing)%nat "financial scheduler: unclassified jobs: %v".
End jobs.
