(* ===== verification/FinancialJobsProofs.v ===== *)
(** * Occurrences, effects and the job catalog

    What the constructors build validates again, an effect is named without its
    payload, and the catalog classifies exactly the listed jobs. *)

From S2P Require Import Prelude GoStd Externals EconomicId FinancialJobs.

Local Open Scope go_scope.

(** Rewrite with the boolean tests in the context. *)
Ltac use_bools :=
  repeat match goal with
  | H : ?b = false |- _ => rewrite H; clear H
  | H : ?b = true |- _ => rewrite H; clear H
  | H : ?x <> ?y |- context [bool_decide (?x = ?y)] => rewrite (bool_decide_eq_false_2 _ H); clear H
  end.

Section jobs.
Context {E : Externals}.
#[local] Opaque DeterministicUUID digestBytes occurrenceCanonical effectCanonical definitionCanonical.

(** ** Identities *)

Lemma NewOccurrence_input input o : NewOccurrence input = Ok o -> NewOccurrence (occurrence_input o) = Ok o.
Proof.
  unfold NewOccurrence at 1. intros H. inv_ok H. split_bools. subst o.
  unfold NewOccurrence, occurrence_input. cbn [occin_JobKey occin_ScheduleRevision occin_Trigger occin_DueAt
    occin_ManualRequestID occ_JobKey occ_ScheduleRevision occ_Trigger occ_DueAt occ_ManualRequestID].
  repeat match goal with Ht : TrimSpace _ = _ |- _ => rewrite !Ht in *; clear Ht end.
  rewrite utc_micro_idemp, !eq_self. use_bools. reflexivity.
Qed.

Lemma NewEffect_input input e : NewEffect input = Ok e -> NewEffect (effect_input e) = Ok e.
Proof.
  unfold NewEffect at 1. intros H. inv_ok H. split_bools. subst e.
  unfold NewEffect, effect_input. cbn [effin_OccurrenceID effin_Kind effin_BusinessKey effin_PayloadSHA256
    eff_OccurrenceID eff_Kind eff_BusinessKey eff_PayloadSHA256].
  repeat match goal with Ht : TrimSpace _ = _ |- _ => rewrite !Ht in *; clear Ht end.
  rewrite !eq_self. use_bools. reflexivity.
Qed.

(** What the constructors of occurrences and effects build passes its own
    validation, so the store accepts it; the identity of an effect is a function
    of the occurrence, the kind and the business key, so a retry with another
    payload names the same effect. *)
Theorem jobs_validate :
  (forall input o, NewOccurrence input = Ok o -> Occurrence_Validate o = Ok tt) /\
  (forall input e, NewEffect input = Ok e -> Effect_Validate e = Ok tt) /\
  (forall input payload e e', NewEffect input = Ok e ->
     NewEffect (MkEffectInput input.(effin_OccurrenceID) input.(effin_Kind) input.(effin_BusinessKey) payload) = Ok e' ->
     e'.(eff_ID) = e.(eff_ID) /\ IntentIdempotencyKey e' = IntentIdempotencyKey e).
Proof.
  split_and!.
  - intros input o H. unfold Occurrence_Validate. rewrite (NewOccurrence_input _ _ H). unfold jsonEqual. simpl.
    by rewrite !eq_self.
  - intros input e H. unfold Effect_Validate. rewrite (NewEffect_input _ _ H). unfold jsonEqual. simpl.
    by rewrite !eq_self.
  - intros input payload e e'. unfold NewEffect. intros H H'. inv_ok H. inv_ok H'. by subst e e'.
Qed.

(** ** Job definitions *)

Lemma normalizeMutations_spec mutations seen normalized : (forall m, m ∈ seen <-> m ∈ normalized) ->
  NoDup normalized -> Forall (fun m => validMutationClass m = true) mutations ->
  exists result, normalizeMutations mutations seen normalized = Ok result /\ NoDup result /\
    forall m, m ∈ result <-> m ∈ normalized \/ m ∈ mutations.
Proof.
  revert seen normalized. induction mutations as [|m rest IH]; intros seen normalized Hseen Hnd Hv; simpl.
  { exists normalized. split; [done|]. split; [done|]. set_solver. }
  apply Forall_cons in Hv as [Hm Hv]. rewrite Hm. simpl. case_bool_decide as Hin.
  - destruct (IH seen normalized Hseen Hnd Hv) as (result & -> & Hr & Hmem). exists result. split; [done|]. split; [done|].
    intros x. rewrite Hmem. apply Hseen in Hin. set_solver.
  - destruct (IH (m :: seen) (normalized ++ [m])) as (result & -> & Hr & Hmem); [set_solver| |done|].
    { apply NoDup_app. split; [done|]. split; [|apply NoDup_singleton]. intros x Hx ->%list_elem_of_singleton.
      apply Hin. by apply Hseen. }
    exists result. split; [done|]. split; [done|]. intros x. rewrite Hmem. set_solver.
Qed.

Lemma NewJobDefinition_spec key mutations : normalizedKey key = true -> mutations <> [] ->
  Forall (fun m => validMutationClass m = true) mutations ->
  exists d, NewJobDefinition key mutations = Ok d /\ d.(def_Key) = key /\ NoDup d.(def_Mutations) /\
    forall m, m ∈ d.(def_Mutations) <-> m ∈ mutations.
Proof.
  intros Hk Hne Hv. destruct (normalizeMutations_spec mutations [] []) as (result & Hr & Hnd & Hmem);
    [done|apply NoDup_nil_2|done|].
  unfold NewJobDefinition. rewrite Hk, Hr. destruct mutations as [|m rest]; [done|]. simpl.
  eexists. split; [reflexivity|]. cbn [def_Key def_Mutations]. split; [done|].
  rewrite sort_slice_perm. split; [done|]. intros x. rewrite sort_slice_perm, Hmem. set_solver.
Qed.

(** ** The catalog *)

Definition listed (key : string) : Prop := key ∈ catalogEntries.*1.

Definition entry_ok (entry : string * list MutationClass) : bool :=
  normalizedKey entry.1 && negb (length entry.2 =? 0)%nat && forallb validMutationClass entry.2.

(** A definition for each key of [entries] on top of [result]. *)
Lemma buildCatalog_spec entries result : forallb entry_ok entries = true -> NoDup entries.*1 ->
  (forall key, key ∈ entries.*1 -> result !! key = None) ->
  exists catalog, buildCatalog entries result = Ok catalog /\
    (forall key, is_Some (catalog !! key) <-> is_Some (result !! key) \/ key ∈ entries.*1) /\
    (forall key d, catalog !! key = Some d -> result !! key = Some d \/
       exists mutations, (key, mutations) ∈ entries /\ d.(def_Key) = key /\ NoDup d.(def_Mutations) /\
                         forall m, m ∈ d.(def_Mutations) <-> m ∈ mutations).
Proof.
  revert result. induction entries as [|[key mutations] rest IH]; intros result Hok Hnd Hfresh; simpl in *.
  { exists result. split; [done|]. split; [set_solver|by left]. }
  apply andb_true_iff in Hok as [Hentry Hok]. unfold entry_ok in Hentry. simpl in Hentry. split_bools.
  apply NoDup_cons in Hnd as [Hkey Hnd].
  destruct (NewJobDefinition_spec key mutations) as (d & -> & Hdk & Hdn & Hdm); [done|by destruct mutations| |].
  { apply Forall_forall. rewrite forallb_forall in *. intros m Hm. apply list_elem_of_In in Hm. auto. }
  simpl. rewrite (Hfresh key) by set_solver. rewrite bool_decide_eq_false_2 by (by intros [? ?]).
  destruct (IH (<[key := d]> result)) as (catalog & -> & Hdom & Hdef); [done|done| |].
  { intros k Hk. rewrite lookup_insert_ne by (intros ->; done). apply Hfresh. set_solver. }
  exists catalog. split; [done|]. split.
  - intros k. rewrite Hdom, lookup_insert_is_Some. destruct (decide (key = k)) as [<- |?]; set_solver.
  - intros k x Hx. destruct (Hdef k x Hx) as [Hin|(ms & Hin & Hrest)].
    + apply lookup_insert_Some in Hin as [[<- <-]|[_ Hin]]; [right|by left].
      exists mutations. split; [apply list_elem_of_here|done].
    + right. exists ms. split; [by apply list_elem_of_further|done].
Qed.

Lemma Catalog_spec : exists catalog, Catalog = Ok catalog /\ (forall key, is_Some (catalog !! key) <-> listed key) /\
  (forall key d, catalog !! key = Some d -> d.(def_Key) = key /\ NoDup d.(def_Mutations) /\
     exists mutations, (key, mutations) ∈ catalogEntries /\ forall m, m ∈ d.(def_Mutations) <-> m ∈ mutations).
Proof.
  destruct (buildCatalog_spec catalogEntries ∅) as (catalog & Hc & Hdom & Hdef).
  - reflexivity.
  - refine (bool_decide_unpack (NoDup catalogEntries.*1) _). vm_compute. exact I.
  - intros key _. apply lookup_empty.
  - exists catalog. split; [exact Hc|]. split.
    + intros key. rewrite Hdom, lookup_empty. unfold listed. split; [intros [[? ?]|?]; done|by right].
    + intros key d Hd. destruct (Hdef key d Hd) as [He|(ms & H1 & H2 & H3 & H4)]; [by rewrite lookup_empty in He|eauto 10].
Qed.

Lemma coverageLoop_spec catalog keys seen missing : NoDup seen ->
  (forall result, coverageLoop catalog keys seen missing = Ok result ->
     NoDup (keys ++ seen) /\ (result = [] <-> missing = [] /\ Forall (fun key => is_Some (catalog !! key)) keys)) /\
  (NoDup (keys ++ seen) -> exists result, coverageLoop catalog keys seen missing = Ok result).
Proof.
  revert seen missing. induction keys as [|key rest IH]; intros seen missing Hseen; simpl.
  { split; [|by eexists]. intros result [= <-]. split; [done|]. split; [by intros ->|by intros [? _]]. }
  destruct (bool_decide_reflect (key ∈ seen)) as [Hin|Hin]; simpl.
  { split; [by intros result [=]|]. intros Hn. apply NoDup_cons in Hn as [Hn _]. set_solver. }
  assert (Hperm : key :: rest ++ seen ≡ₚ rest ++ key :: seen) by apply Permutation_middle.
  destruct (IH (key :: seen) (if bool_decide (is_Some (catalog !! key)) then missing else missing ++ [key])) as [H1 H2];
    [by constructor|].
  split.
  - intros result Hr. destruct (H1 result Hr) as [Hnd Hres]. split; [by rewrite Hperm|]. rewrite Hres, Forall_cons.
    case_bool_decide; [tauto|]. split; [intros [Hm _]; by apply app_nil in Hm as [_ ?]|tauto].
  - intros Hnd. apply H2. by rewrite <- Hperm.
Qed.

(** The catalog is built without a panic and classifies exactly the listed
    jobs, each under its own key with its own mutation classes; registered jobs
    pass the coverage check exactly when they are pairwise distinct and all
    classified, so an unclassified job is refused. *)
Theorem catalog_coverage :
  (exists catalog, Catalog = Ok catalog /\ (forall key, is_Some (catalog !! key) <-> listed key) /\
     (forall key d, catalog !! key = Some d -> d.(def_Key) = key /\ NoDup d.(def_Mutations) /\
        exists mutations, (key, mutations) ∈ catalogEntries /\ forall m, m ∈ d.(def_Mutations) <-> m ∈ mutations)) /\
  (forall keys, ValidateCatalogCoverage keys = Ok tt <-> NoDup keys /\ Forall listed keys).
Proof.
  split; [exact Catalog_spec|]. intros keys. destruct Catalog_spec as (catalog & Hc & Hdom & _).
  unfold ValidateCatalogCoverage. rewrite Hc. simpl.
  destruct (coverageLoop_spec catalog keys [] [] (NoDup_nil_2)) as [H1 H2]. rewrite app_nil_r in H1, H2.
  assert (Hall : Forall (fun key => is_Some (catalog !! key)) keys <-> Forall listed keys)
    by (rewrite !Forall_forall; split; intros H key Hk; apply Hdom; auto).
  split.
  - intros H. inv_ok H. destruct (H1 x H0) as [Hnd Hres]. split; [done|]. apply Hall, Hres.
    by destruct x.
  - intros [Hnd Hf]. destruct (H2 Hnd) as [result Hr]. rewrite Hr. simpl. destruct (H1 result Hr) as [_ Hres].
    by rewrite (proj2 Hres (conj eq_refl (proj2 Hall Hf))).
Qed.
End jobs.
