(* ===== verification/LeaseStore.v ===== *)
(** * The lease store (internal/repository/postgres/financial_scheduler.go)

    The tables behind scheduled jobs, with the triggers of migration 98: job
    definitions, occurrences, an append-only log of lease events and the claims
    of effects. Every method of the repository is one transaction: the row of
    the occurrence is locked before the log is read, so transactions on one
    occurrence do not overlap, and a transaction that fails is rolled back.

    The database server is outside the repository. What it does to one call is
    a [connection]: whether the transaction begins, which statements fail, what
    its clock shows and how the commit ends, the reply lost after the commit
    included. Uniqueness, foreign keys and triggers are modelled; a CHECK that
    relates the columns of a single row is one of the reasons a statement may
    fail. *)

From S2P Require Import Prelude GoStd GoText Externals EconomicId FinancialJobs.

Local Open Scope go_scope.

(** [sequence + 1] on [int64] *)
Definition int64_succ (n : Z) : Z := ((n + 1 + 2 ^ 63) mod 2 ^ 64 - 2 ^ 63)%Z.

Definition ErrFinancialLeaseNotCurrent : error := Errorf "postgres: financial scheduler lease is not current".
Definition ErrFinancialOccurrenceConflict : error := Errorf "postgres: financial scheduler occurrence conflict".
Definition ErrFinancialEffectConflict : error := Errorf "postgres: financial scheduler effect conflict".
Definition ErrNoRows : error := Errorf "no rows in result set".

Definition minimumFinancialLease : Duration := 1000000000%Z.
Definition maximumFinancialLease : Duration := (24 * 3600 * 1000000000)%Z.

(** ** Leases *)

Record Lease := MkLease {
  lease_OccurrenceID : UUID;
  lease_OwnerID : UUID;
  lease_FenceToken : Z;
  lease_Sequence : Z;
  lease_AcquiredAt : Time;
  lease_ExpiresAt : Time;
}.

Definition ZeroLease : Lease := MkLease Nil Nil 0 0 ZeroTime ZeroTime.

Record Acquisition := MkAcquisition {
  acq_Lease : Lease;
  acq_Acquired : bool;
  acq_Terminal : bool;
}.

(** ** Rows *)

Inductive EventKind := EventAcquired | EventRenewed | EventSucceeded | EventFailed.

#[global] Instance EventKind_eq_dec : EqDecision EventKind.
Proof. solve_decision. Defined.

Definition EventKind_string (k : EventKind) : string :=
  match k with
  | EventAcquired => "acquired"
  | EventRenewed => "renewed"
  | EventSucceeded => "succeeded"
  | EventFailed => "failed"
  end.

(** [event_kind IN ('succeeded','failed')] and [IN ('acquired','renewed')] *)
Definition terminal_kind (k : EventKind) : bool := (k ==? EventSucceeded) || (k ==? EventFailed).
Definition lease_kind (k : EventKind) : bool := (k ==? EventAcquired) || (k ==? EventRenewed).

Record leaseEvent := MkLeaseEvent {
  ev_ID : UUID;
  ev_OccurrenceID : UUID;
  ev_Sequence : Z;
  ev_Kind : EventKind;
  ev_OwnerID : UUID;
  ev_FenceToken : Z;
  ev_OccurredAt : Time;
  ev_ExpiresAt : option Time;
  ev_OutcomeSHA256 : string;
}.

Record effectClaim := MkEffectClaim {
  claim_Effect : Effect;
  claim_OwnerID : UUID;
  claim_FenceToken : Z;
  claim_ClaimedAt : Time;
}.

(** The tables, the newest row first. *)
Record database := MkDatabase {
  db_definitions : list JobDefinition;
  db_occurrences : list Occurrence;
  db_events : list leaseEvent;
  db_claims : list effectClaim;
}.

(** ** One call to the server *)

Inductive commitReply :=
  | Committed
  | CommitRejected (e : error)
  | CommitLost (e : error).

Record connection := MkConnection {
  conn_begin : option error;
  conn_statement : string -> option error;
  conn_clock : string -> Time;
  conn_commit : commitReply;
}.

(** [var pool *pgxpool.Pool] is present or nil; the hook runs after a stage. *)
Record FinancialSchedulerRepo := MkFinancialSchedulerRepo {
  repo_pool : bool;
  repo_afterStage : option (string -> option error);
}.

Definition failing (e : option error) : outcome unit := match e with Some e => Err e | None => Ok tt end.
Definition statement (c : connection) (name : string) : outcome unit := failing (c.(conn_statement) name).
(** [date_trunc('microseconds', clock_timestamp())] *)
Definition db_now (c : connection) (reading : string) : Time := TruncateMicro (c.(conn_clock) reading).

(** [tx, err := BeginTx(...); defer tx.Rollback(); body; tx.Commit()] *)
Definition transaction {A} (c : connection) (onBegin : error -> error) (onCommit : A -> error -> error)
    (db : database) (body : database -> outcome (database * A)) : database * outcome A :=
  match c.(conn_begin) with
  | Some e => (db, Err (onBegin e))
  | None =>
      match body db with
      | Ok (db', a) =>
          match c.(conn_commit) with
          | Committed => (db', Ok a)
          | CommitRejected e => (db, Err (onCommit a e))
          | CommitLost e => (db', Err (onCommit a e))
          end
      | Err e => (db, Err e)
      | Panic p => (db, Panic p)
      end
  end.

(** A check before the transaction. *)
Definition guarded {A} (m : outcome unit) (db : database) (k : database * outcome A) : database * outcome A :=
  match m with Ok _ => k | Err e => (db, Err e) | Panic p => (db, Panic p) end.

(** [r.pool] of a repository that may be nil *)
Definition pool (r : option FinancialSchedulerRepo) : outcome unit :=
  match r with
  | Some r => if r.(repo_pool) then Ok tt else Panic NilDereference
  | None => Panic NilDereference
  end.

Definition stage (r : option FinancialSchedulerRepo) (name : string) : outcome unit :=
  match r with
  | None => Panic NilDereference
  | Some r => match r.(repo_afterStage) with None => Ok tt | Some f => failing (f name) end
  end.

Section store.
Context {E : Externals}.

(** ** Tables *)

(** [INSERT INTO financial_job_definitions ... ON CONFLICT(job_key) DO NOTHING] *)
Definition insert_definition (db : database) (d : JobDefinition) : outcome database :=
  if existsb (fun row => row.(def_Key) ==? d.(def_Key)) db.(db_definitions) then Ok db
  else
    reject (existsb (fun row => row.(def_ID) ==? d.(def_ID)) db.(db_definitions)) "duplicate key" ;;
    Ok (MkDatabase (d :: db.(db_definitions)) db.(db_occurrences) db.(db_events) db.(db_claims)).

(** Two rows for one scheduled slot, or for one manual request. *)
Definition slot_conflict (o row : Occurrence) : bool :=
  ((o.(occ_Trigger) ==? TriggerScheduled) && (row.(occ_Trigger) ==? TriggerScheduled) &&
   (o.(occ_JobKey) ==? row.(occ_JobKey)) && (o.(occ_ScheduleRevision) ==? row.(occ_ScheduleRevision)) &&
   TimeEqual o.(occ_DueAt) row.(occ_DueAt)) ||
  ((o.(occ_Trigger) ==? TriggerManual) && (row.(occ_Trigger) ==? TriggerManual) &&
   (o.(occ_ManualRequestID) ==? row.(occ_ManualRequestID))).

(** [INSERT INTO financial_job_occurrences ... ON CONFLICT(id) DO NOTHING] *)
Definition insert_occurrence (db : database) (o : Occurrence) : outcome database :=
  if existsb (fun row => row.(occ_ID) ==? o.(occ_ID)) db.(db_occurrences) then Ok db
  else
    reject (negb (existsb (fun row => row.(def_Key) ==? o.(occ_JobKey)) db.(db_definitions))) "foreign key" ;;
    reject (existsb (slot_conflict o) db.(db_occurrences)) "duplicate key" ;;
    Ok (MkDatabase db.(db_definitions) (o :: db.(db_occurrences)) db.(db_events) db.(db_claims)).

(** [WHERE occurrence_id=$1 ORDER BY sequence DESC LIMIT 1] *)
Fixpoint latest (occurrenceID : UUID) (rows : list leaseEvent) : option leaseEvent :=
  match rows with
  | [] => None
  | row :: rest =>
      if row.(ev_OccurrenceID) ==? occurrenceID then
        match latest occurrenceID rest with
        | Some best => if (row.(ev_Sequence) <? best.(ev_Sequence))%Z then Some best else Some row
        | None => Some row
        end
      else latest occurrenceID rest
  end.

(** A comparison of a nullable column with a time is not true for NULL. *)
Definition expired (at_ : option Time) (now : Time) : bool := some_and (fun t => negb (After t now)) at_.
Definition unexpired (at_ : option Time) (now : Time) : bool := some_and (fun t => After t now) at_.

(** [validate_financial_job_lease_event()]: the row with its time set, or the
    exception. *)
Definition validate_financial_job_lease_event (c : connection) (db : database) (new : leaseEvent)
    : outcome leaseEvent :=
  reject (negb (existsb (fun row => row.(occ_ID) ==? new.(ev_OccurrenceID)) db.(db_occurrences)))
    "financial scheduler occurrence is missing" ;;
  let now := db_now c "trigger" in
  let stamped := MkLeaseEvent new.(ev_ID) new.(ev_OccurrenceID) new.(ev_Sequence) new.(ev_Kind) new.(ev_OwnerID)
                   new.(ev_FenceToken) now new.(ev_ExpiresAt) new.(ev_OutcomeSHA256) in
  match latest new.(ev_OccurrenceID) db.(db_events) with
  | None =>
      reject ((new.(ev_Kind) !=? EventAcquired) || negb (new.(ev_Sequence) =? 1)%Z || negb (new.(ev_FenceToken) =? 1)%Z)
        "financial scheduler first event must acquire fence one" ;;
      Ok stamped
  | Some previous =>
      if terminal_kind previous.(ev_Kind) then Err (Errorf "financial scheduler occurrence is terminal")
      else
        let next := (new.(ev_Sequence) =? previous.(ev_Sequence) + 1)%Z in
        let holder := (new.(ev_FenceToken) =? previous.(ev_FenceToken))%Z && (new.(ev_OwnerID) ==? previous.(ev_OwnerID)) in
        let later := match new.(ev_ExpiresAt), previous.(ev_ExpiresAt) with
                     | Some t, Some u => After t u
                     | _, _ => true
                     end in
        match new.(ev_Kind) with
        | EventAcquired =>
            reject (unexpired previous.(ev_ExpiresAt) now || negb next ||
                    negb (new.(ev_FenceToken) =? previous.(ev_FenceToken) + 1)%Z)
              "financial scheduler takeover is not authorized" ;;
            Ok stamped
        | EventRenewed =>
            reject (expired previous.(ev_ExpiresAt) now || negb next || negb holder || negb later)
              "financial scheduler renewal is not authorized" ;;
            Ok stamped
        | _ =>
            reject (expired previous.(ev_ExpiresAt) now || negb next || negb holder)
              "financial scheduler completion is not authorized" ;;
            Ok stamped
        end
  end.

(** [INSERT INTO financial_job_lease_events]: the trigger, then the keys and
    the CHECK on the kind and the expiry. *)
Definition insert_lease_event (c : connection) (db : database) (new : leaseEvent) : outcome (database * leaseEvent) :=
  row ← validate_financial_job_lease_event c db new ;
  reject (negb (if lease_kind row.(ev_Kind) then unexpired row.(ev_ExpiresAt) row.(ev_OccurredAt)
                else is_nil row.(ev_ExpiresAt))) "check constraint" ;;
  reject (existsb (fun r => r.(ev_ID) ==? row.(ev_ID)) db.(db_events)) "duplicate key" ;;
  reject (existsb (fun r => (r.(ev_OccurrenceID) ==? row.(ev_OccurrenceID)) &&
                            (r.(ev_Sequence) =? row.(ev_Sequence))%Z) db.(db_events)) "duplicate key" ;;
  Ok (MkDatabase db.(db_definitions) db.(db_occurrences) (row :: db.(db_events)) db.(db_claims), row).

(** [validate_financial_job_effect_claim()] *)
Definition validate_financial_job_effect_claim (c : connection) (db : database) (new : effectClaim)
    : outcome effectClaim :=
  let now := db_now c "claim_trigger" in
  match latest new.(claim_Effect).(eff_OccurrenceID) db.(db_events) with
  | Some current =>
      reject (negb (lease_kind current.(ev_Kind)) || expired current.(ev_ExpiresAt) now ||
              (current.(ev_OwnerID) !=? new.(claim_OwnerID)) ||
              negb (current.(ev_FenceToken) =? new.(claim_FenceToken))%Z)
        "financial scheduler effect claim is not fenced by the current lease" ;;
      Ok (MkEffectClaim new.(claim_Effect) new.(claim_OwnerID) new.(claim_FenceToken) now)
  | None => Err (Errorf "financial scheduler effect claim is not fenced by the current lease")
  end.

(** [UNIQUE (occurrence_id, effect_kind, business_key)] *)
Definition same_business (a b : Effect) : bool :=
  (a.(eff_OccurrenceID) ==? b.(eff_OccurrenceID)) && (a.(eff_Kind) ==? b.(eff_Kind)) &&
  (a.(eff_BusinessKey) ==? b.(eff_BusinessKey)).

(** [INSERT INTO financial_job_effect_claims] *)
Definition insert_claim (c : connection) (db : database) (new : effectClaim) : outcome database :=
  row ← validate_financial_job_effect_claim c db new ;
  reject (negb (existsb (fun o => o.(occ_ID) ==? row.(claim_Effect).(eff_OccurrenceID)) db.(db_occurrences)))
    "foreign key" ;;
  reject (existsb (fun r => r.(claim_Effect).(eff_ID) ==? row.(claim_Effect).(eff_ID)) db.(db_claims)) "duplicate key" ;;
  reject (existsb (fun r => same_business r.(claim_Effect) row.(claim_Effect)) db.(db_claims)) "duplicate key" ;;
  Ok (MkDatabase db.(db_definitions) db.(db_occurrences) db.(db_events) (row :: db.(db_claims))).

(** ** Helpers of the repository *)

Definition leaseEventID (occurrenceID : UUID) (sequence : Z) (kind : EventKind) (ownerID : UUID) (fence : Z) : UUID :=
  DeterministicUUID "financial-job-lease-event"
    [uuid_string occurrenceID; json_int sequence; EventKind_string kind; uuid_string ownerID; json_int fence].

Definition eventLease (occurrenceID : UUID) (event : leaseEvent) : Lease :=
  MkLease occurrenceID event.(ev_OwnerID) event.(ev_FenceToken) event.(ev_Sequence) event.(ev_OccurredAt)
    (match event.(ev_ExpiresAt) with Some t => t | None => ZeroTime end).

Definition latestLeaseEvent (c : connection) (db : database) (occurrenceID : UUID) : outcome (option leaseEvent) :=
  wrap "postgres: read financial scheduler lease: %w" (statement c "read_lease") ;;
  Ok (latest occurrenceID db.(db_events)).

Definition persistOccurrence (c : connection) (db : database) (occurrence : Occurrence) : outcome database :=
  db ← wrap "postgres: persist financial occurrence: %w"
         (statement c "insert_occurrence" ;; insert_occurrence db occurrence) ;
  statement c "read_occurrence" ;;
  match List.find (fun row => row.(occ_ID) ==? occurrence.(occ_ID)) db.(db_occurrences) with
  | None => Err ErrNoRows
  | Some row =>
      if (row.(occ_SHA256) !=? occurrence.(occ_SHA256)) || (row.(occ_CanonicalJSON) !=? occurrence.(occ_CanonicalJSON))
      then Err ErrFinancialOccurrenceConflict
      else Ok db
  end.

(** The row of a lease: its expiry is the clock plus the requested time. *)
Definition lease_row (c : connection) (occurrenceID : UUID) (sequence : Z) (kind : EventKind) (ownerID : UUID)
    (fence : Z) (ttl : Duration) : leaseEvent :=
  MkLeaseEvent (leaseEventID occurrenceID sequence kind ownerID fence) occurrenceID sequence kind ownerID fence
    (db_now c "occurred_at")
    (Some (MkTime ((db_now c "expires_at").(instant) + Microseconds ttl * Microsecond)%Z true)) "".

(** The lease of a row [INSERT ... RETURNING] gave back. *)
Definition returned_lease (row : leaseEvent) : Lease := eventLease row.(ev_OccurrenceID) row.

(** ** Operations *)

(** One definition of [RegisterCatalog]'s loop. *)
Definition registerDefinition (c : connection) (db : database) (key : string) (definition : JobDefinition)
    : outcome database :=
  db ← wrap "postgres: persist financial job definition %q: %w"
         (statement c "insert_definition" ;; insert_definition db definition) ;
  row ← wrap "postgres: read financial job definition %q: %w"
          (statement c "read_definition" ;;
           match List.find (fun row => row.(def_Key) ==? key) db.(db_definitions) with
           | Some row => Ok row
           | None => Err ErrNoRows
           end) ;
  if (row.(def_ID) !=? definition.(def_ID)) || (row.(def_SHA256) !=? definition.(def_SHA256)) ||
     (row.(def_CanonicalJSON) !=? definition.(def_CanonicalJSON))
  then Err ErrFinancialOccurrenceConflict
  else Ok db.

Fixpoint registerDefinitions (c : connection) (db : database) (catalog : list (string * JobDefinition))
    : outcome database :=
  match catalog with
  | [] => Ok db
  | (key, definition) :: rest => db ← registerDefinition c db key definition ; registerDefinitions c db rest
  end.

Definition RegisterCatalog (r : option FinancialSchedulerRepo) (c : connection) (db : database)
    (catalog : gmap string JobDefinition) : database * outcome unit :=
  let ordered := sort_slice (fun a b => string_lt a.1 b.1) (map_to_list catalog) in
  guarded (reject (negb (some_and repo_pool r)) "postgres: financial scheduler pool is required") db
    (transaction c (Wrapf "postgres: begin financial scheduler catalog: %w") (fun _ e => e) db (fun db =>
       db ← registerDefinitions c db ordered ;
       stage r "definitions" ;;
       Ok (db, tt))).

Definition Acquire (r : option FinancialSchedulerRepo) (c : connection) (db : database)
    (occurrence : option Occurrence) (ownerID : UUID) (ttl : Duration) : database * outcome Acquisition :=
  guarded (reject (negb (some_and repo_pool r)) "postgres: financial scheduler pool is required") db
  (guarded (reject (is_nil occurrence || (ownerID ==? Nil))
              "postgres: financial scheduler occurrence and owner are required") db
  (match occurrence with
   | None => (db, Panic NilDereference)
   | Some occurrence =>
  guarded (Occurrence_Validate occurrence) db
  (guarded (reject ((ttl <? minimumFinancialLease)%Z || (maximumFinancialLease <? ttl)%Z)
              "postgres: financial scheduler lease duration is out of bounds") db
  (transaction c (Wrapf "postgres: begin financial scheduler acquisition: %w")
     (fun acquisition e =>
        if acquisition.(acq_Acquired) then Wrapf "postgres: commit financial scheduler acquisition: %w" e else e)
     db (fun db =>
     db ← persistOccurrence c db occurrence ;
     stage r "occurrence" ;;
     wrap "postgres: lock financial occurrence: %w" (statement c "lock") ;;
     previous ← latestLeaseEvent c db occurrence.(occ_ID) ;
     wrap "postgres: read financial scheduler clock: %w" (statement c "clock") ;;
     let dbNow := db_now c "clock" in
     if some_and (fun p => terminal_kind p.(ev_Kind)) previous then Ok (db, MkAcquisition ZeroLease false true)
     else
       match previous with
       | Some p =>
           if unexpired p.(ev_ExpiresAt) dbNow
           then Ok (db, MkAcquisition (eventLease occurrence.(occ_ID) p) false false)
           else
             let sequence := int64_succ p.(ev_Sequence) in
             let fence := int64_succ p.(ev_FenceToken) in
             '(db, row) ← wrap "postgres: acquire financial scheduler lease: %w"
                            (statement c "insert_lease" ;;
                             insert_lease_event c db (lease_row c occurrence.(occ_ID) sequence EventAcquired ownerID fence ttl)) ;
             stage r "lease_event" ;;
             Ok (db, MkAcquisition (returned_lease row) true false)
       | None =>
           '(db, row) ← wrap "postgres: acquire financial scheduler lease: %w"
                          (statement c "insert_lease" ;;
                           insert_lease_event c db (lease_row c occurrence.(occ_ID) 1 EventAcquired ownerID 1 ttl)) ;
           stage r "lease_event" ;;
           Ok (db, MkAcquisition (returned_lease row) true false)
       end))) end)).

(** The latest event is the one the lease was read from, and it is a lease. *)
Definition current (lease : Lease) (event : leaseEvent) : bool :=
  (event.(ev_OwnerID) ==? lease.(lease_OwnerID)) && (event.(ev_FenceToken) =? lease.(lease_FenceToken))%Z &&
  (event.(ev_Sequence) =? lease.(lease_Sequence))%Z && lease_kind event.(ev_Kind).

Definition Renew (r : option FinancialSchedulerRepo) (c : connection) (db : database) (lease : Lease) (ttl : Duration)
    : database * outcome Lease :=
  guarded (reject ((ttl <? minimumFinancialLease)%Z || (maximumFinancialLease <? ttl)%Z)
             "postgres: financial scheduler lease duration is out of bounds") db
  (guarded (pool r) db
  (transaction c id (fun _ e => e) db (fun db =>
     statement c "lock" ;;
     previous ← latestLeaseEvent c db lease.(lease_OccurrenceID) ;
     match previous with
     | Some previous =>
         if negb (current lease previous) then Err ErrFinancialLeaseNotCurrent
         else
           let sequence := int64_succ previous.(ev_Sequence) in
           '(db, row) ← wrap "postgres: renew financial scheduler lease: %w"
                          (statement c "insert_lease" ;;
                           insert_lease_event c db
                             (lease_row c lease.(lease_OccurrenceID) sequence EventRenewed lease.(lease_OwnerID)
                                lease.(lease_FenceToken) ttl)) ;
           stage r "lease_event" ;;
           Ok (db, returned_lease row)
     | None => Err ErrFinancialLeaseNotCurrent
     end))).

Definition ClaimEffect (r : option FinancialSchedulerRepo) (c : connection) (db : database) (lease : Lease)
    (effect : option Effect) : database * outcome Effect :=
  match effect with
  | None => (db, Err (Errorf "postgres: financial scheduler effect scope mismatch"))
  | Some effect =>
  guarded (reject (effect.(eff_OccurrenceID) !=? lease.(lease_OccurrenceID))
             "postgres: financial scheduler effect scope mismatch") db
  (guarded (Effect_Validate effect) db
  (guarded (pool r) db
  (transaction c id (fun _ e => e) db (fun db =>
     statement c "lock" ;;
     latest_event ← latestLeaseEvent c db lease.(lease_OccurrenceID) ;
     statement c "clock" ;;
     let dbNow := db_now c "clock" in
     match latest_event with
     | Some event =>
         if negb (current lease event) || negb (unexpired event.(ev_ExpiresAt) dbNow)
         then Err ErrFinancialLeaseNotCurrent
         else
           wrap "postgres: read financial scheduler effect: %w" (statement c "read_effect") ;;
           match List.find (fun row => row.(claim_Effect).(eff_ID) ==? effect.(eff_ID)) db.(db_claims) with
           | Some existing =>
               if (existing.(claim_Effect).(eff_SHA256) !=? effect.(eff_SHA256)) ||
                  (existing.(claim_Effect).(eff_PayloadSHA256) !=? effect.(eff_PayloadSHA256)) ||
                  (existing.(claim_Effect).(eff_CanonicalJSON) !=? effect.(eff_CanonicalJSON))
               then Err ErrFinancialEffectConflict
               else Ok (db, effect)
           | None =>
               db ← wrap "postgres: claim financial scheduler effect: %w"
                      (statement c "insert_claim" ;;
                       insert_claim c db
                         (MkEffectClaim effect lease.(lease_OwnerID) lease.(lease_FenceToken) (db_now c "claimed_at"))) ;
               stage r "effect_claim" ;;
               Ok (db, effect)
           end
     | None => Err ErrFinancialLeaseNotCurrent
     end))))
  end.

Definition Complete (r : option FinancialSchedulerRepo) (c : connection) (db : database) (lease : Lease)
    (succeeded : bool) (outcomeSHA256 : string) : database * outcome unit :=
  guarded (reject (negb (String.length outcomeSHA256 =? 64)%nat)
             "postgres: financial scheduler outcome sha256 is invalid") db
  (let kind := if succeeded then EventSucceeded else EventFailed in
  guarded (pool r) db
  (transaction c id (fun _ e => e) db (fun db =>
     statement c "lock" ;;
     latest_event ← latestLeaseEvent c db lease.(lease_OccurrenceID) ;
     match latest_event with
     | Some event =>
         if negb (current lease event) then Err ErrFinancialLeaseNotCurrent
         else
           let sequence := int64_succ event.(ev_Sequence) in
           '(db, _) ← wrap "postgres: complete financial scheduler occurrence: %w"
                        (statement c "insert_terminal" ;;
                         insert_lease_event c db
                           (MkLeaseEvent (leaseEventID lease.(lease_OccurrenceID) sequence kind lease.(lease_OwnerID)
                                            lease.(lease_FenceToken))
                              lease.(lease_OccurrenceID) sequence kind lease.(lease_OwnerID) lease.(lease_FenceToken)
                              (db_now c "occurred_at") None outcomeSHA256)) ;
           stage r "terminal_event" ;;
           Ok (db, tt)
     | None => Err ErrFinancialLeaseNotCurrent
     end))).
End store.
