(* ===== verification/LeaseStoreProofs.v ===== *)
(** * What a transaction of the lease store does

    Each method of the repository leaves the leases and the claims alone, or
    adds one lease event that extends the log of its occurrence, or adds one
    claim made under the current lease. *)

From S2P Require Import Prelude GoStd GoText Externals EconomicId FinancialJobs LeaseStore.

Local Open Scope go_scope.
Local Open Scope Z_scope.

(** ** Changes of the tables *)

(** The log of an occurrence, the newest event first. *)
Definition log_of (o : UUID) (rows : list leaseEvent) : list leaseEvent :=
  filter (fun row => row.(ev_OccurrenceID) = o) rows.

Definition time_lt (t u : option Time) : Prop :=
  match t, u with Some t, Some u => t.(instant) < u.(instant) | _, _ => False end.

(** [e] may be the first event of an occurrence. *)
Definition opens (e : leaseEvent) : Prop :=
  e.(ev_Kind) = EventAcquired /\ e.(ev_Sequence) = 1 /\ e.(ev_FenceToken) = 1.

(** [e] may follow [p]: a takeover after the expiry raises the fence, a renewal
    or a completion before it keeps fence and owner. *)
Definition follows (p e : leaseEvent) : Prop :=
  lease_kind p.(ev_Kind) = true /\ e.(ev_Sequence) = p.(ev_Sequence) + 1 /\
  match e.(ev_Kind) with
  | EventAcquired => e.(ev_FenceToken) = p.(ev_FenceToken) + 1 /\ ~ time_lt (Some e.(ev_OccurredAt)) p.(ev_ExpiresAt)
  | EventRenewed => e.(ev_FenceToken) = p.(ev_FenceToken) /\ e.(ev_OwnerID) = p.(ev_OwnerID) /\
                    time_lt (Some e.(ev_OccurredAt)) p.(ev_ExpiresAt) /\ time_lt p.(ev_ExpiresAt) e.(ev_ExpiresAt)
  | _ => e.(ev_FenceToken) = p.(ev_FenceToken) /\ e.(ev_OwnerID) = p.(ev_OwnerID) /\
         time_lt (Some e.(ev_OccurredAt)) p.(ev_ExpiresAt)
  end.

(** A lease expires after it was granted; a terminal event has no expiry. *)
Definition dated (e : leaseEvent) : Prop :=
  if lease_kind e.(ev_Kind) then time_lt (Some e.(ev_OccurredAt)) e.(ev_ExpiresAt) else e.(ev_ExpiresAt) = None.

Definition extends_log (log : option leaseEvent) (e : leaseEvent) : Prop :=
  match log with None => opens e | Some p => follows p e end.

(** The log of an occurrence: every event follows the one before it. *)
Inductive lease_log : list leaseEvent -> Prop :=
  | log_nil : lease_log []
  | log_cons e log : lease_log log -> dated e -> extends_log (head log) e -> lease_log (e :: log).

Definition logged (db : database) : Prop := forall o, lease_log (log_of o db.(db_events)).

Definition same_leases (db db' : database) : Prop :=
  db'.(db_events) = db.(db_events) /\ db'.(db_claims) = db.(db_claims).

Record event_added (c : connection) (db db' : database) (row : leaseEvent) : Prop := {
  added_time : row.(ev_OccurredAt) = db_now c "trigger";
  added_events : db'.(db_events) = row :: db.(db_events);
  added_event_claims : db'.(db_claims) = db.(db_claims);
  added_dated : logged db -> dated row;
  added_follows : logged db -> extends_log (latest row.(ev_OccurrenceID) db.(db_events)) row;
}.

Record claim_added (db db' : database) (row : effectClaim) (e : leaseEvent) : Prop := {
  added_claims : db'.(db_claims) = row :: db.(db_claims);
  added_claim_events : db'.(db_events) = db.(db_events);
  added_lease : latest row.(claim_Effect).(eff_OccurrenceID) db.(db_events) = Some e;
  added_lease_kind : lease_kind e.(ev_Kind) = true;
  added_owner : row.(claim_OwnerID) = e.(ev_OwnerID);
  added_fence : row.(claim_FenceToken) = e.(ev_FenceToken);
  added_in_time : logged db -> time_lt (Some row.(claim_ClaimedAt)) e.(ev_ExpiresAt);
  added_new_id : Forall (fun r => r.(claim_Effect).(eff_ID) <> row.(claim_Effect).(eff_ID)) db.(db_claims);
  added_new_business : Forall (fun r => same_business r.(claim_Effect) row.(claim_Effect) = false) db.(db_claims);
}.

(** ** Transactions *)

Lemma transaction_inv {A} c onBegin onCommit db (body : database -> outcome (database * A)) db' res :
  transaction c onBegin onCommit db body = (db', res) ->
  (db' = db /\ (forall a, res <> Ok a)) \/
  exists a, body db = Ok (db', a) /\ (res = Ok a \/ exists e, res = Err e).
Proof.
  unfold transaction. destruct c.(conn_begin); [intros; simplify_eq; by left; split|].
  destruct (body db) as [[db1 a]|e|p] eqn:Hb; [|intros; simplify_eq; by left; split..].
  destruct c.(conn_commit); intros; simplify_eq; [right|left; by split|right]; eauto.
Qed.

Lemma guarded_inv {A} m db (k : database * outcome A) db' res :
  guarded m db k = (db', res) -> (db' = db /\ (forall a, res <> Ok a)) \/ (exists u, m = Ok u) /\ k = (db', res).
Proof. unfold guarded. destruct m; intros; simplify_eq; [right; eauto|left; by split..]. Qed.

(** Peel the guards and the transaction off a call; what is left is its body. *)
Ltac open_call H :=
  repeat match type of H with
  | guarded _ _ _ = _ =>
      let Hg := fresh "Hg" in apply guarded_inv in H as [H|[[? Hg] H]]; [left; exact H|]
  end;
  try (apply transaction_inv in H as [H|(? & H & Hres)]; [left; exact H|]).

Lemma statement_Ok c name u : statement c name = Ok u -> c.(conn_statement) name = None.
Proof. unfold statement, failing. by destruct (c.(conn_statement) name). Qed.

(** ** Single rows *)

Lemma After_lt t u : After t u = true <-> u.(instant) < t.(instant).
Proof. unfold After. apply Z.ltb_lt. Qed.

Lemma unexpired_true at_ now : unexpired at_ now = true <-> time_lt (Some now) at_.
Proof. unfold unexpired, time_lt. destruct at_; simpl; [apply After_lt|done]. Qed.

Lemma unexpired_false at_ now : unexpired at_ now = false <-> ~ time_lt (Some now) at_.
Proof. rewrite <- unexpired_true. by destruct (unexpired at_ now). Qed.

Lemma expired_false at_ now : expired at_ now = false -> at_ <> None -> time_lt (Some now) at_.
Proof.
  unfold expired, time_lt. destruct at_; simpl; [|done]. rewrite negb_false_iff, After_lt. done.
Qed.

Lemma lease_not_terminal k : lease_kind k = negb (terminal_kind k).
Proof. by destruct k. Qed.

Lemma log_of_cons o row rows :
  log_of o (row :: rows) = if decide (row.(ev_OccurrenceID) = o) then row :: log_of o rows else log_of o rows.
Proof. unfold log_of. rewrite filter_cons. by destruct (decide _). Qed.

Lemma latest_cons o row rows :
  latest o (row :: rows) =
    if decide (row.(ev_OccurrenceID) = o) then
      match latest o rows with
      | Some best => if row.(ev_Sequence) <? best.(ev_Sequence) then Some best else Some row
      | None => Some row
      end
    else latest o rows.
Proof. simpl. by destruct (decide _) as [H|H]; [rewrite bool_decide_eq_true_2|rewrite bool_decide_eq_false_2]. Qed.

(** In a log the newest event has the greatest sequence. *)
Lemma latest_head o rows : lease_log (log_of o rows) -> latest o rows = head (log_of o rows).
Proof.
  induction rows as [|row rows IH]; [done|]. rewrite log_of_cons, latest_cons.
  destruct (decide _) as [_|_]; [|exact IH]. inversion 1 as [|? ? Hlog _ Hext]; subst.
  rewrite (IH Hlog). destruct (head (log_of o rows)) as [p|]; [|done]. simpl in *.
  destruct Hext as (_ & Hs & _). destruct (Z.ltb_spec row.(ev_Sequence) p.(ev_Sequence)); [lia|done].
Qed.

Lemma log_latest_dated db o e : logged db -> latest o db.(db_events) = Some e -> dated e.
Proof.
  intros Hlog. rewrite latest_head by apply Hlog. specialize (Hlog o). inversion Hlog; simpl; intros; by simplify_eq.
Qed.

Lemma dated_expiry e : dated e -> lease_kind e.(ev_Kind) = true -> e.(ev_ExpiresAt) <> None.
Proof. unfold dated. intros Hd Hk. rewrite Hk in Hd. by destruct e.(ev_ExpiresAt). Qed.

(** ** Inserting rows *)

Lemma existsb_none {A} (f : A -> bool) l : existsb f l = false <-> Forall (fun x => f x = false) l.
Proof. induction l as [|x l IH]; simpl; [done|]. by rewrite orb_false_iff, Forall_cons, IH. Qed.

Section inserts.
Context {E : Externals}.

Lemma validate_event_inv c db new row : validate_financial_job_lease_event c db new = Ok row ->
  row = MkLeaseEvent new.(ev_ID) new.(ev_OccurrenceID) new.(ev_Sequence) new.(ev_Kind) new.(ev_OwnerID)
          new.(ev_FenceToken) (db_now c "trigger") new.(ev_ExpiresAt) new.(ev_OutcomeSHA256) /\
  (logged db -> dated row -> extends_log (latest new.(ev_OccurrenceID) db.(db_events)) row).
Proof.
  unfold validate_financial_job_lease_event. intros H. inv_ok H. clear H0.
  destruct (latest new.(ev_OccurrenceID) db.(db_events)) as [p|] eqn:Hl.
  - destruct (terminal_kind p.(ev_Kind)) eqn:Ht; [discriminate H|].
    assert (Hk : lease_kind p.(ev_Kind) = true) by (by rewrite lease_not_terminal, Ht).
    assert (Hexp : logged db -> p.(ev_ExpiresAt) <> None)
      by (intros Hlog; exact (dated_expiry _ (log_latest_dated _ _ _ Hlog Hl) Hk)).
    destruct new.(ev_Kind) eqn:Hkind; inv_ok H; subst row; (split; [done|]); split_bools;
      rewrite ?Z.eqb_eq in *; rewrite ?unexpired_false in *; intros Hlog Hd;
      specialize (Hexp Hlog); (split; [exact Hk|]; split; [done|]); cbn [ev_Kind ev_FenceToken ev_OwnerID ev_OccurredAt ev_ExpiresAt];
      split_and!; try done;
      try by apply expired_false.
    destruct new.(ev_ExpiresAt), p.(ev_ExpiresAt); try done. by apply After_lt.
  - inv_ok H. subst row. split; [done|]. intros _ _. split_bools. rewrite ?Z.eqb_eq in *. done.
Qed.

Lemma insert_lease_event_inv c db new db' row : insert_lease_event c db new = Ok (db', row) ->
  event_added c db db' row /\
  row = MkLeaseEvent new.(ev_ID) new.(ev_OccurrenceID) new.(ev_Sequence) new.(ev_Kind) new.(ev_OwnerID)
          new.(ev_FenceToken) (db_now c "trigger") new.(ev_ExpiresAt) new.(ev_OutcomeSHA256).
Proof.
  unfold insert_lease_event. intros H. inv_ok H. injection H as <- <-.
  destruct (validate_event_inv _ _ _ _ H0) as [Hrow Hext]. split; [|exact Hrow].
  assert (Hd : dated x).
  { unfold dated. apply negb_false_iff in H1. destruct (lease_kind x.(ev_Kind)).
    - by apply unexpired_true.
    - by apply is_nil_true in H1. }
  split; try done; [by rewrite Hrow|]. intros Hlog. rewrite Hrow. rewrite Hrow in Hext, Hd. exact (Hext Hlog Hd).
Qed.

Lemma insert_claim_inv c db new db' : insert_claim c db new = Ok db' ->
  exists row e, claim_added db db' row e /\ row.(claim_Effect) = new.(claim_Effect).
Proof.
  unfold insert_claim, validate_financial_job_effect_claim. intros H. inv_ok H. subst db'.
  destruct (latest _ db.(db_events)) as [e|] eqn:Hl; [|discriminate H0]. inv_ok H0. subst x. simpl in *. split_bools.
  exists (MkEffectClaim new.(claim_Effect) new.(claim_OwnerID) new.(claim_FenceToken) (db_now c "claim_trigger")), e.
  split; [|done]. split; try done.
  - symmetry. by apply Z.eqb_eq.
  - intros Hlog. apply expired_false; [done|]. exact (dated_expiry _ (log_latest_dated _ _ _ Hlog Hl) H).
  - apply existsb_none in H2. eapply Forall_impl; [exact H2|]. intros r' Hr. by apply bool_decide_eq_false in Hr.
  - by apply existsb_none.
Qed.

(** ** Operations *)

Lemma insert_occurrence_same db o db' : insert_occurrence db o = Ok db' -> same_leases db db'.
Proof.
  unfold insert_occurrence. destruct (existsb _ _); intros H; inv_ok H; by subst db'.
Qed.

Lemma persist_same c db o db' : persistOccurrence c db o = Ok db' -> same_leases db db'.
Proof.
  unfold persistOccurrence. intros H. inv_ok H. destruct (List.find _ _); [|discriminate H].
  destruct (_ || _); [discriminate H|]. inv_ok H. subst x. by eapply insert_occurrence_same.
Qed.

Lemma register_same c rows db db' : registerDefinitions c db rows = Ok db' -> same_leases db db'.
Proof.
  revert db. induction rows as [|[key d] rows IH]; simpl; intros db H; [by inv_ok H; subst|].
  inv_ok H. apply IH in H. assert (Hx : same_leases db x); [|destruct Hx, H; split; congruence].
  unfold registerDefinition in H0. inv_ok H0. destruct (_ || _); [discriminate H0|]. inv_ok H0. subst x0.
  unfold insert_definition in H1. destruct (existsb _ _); inv_ok H1; by subst x.
Qed.

Lemma RegisterCatalog_spec r c db catalog db' res : RegisterCatalog r c db catalog = (db', res) -> same_leases db db'.
Proof.
  unfold RegisterCatalog. intros H.
  apply guarded_inv in H as [[-> _]|[_ H]]; [done|]. apply transaction_inv in H as [[-> _]|(a & H & _)]; [done|].
  inv_ok H. injection H as <- _. by eapply register_same.
Qed.

Lemma event_added_same c db db1 db' row : same_leases db db1 -> event_added c db1 db' row -> event_added c db db' row.
Proof.
  intros [He Hc] [H0 H1 H2 H3 H4]. unfold logged in *. rewrite He in *. rewrite Hc in *. by split.
Qed.

(** The row an accepted lease insertion wrote. *)
Record granted (c : connection) (db db' : database) (o : UUID) (kind : EventKind) (owner : UUID) (row : leaseEvent) : Prop := {
  granted_event : event_added c db db' row;
  granted_occurrence : row.(ev_OccurrenceID) = o;
  granted_kind : row.(ev_Kind) = kind;
  granted_owner : row.(ev_OwnerID) = owner;
}.

Lemma insert_granted c db new db' row : insert_lease_event c db new = Ok (db', row) ->
  granted c db db' new.(ev_OccurrenceID) new.(ev_Kind) new.(ev_OwnerID) row /\
  row.(ev_FenceToken) = new.(ev_FenceToken) /\ row.(ev_Sequence) = new.(ev_Sequence) /\
  row.(ev_OutcomeSHA256) = new.(ev_OutcomeSHA256).
Proof. intros [Ha Hr]%insert_lease_event_inv. by subst row. Qed.

(** The end of the calls that insert a lease event. *)
Lemma insert_tail {A} c msg name r st db new (f : leaseEvent -> A) db' a :
  ('(db, row) ← wrap msg (statement c name ;; insert_lease_event c db new) ; stage r st ;; Ok (db, f row)) = Ok (db', a) ->
  exists row, insert_lease_event c db new = Ok (db', row) /\ a = f row.
Proof. intros H. inv_ok H. destruct x as [db1 row]. inv_ok H. injection H as <- <-. by exists row. Qed.

(** An acquisition either leaves the log alone and grants nothing, or appends
    the acquisition it reports; the report may be lost. *)
Lemma Acquire_spec r c db o owner ttl db' res : Acquire r c db (Some o) owner ttl = (db', res) ->
  (same_leases db db' /\ (forall a, res = Ok a -> a.(acq_Acquired) = false)) \/
  exists row, granted c db db' o.(occ_ID) EventAcquired owner row /\
              (forall a, res = Ok a -> a = MkAcquisition (returned_lease row) true false).
Proof.
  unfold Acquire. intros H.
  repeat (apply guarded_inv in H as [[-> Hn]|[_ H]]; [left; split; [done|]; intros a Ha; by destruct (Hn a)|]).
  apply transaction_inv in H as [[-> Hn]|(a & H & Hres)]; [left; split; [done|]; intros a Ha; by destruct (Hn a)|].
  inv_ok H. apply persist_same in H0. unfold latestLeaseEvent in H3. inv_ok H3. subst x2.
  assert (Hgrant : forall new, new.(ev_OccurrenceID) = o.(occ_ID) -> new.(ev_Kind) = EventAcquired -> new.(ev_OwnerID) = owner ->
    forall row, insert_lease_event c x new = Ok (db', row) -> a = MkAcquisition (returned_lease row) true false ->
    exists row, granted c db db' o.(occ_ID) EventAcquired owner row /\
              (forall a, res = Ok a -> a = MkAcquisition (returned_lease row) true false)).
  { intros new <- <- <- row Hi ->. exists row. destruct (insert_granted _ _ _ _ _ Hi) as [[Hg ? ? ?] _].
    split; [split; try done; by eapply event_added_same|]. intros a Ha. destruct Hres as [->|[? ->]]; by simplify_eq. }
  assert (Hsame : same_leases db db' -> a.(acq_Acquired) = false ->
    same_leases db db' /\ (forall a, res = Ok a -> a.(acq_Acquired) = false)).
  { intros Hs Ha. split; [done|]. intros a' Ha'. destruct Hres as [->|[? ->]]; by simplify_eq. }
  set (p := latest _ _) in *. destruct (some_and _ p); [inv_ok H; simplify_eq; left; by apply Hsame|].
  destruct p as [p|]; [destruct (unexpired _ _); [inv_ok H; simplify_eq; left; by apply Hsame|]|];
    (right; apply insert_tail in H as (row & Hi & ->); by eapply Hgrant; [| | |exact Hi|]).
Qed.

Lemma current_true lease e : current lease e = true <->
  e.(ev_OwnerID) = lease.(lease_OwnerID) /\ e.(ev_FenceToken) = lease.(lease_FenceToken) /\
  e.(ev_Sequence) = lease.(lease_Sequence) /\ lease_kind e.(ev_Kind) = true.
Proof. unfold current. rewrite !andb_true_iff, bool_decide_eq_true, !Z.eqb_eq. tauto. Qed.

(** A call under a lease changes the tables only if the lease is the latest
    event of its occurrence. *)
Definition held (db : database) (lease : Lease) : Prop :=
  exists e, latest lease.(lease_OccurrenceID) db.(db_events) = Some e /\ current lease e = true.

(** What a renewal or a completion under [lease] appends. *)
Definition continued (c : connection) (db db' : database) (lease : Lease) (kind : EventKind) (row : leaseEvent) : Prop :=
  held db lease /\ granted c db db' lease.(lease_OccurrenceID) kind lease.(lease_OwnerID) row /\
  row.(ev_FenceToken) = lease.(lease_FenceToken).

Lemma latestLeaseEvent_Ok c db o e : latestLeaseEvent c db o = Ok e -> e = latest o db.(db_events).
Proof. unfold latestLeaseEvent. intros H. by inv_ok H. Qed.

(** The common start of the calls under a lease: the latest event is read and
    the lease is current. *)
Ltac open_lease H :=
  open_call H; inv_ok H;
  match goal with Hr : latestLeaseEvent _ _ _ = Ok _ |- _ => apply latestLeaseEvent_Ok in Hr; subst end;
  match type of H with
  | match ?l with _ => _ end = _ => destruct l as [p|] eqn:Hl; [|discriminate H]
  end.

Lemma Renew_spec r c db lease ttl db' res : Renew r c db lease ttl = (db', res) ->
  (db' = db /\ (forall l, res <> Ok l)) \/
  exists row, continued c db db' lease EventRenewed row /\ (forall l, res = Ok l -> l = returned_lease row).
Proof.
  unfold Renew. intros H. open_lease H. destruct (current lease p) eqn:Hc; simpl in H; [|discriminate H].
  apply insert_tail in H as (row & Hi & ->). destruct (insert_granted _ _ _ _ _ Hi) as (Hgr & Hf & _ & _).
  right. exists row. split; [split; [by exists p|by split]|]. intros l Hr. destruct Hres as [->|[? ->]]; by simplify_eq.
Qed.

Lemma Complete_spec r c db lease ok sha db' res : Complete r c db lease ok sha = (db', res) ->
  (db' = db /\ (forall u, res <> Ok u)) \/
  exists row, continued c db db' lease (if ok then EventSucceeded else EventFailed) row.
Proof.
  unfold Complete. intros H. open_lease H. destruct (current lease p) eqn:Hc; simpl in H; [|discriminate H].
  apply (insert_tail _ _ _ _ _ _ _ (fun _ => tt)) in H as (row & Hi & ->).
  destruct (insert_granted _ _ _ _ _ Hi) as (Hgr & Hf & _ & _).
  right. exists row. split; [by exists p|]. by split.
Qed.

(** A claim is recorded, is found recorded with the same content, or fails. *)
Lemma ClaimEffect_spec r c db lease effect db' res : ClaimEffect r c db lease effect = (db', res) ->
  (db' = db /\ (forall f, res <> Ok f)) \/
  exists f, effect = Some f /\ f.(eff_OccurrenceID) = lease.(lease_OccurrenceID) /\ Effect_Validate f = Ok tt /\ held db lease /\
    (forall f', res = Ok f' -> f' = f) /\
    ((db' = db /\ exists row, row ∈ db.(db_claims) /\ row.(claim_Effect).(eff_ID) = f.(eff_ID) /\
                     row.(claim_Effect).(eff_PayloadSHA256) = f.(eff_PayloadSHA256) /\
                     row.(claim_Effect).(eff_CanonicalJSON) = f.(eff_CanonicalJSON)) \/
     exists row e, claim_added db db' row e /\ row.(claim_Effect) = f).
Proof.
  unfold ClaimEffect. destruct effect as [f|]; [|intros; simplify_eq; by left]. intros H. open_lease H.
  destruct (current lease p) eqn:Hc; simpl in H; [|discriminate H]. destruct (unexpired _ _); [|discriminate H].
  apply reject_Ok, negb_false_iff, bool_decide_eq_true in Hg. simpl in H. inv_ok H. destruct x0.
  right. exists f. split; [done|]. split; [done|]. split; [done|]. split; [by exists p|].
  destruct (List.find _ db.(db_claims)) as [row|] eqn:Hf.
  - destruct (_ || _) eqn:Hsame; [discriminate H|]. inv_ok H. simplify_eq. split_bools.
    split; [intros f' ->; destruct Hres as [?|[? ?]]; by simplify_eq|]. left. split; [done|]. exists row.
    apply find_some in Hf as [Hin Hid]. apply bool_decide_eq_true in Hid. by rewrite list_elem_of_In.
  - inv_ok H. simplify_eq.
    split; [intros f' ->; destruct Hres as [?|[? ?]]; by simplify_eq|]. right.
    match goal with Hi : insert_claim _ _ _ = Ok _ |- _ => exact (insert_claim_inv _ _ _ _ Hi) end.
Qed.
End inserts.
