(* ===== verification/LeaseStoreTheorems.v ===== *)
(** * Correctness of the lease store

    The log of every occurrence is a well-formed lease history, the tables
    refine an abstract lease that is free, held or finished, a lease that is no
    longer the latest event has no power, and an effect is claimed once. *)

From S2P Require Import Prelude GoStd Externals FinancialJobs LeaseStore LeaseStoreProofs.

Local Open Scope go_scope.
Local Open Scope Z_scope.

(** ** Histories *)

Definition acquisitions (log : list leaseEvent) : Z :=
  Z.of_nat (length (filter (fun e => e.(ev_Kind) = EventAcquired) log)).

Lemma acquisitions_cons e log :
  acquisitions (e :: log) = acquisitions log + (if decide (e.(ev_Kind) = EventAcquired) then 1 else 0).
Proof. unfold acquisitions. rewrite filter_cons. destruct (decide _); simpl length; lia. Qed.

(** Position [i] counts from the newest event. *)
Lemma lease_log_nth log i e : lease_log log -> log !! i = Some e ->
  e.(ev_Sequence) = Z.of_nat (length log) - Z.of_nat i /\ e.(ev_FenceToken) = acquisitions (drop i log) /\
  (terminal_kind e.(ev_Kind) = true -> i = 0%nat).
Proof.
  intros Hlog. revert i e. induction Hlog as [|x log Hlog IH Hd Hext]; intros i e Hi; [done|].
  destruct i as [|i]; simpl in Hi.
  - injection Hi as ->. rewrite drop_0, acquisitions_cons. destruct log as [|p log]; simpl in Hext; cbn [length].
    + destruct Hext as (Hk & Hs & Hf). rewrite decide_True by done. split_and!; [lia|by rewrite Hf|done].
    + destruct (IH 0%nat p eq_refl) as (Hsp & Hfp & _). rewrite drop_0 in Hfp. destruct Hext as (_ & Hs & Hkind).
      cbn [length] in Hsp. split_and!; [lia| |done].
      destruct e.(ev_Kind); [rewrite decide_True by done|rewrite decide_False by done..]; lia.
  - destruct (IH i e Hi) as (Hs & Hf & Ht). cbn [length]. split_and!; [lia|done|]. intros Hte. exfalso.
    rewrite (Ht Hte) in Hi. destruct log as [|p log]; [done|]. simpl in Hi. injection Hi as ->.
    destruct Hext as [Hk _]. rewrite lease_not_terminal, Hte in Hk. done.
Qed.

(** The newest event bounds the fences and the sequences before it. *)
Lemma lease_log_max e log x : lease_log (e :: log) -> x ∈ e :: log ->
  x.(ev_FenceToken) <= e.(ev_FenceToken) /\ x.(ev_Sequence) <= e.(ev_Sequence).
Proof.
  revert e. induction log as [|p log IH]; intros e Hlog Hx.
  - apply elem_of_cons in Hx as [-> |Hx]; [lia|by apply elem_of_nil in Hx].
  - inversion Hlog as [|? ? Hp _ Hext]; subst. destruct Hext as (_ & Hs & Hkind).
    apply elem_of_cons in Hx as [-> |Hx]; [lia|].
    destruct (IH p Hp Hx) as [Hf Hsx]. destruct e.(ev_Kind); lia.
Qed.

(** A fence has one owner. *)
Lemma lease_log_owner log x y : lease_log log -> x ∈ log -> y ∈ log -> x.(ev_FenceToken) = y.(ev_FenceToken) ->
  x.(ev_OwnerID) = y.(ev_OwnerID).
Proof.
  intros Hlog. revert x y. induction Hlog as [|e log Hlog IH Hd Hext]; intros x y Hx Hy Hxy; [by apply elem_of_nil in Hx|].
  assert (Hnew : forall z, z ∈ log -> z.(ev_FenceToken) = e.(ev_FenceToken) -> z.(ev_OwnerID) = e.(ev_OwnerID)).
  { intros z Hz Hf. destruct log as [|p log]; [by apply elem_of_nil in Hz|]. destruct Hext as (_ & _ & Hkind).
    destruct (lease_log_max p log z Hlog Hz) as [Hle _].
    assert (Hp : p ∈ p :: log) by apply list_elem_of_here.
    destruct e.(ev_Kind); [lia|destruct Hkind as (Hef & -> & _); by apply IH; [..|lia]..]. }
  apply elem_of_cons in Hx as [-> |Hx], Hy as [-> |Hy]; auto using eq_sym.
Qed.

(** ** One transaction *)

Section store.
Context {E : Externals}.

Inductive store_change (db db' : database) : Prop :=
  | change_none : same_leases db db' -> store_change db db'
  | change_event c row : event_added c db db' row -> store_change db db'
  | change_claim row e : claim_added db db' row e -> Effect_Validate row.(claim_Effect) = Ok tt -> store_change db db'.


(** Any client calls any method, with any connection and any arguments. *)
Inductive store_call (c : connection) : database -> database -> Prop :=
  | store_register r db catalog db' res : RegisterCatalog r c db catalog = (db', res) -> store_call c db db'
  | store_acquire r db o owner ttl db' res : Acquire r c db o owner ttl = (db', res) -> store_call c db db'
  | store_renew r db lease ttl db' res : Renew r c db lease ttl = (db', res) -> store_call c db db'
  | store_claim r db lease effect db' res : ClaimEffect r c db lease effect = (db', res) -> store_call c db db'
  | store_complete r db lease ok sha db' res : Complete r c db lease ok sha = (db', res) -> store_call c db db'.

Definition store_step (db db' : database) : Prop := exists c, store_call c db db'.

Definition no_rows : database := MkDatabase [] [] [] [].
Definition reachable_store (db : database) : Prop := rtc store_step no_rows db.

(** What one call does; a lease event bears the time the trigger read. *)
Lemma store_call_change c db db' : store_call c db db' ->
  same_leases db db' \/ (exists row, event_added c db db' row) \/
  (exists row e, claim_added db db' row e /\ Effect_Validate row.(claim_Effect) = Ok tt).
Proof.
  destruct 1 as [r db catalog db' res H|r db o owner ttl db' res H|r db lease ttl db' res H|
                 r db lease effect db' res H|r db lease ok sha db' res H].
  - left. by eapply RegisterCatalog_spec.
  - destruct o as [o|].
    + apply Acquire_spec in H as [[H _]|(row & [H _ _ _] & _)]; eauto.
    + left. unfold Acquire in H. repeat (apply guarded_inv in H as [[-> _]|[_ H]]; [done|]). by simplify_eq.
  - apply Renew_spec in H as [[-> _]|(row & (_ & [H _ _ _] & _) & _)]; [by left|eauto].
  - apply ClaimEffect_spec in H as [[-> _]|(f & _ & _ & Hv & _ & _ & [[-> _]|(row & e & H & <-)])]; [by left..|eauto 6].
  - apply Complete_spec in H as [[-> _]|(row & (_ & [H _ _ _] & _))]; [by left|eauto].
Qed.

Lemma store_step_change db db' : store_step db db' -> store_change db db'.
Proof.
  intros [c [H|[[row H]|(row & e & H & Hv)]]%store_call_change];
    [by apply change_none|by eapply change_event|by eapply change_claim].
Qed.

Lemma change_logged db db' : logged db -> store_change db db' -> logged db'.
Proof.
  intros Hlog [[He _]|c row [_ He _ Hd Hext]|row e [_ He _ _ _ _ _ _ _] _] o; rewrite He; [apply Hlog| |apply Hlog].
  rewrite log_of_cons. destruct (decide _) as [<- |_]; [|apply Hlog]. constructor; [apply Hlog|by apply Hd|].
  rewrite <- latest_head by apply Hlog. by apply Hext.
Qed.

Lemma steps_logged db db' : rtc store_step db db' -> logged db -> logged db'.
Proof. induction 1; eauto using change_logged, store_step_change. Qed.

Lemma reachable_logged db : reachable_store db -> logged db.
Proof. intros Hr. apply (steps_logged _ _ Hr). intros o. constructor. Qed.

(** The latest event of an occurrence only gets a greater sequence. *)
Lemma change_latest db db' o e : logged db -> store_change db db' -> latest o db.(db_events) = Some e ->
  exists e', latest o db'.(db_events) = Some e' /\ e.(ev_Sequence) <= e'.(ev_Sequence) /\
             (terminal_kind e.(ev_Kind) = true -> e' = e).
Proof.
  intros Hlog [[He _]|c row [_ He _ _ Hext]|row e1 [_ He _ _ _ _ _ _ _] _] Hl; rewrite He; [by exists e; split_and!| |by exists e; split_and!].
  rewrite latest_cons. destruct (decide _) as [<- |_]; [|by exists e; split_and!].
  specialize (Hext Hlog). rewrite Hl in *. destruct Hext as (Hk & Hs & _).
  destruct (Z.ltb_spec row.(ev_Sequence) e.(ev_Sequence)); [lia|]. exists row. split_and!; [done|lia|].
  rewrite lease_not_terminal in Hk. by destruct (terminal_kind e.(ev_Kind)).
Qed.

Lemma steps_latest db db' o e : logged db -> rtc store_step db db' -> latest o db.(db_events) = Some e ->
  exists e', latest o db'.(db_events) = Some e' /\ e.(ev_Sequence) <= e'.(ev_Sequence).
Proof.
  intros Hlog Hr. revert e. induction Hr as [db|db db1 db' Hs Hr IH]; intros e Hl; [by exists e|].
  apply store_step_change in Hs. destruct (change_latest _ _ _ _ Hlog Hs Hl) as (e1 & Hl1 & Hle & _).
  destruct (IH (change_logged _ _ Hlog Hs) e1 Hl1) as (e' & Hl' & Hle'). exists e'. split; [done|lia].
Qed.

(** ** Lease histories *)

(** C36: In every reachable state of the store the lease events of an occurrence
    form one history. Counting from the newest event, the sequences are
    consecutive down to 1, a fence token is the number of acquisitions up to its
    event, only the newest event can be terminal, all events of one fence have
    one owner, and a takeover happened no earlier than the expiry it took over. *)
Theorem lease_history db o : reachable_store db ->
  let log := log_of o db.(db_events) in
  (forall i e, log !! i = Some e ->
     e.(ev_Sequence) = Z.of_nat (length log) - Z.of_nat i /\
     e.(ev_FenceToken) = acquisitions (drop i log) /\
     (terminal_kind e.(ev_Kind) = true -> i = 0%nat)) /\
  (forall x y, x ∈ log -> y ∈ log -> x.(ev_FenceToken) = y.(ev_FenceToken) -> x.(ev_OwnerID) = y.(ev_OwnerID)) /\
  (forall i e p, log !! i = Some e -> log !! S i = Some p -> e.(ev_Kind) = EventAcquired ->
     ~ time_lt (Some e.(ev_OccurredAt)) p.(ev_ExpiresAt)).
Proof.
  intros Hr. pose proof (reachable_logged db Hr o) as Hlog. split_and!.
  - intros i e. by apply lease_log_nth.
  - intros x y. by apply lease_log_owner.
  - induction Hlog as [|x log Hlog IH _ Hext]; [done|]. intros [|i] e p He Hp Hk; simpl in *; [|by eapply IH].
    injection He as ->. destruct log as [|q log]; [done|]. injection Hp as ->. destruct Hext as (_ & _ & Hx).
    rewrite Hk in Hx. apply Hx.
Qed.

(** ** The abstract lease *)

Inductive lease_state :=
  | Unclaimed
  | HeldBy (owner : UUID) (fence : Z) (expires : Z)
  | Finished (owner : UUID) (fence : Z) (succeeded : bool).

(** What the store promises about one occurrence: a lease is granted when there
    is none or when the last one has expired, with a new fence; its holder
    extends it or finishes the occurrence before it expires; nothing happens
    after that. *)
Inductive lease_spec (now : Z) : lease_state -> lease_state -> Prop :=
  | spec_first owner expires :
      now < expires -> lease_spec now Unclaimed (HeldBy owner 1 expires)
  | spec_takeover owner fence expires owner' expires' :
      expires <= now -> now < expires' ->
      lease_spec now (HeldBy owner fence expires) (HeldBy owner' (fence + 1) expires')
  | spec_renew owner fence expires expires' :
      now < expires -> expires < expires' ->
      lease_spec now (HeldBy owner fence expires) (HeldBy owner fence expires')
  | spec_finish owner fence expires succeeded :
      now < expires -> lease_spec now (HeldBy owner fence expires) (Finished owner fence succeeded).

Definition event_view (e : leaseEvent) : lease_state :=
  match e.(ev_Kind) with
  | EventAcquired | EventRenewed =>
      HeldBy e.(ev_OwnerID) e.(ev_FenceToken) (match e.(ev_ExpiresAt) with Some t => t.(instant) | None => 0 end)
  | EventSucceeded => Finished e.(ev_OwnerID) e.(ev_FenceToken) true
  | EventFailed => Finished e.(ev_OwnerID) e.(ev_FenceToken) false
  end.

(** The lease of an occurrence, read from the tables. *)
Definition lease_view (db : database) (o : UUID) : lease_state :=
  match latest o db.(db_events) with None => Unclaimed | Some e => event_view e end.

Lemma follows_spec p e : dated p -> dated e -> follows p e ->
  lease_spec e.(ev_OccurredAt).(instant) (event_view p) (event_view e).
Proof.
  unfold dated, follows, event_view, time_lt. intros Hp He (Hk & _ & Hx).
  destruct p as [? ? ? kp ? ? ? xp ?], e as [? ? ? ke ? ? te xe ?]; simpl in *. rewrite Hk in Hp.
  assert (Hxp : exists t, xp = Some t) by (destruct xp; [eauto|done]). destruct Hxp as [t ->].
  assert (Hview : forall (owner : UUID) (fence : Z), match kp with
    | EventAcquired | EventRenewed => HeldBy owner fence t.(instant)
    | EventSucceeded => Finished owner fence true
    | EventFailed => Finished owner fence false end = HeldBy owner fence t.(instant)) by (by destruct kp).
  rewrite Hview. destruct ke; simpl in He.
  - destruct xe as [u|]; [|done]. destruct Hx as [-> Hx]. apply spec_takeover; lia.
  - destruct xe as [u|]; [|done]. destruct Hx as (-> & -> & Hn & Hx). apply spec_renew; lia.
  - destruct Hx as (-> & -> & Hn). by apply spec_finish.
  - destruct Hx as (-> & -> & Hn). by apply spec_finish.
Qed.

(** C4: Every transaction of the store, of any client and under any failure of
    the connection, either leaves the abstract lease of an occurrence as it was
    or performs one step of its specification at the time the server's clock
    showed. *)
Theorem store_refines_lease c db db' o : reachable_store db -> store_call c db db' ->
  lease_view db' o = lease_view db o \/
  lease_spec (db_now c "trigger").(instant) (lease_view db o) (lease_view db' o).
Proof.
  intros Hr Hs. pose proof (reachable_logged db Hr) as Hlog. unfold lease_view.
  destruct (store_call_change _ _ _ Hs) as [[He _]|[(row & [Ht He _ Hd Hext])|(row & e & [_ He _ _ _ _ _ _ _] & _)]];
    [left; by rewrite He| |left; by rewrite He].
  rewrite He, latest_cons. destruct (decide _) as [<- |_]; [right|by left]. rewrite <- Ht.
  specialize (Hext Hlog). specialize (Hd Hlog). destruct (latest _ _) as [p|] eqn:Hl.
  - destruct (Z.ltb_spec row.(ev_Sequence) p.(ev_Sequence)); [destruct Hext; lia|].
    apply follows_spec; [by eapply log_latest_dated|done|done].
  - destruct Hext as (Hk & _ & Hf). unfold event_view, dated in *. rewrite Hk in *. rewrite Hf.
    unfold time_lt in Hd. simpl in Hd. destruct row.(ev_ExpiresAt) as [t|]; [|done]. by apply spec_first.
Qed.

(** C11: A lease that is no longer the newest event of its occurrence has lost
    its power for good: in every later state of the store, renewing it, claiming
    an effect under it and completing it change nothing and do not succeed. *)
Theorem stale_lease_fenced db db' lease e : reachable_store db ->
  latest lease.(lease_OccurrenceID) db.(db_events) = Some e -> lease.(lease_Sequence) < e.(ev_Sequence) ->
  rtc store_step db db' ->
  (forall r c ttl, (Renew r c db' lease ttl).1 = db' /\ forall l, (Renew r c db' lease ttl).2 <> Ok l) /\
  (forall r c effect, (ClaimEffect r c db' lease effect).1 = db' /\ forall f, (ClaimEffect r c db' lease effect).2 <> Ok f) /\
  (forall r c ok sha, (Complete r c db' lease ok sha).1 = db' /\ forall u, (Complete r c db' lease ok sha).2 <> Ok u).
Proof.
  intros Hr Hl Hlt Hs. destruct (steps_latest _ _ _ _ (reachable_logged _ Hr) Hs Hl) as (e' & Hl' & Hle).
  assert (Hnot : ~ held db' lease).
  { intros (e1 & He1 & Hc). apply current_true in Hc as (_ & _ & Hseq & _). rewrite Hl' in He1. injection He1 as ->. lia. }
  split_and!; intros r c.
  - intros ttl. destruct (Renew _ _ _ _ _) as [db1 res] eqn:H. by apply Renew_spec in H as [H|(row & (Hh & _) & _)].
  - intros effect. destruct (ClaimEffect _ _ _ _ _) as [db1 res] eqn:H.
    by apply ClaimEffect_spec in H as [H|(f & _ & _ & _ & Hh & _)].
  - intros ok sha. destruct (Complete _ _ _ _ _ _) as [db1 res] eqn:H. by apply Complete_spec in H as [H|(row & Hh & _)].
Qed.

(** ** Claims *)

(** A claim is backed by a lease event of its fence and owner that had not
    expired. *)
Definition claim_backed (db : database) (row : effectClaim) : Prop :=
  exists e, e ∈ log_of row.(claim_Effect).(eff_OccurrenceID) db.(db_events) /\ lease_kind e.(ev_Kind) = true /\
    row.(claim_OwnerID) = e.(ev_OwnerID) /\ row.(claim_FenceToken) = e.(ev_FenceToken) /\
    time_lt (Some row.(claim_ClaimedAt)) e.(ev_ExpiresAt).

(** [a] was claimed after [b]. *)
Definition claimed_after (a b : effectClaim) : Prop :=
  b.(claim_Effect).(eff_ID) <> a.(claim_Effect).(eff_ID) /\ same_business b.(claim_Effect) a.(claim_Effect) = false /\
  (b.(claim_Effect).(eff_OccurrenceID) = a.(claim_Effect).(eff_OccurrenceID) -> b.(claim_FenceToken) <= a.(claim_FenceToken)).

Record claims_ok (db : database) : Prop := {
  ok_backed : Forall (claim_backed db) db.(db_claims);
  ok_valid : Forall (fun row => Effect_Validate row.(claim_Effect) = Ok tt) db.(db_claims);
  ok_order : ForallOrdPairs claimed_after db.(db_claims);
}.

Lemma latest_elem db o e : logged db -> latest o db.(db_events) = Some e -> e ∈ log_of o db.(db_events).
Proof.
  intros Hlog. rewrite latest_head by apply Hlog. destruct (log_of o db.(db_events)); [done|]. intros [= ->].
  apply list_elem_of_here.
Qed.

Lemma backed_fence db row e : logged db -> claim_backed db row ->
  latest row.(claim_Effect).(eff_OccurrenceID) db.(db_events) = Some e -> row.(claim_FenceToken) <= e.(ev_FenceToken).
Proof.
  intros Hlog (x & Hx & _ & _ & -> & _). rewrite latest_head by apply Hlog.
  specialize (Hlog row.(claim_Effect).(eff_OccurrenceID)). destruct (log_of _ _) as [|y log]; [done|].
  intros [= ->]. by apply (lease_log_max e log).
Qed.

Lemma change_claims db db' : logged db -> store_change db db' -> claims_ok db -> claims_ok db'.
Proof.
  intros Hlog [[He Hc]|c row [_ He Hc _ _]|row e [Hc He Hl Hk Ho Hf Ht Hid Hb] Hv] [Hback Hval Hord].
  - split; unfold claim_backed in *; rewrite Hc, ?He; done.
  - split; rewrite Hc; [|done..]. eapply Forall_impl; [exact Hback|]. intros cl (x & Hx & Hrest). exists x.
    split; [|done]. rewrite He, log_of_cons. destruct (decide _); [by apply list_elem_of_further|done].
  - split; rewrite Hc.
    + assert (Hsame : forall cl, claim_backed db cl -> claim_backed db' cl) by (unfold claim_backed; by rewrite He).
      constructor; [|eapply Forall_impl; [exact Hback|exact Hsame]].
      apply Hsame. exists e. split; [by apply latest_elem|]. split_and!; [done..|by apply Ht].
    + by constructor.
    + constructor; [|done]. rewrite Forall_forall in Hid, Hb, Hback. apply List.Forall_forall. intros b Hin.
      apply list_elem_of_In in Hin. split_and!; [by apply Hid|by apply Hb|]. intros Hocc. rewrite Hf.
      apply (backed_fence db); [done|by apply Hback|]. by rewrite Hocc.
Qed.

Lemma reachable_claims db : reachable_store db -> claims_ok db.
Proof.
  intros Hr. assert (H : logged db /\ claims_ok db); [|apply H].
  eapply (rtc_ind_l (fun x => logged x /\ claims_ok x -> logged db /\ claims_ok db) db); [done| |exact Hr|].
  - intros x y Hs _ IH [Hlog Hc]. apply store_step_change in Hs. apply IH. eauto using change_logged, change_claims.
  - split; [intros o|split]; constructor.
Qed.

Lemma NewEffect_ID input f : NewEffect input = Ok f ->
  f.(eff_ID) = effectID input.(effin_OccurrenceID) input.(effin_Kind) input.(effin_BusinessKey).
Proof.
  unfold NewEffect. intros H. inv_ok H. apply orb_false_iff in H1 as [_ H1]. split_bools. rewrite H1 in H.
  by subst f.
Qed.

Lemma Effect_Validate_ID f : Effect_Validate f = Ok tt ->
  f.(eff_ID) = effectID f.(eff_OccurrenceID) f.(eff_Kind) f.(eff_BusinessKey).
Proof.
  unfold Effect_Validate. intros H. inv_ok H. apply NewEffect_ID in H0. split_bools.
  match goal with Hid : x.(eff_ID) = f.(eff_ID) |- _ => rewrite <- Hid end. exact H0.
Qed.

Lemma ordered_pairs {A} (R : A -> A -> Prop) l i j a b :
  ForallOrdPairs R l -> l !! i = Some a -> l !! j = Some b -> (i < j)%nat -> R a b.
Proof.
  intros H. revert i j. induction H as [|x l Hx H IH]; intros [|i] [|j] Hi Hj Hij; simpl in *; try done; try lia.
  - injection Hi as ->. apply list_elem_of_lookup_2, list_elem_of_In in Hj. rewrite List.Forall_forall in Hx. by apply Hx.
  - apply (IH i j Hi Hj). lia.
Qed.

Lemma same_business_true a b : same_business a b = true <->
  a.(eff_OccurrenceID) = b.(eff_OccurrenceID) /\ a.(eff_Kind) = b.(eff_Kind) /\ a.(eff_BusinessKey) = b.(eff_BusinessKey).
Proof. unfold same_business. rewrite !andb_true_iff, !bool_decide_eq_true. tauto. Qed.

(** C20: The effects of an occurrence are claimed exactly once. Two claims of the
    same occurrence, kind and business key are one claim; later claims of an
    occurrence carry no older fence; every claim was made under an unexpired
    lease of its owner and fence; and claiming an effect whose business is
    already claimed writes nothing and succeeds only for the recorded payload. *)
Theorem effects_claimed_once db : reachable_store db ->
  (forall i j a b, db.(db_claims) !! i = Some a -> db.(db_claims) !! j = Some b ->
     same_business a.(claim_Effect) b.(claim_Effect) = true -> i = j) /\
  (forall i j a b, db.(db_claims) !! i = Some a -> db.(db_claims) !! j = Some b -> (i < j)%nat ->
     a.(claim_Effect).(eff_OccurrenceID) = b.(claim_Effect).(eff_OccurrenceID) ->
     b.(claim_FenceToken) <= a.(claim_FenceToken)) /\
  Forall (claim_backed db) db.(db_claims) /\
  (forall r c lease f row db' res, row ∈ db.(db_claims) -> same_business row.(claim_Effect) f = true ->
     ClaimEffect r c db lease (Some f) = (db', res) ->
     db' = db /\ forall f', res = Ok f' -> f' = f /\ f.(eff_PayloadSHA256) = row.(claim_Effect).(eff_PayloadSHA256)).
Proof.
  intros Hr. destruct (reachable_claims db Hr) as [Hback Hval Hord].
  assert (Hpair : forall i j a b, db.(db_claims) !! i = Some a -> db.(db_claims) !! j = Some b -> (i < j)%nat -> claimed_after a b)
    by (intros i j a b; by apply ordered_pairs).
  split_and!; [| |done|].
  - intros i j a b Hi Hj Hs. destruct (lt_eq_lt_dec i j) as [[Hij|?]|Hij]; [|done|].
    + destruct (Hpair i j a b Hi Hj Hij) as (_ & Hf & _). apply same_business_true in Hs as (H1 & H2 & H3).
      assert (Ht : same_business b.(claim_Effect) a.(claim_Effect) = true) by (by apply same_business_true).
      by rewrite Ht in Hf.
    + destruct (Hpair j i b a Hj Hi Hij) as (_ & Hf & _). by rewrite Hs in Hf.
  - intros i j a b Hi Hj Hij Ho. by apply (Hpair i j a b Hi Hj Hij).
  - intros r c lease f row db' res Hrow Hs H.
    apply ClaimEffect_spec in H as [[-> Hn]|(f1 & [= <-] & _ & Hv & _ & Hok & Hcase)].
    { split; [done|]. intros f' ->. by destruct (Hn f'). }
    destruct Hcase as [[-> (row' & Hrow' & Hid & Hpay & _)]|(new & e & Hadd & <-)].
    + split; [done|]. intros f' ->. split; [by apply Hok|]. rewrite <- Hpay. f_equal. f_equal.
      rewrite Forall_forall in Hval. pose proof (Effect_Validate_ID _ (Hval _ Hrow)) as Hid1.
      apply Effect_Validate_ID in Hv. apply same_business_true in Hs as (H1 & H2 & H3).
      rewrite H1, H2, H3, <- Hv, <- Hid in Hid1.
      apply list_elem_of_lookup_1 in Hrow as [i Hi], Hrow' as [j Hj].
      destruct (lt_eq_lt_dec i j) as [[Hij|Hij]|Hij]; [|congruence|].
      * destruct (Hpair i j _ _ Hi Hj Hij) as [Hne _]. by destruct Hne.
      * destruct (Hpair j i _ _ Hj Hi Hij) as [Hne _]. by destruct Hne.
    + destruct Hadd as [_ _ _ _ _ _ _ _ Hb]. rewrite Forall_forall in Hb. by rewrite (Hb row Hrow) in Hs.
Qed.

(** ** Recovery *)

(** A connection on which nothing fails, at one moment of the server's clock. *)
Record healthy (c : connection) (now : Time) : Prop := {
  healthy_begin : c.(conn_begin) = None;
  healthy_statement name : c.(conn_statement) name = None;
  healthy_clock reading : c.(conn_clock) reading = now;
  healthy_commit : c.(conn_commit) = Committed;
}.

Lemma healthy_run c now name {A} (k : unit -> outcome A) : healthy c now -> statement c name ≫= k = k tt.
Proof. intros [_ Hs _ _]. unfold statement. by rewrite Hs. Qed.

Lemma int64_succ_small n : 0 <= n < max_int64 -> int64_succ n = n + 1.
Proof.
  unfold max_int64, int64_succ. intros H. rewrite Z.mod_small; [lia|].
  change (2 ^ 64) with (2 ^ 63 + 2 ^ 63). lia.
Qed.

(** No row has the sequence after the latest one. *)
Lemma next_sequence_free db o p : logged db -> latest o db.(db_events) = Some p ->
  existsb (fun row => (row.(ev_OccurrenceID) ==? o) && (row.(ev_Sequence) =? p.(ev_Sequence) + 1)) db.(db_events) = false.
Proof.
  intros Hlog Hl. destruct (existsb _ _) eqn:He; [|done]. apply existsb_exists in He as (x & Hin & Hx). split_bools.
  apply Z.eqb_eq in H0. assert (Hx' : x ∈ log_of o db.(db_events)).
  { unfold log_of. apply list_elem_of_filter. split; [done|]. by apply list_elem_of_In. }
  rewrite latest_head in Hl by apply Hlog. specialize (Hlog o). destruct (log_of o db.(db_events)) as [|q log]; [done|].
  injection Hl as ->. destruct (lease_log_max p log x Hlog Hx') as [_ Hs]. lia.
Qed.

(** The trigger lets a takeover of an expired lease through. *)
Lemma takeover_inserted c now db o p owner ttl : healthy c now -> logged db -> latest o db.(db_events) = Some p ->
  existsb (fun row => row.(occ_ID) ==? o) db.(db_occurrences) = true ->
  lease_kind p.(ev_Kind) = true -> unexpired p.(ev_ExpiresAt) (TruncateMicro now) = false -> minimumFinancialLease <= ttl ->
  let row := lease_row c o (p.(ev_Sequence) + 1) EventAcquired owner (p.(ev_FenceToken) + 1) ttl in
  Forall (fun e => e.(ev_ID) <> row.(ev_ID)) db.(db_events) ->
  exists db', insert_lease_event c db row = Ok (db', row).
Proof.
  intros [_ _ Hclock _] Hlog Hl Hocc Hk Hexp Httl row Hid.
  assert (Hnow : forall reading, db_now c reading = TruncateMicro now) by (intros; unfold db_now; by rewrite Hclock).
  assert (Hv : validate_financial_job_lease_event c db row = Ok row).
  { unfold validate_financial_job_lease_event, row, lease_row. cbn [ev_OccurrenceID ev_Kind ev_Sequence ev_FenceToken ev_ID
      ev_OwnerID ev_ExpiresAt ev_OutcomeSHA256]. rewrite Hocc, Hl, !Hnow. rewrite lease_not_terminal in Hk.
    apply negb_true_iff in Hk. simpl. by rewrite Hk, Hexp, !Z.eqb_refl. }
  assert (Hlt : instant (TruncateMicro now) < instant (TruncateMicro now) + Microseconds ttl * Microsecond).
  { unfold Microseconds, Microsecond, minimumFinancialLease in *.
    assert (0 < Z.quot ttl 1000) by (apply Z.quot_str_pos; lia). lia. }
  unfold insert_lease_event. eexists. apply (bind_pass _ row); [exact Hv|]. apply reject_pass.
  { unfold row, lease_row. cbn [ev_Kind ev_ExpiresAt ev_OccurredAt]. rewrite !Hnow. apply negb_false_iff.
    change (unexpired (Some (MkTime (instant (TruncateMicro now) + Microseconds ttl * Microsecond) true)) (TruncateMicro now) = true).
    by apply unexpired_true. }
  apply reject_pass; [|apply reject_pass; [exact (next_sequence_free db o p Hlog Hl)|reflexivity]].
  apply existsb_none. eapply Forall_impl; [exact Hid|]. intros e He. by apply bool_decide_eq_false.
Qed.

Lemma latest_bounds db o p : logged db -> latest o db.(db_events) = Some p ->
  0 <= p.(ev_FenceToken) <= p.(ev_Sequence).
Proof.
  intros Hlog. rewrite latest_head by apply Hlog. specialize (Hlog o). destruct (log_of o db.(db_events)) as [|q log]; [done|].
  intros [= ->]. destruct (lease_log_nth _ 0 p Hlog eq_refl) as (-> & -> & _). rewrite drop_0. unfold acquisitions.
  pose proof (length_filter (fun e => e.(ev_Kind) = EventAcquired) (p :: log)). lia.
Qed.

Lemma persisted_again c now db o : healthy c now ->
  List.find (fun row => row.(occ_ID) ==? o.(occ_ID)) db.(db_occurrences) = Some o -> persistOccurrence c db o = Ok db.
Proof.
  intros Hc Hf. unfold persistOccurrence. rewrite (healthy_run c now) by done.
  assert (He : existsb (fun row => row.(occ_ID) ==? o.(occ_ID)) db.(db_occurrences) = true).
  { apply find_some in Hf as [Hin Hx]. apply existsb_exists. by exists o. }
  unfold insert_occurrence. rewrite He. cbn [wrap mbind outcome_bind]. rewrite (healthy_run c now) by done.
  rewrite Hf. by rewrite !eq_self.
Qed.

(** C22: A crashed holder does not block an occurrence. Once the lease of a
    recorded occurrence has expired, any runner that asks over a working
    connection obtains it: the acquisition succeeds with the next fence token and
    the occurrence is held by the new owner for the requested time. *)
Theorem expired_lease_recovered db o owner ttl p c now repo :
  reachable_store db -> repo.(repo_pool) = true -> repo.(repo_afterStage) = None -> healthy c now ->
  Occurrence_Validate o = Ok tt -> owner <> Nil -> minimumFinancialLease <= ttl <= maximumFinancialLease ->
  List.find (fun row => row.(occ_ID) ==? o.(occ_ID)) db.(db_occurrences) = Some o ->
  latest o.(occ_ID) db.(db_events) = Some p -> lease_kind p.(ev_Kind) = true ->
  unexpired p.(ev_ExpiresAt) (TruncateMicro now) = false ->
  p.(ev_Sequence) < max_int64 ->
  Forall (fun e => e.(ev_ID) <> leaseEventID o.(occ_ID) (p.(ev_Sequence) + 1) EventAcquired owner (p.(ev_FenceToken) + 1))
    db.(db_events) ->
  exists db' lease,
    Acquire (Some repo) c db (Some o) owner ttl = (db', Ok (MkAcquisition lease true false)) /\
    lease.(lease_OwnerID) = owner /\ lease.(lease_FenceToken) = p.(ev_FenceToken) + 1 /\
    lease_view db' o.(occ_ID) =
      HeldBy owner (p.(ev_FenceToken) + 1) ((TruncateMicro now).(instant) + Microseconds ttl * Microsecond).
Proof.
  intros Hr Hpool Hst Hc Hv Ho Httl Hfind Hl Hk Hexp Hseq Hid. pose proof (reachable_logged db Hr) as Hlog.
  pose proof (latest_bounds _ _ _ Hlog Hl) as Hb.
  assert (Hocc : existsb (fun row => row.(occ_ID) ==? o.(occ_ID)) db.(db_occurrences) = true).
  { apply find_some in Hfind as [Hin Hx]. apply existsb_exists. by exists o. }
  destruct (takeover_inserted c now db o.(occ_ID) p owner ttl Hc Hlog Hl Hocc Hk Hexp (proj1 Httl) Hid) as [db' Hins].
  set (row := lease_row c o.(occ_ID) (p.(ev_Sequence) + 1) EventAcquired owner (p.(ev_FenceToken) + 1) ttl) in *.
  assert (Hnow : forall reading, db_now c reading = TruncateMicro now)
    by (intros; unfold db_now; by rewrite (healthy_clock _ _ Hc)).
  exists db', (returned_lease row). split; [|split; [done|]; split; [done|]].
  - unfold Acquire. cbn [some_and is_nil]. rewrite Hpool, bool_decide_eq_false_2 by done. cbn [negb orb reject guarded].
    rewrite Hv. cbn [guarded].
    rewrite (proj2 (Z.ltb_ge _ _) (proj1 Httl)), (proj2 (Z.ltb_ge _ _) (proj2 Httl)). cbn [orb reject guarded].
    unfold transaction, stage. rewrite (healthy_begin _ _ Hc), (healthy_commit _ _ Hc), Hst, (persisted_again c now) by done.
    cbn [mbind outcome_bind]. unfold latestLeaseEvent, statement. rewrite !(healthy_statement _ _ Hc).
    cbn [failing wrap mbind outcome_bind]. rewrite Hl, Hnow. cbn [some_and].
    rewrite lease_not_terminal in Hk. apply negb_true_iff in Hk. rewrite Hk, Hexp, !int64_succ_small by lia. fold row.
    by rewrite Hins.
  - unfold lease_view. destruct (insert_granted _ _ _ _ _ Hins) as [[Ha Hro _ _] _].
    assert (Hlog' : logged db') by (eapply change_logged; [done|by eapply change_event]).
    rewrite latest_head by apply Hlog'. destruct Ha as [_ He _ _ _]. rewrite He, log_of_cons, decide_True by done.
    rewrite <- (Hnow "expires_at"). reflexivity.
Qed.
End store.
