(* ===== verification/SchedulerRunner.v ===== *)
(** * Running an occurrence (internal/financialscheduler/runner.go)

    [Run] acquires the lease of an occurrence, starts a goroutine that renews
    it, calls the job and completes the occurrence. The two goroutines share
    the session's lease under its mutex, a cancellable context, the channel
    [stop] and the buffered channel [renewDone]. Their interleavings are the
    steps below: a step is the code between two synchronisations, and a store
    call is one transaction of [LeaseStore]. *)

From S2P Require Import Prelude GoStd Externals FinancialJobs LeaseStore.

Local Open Scope go_scope.

Definition ErrOccurrenceNotAcquired : error := Errorf "financial scheduler: occurrence not acquired".
Definition ErrLeaseLost : error := Errorf "financial scheduler: lease lost".
(** [context.Canceled] *)
Definition ErrCanceled : error := Errorf "context canceled".

Record Runner := MkRunner {
  runner_ownerID : UUID;
  runner_leaseTTL : Duration;
  runner_heartbeat : Duration;
}.

Definition NewRunner (store : bool) (ownerID : UUID) (leaseTTL heartbeat : Duration) : outcome Runner :=
  reject (negb store || (ownerID ==? Nil)) "financial scheduler: runner store and owner are required" ;;
  reject ((leaseTTL <? 1000000000)%Z || (heartbeat <=? 0)%Z || (Z.quot leaseTTL 2 <=? heartbeat)%Z)
    "financial scheduler: runner lease and heartbeat bounds are invalid" ;;
  Ok (MkRunner ownerID leaseTTL heartbeat).

Record RunResult := MkRunResult {
  res_Executed : bool;
  res_Terminal : bool;
  res_Fence : Z;
}.

(** ** The goroutines *)

Inductive thread := MainThread | RenewThread.

#[global] Instance thread_eq_dec : EqDecision thread.
Proof. solve_decision. Defined.

(** Where [Run] is: before [Acquire]; in the job; in [ClaimEffect] with the
    mutex held; after [close(stop)], before the receive from [renewDone];
    before and after the lock that guards [Complete]; returned. *)
Inductive mainState :=
  | MainAcquire
  | MainJob
  | MainClaim (effect : option Effect)
  | MainStopped (jobErr : option error)
  | MainComplete (jobErr : option error)
  | MainCompleting (jobErr : option error)
  | MainReturned (result : RunResult) (err : option error).

(** Where [renewLoop] is: not started; in the [select]; woken by the ticker; in
    [Renew] with the mutex held; after a failed [Renew]; its value sent. *)
Inductive renewState :=
  | RenewAbsent
  | RenewSelect
  | RenewTicked
  | RenewCalling
  | RenewFailing (err : error)
  | RenewDone (err : option error).

Record run := MkRun {
  run_runner : Runner;
  run_occurrence : Occurrence;
  run_main : mainState;
  run_renew : renewState;
  run_mutex : option thread;
  run_acquired : Lease;          (* acquisition.Lease *)
  run_lease : Lease;             (* session.lease *)
  run_cancelled : option error;  (* runCtx.Err() *)
}.

(** [Run] up to [Acquire], with the context and the job present or nil. *)
Definition begin_run (runner : Runner) (ctx : bool) (occurrence : option Occurrence) (job : bool) : outcome run :=
  match occurrence with
  | Some occurrence =>
      reject (negb ctx || negb job) "financial scheduler: run context, occurrence, and job are required" ;;
      Ok (MkRun runner occurrence MainAcquire RenewAbsent None ZeroLease ZeroLease None)
  | None => Err (Errorf "financial scheduler: run context, occurrence, and job are required")
  end.

Definition set_main (s : run) (m : mainState) : run :=
  MkRun s.(run_runner) s.(run_occurrence) m s.(run_renew) s.(run_mutex) s.(run_acquired) s.(run_lease) s.(run_cancelled).
Definition set_renew (s : run) (w : renewState) : run :=
  MkRun s.(run_runner) s.(run_occurrence) s.(run_main) w s.(run_mutex) s.(run_acquired) s.(run_lease) s.(run_cancelled).
Definition set_mutex (s : run) (t : option thread) : run :=
  MkRun s.(run_runner) s.(run_occurrence) s.(run_main) s.(run_renew) t s.(run_acquired) s.(run_lease) s.(run_cancelled).
Definition set_lease (s : run) (l : Lease) : run :=
  MkRun s.(run_runner) s.(run_occurrence) s.(run_main) s.(run_renew) s.(run_mutex) s.(run_acquired) l s.(run_cancelled).
(** [cancel()], or the parent context ends: the first cause stays. *)
Definition cancel (s : run) (e : error) : run :=
  MkRun s.(run_runner) s.(run_occurrence) s.(run_main) s.(run_renew) s.(run_mutex) s.(run_acquired) s.(run_lease)
    (match s.(run_cancelled) with Some e' => Some e' | None => Some e end).

(** The session of an acquisition, and its renewal goroutine. *)
Definition start_session (s : run) (l : Lease) : run :=
  MkRun s.(run_runner) s.(run_occurrence) MainJob RenewSelect None l l s.(run_cancelled).

(** What a step is: the ticker, the start of a claim, the end of the parent
    context, or the run's own progress. *)
Inductive label := Tick | Claim | Cancel | Progress.

#[global] Instance label_eq_dec : EqDecision label.
Proof. solve_decision. Defined.

Section runner.
Context {E : Externals}.
(** [err.Error()] *)
Context (error_text : error -> string).
Context (r : option FinancialSchedulerRepo).

Definition outcomeDigest (err : option error) : string :=
  let value := match err with
               | None => "succeeded"%string
               | Some e => ("failed@sha256:" +:+ EncodeToString (Sum256 (error_text e)))%string
               end in
  EncodeToString (Sum256 value).

Inductive run_step : label -> database * run -> database * run -> Prop :=
  (* acquisition, err := r.store.Acquire(...) *)
  | step_acquire_error c db s db' e :
      s.(run_main) = MainAcquire ->
      Acquire r c db (Some s.(run_occurrence)) s.(run_runner).(runner_ownerID) s.(run_runner).(runner_leaseTTL) = (db', Err e) ->
      run_step Progress (db, s) (db', set_main s (MainReturned (MkRunResult false false 0) (Some e)))
  | step_not_acquired c db s db' a :
      s.(run_main) = MainAcquire ->
      Acquire r c db (Some s.(run_occurrence)) s.(run_runner).(runner_ownerID) s.(run_runner).(runner_leaseTTL) = (db', Ok a) ->
      a.(acq_Acquired) = false ->
      run_step Progress (db, s)
        (db', set_main s (MainReturned (MkRunResult false a.(acq_Terminal) a.(acq_Lease).(lease_FenceToken))
                            (Some ErrOccurrenceNotAcquired)))
  | step_acquired c db s db' a :
      s.(run_main) = MainAcquire ->
      Acquire r c db (Some s.(run_occurrence)) s.(run_runner).(runner_ownerID) s.(run_runner).(runner_leaseTTL) = (db', Ok a) ->
      a.(acq_Acquired) = true ->
      run_step Progress (db, s) (db', start_session s a.(acq_Lease))
  (* the job: any number of claims, then a result; a panic is recovered *)
  | step_claim_lock db s effect :
      s.(run_main) = MainJob -> s.(run_mutex) = None ->
      run_step Claim (db, s) (db, set_mutex (set_main s (MainClaim effect)) (Some MainThread))
  | step_claim c db s effect db' res :
      s.(run_main) = MainClaim effect ->
      ClaimEffect r c db s.(run_lease) effect = (db', res) ->
      run_step Progress (db, s) (db', set_mutex (set_main s MainJob) None)
  | step_job_return db s jobErr :
      s.(run_main) = MainJob ->
      run_step Progress (db, s) (db, set_main s (MainStopped jobErr))
  | step_job_panic db s :
      s.(run_main) = MainJob ->
      run_step Progress (db, s)
        (db, set_main s (MainStopped (Some (Errorf "financial scheduler: job panicked (%T)"))))
  (* the parent context ends *)
  | step_cancel db s e :
      s.(run_cancelled) = None -> (forall result err, s.(run_main) <> MainReturned result err) ->
      run_step Cancel (db, s) (db, cancel s e)
  (* the select of renewLoop *)
  | step_select_stop db s jobErr :
      s.(run_renew) = RenewSelect -> s.(run_main) = MainStopped jobErr ->
      run_step Progress (db, s) (db, set_renew s (RenewDone None))
  | step_select_cancelled db s e :
      s.(run_renew) = RenewSelect -> s.(run_cancelled) = Some e ->
      run_step Progress (db, s) (db, set_renew s (RenewDone (Some e)))
  | step_tick db s :
      s.(run_renew) = RenewSelect ->
      run_step Tick (db, s) (db, set_renew s RenewTicked)
  | step_renew_lock db s :
      s.(run_renew) = RenewTicked -> s.(run_mutex) = None ->
      run_step Progress (db, s) (db, set_mutex (set_renew s RenewCalling) (Some RenewThread))
  | step_renewed c db s db' l :
      s.(run_renew) = RenewCalling ->
      Renew r c db s.(run_lease) s.(run_runner).(runner_leaseTTL) = (db', Ok l) ->
      run_step Progress (db, s) (db', set_lease (set_mutex (set_renew s RenewSelect) None) l)
  | step_renew_error c db s db' e :
      s.(run_renew) = RenewCalling ->
      Renew r c db s.(run_lease) s.(run_runner).(runner_leaseTTL) = (db', Err e) ->
      run_step Progress (db, s) (db', set_mutex (set_renew s (RenewFailing e)) None)
  | step_renew_cancel db s e :
      s.(run_renew) = RenewFailing e ->
      run_step Progress (db, s) (db, cancel (set_renew s (RenewDone (Some e))) ErrCanceled)
  (* renewErr := <-renewDone *)
  | step_lease_lost db s jobErr e :
      s.(run_main) = MainStopped jobErr -> s.(run_renew) = RenewDone (Some e) ->
      run_step Progress (db, s)
        (db, set_main s (MainReturned (MkRunResult true false s.(run_acquired).(lease_FenceToken))
                           (Some (Wrapf "%w: %v" ErrLeaseLost))))
  | step_stopped db s jobErr :
      s.(run_main) = MainStopped jobErr -> s.(run_renew) = RenewDone None ->
      run_step Progress (db, s)
        (db, set_main s (MainComplete (match s.(run_cancelled), jobErr with
                                       | Some ctxErr, None => Some ctxErr
                                       | _, _ => jobErr
                                       end)))
  (* r.store.Complete(...) under the lock *)
  | step_complete_lock db s jobErr :
      s.(run_main) = MainComplete jobErr -> s.(run_mutex) = None ->
      run_step Progress (db, s) (db, set_mutex (set_main s (MainCompleting jobErr)) (Some MainThread))
  | step_complete_error c db s jobErr db' e :
      s.(run_main) = MainCompleting jobErr ->
      Complete r c db s.(run_lease) (is_nil jobErr) (outcomeDigest jobErr) = (db', Err e) ->
      run_step Progress (db, s)
        (db', set_mutex (set_main s (MainReturned (MkRunResult true false s.(run_lease).(lease_FenceToken))
                                       (Some (Wrapf "%w: complete: %v" ErrLeaseLost)))) None)
  | step_completed c db s jobErr db' :
      s.(run_main) = MainCompleting jobErr ->
      Complete r c db s.(run_lease) (is_nil jobErr) (outcomeDigest jobErr) = (db', Ok tt) ->
      run_step Progress (db, s)
        (db', set_mutex (set_main s (MainReturned (MkRunResult true true s.(run_lease).(lease_FenceToken)) jobErr)) None).

(** ** Many runs over one store

    Runs start at any time, for any runner and occurrence; the catalog is
    registered at any time. *)
Definition system : Type := database * list run.

Definition empty_database : database := MkDatabase [] [] [] [].

Inductive system_step : system -> system -> Prop :=
  | system_register repo c db runs catalog db' res :
      RegisterCatalog repo c db catalog = (db', res) ->
      system_step (db, runs) (db', runs)
  | system_start db runs runner ctx occurrence job s :
      begin_run runner ctx occurrence job = Ok s ->
      system_step (db, runs) (db, runs ++ [s])
  | system_run l db runs i s db' s' :
      runs !! i = Some s -> run_step l (db, s) (db', s') ->
      system_step (db, runs) (db', <[i := s']> runs).

Definition reachable_system (sys : system) : Prop := rtc system_step (empty_database, []) sys.
End runner.
