(* ===== verification/SchedulerRunnerProofs.v ===== *)
(** * Correctness of the job runner

    Mutual exclusion inside a run, one completion per occurrence across all
    runs, and termination: a run takes a bounded number of steps between ticks
    and claims, and from every reachable state it can return. *)

From S2P Require Import Prelude GoStd Externals FinancialJobs LeaseStore LeaseStoreProofs LeaseStoreTheorems SchedulerRunner.

Local Open Scope go_scope.
Local Open Scope Z_scope.

(** ** Calls never panic *)

Section safe.
Context {E : Externals}.

Lemma transaction_safe {A} c onBegin onCommit db (body : database -> outcome (database * A)) :
  (forall db, safe (body db)) -> safe (transaction c onBegin onCommit db body).2.
Proof.
  intros H. unfold transaction. destruct c.(conn_begin); [apply safe_Err|]. specialize (H db).
  destruct (body db) as [[db' a]|e|p]; [destruct c.(conn_commit); auto with safe|apply safe_Err|done].
Qed.

Lemma guarded_safe {A} m db (k : database * outcome A) : safe m -> safe k.2 -> safe (guarded m db k).2.
Proof. by destruct m. Qed.

Lemma failing_safe e : safe (failing e).
Proof. destruct e; [apply safe_Err|apply safe_Ok]. Qed.

Lemma statement_safe c name : safe (statement c name).
Proof. apply failing_safe. Qed.

Lemma stage_safe r name : safe (stage (Some r) name).
Proof. unfold stage. destruct r.(repo_afterStage); [apply failing_safe|apply safe_Ok]. Qed.

Lemma NewOccurrence_safe input : safe (NewOccurrence input).
Proof. unfold NewOccurrence. solve_safe. Qed.

Lemma Occurrence_Validate_safe o : safe (Occurrence_Validate o).
Proof. unfold Occurrence_Validate. apply safe_bind; [apply NewOccurrence_safe|auto with safe]. Qed.

Lemma insert_occurrence_safe db o : safe (insert_occurrence db o).
Proof. unfold insert_occurrence. solve_safe. Qed.

Lemma insert_lease_event_safe c db row : safe (insert_lease_event c db row).
Proof. unfold insert_lease_event, validate_financial_job_lease_event. solve_safe. Qed.

Lemma latestLeaseEvent_safe c db o : safe (latestLeaseEvent c db o).
Proof. unfold latestLeaseEvent. apply safe_bind; auto using safe_wrap, statement_safe with safe. Qed.

Hint Resolve statement_safe stage_safe Occurrence_Validate_safe insert_occurrence_safe insert_lease_event_safe
  latestLeaseEvent_safe : safe.

Lemma wrapped_insert_safe {A} c msg name (m : outcome A) : safe m -> safe (wrap msg (statement c name ;; m)).
Proof. intros Hm. apply safe_wrap, safe_bind; auto with safe. Qed.

Lemma persistOccurrence_safe c db o : safe (persistOccurrence c db o).
Proof.
  unfold persistOccurrence. apply safe_bind; [apply wrapped_insert_safe; auto with safe|]. intros. solve_safe.
Qed.

Hint Resolve wrapped_insert_safe persistOccurrence_safe : safe.

Lemma Acquire_safe repo c db o owner ttl : repo.(repo_pool) = true -> safe (Acquire (Some repo) c db (Some o) owner ttl).2.
Proof.
  intros Hp. unfold Acquire. repeat (apply guarded_safe; [auto with safe|]). apply transaction_safe. intros. solve_safe.
Qed.

Lemma Renew_safe repo c db l ttl : repo.(repo_pool) = true -> safe (Renew (Some repo) c db l ttl).2.
Proof.
  intros Hp. unfold Renew, pool. rewrite Hp. repeat (apply guarded_safe; [auto with safe|]).
  apply transaction_safe. intros. solve_safe.
Qed.

Lemma Complete_safe repo c db l ok sha : repo.(repo_pool) = true -> safe (Complete (Some repo) c db l ok sha).2.
Proof.
  intros Hp. unfold Complete, pool. rewrite Hp. repeat (apply guarded_safe; [auto with safe|]).
  apply transaction_safe. intros. solve_safe.
Qed.

(** A call that cannot panic returns a value or an error. *)
Lemma safe_cases {A} (m : database * outcome A) : safe m.2 ->
  (exists db a, m = (db, Ok a)) \/ (exists db e, m = (db, Err e)).
Proof. destruct m as [db [a|e|p]]; simpl; intros H; [left|right|]; eauto. by destruct H. Qed.
End safe.

(** ** The invariant of a run *)

(** The run holds a lease: it is past its acquisition. *)
Definition executing (s : run) : bool :=
  match s.(run_main) with
  | MainAcquire => false
  | MainReturned result _ => result.(res_Executed)
  | _ => true
  end.

Definition main_critical (m : mainState) : bool :=
  match m with MainClaim _ | MainCompleting _ => true | _ => false end.
Definition renew_critical (w : renewState) : bool := match w with RenewCalling => true | _ => false end.
Definition renew_finished (w : renewState) : bool := match w with RenewDone _ => true | _ => false end.

(** [main] is past the receive from [renewDone]. *)
Definition joined (m : mainState) : bool :=
  match m with MainComplete _ | MainCompleting _ => true | MainReturned result _ => result.(res_Executed) | _ => false end.

Record run_synced (s : run) : Prop := {
  synced_main : main_critical s.(run_main) = true <-> s.(run_mutex) = Some MainThread;
  synced_renew : renew_critical s.(run_renew) = true <-> s.(run_mutex) = Some RenewThread;
  synced_joined : joined s.(run_main) = true -> renew_finished s.(run_renew) = true;
  synced_started : executing s = true -> s.(run_renew) <> RenewAbsent;
  synced_idle : executing s = false -> s.(run_renew) = RenewAbsent;
}.

(** The session's lease is the run's: same occurrence, owner and fence as the
    acquisition, and the log has an event of that fence and owner. *)
Record run_leased (db : database) (s : run) : Prop := {
  leased_occurrence : s.(run_lease).(lease_OccurrenceID) = s.(run_occurrence).(occ_ID);
  leased_owner : s.(run_lease).(lease_OwnerID) = s.(run_runner).(runner_ownerID);
  leased_fence : s.(run_lease).(lease_FenceToken) = s.(run_acquired).(lease_FenceToken);
  leased_event : exists e, e ∈ log_of s.(run_occurrence).(occ_ID) db.(db_events) /\
                   e.(ev_FenceToken) = s.(run_acquired).(lease_FenceToken) /\ e.(ev_OwnerID) = s.(run_runner).(runner_ownerID);
}.

(** A run that reports a terminal execution wrote the terminal event. *)
Definition run_recorded (db : database) (s : run) : Prop :=
  forall result err, s.(run_main) = MainReturned result err -> result.(res_Executed) = true -> result.(res_Terminal) = true ->
    result.(res_Fence) = s.(run_acquired).(lease_FenceToken) /\
    exists e, latest s.(run_occurrence).(occ_ID) db.(db_events) = Some e /\
      e.(ev_Kind) = (if is_nil err then EventSucceeded else EventFailed) /\
      e.(ev_OwnerID) = s.(run_runner).(runner_ownerID) /\ e.(ev_FenceToken) = s.(run_acquired).(lease_FenceToken).

Record run_ok (db : database) (s : run) : Prop := {
  ok_synced : run_synced s;
  ok_leased : executing s = true -> run_leased db s;
  ok_recorded : run_recorded db s;
}.

Section run_invariant.
Context {E : Externals} (error_text : error -> string) (r : option FinancialSchedulerRepo).

Notation run_step := (run_step error_text r).

Lemma run_step_store l db s db' s' : run_step l (db, s) (db', s') -> db' = db \/ store_step db db'.
Proof.
  inversion 1; subst; try (by left); right;
    (exists c; first [by eapply store_acquire|by eapply store_claim|by eapply store_renew|by eapply store_complete]).
Qed.

Lemma run_step_constant l db s db' s' : run_step l (db, s) (db', s') ->
  s'.(run_runner) = s.(run_runner) /\ s'.(run_occurrence) = s.(run_occurrence).
Proof. by inversion 1. Qed.

Lemma run_step_synced l db s db' s' : run_step l (db, s) (db', s') -> run_synced s -> run_synced s'.
Proof.
  intros Hs [Hm Hw Hj He Hi]. destruct s as [ru oc m w mu la le ca]. unfold executing in *. simpl in *.
  inversion Hs; subst; simpl in *; subst; constructor; unfold executing; simpl in *;
    try (destruct mu as [[]|]); naive_solver.
Qed.

Lemma log_grows db db' o e : store_change db db' -> e ∈ log_of o db.(db_events) -> e ∈ log_of o db'.(db_events).
Proof.
  intros Hc Hin. destruct Hc as [[He _]|c row [_ He _ _ _]|row e1 [_ He _ _ _ _ _ _ _] _]; rewrite He; try done.
  rewrite log_of_cons. destruct (decide _); [by apply list_elem_of_further|done].
Qed.

(** What other clients do leaves a run as it is. *)
Lemma run_ok_change db db' s : logged db -> store_change db db' -> run_ok db s -> run_ok db' s.
Proof.
  intros Hlog Hc [Hs Hl Hr]. split; [done| |].
  - intros Hx. destruct (Hl Hx) as [H1 H2 H3 (e & He & Hf)]. split; try done. exists e. split; [by eapply log_grows|done].
  - intros result err Hm Hx Ht. destruct (Hr result err Hm Hx Ht) as (Hf & e & He & Hk & Ho). split; [done|].
    destruct (change_latest _ _ _ _ Hlog Hc He) as (e' & He' & _ & Hsame). exists e'.
    assert (Ht' : terminal_kind e.(ev_Kind) = true) by (rewrite Hk; by destruct err). by rewrite (Hsame Ht') in *.
Qed.

Lemma granted_log c db db' o kind owner row : granted c db db' o kind owner row -> row ∈ log_of o db'.(db_events).
Proof. intros [[_ He _ _ _] Ho _ _]. rewrite He, log_of_cons, decide_True by done. apply list_elem_of_here. Qed.

Lemma granted_latest c db db' o kind owner row : logged db -> granted c db db' o kind owner row ->
  latest o db'.(db_events) = Some row.
Proof.
  intros Hlog [Ha Ho _ _]. assert (Hlog' : logged db') by (eapply change_logged; [done|by eapply change_event]).
  rewrite latest_head by apply Hlog'. destruct Ha as [_ He _ _ _]. by rewrite He, log_of_cons, decide_True.
Qed.

Lemma run_leased_ext db s s' : s'.(run_runner) = s.(run_runner) -> s'.(run_occurrence) = s.(run_occurrence) ->
  s'.(run_acquired) = s.(run_acquired) -> s'.(run_lease) = s.(run_lease) -> run_leased db s -> run_leased db s'.
Proof. intros H1 H2 H3 H4 [Ha Hb Hc Hd]. split; by rewrite ?H1, ?H2, ?H3, ?H4. Qed.

(** What a step does to the session: it starts it, renews its lease, or leaves
    it alone. *)
Lemma run_step_session l db s db' s' : run_step l (db, s) (db', s') ->
  (exists c a, s.(run_main) = MainAcquire /\ s' = start_session s a.(acq_Lease) /\ a.(acq_Acquired) = true /\
     Acquire r c db (Some s.(run_occurrence)) s.(run_runner).(runner_ownerID) s.(run_runner).(runner_leaseTTL) = (db', Ok a)) \/
  (exists c l, s.(run_renew) = RenewCalling /\ s' = set_lease (set_mutex (set_renew s RenewSelect) None) l /\
     Renew r c db s.(run_lease) s.(run_runner).(runner_leaseTTL) = (db', Ok l)) \/
  (s'.(run_acquired) = s.(run_acquired) /\ s'.(run_lease) = s.(run_lease) /\ (executing s' = true -> executing s = true)).
Proof.
  inversion 1; subst; try (left; by eexists _, _); try (right; left; by eexists _, _); right; right;
    (split_and!; [done|done|]; unfold executing; simpl);
    repeat match goal with Hm : run_main s = _ |- _ => rewrite Hm; clear Hm end; done.
Qed.

Lemma run_step_leased l db s db' s' : logged db -> run_step l (db, s) (db', s') -> run_ok db s ->
  executing s' = true -> run_leased db' s'.
Proof.
  intros Hlog Hs Hok Hx. pose proof Hs as Hdb. apply run_step_store in Hdb.
  assert (Hok' : run_ok db' s).
  { destruct Hdb as [-> |Hst]; [done|]. eapply run_ok_change; [done|by apply store_step_change|done]. }
  destruct (run_step_constant _ _ _ _ _ Hs) as [Hru Hoc].
  apply run_step_session in Hs as [(c & a & Hm & -> & Ha & Hcall)|[(c & l' & Hw & -> & Hcall)|(Hac & Hle & Hex)]].
  - apply Acquire_spec in Hcall as [[_ Hn]|(row & Hg & Hres)]; [by rewrite (Hn a eq_refl) in Ha|].
    rewrite (Hres a eq_refl). pose proof (granted_log _ _ _ _ _ _ _ Hg) as Hin. destruct Hg as [_ Hro _ Hrw].
    split; [done|done|done|]. exists row. by split.
  - destruct Hok' as [Hsy Hl _].
    assert (Hxs : executing s = true).
    { destruct (executing s) eqn:Hex; [done|]. destruct Hsy as [_ _ _ _ Hi]. by rewrite (Hi Hex) in Hw. }
    destruct (Hl Hxs) as [H1 H2 H3 H4].
    apply Renew_spec in Hcall as [[_ Hn]|(row & (_ & [_ Hro _ Hrw] & Hf) & Hres)]; [by destruct (Hn l')|].
    rewrite (Hres l' eq_refl). split; simpl; congruence || done.
  - destruct Hok' as [_ Hl _]. apply (run_leased_ext db' s); auto.
Qed.

(** A return with a terminal result is the completion, or was there before. *)
Lemma run_step_returned l db s db' s' result err : run_step l (db, s) (db', s') ->
  s'.(run_main) = MainReturned result err -> result.(res_Executed) = true -> result.(res_Terminal) = true ->
  (exists c, s.(run_main) = MainCompleting err /\ s'.(run_acquired) = s.(run_acquired) /\
     result.(res_Fence) = s.(run_lease).(lease_FenceToken) /\
     Complete r c db s.(run_lease) (is_nil err) (outcomeDigest error_text err) = (db', Ok tt)) \/
  (s.(run_main) = MainReturned result err /\ s'.(run_acquired) = s.(run_acquired)).
Proof.
  inversion 1; subst; simpl; intros Hm Hx Ht; try (right; split; [congruence|done]); simplify_eq; simpl in *; try done.
  left. by eexists.
Qed.

Lemma run_step_recorded l db s db' s' : logged db -> run_step l (db, s) (db', s') -> run_ok db s -> run_recorded db' s'.
Proof.
  intros Hlog Hs Hok result err Hm Hx Ht. destruct (run_step_constant _ _ _ _ _ Hs) as [Hru Hoc].
  rewrite Hru, Hoc. pose proof Hs as Hdb. apply run_step_store in Hdb.
  destruct (run_step_returned _ _ _ _ _ _ _ Hs Hm Hx Ht) as [(c & Hmain & -> & Hf & Hcall)|[Hmain ->]].
  - destruct Hok as [_ Hl _]. assert (Hex : executing s = true) by (unfold executing; by rewrite Hmain).
    destruct (Hl Hex) as [H1 H2 H3 _]. rewrite Hf, H3. split; [done|].
    apply Complete_spec in Hcall as [[_ Hn]|(row & _ & Hg & Hrf)]; [by destruct (Hn tt)|].
    rewrite <- H1, <- H2, <- H3. exists row. split; [by eapply granted_latest|]. destruct Hg as [_ _ Hk Ho]. done.
  - assert (Hok' : run_ok db' s); [|by apply (ok_recorded _ _ Hok' result err)].
    destruct Hdb as [-> |Hst]; [done|]. eapply run_ok_change; [done|by apply store_step_change|done].
Qed.

Lemma run_step_ok l db s db' s' : logged db -> run_step l (db, s) (db', s') -> run_ok db s -> run_ok db' s'.
Proof.
  intros Hlog Hs Hok. split; [eapply run_step_synced; [done|apply Hok]|by eapply run_step_leased|by eapply run_step_recorded].
Qed.

(** ** The invariant of the system *)

Lemma acquired_fresh c db db' o owner row e : logged db -> granted c db db' o EventAcquired owner row ->
  e ∈ log_of o db.(db_events) -> e.(ev_FenceToken) < row.(ev_FenceToken).
Proof.
  intros Hlog [[_ _ _ _ Hext] Ho Hk _] Hin. specialize (Hext Hlog). rewrite Ho, latest_head in Hext by apply Hlog.
  specialize (Hlog o). destruct (log_of o db.(db_events)) as [|p log]; [by apply elem_of_nil in Hin|].
  destruct (lease_log_max p log e Hlog Hin) as [Hle _]. destruct Hext as (_ & _ & Hx). rewrite Hk in Hx. lia.
Qed.

Record system_ok (sys : system) : Prop := {
  sys_logged : logged sys.1;
  sys_runs i s : sys.2 !! i = Some s -> run_ok sys.1 s;
  sys_fences i j s t : i <> j -> sys.2 !! i = Some s -> sys.2 !! j = Some t -> executing s = true -> executing t = true ->
    s.(run_occurrence).(occ_ID) = t.(run_occurrence).(occ_ID) ->
    s.(run_acquired).(lease_FenceToken) <> t.(run_acquired).(lease_FenceToken);
}.

(** The fence of a run after a step differs from those of the other runs. *)
Lemma run_step_fence l db s db' s' t : logged db -> run_step l (db, s) (db', s') -> run_ok db t ->
  (executing s = true -> s.(run_acquired).(lease_FenceToken) <> t.(run_acquired).(lease_FenceToken)) ->
  executing s' = true -> executing t = true -> s.(run_occurrence).(occ_ID) = t.(run_occurrence).(occ_ID) ->
  s'.(run_acquired).(lease_FenceToken) <> t.(run_acquired).(lease_FenceToken).
Proof.
  intros Hlog Hs Hok Hne Hx Ht Ho.
  apply run_step_session in Hs as [(c & a & Hm & -> & Ha & Hcall)|[(c & l' & Hw & -> & _)|(-> & _ & Hex)]]; [| |auto].
  - apply Acquire_spec in Hcall as [[_ Hn]|(row & Hg & Hres)]; [by rewrite (Hn a eq_refl) in Ha|].
    rewrite (Hres a eq_refl). simpl. destruct Hok as [_ Hl _]. destruct (Hl Ht) as [_ _ _ (e & He & <- & _)].
    rewrite <- Ho in He. pose proof (acquired_fresh _ _ _ _ _ _ _ Hlog Hg He). lia.
  - apply Hne. exact Hx.
Qed.

Lemma begin_run_ok db runner ctx o job s : begin_run runner ctx o job = Ok s -> run_ok db s /\ executing s = false.
Proof.
  unfold begin_run. destruct o; [|done]. intros H. inv_ok H. subst s. split; [|done].
  split; [split; simpl; naive_solver|done|by intros ? ?].
Qed.

Lemma system_step_ok sys sys' : system_step error_text r sys sys' -> system_ok sys -> system_ok sys'.
Proof.
  destruct 1 as [repo c db runs catalog db' res Hc|db runs runner ctx o job s Hb|l db runs i s db' s' Hi Hs];
    intros [Hlog Hruns Hf]; simpl in *.
  - assert (Hc' : store_step db db') by (exists c; by eapply store_register). apply store_step_change in Hc'. clear Hc. rename Hc' into Hc. split; simpl; [by eapply change_logged| |done].
    intros i s Hi. eapply run_ok_change; eauto.
  - destruct (begin_run_ok db _ _ _ _ _ Hb) as [Hok Hx].
    assert (Hsplit : forall i t, (runs ++ [s]) !! i = Some t -> runs !! i = Some t \/ t = s).
    { intros i t [Ht|[_ Ht]]%lookup_app_Some; [by left|]. apply list_lookup_singleton_Some in Ht as [_ ->]. by right. }
    split; simpl; [done| |].
    + intros i t [Ht| ->]%Hsplit; [by eapply Hruns|done].
    + intros i j t u Hij [Ht| ->]%Hsplit [Hu| ->]%Hsplit; intros Hxt Hxu; [by eapply Hf|congruence..].
  - assert (Hch : db' = db \/ store_change db db').
    { apply run_step_store in Hs as [-> |Hs]; [by left|right; by apply store_step_change]. }
    assert (Hother : forall t, run_ok db t -> run_ok db' t).
    { intros t. destruct Hch as [-> |Hch]; [done|by apply run_ok_change]. }
    assert (Hok : run_ok db s) by eauto. destruct (run_step_constant _ _ _ _ _ Hs) as [_ Hoc].
    assert (Hlook : forall j t, <[i:=s']> runs !! j = Some t -> (j = i /\ t = s') \/ (j <> i /\ runs !! j = Some t)).
    { intros j t Hj. apply list_lookup_insert_Some in Hj as [(-> & <- & _)|[? ?]]; [by left|right; by split]. }
    split; simpl.
    + destruct Hch as [-> |Hch]; [done|by eapply change_logged].
    + intros j t [[-> ->]|[_ Ht]]%Hlook; [by eapply run_step_ok|eauto].
    + intros j k t u Hjk [[-> ->]|[Hj Ht]]%Hlook [[-> ->]|[Hk Hu]]%Hlook Hxt Hxu; [done| | |by apply (Hf j k)].
      * rewrite Hoc. intros Ho. eapply run_step_fence; eauto.
      * rewrite Hoc. intros Ho Heq. symmetry in Ho, Heq. revert Heq. eapply run_step_fence; eauto.
Qed.

Lemma reachable_ok sys : reachable_system error_text r sys -> system_ok sys.
Proof.
  intros Hr. assert (H0 : system_ok (empty_database, [])) by (split; [intros o; constructor|done..]).
  revert H0. unfold reachable_system in Hr. induction Hr; eauto using system_step_ok.
Qed.

(** C3: Among any number of concurrent runs over one store, with any failures of
    the connection: two runs that hold leases of the same occurrence have
    different fence tokens; a run that reports a terminal execution has recorded
    the end of the occurrence under its own owner and fence, as a success exactly
    when the job returned no error; at most one run of an occurrence reports it;
    and inside a run the two goroutines are never both in a store call on the
    shared lease. *)
Theorem one_run_completes db runs : reachable_system error_text r (db, runs) ->
  (forall i j s t, i <> j -> runs !! i = Some s -> runs !! j = Some t -> executing s = true -> executing t = true ->
     s.(run_occurrence).(occ_ID) = t.(run_occurrence).(occ_ID) ->
     s.(run_acquired).(lease_FenceToken) <> t.(run_acquired).(lease_FenceToken)) /\
  (forall i s fence err, runs !! i = Some s -> s.(run_main) = MainReturned (MkRunResult true true fence) err ->
     fence = s.(run_acquired).(lease_FenceToken) /\
     lease_view db s.(run_occurrence).(occ_ID) = Finished s.(run_runner).(runner_ownerID) fence (is_nil err)) /\
  (forall i j s t fence fence' err err', runs !! i = Some s -> runs !! j = Some t ->
     s.(run_main) = MainReturned (MkRunResult true true fence) err ->
     t.(run_main) = MainReturned (MkRunResult true true fence') err' ->
     s.(run_occurrence).(occ_ID) = t.(run_occurrence).(occ_ID) -> i = j) /\
  (forall i s, runs !! i = Some s -> main_critical s.(run_main) = true -> renew_critical s.(run_renew) = true -> False).
Proof.
  intros [Hlog Hruns Hf]%reachable_ok. simpl in *.
  assert (Hend : forall i s fence err, runs !! i = Some s -> s.(run_main) = MainReturned (MkRunResult true true fence) err ->
     fence = s.(run_acquired).(lease_FenceToken) /\
     lease_view db s.(run_occurrence).(occ_ID) = Finished s.(run_runner).(runner_ownerID) fence (is_nil err)).
  { intros i s fence err Hi Hm. destruct (ok_recorded _ _ (Hruns i s Hi) _ _ Hm eq_refl eq_refl) as (Hfe & e & He & Hk & Ho & He2).
    simpl in Hfe. split; [done|]. unfold lease_view, event_view. rewrite He, Hk, Ho, He2, Hfe. by destruct err. }
  split_and!; [exact Hf|exact Hend| |].
  - intros i j s t fence fence' err err' Hi Hj Hs Ht Ho. destruct (decide (i = j)) as [|Hij]; [done|]. exfalso.
    destruct (Hend i s fence err Hi Hs) as [Hfs Hvs], (Hend j t fence' err' Hj Ht) as [Hft Hvt].
    rewrite Ho, Hvt in Hvs. injection Hvs as _ Hff _.
    apply (Hf i j s t Hij Hi Hj); [by unfold executing; rewrite Hs|by unfold executing; rewrite Ht|done|congruence].
  - intros i s Hi Hm Hw. destruct (ok_synced _ _ (Hruns i s Hi)) as [H1 H2 _ _ _].
    apply H1 in Hm. apply H2 in Hw. congruence.
Qed.

(** ** Termination *)

(** The steps of one run while anything happens to the store. *)
Inductive run_trace : list label -> run -> run -> Prop :=
  | trace_nil s : run_trace [] s s
  | trace_cons l ls db s db' s' t : run_step l (db, s) (db', s') -> run_trace ls s' t -> run_trace (l :: ls) s t.

Definition main_rank (m : mainState) : nat :=
  match m with
  | MainAcquire => 6
  | MainClaim _ => 5
  | MainJob => 4
  | MainStopped _ => 3
  | MainComplete _ => 2
  | MainCompleting _ => 1
  | MainReturned _ _ => 0
  end.
Definition renew_rank (w : renewState) : nat :=
  match w with RenewTicked => 3 | RenewCalling => 2 | RenewSelect | RenewFailing _ => 1 | RenewAbsent | RenewDone _ => 0 end.

(** The work a run has left, between ticks and claims. *)
Definition run_rank (s : run) : nat := main_rank s.(run_main) + renew_rank s.(run_renew).

Definition label_cost (l : label) : nat := match l with Tick => 2 | Claim => 1 | Cancel | Progress => 0 end.
Definition is_progress (l : label) : nat := match l with Progress => 1 | _ => 0 end.
Definition is_cancel (l : label) : nat := match l with Cancel => 1 | _ => 0 end.
Definition tally (f : label -> nat) (ls : list label) : nat := sum_list_with f ls.
Definition uncancelled (s : run) : nat := match s.(run_cancelled) with Some _ => 0 | None => 1 end.

Lemma run_step_rank l db s db' s' : run_step l (db, s) (db', s') -> run_synced s ->
  (is_progress l + run_rank s' <= run_rank s + label_cost l)%nat /\ (is_cancel l + uncancelled s' <= uncancelled s)%nat.
Proof.
  intros Hs [_ _ _ He Hi]. unfold run_rank, uncancelled, executing in *.
  inversion Hs; subst; simpl in *; repeat match goal with Hm : run_main s = _ |- _ => rewrite Hm in *; clear Hm end;
    repeat match goal with Hm : run_renew s = _ |- _ => rewrite Hm in *; clear Hm end; simpl in *;
    try (rewrite (Hi eq_refl)); simpl; try (destruct (run_cancelled s)); simpl; try lia; done.
Qed.

Lemma run_trace_rank ls s t : run_trace ls s t -> run_synced s ->
  (tally is_progress ls + run_rank t <= run_rank s + tally label_cost ls)%nat /\
  (tally is_cancel ls + uncancelled t <= uncancelled s)%nat.
Proof.
  induction 1 as [s|l ls db s db' s' t Hs _ IH]; intros Hok; simpl; [unfold tally; simpl; lia|].
  destruct (run_step_rank _ _ _ _ _ Hs Hok) as [H1 H2].
  destruct (IH (run_step_synced _ _ _ _ _ Hs Hok)) as [H3 H4]. unfold tally in *. simpl. lia.
Qed.

(** A run that has not returned can take a step of its own: nothing blocks it
    for ever. *)
Lemma run_progress repo db s : r = Some repo -> repo.(repo_pool) = true -> run_synced s ->
  (exists result err, s.(run_main) = MainReturned result err) \/ exists db' s', run_step Progress (db, s) (db', s').
Proof.
  intros Hr Hp [Hm Hw Hj He Hi]. pose (c := MkConnection None (fun _ => None) (fun _ => ZeroTime) Committed).
  unfold executing in *. destruct (run_main s) eqn:Hmain; simpl in *.
  - right. destruct (safe_cases _ (Acquire_safe repo c db s.(run_occurrence) s.(run_runner).(runner_ownerID)
      s.(run_runner).(runner_leaseTTL) Hp)) as [(db' & a & H)|(db' & e & H)]; rewrite <- Hr in H.
    + destruct a.(acq_Acquired) eqn:Ha; eauto using step_not_acquired, step_acquired.
    + eauto using step_acquire_error.
  - right. eexists _, _. by apply (step_job_return _ _ _ _ None).
  - right. destruct (ClaimEffect r c db s.(run_lease) effect) as [db' res] eqn:H. eauto using step_claim.
  - right. assert (Hmain' : s.(run_mutex) <> Some MainThread) by (intros H; by apply Hm in H).
    destruct (run_renew s) eqn:Hrenew; simpl in *.
    + by destruct (He eq_refl).
    + eauto using step_select_stop.
    + assert (Hfree : s.(run_mutex) = None) by (destruct s.(run_mutex) as [[]|]; [done|by discriminate (proj2 Hw eq_refl)|done]).
      eauto using step_renew_lock.
    + destruct (safe_cases _ (Renew_safe repo c db s.(run_lease) s.(run_runner).(runner_leaseTTL) Hp))
        as [(db' & a & H)|(db' & e & H)]; rewrite <- Hr in H; eauto using step_renewed, step_renew_error.
    + eauto using step_renew_cancel.
    + destruct err; eauto using step_lease_lost, step_stopped.
  - right. specialize (Hj eq_refl). assert (Hfree : s.(run_mutex) = None).
    { destruct s.(run_mutex) as [[]|]; [by discriminate (proj2 Hm eq_refl)| |done].
      destruct (run_renew s); try done; by discriminate (proj2 Hw eq_refl). }
    eauto using step_complete_lock.
  - right. destruct (safe_cases _ (Complete_safe repo c db s.(run_lease) (is_nil jobErr) (outcomeDigest error_text jobErr) Hp))
      as [(db' & [] & H)|(db' & e & H)]; rewrite <- Hr in H; eauto using step_completed, step_complete_error.
  - left. eauto.
Qed.

Lemma run_returns repo n db runs i s : r = Some repo -> repo.(repo_pool) = true -> (run_rank s <= n)%nat -> run_synced s ->
  runs !! i = Some s ->
  exists k db' s' result err, (k <= n)%nat /\ nsteps (system_step error_text r) k (db, runs) (db', <[i := s']> runs) /\
    s'.(run_main) = MainReturned result err.
Proof.
  intros Hr Hp. revert db runs s. induction n as [|n IH]; intros db runs s Hn Hs Hi;
    (destruct (run_progress repo db s Hr Hp Hs) as [(result & err & Hm)|(db' & s' & Hst)];
     [exists 0%nat, db, s, result, err; rewrite list_insert_id by done; split; [lia|]; split; [constructor|done]|]);
    destruct (run_step_rank _ _ _ _ _ Hst Hs) as [Hrank _]; simpl in Hrank; [lia|].
  destruct (IH db' (<[i := s']> runs) s') as (k & db2 & s2 & result & err & Hk & Hsteps & Hm).
  - lia.
  - by eapply run_step_synced.
  - apply list_lookup_insert_eq. by eapply lookup_lt_Some.
  - exists (S k), db2, s2, result, err. split; [lia|]. split; [|done]. rewrite list_insert_insert_eq in Hsteps.
    econstructor; [|exact Hsteps]. by eapply system_run.
Qed.

(** C21: A run terminates. In every reachable state of the system, for every run:
    no execution of it takes more than its rank (at most nine), plus one step
    for the cancellation, three per tick of the heartbeat and two per claimed
    effect, whatever the other runs do to the store; and the run can always
    return, by its own steps and within its rank, so it never deadlocks. *)
Theorem run_terminates repo db runs i s : r = Some repo -> repo.(repo_pool) = true ->
  reachable_system error_text r (db, runs) -> runs !! i = Some s ->
  (run_rank s <= 9)%nat /\
  (forall ls t, run_trace ls s t ->
     (length ls <= run_rank s + 1 + 3 * length (filter (fun l => l = Tick) ls) + 2 * length (filter (fun l => l = Claim) ls))%nat) /\
  (exists k db' s' result err, (k <= run_rank s)%nat /\
     nsteps (system_step error_text r) k (db, runs) (db', <[i := s']> runs) /\ s'.(run_main) = MainReturned result err).
Proof.
  intros Hr Hp Hreach Hi. apply reachable_ok in Hreach. pose proof (ok_synced _ _ (sys_runs _ Hreach i s Hi)) as Hs.
  split_and!.
  - unfold run_rank. destruct (run_main s), (run_renew s); simpl; lia.
  - intros ls t Ht. destruct (run_trace_rank ls s t Ht Hs) as [H1 H2].
    assert (Hu : (uncancelled s <= 1)%nat) by (unfold uncancelled; destruct (run_cancelled s); lia).
    enough (Hlen : (length ls = tally is_progress ls + tally is_cancel ls + length (filter (fun l => l = Tick) ls) +
                      length (filter (fun l => l = Claim) ls))%nat /\
                   (tally label_cost ls = 2 * length (filter (fun l => l = Tick) ls) + length (filter (fun l => l = Claim) ls))%nat)
      by lia.
    clear. unfold tally. induction ls as [|l ls IH]; [done|]. rewrite !filter_cons. destruct l; simpl in *; lia.
  - by eapply run_returns.
Qed.
End run_invariant.
