(* ===== verification/PredictionReplay.v ===== *)
(** * Prediction-market replay (internal/predictionreplay/model.go)

    A recorder holds order books and fee policies as they became available, and
    the fills a set of hypothetical orders would have had against the book and
    the fee policy in force at their decision time. Everything is kept as exact
    decimal text under one content hash. *)

From S2P Require Import Prelude GoStd GoText GoTime Externals EconomicId ProjectionPayload.
From Stdlib Require Import Ascii.

Local Open Scope go_scope.

Definition SchemaV1 : string := "prediction-book-fee-recorder-v1".

(** [\x00] *)
Definition nul : string := String (byte_of 0) EmptyString.

(** [^[0-9a-f]{64}$] *)
Definition digestPattern (s : string) : bool :=
  (String.length s =? 64)%nat && string_forallb (fun a => decimal_digit a || in_range 97 102 a) s.

(** ** Enumerations *)

Inductive Side := SideBuy | SideSell | SideOther (text : string).
Inductive LiquidityRole := RoleMaker | RoleTaker | RoleOther (text : string).
Inductive FeeFormula := FeeNotionalBPS | FeeContractCurve | FeeFormulaOther (text : string).
Inductive RoundingMode := RoundHalfUp | RoundCeiling | RoundingOther (text : string).

#[global] Instance Side_eq_dec : EqDecision Side.
Proof. solve_decision. Defined.
#[global] Instance LiquidityRole_eq_dec : EqDecision LiquidityRole.
Proof. solve_decision. Defined.
#[global] Instance FeeFormula_eq_dec : EqDecision FeeFormula.
Proof. solve_decision. Defined.
#[global] Instance RoundingMode_eq_dec : EqDecision RoundingMode.
Proof. solve_decision. Defined.

Definition Side_string (s : Side) : string :=
  match s with SideBuy => "buy" | SideSell => "sell" | SideOther t => t end.
Definition LiquidityRole_string (r : LiquidityRole) : string :=
  match r with RoleMaker => "maker" | RoleTaker => "taker" | RoleOther t => t end.
Definition FeeFormula_string (f : FeeFormula) : string :=
  match f with FeeNotionalBPS => "notional_bps" | FeeContractCurve => "contract_curve" | FeeFormulaOther t => t end.
Definition RoundingMode_string (r : RoundingMode) : string :=
  match r with RoundHalfUp => "half_up" | RoundCeiling => "ceiling" | RoundingOther t => t end.

Definition Side_of_string (t : string) : Side :=
  if t ==? "buy" then SideBuy else if t ==? "sell" then SideSell else SideOther t.
Definition LiquidityRole_of_string (t : string) : LiquidityRole :=
  if t ==? "maker" then RoleMaker else if t ==? "taker" then RoleTaker else RoleOther t.
Definition FeeFormula_of_string (t : string) : FeeFormula :=
  if t ==? "notional_bps" then FeeNotionalBPS else if t ==? "contract_curve" then FeeContractCurve else FeeFormulaOther t.
Definition RoundingMode_of_string (t : string) : RoundingMode :=
  if t ==? "half_up" then RoundHalfUp else if t ==? "ceiling" then RoundCeiling else RoundingOther t.

(** ** The dataset manifest, as its accessors show it *)

Inductive Kind := KindPredictionBooks | KindPredictionFees | KindOther (text : string).

#[global] Instance Kind_eq_dec : EqDecision Kind.
Proof. solve_decision. Defined.

Definition Kind_string (k : Kind) : string :=
  match k with
  | KindPredictionBooks => "prediction_books"
  | KindPredictionFees => "prediction_fees"
  | KindOther t => t
  end.

Record Observation := MkObservation {
  obs_SourceKey : string;
  obs_InstrumentID : string;
  obs_AvailableAt : string;
  obs_ContentSHA256 : string;
}.

Record Partition := MkPartition {
  part_Kind : Kind;
  part_ContentSHA256 : string;
  part_Observations : list Observation;
}.

Record Manifest := MkManifest {
  man_ID : UUID;
  man_Digest : string;
  man_DecisionCutoff : Time;
  man_Partitions : list Partition;
}.

(** ** Inputs *)

Record LevelInput := MkLevelInput { lin_Price : string; lin_Size : string }.

Record BookInput := MkBookInput {
  bin_MarketID : string;
  bin_OutcomeID : UUID;
  bin_Venue : string;
  bin_SourceKey : string;
  bin_ContentSHA256 : string;
  bin_ExchangeAt : Time;
  bin_AvailableAt : Time;
  bin_Revision : Z;
  bin_CorrectionOf : string;
  bin_Bids : list LevelInput;
  bin_Asks : list LevelInput;
}.

Record FeePolicyInput := MkFeePolicyInput {
  fin_InstrumentID : UUID;
  fin_Venue : string;
  fin_Role : LiquidityRole;
  fin_SourceKey : string;
  fin_ContentSHA256 : string;
  fin_AvailableAt : Time;
  fin_EffectiveFrom : Time;
  fin_EffectiveTo : option Time;
  fin_Formula : FeeFormula;
  fin_Rate : string;
  fin_Scale : Z;
  fin_Rounding : RoundingMode;
}.

Record ReplayInput := MkReplayInput {
  rin_DecisionAt : Time;
  rin_MarketID : string;
  rin_OutcomeID : UUID;
  rin_Side : Side;
  rin_Role : LiquidityRole;
  rin_Quantity : string;
  rin_LimitPrice : string;
}.

Record Input := MkInput {
  in_Manifest : option Manifest;
  in_Books : list BookInput;
  in_Fees : list FeePolicyInput;
  in_Replays : list ReplayInput;
}.

(** ** Canonical rows *)

Record evidenceCanonical := MkEvidence {
  evc_PartitionContentSHA256 : string;
  evc_SourceKey : string;
  evc_ContentSHA256 : string;
  evc_AvailableAt : string;
}.

Record levelCanonical := MkLevelCanonical {
  lc_Side : string;
  lc_Sequence : nat;
  lc_Price : string;
  lc_Size : string;
}.

Record bookCanonical := MkBookCanonical {
  bc_evidence : evidenceCanonical;
  bc_MarketID : string;
  bc_OutcomeID : string;
  bc_Venue : string;
  bc_ExchangeAt : string;
  bc_Revision : Z;
  bc_CorrectionOf : string;
  bc_Levels : list levelCanonical;
}.

Record feeCanonical := MkFeeCanonical {
  fc_evidence : evidenceCanonical;
  fc_InstrumentID : string;
  fc_Venue : string;
  fc_Role : string;
  fc_EffectiveFrom : string;
  fc_EffectiveTo : string;
  fc_Formula : string;
  fc_Rate : string;
  fc_Scale : Z;
  fc_Rounding : string;
}.

Record fillCanonical := MkFillCanonical {
  fl_Sequence : nat;
  fl_Level : nat;
  fl_Price : string;
  fl_Quantity : string;
  fl_Gross : string;
}.

Record replayCanonical := MkReplayCanonical {
  rc_Sequence : nat;
  rc_DecisionAt : string;
  rc_MarketID : string;
  rc_OutcomeID : string;
  rc_Side : string;
  rc_Role : string;
  rc_Quantity : string;
  rc_LimitPrice : string;
  rc_Status : string;
  rc_BookSourceKey : string;
  rc_FeeSourceKey : string;
  rc_FilledQuantity : string;
  rc_ResidualQuantity : string;
  rc_WeightedPrice : string;
  rc_GrossCash : string;
  rc_Fee : string;
  rc_NetCash : string;
  rc_Fills : list fillCanonical;
}.

Record recorderCanonical := MkRecorderCanonical {
  rec_Schema : string;
  rec_State : string;
  rec_ManifestID : string;
  rec_ManifestSHA256 : string;
  rec_ManifestCutoff : string;
  rec_Books : list bookCanonical;
  rec_Fees : list feeCanonical;
  rec_Replays : list replayCanonical;
}.

Record Recorder := MkRecorder {
  recorder_canonical : recorderCanonical;
  recorder_bytes : string;
  recorder_digest : string;
  recorder_id : UUID;
}.

Record ReplayResult := MkReplayResult {
  rr_Sequence : nat;
  rr_DecisionAt : Time;
  rr_MarketID : string;
  rr_OutcomeID : UUID;
  rr_Side : Side;
  rr_Role : LiquidityRole;
  rr_Status : string;
  rr_Quantity : string;
  rr_FilledQuantity : string;
  rr_ResidualQuantity : string;
  rr_GrossCash : string;
  rr_Fee : string;
  rr_NetCash : string;
}.

Record BookLevelResult := MkBookLevelResult { blr_Price : string; blr_Size : string }.

Record BookResult := MkBookResult {
  br_MarketID : string;
  br_OutcomeID : UUID;
  br_Venue : string;
  br_SourceKey : string;
  br_ExchangeAt : Time;
  br_AvailableAt : Time;
  br_Revision : Z;
  br_Bids : list BookLevelResult;
  br_Asks : list BookLevelResult;
}.

Record FeeResult := MkFeeResult { fr_SourceKey : string; fr_Amount : string }.

Record manifestObservation := MkManifestObservation {
  mo_kind : Kind;
  mo_partition : string;
  mo_instrument : string;
  mo_available : Time;
}.

Section replay.
Context {E : Externals}.
(** [decoder.Decode] into a [recorderCanonical] with unknown fields disallowed:
    the value and the unread rest; [None] is an error. *)
Context (decodeRecorder : string -> option (recorderCanonical * string)).

Definition normalizeToken (value : string) : string := ToLower (TrimSpace value).
Definition canonicalTime (value : Time) : bool :=
  negb (IsZeroTime value) && value.(location_utc) && (value.(instant) mod Microsecond =? 0)%Z.
Definition formatTime (value : Time) : string := format_micro value.
Definition hash (value : string) : string := EncodeToString (Sum256 value).

Definition exactDecimal (value : string) : option dec :=
  if (value ==? "") || (TrimSpace value !=? value) || negb (string_forallb (fun a => negb (one_of "eE+" a)) value) then None
  else
    match NewFromString value with
    | Some parsed => if (DecimalString parsed !=? value) || (Exponent parsed <? -12)%Z then None else Some parsed
    | None => None
    end.

(** [decimal.RequireFromString] *)
Definition RequireFromString (value : string) : outcome dec :=
  match NewFromString value with Some d => Ok d | None => Panic ExplicitPanic end.

Definition one : dec := NewFromInt 1.

Definition evidenceKey (kind : Kind) (source digest : string) : string :=
  (Kind_string kind +:+ nul +:+ source +:+ nul +:+ digest)%string.

Definition replayInputKey (value : ReplayInput) : string :=
  (formatTime value.(rin_DecisionAt) +:+ nul +:+ value.(rin_MarketID) +:+ nul +:+ uuid_string value.(rin_OutcomeID) +:+ nul +:+
   Side_string value.(rin_Side) +:+ nul +:+ LiquidityRole_string value.(rin_Role) +:+ nul +:+ value.(rin_Quantity) +:+ nul +:+
   value.(rin_LimitPrice))%string.

(** ** Evidence *)

Fixpoint index_observations (partition : Partition) (observations : list Observation)
    (result : gmap string manifestObservation) : outcome (gmap string manifestObservation) :=
  match observations with
  | [] => Ok result
  | observation :: rest =>
      let key := evidenceKey partition.(part_Kind) observation.(obs_SourceKey) observation.(obs_ContentSHA256) in
      reject (bool_decide (is_Some (result !! key))) "prediction replay manifest evidence is duplicated" ;;
      match parse_micro observation.(obs_AvailableAt) with
      | None => Err (Errorf "prediction replay manifest time is invalid")
      | Some available =>
          index_observations partition rest
            (<[key := MkManifestObservation partition.(part_Kind) partition.(part_ContentSHA256)
                        observation.(obs_InstrumentID) available]> result)
      end
  end.

Fixpoint index_partitions (partitions : list Partition) (result : gmap string manifestObservation)
    : outcome (gmap string manifestObservation) :=
  match partitions with
  | [] => Ok result
  | partition :: rest =>
      if (partition.(part_Kind) !=? KindPredictionBooks) && (partition.(part_Kind) !=? KindPredictionFees)
      then index_partitions rest result
      else result ← index_observations partition partition.(part_Observations) result ; index_partitions rest result
  end.

Definition manifestIndex (manifest : Manifest) : outcome (gmap string manifestObservation) :=
  index_partitions manifest.(man_Partitions) ∅.

(** ** Books *)

Record parsedLevel := MkParsedLevel {
  pl_price : dec;
  pl_size : dec;
  pl_row : levelCanonical;
}.

Record parsedBook := MkParsedBook {
  pb_input : BookInput;
  pb_row : bookCanonical;
  pb_bids : list parsedLevel;
  pb_asks : list parsedLevel;
}.

(** The loop over the levels; [parsed] holds those before index [i], the last
    one first in [prior]. *)
Fixpoint parse_levels (side : string) (descending : bool) (i : nat) (prior : option dec) (values : list LevelInput)
    : outcome (list parsedLevel) :=
  match values with
  | [] => Ok []
  | value :: rest =>
      match exactDecimal value.(lin_Price), exactDecimal value.(lin_Size) with
      | Some price, Some size =>
          reject (negb (GreaterThan price Zero) || negb (LessThan price one) || negb (GreaterThan size Zero))
            "prediction replay %s level is invalid" ;;
          reject (some_and (fun before => if descending then negb (GreaterThan before price)
                                          else negb (LessThan before price)) prior)
            "prediction replay %s levels are not strictly ordered" ;;
          levels ← parse_levels side descending (S i) (Some price) rest ;
          Ok (MkParsedLevel price size (MkLevelCanonical side i (DecimalString price) (DecimalString size)) :: levels)
      | _, _ => Err (Errorf "prediction replay %s level is invalid")
      end
  end.

Definition normalizeLevels (side : string) (values : list LevelInput) (descending : bool) : outcome (list parsedLevel) :=
  parse_levels side descending 0 None values.

(** The texts of a book are trimmed. *)
Definition trimmed_book (value : BookInput) : BookInput :=
  MkBookInput (TrimSpace value.(bin_MarketID)) value.(bin_OutcomeID) (normalizeToken value.(bin_Venue))
    (TrimSpace value.(bin_SourceKey)) value.(bin_ContentSHA256) value.(bin_ExchangeAt) value.(bin_AvailableAt)
    value.(bin_Revision) value.(bin_CorrectionOf) value.(bin_Bids) value.(bin_Asks).

Definition book_identity (value : BookInput) : string :=
  (uuid_string value.(bin_OutcomeID) +:+ nul +:+ formatTime value.(bin_ExchangeAt) +:+ nul +:+ json_int value.(bin_Revision))%string.

(** One iteration of the first loop of [normalizeBooks]. *)
Definition normalize_book (index : gmap string manifestObservation) (identity : list string) (value : BookInput)
    : outcome parsedBook :=
  let value := trimmed_book value in
  match index !! evidenceKey KindPredictionBooks value.(bin_SourceKey) value.(bin_ContentSHA256) with
  | None => Err (Errorf "prediction replay book evidence is invalid")
  | Some obs =>
      reject ((value.(bin_MarketID) ==? "") || (value.(bin_OutcomeID) ==? Nil) || (value.(bin_Venue) ==? "") ||
              (value.(bin_SourceKey) ==? "") || negb (digestPattern value.(bin_ContentSHA256)) ||
              negb (canonicalTime value.(bin_ExchangeAt)) || negb (canonicalTime value.(bin_AvailableAt)) ||
              After value.(bin_ExchangeAt) value.(bin_AvailableAt) || (value.(bin_Revision) <? 0)%Z ||
              (obs.(mo_kind) !=? KindPredictionBooks) || (obs.(mo_instrument) !=? uuid_string value.(bin_OutcomeID)) ||
              negb (TimeEqual obs.(mo_available) value.(bin_AvailableAt)) || bool_decide (book_identity value ∈ identity))
        "prediction replay book evidence is invalid" ;;
      bids ← normalizeLevels "bid" value.(bin_Bids) true ;
      asks ← normalizeLevels "ask" value.(bin_Asks) false ;
      match bids, asks with
      | bid :: _, ask :: _ =>
          reject (negb (LessThan bid.(pl_price) ask.(pl_price))) "prediction replay book is empty or crossed" ;;
          Ok (MkParsedBook value
                (MkBookCanonical
                   (MkEvidence obs.(mo_partition) value.(bin_SourceKey) value.(bin_ContentSHA256) (formatTime value.(bin_AvailableAt)))
                   value.(bin_MarketID) (uuid_string value.(bin_OutcomeID)) value.(bin_Venue) (formatTime value.(bin_ExchangeAt))
                   value.(bin_Revision) value.(bin_CorrectionOf) ((pl_row <$> bids) ++ (pl_row <$> asks)))
                bids asks)
      | _, _ => Err (Errorf "prediction replay book is empty or crossed")
      end
  end.

(** The first loop: the parsed books, and the inputs by source key. *)
Fixpoint parse_books (index : gmap string manifestObservation) (values : list BookInput) (identity : list string)
    (result : list parsedBook) (bySource : gmap string BookInput) : outcome (list parsedBook * gmap string BookInput) :=
  match values with
  | [] => Ok (result, bySource)
  | value :: rest =>
      book ← normalize_book index identity value ;
      let input := book.(pb_input) in
      reject (bool_decide (is_Some (bySource !! input.(bin_SourceKey)))) "prediction replay book source key is duplicated" ;;
      parse_books index rest (book_identity input :: identity) (result ++ [book]) (<[input.(bin_SourceKey) := input]> bySource)
  end.

(** The second loop: a revision names the book it corrects. *)
Definition check_correction (bySource : gmap string BookInput) (value : BookInput) : outcome unit :=
  if (value.(bin_Revision) =? 0)%Z then
    reject (value.(bin_CorrectionOf) !=? "") "prediction replay original book names a correction"
  else
    match bySource !! value.(bin_CorrectionOf) with
    | None => Err (Errorf "prediction replay book correction is invalid")
    | Some prior =>
        reject ((prior.(bin_OutcomeID) !=? value.(bin_OutcomeID)) || (prior.(bin_MarketID) !=? value.(bin_MarketID)) ||
                negb (TimeEqual prior.(bin_ExchangeAt) value.(bin_ExchangeAt)) ||
                negb (prior.(bin_Revision) + 1 =? value.(bin_Revision))%Z ||
                negb (Before prior.(bin_AvailableAt) value.(bin_AvailableAt)))
          "prediction replay book correction is invalid"
    end.

Definition bookLess (a b : parsedBook) : bool :=
  let left := a.(pb_input) in
  let right := b.(pb_input) in
  if left.(bin_MarketID) !=? right.(bin_MarketID) then string_lt left.(bin_MarketID) right.(bin_MarketID)
  else if left.(bin_OutcomeID) !=? right.(bin_OutcomeID) then
    string_lt (uuid_string left.(bin_OutcomeID)) (uuid_string right.(bin_OutcomeID))
  else if negb (TimeEqual left.(bin_ExchangeAt) right.(bin_ExchangeAt)) then Before left.(bin_ExchangeAt) right.(bin_ExchangeAt)
  else if negb (left.(bin_Revision) =? right.(bin_Revision))%Z then (left.(bin_Revision) <? right.(bin_Revision))%Z
  else string_lt left.(bin_SourceKey) right.(bin_SourceKey).

Definition normalizeBooks (values : list BookInput) (index : gmap string manifestObservation) : outcome (list parsedBook) :=
  reject (length values =? 0)%nat "prediction replay requires books" ;;
  '(result, bySource) ← parse_books index values [] [] ∅ ;
  for_each (check_correction bySource) values ;;
  Ok (sort_slice bookLess result).

(** ** Fee policies *)

Record parsedFee := MkParsedFee {
  pf_input : FeePolicyInput;
  pf_row : feeCanonical;
  pf_rate : dec;
}.

Definition trimmed_fee (value : FeePolicyInput) : FeePolicyInput :=
  MkFeePolicyInput value.(fin_InstrumentID) (normalizeToken value.(fin_Venue)) value.(fin_Role) (TrimSpace value.(fin_SourceKey))
    value.(fin_ContentSHA256) value.(fin_AvailableAt) value.(fin_EffectiveFrom) value.(fin_EffectiveTo) value.(fin_Formula)
    value.(fin_Rate) value.(fin_Scale) value.(fin_Rounding).

Definition fee_end (value : FeePolicyInput) : string :=
  match value.(fin_EffectiveTo) with Some t => formatTime t | None => "" end.

Definition fee_identity (value : FeePolicyInput) : string :=
  (uuid_string value.(fin_InstrumentID) +:+ nul +:+ value.(fin_Venue) +:+ nul +:+ LiquidityRole_string value.(fin_Role) +:+ nul +:+
   formatTime value.(fin_EffectiveFrom) +:+ nul +:+ fee_end value)%string.

(** One iteration of the loop of [normalizeFees]. *)
Definition normalize_fee (index : gmap string manifestObservation) (identity : list string) (value : FeePolicyInput)
    : outcome parsedFee :=
  let value := trimmed_fee value in
  let validFormula := (value.(fin_Formula) ==? FeeNotionalBPS) || (value.(fin_Formula) ==? FeeContractCurve) in
  let validRole := (value.(fin_Role) ==? RoleMaker) || (value.(fin_Role) ==? RoleTaker) in
  let validRound := (value.(fin_Rounding) ==? RoundHalfUp) || (value.(fin_Rounding) ==? RoundCeiling) in
  match exactDecimal value.(fin_Rate), index !! evidenceKey KindPredictionFees value.(fin_SourceKey) value.(fin_ContentSHA256) with
  | Some rate, Some obs =>
      reject ((value.(fin_InstrumentID) ==? Nil) || (value.(fin_Venue) ==? "") || negb validRole || (value.(fin_SourceKey) ==? "") ||
              negb (digestPattern value.(fin_ContentSHA256)) || negb (canonicalTime value.(fin_AvailableAt)) ||
              negb (canonicalTime value.(fin_EffectiveFrom)) ||
              some_and (fun t => negb (canonicalTime t) || negb (Before value.(fin_EffectiveFrom) t)) value.(fin_EffectiveTo) ||
              negb validFormula || IsNegative rate || (value.(fin_Scale) <? 0)%Z || (12 <? value.(fin_Scale))%Z || negb validRound ||
              (obs.(mo_instrument) !=? uuid_string value.(fin_InstrumentID)) ||
              negb (TimeEqual obs.(mo_available) value.(fin_AvailableAt)) || bool_decide (fee_identity value ∈ identity))
        "prediction replay fee policy is invalid" ;;
      Ok (MkParsedFee value
            (MkFeeCanonical
               (MkEvidence obs.(mo_partition) value.(fin_SourceKey) value.(fin_ContentSHA256) (formatTime value.(fin_AvailableAt)))
               (uuid_string value.(fin_InstrumentID)) value.(fin_Venue) (LiquidityRole_string value.(fin_Role))
               (formatTime value.(fin_EffectiveFrom)) (fee_end value) (FeeFormula_string value.(fin_Formula)) (DecimalString rate)
               value.(fin_Scale) (RoundingMode_string value.(fin_Rounding)))
            rate)
  | _, _ => Err (Errorf "prediction replay fee policy is invalid")
  end.

Fixpoint parse_fees (index : gmap string manifestObservation) (values : list FeePolicyInput) (identity : list string)
    : outcome (list parsedFee) :=
  match values with
  | [] => Ok []
  | value :: rest =>
      fee ← normalize_fee index identity value ;
      fees ← parse_fees index rest (fee_identity fee.(pf_input) :: identity) ;
      Ok (fee :: fees)
  end.

Definition feeLess (a b : parsedFee) : bool :=
  let left := a.(pf_input) in
  let right := b.(pf_input) in
  if left.(fin_InstrumentID) !=? right.(fin_InstrumentID) then
    string_lt (uuid_string left.(fin_InstrumentID)) (uuid_string right.(fin_InstrumentID))
  else if left.(fin_Venue) !=? right.(fin_Venue) then string_lt left.(fin_Venue) right.(fin_Venue)
  else if LiquidityRole_string left.(fin_Role) !=? LiquidityRole_string right.(fin_Role) then
    string_lt (LiquidityRole_string left.(fin_Role)) (LiquidityRole_string right.(fin_Role))
  else if negb (TimeEqual left.(fin_EffectiveFrom) right.(fin_EffectiveFrom)) then Before left.(fin_EffectiveFrom) right.(fin_EffectiveFrom)
  else string_lt left.(fin_SourceKey) right.(fin_SourceKey).

(** Neighbours of one instrument, venue and role whose windows overlap. *)
Definition fees_overlap (prior current : FeePolicyInput) : bool :=
  (prior.(fin_InstrumentID) ==? current.(fin_InstrumentID)) && (prior.(fin_Venue) ==? current.(fin_Venue)) &&
  (prior.(fin_Role) ==? current.(fin_Role)) &&
  match prior.(fin_EffectiveTo) with None => true | Some t => Before current.(fin_EffectiveFrom) t end.

Fixpoint check_windows (fees : list parsedFee) : outcome unit :=
  match fees with
  | prior :: (current :: _) as rest =>
      reject (fees_overlap prior.(pf_input) current.(pf_input)) "prediction replay fee policy windows overlap" ;;
      check_windows rest
  | _ => Ok tt
  end.

Definition normalizeFees (values : list FeePolicyInput) (index : gmap string manifestObservation) : outcome (list parsedFee) :=
  reject (length values =? 0)%nat "prediction replay requires fee policies" ;;
  result ← parse_fees index values [] ;
  let sorted := sort_slice feeLess result in
  check_windows sorted ;;
  Ok sorted.

(** ** Replays *)

(** The selection loop of [selectBook], [selectFee], [BookAt] and [MakerFeeAt]:
    a row that is not eligible is skipped, the others replace the selected one
    when there is none yet or when they are later. *)
Fixpoint pick {A} (eligible : A -> bool) (later : A -> A -> bool) (values : list A) (selected : option A) : option A :=
  match values with
  | [] => selected
  | value :: rest =>
      pick eligible later rest
        (if eligible value && match selected with None => true | Some s => later value s end then Some value else selected)
  end.

(** A book that is eligible at the decision, and one later than the selected. *)
Definition book_eligible (request : ReplayInput) (value : BookInput) : bool :=
  negb ((value.(bin_MarketID) !=? request.(rin_MarketID)) || (value.(bin_OutcomeID) !=? request.(rin_OutcomeID)) ||
        After value.(bin_ExchangeAt) request.(rin_DecisionAt) || After value.(bin_AvailableAt) request.(rin_DecisionAt)).

Definition book_later (value selected : BookInput) : bool :=
  After value.(bin_ExchangeAt) selected.(bin_ExchangeAt) ||
  (TimeEqual value.(bin_ExchangeAt) selected.(bin_ExchangeAt) &&
   ((selected.(bin_Revision) <? value.(bin_Revision))%Z ||
    ((value.(bin_Revision) =? selected.(bin_Revision))%Z && string_lt selected.(bin_SourceKey) value.(bin_SourceKey)))).

Definition selectBook (values : list parsedBook) (request : ReplayInput) : option parsedBook :=
  pick (fun value => book_eligible request value.(pb_input)) (fun value selected => book_later value.(pb_input) selected.(pb_input))
    values None.

Definition fee_eligible (request : ReplayInput) (venue : string) (value : FeePolicyInput) : bool :=
  negb ((value.(fin_InstrumentID) !=? request.(rin_OutcomeID)) || (value.(fin_Venue) !=? venue) ||
        (value.(fin_Role) !=? request.(rin_Role)) || After value.(fin_AvailableAt) request.(rin_DecisionAt) ||
        After value.(fin_EffectiveFrom) request.(rin_DecisionAt) ||
        some_and (fun t => negb (Before request.(rin_DecisionAt) t)) value.(fin_EffectiveTo)).

Definition fee_later (value selected : FeePolicyInput) : bool :=
  After value.(fin_EffectiveFrom) selected.(fin_EffectiveFrom) ||
  (TimeEqual value.(fin_EffectiveFrom) selected.(fin_EffectiveFrom) &&
   (After value.(fin_AvailableAt) selected.(fin_AvailableAt) ||
    (TimeEqual value.(fin_AvailableAt) selected.(fin_AvailableAt) && string_lt selected.(fin_SourceKey) value.(fin_SourceKey)))).

Definition selectFee (values : list parsedFee) (request : ReplayInput) (venue : string) : option parsedFee :=
  pick (fun value => fee_eligible request venue value.(pf_input)) (fun value selected => fee_later value.(pf_input) selected.(pf_input))
    values None.

(** [price * quantity] times the rate in basis points, or on the curve
    [price * (1 - price)]. *)
Definition fee_component (formula : FeeFormula) (rate price quantity : dec) : dec :=
  let component := Mul price quantity in
  if formula ==? FeeNotionalBPS then Div (Mul component rate) (NewFromInt 10000)
  else Mul (Mul component (Sub one price)) rate.

Definition round_fee (rounding : RoundingMode) (scale : Z) (value : dec) : dec :=
  if rounding ==? RoundCeiling then Shift (Ceil (Shift value scale)) (- scale) else Round value scale.

Fixpoint fee_total (policy : parsedFee) (fills : list fillCanonical) (value : dec) : outcome dec :=
  match fills with
  | [] => Ok value
  | fill :: rest =>
      price ← RequireFromString fill.(fl_Price) ;
      quantity ← RequireFromString fill.(fl_Quantity) ;
      fee_total policy rest (Add value (fee_component policy.(pf_input).(fin_Formula) policy.(pf_rate) price quantity))
  end.

Definition calculateFee (policy : parsedFee) (fills : list fillCanonical) : outcome dec :=
  value ← fee_total policy fills Zero ;
  Ok (round_fee policy.(pf_input).(fin_Rounding) policy.(pf_input).(fin_Scale) value).

(** The level is beyond the limit of the order. *)
Definition blocked (side : Side) (limit price : dec) : bool :=
  ((side ==? SideBuy) && GreaterThan price limit) || ((side ==? SideSell) && LessThan price limit).

(** The loop over the levels: the fills, what remains, the gross cash. *)
Fixpoint consume_levels (side : Side) (limit : dec) (levels : list parsedLevel) (fills : list fillCanonical) (remaining gross : dec)
    : list fillCanonical * dec * dec :=
  match levels with
  | [] => (fills, remaining, gross)
  | level :: rest =>
      if blocked side limit level.(pl_price) then (fills, remaining, gross)
      else
        let fill := Min remaining level.(pl_size) in
        if IsZero fill then consume_levels side limit rest fills remaining gross
        else
          let levelGross := Mul fill level.(pl_price) in
          let fills := fills ++ [MkFillCanonical (length fills) level.(pl_row).(lc_Sequence) (DecimalString level.(pl_price))
                                   (DecimalString fill) (DecimalString levelGross)] in
          let gross := Add gross levelGross in
          let remaining := Sub remaining fill in
          if IsZero remaining then (fills, remaining, gross) else consume_levels side limit rest fills remaining gross
  end.

(** A row without a fill, with the texts the later branches overwrite. *)
Definition empty_row (sequence : nat) (value : ReplayInput) (quantity limit : dec) (status bookKey feeKey : string) : replayCanonical :=
  MkReplayCanonical sequence (formatTime value.(rin_DecisionAt)) value.(rin_MarketID) (uuid_string value.(rin_OutcomeID))
    (Side_string value.(rin_Side)) (LiquidityRole_string value.(rin_Role)) (DecimalString quantity) (DecimalString limit)
    status bookKey feeKey "0" (DecimalString quantity) "0" "0" "0" "0" [].

(** One accepted request against the books and the fees. *)
Definition replay_row (books : list parsedBook) (fees : list parsedFee) (sequence : nat) (value : ReplayInput) (quantity limit : dec)
    : outcome replayCanonical :=
  match selectBook books value with
  | None => Ok (empty_row sequence value quantity limit "no_book" "" "")
  | Some book =>
      let bookKey := book.(pb_input).(bin_SourceKey) in
      match selectFee fees value book.(pb_input).(bin_Venue) with
      | None => Ok (empty_row sequence value quantity limit "no_fee_policy" bookKey "")
      | Some fee =>
          let feeKey := fee.(pf_input).(fin_SourceKey) in
          let levels := if value.(rin_Side) ==? SideSell then book.(pb_bids) else book.(pb_asks) in
          let '(fills, remaining, gross) := consume_levels value.(rin_Side) limit levels [] quantity Zero in
          let filled := Sub quantity remaining in
          if IsZero filled then Ok (empty_row sequence value quantity limit "limit_blocked" bookKey feeKey)
          else
            feeValue ← calculateFee fee fills ;
            let net := if value.(rin_Side) ==? SideSell then Sub gross feeValue else Add gross feeValue in
            Ok (MkReplayCanonical sequence (formatTime value.(rin_DecisionAt)) value.(rin_MarketID) (uuid_string value.(rin_OutcomeID))
                  (Side_string value.(rin_Side)) (LiquidityRole_string value.(rin_Role)) (DecimalString quantity) (DecimalString limit)
                  (if IsZero remaining then "filled" else "partial") bookKey feeKey (DecimalString filled) (DecimalString remaining)
                  (DecimalString (Div gross filled)) (DecimalString gross) (DecimalString feeValue) (DecimalString net) fills)
      end
  end.

Definition trimmed_replay (value : ReplayInput) : ReplayInput :=
  MkReplayInput value.(rin_DecisionAt) (TrimSpace value.(rin_MarketID)) value.(rin_OutcomeID) value.(rin_Side) value.(rin_Role)
    value.(rin_Quantity) value.(rin_LimitPrice).

Definition replay_request (books : list parsedBook) (fees : list parsedFee) (cutoff : Time) (sequence : nat) (priorKey : string)
    (value : ReplayInput) : outcome replayCanonical :=
  let value := trimmed_replay value in
  match exactDecimal value.(rin_Quantity), exactDecimal value.(rin_LimitPrice) with
  | Some quantity, Some limit =>
      reject ((replayInputKey value ==? priorKey) || (value.(rin_MarketID) ==? "") || (value.(rin_OutcomeID) ==? Nil) ||
              negb (canonicalTime value.(rin_DecisionAt)) || After value.(rin_DecisionAt) cutoff ||
              ((value.(rin_Side) !=? SideBuy) && (value.(rin_Side) !=? SideSell)) ||
              ((value.(rin_Role) !=? RoleMaker) && (value.(rin_Role) !=? RoleTaker)) ||
              negb (GreaterThan quantity Zero) || negb (GreaterThan limit Zero) || negb (LessThan limit one))
        "prediction replay request is invalid" ;;
      replay_row books fees sequence value quantity limit
  | _, _ => Err (Errorf "prediction replay request is invalid")
  end.

Fixpoint replay_requests (books : list parsedBook) (fees : list parsedFee) (cutoff : Time) (sequence : nat) (priorKey : string)
    (requests : list ReplayInput) : outcome (list replayCanonical) :=
  match requests with
  | [] => Ok []
  | value :: rest =>
      row ← replay_request books fees cutoff sequence priorKey value ;
      rows ← replay_requests books fees cutoff (S sequence) (replayInputKey (trimmed_replay value)) rest ;
      Ok (row :: rows)
  end.

Definition replayLess (a b : ReplayInput) : bool := string_lt (replayInputKey a) (replayInputKey b).

Definition buildReplays (values : list ReplayInput) (books : list parsedBook) (fees : list parsedFee) (cutoff : Time)
    : outcome (list replayCanonical) :=
  reject (length values =? 0)%nat "prediction replay requires replay requests" ;;
  replay_requests books fees cutoff 0 "" (sort_slice replayLess values).

(** ** The recorder *)

Definition evidence_fields (e : evidenceCanonical) : list (string * string) :=
  [str "partition_content_sha256" e.(evc_PartitionContentSHA256); str "source_key" e.(evc_SourceKey);
   str "content_sha256" e.(evc_ContentSHA256); str "available_at" e.(evc_AvailableAt)].

Definition marshal_level (l : levelCanonical) : string :=
  json_struct [str "side" l.(lc_Side); ("sequence", json_nat l.(lc_Sequence)); str "price" l.(lc_Price); str "size" l.(lc_Size)].

Definition marshal_book (b : bookCanonical) : string :=
  json_struct (evidence_fields b.(bc_evidence) ++
    [str "market_id" b.(bc_MarketID); str "outcome_id" b.(bc_OutcomeID); str "venue" b.(bc_Venue);
     str "exchange_at" b.(bc_ExchangeAt); ("revision", json_int b.(bc_Revision)); str "correction_of" b.(bc_CorrectionOf);
     ("levels", json_slice (marshal_level <$> b.(bc_Levels)))]).

Definition marshal_fee (f : feeCanonical) : string :=
  json_struct (evidence_fields f.(fc_evidence) ++
    [str "instrument_id" f.(fc_InstrumentID); str "venue" f.(fc_Venue); str "role" f.(fc_Role);
     str "effective_from" f.(fc_EffectiveFrom); str "effective_to" f.(fc_EffectiveTo); str "formula" f.(fc_Formula);
     str "rate" f.(fc_Rate); ("scale", json_int f.(fc_Scale)); str "rounding" f.(fc_Rounding)]).

Definition marshal_fill (f : fillCanonical) : string :=
  json_struct [("sequence", json_nat f.(fl_Sequence)); ("level", json_nat f.(fl_Level)); str "price" f.(fl_Price);
               str "quantity" f.(fl_Quantity); str "gross" f.(fl_Gross)].

Definition marshal_replay (r : replayCanonical) : string :=
  json_struct
    [("sequence", json_nat r.(rc_Sequence)); str "decision_at" r.(rc_DecisionAt); str "market_id" r.(rc_MarketID);
     str "outcome_id" r.(rc_OutcomeID); str "side" r.(rc_Side); str "role" r.(rc_Role); str "quantity" r.(rc_Quantity);
     str "limit_price" r.(rc_LimitPrice); str "status" r.(rc_Status); str "book_source_key" r.(rc_BookSourceKey);
     str "fee_source_key" r.(rc_FeeSourceKey); str "filled_quantity" r.(rc_FilledQuantity);
     str "residual_quantity" r.(rc_ResidualQuantity); str "weighted_price" r.(rc_WeightedPrice); str "gross_cash" r.(rc_GrossCash);
     str "fee" r.(rc_Fee); str "net_cash" r.(rc_NetCash); ("fills", json_slice (marshal_fill <$> r.(rc_Fills)))].

Definition marshal_recorder (c : recorderCanonical) : string :=
  json_struct
    [str "schema" c.(rec_Schema); str "state" c.(rec_State); str "manifest_id" c.(rec_ManifestID);
     str "manifest_sha256" c.(rec_ManifestSHA256); str "manifest_cutoff" c.(rec_ManifestCutoff);
     ("books", json_slice (marshal_book <$> c.(rec_Books))); ("fees", json_slice (marshal_fee <$> c.(rec_Fees)));
     ("replays", json_slice (marshal_replay <$> c.(rec_Replays)))].

Definition NewRecorder (input : Input) : outcome Recorder :=
  match input.(in_Manifest) with
  | None => Err (Errorf "prediction replay manifest is required")
  | Some manifest =>
      index ← manifestIndex manifest ;
      books ← normalizeBooks input.(in_Books) index ;
      fees ← normalizeFees input.(in_Fees) index ;
      replays ← buildReplays input.(in_Replays) books fees manifest.(man_DecisionCutoff) ;
      let canonical := MkRecorderCanonical SchemaV1 "completed" (uuid_string manifest.(man_ID)) manifest.(man_Digest)
                         (formatTime manifest.(man_DecisionCutoff)) (pb_row <$> books) (pf_row <$> fees) replays in
      let encoded := marshal_recorder canonical in
      let digest := hash encoded in
      Ok (MkRecorder canonical encoded digest
            (DeterministicUUID "prediction-book-fee-recorder" [(SchemaV1 +:+ "@sha256:" +:+ digest)%string]))
  end.

(** ** Queries *)

Fixpoint replay_results (rows : list replayCanonical) : outcome (list ReplayResult) :=
  match rows with
  | [] => Ok []
  | row :: rest =>
      match parse_micro row.(rc_DecisionAt), uuid_parse row.(rc_OutcomeID) with
      | Some decisionAt, Some outcomeID =>
          results ← replay_results rest ;
          Ok (MkReplayResult row.(rc_Sequence) decisionAt row.(rc_MarketID) outcomeID (Side_of_string row.(rc_Side))
                (LiquidityRole_of_string row.(rc_Role)) row.(rc_Status) row.(rc_Quantity) row.(rc_FilledQuantity)
                row.(rc_ResidualQuantity) row.(rc_GrossCash) row.(rc_Fee) row.(rc_NetCash) :: results)
      | _, _ => Err (Errorf "prediction recorder replay result is invalid")
      end
  end.

Definition ReplayResults (r : option Recorder) : outcome (list ReplayResult) :=
  match r with
  | None => Err (Errorf "prediction recorder is required")
  | Some r => replay_results r.(recorder_canonical).(rec_Replays)
  end.

(** [t, _ := time.Parse(timeLayout, value)] *)
Definition parsed_or_zero (value : string) : Time := match parse_micro value with Some t => t | None => ZeroTime end.

(** A row of the recorder is eligible at [at_], and replaces the selected one. *)
Definition row_eligible (at_ : Time) (marketID : string) (outcomeID : UUID) (row : bookCanonical) : bool :=
  match parse_micro row.(bc_ExchangeAt), parse_micro row.(bc_evidence).(evc_AvailableAt) with
  | Some exchangeAt, Some availableAt =>
      negb ((row.(bc_MarketID) !=? marketID) || (row.(bc_OutcomeID) !=? uuid_string outcomeID) ||
            After exchangeAt at_ || After availableAt at_)
  | _, _ => false
  end.

Definition row_later (row selected : bookCanonical) : bool :=
  let exchangeAt := parsed_or_zero row.(bc_ExchangeAt) in
  let selectedExchange := parsed_or_zero selected.(bc_ExchangeAt) in
  After exchangeAt selectedExchange ||
  (TimeEqual exchangeAt selectedExchange &&
   ((selected.(bc_Revision) <? row.(bc_Revision))%Z ||
    ((row.(bc_Revision) =? selected.(bc_Revision))%Z &&
     string_lt selected.(bc_evidence).(evc_SourceKey) row.(bc_evidence).(evc_SourceKey)))).

Definition level_result (l : levelCanonical) : BookLevelResult := MkBookLevelResult l.(lc_Price) l.(lc_Size).

Definition BookAt (r : option Recorder) (at_ : Time) (marketID : string) (outcomeID : UUID) : outcome BookResult :=
  match r with
  | None => Err (Errorf "prediction recorder book query is invalid")
  | Some r =>
      reject (negb (canonicalTime at_) || (marketID ==? "") || (outcomeID ==? Nil)) "prediction recorder book query is invalid" ;;
      reject (match parse_micro r.(recorder_canonical).(rec_ManifestCutoff) with None => true | Some cutoff => After at_ cutoff end)
        "prediction recorder book query exceeds cutoff" ;;
      match pick (row_eligible at_ marketID outcomeID) row_later r.(recorder_canonical).(rec_Books) None with
      | None => Err (Errorf "prediction recorder has no eligible book")
      | Some selected =>
          Ok (MkBookResult selected.(bc_MarketID) outcomeID selected.(bc_Venue) selected.(bc_evidence).(evc_SourceKey)
                (parsed_or_zero selected.(bc_ExchangeAt)) (parsed_or_zero selected.(bc_evidence).(evc_AvailableAt))
                selected.(bc_Revision)
                (level_result <$> filter (fun l => l.(lc_Side) = "bid") selected.(bc_Levels))
                (level_result <$> filter (fun l => l.(lc_Side) <> "bid") selected.(bc_Levels)))
      end
  end.

Definition fee_row_eligible (at_ : Time) (outcomeID : UUID) (venue : string) (row : feeCanonical) : bool :=
  match parse_micro row.(fc_evidence).(evc_AvailableAt), parse_micro row.(fc_EffectiveFrom) with
  | Some availableAt, Some effectiveFrom =>
      negb ((row.(fc_InstrumentID) !=? uuid_string outcomeID) || (row.(fc_Venue) !=? normalizeToken venue) ||
            (row.(fc_Role) !=? LiquidityRole_string RoleMaker) || After availableAt at_ || After effectiveFrom at_ ||
            ((row.(fc_EffectiveTo) !=? "") && negb (Before at_ (parsed_or_zero row.(fc_EffectiveTo)))))
  | _, _ => false
  end.

Definition fee_row_later (row selected : feeCanonical) : bool :=
  let from := parsed_or_zero row.(fc_EffectiveFrom) in
  let selectedFrom := parsed_or_zero selected.(fc_EffectiveFrom) in
  let available := parsed_or_zero row.(fc_evidence).(evc_AvailableAt) in
  let selectedAvailable := parsed_or_zero selected.(fc_evidence).(evc_AvailableAt) in
  After from selectedFrom ||
  (TimeEqual from selectedFrom &&
   (After available selectedAvailable ||
    (TimeEqual available selectedAvailable &&
     string_lt selected.(fc_evidence).(evc_SourceKey) row.(fc_evidence).(evc_SourceKey)))).

Definition MakerFeeAt (r : option Recorder) (at_ : Time) (outcomeID : UUID) (venue priceValue quantityValue : string)
    : outcome FeeResult :=
  match r with
  | None => Err (Errorf "prediction recorder maker fee query is invalid")
  | Some r =>
      reject (negb (canonicalTime at_) || (outcomeID ==? Nil) || (venue ==? "")) "prediction recorder maker fee query is invalid" ;;
      match parse_micro r.(recorder_canonical).(rec_ManifestCutoff), exactDecimal priceValue, exactDecimal quantityValue with
      | Some cutoff, Some price, Some quantity =>
          reject (After at_ cutoff || negb (GreaterThan price Zero) || negb (LessThan price one) || negb (GreaterThan quantity Zero))
            "prediction recorder maker fee values are invalid" ;;
          match pick (fee_row_eligible at_ outcomeID venue) fee_row_later r.(recorder_canonical).(rec_Fees) None with
          | None => Err (Errorf "prediction recorder has no eligible maker fee")
          | Some selected =>
              rate ← RequireFromString selected.(fc_Rate) ;
              let fee := fee_component (FeeFormula_of_string selected.(fc_Formula)) rate price quantity in
              Ok (MkFeeResult selected.(fc_evidence).(evc_SourceKey)
                    (DecimalString (round_fee (RoundingMode_of_string selected.(fc_Rounding)) selected.(fc_Scale) fee)))
          end
      | _, _, _ => Err (Errorf "prediction recorder maker fee values are invalid")
      end
  end.

(** ** Restoring a recorder from its canonical bytes *)

Fixpoint canonical_levels (levels : list levelCanonical) : outcome (list LevelInput * list LevelInput) :=
  match levels with
  | [] => Ok ([], [])
  | level :: rest =>
      let value := MkLevelInput level.(lc_Price) level.(lc_Size) in
      if level.(lc_Side) ==? "bid" then '(bids, asks) ← canonical_levels rest ; Ok (value :: bids, asks)
      else if level.(lc_Side) ==? "ask" then '(bids, asks) ← canonical_levels rest ; Ok (bids, value :: asks)
      else Err (Errorf "prediction replay canonical level is invalid")
  end.

Definition canonical_book (row : bookCanonical) : outcome BookInput :=
  match uuid_parse row.(bc_OutcomeID), parse_micro row.(bc_ExchangeAt), parse_micro row.(bc_evidence).(evc_AvailableAt) with
  | Some outcome, Some exchange, Some available =>
      '(bids, asks) ← canonical_levels row.(bc_Levels) ;
      Ok (MkBookInput row.(bc_MarketID) outcome row.(bc_Venue) row.(bc_evidence).(evc_SourceKey)
            row.(bc_evidence).(evc_ContentSHA256) exchange available row.(bc_Revision) row.(bc_CorrectionOf) bids asks)
  | _, _, _ => Err (Errorf "prediction replay canonical book is invalid")
  end.

Definition canonical_fee (row : feeCanonical) : outcome FeePolicyInput :=
  match uuid_parse row.(fc_InstrumentID), parse_micro row.(fc_evidence).(evc_AvailableAt), parse_micro row.(fc_EffectiveFrom) with
  | Some instrumentID, Some available, Some from =>
      to ← (if row.(fc_EffectiveTo) ==? "" then Ok None
            else match parse_micro row.(fc_EffectiveTo) with
                 | Some parsed => Ok (Some parsed)
                 | None => Err (Errorf "prediction replay canonical fee end is invalid")
                 end) ;
      Ok (MkFeePolicyInput instrumentID row.(fc_Venue) (LiquidityRole_of_string row.(fc_Role)) row.(fc_evidence).(evc_SourceKey)
            row.(fc_evidence).(evc_ContentSHA256) available from to (FeeFormula_of_string row.(fc_Formula)) row.(fc_Rate)
            row.(fc_Scale) (RoundingMode_of_string row.(fc_Rounding)))
  | _, _, _ => Err (Errorf "prediction replay canonical fee is invalid")
  end.

Definition canonical_replay (row : replayCanonical) : outcome ReplayInput :=
  match parse_micro row.(rc_DecisionAt), uuid_parse row.(rc_OutcomeID) with
  | Some decision, Some outcome =>
      Ok (MkReplayInput decision row.(rc_MarketID) outcome (Side_of_string row.(rc_Side)) (LiquidityRole_of_string row.(rc_Role))
            row.(rc_Quantity) row.(rc_LimitPrice))
  | _, _ => Err (Errorf "prediction replay canonical request is invalid")
  end.

Definition canonicalInput (value : recorderCanonical) (manifest : Manifest) : outcome Input :=
  books ← map_outcome canonical_book value.(rec_Books) ;
  fees ← map_outcome canonical_fee value.(rec_Fees) ;
  replays ← map_outcome canonical_replay value.(rec_Replays) ;
  Ok (MkInput (Some manifest) books fees replays).

Definition decodeExact (raw : string) : option recorderCanonical :=
  match decodeRecorder raw with
  | Some (value, rest) => if json_eof rest then Some value else None
  | None => None
  end.

Definition FromCanonical (id : UUID) (digest raw : string) (manifest : option Manifest) : outcome Recorder :=
  match manifest, decodeExact raw with
  | Some manifest, Some canonical =>
      reject ((id ==? Nil) || negb (digestPattern digest) || (hash raw !=? digest) || (canonical.(rec_Schema) !=? SchemaV1) ||
              (canonical.(rec_State) !=? "completed") || (canonical.(rec_ManifestID) !=? uuid_string manifest.(man_ID)) ||
              (canonical.(rec_ManifestSHA256) !=? manifest.(man_Digest)) ||
              (canonical.(rec_ManifestCutoff) !=? formatTime manifest.(man_DecisionCutoff)))
        "prediction replay envelope is invalid" ;;
      input ← canonicalInput canonical manifest ;
      match NewRecorder input with
      | Ok rebuilt =>
          reject ((rebuilt.(recorder_digest) !=? digest) || (rebuilt.(recorder_bytes) !=? raw) || (rebuilt.(recorder_id) !=? id))
            "prediction replay canonical graph does not reconstruct" ;;
          Ok rebuilt
      | Err _ => Err (Errorf "prediction replay canonical graph does not reconstruct")
      | Panic p => Panic p
      end
  | _, _ => Err (Errorf "prediction replay envelope is invalid")
  end.
End replay.
