(* ===== verification/PredictionSweep.v ===== *)
(** * The sweep of a book (internal/predictionreplay/model.go, buildReplays)

    [consume_levels] walks the side of a book an order takes from. The relation
    [swept] says level by level what it fills; the lemmas after it say what a
    sweep amounts to: the fills add up, a residual means that the depth within
    the limit is exhausted, and no other way of filling the same quantity within
    the limit is better for the order. *)

From S2P Require Import Prelude GoStd GoText GoTime Externals EconomicId ProjectionPayload PredictionReplay.
From Stdlib Require Import Qminmax.

Local Open Scope go_scope.

Section sweep.
Context {E : Externals} {L : ExternalLaws}.
Local Open Scope Q_scope.

(** A division of the decimal package is off by half of its last digit. *)
Definition half_digit : Q := (1 # 2) * (10 # 1) ^ (- 16).

(** The number a decimal text stands for. *)
Definition num (s : string) : Q := match NewFromString s with Some d => val d | None => 0 end.

Lemma num_text d : num (DecimalString d) == val d.
Proof. unfold num. destruct (NewFromString_String d) as (b & -> & Hb). exact Hb. Qed.

Lemma RequireFromString_num s d : RequireFromString s = Ok d -> num s == val d.
Proof. unfold RequireFromString, num. destruct (NewFromString s); [|done]. by intros [= ->]. Qed.

Lemma exactDecimal_num s d : exactDecimal s = Some d -> s = DecimalString d /\ num s == val d.
Proof.
  unfold exactDecimal. destruct (_ || _ || _)%bool; [done|]. destruct (NewFromString s) as [p|] eqn:Hp; [|done].
  destruct (_ || _)%bool eqn:Hc; [done|]. intros [= ->]. split_bools. subst s. split; [done|]. apply num_text.
Qed.

(** [1] on the side that buys and [-1] on the side that sells: what the order
    pays for one contract, signed. *)
Definition sign_of (side : Side) : Q := match side with SideSell => -1 | _ => 1 end.

(** Levels in the order a side takes them, best first. *)
Definition best_first (side : Side) : list parsedLevel -> Prop :=
  StronglySorted (fun a b => sign_of side * val a.(pl_price) < sign_of side * val b.(pl_price)).

(** The levels within the limit, in book order. *)
Fixpoint within (side : Side) (limit : dec) (levels : list parsedLevel) : list parsedLevel :=
  match levels with
  | [] => []
  | level :: rest => if blocked side limit level.(pl_price) then [] else level :: within side limit rest
  end.

Definition fill_matches (level : parsedLevel) (n : nat) (quantity : Q) (f : fillCanonical) : Prop :=
  f.(fl_Sequence) = n /\ f.(fl_Level) = level.(pl_row).(lc_Sequence) /\ num f.(fl_Price) == val level.(pl_price) /\
  num f.(fl_Quantity) == quantity /\ num f.(fl_Gross) == quantity * val level.(pl_price).

#[global] Instance fill_matches_proper level n : Proper (Qeq ==> eq ==> iff) (fill_matches level n).
Proof. intros q q' Hq f ? <-. unfold fill_matches. by setoid_rewrite Hq. Qed.

(** [swept levels n q fs r g]: an order for [q] that has [n] fills already takes
    the fills [fs] from [levels], leaves [r] unfilled and pays [g]. *)
Inductive swept : list parsedLevel -> nat -> Q -> list fillCanonical -> Q -> Q -> Prop :=
| swept_none n q r g : r == q -> g == 0 -> swept [] n q [] r g
| swept_last level rest n q f r g :
    q <= val level.(pl_size) -> fill_matches level n q f -> r == 0 -> g == q * val level.(pl_price) ->
    swept (level :: rest) n q [f] r g
| swept_whole level rest n q f fs q' r g' g :
    val level.(pl_size) < q -> fill_matches level n (val level.(pl_size)) f -> q' == q - val level.(pl_size) ->
    g == val level.(pl_size) * val level.(pl_price) + g' -> swept rest (S n) q' fs r g' ->
    swept (level :: rest) n q (f :: fs) r g.

Lemma swept_gross levels n q fs r g g' : swept levels n q fs r g -> g' == g -> swept levels n q fs r g'.
Proof.
  intros Hs Hg. destruct Hs; [constructor; lra|apply swept_last; try done; lra|].
  eapply swept_whole; try done. lra.
Qed.

Lemma consume_swept side limit levels : Forall (fun l => 0 < val l.(pl_size)) levels -> forall fills q g fills' q' g',
  0 < val q -> consume_levels side limit levels fills q g = (fills', q', g') ->
  exists fs, fills' = fills ++ fs /\
    swept (within side limit levels) (length fills) (val q) fs (val q') (val g' - val g).
Proof.
  induction 1 as [|level rest Hsize _ IH]; cbn [consume_levels within]; intros fills q g fills' q' g' Hq Hc.
  { simplify_eq. exists []. rewrite app_nil_r. split; [done|]. constructor; lra. }
  destruct (blocked side limit (pl_price level)).
  { simplify_eq. exists []. rewrite app_nil_r. split; [done|]. constructor; lra. }
  set (f := MkFillCanonical _ _ _ _ _) in Hc.
  assert (Hf : fill_matches level (length fills) (val (Min q (pl_size level))) f).
  { repeat split; cbn; rewrite ?num_text, ?val_Mul; reflexivity. }
  destruct (IsZero (Min q (pl_size level))) eqn:Hz.
  { dec_bools. destruct (val_Min q (pl_size level)) as [[? ?]|[? ?]]; lra. }
  destruct (val_Min q (pl_size level)) as [[Hle Hm]|[Hle Hm]].
  - destruct (IsZero (Sub q _)) eqn:Hr; dec_bools; rewrite val_Sub in Hr; [|exfalso; apply Hr; lra].
    simplify_eq. exists [f]. split; [done|]. rewrite Hm in Hf.
    apply swept_last; [done|done|rewrite val_Sub; lra|rewrite val_Add, val_Mul, Hm; lra].
  - destruct (IsZero (Sub q _)) eqn:Hr; dec_bools; rewrite val_Sub in Hr.
    + simplify_eq. exists [f]. split; [done|]. assert (Hx : val (Min q (pl_size level)) == val q) by lra. rewrite Hx in Hf.
      apply swept_last; [lra|done|rewrite val_Sub; lra|rewrite val_Add, val_Mul, Hx; lra].
    + rewrite Hm in Hf. apply IH in Hc as (fs & -> & Hs); [|rewrite val_Sub; lra]. exists (f :: fs). rewrite <- app_assoc. split; [done|].
      rewrite length_app in Hs. cbn [length] in Hs. rewrite Nat.add_1_r in Hs.
      eapply swept_whole; [lra|exact Hf| | |exact Hs].
      * rewrite val_Sub, Hm. lra.
      * rewrite val_Add, val_Mul, Hm. lra.
Qed.

(** *** What a sweep amounts to *)

Lemma swept_sums levels n q fs r g : swept levels n q fs r g ->
  sumQ (fun f => num f.(fl_Quantity)) fs == q - r /\ sumQ (fun f => num f.(fl_Gross)) fs == g /\
  (forall f, f ∈ fs -> num f.(fl_Gross) == num f.(fl_Quantity) * num f.(fl_Price)).
Proof.
  induction 1 as [n q r g Hr Hg|level rest n q f r g Hle Hf Hr Hg|level rest n q f fs q' r g' g Hlt Hf Hq Hg _ IH].
  - split_and!; cbn; [lra|lra|]. intros f Hf. by apply elem_of_nil in Hf.
  - destruct Hf as (_ & _ & Hp & Hfq & Hfg). split_and!; cbn; [rewrite Hfq; lra|rewrite Hfg; lra|].
    intros x Hx. apply list_elem_of_singleton in Hx as ->. rewrite Hfg, Hfq, Hp. reflexivity.
  - destruct Hf as (_ & _ & Hp & Hfq & Hfg). destruct IH as (IHq & IHg & IHe). split_and!; cbn.
    + rewrite Hfq, IHq, Hq. lra.
    + rewrite Hfg, IHg, Hg. lra.
    + intros x Hx. apply elem_of_cons in Hx as [->|Hx]; [rewrite Hfg, Hfq, Hp; reflexivity|by apply IHe].
Qed.

Lemma swept_bounds levels n q fs r g : swept levels n q fs r g -> Forall (fun l => 0 < val l.(pl_size)) levels -> 0 < q ->
  0 <= r <= q /\ (levels <> [] -> r < q) /\ (levels = [] -> r == q /\ fs = []).
Proof.
  induction 1 as [n q r g Hr Hg|level rest n q f r g Hle Hf Hr Hg|level rest n q f fs q' r g' g Hlt Hf Hq Hg _ IH];
    intros Hs Hpos; [split_and!; try done; lra|split_and!; try done; lra|].
  apply Forall_cons in Hs as [Hs Hrest]. destruct IH as ((? & ?) & _); [done|lra|]. split_and!; try done; intros; lra.
Qed.

(** What stays unfilled is what exceeds the depth within the limit. *)
Lemma swept_depth levels n q fs r g : swept levels n q fs r g -> Forall (fun l => 0 < val l.(pl_size)) levels -> 0 < q ->
  r == Qmax 0 (q - sumQ (fun l => val l.(pl_size)) levels).
Proof.
  induction 1 as [n q r g Hr Hg|level rest n q f r g Hle Hf Hr Hg|level rest n q f fs q' r g' g Hlt Hf Hq Hg _ IH];
    intros Hs Hpos; cbn [sumQ].
  - rewrite Q.max_r by lra. lra.
  - apply Forall_cons in Hs as [_ Hs].
    assert (0 <= sumQ (fun l => val (pl_size l)) rest).
    { apply sumQ_nonneg. intros l Hl. rewrite Forall_forall in Hs. specialize (Hs l Hl). cbn in Hs. lra. }
    rewrite Q.max_l by lra. done.
  - apply Forall_cons in Hs as [_ Hs]. rewrite IH by (done || lra). rewrite Hq.
    assert (Hx : q - val (pl_size level) - sumQ (fun l => val (pl_size l)) rest ==
                 q - (val (pl_size level) + sumQ (fun l => val (pl_size l)) rest)) by lra.
    by rewrite Hx.
Qed.

(** The fills are a sweep in book order: fill [i] takes from level [i], whole
    levels before the last. *)
Lemma swept_fill levels n q fs r g i f : swept levels n q fs r g -> fs !! i = Some f ->
  exists level, levels !! i = Some level /\ f.(fl_Sequence) = (n + i)%nat /\ f.(fl_Level) = level.(pl_row).(lc_Sequence) /\
    num f.(fl_Price) == val level.(pl_price) /\ num f.(fl_Quantity) <= val level.(pl_size) /\
    (S i < length fs -> num f.(fl_Quantity) == val level.(pl_size))%nat.
Proof.
  intros Hs. revert i f.
  induction Hs as [n q r g Hr Hg|level rest n q f r g Hle Hf Hr Hg|level rest n q f fs q' r g' g Hlt Hf Hq Hg _ IH]; intros [|i] x Hx;
    try done.
  - injection Hx as <-. destruct Hf as (? & ? & ? & Hfq & ?). exists level. rewrite Hfq. cbn. split_and!; try done; try lia; lra.
  - injection Hx as <-. destruct Hf as (? & ? & ? & Hfq & ?). exists level. rewrite Hfq. cbn. split_and!; try done; try lia; lra.
  - cbn in Hx. destruct (IH i x Hx) as (l & ? & ? & ? & ? & ? & Hw). exists l. cbn. split_and!; try done; [lia|].
    intros. apply Hw. lia.
Qed.

(** *** The sweep is the best fill within the limit *)

(** Any other allocation [x] of at least the same quantity to levels whose
    signed price is at least [low] costs at least as much. *)
Lemma swept_optimal side levels n q fs r g (x : parsedLevel -> Q) low :
  swept levels n q fs r g -> best_first side levels ->
  (forall l, l ∈ levels -> 0 <= x l <= val l.(pl_size)) -> (forall l, l ∈ levels -> low <= sign_of side * val l.(pl_price)) ->
  q - r <= sumQ x levels ->
  sign_of side * g + low * (sumQ x levels - (q - r)) <= sumQ (fun l => x l * (sign_of side * val l.(pl_price))) levels.
Proof.
  intros Hs. revert low.
  induction Hs as [n q r g Hr Hg|level rest n q f r g Hle Hf Hr Hg|level rest n q f fs q' r g' g Hlt Hf Hq Hg _ IH];
    intros low Hsort Hx Hlow Hsum.
  - cbn in *. rewrite Hr, Hg. lra.
  - assert (Hall : forall l, l ∈ level :: rest -> sign_of side * val (pl_price level) <= sign_of side * val (pl_price l)).
    { apply StronglySorted_inv in Hsort as [_ Hf']. rewrite Forall_forall in Hf'.
      intros l Hl. apply elem_of_cons in Hl as [->|Hl]; [lra|]. specialize (Hf' l Hl). lra. }
    assert (Hc : sign_of side * val (pl_price level) * sumQ x (level :: rest) <=
                 sumQ (fun l => x l * (sign_of side * val (pl_price l))) (level :: rest)).
    { clear - Hall Hx. set (p := sign_of side * val (pl_price level)) in *. clearbody p. revert Hall Hx.
      generalize (level :: rest). intros ls Hall Hx. induction ls as [|l ls IHl]; cbn [sumQ]; [lra|].
      assert (0 <= x l <= val (pl_size l)) by (apply Hx; set_solver).
      assert (p <= sign_of side * val (pl_price l)) by (apply Hall; set_solver).
      assert (p * sumQ x ls <= sumQ (fun l => x l * (sign_of side * val (pl_price l))) ls)
        by (apply IHl; intros; [apply Hall|apply Hx]; set_solver). nra. }
    assert (low <= sign_of side * val (pl_price level)) by (apply Hlow; set_solver).
    rewrite Hg. set (p := sign_of side * val (pl_price level)) in *. set (X := sumQ x (level :: rest)) in *.
    assert (Hg' : sign_of side * (q * val (pl_price level)) == q * p) by (unfold p; ring). rewrite Hg'.
    assert (0 <= (p - low) * (X - (q - r))) by (apply Qmult_le_0_compat; lra). rewrite Hr in *. nra.
  - apply StronglySorted_inv in Hsort as [Hsort Hf']. rewrite Forall_forall in Hf'. cbn [sumQ] in *.
    assert (Hx0 : 0 <= x level <= val (pl_size level)) by (apply Hx; set_solver).
    assert (Hl0 : low <= sign_of side * val (pl_price level)) by (apply Hlow; set_solver).
    assert (HI : sign_of side * g' + sign_of side * val (pl_price level) * (sumQ x rest - (q' - r)) <=
                 sumQ (fun l => x l * (sign_of side * val (pl_price l))) rest).
    { apply IH; [done|intros; apply Hx; set_solver| |rewrite Hq; lra].
      intros l Hl. specialize (Hf' l Hl). lra. }
    rewrite Hg. rewrite Hq in HI. set (p := sign_of side * val (pl_price level)) in *.
    assert (Hg' : sign_of side * (val (pl_size level) * val (pl_price level) + g') == val (pl_size level) * p + sign_of side * g')
      by (unfold p; ring). rewrite Hg'.
    assert (0 <= (p - low) * (x level + sumQ x rest - (q - r))) by (apply Qmult_le_0_compat; lra). nra.
Qed.
End sweep.
