(* ===== verification/PredictionReplayProofs.v ===== *)
(** * Books, fee policies and their selection

    What the normalization of [NewRecorder] guarantees (books whose levels are
    positive and strictly ordered, fee windows that are disjoint), and what the
    point-in-time selection picks: the latest row that was available, whatever
    the order of the rows and whatever becomes available later. *)

From S2P Require Import Prelude GoStd GoText GoTime Externals EconomicId ProjectionPayload TextProofs PredictionReplay PredictionSweep.

Local Open Scope go_scope.

(** ** Strict weak orders, built lexicographically *)

Class StrictWeak {A} (less : A -> A -> bool) : Prop := {
  weak_asym a b : less a b = true -> less b a = false;
  weak_trans a b c : less a b = false -> less b c = false -> less a c = false;
}.

Lemma weak_irrefl {A} (less : A -> A -> bool) `{StrictWeak A less} a : less a a = false.
Proof. destruct (less a a) eqn:Hl; [|done]. by rewrite <- Hl, (weak_asym a a Hl). Qed.

#[global] Instance weak_not_after_trans {A} (less : A -> A -> bool) `{StrictWeak A less} : Transitive (not_after less).
Proof. intros a b c Hab Hbc. exact (weak_trans c b a Hbc Hab). Qed.

#[global] Instance weak_not_after_total {A} (less : A -> A -> bool) `{StrictWeak A less} : Total (not_after less).
Proof. intros a b. unfold not_after. destruct (less b a) eqn:Hl; [right|by left]. by apply weak_asym. Qed.

Lemma weak_sorted {A} (less : A -> A -> bool) `{StrictWeak A less} l : StronglySorted (not_after less) (sort_slice less l).
Proof. apply StronglySorted_merge_sort; apply _. Qed.

(** A key with a strict order that is total, then the rest. *)
Definition then_by {A K} (key : A -> K) (lt : K -> K -> bool) (next : A -> A -> bool) (a b : A) : bool :=
  lt (key a) (key b) || (negb (lt (key b) (key a)) && next a b).

Class StrictTotal {K} (lt : K -> K -> bool) : Prop := {
  total_weak :: StrictWeak lt;
  total_eq x y : lt x y = false -> lt y x = false -> x = y;
}.

#[global] Instance then_by_weak {A K} (key : A -> K) lt next `{StrictTotal K lt, StrictWeak A next} : StrictWeak (then_by key lt next).
Proof.
  split; unfold then_by.
  - intros a b. destruct (lt (key a) (key b)) eqn:Hab, (lt (key b) (key a)) eqn:Hba; cbn; try done.
    + apply weak_asym in Hab. congruence.
    + apply weak_asym.
  - intros a b c Hab Hbc. apply orb_false_iff in Hab as [Hab Hab'], Hbc as [Hbc Hbc'].
    pose proof (weak_trans _ _ _ Hab Hbc) as Hac. rewrite Hac. cbn [orb].
    destruct (lt (key c) (key a)) eqn:Hca; [done|]. cbn [negb andb].
    assert (Hba : lt (key b) (key a) = false) by (exact (weak_trans _ _ _ Hbc Hca)).
    assert (Hcb : lt (key c) (key b) = false) by (exact (weak_trans _ _ _ Hca Hab)).
    rewrite Hba in Hab'. rewrite Hcb in Hbc'. exact (weak_trans a b c Hab' Hbc').
Qed.

#[global] Instance string_lt_total' : StrictTotal string_lt.
Proof.
  assert (Hasym : forall a b, string_lt a b = true -> string_lt b a = false).
  { intros a b Hab. destruct (string_lt b a) eqn:Hba; [|done]. by rewrite <- (string_lt_irrefl a), (string_lt_trans a b a). }
  split; [split; [done|]|exact string_lt_total].
  intros a b c Hab Hbc. destruct (string_lt a c) eqn:Hac; [|done].
  destruct (string_lt b a) eqn:Hba; [by rewrite <- Hbc, (string_lt_trans b a c)|].
  rewrite (string_lt_total _ _ Hab Hba) in Hac. congruence.
Qed.

#[global] Instance Zltb_total : StrictTotal Z.ltb.
Proof. split; [split|]; intros; rewrite ?Z.ltb_lt, ?Z.ltb_ge in *; lia. Qed.

Lemma by_key_weak {A K} (key : A -> K) lt `{StrictTotal K lt} : StrictWeak (fun a b => lt (key a) (key b)).
Proof. split; intros *; [apply weak_asym|apply weak_trans]. Qed.

Lemma on_weak {A B} (f : A -> B) (less : B -> B -> bool) `{StrictWeak B less} : StrictWeak (fun a b => less (f a) (f b)).
Proof. split; intros *; [apply weak_asym|apply weak_trans]. Qed.

Lemma flip_weak {A} (less : A -> A -> bool) `{StrictWeak A less} : StrictWeak (fun a b => less b a).
Proof. split; intros; [by apply weak_asym|by eapply weak_trans]. Qed.

(** The way the code writes the same thing. *)
Lemma then_by_if {A K} `{EqDecision K} (key : A -> K) lt next `{StrictTotal K lt} a b :
  (if negb (bool_decide (key a = key b)) then lt (key a) (key b) else next a b) = then_by key lt next a b.
Proof.
  unfold then_by. case_bool_decide as Heq; cbn [negb].
  - rewrite Heq, (weak_irrefl lt). done.
  - destruct (lt (key a) (key b)) eqn:Hab; [done|]. destruct (lt (key b) (key a)) eqn:Hba; [done|].
    destruct Heq. by apply total_eq.
Qed.

(** What lies between two elements with the same first key has that key. *)
Lemma then_by_between {A K} (key : A -> K) lt next `{StrictTotal K lt} a b c :
  not_after (then_by key lt next) a b -> not_after (then_by key lt next) b c -> key a = key c ->
  key b = key a /\ not_after next a b /\ not_after next b c.
Proof.
  unfold not_after, then_by. intros [Hba Hba']%orb_false_iff [Hcb Hcb']%orb_false_iff Heq.
  rewrite <- Heq in Hcb, Hcb'. rewrite Hba in Hcb'. rewrite Hcb in Hba'. split_and!; [|done|done]. by apply total_eq.
Qed.

Lemma weak_ext {A} (less less' : A -> A -> bool) : (forall a b, less a b = less' a b) -> StrictWeak less -> StrictWeak less'.
Proof. intros Hext [Ha Ht]. split; intros *; rewrite <- !Hext; eauto. Qed.

(** ** The selection loop *)
Section pick.
Context {A : Type} (eligible : A -> bool) (later : A -> A -> bool).

Lemma pick_Some values selected s : pick eligible later values selected = Some s ->
  (s ∈ values /\ eligible s = true) \/ selected = Some s.
Proof.
  revert selected. induction values as [|v values IH]; cbn [pick]; intros selected Hp; [by right|].
  apply IH in Hp as [[Hin He]|Hp]; [left; split; [by right|done]|].
  destruct (eligible v) eqn:Hv; [|by right]. destruct selected as [s0|]; cbn in Hp.
  - destruct (later v s0); [|by right]. injection Hp as <-. left. by split; [left|].
  - injection Hp as <-. left. by split; [left|].
Qed.

Lemma pick_None values selected : pick eligible later values selected = None ->
  selected = None /\ forall v, v ∈ values -> eligible v = false.
Proof.
  revert selected. induction values as [|v values IH]; cbn [pick]; intros selected Hp.
  { split; [done|]. intros v Hv. by apply elem_of_nil in Hv. }
  apply IH in Hp as [Hsel Hall]. destruct (eligible v) eqn:He, selected as [s0|]; cbn in Hsel.
  - by destruct (later v s0).
  - done.
  - done.
  - split; [done|]. intros w Hw. apply elem_of_cons in Hw as [->|Hw]; auto.
Qed.

Lemma pick_max `{StrictWeak A later} values selected s : pick eligible later values selected = Some s ->
  (forall v, v ∈ values -> eligible v = true -> later v s = false) /\
  (forall s0, selected = Some s0 -> later s0 s = false).
Proof.
  revert selected. induction values as [|v values IH]; cbn [pick]; intros selected Hp.
  { simplify_eq. split; [intros v Hv; by apply elem_of_nil in Hv|]. intros s0 [= ->]. by apply weak_irrefl. }
  apply IH in Hp as [Hall Hsel]. split.
  - intros w Hw He. apply elem_of_cons in Hw as [->|Hw]; [|auto].
    rewrite He in Hsel. destruct selected as [s0|]; cbn in Hsel; [|by apply Hsel].
    destruct (later v s0) eqn:Hl; [by apply Hsel|]. exact (weak_trans v s0 s Hl (Hsel s0 eq_refl)).
  - intros s0 ->. destruct (eligible v); [|by apply Hsel]. cbn in Hsel.
    destruct (later v s0) eqn:Hl; [|by apply Hsel]. exact (weak_trans s0 v s (weak_asym v s0 Hl) (Hsel v eq_refl)).
Qed.

(** Rows that are never eligible do not matter. *)
Lemma pick_filter (P : A -> Prop) `{!forall v, Decision (P v)} values selected :
  (forall v, v ∈ values -> eligible v = true -> P v) ->
  pick eligible later (filter P values) selected = pick eligible later values selected.
Proof.
  revert selected. induction values as [|v values IH]; intros selected HP; [done|]. rewrite filter_cons.
  destruct (decide (P v)) as [Hv|Hv]; cbn [pick]; rewrite IH by (intros; apply HP; [by right|done]); [done|].
  destruct (eligible v) eqn:He; [|done]. exfalso. apply Hv, HP; [by left|done].
Qed.

(** Where no two eligible rows tie, the selection does not depend on the order. *)
Lemma pick_perm `{StrictWeak A later} l k :
  (forall v w, v ∈ l -> w ∈ l -> eligible v = true -> eligible w = true -> later v w = false -> later w v = false -> v = w) ->
  l ≡ₚ k -> pick eligible later l None = pick eligible later k None.
Proof.
  intros Htie Hp.
  destruct (pick eligible later l None) as [s|] eqn:Hl, (pick eligible later k None) as [s'|] eqn:Hk; [|exfalso|exfalso|done].
  - destruct (pick_Some _ _ _ Hl) as [[Hs He]|?], (pick_Some _ _ _ Hk) as [[Hs' He']|?]; try done.
    destruct (pick_max _ _ _ Hl) as [Hml _], (pick_max _ _ _ Hk) as [Hmk _]. f_equal.
    rewrite <- Hp in Hs'. apply Htie; try done; [apply Hmk; [by rewrite <- Hp|done]|by apply Hml].
  - destruct (pick_Some _ _ _ Hl) as [[Hs He]|?]; [|done]. destruct (pick_None _ _ Hk) as [_ Hn].
    rewrite Hp in Hs. by rewrite (Hn s Hs) in He.
  - destruct (pick_Some _ _ _ Hk) as [[Hs He]|?]; [|done]. destruct (pick_None _ _ Hl) as [_ Hn].
    rewrite <- Hp in Hs. by rewrite (Hn s' Hs) in He.
Qed.
End pick.

Lemma pick_fmap {A B} (f : A -> B) eligible later values selected :
  pick eligible later (f <$> values) (f <$> selected) =
  f <$> pick (fun v => eligible (f v)) (fun v w => later (f v) (f w)) values selected.
Proof.
  revert selected. induction values as [|v values IH]; intros selected; [done|]. cbn [pick fmap list_fmap].
  rewrite <- IH. f_equal. destruct (eligible (f v)), selected as [s|]; cbn; try done. by destruct (later (f v) (f s)).
Qed.

Lemma pick_ext {A} (el el' : A -> bool) (later later' : A -> A -> bool) values selected :
  (forall v, v ∈ values -> el v = el' v) ->
  (forall v w, v ∈ values -> w ∈ values \/ selected = Some w -> later v w = later' v w) ->
  pick el later values selected = pick el' later' values selected.
Proof.
  revert selected. induction values as [|v values IH]; intros selected He Hl; [done|]. cbn [pick].
  rewrite (He v) by by left.
  assert (Hs : match selected with None => true | Some s => later v s end = match selected with None => true | Some s => later' v s end).
  { destruct selected as [s|]; [|done]. apply Hl; [by left|by right]. }
  rewrite Hs. apply IH; [intros; apply He; by right|].
  intros a b Ha [Hb|Hb]; [apply Hl; [by right|left; by right]|].
  destruct (el' v && _); [injection Hb as <-; apply Hl; [by right|left; by left]|apply Hl; [by right|by right]].
Qed.

(** ** Books *)
Section books.
Context {E : Externals} {L : ExternalLaws}.

Definition level_row (side : string) (i : nat) (l : parsedLevel) : Prop :=
  l.(pl_row) = MkLevelCanonical side i (DecimalString l.(pl_price)) (DecimalString l.(pl_size)).

Definition level_valid (l : parsedLevel) : Prop := (0 < val l.(pl_price) < 1 /\ 0 < val l.(pl_size))%Q.

Lemma val_one : (val one == 1)%Q.
Proof. unfold one. by rewrite val_NewFromInt. Qed.

Lemma parse_levels_spec side (desc : bool) values : forall i prior levels,
  parse_levels side desc i prior values = Ok levels ->
  let s := if desc then SideSell else SideBuy in
  Forall level_valid levels /\ best_first s levels /\
  (forall before, prior = Some before -> Forall (fun l => sign_of s * val before < sign_of s * val l.(pl_price))%Q levels) /\
  (forall k l, levels !! k = Some l -> level_row side (i + k) l) /\
  values = (fun l => MkLevelInput (DecimalString l.(pl_price)) (DecimalString l.(pl_size))) <$> levels.
Proof.
  induction values as [|value values IH]; cbn [parse_levels]; intros i prior levels Hp.
  { injection Hp as <-. split_and!; try done; constructor. }
  destruct (exactDecimal (lin_Price value)) as [price|] eqn:Hprice; [|done].
  destruct (exactDecimal (lin_Size value)) as [size|] eqn:Hsize; [|done].
  inv_ok Hp. subst levels. rename x into rest.
  match goal with H : parse_levels _ _ _ _ _ = Ok _ |- _ => apply IH in H as (Hv & Hs & Hb & Hr & ->) end.
  split_bools. dec_bools. rewrite val_Zero, val_one in *.
  assert (Hbefore : forall before, prior = Some before ->
            (sign_of (if desc then SideSell else SideBuy) * val before < sign_of (if desc then SideSell else SideBuy) * val price)%Q).
  { intros before ->. cbn in *. destruct desc; split_bools; dec_bools; cbn; lra. }
  cbv zeta in *. split_and!.
  - constructor; [|done]. split; cbn; [|done]. split; [done|].
    match goal with H : LessThan price one = true |- _ => apply LessThan_true in H; rewrite val_one in H; exact H | _ => lra end.
  - constructor; [done|]. by apply (Hb price).
  - intros before Hprior. specialize (Hbefore before Hprior). constructor; [done|].
    eapply Forall_impl; [by apply (Hb price)|]. cbn. intros l Hl. lra.
  - intros [|k] l Hl; cbn in Hl; [injection Hl as <-; by rewrite Nat.add_0_r|]. rewrite Nat.add_succ_r. by apply Hr.
  - cbn. f_equal. apply exactDecimal_num in Hprice as [Hprice _], Hsize as [Hsize _]. destruct value. cbn in *. by subst.
Qed.
(** A book the normalization accepted. *)
Record book_ok (b : parsedBook) : Prop := {
  bo_bids : normalizeLevels "bid" b.(pb_input).(bin_Bids) true = Ok b.(pb_bids);
  bo_asks : normalizeLevels "ask" b.(pb_input).(bin_Asks) false = Ok b.(pb_asks);
  bo_two_sided : b.(pb_bids) <> [] /\ b.(pb_asks) <> [];
  bo_exchange : canonicalTime b.(pb_input).(bin_ExchangeAt) = true;
  bo_available : canonicalTime b.(pb_input).(bin_AvailableAt) = true;
  bo_order : (b.(pb_input).(bin_ExchangeAt).(instant) <= b.(pb_input).(bin_AvailableAt).(instant))%Z;
  bo_row : let input := b.(pb_input) in exists partition, b.(pb_row) =
    MkBookCanonical (MkEvidence partition input.(bin_SourceKey) input.(bin_ContentSHA256) (formatTime input.(bin_AvailableAt)))
      input.(bin_MarketID) (uuid_string input.(bin_OutcomeID)) input.(bin_Venue) (formatTime input.(bin_ExchangeAt))
      input.(bin_Revision) input.(bin_CorrectionOf) ((pl_row <$> b.(pb_bids)) ++ (pl_row <$> b.(pb_asks)));
  bo_market : b.(pb_input).(bin_MarketID) <> "";
  bo_source : b.(pb_input).(bin_SourceKey) <> "";
}.

Lemma normalize_book_ok index identity value b : normalize_book index identity value = Ok b ->
  book_ok b /\ b.(pb_input) = trimmed_book value /\ book_identity b.(pb_input) ∉ identity.
Proof.
  unfold normalize_book. intros Hb. set (v := trimmed_book value) in *.
  destruct (index !! _) as [obs|]; [|done]. inv_ok Hb.
  destruct x as [|bid bids]; [done|]. destruct x0 as [|ask asks]; [done|]. inv_ok Hb. subst b. split_bools.
  split_and!; [|done|done]. split; cbn [pb_input pb_bids pb_asks pb_row]; try done; [|by eexists].
  unfold After in *. lia.
Qed.

Lemma parse_books_ok index values : forall identity result bySource books sources,
  parse_books index values identity result bySource = Ok (books, sources) ->
  exists parsed, books = result ++ parsed /\ Forall book_ok parsed /\ pb_input <$> parsed = trimmed_book <$> values /\
    NoDup ((fun b => b.(pb_input).(bin_SourceKey)) <$> parsed) /\
    (forall b, b ∈ parsed -> bySource !! b.(pb_input).(bin_SourceKey) = None).
Proof.
  induction values as [|value values IH]; cbn [parse_books]; intros identity result bySource books sources Hp.
  { simplify_eq. exists []. rewrite app_nil_r. split_and!; try done; [constructor|].
    intros b Hb. by apply elem_of_nil in Hb. }
  inv_ok Hp. split_bools. rename x into b.
  match goal with H : normalize_book _ _ _ = Ok b |- _ => apply normalize_book_ok in H as (Hok & Hin & _) end.
  apply IH in Hp as (parsed & -> & Hall & Hmap & Hnd & Hfresh). exists (b :: parsed). rewrite <- app_assoc.
  match goal with H : ~ is_Some (bySource !! _) |- _ => rewrite <- eq_None_not_Some in H; rename H into Hnone end.
  split_and!; [done|by constructor|by rewrite !fmap_cons, Hin, Hmap| |].
  - rewrite fmap_cons. constructor; [|done]. intros (b' & Heq & Hb')%list_elem_of_fmap.
    specialize (Hfresh b' Hb'). rewrite <- Heq, lookup_insert_eq in Hfresh. done.
  - intros b' Hb'. apply elem_of_cons in Hb' as [->|Hb']; [done|]. specialize (Hfresh b' Hb').
    by apply lookup_insert_None in Hfresh as [? _].
Qed.

Lemma normalizeBooks_ok values index books : normalizeBooks values index = Ok books ->
  Forall book_ok books /\ pb_input <$> books ≡ₚ trimmed_book <$> values /\
  NoDup ((fun b => b.(pb_input).(bin_SourceKey)) <$> books).
Proof.
  unfold normalizeBooks. intros Hn. inv_ok Hn. destruct x as [result sources].
  match goal with H : parse_books _ _ _ _ _ = Ok _ |- _ => apply parse_books_ok in H as (parsed & Hr & Hall & Hmap & Hnd & _) end.
  cbn in Hr. subst result. inv_ok Hn. subst books.
  pose proof (sort_slice_perm bookLess parsed) as Hperm. split_and!.
  - by rewrite Hperm.
  - rewrite Hperm. by rewrite Hmap.
  - by rewrite Hperm.
Qed.

(** Later: by exchange time, then revision, then source key. *)
Definition book_order : BookInput -> BookInput -> bool :=
  then_by (fun b => b.(bin_ExchangeAt).(instant)) Z.ltb
    (then_by bin_Revision Z.ltb (fun a b => string_lt a.(bin_SourceKey) b.(bin_SourceKey))).

Lemma book_later_order value selected : book_later value selected = book_order selected value.
Proof.
  unfold book_later, book_order, then_by, After, TimeEqual.
  destruct (Z.ltb_spec (instant (bin_ExchangeAt selected)) (instant (bin_ExchangeAt value))),
    (Z.eqb_spec (instant (bin_ExchangeAt value)) (instant (bin_ExchangeAt selected))),
    (Z.ltb_spec (instant (bin_ExchangeAt value)) (instant (bin_ExchangeAt selected)));
    cbn; try lia; try done.
  destruct (Z.ltb_spec (bin_Revision selected) (bin_Revision value)), (Z.eqb_spec (bin_Revision value) (bin_Revision selected)),
    (Z.ltb_spec (bin_Revision value) (bin_Revision selected)); cbn; try lia; done.
Qed.

#[global] Instance book_order_weak : StrictWeak book_order.
Proof. apply then_by_weak; [apply _|]. apply then_by_weak; [apply _|]. exact (by_key_weak bin_SourceKey string_lt). Qed.

#[global] Instance book_later_weak : StrictWeak book_later.
Proof. eapply weak_ext; [|exact (flip_weak book_order)]. intros. symmetry. apply book_later_order. Qed.

Lemma book_later_tie v w : book_later v w = false -> book_later w v = false -> v.(bin_SourceKey) = w.(bin_SourceKey).
Proof.
  rewrite !book_later_order. unfold book_order, then_by.
  intros [H1 H2]%orb_false_iff [H3 H4]%orb_false_iff. rewrite H1 in H4. rewrite H3 in H2. cbn in H2, H4.
  apply orb_false_iff in H2 as [H5 H6], H4 as [H7 H8]. rewrite H5 in H8. rewrite H7 in H6. cbn in H6, H8.
  by apply string_lt_total.
Qed.

(** The book a request is replayed against, by its input. *)
Lemma selectBook_input books request :
  pb_input <$> selectBook books request = pick (book_eligible request) book_later (pb_input <$> books) None.
Proof. symmetry. exact (pick_fmap pb_input (book_eligible request) book_later books None). Qed.

Lemma selectBook_perm books k request : NoDup ((fun b => b.(bin_SourceKey)) <$> k) -> pb_input <$> books ≡ₚ k ->
  pb_input <$> selectBook books request = pick (book_eligible request) book_later k None.
Proof.
  intros Hnd Hp. rewrite selectBook_input. apply (pick_perm _ book_later); [|done].
  intros v w Hv Hw _ _ H1 H2. rewrite Hp in Hv, Hw. pose proof (book_later_tie v w H1 H2) as Hs.
  apply list_elem_of_lookup in Hv as [i Hi], Hw as [j Hj].
  assert (i = j); [|congruence]. apply (NoDup_lookup _ i j (bin_SourceKey v) Hnd); rewrite list_lookup_fmap, ?Hi, ?Hj; cbn; by rewrite ?Hs.
Qed.
End books.

(** ** Fee policies *)
Section fees.
Context {E : Externals} {L : ExternalLaws}.

(** A fee policy the normalization accepted. *)
Record fee_ok (f : parsedFee) : Prop := {
  fo_rate : exactDecimal f.(pf_input).(fin_Rate) = Some f.(pf_rate);
  fo_rate_nonneg : (0 <= val f.(pf_rate))%Q;
  fo_role : f.(pf_input).(fin_Role) = RoleMaker \/ f.(pf_input).(fin_Role) = RoleTaker;
  fo_formula : f.(pf_input).(fin_Formula) = FeeNotionalBPS \/ f.(pf_input).(fin_Formula) = FeeContractCurve;
  fo_rounding : f.(pf_input).(fin_Rounding) = RoundHalfUp \/ f.(pf_input).(fin_Rounding) = RoundCeiling;
  fo_scale : (0 <= f.(pf_input).(fin_Scale) <= 12)%Z;
  fo_available : canonicalTime f.(pf_input).(fin_AvailableAt) = true;
  fo_from : canonicalTime f.(pf_input).(fin_EffectiveFrom) = true;
  fo_to : forall t, f.(pf_input).(fin_EffectiveTo) = Some t ->
    canonicalTime t = true /\ (f.(pf_input).(fin_EffectiveFrom).(instant) < t.(instant))%Z;
  fo_row : let input := f.(pf_input) in exists partition, f.(pf_row) =
    MkFeeCanonical (MkEvidence partition input.(fin_SourceKey) input.(fin_ContentSHA256) (formatTime input.(fin_AvailableAt)))
      (uuid_string input.(fin_InstrumentID)) input.(fin_Venue) (LiquidityRole_string input.(fin_Role))
      (formatTime input.(fin_EffectiveFrom)) (fee_end input) (FeeFormula_string input.(fin_Formula)) (DecimalString f.(pf_rate))
      input.(fin_Scale) (RoundingMode_string input.(fin_Rounding));
}.

Lemma normalize_fee_ok index identity value f : normalize_fee index identity value = Ok f ->
  fee_ok f /\ f.(pf_input) = trimmed_fee value.
Proof.
  unfold normalize_fee. intros Hf. set (v := trimmed_fee value) in *.
  destruct (exactDecimal (fin_Rate v)) as [rate|] eqn:Hrate; [|done]. destruct (index !! _) as [obs|]; [|done].
  inv_ok Hf. subst f. split_bools. split; [|done].
  repeat match goal with H : (_ || _) = true |- _ => apply orb_true_iff in H; rewrite !bool_decide_eq_true in H end.
  split; cbn [pf_input pf_rate pf_row]; [assumption| |assumption|assumption|assumption| |assumption|assumption| |by eexists].
  - dec_bools. assumption.
  - rewrite !Z.ltb_ge in *. auto.
  - intros t Ht. match goal with H : some_and _ _ = false |- _ => rewrite Ht in H; cbn [some_and] in H end.
    split_bools. split; [assumption|]. unfold Before in *. lia.
Qed.
(** *** The windows of one instrument, venue and role are disjoint *)

Definition fee_order : FeePolicyInput -> FeePolicyInput -> bool :=
  then_by (fun f => uuid_string f.(fin_InstrumentID)) string_lt
    (then_by fin_Venue string_lt
       (then_by (fun f => LiquidityRole_string f.(fin_Role)) string_lt
          (then_by (fun f => f.(fin_EffectiveFrom).(instant)) Z.ltb (fun a b => string_lt a.(fin_SourceKey) b.(fin_SourceKey))))).

#[global] Instance fee_order_weak : StrictWeak fee_order.
Proof. do 4 (apply then_by_weak; [apply _|]). exact (by_key_weak fin_SourceKey string_lt). Qed.

Lemma feeLess_order a b : feeLess a b = fee_order a.(pf_input) b.(pf_input).
Proof.
  unfold feeLess, fee_order. rewrite <- !then_by_if by apply _.
  assert (Hu : bool_decide (fin_InstrumentID (pf_input a) = fin_InstrumentID (pf_input b)) =
               bool_decide (uuid_string (fin_InstrumentID (pf_input a)) = uuid_string (fin_InstrumentID (pf_input b)))).
  { apply bool_decide_ext. split; [by intros ->|apply (inj uuid_string)]. }
  assert (Ht : TimeEqual (fin_EffectiveFrom (pf_input a)) (fin_EffectiveFrom (pf_input b)) =
               bool_decide (instant (fin_EffectiveFrom (pf_input a)) = instant (fin_EffectiveFrom (pf_input b)))).
  { clear Hu. unfold TimeEqual. case_bool_decide as Heq; [by rewrite Heq, Z.eqb_refl|by apply Z.eqb_neq]. }
  rewrite Hu, Ht. done.
Qed.

#[global] Instance feeLess_weak : StrictWeak feeLess.
Proof. split; intros *; rewrite !feeLess_order; [apply weak_asym|apply weak_trans]. Qed.

Definition same_window_group (a b : FeePolicyInput) : Prop :=
  a.(fin_InstrumentID) = b.(fin_InstrumentID) /\ a.(fin_Venue) = b.(fin_Venue) /\ a.(fin_Role) = b.(fin_Role).

(** [a] ends no later than [b] starts. *)
Definition ends_before (a b : FeePolicyInput) : Prop :=
  exists t, a.(fin_EffectiveTo) = Some t /\ (t.(instant) <= b.(fin_EffectiveFrom).(instant))%Z.

Definition disjoint_windows (a b : parsedFee) : Prop :=
  same_window_group a.(pf_input) b.(pf_input) -> ends_before a.(pf_input) b.(pf_input).

Lemma group_between a b c : not_after feeLess a b -> not_after feeLess b c ->
  (forall f, f = a \/ f = b -> f.(pf_input).(fin_Role) = RoleMaker \/ f.(pf_input).(fin_Role) = RoleTaker) ->
  same_window_group a.(pf_input) c.(pf_input) -> same_window_group a.(pf_input) b.(pf_input).
Proof.
  unfold not_after. rewrite !feeLess_order. intros Hab Hbc Hrole (Hi & Hv & Hr).
  apply (then_by_between _ _ _ _ _ _ Hab) in Hbc as (H1 & Hab1 & Hbc1); [|by rewrite Hi].
  apply (then_by_between _ _ _ _ _ _ Hab1) in Hbc1 as (H2 & Hab2 & Hbc2); [|done].
  apply (then_by_between _ _ _ _ _ _ Hab2) in Hbc2 as (H3 & _ & _); [|by rewrite Hr].
  apply (inj uuid_string) in H1. split_and!; [done|done|].
  destruct (Hrole a (or_introl eq_refl)) as [Ha|Ha], (Hrole b (or_intror eq_refl)) as [Hb|Hb]; rewrite Ha, Hb in *; done.
Qed.

Lemma windows_disjoint fees : Forall fee_ok fees -> StronglySorted (not_after feeLess) fees -> check_windows fees = Ok tt ->
  StronglySorted disjoint_windows fees.
Proof.
  induction 1 as [|a fees Ha Hfees IH]; intros Hs Hc; [constructor|]. apply StronglySorted_inv in Hs as [Hs Hle].
  destruct fees as [|b rest]; [repeat constructor|]. cbn [check_windows] in Hc. inv_ok Hc.
  specialize (IH Hs Hc). constructor; [done|].
  assert (Hab : disjoint_windows a b).
  { intros (Hi & Hv & Hr). match goal with H : fees_overlap _ _ = false |- _ => unfold fees_overlap in H end.
    rewrite !(bool_decide_eq_true_2 _) in * by done. cbn [andb] in *. unfold ends_before.
    destruct (fin_EffectiveTo (pf_input a)) as [t|]; [|done]. exists t. split; [done|]. unfold Before in *. lia. }
  apply Forall_cons. split; [done|]. apply StronglySorted_inv in Hs as [_ Hbc], IH as [_ Hdis].
  apply Forall_cons in Hle as [Hle Hlec]. apply Forall_cons in Hfees as [Hb Hrest]. rewrite Forall_forall in *. intros c Hc' Hg.
  assert (Hgab : same_window_group (pf_input a) (pf_input b)).
  { apply (group_between a b c); [done|by apply Hbc| |done]. intros f [->| ->]; by apply fo_role. }
  destruct (Hab Hgab) as (t & Ht & Hle'). exists t. split; [done|].
  destruct (Hdis c Hc') as (t' & Ht' & Hle''); [destruct Hgab as (? & ? & ?), Hg as (? & ? & ?); repeat split; congruence|].
  destruct (fo_to b Hb t' Ht') as [_ Hlt]. lia.
Qed.

Lemma parse_fees_ok index values : forall identity fees, parse_fees index values identity = Ok fees ->
  Forall fee_ok fees /\ pf_input <$> fees = trimmed_fee <$> values.
Proof.
  induction values as [|value values IH]; cbn [parse_fees]; intros identity fees Hp; [by simplify_eq|].
  inv_ok Hp. subst fees. match goal with H : parse_fees _ _ _ = Ok _ |- _ => apply IH in H as [Hall Hmap] end.
  match goal with H : normalize_fee _ _ _ = Ok _ |- _ => apply normalize_fee_ok in H as [Hok Hin] end.
  split; [by constructor|]. by rewrite !fmap_cons, Hin, Hmap.
Qed.

Lemma normalizeFees_ok values index fees : normalizeFees values index = Ok fees ->
  Forall fee_ok fees /\ pf_input <$> fees ≡ₚ trimmed_fee <$> values /\ StronglySorted disjoint_windows fees.
Proof.
  unfold normalizeFees. intros Hn. inv_ok Hn. subst fees.
  match goal with H : parse_fees _ _ _ = Ok _ |- _ => apply parse_fees_ok in H as [Hall Hmap] end.
  rename x into parsed. pose proof (sort_slice_perm feeLess parsed) as Hp.
  assert (Hsorted : Forall fee_ok (sort_slice feeLess parsed)) by by rewrite Hp.
  split_and!; [done|by rewrite Hp, Hmap|]. apply windows_disjoint; [done|apply (weak_sorted feeLess)|].
  by match goal with H : check_windows _ = Ok ?u |- _ => destruct u end.
Qed.

(** *** The fee policy in force *)

(** Two policies that are both eligible are the same one. *)
Lemma eligible_fee_unique fees request venue f g : StronglySorted disjoint_windows fees -> f ∈ fees -> g ∈ fees ->
  fee_eligible request venue f.(pf_input) = true -> fee_eligible request venue g.(pf_input) = true -> f = g.
Proof.
  unfold fee_eligible. intros Hs Hf Hg He1 He2. split_bools.
  assert (Hsym : forall a b, disjoint_windows a b -> same_window_group a.(pf_input) b.(pf_input) ->
    some_and (fun t => negb (Before (rin_DecisionAt request) t)) (fin_EffectiveTo (pf_input a)) = false ->
    After (fin_EffectiveFrom (pf_input b)) (rin_DecisionAt request) = false -> False).
  { intros a b Hd Hgr Ha Hb. destruct (Hd Hgr) as (t & Ht & Hle). rewrite Ht in Ha. cbn in Ha. split_bools.
    unfold Before, After in *. lia. }
  assert (Hcases : f = g \/ disjoint_windows f g \/ disjoint_windows g f).
  { clear - Hs Hf Hg. induction Hs as [|a l _ IH Ha]; [by apply elem_of_nil in Hf|]. rewrite Forall_forall in Ha.
    apply elem_of_cons in Hf as [->|Hf], Hg as [->|Hg]; auto. }
  destruct Hcases as [?|[Hd|Hd]]; [done| |]; exfalso; eapply Hsym; try exact Hd; try done; repeat split; congruence.
Qed.

Lemma selectFee_iff fees request venue f : StronglySorted disjoint_windows fees ->
  selectFee fees request venue = Some f <-> f ∈ fees /\ fee_eligible request venue f.(pf_input) = true.
Proof.
  intros Hs. split.
  - intros Hp. unfold selectFee in Hp. apply pick_Some in Hp as [Hp|?]; [exact Hp|done].
  - intros [Hf He]. destruct (selectFee fees request venue) as [g|] eqn:Hg; unfold selectFee in Hg.
    + apply pick_Some in Hg as [[Hin Heg]|?]; [|done]. f_equal. by eapply eligible_fee_unique.
    + apply pick_None in Hg as [_ Hn]. specialize (Hn f Hf). cbn in Hn. congruence.
Qed.
End fees.
