(* ===== verification/PredictionReplayTheorems.v ===== *)
(** * What a recorder's replays say

    Every replay row of a recorder is explained by one of its books and one of
    its fee policies: the amounts are exact, the fill is the best one within the
    limit, the evidence was available at the decision, and nothing that became
    available later matters. *)

From S2P Require Import Prelude GoStd GoText GoTime Externals EconomicId ProjectionPayload TextProofs PredictionReplay PredictionSweep.
From S2P Require Import PredictionReplayProofs.
From Stdlib Require Import Qminmax Qpower Qround.

Local Open Scope go_scope.

Section rows.
Context {E : Externals} {L : ExternalLaws}.

(** ** From the recorder to one row *)

Definition side_of (value : ReplayInput) (book : parsedBook) : list parsedLevel :=
  if value.(rin_Side) ==? SideSell then book.(pb_bids) else book.(pb_asks).

Lemma side_levels_ok value book : book_ok book -> value.(rin_Side) = SideBuy \/ value.(rin_Side) = SideSell ->
  Forall level_valid (side_of value book) /\ best_first value.(rin_Side) (side_of value book) /\
  (forall k l, side_of value book !! k = Some l -> level_row (if value.(rin_Side) ==? SideSell then "bid" else "ask") k l).
Proof.
  intros Hb Hside. unfold side_of. destruct Hside as [-> | ->]; cbn.
  - destruct (parse_levels_spec "ask" false _ _ _ _ (bo_asks book Hb)) as (? & ? & _ & Hr & _). split_and!; try done.
  - destruct (parse_levels_spec "bid" true _ _ _ _ (bo_bids book Hb)) as (? & ? & _ & Hr & _). split_and!; try done.
Qed.

(** A request that was accepted, as [buildReplays] reads it. *)
Record accepted (cutoff : Time) (value : ReplayInput) (quantity limit : dec) : Prop := {
  acc_quantity : exactDecimal value.(rin_Quantity) = Some quantity;
  acc_limit : exactDecimal value.(rin_LimitPrice) = Some limit;
  acc_positive : (0 < val quantity)%Q;
  acc_limits : (0 < val limit < 1)%Q;
  acc_side : value.(rin_Side) = SideBuy \/ value.(rin_Side) = SideSell;
  acc_role : value.(rin_Role) = RoleMaker \/ value.(rin_Role) = RoleTaker;
  acc_time : canonicalTime value.(rin_DecisionAt) = true;
  acc_cutoff : (value.(rin_DecisionAt).(instant) <= cutoff.(instant))%Z;
  acc_market : value.(rin_MarketID) <> "";
  acc_outcome : value.(rin_OutcomeID) <> Nil;
}.

Lemma replay_request_inv books fees cutoff sequence priorKey value row :
  replay_request books fees cutoff sequence priorKey value = Ok row ->
  exists quantity limit, accepted cutoff (trimmed_replay value) quantity limit /\
    replay_row books fees sequence (trimmed_replay value) quantity limit = Ok row.
Proof.
  unfold replay_request. set (v := trimmed_replay value). intros Hr.
  destruct (exactDecimal (rin_Quantity v)) as [quantity|] eqn:Hq; [|done].
  destruct (exactDecimal (rin_LimitPrice v)) as [limit|] eqn:Hl; [|done].
  inv_ok Hr. exists quantity, limit. split; [|done]. split_bools. dec_bools.
  repeat match goal with H : (_ && _) = false |- _ => apply andb_false_iff in H; rewrite !negb_false_iff, !bool_decide_eq_true in H end.
  rewrite val_Zero in *. rewrite val_one in *. split; try assumption; [split; assumption|]. unfold After in *. lia.
Qed.

Lemma replay_requests_lookup books fees cutoff requests : forall sequence priorKey rows i row,
  replay_requests books fees cutoff sequence priorKey requests = Ok rows -> rows !! i = Some row ->
  exists value quantity limit, requests !! i = Some value /\ accepted cutoff (trimmed_replay value) quantity limit /\
    replay_row books fees (sequence + i) (trimmed_replay value) quantity limit = Ok row.
Proof.
  induction requests as [|value requests IH]; cbn [replay_requests]; intros sequence priorKey rows i row Hr Hi.
  { by simplify_eq. }
  inv_ok Hr. subst rows. destruct i as [|i]; cbn in Hi.
  - simplify_eq. rewrite Nat.add_0_r. match goal with H : replay_request _ _ _ _ _ _ = Ok _ |- _ => apply replay_request_inv in H end.
    naive_solver.
  - rewrite Nat.add_succ_r. eapply (IH (S sequence)); [|exact Hi]. eassumption.
Qed.

(** The recorder's parts. *)
Lemma NewRecorder_inv input r : NewRecorder input = Ok r -> exists manifest index books fees replays,
  input.(in_Manifest) = Some manifest /\ manifestIndex manifest = Ok index /\ normalizeBooks input.(in_Books) index = Ok books /\
  normalizeFees input.(in_Fees) index = Ok fees /\
  buildReplays input.(in_Replays) books fees manifest.(man_DecisionCutoff) = Ok replays /\
  r.(recorder_canonical) = MkRecorderCanonical SchemaV1 "completed" (uuid_string manifest.(man_ID)) manifest.(man_Digest)
    (formatTime manifest.(man_DecisionCutoff)) (pb_row <$> books) (pf_row <$> fees) replays.
Proof.
  unfold NewRecorder. intros Hr. destruct (in_Manifest input) as [manifest|]; [|done]. inv_ok Hr. subst r.
  do 5 eexists. split_and!; try eassumption; done.
Qed.

Lemma recorder_row input r i row : NewRecorder input = Ok r -> r.(recorder_canonical).(rec_Replays) !! i = Some row ->
  exists books fees value quantity limit cutoff,
    Forall book_ok books /\ Forall fee_ok fees /\ StronglySorted disjoint_windows fees /\
    r.(recorder_canonical).(rec_Books) = pb_row <$> books /\ r.(recorder_canonical).(rec_Fees) = pf_row <$> fees /\
    sort_slice replayLess input.(in_Replays) !! i = Some value /\
    accepted cutoff (trimmed_replay value) quantity limit /\
    replay_row books fees i (trimmed_replay value) quantity limit = Ok row.
Proof.
  intros Hr Hi. apply NewRecorder_inv in Hr as (manifest & index & books & fees & replays & _ & _ & Hb & Hf & Hreplays & Hc).
  rewrite Hc in *. cbn in Hi |- *. apply normalizeBooks_ok in Hb as (Hb & _ & _). apply normalizeFees_ok in Hf as (Hf & _ & Hd).
  unfold buildReplays in Hreplays. inv_ok Hreplays.
  eapply replay_requests_lookup in Hreplays as (value & quantity & limit & Hv & Hacc & Hrow); [|exact Hi].
  exists books, fees, value, quantity, limit. eexists. split_and!; try done.
Qed.
End rows.

Section exact.
Context {E : Externals} {L : ExternalLaws}.
Local Open Scope Q_scope.

(** ** Fees *)

(** What one fill is charged before rounding. *)
Definition fee_due (formula : FeeFormula) (rate : Q) (f : fillCanonical) : Q :=
  let gross := num f.(fl_Price) * num f.(fl_Quantity) in
  match formula with
  | FeeNotionalBPS => gross * rate / 10000
  | _ => gross * (1 - num f.(fl_Price)) * rate
  end.

Lemma fee_component_due formula rate price quantity f : num f.(fl_Price) == val price -> num f.(fl_Quantity) == val quantity ->
  Qabs (val (fee_component formula rate price quantity) - fee_due formula (val rate) f) <= half_digit /\
  (formula <> FeeNotionalBPS -> val (fee_component formula rate price quantity) == fee_due formula (val rate) f).
Proof.
  intros Hp Hq. unfold fee_component, fee_due. assert (Hh : 0 <= half_digit) by (by vm_compute).
  case_bool_decide as Hf; [subst formula|].
  - split; [|done]. set (b := NewFromInt 10000). assert (Hb : val b == 10000) by (unfold b; by rewrite val_NewFromInt).
    set (a := Mul _ rate). assert (Ha : val a == num (fl_Price f) * num (fl_Quantity f) * val rate).
    { unfold a. by rewrite !val_Mul, Hp, Hq. }
    pose proof (Div_half a b) as Hd. rewrite Ha, Hb in Hd. apply Hd. lra.
  - assert (Heq : val (Mul (Mul (Mul price quantity) (Sub one price)) rate) ==
                  num (fl_Price f) * num (fl_Quantity f) * (1 - num (fl_Price f)) * val rate).
    { rewrite !val_Mul, val_Sub, val_one, Hp, Hq. reflexivity. }
    assert (Hmatch : match formula with
                     | FeeNotionalBPS => num (fl_Price f) * num (fl_Quantity f) * val rate / 10000
                     | _ => num (fl_Price f) * num (fl_Quantity f) * (1 - num (fl_Price f)) * val rate
                     end == num (fl_Price f) * num (fl_Quantity f) * (1 - num (fl_Price f)) * val rate) by by destruct formula.
    cbv zeta. rewrite Hmatch. split; [|intros _; exact Heq]. rewrite Heq.
    assert (Hz : forall x, x - x == 0) by (intros; lra). rewrite Hz. exact Hh.
Qed.

Lemma fee_total_due policy fills : forall value total, fee_total policy fills value = Ok total ->
  let formula := policy.(pf_input).(fin_Formula) in
  Qabs (val total - (val value + sumQ (fee_due formula (val policy.(pf_rate))) fills)) <= inject_Z (Z.of_nat (length fills)) * half_digit /\
  (formula <> FeeNotionalBPS -> val total == val value + sumQ (fee_due formula (val policy.(pf_rate))) fills).
Proof.
  induction fills as [|f fills IH]; cbn [fee_total]; intros value total Ht.
  { simplify_eq. cbn [sumQ length]. split; [|intros _; lra]. assert (Hz : val total - (val total + 0) == 0) by lra. rewrite Hz. by vm_compute. }
  inv_ok Ht. apply IH in Ht as [Hle Heq]. rewrite !val_Add in *. cbv zeta in *. cbn [sumQ length].
  repeat match goal with H : RequireFromString _ = Ok _ |- _ => apply RequireFromString_num in H end.
  match goal with Hp : num (fl_Price f) == val ?p, Hq : num (fl_Quantity f) == val ?q |- _ =>
    destruct (fee_component_due (fin_Formula (pf_input policy)) (pf_rate policy) p q f Hp Hq) as [Hd He] end.
  set (c := val (fee_component _ _ _ _)) in *. set (due := fee_due _ _ f) in *. set (rest := sumQ _ fills) in *. split.
  - rewrite Nat2Z.inj_succ, <- Z.add_1_l, inject_Z_plus. apply Qabs_Qle_condition in Hle as [Hl1 Hl2], Hd as [Hd1 Hd2].
    apply Qabs_Qle_condition. change (inject_Z 1) with 1. split; lra.
  - intros Hn. rewrite (Heq Hn), (He Hn). lra.
Qed.

Definition unit_of (scale : Z) : Q := (10 # 1) ^ (- scale).

Lemma round_fee_spec rounding scale d : rounding = RoundHalfUp \/ rounding = RoundCeiling ->
  (exists k : Z, val (round_fee rounding scale d) == inject_Z k * unit_of scale) /\
  (rounding = RoundCeiling -> val d <= val (round_fee rounding scale d) < val d + unit_of scale) /\
  (rounding = RoundHalfUp -> Qabs (val (round_fee rounding scale d) - val d) <= (1 # 2) * unit_of scale).
Proof.
  unfold round_fee, unit_of. intros [-> | ->]; cbn.
  - split_and!; [apply Round_grid|done|intros _; apply Round_near].
  - assert (Hv : val (Shift (Ceil (Shift d scale)) (- scale)) ==
                 inject_Z (Qceiling (val (Shift d scale))) * (10 # 1) ^ (- scale)) by by rewrite val_Shift, Ceil_spec.
    assert (Hpos : 0 < (10 # 1) ^ (- scale)) by (apply Qpower_0_lt; reflexivity).
    assert (Hs : val (Shift d scale) * (10 # 1) ^ (- scale) == val d).
    { rewrite val_Shift, <- Qmult_assoc, <- Qpower_plus by done. rewrite Z.add_opp_diag_r. cbn. lra. }
    split_and!; [by eexists| |done]. intros _. rewrite Hv.
    pose proof (Qle_ceiling (val (Shift d scale))) as Hle. pose proof (Qceiling_lt (val (Shift d scale))) as Hlt.
    unfold Z.sub in Hlt. rewrite inject_Z_plus, inject_Z_opp in Hlt. change (inject_Z 1) with 1 in Hlt. nra.
Qed.

(** ** One filled row *)

(** A row with fills, with the book and the fee policy it used. *)
Definition row_fills_inv (books : list parsedBook) (fees : list parsedFee) (sequence : nat) (value : ReplayInput) (quantity limit : dec) (row : replayCanonical) : Prop :=
  exists book fee fs remaining gross feeValue,
    book ∈ books /\ book_eligible value book.(pb_input) = true /\ selectBook books value = Some book /\
    fee ∈ fees /\ fee_eligible value book.(pb_input).(bin_Venue) fee.(pf_input) = true /\
    swept (within value.(rin_Side) limit (side_of value book)) 0 (val quantity) fs (val remaining) (val gross) /\
    0 <= val remaining < val quantity /\
    calculateFee fee fs = Ok feeValue /\
    row = MkReplayCanonical sequence (formatTime value.(rin_DecisionAt)) value.(rin_MarketID) (uuid_string value.(rin_OutcomeID))
      (Side_string value.(rin_Side)) (LiquidityRole_string value.(rin_Role)) (DecimalString quantity) (DecimalString limit)
      (if IsZero remaining then "filled" else "partial") book.(pb_input).(bin_SourceKey) fee.(pf_input).(fin_SourceKey)
      (DecimalString (Sub quantity remaining)) (DecimalString remaining)
      (DecimalString (Div gross (Sub quantity remaining))) (DecimalString gross) (DecimalString feeValue)
      (DecimalString (if value.(rin_Side) ==? SideSell then Sub gross feeValue else Add gross feeValue)) fs.

Lemma within_valid side limit levels : Forall level_valid levels -> Forall (fun l => 0 < val l.(pl_size)) (within side limit levels).
Proof.
  induction 1 as [|l levels [_ Hl] _ IH]; cbn [within]; [constructor|]. destruct (blocked _ _ _); [constructor|by constructor].
Qed.

Lemma replay_row_cases books fees sequence value quantity limit cutoff row :
  Forall book_ok books -> accepted cutoff value quantity limit -> replay_row books fees sequence value quantity limit = Ok row ->
  (exists status bookKey feeKey, status ∈ ["no_book"; "no_fee_policy"; "limit_blocked"] /\
     row = empty_row sequence value quantity limit status bookKey feeKey) \/
  row_fills_inv books fees sequence value quantity limit row.
Proof.
  intros Hbooks Hacc Hr. unfold replay_row in Hr.
  destruct (selectBook books value) as [book|] eqn:Hbook; [|simplify_eq; left; do 3 eexists; split; [|done]; set_solver].
  destruct (selectFee fees value _) as [fee|] eqn:Hfee; [|simplify_eq; left; do 3 eexists; split; [|done]; set_solver].
  destruct (consume_levels _ _ _ _ _ _) as [[fs remaining] gross] eqn:Hc.
  change (if rin_Side value ==? SideSell then pb_bids book else pb_asks book) with (side_of value book) in Hc.
  assert (Hsel : book ∈ books /\ book_eligible value (pb_input book) = true).
  { unfold selectBook in Hbook. apply pick_Some in Hbook as [Hb|?]; [exact Hb|done]. }
  assert (Hself : fee ∈ fees /\ fee_eligible value (bin_Venue (pb_input book)) (pf_input fee) = true).
  { unfold selectFee in Hfee. apply pick_Some in Hfee as [Hf|?]; [exact Hf|done]. }
  destruct Hsel as [Hin Hel], Hself as [Hinf Helf]. rewrite Forall_forall in Hbooks.
  destruct (side_levels_ok value book (Hbooks book Hin) (acc_side _ _ _ _ Hacc)) as (Hv & _ & _).
  pose proof (acc_positive _ _ _ _ Hacc) as Hq.
  apply consume_swept in Hc as (fs' & -> & Hs); [|eapply Forall_impl; [exact Hv|by intros ? [_ ?]]|done].
  cbn [app length] in Hs.
  assert (Hg : val gross == val gross - val Zero) by (rewrite val_Zero; lra). apply (swept_gross _ _ _ _ _ _ _ Hs) in Hg. clear Hs. rename Hg into Hs.
  destruct (swept_bounds _ _ _ _ _ _ Hs (within_valid _ _ _ Hv) Hq) as (Hb1 & Hb2 & Hb3).
  destruct (IsZero (Sub quantity remaining)) eqn:Hz.
  { simplify_eq. left. do 3 eexists. split; [|done]. set_solver. }
  right. inv_ok Hr. dec_bools. rewrite val_Sub in Hz.
  exists book, fee, fs', remaining, gross. eexists. split_and!; try done; try lra.
Qed.
(** ** The rows of a book *)

(** The side of a book an order takes from, best level first. *)
Definition side_rows (side : string) (book : bookCanonical) : list levelCanonical :=
  filter (fun l => l.(lc_Side) = if side ==? "sell" then "bid" else "ask") book.(bc_Levels).

(** The level is within the limit of the order. *)
Definition admissible (row : replayCanonical) (l : levelCanonical) : bool :=
  if row.(rc_Side) ==? "sell" then Qle_bool (num row.(rc_LimitPrice)) (num l.(lc_Price))
  else Qle_bool (num l.(lc_Price)) (num row.(rc_LimitPrice)).

Definition within_limit (row : replayCanonical) (book : bookCanonical) : list levelCanonical :=
  filter (fun l => admissible row l = true) (side_rows row.(rc_Side) book).

(** [1] for what a buyer pays, [-1] for what a seller is paid. *)
Definition cash_sign (side : string) : Q := if side ==? "sell" then -1 else 1.

Lemma level_rows_side side (levels : list parsedLevel) : (forall k l, levels !! k = Some l -> level_row side k l) ->
  forall r, r ∈ pl_row <$> levels -> r.(lc_Side) = side.
Proof. intros Hl r (l & -> & [k Hk]%list_elem_of_lookup)%list_elem_of_fmap. by rewrite (Hl k l Hk). Qed.

Lemma side_rows_parsed value book : book_ok book -> value.(rin_Side) = SideBuy \/ value.(rin_Side) = SideSell ->
  side_rows (Side_string value.(rin_Side)) book.(pb_row) = pl_row <$> side_of value book.
Proof.
  intros Hb Hside. destruct (bo_row book Hb) as (partition & ->). unfold side_rows, side_of. cbn [bc_Levels].
  destruct (parse_levels_spec "ask" false _ _ _ _ (bo_asks book Hb)) as (_ & _ & _ & Ha & _).
  destruct (parse_levels_spec "bid" true _ _ _ _ (bo_bids book Hb)) as (_ & _ & _ & Hbid & _).
  pose proof (level_rows_side _ _ Ha) as Hra. pose proof (level_rows_side _ _ Hbid) as Hrb. rewrite filter_app.
  destruct Hside as [-> | ->]; cbn [Side_string].
  - rewrite filter_none, filter_all; [done| |]; intros x Hx; [by rewrite (Hra x Hx)|by rewrite (Hrb x Hx)].
  - rewrite filter_all, filter_none, app_nil_r; [done| |]; intros x Hx; [by rewrite (Hra x Hx)|by rewrite (Hrb x Hx)].
Qed.

Lemma level_row_num side k l : level_row side k l ->
  num l.(pl_row).(lc_Price) == val l.(pl_price) /\ num l.(pl_row).(lc_Size) == val l.(pl_size).
Proof. unfold level_row. intros ->. cbn. by rewrite !num_text. Qed.

Lemma blocked_true side limit price : side = SideBuy \/ side = SideSell ->
  blocked side limit price = true <-> sign_of side * val limit < sign_of side * val price.
Proof.
  intros [-> | ->].
  - change (blocked SideBuy limit price) with (GreaterThan price limit || false)%bool.
    rewrite orb_false_r, GreaterThan_true. cbn. split; lra.
  - change (blocked SideSell limit price) with (LessThan price limit). rewrite LessThan_true. cbn. split; lra.
Qed.

Lemma blocked_false side limit price : side = SideBuy \/ side = SideSell ->
  blocked side limit price = false <-> sign_of side * val price <= sign_of side * val limit.
Proof.
  intros Hside. rewrite <- not_true_iff_false, blocked_true by done. split; [apply Qnot_lt_le|lra].
Qed.

(** Beyond the limit stays beyond the limit, so stopping at the first such
    level is the same as leaving all of them out. *)
Lemma within_filter side limit levels : side = SideBuy \/ side = SideSell -> best_first side levels ->
  within side limit levels = filter (fun l => blocked side limit l.(pl_price) = false) levels.
Proof.
  intros Hside. induction levels as [|l levels IH]; intros Hs; [done|]. apply StronglySorted_inv in Hs as [Hs Hl]. cbn [within].
  destruct (blocked side limit (pl_price l)) eqn:Hb.
  - symmetry. apply filter_none. rewrite Forall_forall in Hl. intros x Hx. apply elem_of_cons in Hx as [->|Hx]; [congruence|].
    specialize (Hl x Hx). cbn in Hl. rewrite blocked_false by done. apply blocked_true in Hb; [lra|done].
  - rewrite filter_cons_True by done. by rewrite IH.
Qed.

Lemma within_rows value book row limit : book_ok book -> value.(rin_Side) = SideBuy \/ value.(rin_Side) = SideSell ->
  row.(rc_Side) = Side_string value.(rin_Side) -> num row.(rc_LimitPrice) == val limit ->
  within_limit row book.(pb_row) = pl_row <$> within value.(rin_Side) limit (side_of value book).
Proof.
  intros Hb Hside Hrs Hlim. unfold within_limit. rewrite Hrs, side_rows_parsed by done.
  destruct (side_levels_ok value book Hb Hside) as (_ & Hbest & Hrows). rewrite within_filter by done.
  assert (Hall : forall l, l ∈ side_of value book ->
            admissible row (pl_row l) = negb (blocked (rin_Side value) limit (pl_price l))).
  { intros l [k Hk]%list_elem_of_lookup. destruct (level_row_num _ _ _ (Hrows k l Hk)) as [Hn _]. unfold admissible. rewrite Hrs.
    apply eq_true_iff_eq. rewrite negb_true_iff, blocked_false by done.
    destruct Hside as [-> | ->]; cbn [Side_string sign_of];
      [change ("buy" ==? "sell") with false|change ("sell" ==? "sell") with true]; cbv iota; rewrite Qle_bool_iff, Hn, Hlim; lra. }
  clear - Hall. induction (side_of value book) as [|l ls IH]; [done|]. cbn [fmap list_fmap].
  rewrite !filter_cons, Hall by left. rewrite IH by (intros; apply Hall; by right).
  destruct (blocked (rin_Side value) limit (pl_price l)); cbn; by destruct (decide _), (decide _).
Qed.

Lemma sum_rows (f : levelCanonical -> Q) (g : parsedLevel -> Q) (l : list parsedLevel) : (forall x, x ∈ l -> f (pl_row x) == g x) -> sumQ f (pl_row <$> l) == sumQ g l.
Proof. intros H. rewrite sumQ_map. by apply sumQ_ext. Qed.

Lemma sumQ_scale {A} (c : Q) (f : A -> Q) (l : list A) : sumQ (fun x => c * f x) l == c * sumQ f l.
Proof. induction l as [|x l IH]; cbn [sumQ]; [lra|]. rewrite IH. ring. Qed.

Lemma within_elem side limit levels l : l ∈ within side limit levels -> l ∈ levels.
Proof.
  induction levels as [|x levels IH]; cbn [within]; [done|]. destruct (blocked _ _ _); [by intros ?%elem_of_nil|].
  intros Hl. apply elem_of_cons in Hl as [->|Hl]; [left|right; auto].
Qed.

Lemma within_sorted side limit levels : best_first side levels -> best_first side (within side limit levels).
Proof.
  induction 1 as [|x levels Hs IH Hx]; cbn [within]; [constructor|]. destruct (blocked _ _ _); [constructor|].
  constructor; [done|]. rewrite Forall_forall in *. intros y Hy. apply Hx. by eapply within_elem.
Qed.
End exact.

(** ** The theorems about one row *)
Section theorems.
Context {E : Externals} {L : ExternalLaws}.
Local Open Scope Q_scope.

(** A row without a fill says so in all of its amounts. *)
Definition unfilled (row : replayCanonical) : Prop :=
  row.(rc_Status) ∈ ["no_book"; "no_fee_policy"; "limit_blocked"] /\ row.(rc_Fills) = [] /\ row.(rc_FilledQuantity) = "0" /\
  row.(rc_ResidualQuantity) = row.(rc_Quantity) /\ row.(rc_GrossCash) = "0" /\ row.(rc_Fee) = "0" /\ row.(rc_NetCash) = "0".

(** The fee of a row: what its fills are charged, rounded once to the scale of
    the policy. A charge in basis points divides, so it may be off by half a
    digit of the decimal package per fill. *)
Definition fee_explained (row : replayCanonical) (fee : feeCanonical) : Prop :=
  let formula := FeeFormula_of_string fee.(fc_Formula) in
  let due := sumQ (fee_due formula (num fee.(fc_Rate))) row.(rc_Fills) in
  exists total : Q,
    Qabs (total - due) <= inject_Z (Z.of_nat (length row.(rc_Fills))) * half_digit /\
    (formula = FeeContractCurve -> total == due) /\
    (exists k : Z, num row.(rc_Fee) == inject_Z k * unit_of fee.(fc_Scale)) /\
    match RoundingMode_of_string fee.(fc_Rounding) with
    | RoundCeiling => total <= num row.(rc_Fee) < total + unit_of fee.(fc_Scale)
    | _ => Qabs (num row.(rc_Fee) - total) <= (1 # 2) * unit_of fee.(fc_Scale)
    end.

Lemma recorder_row_cases input r row : NewRecorder input = Ok r -> row ∈ r.(recorder_canonical).(rec_Replays) ->
  unfilled row \/
  exists books fees sequence value quantity limit cutoff,
    Forall book_ok books /\ Forall fee_ok fees /\ StronglySorted disjoint_windows fees /\
    r.(recorder_canonical).(rec_Books) = pb_row <$> books /\ r.(recorder_canonical).(rec_Fees) = pf_row <$> fees /\
    accepted cutoff value quantity limit /\ row_fills_inv books fees sequence value quantity limit row.
Proof.
  intros Hr [i Hi]%list_elem_of_lookup.
  destruct (recorder_row _ _ _ _ Hr Hi) as (books & fees & value & quantity & limit & cutoff & Hb & Hf & Hd & Hrb & Hrf & _ & Hacc & Hrow).
  destruct (replay_row_cases _ _ _ _ _ _ _ _ Hb Hacc Hrow) as [(status & bk & fk & Hs & ->)|Hinv]; [left; done|right].
  do 7 eexists. split_and!; try done.
Qed.

Lemma fee_explained_inv row fee fs feeValue : fee_ok fee -> row.(rc_Fills) = fs -> row.(rc_Fee) = DecimalString feeValue ->
  calculateFee fee fs = Ok feeValue -> fee_explained row fee.(pf_row).
Proof.
  intros Hok Hfs Hfee Hc. unfold calculateFee in Hc. inv_ok Hc. subst feeValue.
  match goal with H : fee_total _ _ _ = Ok _ |- _ => apply fee_total_due in H as [Hle Heq] end.
  destruct (fo_row fee Hok) as (partition & Hrow). rewrite val_Zero in *.
  unfold fee_explained. rewrite Hrow, Hfs, Hfee. cbn [fc_Formula fc_Rate fc_Scale fc_Rounding].
  assert (HF : FeeFormula_of_string (FeeFormula_string (fin_Formula (pf_input fee))) = fin_Formula (pf_input fee))
    by (by destruct (fo_formula fee Hok) as [-> | ->]).
  assert (HR : RoundingMode_of_string (RoundingMode_string (fin_Rounding (pf_input fee))) = fin_Rounding (pf_input fee))
    by (by destruct (fo_rounding fee Hok) as [-> | ->]).
  rewrite HF, HR. destruct (exactDecimal_num _ _ (fo_rate fee Hok)) as [_ _].
  destruct (round_fee_spec _ (fin_Scale (pf_input fee)) x (fo_rounding fee Hok)) as (Hgrid & Hceil & Hhalf).
  assert (Hdue : sumQ (fee_due (fin_Formula (pf_input fee)) (num (DecimalString (pf_rate fee)))) fs ==
                 0 + sumQ (fee_due (fin_Formula (pf_input fee)) (val (pf_rate fee))) fs).
  { rewrite Qplus_0_l. apply sumQ_ext. intros f _. unfold fee_due. by destruct (fin_Formula (pf_input fee)); rewrite num_text. }
  cbv zeta in *. exists (val x). split_and!.
  - rewrite Hdue. exact Hle.
  - intros He. rewrite Hdue. apply Heq. by rewrite He.
  - destruct Hgrid as [k Hk]. exists k. by rewrite num_text.
  - destruct (fo_rounding fee Hok) as [Hrd|Hrd]; rewrite Hrd in *; rewrite num_text; [by apply Hhalf|by apply Hceil].
Qed.

(** C14: A replay row either has no fill and says so in every amount, or its
    amounts are exact: filled and residual add up to the request, the status is
    filled exactly when nothing is left, quantities and gross cash are the sums
    over the fills, the weighted price is off by at most half of the last digit
    of a division, the fee is what the named policy of that instrument and role
    charges its fills, rounded once as the policy says, and a buyer pays gross
    plus fee while a seller receives gross less fee. *)
Theorem replay_amounts_exact input r row : NewRecorder input = Ok r -> row ∈ r.(recorder_canonical).(rec_Replays) ->
  unfilled row \/
  exists fee, fee ∈ r.(recorder_canonical).(rec_Fees) /\ fee.(fc_evidence).(evc_SourceKey) = row.(rc_FeeSourceKey) /\
    fee.(fc_InstrumentID) = row.(rc_OutcomeID) /\ fee.(fc_Role) = row.(rc_Role) /\
    0 < num row.(rc_FilledQuantity) /\ 0 <= num row.(rc_ResidualQuantity) /\
    num row.(rc_FilledQuantity) + num row.(rc_ResidualQuantity) == num row.(rc_Quantity) /\
    row.(rc_Status) = (if Qeq_bool (num row.(rc_ResidualQuantity)) 0 then "filled" else "partial") /\
    sumQ (fun f => num f.(fl_Quantity)) row.(rc_Fills) == num row.(rc_FilledQuantity) /\
    (forall f, f ∈ row.(rc_Fills) -> num f.(fl_Gross) == num f.(fl_Quantity) * num f.(fl_Price)) /\
    sumQ (fun f => num f.(fl_Gross)) row.(rc_Fills) == num row.(rc_GrossCash) /\
    Qabs (num row.(rc_WeightedPrice) - num row.(rc_GrossCash) / num row.(rc_FilledQuantity)) <= half_digit /\
    fee_explained row fee /\
    num row.(rc_NetCash) == num row.(rc_GrossCash) + cash_sign row.(rc_Side) * num row.(rc_Fee).
Proof.
  intros Hr Hin. destruct (recorder_row_cases _ _ _ Hr Hin) as [?|(books & fees & n & value & quantity & limit & cutoff & Hb & Hf & _ &
    _ & Hrf & Hacc & book & fee & fs & remaining & gross & feeValue & _ & _ & _ & Hfin & Hfel & Hs & (Hrem & Hlt) & Hfee & Hrow)];
    [by left|right].
  rewrite Forall_forall in Hf. pose proof (Hf fee Hfin) as Hfok. exists (pf_row fee). destruct (fo_row fee Hfok) as (partition & Hfrow).
  destruct (swept_sums _ _ _ _ _ _ Hs) as (Hsq & Hsg & Hse). unfold fee_eligible in Hfel. split_bools.
  rewrite Hrf. split; [by apply list_elem_of_fmap_2|].
  assert (Hexp : fee_explained row (pf_row fee)).
  { apply (fee_explained_inv row fee fs feeValue); [done|by rewrite Hrow|by rewrite Hrow|done]. }
  rewrite Hfrow at 1 2 3. rewrite Hrow at 1 2 3. cbn [fc_evidence evc_SourceKey rc_FeeSourceKey fc_InstrumentID rc_OutcomeID fc_Role rc_Role].
  split_and!; try done; try congruence; rewrite ?Hrow; cbn [rc_FilledQuantity rc_ResidualQuantity rc_Quantity rc_Status rc_Fills
    rc_GrossCash rc_WeightedPrice rc_NetCash rc_Side rc_Fee]; rewrite ?num_text, ?val_Sub.
  - lra.
  - done.
  - lra.
  - destruct (IsZero remaining) eqn:Hz; dec_bools.
    + by rewrite (proj2 (Qeq_bool_iff _ _) Hz).
    + destruct (Qeq_bool _ _) eqn:Hq; [|done]. by apply Qeq_bool_iff in Hq.
  - done.
  - done.
  - done.
  - pose proof (Div_half gross (Sub quantity remaining)) as Hd. rewrite val_Sub in Hd. apply Hd. lra.
  - unfold cash_sign. destruct (acc_side _ _ _ _ Hacc) as [Hside|Hside]; rewrite Hside; cbn [Side_string].
    + change (SideBuy ==? SideSell) with false. change ("buy" ==? "sell") with false. cbv iota. rewrite val_Add. lra.
    + change (SideSell ==? SideSell) with true. change ("sell" ==? "sell") with true. cbv iota. rewrite val_Sub. lra.
Qed.
(** C12: A fill is the best execution the named book allows within the limit: the
    fills take the levels in order, each but the last whole; the residual is
    exactly what the depth within the limit lacks; and no other way of filling
    the same quantity from those levels is cheaper for a buyer or dearer for a
    seller. *)
Theorem replay_best_execution input r row : NewRecorder input = Ok r -> row ∈ r.(recorder_canonical).(rec_Replays) ->
  row.(rc_Fills) <> [] ->
  exists book, book ∈ r.(recorder_canonical).(rec_Books) /\ book.(bc_evidence).(evc_SourceKey) = row.(rc_BookSourceKey) /\
    book.(bc_MarketID) = row.(rc_MarketID) /\ book.(bc_OutcomeID) = row.(rc_OutcomeID) /\
    let levels := within_limit row book in
    (forall i f, row.(rc_Fills) !! i = Some f -> exists level, levels !! i = Some level /\
       f.(fl_Sequence) = i /\ f.(fl_Level) = level.(lc_Sequence) /\ num f.(fl_Price) == num level.(lc_Price) /\
       num f.(fl_Quantity) <= num level.(lc_Size) /\
       ((S i < length row.(rc_Fills))%nat -> num f.(fl_Quantity) == num level.(lc_Size))) /\
    num row.(rc_ResidualQuantity) == Qmax 0 (num row.(rc_Quantity) - sumQ (fun l => num l.(lc_Size)) levels) /\
    forall x : levelCanonical -> Q,
      (forall l, l ∈ levels -> 0 <= x l <= num l.(lc_Size)) -> sumQ x levels == num row.(rc_FilledQuantity) ->
      cash_sign row.(rc_Side) * num row.(rc_GrossCash) <= cash_sign row.(rc_Side) * sumQ (fun l => x l * num l.(lc_Price)) levels.
Proof.
  intros Hr Hin Hfills. destruct (recorder_row_cases _ _ _ Hr Hin) as [(_ & ? & _)|(books & fees & n & value & quantity & limit & cutoff &
    Hb & _ & _ & Hrb & _ & Hacc & book & fee & fs & remaining & gross & feeValue & Hbin & Hbel & _ & _ & _ & Hs & _ & _ & Hrow)]; [done|].
  rewrite Forall_forall in Hb. pose proof (Hb book Hbin) as Hbok. exists (pb_row book). destruct (bo_row book Hbok) as (partition & Hbrow).
  pose proof (acc_side _ _ _ _ Hacc) as Hside. unfold book_eligible in Hbel. split_bools.
  assert (Hw : within_limit row (pb_row book) = pl_row <$> within (rin_Side value) limit (side_of value book)).
  { apply within_rows; [done|done|by rewrite Hrow|]. rewrite Hrow. cbn. by rewrite num_text. }
  rewrite Hrb. split; [by apply list_elem_of_fmap_2|]. rewrite Hbrow at 1 2 3. rewrite Hrow at 1 2 3. cbn [bc_evidence evc_SourceKey bc_MarketID
    bc_OutcomeID rc_BookSourceKey rc_MarketID rc_OutcomeID]. split; [done|]. split; [done|]. split; [congruence|]. cbv zeta. rewrite Hw.
  assert (Hcash : cash_sign row.(rc_Side) = sign_of value.(rin_Side)) by (rewrite Hrow; by destruct Hside as [-> | ->]).
  rewrite Hcash. clear Hcash. destruct (side_levels_ok value book Hbok Hside) as (Hv & Hbest & Hrows).
  set (levels := within (rin_Side value) limit (side_of value book)) in *.
  assert (Hnum : forall l, l ∈ levels -> num (lc_Price (pl_row l)) == val (pl_price l) /\ num (lc_Size (pl_row l)) == val (pl_size l)).
  { intros l Hl%within_elem. apply list_elem_of_lookup in Hl as [k Hk]. by apply (level_row_num _ _ _ (Hrows k l Hk)). }
  rewrite Hrow. cbn [rc_Fills rc_ResidualQuantity rc_Quantity rc_FilledQuantity rc_GrossCash].
  split; [|split].
  - intros i f Hi. destruct (swept_fill _ _ _ _ _ _ _ _ Hs Hi) as (level & Hl & Hseq & Hlev & Hp & Hq & Hwhole).
    destruct (Hnum level) as [Hnp Hns]; [by eapply list_elem_of_lookup_2|].
    exists (pl_row level). rewrite list_lookup_fmap, Hl, Hnp, Hns. done.
  - rewrite !num_text, (swept_depth _ _ _ _ _ _ Hs (within_valid _ _ _ Hv) (acc_positive _ _ _ _ Hacc)).
    rewrite (sum_rows _ (fun l => val (pl_size l))); [done|]. intros l Hl. by apply Hnum.
  - intros x Hx Hsum. rewrite !num_text, val_Sub in *. rewrite sumQ_map in Hsum.
    assert (Hopt := swept_optimal (rin_Side value) levels _ _ _ _ _ (fun l => x (pl_row l)) (-1) Hs (within_sorted _ _ _ Hbest)).
    rewrite sumQ_map, (sumQ_ext _ (fun l => x (pl_row l) * val (pl_price l))); [|intros l Hl; destruct (Hnum l Hl) as [-> _]; lra].
    rewrite <- sumQ_scale, (sumQ_ext _ (fun l => x (pl_row l) * (sign_of (rin_Side value) * val (pl_price l)))) by (intros; lra).
    rewrite Hsum in Hopt. assert (Hz : val quantity - val remaining - (val quantity - val remaining) == 0) by lra.
    rewrite Hz in Hopt. assert (Hz' : -1 * 0 == 0) by lra. rewrite Hz', Qplus_0_r in Hopt. apply Hopt; [| |lra].
    + intros l Hl. destruct (Hnum l Hl) as [_ <-]. apply Hx. by apply list_elem_of_fmap_2.
    + intros l Hl%within_elem. rewrite Forall_forall in Hv. destruct (Hv l Hl) as [[? ?] _].
      destruct Hside as [-> | ->]; cbn [sign_of]; lra.
Qed.
End theorems.

(** ** Only evidence that was available matters *)
Section look_ahead.
Context {E : Externals} {L : ExternalLaws}.

Definition book_known (at_ : Time) (b : BookInput) : Prop := (b.(bin_AvailableAt).(instant) <= at_.(instant))%Z.
Definition fee_known (at_ : Time) (f : FeePolicyInput) : Prop := (f.(fin_AvailableAt).(instant) <= at_.(instant))%Z.
#[global] Instance book_known_dec at_ b : Decision (book_known at_ b).
Proof. unfold book_known. apply _. Defined.
#[global] Instance fee_known_dec at_ f : Decision (fee_known at_ f).
Proof. unfold fee_known. apply _. Defined.

Lemma filter_fmap {A B} (P : B -> Prop) `{!forall x, Decision (P x)} (Q' : A -> Prop) `{!forall x, Decision (Q' x)} (f : A -> B) (l : list A) :
  (forall x, P (f x) <-> Q' x) -> filter P (f <$> l) = f <$> filter Q' l.
Proof.
  intros Hpq. induction l as [|x l IH]; [done|]. cbn [fmap list_fmap]. rewrite !filter_cons, IH.
  destruct (decide (P (f x))) as [H1|H1], (decide (Q' x)) as [H2|H2]; try done; exfalso; naive_solver.
Qed.

(** The selected book is the one the known books determine. *)
Lemma selectBook_known books inputs request :
  NoDup ((fun b => b.(bin_SourceKey)) <$> (pb_input <$> books)) -> pb_input <$> books ≡ₚ trimmed_book <$> inputs ->
  pb_input <$> selectBook books request =
  pick (book_eligible request) book_later (trimmed_book <$> filter (book_known request.(rin_DecisionAt)) inputs) None.
Proof.
  intros Hnd Hp. rewrite Hp in Hnd. rewrite (selectBook_perm books _ request Hnd Hp).
  rewrite <- (filter_fmap (book_known (rin_DecisionAt request))) by done. symmetry. apply pick_filter.
  intros b _ He. unfold book_eligible in He. split_bools. unfold book_known, After in *. lia.
Qed.

Lemma selectBook_known_perm books1 books2 inputs1 inputs2 request :
  NoDup ((fun b => b.(bin_SourceKey)) <$> (pb_input <$> books1)) -> pb_input <$> books1 ≡ₚ trimmed_book <$> inputs1 ->
  NoDup ((fun b => b.(bin_SourceKey)) <$> (pb_input <$> books2)) -> pb_input <$> books2 ≡ₚ trimmed_book <$> inputs2 ->
  filter (book_known request.(rin_DecisionAt)) inputs1 ≡ₚ filter (book_known request.(rin_DecisionAt)) inputs2 ->
  pb_input <$> selectBook books1 request = pb_input <$> selectBook books2 request.
Proof.
  intros Hnd1 Hp1 Hnd2 Hp2 Hf. rewrite (selectBook_known _ _ _ Hnd1 Hp1), (selectBook_known _ _ _ Hnd2 Hp2).
  apply (pick_perm _ book_later); [|by rewrite Hf]. intros v w Hv Hw _ _ H1 H2.
  pose proof (book_later_tie v w H1 H2) as Hs.
  assert (Hmem : forall u, u ∈ trimmed_book <$> filter (book_known (rin_DecisionAt request)) inputs1 -> u ∈ pb_input <$> books1).
  { intros u (b & -> & Hb)%list_elem_of_fmap. apply list_elem_of_filter in Hb as [_ Hb]. rewrite Hp1. by apply list_elem_of_fmap_2. }
  apply Hmem, list_elem_of_lookup in Hv as [i Hi]. apply Hmem, list_elem_of_lookup in Hw as [j Hj].
  assert (i = j); [|congruence]. apply (NoDup_lookup _ i j (bin_SourceKey v) Hnd1).
  - by rewrite list_lookup_fmap, Hi.
  - by rewrite list_lookup_fmap, Hj, Hs.
Qed.

Lemma selectFee_known_iff fees inputs request venue f : StronglySorted disjoint_windows fees ->
  pf_input <$> fees ≡ₚ trimmed_fee <$> inputs ->
  pf_input <$> selectFee fees request venue = Some f <->
  f ∈ trimmed_fee <$> filter (fee_known request.(rin_DecisionAt)) inputs /\ fee_eligible request venue f = true.
Proof.
  intros Hd Hp. rewrite <- (filter_fmap (fee_known (rin_DecisionAt request))) by done. rewrite <- Hp, list_elem_of_filter. split.
  - intros (p & Hs & ->)%fmap_Some. apply selectFee_iff in Hs as [Hin He]; [|done].
    split; [|done]. split; [|by apply list_elem_of_fmap_2]. unfold fee_eligible in He. split_bools. unfold fee_known, After in *. lia.
  - intros [[_ (p & -> & Hin)%list_elem_of_fmap] He]. apply fmap_Some. exists p. split; [|done]. by apply selectFee_iff.
Qed.

Lemma option_ext {A} (x y : option A) : (forall a, x = Some a <-> y = Some a) -> x = y.
Proof. intros H. destruct x as [a|]; [symmetry; by apply H|]. destruct y as [b|]; [|done]. by apply H. Qed.

Lemma selectFee_known_perm fees1 fees2 inputs1 inputs2 request venue :
  StronglySorted disjoint_windows fees1 -> pf_input <$> fees1 ≡ₚ trimmed_fee <$> inputs1 ->
  StronglySorted disjoint_windows fees2 -> pf_input <$> fees2 ≡ₚ trimmed_fee <$> inputs2 ->
  filter (fee_known request.(rin_DecisionAt)) inputs1 ≡ₚ filter (fee_known request.(rin_DecisionAt)) inputs2 ->
  pf_input <$> selectFee fees1 request venue = pf_input <$> selectFee fees2 request venue.
Proof.
  intros Hd1 Hp1 Hd2 Hp2 Hf. apply option_ext. intros f.
  rewrite (selectFee_known_iff fees1 inputs1), (selectFee_known_iff fees2 inputs2) by done. by rewrite Hf.
Qed.

Lemma book_parts b1 b2 : book_ok b1 -> book_ok b2 -> b1.(pb_input) = b2.(pb_input) ->
  b1.(pb_bids) = b2.(pb_bids) /\ b1.(pb_asks) = b2.(pb_asks).
Proof.
  intros H1 H2 Heq. pose proof (bo_bids b1 H1) as Hb1. pose proof (bo_asks b1 H1) as Ha1.
  rewrite Heq in Hb1, Ha1. rewrite (bo_bids b2 H2) in Hb1. rewrite (bo_asks b2 H2) in Ha1. by simplify_eq.
Qed.

Lemma calculateFee_parts f1 f2 fills : fee_ok f1 -> fee_ok f2 -> f1.(pf_input) = f2.(pf_input) ->
  calculateFee f1 fills = calculateFee f2 fills.
Proof.
  intros H1 H2 Heq. assert (Hrate : pf_rate f1 = pf_rate f2).
  { pose proof (fo_rate f1 H1) as Hr. rewrite Heq, (fo_rate f2 H2) in Hr. by simplify_eq. }
  unfold calculateFee. rewrite Heq. f_equal. generalize Zero. induction fills as [|f fills IH]; intros v; [done|].
  cbn [fee_total]. rewrite Heq, Hrate. destruct (RequireFromString (fl_Price f)); [|done|done].
  destruct (RequireFromString (fl_Quantity f)); [|done|done]. apply IH.
Qed.

(** A row depends on the books and the fees through the selected inputs only. *)
Lemma replay_row_ext books1 books2 fees1 fees2 sequence value quantity limit :
  Forall book_ok books1 -> Forall book_ok books2 -> Forall fee_ok fees1 -> Forall fee_ok fees2 ->
  pb_input <$> selectBook books1 value = pb_input <$> selectBook books2 value ->
  (forall venue, pf_input <$> selectFee fees1 value venue = pf_input <$> selectFee fees2 value venue) ->
  replay_row books1 fees1 sequence value quantity limit = replay_row books2 fees2 sequence value quantity limit.
Proof.
  intros Hb1 Hb2 Hf1 Hf2 Hb Hf. unfold replay_row.
  destruct (selectBook books1 value) as [b1|] eqn:Hs1, (selectBook books2 value) as [b2|] eqn:Hs2; try done. injection Hb as Hb.
  assert (Hok : book_ok b1 /\ book_ok b2).
  { rewrite Forall_forall in Hb1, Hb2. split; [apply Hb1|apply Hb2]; unfold selectBook in *;
      [apply pick_Some in Hs1 as [[? _]|?]|apply pick_Some in Hs2 as [[? _]|?]]; done. }
  destruct (book_parts b1 b2 (proj1 Hok) (proj2 Hok) Hb) as [Hbids Hasks]. rewrite Hb, Hbids, Hasks.
  specialize (Hf (bin_Venue (pb_input b2))).
  destruct (selectFee fees1 value _) as [f1|] eqn:Ht1, (selectFee fees2 value _) as [f2|] eqn:Ht2; try done. injection Hf as Hf.
  assert (Hokf : fee_ok f1 /\ fee_ok f2).
  { rewrite Forall_forall in Hf1, Hf2. split; [apply Hf1|apply Hf2]; unfold selectFee in *;
      [apply pick_Some in Ht1 as [[? _]|?]|apply pick_Some in Ht2 as [[? _]|?]]; done. }
  rewrite Hf. destruct (consume_levels _ _ _ _ _ _) as [[fs remaining] gross].
  by rewrite (calculateFee_parts f1 f2 fs (proj1 Hokf) (proj2 Hokf) Hf).
Qed.

Lemma recorder_evidence input r : NewRecorder input = Ok r -> exists books fees manifest,
  Forall book_ok books /\ Forall fee_ok fees /\ pb_input <$> books ≡ₚ trimmed_book <$> input.(in_Books) /\
  pf_input <$> fees ≡ₚ trimmed_fee <$> input.(in_Fees) /\ NoDup ((fun b => b.(bin_SourceKey)) <$> (pb_input <$> books)) /\
  StronglySorted disjoint_windows fees /\
  buildReplays input.(in_Replays) books fees manifest.(man_DecisionCutoff) = Ok r.(recorder_canonical).(rec_Replays) /\
  r.(recorder_canonical).(rec_Books) = pb_row <$> books /\ r.(recorder_canonical).(rec_Fees) = pf_row <$> fees /\
  r.(recorder_canonical).(rec_ManifestCutoff) = formatTime manifest.(man_DecisionCutoff) /\
  input.(in_Manifest) = Some manifest.
Proof.
  intros Hr. apply NewRecorder_inv in Hr as (manifest & index & books & fees & replays & Hm & _ & Hb & Hf & Hreplays & ->).
  apply normalizeBooks_ok in Hb as (Hb & Hpb & Hnd). apply normalizeFees_ok in Hf as (Hf & Hpf & Hd).
  exists books, fees, manifest. split_and!; try done. by rewrite <- list_fmap_compose.
Qed.

Lemma buildReplays_lookup values books fees cutoff rows i : buildReplays values books fees cutoff = Ok rows ->
  (is_Some (rows !! i) <-> is_Some (sort_slice replayLess values !! i)) /\
  forall row value, rows !! i = Some row -> sort_slice replayLess values !! i = Some value ->
    exists quantity limit, accepted cutoff (trimmed_replay value) quantity limit /\
      replay_row books fees i (trimmed_replay value) quantity limit = Ok row.
Proof.
  unfold buildReplays. intros Hb. inv_ok Hb. revert Hb. generalize (sort_slice replayLess values). intros requests Hb. split.
  - assert (Hlen : length rows = length requests).
    { revert Hb. generalize 0%nat, "". revert rows. induction requests as [|v vs IH]; intros rows n k Hb; cbn [replay_requests] in Hb;
        [by simplify_eq|]. inv_ok Hb. subst rows. cbn. f_equal. by eapply IH. }
    by rewrite !lookup_lt_is_Some, Hlen.
  - intros row value Hrow Hv. destruct (replay_requests_lookup _ _ _ _ _ _ _ _ _ Hb Hrow) as (v & q & l & Hv' & Hacc & Hr).
    rewrite Hv in Hv'. injection Hv' as <-. by exists q, l.
Qed.

(** C15: Two recorders with the same requests that agree on the books and the fee
    policies available at the decision of one of them give that request the same
    row: nothing published later matters, whatever the two manifests say. *)
Theorem recorder_no_look_ahead input1 input2 r1 r2 i value :
  NewRecorder input1 = Ok r1 -> NewRecorder input2 = Ok r2 -> input1.(in_Replays) = input2.(in_Replays) ->
  sort_slice replayLess input1.(in_Replays) !! i = Some value ->
  filter (book_known value.(rin_DecisionAt)) input1.(in_Books) ≡ₚ filter (book_known value.(rin_DecisionAt)) input2.(in_Books) ->
  filter (fee_known value.(rin_DecisionAt)) input1.(in_Fees) ≡ₚ filter (fee_known value.(rin_DecisionAt)) input2.(in_Fees) ->
  r1.(recorder_canonical).(rec_Replays) !! i = r2.(recorder_canonical).(rec_Replays) !! i.
Proof.
  intros H1 H2 Hreq Hv Hbooks Hfees.
  destruct (recorder_evidence _ _ H1) as (books1 & fees1 & m1 & Hb1 & Hf1 & Hp1 & Hq1 & Hn1 & Hd1 & Hr1 & _).
  destruct (recorder_evidence _ _ H2) as (books2 & fees2 & m2 & Hb2 & Hf2 & Hp2 & Hq2 & Hn2 & Hd2 & Hr2 & _).
  destruct (buildReplays_lookup _ _ _ _ _ i Hr1) as [Hs1 Hl1], (buildReplays_lookup _ _ _ _ _ i Hr2) as [Hs2 Hl2].
  rewrite <- Hreq in Hs2, Hl2. destruct (proj2 Hs1) as [row1 Hrow1]; [by eexists|]. destruct (proj2 Hs2) as [row2 Hrow2]; [by eexists|].
  destruct (Hl1 _ _ Hrow1 Hv) as (q1 & l1 & Ha1 & Hx1), (Hl2 _ _ Hrow2 Hv) as (q2 & l2 & Ha2 & Hx2).
  assert (q1 = q2) as -> by (pose proof (acc_quantity _ _ _ _ Ha1) as Hq; rewrite (acc_quantity _ _ _ _ Ha2) in Hq; congruence).
  assert (l1 = l2) as -> by (pose proof (acc_limit _ _ _ _ Ha1) as Hq; rewrite (acc_limit _ _ _ _ Ha2) in Hq; congruence).
  rewrite (replay_row_ext books1 books2 fees1 fees2) in Hx1; [congruence|done..| |].
  - by apply (selectBook_known_perm _ _ input1.(in_Books) input2.(in_Books)).
  - intros venue. by apply (selectFee_known_perm _ _ input1.(in_Fees) input2.(in_Fees)).
Qed.
End look_ahead.

(** ** The book query selects as the replay does *)
Section book_at.
Context {E : Externals} {L : ExternalLaws}.

(** Between the years 1 and 9999, where a time is read back from its text. *)
Definition in_calendar (t : Time) : Prop := (0 <= t.(instant) < year_10000)%Z.

Lemma canonical_text t : canonicalTime t = true -> in_calendar t -> parse_micro (formatTime t) = Some t.
Proof.
  unfold canonicalTime, formatTime. intros Hc Hr. split_bools. apply parse_format_micro; [|done].
  unfold utc_micro, UTC, TruncateMicro. destruct t as [i u]. cbn in *. subst u. f_equal. lia.
Qed.

Definition book_in_calendar (b : BookInput) : Prop := in_calendar b.(bin_ExchangeAt) /\ in_calendar b.(bin_AvailableAt).

Definition book_result (outcomeID : UUID) (b : parsedBook) : BookResult :=
  let input := b.(pb_input) in
  MkBookResult input.(bin_MarketID) outcomeID input.(bin_Venue) input.(bin_SourceKey) input.(bin_ExchangeAt) input.(bin_AvailableAt)
    input.(bin_Revision) ((fun l => level_result l.(pl_row)) <$> b.(pb_bids)) ((fun l => level_result l.(pl_row)) <$> b.(pb_asks)).

Definition request_at (at_ : Time) (marketID : string) (outcomeID : UUID) : ReplayInput :=
  MkReplayInput at_ marketID outcomeID SideBuy RoleTaker "" "".

Lemma selectBook_request books v w : v.(rin_DecisionAt) = w.(rin_DecisionAt) -> v.(rin_MarketID) = w.(rin_MarketID) ->
  v.(rin_OutcomeID) = w.(rin_OutcomeID) -> selectBook books v = selectBook books w.
Proof. intros H1 H2 H3. unfold selectBook. apply pick_ext; [|done]. intros b _. unfold book_eligible. by rewrite H1, H2, H3. Qed.

Lemma row_selection books at_ marketID outcomeID : Forall book_ok books -> Forall (fun b => book_in_calendar b.(pb_input)) books ->
  pick (row_eligible at_ marketID outcomeID) row_later (pb_row <$> books) None =
  pb_row <$> selectBook books (request_at at_ marketID outcomeID).
Proof.
  intros Hok Hcal. rewrite Forall_forall in Hok, Hcal.
  assert (Htimes : forall b, b ∈ books -> parse_micro b.(pb_row).(bc_ExchangeAt) = Some b.(pb_input).(bin_ExchangeAt) /\
            parse_micro b.(pb_row).(bc_evidence).(evc_AvailableAt) = Some b.(pb_input).(bin_AvailableAt)).
  { intros b Hb. destruct (Hcal b Hb) as [Hex Hav]. destruct (bo_row b (Hok b Hb)) as (partition & ->).
    cbn [bc_ExchangeAt bc_evidence evc_AvailableAt].
    split; [exact (canonical_text _ (bo_exchange b (Hok b Hb)) Hex)|exact (canonical_text _ (bo_available b (Hok b Hb)) Hav)]. }
  rewrite (pick_fmap pb_row _ _ books None). f_equal. unfold selectBook. apply pick_ext.
  - intros b Hb. destruct (Htimes b Hb) as [He Ha]. unfold row_eligible. rewrite He, Ha.
    destruct (bo_row b (Hok b Hb)) as (partition & ->). cbn [bc_MarketID bc_OutcomeID]. unfold book_eligible, request_at. cbn.
    assert (Hu : bool_decide (uuid_string (bin_OutcomeID (pb_input b)) = uuid_string outcomeID) =
                 bool_decide (bin_OutcomeID (pb_input b) = outcomeID)).
    { apply bool_decide_ext. split; [apply (inj uuid_string)|by intros ->]. }
    by rewrite Hu.
  - intros v w Hv [Hw|?]; [|done]. destruct (Htimes v Hv) as [Hve _], (Htimes w Hw) as [Hwe _].
    unfold row_later, parsed_or_zero. rewrite Hve, Hwe.
    destruct (bo_row v (Hok v Hv)) as (pv & ->), (bo_row w (Hok w Hw)) as (pw & ->). done.
Qed.

Lemma bid_rows b : book_ok b ->
  filter (fun l => l.(lc_Side) = "bid") b.(pb_row).(bc_Levels) = pl_row <$> b.(pb_bids) /\
  filter (fun l => l.(lc_Side) <> "bid") b.(pb_row).(bc_Levels) = pl_row <$> b.(pb_asks).
Proof.
  intros Hb. destruct (bo_row b Hb) as (partition & ->). cbn [bc_Levels].
  destruct (parse_levels_spec "ask" false _ _ _ _ (bo_asks b Hb)) as (_ & _ & _ & Ha & _).
  destruct (parse_levels_spec "bid" true _ _ _ _ (bo_bids b Hb)) as (_ & _ & _ & Hbid & _).
  pose proof (level_rows_side _ _ Ha) as Hra. pose proof (level_rows_side _ _ Hbid) as Hrb. rewrite !filter_app. split.
  - rewrite filter_all, filter_none, app_nil_r; [done| |]; intros x Hx; [by rewrite (Hra x Hx)|by apply Hrb].
  - rewrite filter_none, filter_all; [done| |]; intros x Hx; [by rewrite (Hra x Hx)|rewrite (Hrb x Hx); naive_solver].
Qed.

Lemma BookAt_select r books cutoff at_ marketID outcomeID :
  Forall book_ok books -> Forall (fun b => book_in_calendar b.(pb_input)) books ->
  r.(recorder_canonical).(rec_Books) = pb_row <$> books -> r.(recorder_canonical).(rec_ManifestCutoff) = formatTime cutoff ->
  canonicalTime at_ = true -> marketID <> "" -> outcomeID <> Nil -> canonicalTime cutoff = true -> in_calendar cutoff ->
  (at_.(instant) <= cutoff.(instant))%Z ->
  BookAt (Some r) at_ marketID outcomeID =
    match selectBook books (request_at at_ marketID outcomeID) with
    | Some b => Ok (book_result outcomeID b)
    | None => Err (Errorf "prediction recorder has no eligible book")
    end.
Proof.
  intros Hb Hcal' Hrb Hrc Hat Hm Ho Hc1 Hc2 Hc3.
  unfold BookAt. rewrite Hat, (bool_decide_eq_false_2 (marketID = "")), (bool_decide_eq_false_2 (outcomeID = Nil)) by done.
  cbn [negb orb]. rewrite Hrc, (canonical_text _ Hc1 Hc2).
  assert (Hafter : After at_ cutoff = false) by (unfold After; lia). rewrite Hafter.
  change (reject false ?m ≫= ?k) with (k tt). change (reject false ?m ≫= ?k) with (k tt). rewrite Hrb, (row_selection books) by done.
  destruct (selectBook books _) as [b|] eqn:Hsel; [|done]. cbn [fmap option_fmap option_map].
  assert (Hin : b ∈ books /\ book_eligible (request_at at_ marketID outcomeID) (pb_input b) = true).
  { unfold selectBook in Hsel. apply pick_Some in Hsel as [?|?]; done. }
  destruct Hin as [Hin He]. rewrite Forall_forall in Hb, Hcal'. pose proof (Hb b Hin) as Hok.
  destruct (bid_rows b Hok) as [-> ->]. rewrite <- !list_fmap_compose. destruct (Hcal' b Hin) as [Hex Hav].
  unfold book_result, parsed_or_zero. destruct (bo_row b Hok) as (partition & ->). cbn [bc_MarketID bc_Venue bc_evidence evc_SourceKey
    bc_ExchangeAt evc_AvailableAt bc_Revision].
  by rewrite (canonical_text _ (bo_exchange b Hok) Hex), (canonical_text _ (bo_available b Hok) Hav).
Qed.

(** The calendar hypotheses of the query, for a recorder. *)
Definition recorder_in_calendar (input : Input) : Prop :=
  Forall book_in_calendar input.(in_Books) /\
  forall manifest, input.(in_Manifest) = Some manifest ->
    canonicalTime manifest.(man_DecisionCutoff) = true /\ in_calendar manifest.(man_DecisionCutoff).

(** C16: The point-in-time query [BookAt], which works on the canonical texts,
    selects at the decision of a request the book its replay row was filled
    against: one that was published by then, and none of the eligible ones is
    later; and it fails exactly when the row says that there is no book. It
    never panics, for times between the years 1 and 9999. *)
Theorem book_at_agrees input r i value row : NewRecorder input = Ok r -> recorder_in_calendar input ->
  sort_slice replayLess input.(in_Replays) !! i = Some value -> r.(recorder_canonical).(rec_Replays) !! i = Some row ->
  match BookAt (Some r) value.(rin_DecisionAt) (TrimSpace value.(rin_MarketID)) value.(rin_OutcomeID) with
  | Ok book => row.(rc_BookSourceKey) = book.(br_SourceKey) /\ row.(rc_Status) <> "no_book" /\
      (book.(br_ExchangeAt).(instant) <= book.(br_AvailableAt).(instant) <= value.(rin_DecisionAt).(instant))%Z /\
      (forall other, other ∈ input.(in_Books) -> book_eligible (trimmed_replay value) (trimmed_book other) = true ->
         (other.(bin_ExchangeAt).(instant) < book.(br_ExchangeAt).(instant))%Z \/
         (other.(bin_ExchangeAt).(instant) = book.(br_ExchangeAt).(instant) /\ (other.(bin_Revision) <= book.(br_Revision))%Z))
  | Err _ => row.(rc_Status) = "no_book" /\ row.(rc_BookSourceKey) = "" /\
      (forall other, other ∈ input.(in_Books) -> book_eligible (trimmed_replay value) (trimmed_book other) = false)
  | Panic _ => False
  end.
Proof.
  intros Hr [Hcal Hman] Hv Hrow. set (v := trimmed_replay value).
  destruct (recorder_evidence _ _ Hr) as (books & fees & manifest & Hb & _ & Hp & _ & _ & _ & Hreplays & Hrb & _ & Hrc & Hm).
  destruct (buildReplays_lookup _ _ _ _ _ i Hreplays) as [_ Hl]. destruct (Hl _ _ Hrow Hv) as (quantity & limit & Hacc & Hx). clear Hl.
  destruct (Hman manifest Hm) as [Hc1 Hc2].
  assert (Hcal' : Forall (fun b => book_in_calendar b.(pb_input)) books).
  { apply Forall_forall. intros b Hbin. apply (list_elem_of_fmap_2 pb_input) in Hbin. rewrite Hp in Hbin.
    apply list_elem_of_fmap in Hbin as (b' & -> & Hb'). rewrite Forall_forall in Hcal. exact (Hcal b' Hb'). }
  rewrite (BookAt_select r books (man_DecisionCutoff manifest)); try done;
    [|exact (acc_time _ _ _ _ Hacc)|exact (acc_market _ _ _ _ Hacc)|exact (acc_outcome _ _ _ _ Hacc)|exact (acc_cutoff _ _ _ _ Hacc)].
  rewrite (selectBook_request books _ v) by done.
  assert (Hmem : forall other, other ∈ input.(in_Books) -> exists b, b ∈ books /\ pb_input b = trimmed_book other).
  { intros other Ho. apply (list_elem_of_fmap_2 trimmed_book) in Ho. rewrite <- Hp in Ho.
    apply list_elem_of_fmap in Ho as (b & -> & Hbin). by exists b. }
  unfold replay_row in Hx. fold v in Hx. destruct (selectBook books v) as [b|] eqn:Hsel.
  - assert (Hkeys : rc_BookSourceKey row = bin_SourceKey (pb_input b) /\ rc_Status row <> "no_book").
    { destruct (selectFee fees v _); [|by simplify_eq]. destruct (consume_levels _ _ _ _ _ _) as [[fs remaining] gross].
      destruct (IsZero (Sub _ _)); [by simplify_eq|]. inv_ok Hx. subst row. cbn. split; [done|]. by destruct (IsZero remaining). }
    destruct Hkeys as [Hk1 Hk2]. unfold selectBook in Hsel. pose proof (on_weak pb_input book_later) as Hweak. destruct (pick_max _ _ _ _ _ Hsel) as [Hmax _].
    apply pick_Some in Hsel as [[Hin He]|?]; [|done]. rewrite Forall_forall in Hb. pose proof (bo_order b (Hb b Hin)) as Hord.
    cbn [book_result br_SourceKey br_ExchangeAt br_AvailableAt br_Revision]. split_and!; [done|done|done| |].
    + unfold book_eligible in He. split_bools. unfold After in *. cbn in *. lia.
    + intros other Ho Hel. destruct (Hmem other Ho) as (b' & Hb' & Heq). rewrite <- Heq in Hel.
      specialize (Hmax b' Hb' Hel). cbn in Hmax. rewrite book_later_order in Hmax. unfold book_order, then_by in Hmax.
      rewrite Heq in Hmax. cbn in Hmax. apply orb_false_iff in Hmax as [H1 H2].
      destruct (Z.ltb_spec (instant (bin_ExchangeAt other)) (instant (bin_ExchangeAt (pb_input b)))); [by left|]. right.
      cbn in H2. apply orb_false_iff in H2 as [H2 _]. lia.
  - simplify_eq. split_and!; [done|done|]. intros other Ho. destruct (Hmem other Ho) as (b' & Hb' & <-).
    unfold selectBook in Hsel. apply pick_None in Hsel as [_ Hsel]. exact (Hsel b' Hb').
Qed.
End book_at.
