(* ===== verification/CompleteSet.v ===== *)
(** * Complete sets (internal/completeset/model.go)

    A candidate buys every outcome of a prediction market and is paid once per
    set. It is evaluated on the replays of a recorder: one filled purchase per
    outcome, and one filled sale that would unwind it if only some of the
    purchases were filled. *)

From S2P Require Import Prelude GoStd GoText GoTime Externals EconomicId ProjectionPayload PredictionReplay.

Local Open Scope go_scope.

Module CompleteSet.

Definition SchemaV1 : string := "complete-set-arbitrage-v1".

Record LegBinding := MkLegBinding {
  lb_OutcomeID : UUID;
  lb_EntrySequence : Z;
  lb_UnwindSequence : Z;
}.

Record Input := MkInput {
  in_Recorder : option Recorder;
  in_CandidateKey : string;
  in_MarketID : string;
  in_Outcomes : list UUID;
  in_Legs : list LegBinding;
  in_SetQuantity : string;
  in_PayoutPerSet : string;
  in_AvailableCapital : string;
  in_MinimumProfit : string;
}.

Record legCanonical := MkLeg {
  leg_Sequence : nat;
  leg_OutcomeID : string;
  leg_EntrySequence : Z;
  leg_UnwindSequence : Z;
  leg_EntryCost : string;
  leg_UnwindProceeds : string;
  leg_OrphanLoss : string;
}.

Record bindingCanonical := MkBinding {
  bind_OutcomeID : string;
  bind_EntrySequence : Z;
  bind_UnwindSequence : Z;
}.

Record scenarioLegCanonical := MkScenarioLeg {
  sl_Sequence : nat;
  sl_OutcomeID : string;
  sl_EntryCost : string;
  sl_UnwindProceeds : string;
  sl_Loss : string;
}.

Record scenarioCanonical := MkScenario {
  sc_Sequence : nat;
  sc_Key : string;
  sc_EntryCost : string;
  sc_UnwindProceeds : string;
  sc_Loss : string;
  sc_Legs : list scenarioLegCanonical;
}.

Record candidateCanonical := MkCanonical {
  cc_Schema : string;
  cc_State : string;
  cc_Reason : string;
  cc_RecorderID : string;
  cc_RecorderSHA256 : string;
  cc_CandidateKey : string;
  cc_MarketID : string;
  cc_Outcomes : list string;
  cc_SetQuantity : string;
  cc_PayoutPerSet : string;
  cc_AvailableCapital : string;
  cc_MinimumProfit : string;
  cc_EntryCost : string;
  cc_Payout : string;
  cc_AfterCostProfit : string;
  cc_WorstOrphanKey : string;
  cc_WorstOrphanLoss : string;
  cc_ReservedCapital : string;
  cc_ProfitAfterOrphanGuard : string;
  cc_Bindings : list bindingCanonical;
  cc_Legs : list legCanonical;
  cc_Scenarios : list scenarioCanonical;
}.

Record Candidate := MkCandidate {
  cand_canonical : candidateCanonical;
  cand_bytes : string;
  cand_digest : string;
  cand_id : UUID;
}.

Section complete_set.
Context {E : Externals}.
(** [decoder.Decode] into a [candidateCanonical]: the value and the unread rest. *)
Context (decodeCandidate : string -> option (candidateCanonical * string)).

(** ** Outcomes and bindings *)

(** The loop of [normalizeOutcomes]. *)
Fixpoint outcome_texts (values seen : list UUID) : outcome (list string) :=
  match values with
  | [] => Ok []
  | value :: rest =>
      reject ((value ==? Nil) || bool_decide (value ∈ seen)) "complete set outcome identity is invalid" ;;
      texts ← outcome_texts rest (value :: seen) ;
      Ok (uuid_string value :: texts)
  end.

Definition normalizeOutcomes (values : list UUID) : outcome (list string) :=
  reject ((length values <? 2)%nat || (12 <? length values)%nat) "complete set requires between two and twelve outcomes" ;;
  result ← outcome_texts values [] ;
  Ok (sort_slice string_lt result).

Definition bindingLess (a b : LegBinding) : bool := string_lt (uuid_string a.(lb_OutcomeID)) (uuid_string b.(lb_OutcomeID)).

(** The loop of [normalizeBindings] over the sorted bindings. *)
Fixpoint check_bindings (values : list LegBinding) (seenOutcome : list UUID) (seenReplay : list Z) : outcome unit :=
  match values with
  | [] => Ok tt
  | value :: rest =>
      reject ((value.(lb_OutcomeID) ==? Nil) || (value.(lb_EntrySequence) <? 0)%Z || (value.(lb_UnwindSequence) <? 0)%Z ||
              (value.(lb_EntrySequence) =? value.(lb_UnwindSequence))%Z || bool_decide (value.(lb_OutcomeID) ∈ seenOutcome) ||
              bool_decide (value.(lb_EntrySequence) ∈ seenReplay) || bool_decide (value.(lb_UnwindSequence) ∈ seenReplay))
        "complete set leg binding is invalid" ;;
      check_bindings rest (value.(lb_OutcomeID) :: seenOutcome)
        (value.(lb_EntrySequence) :: value.(lb_UnwindSequence) :: seenReplay)
  end.

Definition normalizeBindings (values : list LegBinding) : outcome (list LegBinding) :=
  let result := sort_slice bindingLess values in
  check_bindings result [] [] ;;
  Ok result.

Definition bindingsCoverOutcomes (bindings : list LegBinding) (outcomes : list string) : bool :=
  (uuid_string ∘ lb_OutcomeID <$> bindings) ==? outcomes.

(** ** Legs *)

(** [bySequence] *)
Definition index_results (results : list ReplayResult) : gmap Z ReplayResult :=
  foldl (fun m value => <[Z.of_nat value.(rr_Sequence) := value]> m) ∅ results.

(** The two replays of a binding are the filled purchase and the filled sale of
    the whole set quantity at the common decision. *)
Definition leg_matches (marketID quantity common : string) (binding : LegBinding) (entry unwind : ReplayResult) : bool :=
  negb ((entry.(rr_MarketID) !=? marketID) || (unwind.(rr_MarketID) !=? marketID) ||
        (entry.(rr_OutcomeID) !=? binding.(lb_OutcomeID)) || (unwind.(rr_OutcomeID) !=? binding.(lb_OutcomeID)) ||
        negb (TimeEqual entry.(rr_DecisionAt) unwind.(rr_DecisionAt)) || (format_micro entry.(rr_DecisionAt) !=? common) ||
        (entry.(rr_Side) !=? SideBuy) || (entry.(rr_Role) !=? RoleTaker) || (unwind.(rr_Side) !=? SideSell) ||
        (entry.(rr_Status) !=? "filled") || (unwind.(rr_Status) !=? "filled") ||
        (entry.(rr_Quantity) !=? quantity) || (unwind.(rr_Quantity) !=? quantity) ||
        (entry.(rr_FilledQuantity) !=? quantity) || (unwind.(rr_FilledQuantity) !=? quantity) ||
        (entry.(rr_ResidualQuantity) !=? "0") || (unwind.(rr_ResidualQuantity) !=? "0")).

(** The loop over the bindings; [None]: a replay is invalid. *)
Fixpoint build_legs (bySequence : gmap Z ReplayResult) (marketID quantity : string) (sequence : nat) (common : string)
    (bindings : list LegBinding) : option (list legCanonical) :=
  match bindings with
  | [] => Some []
  | binding :: rest =>
      match bySequence !! binding.(lb_EntrySequence), bySequence !! binding.(lb_UnwindSequence) with
      | Some entry, Some unwind =>
          let common := if (sequence =? 0)%nat then format_micro entry.(rr_DecisionAt) else common in
          if leg_matches marketID quantity common binding entry unwind then
            match exactDecimal entry.(rr_NetCash), exactDecimal unwind.(rr_NetCash) with
            | Some entryCost, Some unwindProceeds =>
                if IsNegative entryCost || IsNegative unwindProceeds then None
                else
                  let loss := Max (Sub entryCost unwindProceeds) Zero in
                  match build_legs bySequence marketID quantity (S sequence) common rest with
                  | Some legs =>
                      Some (MkLeg sequence (uuid_string binding.(lb_OutcomeID)) binding.(lb_EntrySequence) binding.(lb_UnwindSequence)
                              (DecimalString entryCost) (DecimalString unwindProceeds) (DecimalString loss) :: legs)
                  | None => None
                  end
            | _, _ => None
            end
          else None
      | _, _ => None
      end
  end.

(** ** Orphan scenarios *)

(** The legs of a mask, with their positions dropped: bit [i] keeps leg [i]. *)
Fixpoint masked {A} (i : N) (mask : N) (legs : list A) : list A :=
  match legs with
  | [] => []
  | leg :: rest => if N.testbit mask i then leg :: masked (N.succ i) mask rest else masked (N.succ i) mask rest
  end.

(** The inner loop over the legs of one mask. *)
Fixpoint scenario_legs (sequence : nat) (entryCost unwindProceeds : dec) (legs : list legCanonical)
    : outcome (list scenarioLegCanonical * dec * dec) :=
  match legs with
  | [] => Ok ([], entryCost, unwindProceeds)
  | leg :: rest =>
      entry ← RequireFromString leg.(leg_EntryCost) ;
      unwind ← RequireFromString leg.(leg_UnwindProceeds) ;
      let loss := Max (Sub entry unwind) Zero in
      '(rows, entryCost, unwindProceeds) ← scenario_legs (S sequence) (Add entryCost entry) (Add unwindProceeds unwind) rest ;
      Ok (MkScenarioLeg sequence leg.(leg_OutcomeID) (DecimalString entry) (DecimalString unwind) (DecimalString loss) :: rows,
          entryCost, unwindProceeds)
  end.

Definition mask_scenario (legs : list legCanonical) (mask : N) : outcome scenarioCanonical :=
  let chosen := masked 0 mask legs in
  '(rows, entryCost, unwindProceeds) ← scenario_legs 0 Zero Zero chosen ;
  Ok (MkScenario (N.to_nat mask - 1) (Join (leg_OutcomeID <$> chosen) "+") (DecimalString entryCost) (DecimalString unwindProceeds)
        (DecimalString (Max (Sub entryCost unwindProceeds) Zero)) rows).

Definition scenarioLess (a b : scenarioCanonical) : bool := string_lt a.(sc_Key) b.(sc_Key).

Definition renumber (scenarios : list scenarioCanonical) : list scenarioCanonical :=
  imap (fun i s => MkScenario i s.(sc_Key) s.(sc_EntryCost) s.(sc_UnwindProceeds) s.(sc_Loss) s.(sc_Legs)) scenarios.

(** The masks [1] to [2^n - 2], for at least one leg. *)
Definition masks (n : nat) : list N := N.of_nat <$> seq 1 (2 ^ n - 2).

Definition enumerateScenarios (legs : list legCanonical) : outcome (list scenarioCanonical) :=
  result ← map_outcome (mask_scenario legs) (masks (length legs)) ;
  Ok (renumber (sort_slice scenarioLess result)).

(** ** The candidate *)

Fixpoint sum_entry_cost (legs : list legCanonical) (entryCost : dec) : outcome dec :=
  match legs with
  | [] => Ok entryCost
  | leg :: rest => cost ← RequireFromString leg.(leg_EntryCost) ; sum_entry_cost rest (Add entryCost cost)
  end.

(** The loop that finds the worst scenario. *)
Fixpoint worst_orphan (scenarios : list scenarioCanonical) (worstLoss : dec) (worstKey : string) : outcome (dec * string) :=
  match scenarios with
  | [] => Ok (worstLoss, worstKey)
  | scenario :: rest =>
      loss ← RequireFromString scenario.(sc_Loss) ;
      if GreaterThan loss worstLoss ||
         (Equal loss worstLoss && ((worstKey ==? "") || string_lt scenario.(sc_Key) worstKey))
      then worst_orphan rest loss scenario.(sc_Key) else worst_orphan rest worstLoss worstKey
  end.

Definition binding_row (b : LegBinding) : bindingCanonical :=
  MkBinding (uuid_string b.(lb_OutcomeID)) b.(lb_EntrySequence) b.(lb_UnwindSequence).

(** The candidate before its legs are known, rejected for [reason]. *)
Definition rejected (input : Input) (recorder : Recorder) (outcomes : list string) (bindings : list LegBinding)
    (quantity payoutPerSet available minimum : dec) (reason : string) : candidateCanonical :=
  let payout := DecimalString (Mul quantity payoutPerSet) in
  MkCanonical SchemaV1 "rejected" reason (uuid_string recorder.(recorder_id)) recorder.(recorder_digest)
    (TrimSpace input.(in_CandidateKey)) (TrimSpace input.(in_MarketID)) outcomes (DecimalString quantity) (DecimalString payoutPerSet)
    (DecimalString available) (DecimalString minimum) "0" payout payout "" "0" "0" payout (binding_row <$> bindings) [] [].

(** The verdict: the state and the reason. *)
Definition verdict (available reserved afterCost guarded minimum : dec) : string * string :=
  if LessThan available reserved then ("rejected", "insufficient_capital")
  else if negb (GreaterThan afterCost minimum) then ("rejected", "nonpositive_complete_set_profit")
  else if negb (GreaterThan guarded minimum) then ("rejected", "orphan_guard_failure")
  else ("qualified", "").

Definition marshal_leg (l : legCanonical) : string :=
  json_struct [("sequence", json_nat l.(leg_Sequence)); str "outcome_id" l.(leg_OutcomeID);
    ("entry_sequence", json_int l.(leg_EntrySequence)); ("unwind_sequence", json_int l.(leg_UnwindSequence));
    str "entry_cost" l.(leg_EntryCost); str "unwind_proceeds" l.(leg_UnwindProceeds); str "orphan_loss" l.(leg_OrphanLoss)].

Definition marshal_binding (b : bindingCanonical) : string :=
  json_struct [str "outcome_id" b.(bind_OutcomeID); ("entry_sequence", json_int b.(bind_EntrySequence));
    ("unwind_sequence", json_int b.(bind_UnwindSequence))].

Definition marshal_scenario_leg (l : scenarioLegCanonical) : string :=
  json_struct [("sequence", json_nat l.(sl_Sequence)); str "outcome_id" l.(sl_OutcomeID); str "entry_cost" l.(sl_EntryCost);
    str "unwind_proceeds" l.(sl_UnwindProceeds); str "loss" l.(sl_Loss)].

Definition marshal_scenario (s : scenarioCanonical) : string :=
  json_struct [("sequence", json_nat s.(sc_Sequence)); str "key" s.(sc_Key); str "entry_cost" s.(sc_EntryCost);
    str "unwind_proceeds" s.(sc_UnwindProceeds); str "loss" s.(sc_Loss); ("legs", json_slice (marshal_scenario_leg <$> s.(sc_Legs)))].

Definition marshal_candidate (c : candidateCanonical) : string :=
  json_struct [str "schema" c.(cc_Schema); str "state" c.(cc_State); str "reason" c.(cc_Reason); str "recorder_id" c.(cc_RecorderID);
    str "recorder_sha256" c.(cc_RecorderSHA256); str "candidate_key" c.(cc_CandidateKey); str "market_id" c.(cc_MarketID);
    ("outcomes", json_slice (json_marshal_string <$> c.(cc_Outcomes))); str "set_quantity" c.(cc_SetQuantity);
    str "payout_per_set" c.(cc_PayoutPerSet); str "available_capital" c.(cc_AvailableCapital);
    str "minimum_profit" c.(cc_MinimumProfit); str "entry_cost" c.(cc_EntryCost); str "payout" c.(cc_Payout);
    str "after_cost_profit" c.(cc_AfterCostProfit); str "worst_orphan_key" c.(cc_WorstOrphanKey);
    str "worst_orphan_loss" c.(cc_WorstOrphanLoss); str "reserved_capital" c.(cc_ReservedCapital);
    str "profit_after_orphan_guard" c.(cc_ProfitAfterOrphanGuard); ("bindings", json_slice (marshal_binding <$> c.(cc_Bindings)));
    ("legs", json_slice (marshal_leg <$> c.(cc_Legs))); ("scenarios", json_slice (marshal_scenario <$> c.(cc_Scenarios)))].

Definition finish (canonical : candidateCanonical) : outcome Candidate :=
  let encoded := marshal_candidate canonical in
  let digest := hash encoded in
  Ok (MkCandidate canonical encoded digest
        (DeterministicUUID "complete-set-arbitrage" [(SchemaV1 +:+ "@sha256:" +:+ digest)%string])).

(** The evaluation of the legs, from [canonical.Legs = legs] on. *)
Definition evaluate_legs (base : candidateCanonical) (legs : list legCanonical) (quantity payoutPerSet available minimum : dec)
    : outcome candidateCanonical :=
  entryCost ← sum_entry_cost legs Zero ;
  let payout := Mul quantity payoutPerSet in
  let afterCost := Sub payout entryCost in
  scenarios ← enumerateScenarios legs ;
  '(worstLoss, worstKey) ← worst_orphan scenarios Zero "" ;
  let reserved := Add entryCost worstLoss in
  let guarded := Sub afterCost worstLoss in
  let '(state, reason) := verdict available reserved afterCost guarded minimum in
  Ok (MkCanonical base.(cc_Schema) state reason base.(cc_RecorderID) base.(cc_RecorderSHA256) base.(cc_CandidateKey)
        base.(cc_MarketID) base.(cc_Outcomes) base.(cc_SetQuantity) base.(cc_PayoutPerSet) base.(cc_AvailableCapital)
        base.(cc_MinimumProfit) (DecimalString entryCost) (DecimalString payout) (DecimalString afterCost) worstKey
        (DecimalString worstLoss) (DecimalString reserved) (DecimalString guarded) base.(cc_Bindings) legs scenarios).

Definition NewCandidate (input : Input) : outcome Candidate :=
  match input.(in_Recorder) with
  | None => Err (Errorf "complete set recorder is required")
  | Some recorder =>
      match exactDecimal input.(in_SetQuantity), exactDecimal input.(in_PayoutPerSet), exactDecimal input.(in_AvailableCapital),
            exactDecimal input.(in_MinimumProfit) with
      | Some quantity, Some payoutPerSet, Some available, Some minimum =>
          let marketID := TrimSpace input.(in_MarketID) in
          reject ((TrimSpace input.(in_CandidateKey) ==? "") || (marketID ==? "") || negb (GreaterThan quantity Zero) ||
                  negb (GreaterThan payoutPerSet Zero) || IsNegative available || IsNegative minimum)
            "complete set economics are invalid" ;;
          outcomes ← normalizeOutcomes input.(in_Outcomes) ;
          bindings ← normalizeBindings input.(in_Legs) ;
          let base := rejected input recorder outcomes bindings quantity payoutPerSet available minimum in
          if negb (length bindings =? length outcomes)%nat || negb (bindingsCoverOutcomes bindings outcomes)
          then finish (base "incomplete_set")
          else
            results ← ReplayResults (Some recorder) ;
            match build_legs (index_results results) marketID (DecimalString quantity) 0 "" bindings with
            | None => finish (base "invalid_replay")
            | Some legs => canonical ← evaluate_legs (base "") legs quantity payoutPerSet available minimum ; finish canonical
            end
      | _, _, _, _ => Err (Errorf "complete set economics are invalid")
      end
  end.

(** ** Restoring a candidate from its canonical bytes *)

Definition decodeExact (raw : string) : option candidateCanonical :=
  match decodeCandidate raw with
  | Some (value, rest) => if json_eof rest then Some value else None
  | None => None
  end.

Definition canonical_outcome (text : string) : outcome UUID :=
  match uuid_parse text with
  | Some parsed => Ok parsed
  | None => Err (Errorf "complete set canonical outcome is invalid")
  end.

Definition canonical_binding (b : bindingCanonical) : outcome LegBinding :=
  match uuid_parse b.(bind_OutcomeID) with
  | Some parsed => Ok (MkLegBinding parsed b.(bind_EntrySequence) b.(bind_UnwindSequence))
  | None => Err (Errorf "complete set canonical leg is invalid")
  end.

Definition FromCanonical (id : UUID) (digest raw : string) (recorder : option Recorder) : outcome Candidate :=
  match recorder, decodeExact raw with
  | Some r, Some canonical =>
      reject ((id ==? Nil) || negb (digestPattern digest) || (hash raw !=? digest) || (canonical.(cc_Schema) !=? SchemaV1) ||
              (canonical.(cc_RecorderID) !=? uuid_string r.(recorder_id)) || (canonical.(cc_RecorderSHA256) !=? r.(recorder_digest)))
        "complete set envelope is invalid" ;;
      outcomes ← map_outcome canonical_outcome canonical.(cc_Outcomes) ;
      legs ← map_outcome canonical_binding canonical.(cc_Bindings) ;
      let input := MkInput recorder canonical.(cc_CandidateKey) canonical.(cc_MarketID) outcomes legs canonical.(cc_SetQuantity)
                     canonical.(cc_PayoutPerSet) canonical.(cc_AvailableCapital) canonical.(cc_MinimumProfit) in
      match NewCandidate input with
      | Ok rebuilt =>
          reject ((rebuilt.(cand_id) !=? id) || (rebuilt.(cand_digest) !=? digest) || (rebuilt.(cand_bytes) !=? raw))
            "complete set canonical graph does not reconstruct" ;;
          Ok rebuilt
      | Err _ => Err (Errorf "complete set canonical graph does not reconstruct")
      | Panic p => Panic p
      end
  | _, _ => Err (Errorf "complete set envelope is invalid")
  end.

Definition Qualified (c : option Candidate) : bool :=
  match c with Some c => c.(cand_canonical).(cc_State) ==? "qualified" | None => false end.
End complete_set.
End CompleteSet.
