(* ===== verification/CompleteSetProofs.v ===== *)
(** * What a qualified complete set guarantees

    The orphan scenarios are the nonempty proper subsets of the legs, each once;
    a qualified candidate can pay for every outcome and for the worst way in
    which only some of the purchases are filled, and still earns its minimum. *)

From S2P Require Import Prelude GoStd GoText GoTime Externals EconomicId ProjectionPayload TextProofs PredictionReplay PredictionSweep.
From S2P Require Import PredictionReplayProofs CompleteSet.
From Stdlib Require Import Qminmax.
Import CompleteSet.

Local Open Scope go_scope.

(** ** Masks and subsets *)

(** Reference definition: the subsequences of a list. *)
Fixpoint sublists {A} (l : list A) : list (list A) :=
  match l with
  | [] => [[]]
  | x :: rest => sublists rest ++ (cons x <$> sublists rest)
  end.

Lemma masked_succ {A} (l : list A) : forall i m, masked (N.succ i) (2 * m) l = masked i m l /\ masked (N.succ i) (2 * m + 1) l = masked i m l.
Proof.
  induction l as [|x l IH]; intros i m; [done|]. cbn [masked]. destruct (IH (N.succ i) m) as [-> ->].
  assert (H0 : N.testbit (2 * m) (N.succ i) = N.testbit m i) by apply N.testbit_even_succ'.
  assert (H1 : N.testbit (2 * m + 1) (N.succ i) = N.testbit m i) by apply N.testbit_odd_succ'.
  by rewrite H0, H1.
Qed.

Lemma masked_zero {A} (l : list A) i : masked i 0 l = [].
Proof. revert i. induction l as [|x l IH]; intros i; [done|]. cbn [masked]. by rewrite N.bits_0. Qed.

Lemma Permutation_refl' {A} (l k : list A) : l = k -> l ≡ₚ k.
Proof. by intros ->. Qed.

(** The even and the odd numbers below twice a bound. *)
Lemma seq_double n : seq 0 (2 * n) ≡ₚ ((fun m => 2 * m)%nat <$> seq 0 n) ++ ((fun m => 2 * m + 1)%nat <$> seq 0 n).
Proof.
  induction n as [|n IH]; [done|]. replace (2 * S n)%nat with (S (S (2 * n))) by lia.
  rewrite !seq_S, !fmap_app, IH. cbn [fmap list_fmap Nat.add]. replace (2 * n + 1)%nat with (S (2 * n)) by lia.
  rewrite <- !app_assoc. apply Permutation_app_head. rewrite (app_assoc _ [(2 * n)%nat]), (app_assoc [(2 * n)%nat]).
  apply Permutation_app_tail. by rewrite Permutation_app_comm.
Qed.

Lemma masked_all {A} (l : list A) : (fun m => masked 0 (N.of_nat m) l) <$> seq 0 (2 ^ length l) ≡ₚ sublists l.
Proof.
  induction l as [|x l IH]; [done|]. cbn [length sublists]. rewrite Nat.pow_succ_r', seq_double, fmap_app, <- !list_fmap_compose.
  f_equiv.
  - rewrite <- IH. apply Permutation_refl'. apply list_fmap_ext. intros _ m _. unfold compose. cbn [masked].
    replace (N.of_nat (2 * m)) with (2 * N.of_nat m)%N by lia. rewrite N.testbit_even_0. exact (proj1 (masked_succ l 0 (N.of_nat m))).
  - rewrite <- IH, <- list_fmap_compose. apply Permutation_refl'. apply list_fmap_ext. intros _ m _. unfold compose. cbn [masked].
    replace (N.of_nat (2 * m + 1)) with (2 * N.of_nat m + 1)%N by lia. rewrite N.testbit_odd_0. f_equal.
    exact (proj2 (masked_succ l 0 (N.of_nat m))).
Qed.

Lemma masked_full {A} (l : list A) : masked 0 (N.of_nat (2 ^ length l - 1)) l = l.
Proof.
  induction l as [|x l IH]; [done|]. cbn [length masked]. rewrite Nat.pow_succ_r'.
  pose proof (Nat.pow_nonzero 2 (length l)).
  replace (N.of_nat (2 * 2 ^ length l - 1)) with (2 * N.of_nat (2 ^ length l - 1) + 1)%N by lia.
  rewrite N.testbit_odd_0. f_equal. by rewrite (proj2 (masked_succ l 0 _)).
Qed.

(** The masks of the code are the subsequences other than the empty and the
    full one. *)
Lemma masks_proper {A} (l : list A) : l <> [] ->
  [] :: ((fun mask => masked 0 mask l) <$> masks (length l)) ++ [l] ≡ₚ sublists l.
Proof.
  intros Hl. rewrite <- masked_all. assert (Hlen : (2 <= 2 ^ length l)%nat).
  { destruct l as [|x l]; [done|]. cbn [length]. rewrite Nat.pow_succ_r'. pose proof (Nat.pow_nonzero 2 (length l)). lia. }
  replace (2 ^ length l)%nat with (S (2 ^ length l - 2 + 1)) at 1 by lia.
  cbn [seq fmap list_fmap]. rewrite masked_zero, seq_app, fmap_app. cbn [seq fmap list_fmap].
  unfold masks. rewrite <- list_fmap_compose. apply Permutation_refl'. do 3 f_equal.
  replace (1 + (2 ^ length l - 2))%nat with (2 ^ length l - 1)%nat by lia. symmetry. apply masked_full.
Qed.

Lemma Forall2_perm {A B} (R : A -> B -> Prop) l l' k : Forall2 R l k -> l ≡ₚ l' -> exists k', k ≡ₚ k' /\ Forall2 R l' k'.
Proof.
  intros HF Hp. revert k HF. induction Hp as [|x l l' _ IH|x y l|l l' l'' _ IH1 _ IH2]; intros k HF.
  - apply Forall2_nil_inv_l in HF as ->. by exists [].
  - apply Forall2_cons_inv_l in HF as (b & k' & Hb & Hk & ->). destruct (IH k' Hk) as (k'' & Hp & Hf).
    exists (b :: k''). split; [by rewrite Hp|by constructor].
  - apply Forall2_cons_inv_l in HF as (b & k' & Hb & Hk & ->). apply Forall2_cons_inv_l in Hk as (c & k'' & Hc & Hk & ->).
    exists (c :: b :: k''). split; [constructor|]. by repeat constructor.
  - destruct (IH1 k HF) as (k' & Hp' & Hf). destruct (IH2 k' Hf) as (k'' & Hp'' & Hf'). exists k''. split; [by rewrite Hp'|done].
Qed.

Lemma map_outcome_Forall2 {A B} (f : A -> outcome B) l k : map_outcome f l = Ok k -> Forall2 (fun x y => f x = Ok y) l k.
Proof.
  revert k. induction l as [|x l IH]; cbn [map_outcome]; intros k Hm; [by simplify_eq|]. inv_ok Hm. subst k. constructor; auto.
Qed.

Section scenarios.
Context {E : Externals} {L : ExternalLaws}.
Local Open Scope Q_scope.

(** What the legs of a scenario cost, bring when unwound, and lose. *)
Definition cost_of (legs : list legCanonical) : Q := sumQ (fun l => num l.(leg_EntryCost)) legs.
Definition proceeds_of (legs : list legCanonical) : Q := sumQ (fun l => num l.(leg_UnwindProceeds)) legs.
Definition orphan_loss (legs : list legCanonical) : Q := Qmax 0 (cost_of legs - proceeds_of legs).

(** [s] is the scenario in which exactly [legs] were filled. *)
Record orphan_of (legs : list legCanonical) (s : scenarioCanonical) : Prop := {
  oo_outcomes : sl_OutcomeID <$> s.(sc_Legs) = leg_OutcomeID <$> legs;
  oo_key : s.(sc_Key) = Join (leg_OutcomeID <$> legs) "+";
  oo_cost : num s.(sc_EntryCost) == cost_of legs;
  oo_proceeds : num s.(sc_UnwindProceeds) == proceeds_of legs;
  oo_loss : num s.(sc_Loss) == orphan_loss legs;
}.

Lemma val_Max_zero a : val (Max a Zero) == Qmax 0 (val a).
Proof.
  destruct (val_Max a Zero) as [[Hle ->]|[Hle ->]]; rewrite val_Zero in *.
  - by rewrite Q.max_r.
  - by rewrite Q.max_l.
Qed.

Lemma scenario_legs_sums legs : forall n e u rows e' u', scenario_legs n e u legs = Ok (rows, e', u') ->
  sl_OutcomeID <$> rows = leg_OutcomeID <$> legs /\ val e' == val e + cost_of legs /\ val u' == val u + proceeds_of legs.
Proof.
  unfold cost_of, proceeds_of. induction legs as [|l legs IH]; cbn [scenario_legs sumQ]; intros n e u rows e' u' Hs.
  { simplify_eq. split_and!; [done|lra|lra]. }
  inv_ok Hs. destruct x1 as [[rows' e1] u1]. cbn in Hs. simplify_eq.
  repeat match goal with H : RequireFromString _ = Ok _ |- _ => apply RequireFromString_num in H end.
  match goal with H : scenario_legs _ _ _ _ = Ok _ |- _ => apply IH in H as (Hids & He & Hu) end.
  rewrite val_Add in He, Hu. split_and!; [by rewrite !fmap_cons, Hids|lra|lra].
Qed.

Lemma mask_scenario_orphan legs mask s : mask_scenario legs mask = Ok s -> orphan_of (masked 0 mask legs) s.
Proof.
  unfold mask_scenario. intros Hs. inv_ok Hs. destruct x as [[rows e] u]. cbn in Hs. simplify_eq.
  match goal with H : scenario_legs _ _ _ _ = Ok _ |- _ => apply scenario_legs_sums in H as (Hids & He & Hu) end.
  rewrite val_Zero in He, Hu. split; cbn; [done|done|rewrite num_text; lra|rewrite num_text; lra|].
  rewrite num_text, val_Max_zero, val_Sub. unfold orphan_loss.
  assert (Heq : val e - val u == cost_of (masked 0 mask legs) - proceeds_of (masked 0 mask legs)) by lra. by rewrite Heq.
Qed.

Lemma orphan_renumber chosen scenarios : Forall2 orphan_of chosen scenarios -> Forall2 orphan_of chosen (renumber scenarios).
Proof.
  unfold renumber. intros HF. apply Forall2_same_length_lookup_2; [by rewrite length_imap, (Forall2_length _ _ _ HF)|].
  intros i l s Hl Hs. apply list_lookup_imap_Some in Hs as (s' & Hs' & ->).
  destruct (Forall2_lookup_lr _ _ _ _ _ _ HF Hl Hs'). by split.
Qed.

Lemma enumerate_orphans legs scenarios : legs <> [] -> enumerateScenarios legs = Ok scenarios ->
  exists chosen, [] :: chosen ++ [legs] ≡ₚ sublists legs /\ Forall2 orphan_of chosen scenarios /\
    sc_Sequence <$> scenarios = seq 0 (length scenarios).
Proof.
  unfold enumerateScenarios. intros Hl He. inv_ok He. rename x into result. subst scenarios.
  match goal with H : map_outcome _ _ = Ok _ |- _ => apply map_outcome_Forall2 in H end.
  assert (HF : Forall2 orphan_of ((fun mask => masked 0 mask legs) <$> masks (length legs)) result).
  { apply Forall2_fmap_l. eapply Forall2_impl; [eassumption|]. intros mask s. apply mask_scenario_orphan. }
  apply Forall2_flip in HF. apply (Forall2_perm _ _ (sort_slice scenarioLess result)) in HF as (chosen & Hp & HF);
    [|symmetry; apply sort_slice_perm].
  apply Forall2_flip in HF. exists chosen. split; [by rewrite <- Hp, (masks_proper legs Hl)|]. split; [by apply orphan_renumber|].
  unfold renumber. apply list_eq. intros i. rewrite list_lookup_fmap, list_lookup_imap.
  destruct (sort_slice scenarioLess result !! i) as [s|] eqn:Hi; cbn.
  - symmetry. apply lookup_seq. rewrite length_imap. split; [lia|]. by eapply lookup_lt_Some.
  - symmetry. apply lookup_seq_ge. rewrite length_imap. by apply lookup_ge_None.
Qed.

(** The worst scenario bounds every scenario and is one of them. *)
Lemma worst_orphan_max scenarios : forall worst key worst' key', worst_orphan scenarios worst key = Ok (worst', key') ->
  val worst <= val worst' /\ (forall s, s ∈ scenarios -> num s.(sc_Loss) <= val worst') /\
  ((val worst' == val worst /\ key' = key) \/ exists s, s ∈ scenarios /\ s.(sc_Key) = key' /\ num s.(sc_Loss) == val worst').
Proof.
  induction scenarios as [|s scenarios IH]; cbn [worst_orphan]; intros worst key worst' key' Hw.
  { simplify_eq. split_and!; [lra|intros s Hs; by apply elem_of_nil in Hs|left; split; [lra|done]]. }
  inv_ok Hw. rename x into loss. match goal with H : RequireFromString _ = Ok _ |- _ => apply RequireFromString_num in H as Hn end.
  destruct (_ || _)%bool eqn:Hc.
  - apply IH in Hw as (Hle & Hall & Hor). assert (val worst <= val loss).
    { apply orb_true_iff in Hc as [Hc|Hc]; [apply GreaterThan_true in Hc; lra|].
      apply andb_true_iff in Hc as [Hc _]. apply Equal_true in Hc. lra. }
    split_and!; [lra| |].
    + intros s' Hs. apply elem_of_cons in Hs as [->|Hs]; [lra|by apply Hall].
    + right. destruct Hor as [[Heq ->]|(s' & Hs & Hk & Hv)]; [exists s|exists s']; split_and!; try done; [by left|lra|by right].
  - apply IH in Hw as (Hle & Hall & Hor). apply orb_false_iff in Hc as [Hc _]. apply GreaterThan_false in Hc. split_and!; [done| |].
    + intros s' Hs. apply elem_of_cons in Hs as [->|Hs]; [lra|by apply Hall].
    + destruct Hor as [?|(s' & Hs & Hk & Hv)]; [by left|]. right. exists s'. split_and!; try done. by right.
Qed.
End scenarios.

(** ** The legs *)
Section legs.
Context {E : Externals} {L : ExternalLaws}.
Local Open Scope Q_scope.

Lemma index_results_lookup results z v : index_results results !! z = Some v -> v ∈ results /\ Z.of_nat v.(rr_Sequence) = z.
Proof.
  unfold index_results. assert (Hgen : forall m : gmap Z ReplayResult, foldl (fun m value => <[Z.of_nat value.(rr_Sequence) := value]> m) m results !! z = Some v ->
    m !! z = Some v \/ (v ∈ results /\ Z.of_nat v.(rr_Sequence) = z)).
  { induction results as [|x results IH]; intros m Hm; cbn [foldl] in Hm; [by left|].
    apply IH in Hm as [Hm|[Hin Hs]]; [|right; split; [by right|done]].
    destruct (decide (Z.of_nat (rr_Sequence x) = z)) as [<-|Hne].
    - rewrite lookup_insert_eq in Hm. simplify_eq. right. split; [by left|done].
    - rewrite lookup_insert_ne in Hm by done. by left. }
  intros Hl. apply Hgen in Hl as [Hl|Hl]; [|done]. by rewrite lookup_empty in Hl.
Qed.

(** A result is a replay row of the recorder. *)
Record result_of (row : replayCanonical) (v : ReplayResult) : Prop := {
  ro_time : parse_micro row.(rc_DecisionAt) = Some v.(rr_DecisionAt);
  ro_outcome : uuid_parse row.(rc_OutcomeID) = Some v.(rr_OutcomeID);
  ro_sequence : v.(rr_Sequence) = row.(rc_Sequence);
  ro_side : v.(rr_Side) = Side_of_string row.(rc_Side);
  ro_status : v.(rr_Status) = row.(rc_Status);
  ro_filled : v.(rr_FilledQuantity) = row.(rc_FilledQuantity);
  ro_net : v.(rr_NetCash) = row.(rc_NetCash);
}.

Lemma replay_results_In rows : forall results v, replay_results rows = Ok results -> v ∈ results -> exists row, row ∈ rows /\ result_of row v.
Proof.
  induction rows as [|row rows IH]; cbn [replay_results]; intros results v Hr Hv.
  { simplify_eq. by apply elem_of_nil in Hv. }
  destruct (parse_micro (rc_DecisionAt row)) as [t|] eqn:Ht; [|done]. destruct (uuid_parse (rc_OutcomeID row)) as [u|] eqn:Hu; [|done].
  inv_ok Hr. subst results. apply elem_of_cons in Hv as [->|Hv].
  - exists row. split; [by left|]. done.
  - match goal with H : replay_results rows = Ok _ |- _ => destruct (IH _ _ H Hv) as (row' & Hin & Hres) end.
    exists row'. split; [by right|done].
Qed.

(** One leg of the loop. *)
Definition leg_from (bySequence : gmap Z ReplayResult) (marketID quantity common : string) (b : LegBinding) (l : legCanonical) : Prop :=
  exists entry unwind entryCost unwindProceeds,
    bySequence !! b.(lb_EntrySequence) = Some entry /\ bySequence !! b.(lb_UnwindSequence) = Some unwind /\
    leg_matches marketID quantity common b entry unwind = true /\
    exactDecimal entry.(rr_NetCash) = Some entryCost /\ exactDecimal unwind.(rr_NetCash) = Some unwindProceeds /\
    0 <= val entryCost /\ 0 <= val unwindProceeds /\
    l.(leg_OutcomeID) = uuid_string b.(lb_OutcomeID) /\ l.(leg_EntrySequence) = b.(lb_EntrySequence) /\
    l.(leg_UnwindSequence) = b.(lb_UnwindSequence) /\ l.(leg_EntryCost) = entry.(rr_NetCash) /\
    l.(leg_UnwindProceeds) = unwind.(rr_NetCash).

Lemma build_legs_from idx market quantity bindings : forall n common legs,
  build_legs idx market quantity n common bindings = Some legs ->
  exists common', (n <> 0%nat -> common' = common) /\ Forall2 (leg_from idx market quantity common') bindings legs.
Proof.
  induction bindings as [|b bindings IH]; cbn [build_legs]; intros n common legs Hb.
  { simplify_eq. exists common. split; [done|constructor]. }
  destruct (idx !! lb_EntrySequence b) as [entry|] eqn:He; [|done]. destruct (idx !! lb_UnwindSequence b) as [unwind|] eqn:Hu; [|done].
  destruct (leg_matches _ _ _ _ _ _) eqn:Hm; [|done].
  destruct (exactDecimal (rr_NetCash entry)) as [ec|] eqn:Hec; [|done].
  destruct (exactDecimal (rr_NetCash unwind)) as [up|] eqn:Hup; [|done].
  destruct (IsNegative ec || IsNegative up)%bool eqn:Hneg; [done|].
  destruct (build_legs idx market quantity (S n) _ bindings) as [rest|] eqn:Hrest; [|done]. injection Hb as <-.
  apply IH in Hrest as (common' & Hc & HF). specialize (Hc (Nat.neq_succ_0 n)). subst common'.
  eexists. split; [|constructor; [|exact HF]].
  - intros Hn. by rewrite (proj2 (Nat.eqb_neq n 0) Hn).
  - apply orb_false_iff in Hneg as [Hn1 Hn2]. dec_bools. exists entry, unwind, ec, up.
    apply exactDecimal_num in Hec as Hec', Hup as Hup'. split_and!; try done; cbn; symmetry; tauto.
Qed.

(** ** Outcomes *)

Lemma outcome_texts_spec values : forall seen texts, outcome_texts values seen = Ok texts ->
  texts = uuid_string <$> values /\ NoDup values /\ (forall v, v ∈ values -> v ∉ seen /\ v <> Nil).
Proof.
  induction values as [|v values IH]; cbn [outcome_texts]; intros seen texts Ht.
  { simplify_eq. split_and!; [done|constructor|]. intros v Hv. by apply elem_of_nil in Hv. }
  inv_ok Ht. subst texts. split_bools. match goal with H : outcome_texts _ _ = Ok _ |- _ => apply IH in H as (-> & Hnd & Hall) end.
  split_and!; [done| |].
  - constructor; [|done]. intros Hv. destruct (Hall v Hv) as [Hn _]. apply Hn. by left.
  - intros w Hw. apply elem_of_cons in Hw as [->|Hw]; [done|]. destruct (Hall w Hw) as [Hn ?]. split; [|done]. set_solver.
Qed.

Lemma normalizeOutcomes_spec values outcomes : normalizeOutcomes values = Ok outcomes ->
  outcomes ≡ₚ uuid_string <$> values /\ NoDup outcomes /\ (2 <= length outcomes <= 12)%nat.
Proof.
  unfold normalizeOutcomes. intros Hn. inv_ok Hn. subst outcomes.
  match goal with H : outcome_texts _ _ = Ok _ |- _ => apply outcome_texts_spec in H as (-> & Hnd & _) end.
  split_bools. rewrite sort_slice_perm. split_and!; [done|by apply NoDup_fmap_2; [apply _|]| |].
  - rewrite length_fmap. apply Nat.ltb_ge. done.
  - rewrite length_fmap. apply Nat.ltb_ge. done.
Qed.
End legs.

(** ** The candidate *)
Section candidate.
Context {E : Externals} {L : ExternalLaws}.
Local Open Scope Q_scope.

Lemma sum_entry_cost_num legs : forall v total, sum_entry_cost legs v = Ok total -> val total == val v + cost_of legs.
Proof.
  unfold cost_of. induction legs as [|l legs IH]; cbn [sum_entry_cost sumQ]; intros v total Hs; [simplify_eq; lra|].
  inv_ok Hs. apply IH in Hs. rewrite val_Add in Hs.
  match goal with H : RequireFromString _ = Ok _ |- _ => apply RequireFromString_num in H end. lra.
Qed.

#[local] Arguments cost_of : simpl never.
#[local] Arguments proceeds_of : simpl never.

(** The economics of an evaluated candidate, as numbers. *)
Record economics (c : candidateCanonical) : Prop := {
  ec_entry : num c.(cc_EntryCost) == cost_of c.(cc_Legs);
  ec_payout : num c.(cc_Payout) == num c.(cc_SetQuantity) * num c.(cc_PayoutPerSet);
  ec_after : num c.(cc_AfterCostProfit) == num c.(cc_Payout) - num c.(cc_EntryCost);
  ec_reserved : num c.(cc_ReservedCapital) == num c.(cc_EntryCost) + num c.(cc_WorstOrphanLoss);
  ec_guarded : num c.(cc_ProfitAfterOrphanGuard) == num c.(cc_AfterCostProfit) - num c.(cc_WorstOrphanLoss);
  ec_scenarios : exists chosen, [] :: chosen ++ [c.(cc_Legs)] ≡ₚ sublists c.(cc_Legs) /\
    Forall2 orphan_of chosen c.(cc_Scenarios) /\ sc_Sequence <$> c.(cc_Scenarios) = seq 0 (length c.(cc_Scenarios));
  ec_worst : (forall s, s ∈ c.(cc_Scenarios) -> num s.(sc_Loss) <= num c.(cc_WorstOrphanLoss)) /\
    ((num c.(cc_WorstOrphanLoss) == 0 /\ c.(cc_WorstOrphanKey) = "") \/
     exists s, s ∈ c.(cc_Scenarios) /\ s.(sc_Key) = c.(cc_WorstOrphanKey) /\ num s.(sc_Loss) == num c.(cc_WorstOrphanLoss));
  ec_nonneg : 0 <= num c.(cc_WorstOrphanLoss);
}.

(** The verdict on those numbers. *)
Definition verdict_of (c : candidateCanonical) : string * string :=
  if negb (Qle_bool (num c.(cc_ReservedCapital)) (num c.(cc_AvailableCapital))) then ("rejected", "insufficient_capital")
  else if Qle_bool (num c.(cc_AfterCostProfit)) (num c.(cc_MinimumProfit)) then ("rejected", "nonpositive_complete_set_profit")
  else if Qle_bool (num c.(cc_ProfitAfterOrphanGuard)) (num c.(cc_MinimumProfit)) then ("rejected", "orphan_guard_failure")
  else ("qualified", "").

Lemma LessThan_Qle a b : LessThan a b = negb (Qle_bool (val b) (val a)).
Proof.
  apply eq_true_iff_eq. rewrite LessThan_true, negb_true_iff, <- not_true_iff_false, Qle_bool_iff.
  split; [lra|apply Qnot_le_lt].
Qed.
Lemma GreaterThan_Qle a b : GreaterThan a b = negb (Qle_bool (val a) (val b)).
Proof.
  apply eq_true_iff_eq. rewrite GreaterThan_true, negb_true_iff, <- not_true_iff_false, Qle_bool_iff.
  split; [lra|apply Qnot_le_lt].
Qed.

Lemma Qle_bool_proper a b c d : a == b -> c == d -> Qle_bool a c = Qle_bool b d.
Proof. intros H1 H2. apply eq_true_iff_eq. by rewrite !Qle_bool_iff, H1, H2. Qed.

Lemma verdict_num available reserved after guarded minimum : verdict available reserved after guarded minimum =
  if negb (Qle_bool (num (DecimalString reserved)) (num (DecimalString available))) then ("rejected", "insufficient_capital")
  else if Qle_bool (num (DecimalString after)) (num (DecimalString minimum)) then ("rejected", "nonpositive_complete_set_profit")
  else if Qle_bool (num (DecimalString guarded)) (num (DecimalString minimum)) then ("rejected", "orphan_guard_failure")
  else ("qualified", "").
Proof.
  unfold verdict. rewrite LessThan_Qle, !GreaterThan_Qle, !negb_involutive.
  by rewrite !(Qle_bool_proper _ _ _ _ (num_text _) (num_text _)).
Qed.

Lemma evaluate_legs_economics base legs quantity payoutPerSet available minimum c : legs <> [] ->
  base.(cc_SetQuantity) = DecimalString quantity -> base.(cc_PayoutPerSet) = DecimalString payoutPerSet ->
  base.(cc_AvailableCapital) = DecimalString available -> base.(cc_MinimumProfit) = DecimalString minimum ->
  evaluate_legs base legs quantity payoutPerSet available minimum = Ok c ->
  economics c /\ (c.(cc_State), c.(cc_Reason)) = verdict_of c /\ c.(cc_Legs) = legs /\ c.(cc_Outcomes) = base.(cc_Outcomes) /\
  c.(cc_SetQuantity) = base.(cc_SetQuantity) /\ c.(cc_PayoutPerSet) = base.(cc_PayoutPerSet) /\
  c.(cc_AvailableCapital) = base.(cc_AvailableCapital) /\ c.(cc_MinimumProfit) = base.(cc_MinimumProfit) /\
  c.(cc_MarketID) = base.(cc_MarketID).
Proof.
  intros Hlegs Hq Hp Ha Hm. unfold evaluate_legs. intros He. inv_ok He. destruct x1 as [worst key]. cbn in He.
  rename x into cost, x0 into scenarios. destruct (verdict _ _ _ _ _) as [state reason] eqn:Hv. injection He as <-.
  match goal with H : sum_entry_cost _ _ = Ok _ |- _ => apply sum_entry_cost_num in H as Hcost end.
  match goal with H : worst_orphan _ _ _ = Ok _ |- _ => apply worst_orphan_max in H as (Hpos & Hall & Hor) end.
  rewrite val_Zero in *. split_and!; try done.
  - split; cbn; rewrite ?Hq, ?Hp, ?num_text, ?val_Sub, ?val_Mul, ?val_Add; try lra.
    + by apply enumerate_orphans.
    + split; [intros s Hs; rewrite num_text; by apply Hall|].
      destruct Hor as [[? ->]|(s & Hs & Hk & Heq)]; [left; split; [by rewrite ?num_text|done]|right]. exists s. split_and!; [done|done|first [exact Heq|rewrite num_text; exact Heq]].
  - unfold verdict_of. cbn. rewrite Ha, Hm, <- Hv. apply verdict_num.
Qed.
End candidate.

Section theorems.
Context {E : Externals} {L : ExternalLaws}.
Local Open Scope Q_scope.

(** Where the legs come from: the filled purchase and the filled sale of the
    whole set quantity, both decided at [decision]. *)
Definition leg_backed (r : Recorder) (quantity decision : string) (l : legCanonical) : Prop :=
  exists entry unwind, entry ∈ r.(recorder_canonical).(rec_Replays) /\ unwind ∈ r.(recorder_canonical).(rec_Replays) /\
    Z.of_nat entry.(rc_Sequence) = l.(leg_EntrySequence) /\ Z.of_nat unwind.(rc_Sequence) = l.(leg_UnwindSequence) /\
    Side_of_string entry.(rc_Side) = SideBuy /\ Side_of_string unwind.(rc_Side) = SideSell /\
    entry.(rc_Status) = "filled" /\ unwind.(rc_Status) = "filled" /\
    entry.(rc_FilledQuantity) = quantity /\ unwind.(rc_FilledQuantity) = quantity /\
    format_micro <$> parse_micro entry.(rc_DecisionAt) = Some decision /\
    format_micro <$> parse_micro unwind.(rc_DecisionAt) = Some decision /\
    uuid_string <$> uuid_parse entry.(rc_OutcomeID) = Some l.(leg_OutcomeID) /\
    uuid_string <$> uuid_parse unwind.(rc_OutcomeID) = Some l.(leg_OutcomeID) /\
    l.(leg_EntryCost) = entry.(rc_NetCash) /\ l.(leg_UnwindProceeds) = unwind.(rc_NetCash) /\
    0 <= num l.(leg_EntryCost) /\ 0 <= num l.(leg_UnwindProceeds).

Lemma format_micro_instant t u : t.(instant) = u.(instant) -> format_micro t = format_micro u.
Proof. unfold format_micro. by intros ->. Qed.

Lemma leg_from_backed r results market quantity decision b l : ReplayResults (Some r) = Ok results ->
  leg_from (index_results results) market quantity decision b l -> leg_backed r quantity decision l.
Proof.
  intros Hr (entry & unwind & ec & up & He & Hu & Hm & Hec & Hup & Hc1 & Hc2 & Ho & Hs1 & Hs2 & Hl1 & Hl2).
  apply index_results_lookup in He as [He Hse], Hu as [Hu Hsu]. cbn [ReplayResults] in Hr.
  destruct (replay_results_In _ _ _ Hr He) as (erow & Hein & Heq).
  destruct (replay_results_In _ _ _ Hr Hu) as (urow & Huin & Huq).
  apply exactDecimal_num in Hec as [_ Hec], Hup as [_ Hup].
  unfold leg_matches in Hm. apply negb_true_iff in Hm. split_bools.
  exists erow, urow. rewrite (ro_time _ _ Heq), (ro_time _ _ Huq), (ro_outcome _ _ Heq), (ro_outcome _ _ Huq). cbn [fmap option_fmap option_map].
  assert (Htime : format_micro (rr_DecisionAt unwind) = format_micro (rr_DecisionAt entry)).
  { apply format_micro_instant. unfold TimeEqual in *. lia. }
  split_and!; try done; try congruence.
  - rewrite (ro_sequence _ _ Heq) in Hse. congruence.
  - rewrite (ro_sequence _ _ Huq) in Hsu. congruence.
  - rewrite <- (ro_side _ _ Heq). done.
  - rewrite <- (ro_side _ _ Huq). done.
  - rewrite <- (ro_status _ _ Heq). done.
  - rewrite <- (ro_status _ _ Huq). done.
  - rewrite <- (ro_filled _ _ Heq). done.
  - rewrite <- (ro_filled _ _ Huq). done.
  - rewrite <- (ro_net _ _ Heq). done.
  - rewrite <- (ro_net _ _ Huq). done.
  - rewrite Hl1, Hec. done.
  - rewrite Hl2, Hup. done.
Qed.

Lemma NewCandidate_inv input c : NewCandidate input = Ok c -> exists recorder outcomes bindings quantity payoutPerSet available minimum,
  input.(in_Recorder) = Some recorder /\ exactDecimal input.(in_SetQuantity) = Some quantity /\
  exactDecimal input.(in_PayoutPerSet) = Some payoutPerSet /\ exactDecimal input.(in_AvailableCapital) = Some available /\
  exactDecimal input.(in_MinimumProfit) = Some minimum /\ 0 < val quantity /\ 0 < val payoutPerSet /\
  normalizeOutcomes input.(in_Outcomes) = Ok outcomes /\ normalizeBindings input.(in_Legs) = Ok bindings /\
  let base := rejected input recorder outcomes bindings quantity payoutPerSet available minimum in
  ((exists reason, reason ∈ ["incomplete_set"; "invalid_replay"] /\ c.(cand_canonical) = base reason) \/
   exists results legs, bindingsCoverOutcomes bindings outcomes = true /\ ReplayResults (Some recorder) = Ok results /\
     build_legs (index_results results) (TrimSpace input.(in_MarketID)) (DecimalString quantity) 0 "" bindings = Some legs /\
     evaluate_legs (base "") legs quantity payoutPerSet available minimum = Ok c.(cand_canonical)).
Proof.
  unfold NewCandidate. intros Hn. destruct (in_Recorder input) as [recorder|]; [|done].
  destruct (exactDecimal (in_SetQuantity input)) as [quantity|]; [|done].
  destruct (exactDecimal (in_PayoutPerSet input)) as [payoutPerSet|]; [|done].
  destruct (exactDecimal (in_AvailableCapital input)) as [available|]; [|done].
  destruct (exactDecimal (in_MinimumProfit input)) as [minimum|]; [|done].
  inv_ok Hn. rename x into outcomes, x0 into bindings. split_bools. dec_bools. rewrite val_Zero in *.
  exists recorder, outcomes, bindings, quantity, payoutPerSet, available, minimum. split_and!; try done.
  destruct (_ || _)%bool eqn:Hcover; [left; exists "incomplete_set"; injection Hn as <-; split; [set_solver|done]|].
  inv_ok Hn. destruct (build_legs _ _ _ _ _ _) as [legs|] eqn:Hlegs.
  - inv_ok Hn. injection Hn as <-. right. split_bools. do 2 eexists. split_and!; try done.
  - left. exists "invalid_replay". injection Hn as <-. split; [set_solver|done].
Qed.

Lemma covered_outcomes idx market quantity common bindings outcomes legs :
  bindingsCoverOutcomes bindings outcomes = true -> Forall2 (leg_from idx market quantity common) bindings legs ->
  leg_OutcomeID <$> legs = outcomes.
Proof.
  unfold bindingsCoverOutcomes. intros Hc HF. split_bools. subst outcomes.
  induction HF as [|b l bs ls (? & ? & ? & ? & _ & _ & _ & _ & _ & _ & _ & Ho & _) _ IH]; [done|].
  rewrite !fmap_cons, Ho, IH. done.
Qed.

(** Every branch of the construction: a rejected candidate without legs, or legs
    for every outcome in order, one scenario per nonempty proper subset of them,
    economics that add up, and the verdict they imply. *)
Theorem candidate_economics input c : NewCandidate input = Ok c ->
  let k := c.(cand_canonical) in
  (k.(cc_State) = "rejected" /\ k.(cc_Reason) ∈ ["incomplete_set"; "invalid_replay"] /\ k.(cc_Legs) = [] /\ k.(cc_Scenarios) = []) \/
  (economics k /\ (k.(cc_State), k.(cc_Reason)) = verdict_of k /\ leg_OutcomeID <$> k.(cc_Legs) = k.(cc_Outcomes) /\
   length k.(cc_Scenarios) = (2 ^ length k.(cc_Outcomes) - 2)%nat).
Proof.
  intros Hn. destruct (NewCandidate_inv _ _ Hn) as (r & outcomes & bindings & quantity & payout & available & minimum & _ & _ & _ & _ & _ &
    _ & _ & Ho & _ & [(reason & Hin & ->)|(results & legs & Hcover & _ & Hlegs & He)]); [left; split_and!; done|right].
  apply build_legs_from in Hlegs as (common & _ & HF). pose proof (covered_outcomes _ _ _ _ _ _ _ Hcover HF) as Hids.
  apply normalizeOutcomes_spec in Ho as (_ & _ & Hlen).
  assert (Hne : legs <> []) by (intros ->; cbn in Hids; subst outcomes; cbn in Hlen; lia).
  apply evaluate_legs_economics in He as (Hec & Hv & Hl & Hout & _); [|done..]. cbv zeta. rewrite Hl, Hout. split_and!; try done.
  destruct (ec_scenarios _ Hec) as (chosen & Hp & HFs & _). rewrite Hl in Hp. apply Permutation_length in Hp.
  assert (Hsub : length (sublists legs) = (2 ^ length legs)%nat).
  { clear. induction legs as [|l ls IH]; [done|]. cbn [sublists length]. rewrite length_app, length_fmap, Nat.pow_succ_r'. lia. }
  rewrite Hsub in Hp. cbn [length] in Hp. rewrite length_app in Hp. cbn [length] in Hp. apply Forall2_length in HFs.
  cbn [rejected cc_Outcomes]. rewrite <- Hids, length_fmap. lia.
Qed.

(** C13: A qualified complete set buys every outcome once, between two and twelve,
    each leg backed by a filled purchase and a filled sale of the whole quantity
    that the recorder replayed at one common decision. The payout exceeds the
    cost by more than the minimum, and whichever nonempty proper subset of the
    purchases is filled alone, the available capital covers all purchases and
    the loss of unwinding that subset, and the profit net of it still exceeds
    the minimum. *)
Theorem qualified_guarded input c : NewCandidate input = Ok c -> Qualified (Some c) = true ->
  let k := c.(cand_canonical) in
  exists recorder decision, input.(in_Recorder) = Some recorder /\
    k.(cc_Outcomes) ≡ₚ uuid_string <$> input.(in_Outcomes) /\ NoDup k.(cc_Outcomes) /\ (2 <= length k.(cc_Outcomes) <= 12)%nat /\
    leg_OutcomeID <$> k.(cc_Legs) = k.(cc_Outcomes) /\
    Forall (leg_backed recorder input.(in_SetQuantity) decision) k.(cc_Legs) /\
    let profit := num input.(in_SetQuantity) * num input.(in_PayoutPerSet) - cost_of k.(cc_Legs) in
    num input.(in_MinimumProfit) < profit /\
    forall orphans, orphans ∈ sublists k.(cc_Legs) -> orphans <> [] -> orphans <> k.(cc_Legs) ->
      cost_of k.(cc_Legs) + orphan_loss orphans <= num input.(in_AvailableCapital) /\
      num input.(in_MinimumProfit) < profit - orphan_loss orphans.
Proof.
  intros Hn Hq. destruct (NewCandidate_inv _ _ Hn) as (r & outcomes & bindings & quantity & payout & available & minimum & Hr & Hd1 & Hd2 &
    Hd3 & Hd4 & _ & _ & Ho & _ & Hcases). unfold Qualified in Hq. apply bool_decide_eq_true in Hq.
  destruct Hcases as [(reason & _ & Hc)|(results & legs & Hcover & Hres & Hlegs & He)]; [by rewrite Hc in Hq|].
  apply build_legs_from in Hlegs as (decision & _ & HF). pose proof (covered_outcomes _ _ _ _ _ _ _ Hcover HF) as Hids.
  apply normalizeOutcomes_spec in Ho as (Hp & Hnd & Hlen).
  assert (Hne : legs <> []) by (intros ->; cbn in Hids; subst outcomes; cbn in Hlen; lia).
  apply evaluate_legs_economics in He as (Hec & Hv & Hl & Hout & Hk1 & Hk2 & Hk3 & Hk4 & _); [|done..].
  cbn [rejected cc_Outcomes cc_SetQuantity cc_PayoutPerSet cc_AvailableCapital cc_MinimumProfit] in Hout, Hk1, Hk2, Hk3, Hk4.
  apply exactDecimal_num in Hd1 as [Ht1 _], Hd2 as [Ht2 _], Hd3 as [Ht3 _], Hd4 as [Ht4 _].
  rewrite <- Ht1 in Hk1. rewrite <- Ht2 in Hk2. rewrite <- Ht3 in Hk3. rewrite <- Ht4 in Hk4.
  assert (Hverdict : num (cc_ReservedCapital (cand_canonical c)) <= num (in_AvailableCapital input) /\
            num (in_MinimumProfit input) < num (cc_AfterCostProfit (cand_canonical c)) /\
            num (in_MinimumProfit input) < num (cc_ProfitAfterOrphanGuard (cand_canonical c))).
  { unfold verdict_of in Hv. rewrite Hk3, Hk4, Hq in Hv. destruct (Qle_bool _ (num (in_AvailableCapital input))) eqn:H1; [|done].
    cbn [negb] in Hv. destruct (Qle_bool (num (cc_AfterCostProfit _)) _) eqn:H2; [done|].
    destruct (Qle_bool (num (cc_ProfitAfterOrphanGuard _)) _) eqn:H3; [done|].
    apply Qle_bool_iff in H1. apply not_true_iff_false in H2, H3. rewrite Qle_bool_iff in H2, H3.
    split_and!; [done|by apply Qnot_le_lt|by apply Qnot_le_lt]. }
  destruct Hverdict as (Hv1 & Hv2 & Hv3). destruct (ec_scenarios _ Hec) as (chosen & Hperm & HFs & _).
  destruct (ec_worst _ Hec) as [Hworst _]. pose proof (ec_entry _ Hec) as E1. pose proof (ec_payout _ Hec) as E2.
  pose proof (ec_after _ Hec) as E3. pose proof (ec_reserved _ Hec) as E4. pose proof (ec_guarded _ Hec) as E5.
  rewrite Hl, ?Hk1, ?Hk2 in *.
  exists r, decision. cbv zeta. rewrite Hout, Hl. split; [done|]. split; [done|]. split; [done|]. split; [done|]. split; [done|]. split; [|split].
  - rewrite Forall_forall. intros l Hl'. apply list_elem_of_lookup in Hl' as [i Hi].
    destruct (Forall2_lookup_r _ _ _ _ _ HF Hi) as (b & _ & Hb). rewrite Ht1. by eapply leg_from_backed.
  - lra.
  - intros orphans Hin Hnil Hfull. assert (Hchosen : orphans ∈ chosen).
    { rewrite <- Hperm in Hin. apply elem_of_cons in Hin as [->|Hin]; [done|]. apply elem_of_app in Hin as [Hin|Hin]; [done|].
      by apply list_elem_of_singleton in Hin as ->. }
    apply list_elem_of_lookup in Hchosen as [i Hi]. destruct (Forall2_lookup_l _ _ _ _ _ HFs Hi) as (s & Hs & Hor).
    pose proof (Hworst s (list_elem_of_lookup_2 _ _ _ Hs)) as Hw. rewrite (oo_loss _ _ Hor) in Hw. split; lra.
Qed.
End theorems.
