(* ===== verification/CompleteSetRoundTrip.v ===== *)
(** * Complete sets: the round trip through the canonical bytes

    Every candidate, rejected ones included, is restored from its bytes. *)

From S2P Require Import Prelude GoStd GoText GoTime Externals EconomicId EconomicIdProofs ProjectionPayload TextProofs PredictionReplay.
From S2P Require Import PredictionSweep PredictionReplayProofs CompleteSet CompleteSetProofs.
From Stdlib Require Import Ascii.
Import CompleteSet.

Local Open Scope go_scope.

(** ** Trimming twice *)














(** ** Sorting twice *)


Section restore.
Context {E : Externals} {L : ExternalLaws}.
Context (decode : string -> option (candidateCanonical * string)).



#[global] Instance bindingLess_weak : StrictWeak bindingLess.
Proof. exact (on_weak (fun b => uuid_string b.(lb_OutcomeID)) string_lt). Qed.







End restore.
