(* ===== verification/MakerQuote.v ===== *)
(** * Maker quotes (internal/makerquote/model.go)

    A candidate rests an order at the inside of the book a recorder shows at the
    decision. Scenarios of queue outflow, weighted to one, say how much of the
    order is filled behind the queue, what the fill captures against the middle
    of a later book, and what the fee and the inventory cost. *)

From S2P Require Import Prelude GoStd GoText GoTime Externals EconomicId ProjectionPayload PredictionReplay.

Local Open Scope go_scope.

Module MakerQuote.

Definition SchemaV1 : string := "maker-quote-evaluation-v1".

Record ScenarioInput := MkScenarioInput {
  si_Key : string;
  si_Weight : string;
  si_HorizonAt : Time;
  si_QueueOutflow : string;
}.

Record Input := MkInput {
  in_Recorder : option Recorder;
  in_CandidateKey : string;
  in_MarketID : string;
  in_OutcomeID : UUID;
  in_Side : Side;
  in_DecisionAt : Time;
  in_QuotePrice : string;
  in_QuoteQuantity : string;
  in_PriorQueue : string;
  in_StartingInventory : string;
  in_InventoryLimit : string;
  in_HourlyInventoryCostRate : string;
  in_MinimumExpectedNet : string;
  in_Scenarios : list ScenarioInput;
}.

Record scenarioCanonical := MkScenario {
  sc_Sequence : nat;
  sc_Key : string;
  sc_Weight : string;
  sc_HorizonAt : string;
  sc_QueueOutflow : string;
  sc_MarkBookSourceKey : string;
  sc_MarkPrice : string;
  sc_FilledQuantity : string;
  sc_ResidualQuantity : string;
  sc_PostFillInventory : string;
  sc_GrossCapture : string;
  sc_MakerFee : string;
  sc_InventoryCost : string;
  sc_NetCapture : string;
}.

Record candidateCanonical := MkCanonical {
  mc_Schema : string;
  mc_State : string;
  mc_Reason : string;
  mc_RecorderID : string;
  mc_RecorderSHA256 : string;
  mc_CandidateKey : string;
  mc_MarketID : string;
  mc_OutcomeID : string;
  mc_Side : string;
  mc_DecisionAt : string;
  mc_QuoteBookSourceKey : string;
  mc_Venue : string;
  mc_QuotePrice : string;
  mc_QuoteQuantity : string;
  mc_DisplayedQueue : string;
  mc_PriorQueue : string;
  mc_QueueAhead : string;
  mc_StartingInventory : string;
  mc_InventoryLimit : string;
  mc_HourlyInventoryCostRate : string;
  mc_MinimumExpectedNet : string;
  mc_FilledScenarioCount : nat;
  mc_ExpectedGrossCapture : string;
  mc_ExpectedMakerFee : string;
  mc_ExpectedInventoryCost : string;
  mc_ExpectedNetCapture : string;
  mc_Scenarios : list scenarioCanonical;
}.

Record Candidate := MkCandidate {
  cand_canonical : candidateCanonical;
  cand_bytes : string;
  cand_digest : string;
  cand_id : UUID;
}.

Section maker_quote.
Context {E : Externals}.
(** [decoder.Decode] into a [candidateCanonical]: the value and the unread rest. *)
Context (decodeCandidate : string -> option (candidateCanonical * string)).

Definition exactDecimal (value : string) : option dec :=
  match NewFromString value with
  | Some parsed => if (DecimalString parsed !=? value) || (Exponent parsed <? -18)%Z then None else Some parsed
  | None => None
  end.

(** The decimals of an input. *)
Record parsedInput := MkParsedInput {
  p_quotePrice : dec;
  p_quantity : dec;
  p_priorQueue : dec;
  p_startingInventory : dec;
  p_inventoryLimit : dec;
  p_hourlyRate : dec;
  p_minimum : dec;
}.

Definition parse_input (input : Input) : option parsedInput :=
  match exactDecimal input.(in_QuotePrice), exactDecimal input.(in_QuoteQuantity), exactDecimal input.(in_PriorQueue),
        exactDecimal input.(in_StartingInventory), exactDecimal input.(in_InventoryLimit),
        exactDecimal input.(in_HourlyInventoryCostRate), exactDecimal input.(in_MinimumExpectedNet) with
  | Some quotePrice, Some quantity, Some priorQueue, Some startingInventory, Some inventoryLimit, Some hourlyRate, Some minimum =>
      if negb (GreaterThan quotePrice Zero) || negb (LessThan quotePrice one) || negb (GreaterThan quantity Zero) ||
         IsNegative priorQueue || negb (GreaterThan inventoryLimit Zero) || IsNegative hourlyRate || IsNegative minimum
      then None
      else Some (MkParsedInput quotePrice quantity priorQueue startingInventory inventoryLimit hourlyRate minimum)
  | _, _, _, _, _, _, _ => None
  end.

(** *** The canonical record and its updates *)

Definition base_canonical (input : Input) (recorder : Recorder) (p : parsedInput) : candidateCanonical :=
  MkCanonical SchemaV1 "rejected" "invalid_quote" (uuid_string recorder.(recorder_id)) recorder.(recorder_digest)
    (TrimSpace input.(in_CandidateKey)) (TrimSpace input.(in_MarketID)) (uuid_string input.(in_OutcomeID))
    (Side_string input.(in_Side)) (formatTime input.(in_DecisionAt)) "" "" (DecimalString p.(p_quotePrice))
    (DecimalString p.(p_quantity)) "0" (DecimalString p.(p_priorQueue)) (DecimalString p.(p_priorQueue))
    (DecimalString p.(p_startingInventory)) (DecimalString p.(p_inventoryLimit)) (DecimalString p.(p_hourlyRate))
    (DecimalString p.(p_minimum)) 0 "0" "0" "0" "0" [].

Definition with_verdict (c : candidateCanonical) (state reason : string) : candidateCanonical :=
  MkCanonical c.(mc_Schema) state reason c.(mc_RecorderID) c.(mc_RecorderSHA256) c.(mc_CandidateKey) c.(mc_MarketID) c.(mc_OutcomeID)
    c.(mc_Side) c.(mc_DecisionAt) c.(mc_QuoteBookSourceKey) c.(mc_Venue) c.(mc_QuotePrice) c.(mc_QuoteQuantity) c.(mc_DisplayedQueue)
    c.(mc_PriorQueue) c.(mc_QueueAhead) c.(mc_StartingInventory) c.(mc_InventoryLimit) c.(mc_HourlyInventoryCostRate)
    c.(mc_MinimumExpectedNet) c.(mc_FilledScenarioCount) c.(mc_ExpectedGrossCapture) c.(mc_ExpectedMakerFee)
    c.(mc_ExpectedInventoryCost) c.(mc_ExpectedNetCapture) c.(mc_Scenarios).

Definition with_quote (c : candidateCanonical) (sourceKey venue displayed queueAhead : string) : candidateCanonical :=
  MkCanonical c.(mc_Schema) c.(mc_State) c.(mc_Reason) c.(mc_RecorderID) c.(mc_RecorderSHA256) c.(mc_CandidateKey) c.(mc_MarketID)
    c.(mc_OutcomeID) c.(mc_Side) c.(mc_DecisionAt) sourceKey venue c.(mc_QuotePrice) c.(mc_QuoteQuantity) displayed
    c.(mc_PriorQueue) queueAhead c.(mc_StartingInventory) c.(mc_InventoryLimit) c.(mc_HourlyInventoryCostRate)
    c.(mc_MinimumExpectedNet) c.(mc_FilledScenarioCount) c.(mc_ExpectedGrossCapture) c.(mc_ExpectedMakerFee)
    c.(mc_ExpectedInventoryCost) c.(mc_ExpectedNetCapture) c.(mc_Scenarios).

Definition with_rows (c : candidateCanonical) (count : nat) (rows : list scenarioCanonical) : candidateCanonical :=
  MkCanonical c.(mc_Schema) c.(mc_State) c.(mc_Reason) c.(mc_RecorderID) c.(mc_RecorderSHA256) c.(mc_CandidateKey) c.(mc_MarketID)
    c.(mc_OutcomeID) c.(mc_Side) c.(mc_DecisionAt) c.(mc_QuoteBookSourceKey) c.(mc_Venue) c.(mc_QuotePrice) c.(mc_QuoteQuantity)
    c.(mc_DisplayedQueue) c.(mc_PriorQueue) c.(mc_QueueAhead) c.(mc_StartingInventory) c.(mc_InventoryLimit)
    c.(mc_HourlyInventoryCostRate) c.(mc_MinimumExpectedNet) count c.(mc_ExpectedGrossCapture) c.(mc_ExpectedMakerFee)
    c.(mc_ExpectedInventoryCost) c.(mc_ExpectedNetCapture) rows.

Definition with_expected (c : candidateCanonical) (gross fee inventory net : string) : candidateCanonical :=
  MkCanonical c.(mc_Schema) c.(mc_State) c.(mc_Reason) c.(mc_RecorderID) c.(mc_RecorderSHA256) c.(mc_CandidateKey) c.(mc_MarketID)
    c.(mc_OutcomeID) c.(mc_Side) c.(mc_DecisionAt) c.(mc_QuoteBookSourceKey) c.(mc_Venue) c.(mc_QuotePrice) c.(mc_QuoteQuantity)
    c.(mc_DisplayedQueue) c.(mc_PriorQueue) c.(mc_QueueAhead) c.(mc_StartingInventory) c.(mc_InventoryLimit)
    c.(mc_HourlyInventoryCostRate) c.(mc_MinimumExpectedNet) c.(mc_FilledScenarioCount) gross fee inventory net c.(mc_Scenarios).

Definition marshal_scenario (s : scenarioCanonical) : string :=
  json_struct [("sequence", json_nat s.(sc_Sequence)); str "key" s.(sc_Key); str "weight" s.(sc_Weight);
    str "horizon_at" s.(sc_HorizonAt); str "queue_outflow" s.(sc_QueueOutflow); str "mark_book_source_key" s.(sc_MarkBookSourceKey);
    str "mark_price" s.(sc_MarkPrice); str "filled_quantity" s.(sc_FilledQuantity); str "residual_quantity" s.(sc_ResidualQuantity);
    str "post_fill_inventory" s.(sc_PostFillInventory); str "gross_capture" s.(sc_GrossCapture); str "maker_fee" s.(sc_MakerFee);
    str "inventory_cost" s.(sc_InventoryCost); str "net_capture" s.(sc_NetCapture)].

Definition marshal_candidate (c : candidateCanonical) : string :=
  json_struct [str "schema" c.(mc_Schema); str "state" c.(mc_State); str "reason" c.(mc_Reason); str "recorder_id" c.(mc_RecorderID);
    str "recorder_sha256" c.(mc_RecorderSHA256); str "candidate_key" c.(mc_CandidateKey); str "market_id" c.(mc_MarketID);
    str "outcome_id" c.(mc_OutcomeID); str "side" c.(mc_Side); str "decision_at" c.(mc_DecisionAt);
    str "quote_book_source_key" c.(mc_QuoteBookSourceKey); str "venue" c.(mc_Venue); str "quote_price" c.(mc_QuotePrice);
    str "quote_quantity" c.(mc_QuoteQuantity); str "displayed_queue" c.(mc_DisplayedQueue); str "prior_queue" c.(mc_PriorQueue);
    str "queue_ahead" c.(mc_QueueAhead); str "starting_inventory" c.(mc_StartingInventory);
    str "inventory_limit" c.(mc_InventoryLimit); str "hourly_inventory_cost_rate" c.(mc_HourlyInventoryCostRate);
    str "minimum_expected_net" c.(mc_MinimumExpectedNet); ("filled_scenario_count", json_nat c.(mc_FilledScenarioCount));
    str "expected_gross_capture" c.(mc_ExpectedGrossCapture); str "expected_maker_fee" c.(mc_ExpectedMakerFee);
    str "expected_inventory_cost" c.(mc_ExpectedInventoryCost); str "expected_net_capture" c.(mc_ExpectedNetCapture);
    ("scenarios", json_slice (marshal_scenario <$> c.(mc_Scenarios)))].

Definition finalize (canonical : candidateCanonical) : outcome Candidate :=
  let encoded := marshal_candidate canonical in
  let digest := hash encoded in
  Ok (MkCandidate canonical encoded digest
        (DeterministicUUID "maker-quote-evaluation" [(SchemaV1 +:+ "@sha256:" +:+ digest)%string])).

(** ** Scenarios *)

Record parsedScenario := MkParsedScenario {
  ps_input : ScenarioInput;
  ps_weight : dec;
  ps_flow : dec;
}.

(** The loop that parses the scenarios; [None]: they are invalid. *)
Fixpoint parse_scenarios (decisionAt : Time) (values : list ScenarioInput) (seen : list string) (weightSum : dec)
    : option (list parsedScenario * dec) :=
  match values with
  | [] => Some ([], weightSum)
  | value :: rest =>
      let key := TrimSpace value.(si_Key) in
      match exactDecimal value.(si_Weight), exactDecimal value.(si_QueueOutflow) with
      | Some weight, Some flow =>
          if (key ==? "") || bool_decide (key ∈ seen) || negb (GreaterThan weight Zero) || IsNegative flow ||
             negb (canonicalTime value.(si_HorizonAt)) || negb (After value.(si_HorizonAt) decisionAt)
          then None
          else
            match parse_scenarios decisionAt rest (key :: seen) (Add weightSum weight) with
            | Some (parsed, total) =>
                Some (MkParsedScenario (MkScenarioInput key value.(si_Weight) value.(si_HorizonAt) value.(si_QueueOutflow)) weight flow
                        :: parsed, total)
            | None => None
            end
      | _, _ => None
      end
  end.

Definition scenarioLess (a b : parsedScenario) : bool := string_lt a.(ps_input).(si_Key) b.(ps_input).(si_Key).

(** The variables of the scenario loop. *)
Record loopState := MkLoopState {
  ls_rows : list scenarioCanonical;
  ls_count : nat;
  ls_gross : dec;
  ls_fee : dec;
  ls_inventory : dec;
  ls_net : dec;
  ls_exceeded : bool;
}.

Definition initial_state : loopState := MkLoopState [] 0 Zero Zero Zero Zero false.

(** The loop finalizes early with a reason, or completes. *)
Inductive loopEnd := Stopped (reason : string) (s : loopState) | Completed (s : loopState).

(** What a fill does: the inventory after it and the gross capture. *)
Definition fill_effect (side : Side) (startingInventory mark quotePrice fill : dec) : dec * dec :=
  if side ==? SideBuy then (Add startingInventory fill, Mul (Sub mark quotePrice) fill)
  else (Sub startingInventory fill, Mul (Sub quotePrice mark) fill).

(** The fee of a fill; [None]: the recorder has none. *)
Definition fill_fee (recorder : Recorder) (input : Input) (venue : string) (quotePrice fill : dec) : outcome (option dec) :=
  match MakerFeeAt (Some recorder) input.(in_DecisionAt) input.(in_OutcomeID) venue (DecimalString quotePrice) (DecimalString fill) with
  | Ok result => fee ← RequireFromString result.(fr_Amount) ; Ok (Some fee)
  | Err _ => Ok None
  | Panic p => Panic p
  end.

Definition holding_hours (input : Input) (horizonAt : Time) : dec :=
  Div (NewFromInt (Microseconds (TimeSub horizonAt input.(in_DecisionAt)))) (NewFromInt 3600000000).

(** The middle of a book: [None] when a side is empty. *)
Definition book_middle (book : BookResult) : option (outcome dec) :=
  match book.(br_Bids), book.(br_Asks) with
  | bid :: _, ask :: _ =>
      Some (b ← RequireFromString bid.(blr_Price) ; a ← RequireFromString ask.(blr_Price) ; Ok (Div (Add b a) (NewFromInt 2)))
  | _, _ => None
  end.

(** The end of one iteration: the row is appended and the expectations grow. *)
Definition add_row (input : Input) (p : parsedInput) (sequence : nat) (value : parsedScenario) (sourceKey : string)
    (mark fill postInventory gross fee : dec) (s : loopState) : loopState :=
  let inventoryCost := Mul (Mul (Mul (Abs postInventory) p.(p_quotePrice)) p.(p_hourlyRate))
                           (holding_hours input value.(ps_input).(si_HorizonAt)) in
  let net := Sub (Sub gross fee) inventoryCost in
  MkLoopState
    (s.(ls_rows) ++ [MkScenario sequence value.(ps_input).(si_Key) (DecimalString value.(ps_weight))
       (formatTime value.(ps_input).(si_HorizonAt)) (DecimalString value.(ps_flow)) sourceKey (DecimalString mark)
       (DecimalString fill) (DecimalString (Sub p.(p_quantity) fill)) (DecimalString postInventory) (DecimalString gross)
       (DecimalString fee) (DecimalString inventoryCost) (DecimalString net)])
    s.(ls_count) (Add s.(ls_gross) (Mul value.(ps_weight) gross)) (Add s.(ls_fee) (Mul value.(ps_weight) fee))
    (Add s.(ls_inventory) (Mul value.(ps_weight) inventoryCost)) (Add s.(ls_net) (Mul value.(ps_weight) net))
    (s.(ls_exceeded) || GreaterThan (Abs postInventory) p.(p_inventoryLimit)).

Definition counted (s : loopState) : loopState :=
  MkLoopState s.(ls_rows) (S s.(ls_count)) s.(ls_gross) s.(ls_fee) s.(ls_inventory) s.(ls_net) s.(ls_exceeded).

Fixpoint scenario_loop (recorder : Recorder) (input : Input) (p : parsedInput) (venue : string) (queueAhead : dec)
    (sequence : nat) (values : list parsedScenario) (s : loopState) : outcome loopEnd :=
  match values with
  | [] => Ok (Completed s)
  | value :: rest =>
      match BookAt (Some recorder) value.(ps_input).(si_HorizonAt) (TrimSpace input.(in_MarketID)) input.(in_OutcomeID) with
      | Panic q => Panic q
      | Err _ => Ok (Stopped "invalid_scenarios" s)
      | Ok markBook =>
          match book_middle markBook with
          | None => Ok (Stopped "invalid_scenarios" s)
          | Some middle =>
              mark ← middle ;
              let fill := Min (Max (Sub value.(ps_flow) queueAhead) Zero) p.(p_quantity) in
              if IsZero fill then
                scenario_loop recorder input p venue queueAhead (S sequence) rest
                  (add_row input p sequence value markBook.(br_SourceKey) mark fill p.(p_startingInventory) Zero Zero s)
              else
                let '(postInventory, gross) := fill_effect input.(in_Side) p.(p_startingInventory) mark p.(p_quotePrice) fill in
                result ← fill_fee recorder input venue p.(p_quotePrice) fill ;
                match result with
                | None => Ok (Stopped "invalid_quote" (counted s))
                | Some fee =>
                    scenario_loop recorder input p venue queueAhead (S sequence) rest
                      (add_row input p sequence value markBook.(br_SourceKey) mark fill postInventory gross fee (counted s))
                end
          end
      end
  end.

(** ** The candidate *)

Definition verdict (p : parsedInput) (s : loopState) : string * string :=
  if (s.(ls_count) =? 0)%nat then ("rejected", "no_fill")
  else if s.(ls_exceeded) then ("rejected", "inventory_limit")
  else if negb (GreaterThan s.(ls_net) Zero) || negb (GreaterThan s.(ls_net) p.(p_minimum)) then ("rejected", "nonpositive_net_capture")
  else ("qualified", "").

(** From the quote on: the queue, the scenarios, the expectations. *)
Definition evaluate_inside (recorder : Recorder) (input : Input) (p : parsedInput) (book : BookResult) (inside : BookLevelResult)
    : outcome candidateCanonical :=
  displayed ← RequireFromString inside.(blr_Size) ;
  let queueAhead := Add displayed p.(p_priorQueue) in
  let canonical := with_quote (base_canonical input recorder p) book.(br_SourceKey) book.(br_Venue) (DecimalString displayed)
                     (DecimalString queueAhead) in
  match parse_scenarios input.(in_DecisionAt) input.(in_Scenarios) [] Zero with
  | None => Ok (with_verdict canonical "rejected" "invalid_scenarios")
  | Some (parsed, weightSum) =>
      if negb (Equal weightSum one) then Ok (with_verdict canonical "rejected" "invalid_scenarios")
      else
        ended ← scenario_loop recorder input p book.(br_Venue) queueAhead 0 (sort_slice scenarioLess parsed) initial_state ;
        match ended with
        | Stopped reason s => Ok (with_verdict (with_rows canonical s.(ls_count) s.(ls_rows)) "rejected" reason)
        | Completed s =>
            let '(state, reason) := verdict p s in
            Ok (with_verdict
                  (with_expected (with_rows canonical s.(ls_count) s.(ls_rows)) (DecimalString s.(ls_gross)) (DecimalString s.(ls_fee))
                     (DecimalString s.(ls_inventory)) (DecimalString s.(ls_net)))
                  state reason)
        end
  end.

(** The level the quote joins: [None] when a side of the book is empty. *)
Definition inside_level (side : Side) (book : BookResult) : option BookLevelResult :=
  match book.(br_Bids), book.(br_Asks) with
  | bid :: _, ask :: _ => Some (if side ==? SideSell then ask else bid)
  | _, _ => None
  end.

Definition NewCandidate (input : Input) : outcome Candidate :=
  match input.(in_Recorder) with
  | None => Err (Errorf "maker quote input is invalid")
  | Some recorder =>
      reject ((input.(in_OutcomeID) ==? Nil) || (TrimSpace input.(in_CandidateKey) ==? "") || (TrimSpace input.(in_MarketID) ==? "") ||
              negb (canonicalTime input.(in_DecisionAt)) || ((input.(in_Side) !=? SideBuy) && (input.(in_Side) !=? SideSell)) ||
              (length input.(in_Scenarios) =? 0)%nat)
        "maker quote input is invalid" ;;
      match parse_input input with
      | None => Err (Errorf "maker quote decimal is invalid")
      | Some p =>
          match BookAt (Some recorder) input.(in_DecisionAt) (TrimSpace input.(in_MarketID)) input.(in_OutcomeID) with
          | Panic q => Panic q
          | Err _ => finalize (base_canonical input recorder p)
          | Ok book =>
              match inside_level input.(in_Side) book with
              | None => finalize (base_canonical input recorder p)
              | Some inside =>
                  if inside.(blr_Price) !=? DecimalString p.(p_quotePrice) then finalize (base_canonical input recorder p)
                  else canonical ← evaluate_inside recorder input p book inside ; finalize canonical
              end
          end
      end
  end.

(** ** Restoring a candidate from its canonical bytes *)

Definition canonical_scenario (row : scenarioCanonical) : outcome ScenarioInput :=
  match parse_micro row.(sc_HorizonAt) with
  | Some horizonAt => Ok (MkScenarioInput row.(sc_Key) row.(sc_Weight) horizonAt row.(sc_QueueOutflow))
  | None => Err (Errorf "maker quote canonical scenario is invalid")
  end.

Definition canonicalInput (value : candidateCanonical) (recorder : Recorder) : outcome Input :=
  match uuid_parse value.(mc_OutcomeID), parse_micro value.(mc_DecisionAt) with
  | Some outcomeID, Some decisionAt =>
      scenarios ← map_outcome canonical_scenario value.(mc_Scenarios) ;
      Ok (MkInput (Some recorder) value.(mc_CandidateKey) value.(mc_MarketID) outcomeID (Side_of_string value.(mc_Side)) decisionAt
            value.(mc_QuotePrice) value.(mc_QuoteQuantity) value.(mc_PriorQueue) value.(mc_StartingInventory)
            value.(mc_InventoryLimit) value.(mc_HourlyInventoryCostRate) value.(mc_MinimumExpectedNet) scenarios)
  | _, _ => Err (Errorf "maker quote canonical identity is invalid")
  end.

Definition decodeExact (raw : string) : option candidateCanonical :=
  match decodeCandidate raw with
  | Some (value, rest) => if json_eof rest then Some value else None
  | None => None
  end.

Definition FromCanonical (id : UUID) (digest raw : string) (recorder : option Recorder) : outcome Candidate :=
  match recorder, decodeExact raw with
  | Some r, Some canonical =>
      reject ((id ==? Nil) || negb (digestPattern digest) || (hash raw !=? digest) || (canonical.(mc_Schema) !=? SchemaV1) ||
              (canonical.(mc_RecorderID) !=? uuid_string r.(recorder_id)) || (canonical.(mc_RecorderSHA256) !=? r.(recorder_digest)))
        "maker quote canonical evidence is invalid" ;;
      input ← canonicalInput canonical r ;
      match NewCandidate input with
      | Ok rebuilt =>
          reject ((rebuilt.(cand_id) !=? id) || (rebuilt.(cand_digest) !=? digest) || (rebuilt.(cand_bytes) !=? raw))
            "maker quote canonical graph does not reconstruct" ;;
          Ok rebuilt
      | Err _ => Err (Errorf "maker quote canonical graph does not reconstruct")
      | Panic q => Panic q
      end
  | _, _ => Err (Errorf "maker quote canonical evidence is invalid")
  end.

Definition Qualified (c : option Candidate) : bool :=
  match c with Some c => c.(cand_canonical).(mc_State) ==? "qualified" | None => false end.
End maker_quote.
End MakerQuote.
