(* ===== verification/MakerQuoteProofs.v ===== *)
(** * What a maker quote's evaluation says

    Every scenario row is explained by the books and the maker fee of the
    recorder, the expectations are the weighted sums of the rows, and a
    qualified candidate keeps its inventory within the limit in every scenario
    and captures more than its minimum on average. *)

From S2P Require Import Prelude GoStd GoText GoTime Externals EconomicId ProjectionPayload TextProofs PredictionReplay PredictionSweep.
From S2P Require Import PredictionReplayProofs MakerQuote.
From Stdlib Require Import Qminmax.
Import MakerQuote.

Local Open Scope go_scope.

Section rows.
Context {E : Externals} {L : ExternalLaws}.
Local Open Scope Q_scope.

(** [1] for a quote that buys, [-1] for one that sells. *)
Definition direction (side : Side) : Q := match side with SideBuy => 1 | _ => -1 end.

(** One scenario, as a number of contracts and of cash. *)
Record scenario_explained (recorder : Recorder) (input : Input) (venue : string) (queueAhead : Q) (value : ScenarioInput)
    (row : scenarioCanonical) : Prop := {
  se_key : row.(sc_Key) = value.(si_Key);
  se_weight : row.(sc_Weight) = value.(si_Weight) /\ 0 < num row.(sc_Weight);
  se_mark : exists markBook bid bids ask asks,
    BookAt (Some recorder) value.(si_HorizonAt) (TrimSpace input.(in_MarketID)) input.(in_OutcomeID) = Ok markBook /\
    markBook.(br_Bids) = bid :: bids /\ markBook.(br_Asks) = ask :: asks /\
    row.(sc_MarkBookSourceKey) = markBook.(br_SourceKey) /\
    Qabs (num row.(sc_MarkPrice) - (num bid.(blr_Price) + num ask.(blr_Price)) / 2) <= half_digit;
  se_fill : num row.(sc_FilledQuantity) == Qmin (Qmax (num value.(si_QueueOutflow) - queueAhead) 0) (num input.(in_QuoteQuantity));
  se_residual : num row.(sc_ResidualQuantity) == num input.(in_QuoteQuantity) - num row.(sc_FilledQuantity);
  se_inventory : num row.(sc_PostFillInventory) ==
    num input.(in_StartingInventory) + direction input.(in_Side) * num row.(sc_FilledQuantity);
  se_gross : num row.(sc_GrossCapture) ==
    direction input.(in_Side) * (num row.(sc_MarkPrice) - num input.(in_QuotePrice)) * num row.(sc_FilledQuantity);
  se_fee : (num row.(sc_FilledQuantity) == 0 /\ num row.(sc_MakerFee) == 0) \/
    exists fee, MakerFeeAt (Some recorder) input.(in_DecisionAt) input.(in_OutcomeID) venue input.(in_QuotePrice)
      row.(sc_FilledQuantity) = Ok fee /\ num row.(sc_MakerFee) == num fee.(fr_Amount);
  se_cost : exists hours,
    Qabs (hours - inject_Z (Microseconds (TimeSub value.(si_HorizonAt) input.(in_DecisionAt))) / 3600000000) <= half_digit /\
    num row.(sc_InventoryCost) ==
      Qabs (num row.(sc_PostFillInventory)) * num input.(in_QuotePrice) * num input.(in_HourlyInventoryCostRate) * hours;
  se_net : num row.(sc_NetCapture) == num row.(sc_GrossCapture) - num row.(sc_MakerFee) - num row.(sc_InventoryCost);
}.

Lemma exactDecimal_text s d : exactDecimal s = Some d -> s = DecimalString d /\ num s == val d.
Proof.
  unfold exactDecimal. destruct (NewFromString s) as [p|] eqn:Hp; [|done]. destruct (_ || _)%bool eqn:Hc; [done|].
  intros [= ->]. split_bools. subst s. split; [done|]. apply num_text.
Qed.

(** The decimals of an accepted input. *)
Record input_numbers (input : Input) (p : parsedInput) : Prop := {
  in_price : input.(in_QuotePrice) = DecimalString p.(p_quotePrice) /\ 0 < val p.(p_quotePrice) < 1;
  in_quantity : input.(in_QuoteQuantity) = DecimalString p.(p_quantity) /\ 0 < val p.(p_quantity);
  in_prior : input.(in_PriorQueue) = DecimalString p.(p_priorQueue) /\ 0 <= val p.(p_priorQueue);
  in_start : input.(in_StartingInventory) = DecimalString p.(p_startingInventory);
  in_limit : input.(in_InventoryLimit) = DecimalString p.(p_inventoryLimit) /\ 0 < val p.(p_inventoryLimit);
  in_rate : input.(in_HourlyInventoryCostRate) = DecimalString p.(p_hourlyRate) /\ 0 <= val p.(p_hourlyRate);
  in_minimum : input.(in_MinimumExpectedNet) = DecimalString p.(p_minimum) /\ 0 <= val p.(p_minimum);
}.

Lemma parse_input_numbers input p : parse_input input = Some p -> input_numbers input p.
Proof.
  unfold parse_input. intros Hp.
  destruct (exactDecimal (in_QuotePrice input)) eqn:H1; [|done]. destruct (exactDecimal (in_QuoteQuantity input)) eqn:H2; [|done].
  destruct (exactDecimal (in_PriorQueue input)) eqn:H3; [|done]. destruct (exactDecimal (in_StartingInventory input)) eqn:H4; [|done].
  destruct (exactDecimal (in_InventoryLimit input)) eqn:H5; [|done].
  destruct (exactDecimal (in_HourlyInventoryCostRate input)) eqn:H6; [|done].
  destruct (exactDecimal (in_MinimumExpectedNet input)) eqn:H7; [|done].
  destruct (_ || _)%bool eqn:Hc; [done|]. injection Hp as <-. split_bools. dec_bools. rewrite val_Zero in *.
  match goal with H : val _ < val one |- _ => rewrite val_one in H end.
  apply exactDecimal_text in H1 as [? _], H2 as [? _], H3 as [? _], H4 as [? _], H5 as [? _], H6 as [? _], H7 as [? _].
  split; cbn; try done.
Qed.

(** A parsed scenario and its input. *)
Record scenario_parsed (decisionAt : Time) (value : parsedScenario) : Prop := {
  sp_weight : value.(ps_input).(si_Weight) = DecimalString value.(ps_weight) /\ 0 < val value.(ps_weight);
  sp_flow : value.(ps_input).(si_QueueOutflow) = DecimalString value.(ps_flow) /\ 0 <= val value.(ps_flow);
  sp_time : canonicalTime value.(ps_input).(si_HorizonAt) = true /\
    (decisionAt.(instant) < value.(ps_input).(si_HorizonAt).(instant))%Z;
}.

Definition trimmed_scenario (value : ScenarioInput) : ScenarioInput :=
  MkScenarioInput (TrimSpace value.(si_Key)) value.(si_Weight) value.(si_HorizonAt) value.(si_QueueOutflow).

Lemma parse_scenarios_spec decisionAt values : forall seen sum parsed total,
  parse_scenarios decisionAt values seen sum = Some (parsed, total) ->
  ps_input <$> parsed = trimmed_scenario <$> values /\ Forall (scenario_parsed decisionAt) parsed /\
  val total == val sum + sumQ (fun v => val v.(ps_weight)) parsed /\
  NoDup ((fun v => v.(ps_input).(si_Key)) <$> parsed) /\ (forall v, v ∈ parsed -> v.(ps_input).(si_Key) ∉ seen).
Proof.
  induction values as [|value values IH]; cbn [parse_scenarios]; intros seen sum parsed total Hp.
  { simplify_eq. split_and!; try done; [cbn; lra|constructor|]. intros v Hv. by apply elem_of_nil in Hv. }
  destruct (exactDecimal (si_Weight value)) as [weight|] eqn:Hw; [|done].
  destruct (exactDecimal (si_QueueOutflow value)) as [flow|] eqn:Hf; [|done].
  destruct (_ || _)%bool eqn:Hc; [done|].
  destruct (parse_scenarios decisionAt values _ _) as [[parsed' total']|] eqn:Hrest; [|done]. simplify_eq.
  apply IH in Hrest as (Hmap & Hall & Hsum & Hnd & Hfresh). split_bools. dec_bools. rewrite val_Zero in *.
  apply exactDecimal_text in Hw as [Hw _], Hf as [Hf _]. split_and!.
  - by rewrite !fmap_cons, Hmap.
  - constructor; [|done]. split; cbn; [done|done|]. split; [done|]. unfold After in *. lia.
  - rewrite Hsum, val_Add. cbn [sumQ ps_weight]. lra.
  - rewrite fmap_cons. constructor; [|done]. intros (v & Heq & Hv)%list_elem_of_fmap. apply (Hfresh v Hv). cbn in Heq. rewrite <- Heq. by left.
  - intros v Hv. apply elem_of_cons in Hv as [->|Hv]; [done|]. specialize (Hfresh v Hv). set_solver.
Qed.
End rows.

(** ** The scenario loop *)
Section loop.
Context {E : Externals} {L : ExternalLaws}.
Context (recorder : Recorder) (input : Input) (p : parsedInput) (venue : string) (queueAhead : dec).
Hypothesis Hinput : input_numbers input p.
Hypothesis Hside : input.(in_Side) = SideBuy \/ input.(in_Side) = SideSell.
Local Open Scope Q_scope.

Lemma val_Min_Qmin a b : val (Min a b) == Qmin (val a) (val b).
Proof.
  destruct (val_Min a b) as [[Hle ->]|[Hle ->]]; [by rewrite Q.min_l|by rewrite Q.min_r].
Qed.

Lemma val_Max_Qmax a b : val (Max a b) == Qmax (val a) (val b).
Proof.
  destruct (val_Max a b) as [[Hle ->]|[Hle ->]]; [by rewrite Q.max_l|by rewrite Q.max_r].
Qed.

Lemma val_IsZero d : IsZero d = true -> val d == 0.
Proof. apply IsZero_true. Qed.

Definition fill_of (value : parsedScenario) : dec := Min (Max (Sub value.(ps_flow) queueAhead) Zero) p.(p_quantity).

Lemma fill_num value : scenario_parsed input.(in_DecisionAt) value ->
  val (fill_of value) == Qmin (Qmax (num value.(ps_input).(si_QueueOutflow) - val queueAhead) 0) (num input.(in_QuoteQuantity)).
Proof.
  intros Hv. destruct (sp_flow _ _ Hv) as [-> _], (in_quantity _ _ Hinput) as [-> _].
  unfold fill_of. rewrite val_Min_Qmin, val_Max_Qmax, val_Sub, val_Zero, !num_text. done.
Qed.

(** The middle of a book is off the mean of its best prices by a digit. *)
Lemma book_middle_near book middle mark : book_middle book = Some middle -> middle = Ok mark -> exists bid bids ask asks,
  book.(br_Bids) = bid :: bids /\ book.(br_Asks) = ask :: asks /\
  Qabs (val mark - (num bid.(blr_Price) + num ask.(blr_Price)) / 2) <= half_digit.
Proof.
  unfold book_middle. destruct (br_Bids book) as [|bid bids]; [done|]. destruct (br_Asks book) as [|ask asks]; [done|].
  intros [= <-] Hm. inv_ok Hm. subst mark. exists bid, bids, ask, asks. split; [done|]. split; [done|].
  repeat match goal with H : RequireFromString _ = Ok _ |- _ => apply RequireFromString_num in H end.
  match goal with |- context [Div (Add ?a ?b) ?c] => pose proof (Div_half (Add a b) c) as Hd end.
  rewrite val_NewFromInt, val_Add in Hd. change (inject_Z 2) with 2 in Hd.
  assert (Hne : ~ 2 == 0) by lra. specialize (Hd Hne).
  match goal with H1 : num _ == val ?b, H2 : num _ == val ?a |- _ => rewrite H1, H2; exact Hd end.
Qed.

(** The row an iteration appends. *)
Definition last_row (sequence : nat) (value : parsedScenario) (sourceKey : string) (mark fill post gross fee : dec) : scenarioCanonical :=
  let cost := Mul (Mul (Mul (Abs post) p.(p_quotePrice)) p.(p_hourlyRate)) (holding_hours input value.(ps_input).(si_HorizonAt)) in
  MkScenario sequence value.(ps_input).(si_Key) (DecimalString value.(ps_weight)) (formatTime value.(ps_input).(si_HorizonAt))
    (DecimalString value.(ps_flow)) sourceKey (DecimalString mark) (DecimalString fill) (DecimalString (Sub p.(p_quantity) fill))
    (DecimalString post) (DecimalString gross) (DecimalString fee) (DecimalString cost) (DecimalString (Sub (Sub gross fee) cost)).

Lemma last_row_explained sequence value markBook middle mark fill post gross fee :
  scenario_parsed input.(in_DecisionAt) value ->
  BookAt (Some recorder) value.(ps_input).(si_HorizonAt) (TrimSpace input.(in_MarketID)) input.(in_OutcomeID) = Ok markBook ->
  book_middle markBook = Some middle -> middle = Ok mark -> fill = fill_of value ->
  val post == val p.(p_startingInventory) + direction input.(in_Side) * val fill ->
  val gross == direction input.(in_Side) * (val mark - val p.(p_quotePrice)) * val fill ->
  (val fill == 0 /\ val fee == 0) \/
  (exists result, MakerFeeAt (Some recorder) input.(in_DecisionAt) input.(in_OutcomeID) venue input.(in_QuotePrice) (DecimalString fill) =
     Ok result /\ val fee == num result.(fr_Amount)) ->
  scenario_explained recorder input venue (val queueAhead) value.(ps_input)
    (last_row sequence value markBook.(br_SourceKey) mark fill post gross fee).
Proof.
  intros Hv Hbook Hmid Hmark Hfill Hpost Hgross Hfee. destruct (book_middle_near _ _ _ Hmid Hmark) as (bid & bids & ask & asks & Hb & Ha & Hnear).
  destruct (in_price _ _ Hinput) as [Hp _], (in_quantity _ _ Hinput) as [Hq _], (in_rate _ _ Hinput) as [Hr _].
  pose proof (in_start _ _ Hinput) as Hs. destruct (sp_weight _ _ Hv) as [Hw Hwpos].
  unfold last_row. split; cbn [sc_Key sc_Weight sc_MarkBookSourceKey sc_MarkPrice sc_FilledQuantity sc_ResidualQuantity
    sc_PostFillInventory sc_GrossCapture sc_MakerFee sc_InventoryCost sc_NetCapture].
  - done.
  - split; [done|]. by rewrite num_text.
  - exists markBook, bid, bids, ask, asks. split_and!; try done. by rewrite num_text.
  - rewrite num_text, Hfill. by apply fill_num.
  - by rewrite Hq, !num_text, val_Sub.
  - by rewrite Hs, !num_text.
  - by rewrite Hp, !num_text.
  - destruct Hfee as [[Hf0 Hf1]|(result & Hres & Hf)]; [left; by rewrite !num_text|right]. exists result. by rewrite num_text.
  - exists (val (holding_hours input (si_HorizonAt (ps_input value)))). split.
    + unfold holding_hours. set (b := NewFromInt 3600000000). set (a := NewFromInt (Microseconds _)).
      assert (Hb' : val b == 3600000000) by (unfold b; by rewrite val_NewFromInt).
      assert (Ha' : val a == inject_Z (Microseconds (TimeSub (si_HorizonAt (ps_input value)) (in_DecisionAt input))))
        by (unfold a; by rewrite val_NewFromInt).
      pose proof (Div_half a b) as Hd. rewrite Ha', Hb' in Hd. apply Hd. lra.
    + by rewrite Hp, Hr, !num_text, !val_Mul, val_Abs.
  - by rewrite !num_text, !val_Sub.
Qed.
#[local] Instance Qeq_decision (x y : Q) : Decision (x == y) := Qeq_dec x y.

(** The rows of a loop, and what the loop adds to its variables. *)
Record loop_adds (values : list parsedScenario) (s s' : loopState) (rows : list scenarioCanonical) : Prop := {
  la_rows : s'.(ls_rows) = s.(ls_rows) ++ rows;
  la_explained : Forall2 (fun value => scenario_explained recorder input venue (val queueAhead) value.(ps_input)) values rows;
  la_gross : val s'.(ls_gross) == val s.(ls_gross) + sumQ (fun r => num r.(sc_Weight) * num r.(sc_GrossCapture)) rows;
  la_fee : val s'.(ls_fee) == val s.(ls_fee) + sumQ (fun r => num r.(sc_Weight) * num r.(sc_MakerFee)) rows;
  la_inventory : val s'.(ls_inventory) == val s.(ls_inventory) + sumQ (fun r => num r.(sc_Weight) * num r.(sc_InventoryCost)) rows;
  la_net : val s'.(ls_net) == val s.(ls_net) + sumQ (fun r => num r.(sc_Weight) * num r.(sc_NetCapture)) rows;
  la_count : (s'.(ls_count) = s.(ls_count) + length (filter (fun r => ~ num r.(sc_FilledQuantity) == 0) rows))%nat;
  la_exceeded : s'.(ls_exceeded) = false -> s.(ls_exceeded) = false /\
    Forall (fun r => Qabs (num r.(sc_PostFillInventory)) <= num input.(in_InventoryLimit)) rows;
}.

Lemma add_row_adds values rows s s' n value sourceKey mark fill post gross fee k :
  scenario_explained recorder input venue (val queueAhead) value.(ps_input) (last_row n value sourceKey mark fill post gross fee) ->
  s.(ls_rows) = k.(ls_rows) -> s.(ls_gross) = k.(ls_gross) -> s.(ls_fee) = k.(ls_fee) -> s.(ls_inventory) = k.(ls_inventory) ->
  s.(ls_net) = k.(ls_net) -> s.(ls_exceeded) = k.(ls_exceeded) ->
  s.(ls_count) = (k.(ls_count) + if decide (val fill == 0) then 0 else 1)%nat ->
  loop_adds values (add_row input p n value sourceKey mark fill post gross fee s) s' rows ->
  loop_adds (value :: values) k s' (last_row n value sourceKey mark fill post gross fee :: rows).
Proof.
  intros Hrow H1 H2 H3 H4 H5 H6 H7 [L1 L2 L3 L4 L5 L6 L7 L8]. unfold add_row in *. cbn [ls_rows ls_count ls_gross ls_fee ls_inventory ls_net ls_exceeded] in *.
  split.
  - by rewrite L1, <- app_assoc, H1.
  - by constructor.
  - rewrite L3, val_Add, val_Mul, H2. cbn [sumQ last_row sc_Weight sc_GrossCapture]. rewrite !num_text. lra.
  - rewrite L4, val_Add, val_Mul, H3. cbn [sumQ last_row sc_Weight sc_MakerFee]. rewrite !num_text. lra.
  - rewrite L5, val_Add, val_Mul, H4. cbn [sumQ last_row sc_Weight sc_InventoryCost]. rewrite !num_text. lra.
  - rewrite L6, val_Add, val_Mul, H5. cbn [sumQ last_row sc_Weight sc_NetCapture]. rewrite !num_text. lra.
  - rewrite L7, H7, filter_cons. cbn [last_row sc_FilledQuantity].
    destruct (decide (val fill == 0)) as [Hz|Hz], (decide (~ num (DecimalString fill) == 0)) as [Hd|Hd]; cbn [length].
    + destruct Hd. by rewrite num_text.
    + lia.
    + lia.
    + destruct Hd. by rewrite num_text.
  - intros Hex. destruct (L8 Hex) as [Hex' Hall]. apply orb_false_iff in Hex' as [Hs Hg]. split; [by rewrite <- H6|].
    constructor; [|done]. cbn [last_row sc_PostFillInventory]. apply GreaterThan_false in Hg.
    destruct (in_limit _ _ Hinput) as [-> _]. rewrite !num_text. by rewrite val_Abs in Hg.
Qed.

Lemma fill_effect_direction start mark price fill post gross : fill_effect input.(in_Side) start mark price fill = (post, gross) ->
  val post == val start + direction input.(in_Side) * val fill /\
  val gross == direction input.(in_Side) * (val mark - val price) * val fill.
Proof.
  unfold fill_effect. destruct Hside as [-> | ->]; cbn [direction].
  - change (SideBuy ==? SideBuy) with true. cbv iota. intros [= <- <-]. rewrite val_Add, val_Mul, val_Sub. split; lra.
  - change (SideSell ==? SideBuy) with false. cbv iota. intros [= <- <-]. rewrite val_Sub, val_Mul, val_Sub. split; lra.
Qed.

Lemma fill_fee_result fill fee : fill_fee recorder input venue p.(p_quotePrice) fill = Ok (Some fee) ->
  exists result, MakerFeeAt (Some recorder) input.(in_DecisionAt) input.(in_OutcomeID) venue input.(in_QuotePrice) (DecimalString fill) =
    Ok result /\ val fee == num result.(fr_Amount).
Proof.
  unfold fill_fee. destruct (in_price _ _ Hinput) as [-> _]. destruct (MakerFeeAt _ _ _ _ _ _) as [result| |]; [|done|done].
  intros Hf. inv_ok Hf. injection Hf as <-. exists result. split; [done|]. symmetry. by apply RequireFromString_num.
Qed.

Lemma scenario_loop_adds values : Forall (scenario_parsed input.(in_DecisionAt)) values -> forall n s s',
  scenario_loop recorder input p venue queueAhead n values s = Ok (Completed s') -> exists rows, loop_adds values s s' rows.
Proof.
  induction 1 as [|value values Hv _ IH]; cbn [scenario_loop]; intros n s s' Hl.
  { injection Hl as <-. exists []. split; cbn [sumQ]; try lra.
    - by rewrite app_nil_r.
    - constructor.
    - change (length (filter (fun r => ~ num (sc_FilledQuantity r) == 0) [])) with 0%nat. lia.
    - intros Hex. by split; [|constructor]. }
  destruct (BookAt _ _ _ _) as [markBook| |] eqn:Hbook; [|done|done].
  destruct (book_middle markBook) as [middle|] eqn:Hmid; [|done]. inv_ok Hl. rename x into mark.
  change (Min (Max (Sub (ps_flow value) queueAhead) Zero) (p_quantity p)) with (fill_of value) in Hl.
  destruct (IsZero (fill_of value)) eqn:Hz.
  - apply val_IsZero in Hz. destruct (IH _ _ _ Hl) as (rows & Hadds). eexists.
    eapply (add_row_adds _ _ _ _ _ _ _ _ _ _ _ _ s); [|done|done|done|done|done|done| |exact Hadds].
    + eapply last_row_explained; try done; [rewrite Hz; lra|rewrite Hz, val_Zero; lra|left; by rewrite val_Zero].
    + rewrite decide_True by done. lia.
  - apply IsZero_false in Hz. destruct (fill_effect _ _ _ _ _) as [post gross] eqn:Heff. inv_ok Hl. rename x into result.
    destruct result as [fee|]; [|done]. destruct (IH _ _ _ Hl) as (rows & Hadds). eexists.
    destruct (fill_effect_direction _ _ _ _ _ _ Heff) as [Hpost Hgross].
    eapply (add_row_adds _ _ (counted s) _ _ _ _ _ _ _ _ _ s); [|done|done|done|done|done|done| |exact Hadds].
    + eapply last_row_explained; try done. right. by apply fill_fee_result.
    + rewrite decide_False by done. cbn [counted ls_count]. lia.
Qed.
End loop.

(** ** The candidate *)
Section candidate.
Context {E : Externals} {L : ExternalLaws}.
Local Open Scope Q_scope.
#[local] Existing Instance Qeq_decision.

(** The evaluation reached the end of the scenarios. *)
Record evaluated (input : Input) (recorder : Recorder) (p : parsedInput) (c : candidateCanonical) : Prop := {
  ev_quote : exists book inside, BookAt (Some recorder) input.(in_DecisionAt) (TrimSpace input.(in_MarketID)) input.(in_OutcomeID) = Ok book /\
    inside_level input.(in_Side) book = Some inside /\ inside.(blr_Price) = input.(in_QuotePrice) /\
    c.(mc_Venue) = book.(br_Venue) /\ c.(mc_QuoteBookSourceKey) = book.(br_SourceKey) /\
    num c.(mc_QueueAhead) == num inside.(blr_Size) + num input.(in_PriorQueue);
  ev_scenarios : exists values, values ≡ₚ trimmed_scenario <$> input.(in_Scenarios) /\ NoDup (si_Key <$> values) /\
    Forall2 (scenario_explained recorder input c.(mc_Venue) (num c.(mc_QueueAhead))) values c.(mc_Scenarios);
  ev_weights : sumQ (fun r => num r.(sc_Weight)) c.(mc_Scenarios) == 1;
  ev_gross : num c.(mc_ExpectedGrossCapture) == sumQ (fun r => num r.(sc_Weight) * num r.(sc_GrossCapture)) c.(mc_Scenarios);
  ev_fee : num c.(mc_ExpectedMakerFee) == sumQ (fun r => num r.(sc_Weight) * num r.(sc_MakerFee)) c.(mc_Scenarios);
  ev_inventory : num c.(mc_ExpectedInventoryCost) == sumQ (fun r => num r.(sc_Weight) * num r.(sc_InventoryCost)) c.(mc_Scenarios);
  ev_net : num c.(mc_ExpectedNetCapture) == sumQ (fun r => num r.(sc_Weight) * num r.(sc_NetCapture)) c.(mc_Scenarios);
  ev_count : c.(mc_FilledScenarioCount) = length (filter (fun r => ~ num r.(sc_FilledQuantity) == 0) c.(mc_Scenarios));
}.

Lemma explained_proper recorder input venue a b value row : a == b ->
  scenario_explained recorder input venue a value row -> scenario_explained recorder input venue b value row.
Proof. intros Hab [H1 H2 H3 H4 H5 H6 H7 H8 H9 H10]. split; try done. by rewrite H4, Hab. Qed.

Lemma evaluate_inside_cases recorder input p book inside c :
  input_numbers input p -> input.(in_Side) = SideBuy \/ input.(in_Side) = SideSell ->
  BookAt (Some recorder) input.(in_DecisionAt) (TrimSpace input.(in_MarketID)) input.(in_OutcomeID) = Ok book ->
  inside_level input.(in_Side) book = Some inside -> inside.(blr_Price) = input.(in_QuotePrice) ->
  evaluate_inside recorder input p book inside = Ok c ->
  (c.(mc_State) = "rejected") \/
  (evaluated input recorder p c /\ c.(mc_FilledScenarioCount) <> 0%nat /\
   Forall (fun r => Qabs (num r.(sc_PostFillInventory)) <= num input.(in_InventoryLimit)) c.(mc_Scenarios) /\
   0 < num c.(mc_ExpectedNetCapture) /\ num input.(in_MinimumExpectedNet) < num c.(mc_ExpectedNetCapture)).
Proof.
  intros Hin Hside Hbook Hinside Hprice. unfold evaluate_inside. intros He. inv_ok He. rename x into displayed.
  destruct (parse_scenarios _ _ _ _) as [[parsed total]|] eqn:Hp; [|left; by injection He as <-].
  destruct (Equal total one) eqn:Htotal; [|left; by injection He as <-]. cbn [negb] in He. inv_ok He.
  destruct x as [reason s|s]; [left; by injection He as <-|].
  apply parse_scenarios_spec in Hp as (Hmap & Hall & Hsum & Hnd & _). pose proof (sort_slice_perm scenarioLess parsed) as Hperm.
  match goal with H : scenario_loop _ _ _ _ _ _ _ _ = Ok _ |- _ => apply scenario_loop_adds in H as (rows & Hadds); [|done|done|by rewrite Hperm] end.
  match goal with H : RequireFromString _ = Ok _ |- _ => apply RequireFromString_num in H as Hdisp end.
  destruct (verdict p s) as [state reason] eqn:Hv. injection He as <-. cbn [with_verdict mc_State]. unfold verdict in Hv.
  destruct (ls_count s =? 0)%nat eqn:Hcount; [left; cbn; congruence|]. destruct (ls_exceeded s) eqn:Hex; [left; cbn; congruence|].
  destruct (negb _ || negb _)%bool eqn:Hnet; [left; cbn; congruence|right]. split_bools. dec_bools. rewrite val_Zero in *.
  destruct Hadds as [L1 L2 L3 L4 L5 L6 L7 L8]. cbn [ls_rows initial_state app ls_gross ls_fee ls_inventory ls_net ls_count] in *.
  rewrite val_Zero in *. destruct (L8 Hex) as [_ Hlimit]. apply Nat.eqb_neq in Hcount.
  destruct (in_prior _ _ Hin) as [Hprior _], (in_minimum _ _ Hin) as [Hmin _].
  assert (Hqueue : val (Add displayed (p_priorQueue p)) == num (DecimalString (Add displayed (p_priorQueue p)))) by (by rewrite num_text).
  cbn [with_verdict with_expected with_rows with_quote mc_FilledScenarioCount mc_Scenarios mc_ExpectedNetCapture]. rewrite L1.
  split; [|split_and!; [done|done|rewrite num_text; lra|rewrite Hmin, !num_text; lra]].
  split; cbn [with_verdict with_expected with_rows with_quote mc_Venue mc_QuoteBookSourceKey mc_QueueAhead mc_Scenarios mc_ExpectedGrossCapture
    mc_ExpectedMakerFee mc_ExpectedInventoryCost mc_ExpectedNetCapture mc_FilledScenarioCount]; rewrite ?L1, ?num_text, ?L3, ?L4, ?L5, ?L6; try lra.
  - exists book, inside. split_and!; try done. rewrite num_text, val_Add, Hdisp, Hprior, num_text. lra.
  - exists (ps_input <$> sort_slice scenarioLess parsed). split_and!.
    + by rewrite Hperm, Hmap.
    + rewrite <- list_fmap_compose, Hperm. done.
    + apply Forall2_fmap_l. eapply Forall2_impl; [exact L2|]. intros value row. cbn. by apply explained_proper.
  - rewrite val_one, Hsum, Qplus_0_l in Htotal. rewrite <- Htotal.
    rewrite <- (sumQ_perm _ _ _ Hperm). assert (Hw : Forall (scenario_parsed (in_DecisionAt input)) (sort_slice scenarioLess parsed)) by by rewrite Hperm.
    clear - L L2 Hw. induction L2 as [|value row values rows Hrow _ IH]; [done|]. cbn [sumQ]. apply Forall_cons in Hw as [Hval Hw].
    rewrite (IH Hw). destruct (se_weight _ _ _ _ _ _ Hrow) as [Hw1 _], (sp_weight _ _ Hval) as [Hw2 _]. rewrite Hw1, Hw2, num_text. done.
  - lia.
Qed.

(** C17: A qualified maker quote is explained by the recorder. Its price is the
    inside of the book at the decision and the queue ahead is the displayed size
    plus the declared one; every scenario, each key once, fills exactly what the
    outflow leaves behind that queue, is marked at the middle of the book at its
    horizon, and is charged the recorder's maker fee and the inventory cost; the
    weights add up to one and the expectations are the weighted sums. In every
    scenario the fill is at most the quote and the inventory stays within the
    limit, some scenario fills, and the expected net capture is gross less fee
    less inventory cost, positive, and above the minimum asked for. *)
Theorem quote_qualified input c : NewCandidate input = Ok c -> Qualified (Some c) = true ->
  exists recorder p, input.(in_Recorder) = Some recorder /\ evaluated input recorder p c.(cand_canonical) /\
    let rows := c.(cand_canonical).(mc_Scenarios) in
    (exists r, r ∈ rows /\ 0 < num r.(sc_FilledQuantity)) /\
    Forall (fun r => 0 <= num r.(sc_FilledQuantity) <= num input.(in_QuoteQuantity) /\
                     Qabs (num r.(sc_PostFillInventory)) <= num input.(in_InventoryLimit)) rows /\
    num c.(cand_canonical).(mc_ExpectedNetCapture) ==
      num c.(cand_canonical).(mc_ExpectedGrossCapture) - num c.(cand_canonical).(mc_ExpectedMakerFee) -
      num c.(cand_canonical).(mc_ExpectedInventoryCost) /\
    0 < num c.(cand_canonical).(mc_ExpectedNetCapture) /\
    num input.(in_MinimumExpectedNet) < num c.(cand_canonical).(mc_ExpectedNetCapture).
Proof.
  unfold NewCandidate, Qualified. intros Hn Hq. apply bool_decide_eq_true in Hq.
  destruct (in_Recorder input) as [recorder|]; [|done]. inv_ok Hn.
  destruct (parse_input input) as [p|] eqn:Hp; [|done]. apply parse_input_numbers in Hp as Hin.
  destruct (BookAt _ _ _ _) as [book| |] eqn:Hbook; [|by injection Hn as <-|done].
  destruct (inside_level _ book) as [inside|] eqn:Hinside; [|by injection Hn as <-].
  destruct (bool_decide (blr_Price inside = DecimalString (p_quotePrice p))) eqn:Hprice; cbn [negb] in Hn; [|by injection Hn as <-].
  inv_ok Hn. injection Hn as <-. match goal with H : evaluate_inside _ _ _ _ _ = Ok ?k |- _ => rename k into canonical end.
  cbn [cand_canonical] in *. split_bools.
  assert (Hside : in_Side input = SideBuy \/ in_Side input = SideSell).
  { match goal with H : (_ && _)%bool = false |- _ => apply andb_false_iff in H; rewrite !negb_false_iff, !bool_decide_eq_true in H; exact H end. }
  destruct (in_price _ _ Hin) as [Hpt _]. rewrite <- Hpt in Hprice.
  match goal with H : evaluate_inside _ _ _ _ _ = Ok _ |- _ =>
    destruct (evaluate_inside_cases _ _ _ _ _ _ Hin Hside Hbook Hinside Hprice H) as [Hrej|(Hev & Hcount & Hlimit & Hnet & Hmin)];
    [by rewrite Hrej in Hq|] end.
  exists recorder, p. split; [done|]. split; [done|]. cbv zeta.
  destruct (ev_scenarios _ _ _ _ Hev) as (values & _ & _ & HF). destruct (in_quantity _ _ Hin) as [Hqt Hqpos].
  assert (Hfills : forall r, r ∈ mc_Scenarios canonical -> 0 <= num r.(sc_FilledQuantity) <= num input.(in_QuoteQuantity)).
  { intros r [i Hi]%list_elem_of_lookup. destruct (Forall2_lookup_r _ _ _ _ _ HF Hi) as (v & _ & Hr).
    rewrite (se_fill _ _ _ _ _ _ Hr). assert (0 < num (in_QuoteQuantity input)) by (by rewrite Hqt, num_text).
    split; [apply Q.min_glb; [apply Q.le_max_r|lra]|apply Q.le_min_r]. }
  split_and!; [| | |done|done].
  - rewrite (ev_count _ _ _ _ Hev) in Hcount.
    destruct (filter (fun r => ~ num (sc_FilledQuantity r) == 0) (mc_Scenarios canonical)) as [|r rs] eqn:Hfil; [done|].
    assert (Hr : r ∈ filter (fun r => ~ num (sc_FilledQuantity r) == 0) (mc_Scenarios canonical)) by (rewrite Hfil; by left).
    apply list_elem_of_filter in Hr as [Hne Hr]. exists r. split; [done|]. destruct (Hfills r Hr) as [Hpos0 _].
    apply Qle_lt_or_eq in Hpos0 as [?|Hpos0]; [done|]. destruct Hne. by symmetry.
  - rewrite Forall_forall in *. intros r Hr. split; [by apply Hfills|by apply Hlimit].
  - rewrite (ev_net _ _ _ _ Hev), (ev_gross _ _ _ _ Hev), (ev_fee _ _ _ _ Hev), (ev_inventory _ _ _ _ Hev).
    clear - HF. induction HF as [|v r vs rs Hr _ IH]; cbn [sumQ]; [lra|]. rewrite IH, (se_net _ _ _ _ _ _ Hr). lra.
Qed.

(** C19: A candidate that records no scenario (one rejected because its quote is
    not at the inside of the book, because the recorder has no book, or because
    the first scenario is invalid) cannot be restored from its own canonical
    bytes: the rebuilt input has no scenarios and is refused. *)
Theorem rejected_quote_not_restored decode input c rest : NewCandidate input = Ok c -> c.(cand_canonical).(mc_Scenarios) = [] ->
  decode c.(cand_bytes) = Some (c.(cand_canonical), rest) ->
  forall c', FromCanonical decode c.(cand_id) c.(cand_digest) c.(cand_bytes) input.(in_Recorder) <> Ok c'.
Proof.
  intros Hn Hs Hd c'. unfold FromCanonical, decodeExact. destruct (in_Recorder input) as [r|]; [|done]. rewrite Hd.
  destruct (json_eof rest); [|done]. intros Hc. inv_ok Hc. unfold canonicalInput in *. rewrite Hs in *.
  destruct (uuid_parse _) as [u|]; [|done]. destruct (parse_micro _) as [t|]; [|done]. cbn [map_outcome] in *.
  match goal with H : Ok [] ≫= _ = Ok _ |- _ => cbn in H; injection H as <- end.
  unfold NewCandidate in Hc. cbn [in_Recorder in_Scenarios length Nat.eqb] in Hc. rewrite orb_true_r in Hc. done.
Qed.
End candidate.
