(* ===== verification/Scenario.v ===== *)
(** * A worked session

    One paper account buys ten shares of an ETF in two fills, sells six, and is
    marked to market. Every record is built by the program's own constructors
    on the concrete instances of the external code; the witnesses of the
    properties are stated on these values. *)

From S2P Require Import Prelude GoStd Externals Instances EconomicId Account Instrument Transaction SourceEvent.
From S2P Require Import Normalization Projection ProjectionPayload Snapshot Lifecycle LifecycleAggregate.

Local Open Scope go_scope.

(** The value of a successful outcome, evaluated. *)
Ltac built_by m :=
  let r := eval vm_compute in m in
  lazymatch r with Ok ?v => exact v end.

(** An equation checked by evaluating both sides. *)
Ltac evaluate := lazymatch goal with |- _ = ?b => vm_cast_no_check (eq_refl b) end.

(** 2026-03-02T14:30:00Z plus [s] seconds. *)
Definition clock (s : Z) : Time := MkTime ((63908058600 + s) * 10 ^ 9) true.
Definition id (n : N) : UUID := of_bytes (repeat (byte_of 0) 15 ++ [byte_of n]).
Definition amount (c : Z) (places : Z) : dec := New c (- places).
Definition units (n : Z) : dec := NewFromInt n.

(** ** Reference data *)

Definition account_input (environment : AccountEnvironment) (namespace : string) : AccountInput := {|
  acctin_Name := "core"; acctin_Environment := environment; acctin_Venue := "XPaper";
  acctin_ExternalAccountID := ""; acctin_BaseCurrency := "usd"; acctin_StorageNamespace := namespace;
  acctin_StartingCapital := units 25000; acctin_BuyingPowerMultiplier := units 1;
  acctin_MarginProfile := MarginProfileCash; acctin_CreatedBy := "operator"; acctin_CreationMetadata := "";
  acctin_CreatedAt := clock 0 |}.

Definition account : Account.
Proof. built_by (NewAccount (id 1) (clock 0) (account_input AccountEnvironmentPaperScored "paper_scored/core")). Defined.

Definition stress_account : Account.
Proof. built_by (NewAccount (id 2) (clock 0) (account_input AccountEnvironmentPaperStress "paper_stress/core")). Defined.

Definition etf : Instrument.
Proof.
  built_by (NewInstrument (id 3) (clock 0) {|
    instin_IdentityKey := "us:etf:spy"; instin_AssetClass := AssetClassETF; instin_PrimaryVenue := "xpaper";
    instin_Currency := "USD"; instin_TickSize := amount 1 2; instin_LotSize := units 1; instin_Multiplier := units 1;
    instin_Expiration := None; instin_ExerciseStyle := ExerciseOther ""; instin_SettlementMethod := SettlementPhysical;
    instin_UnderlyingID := None; instin_Status := StatusActive; instin_Metadata := ""; instin_CreatedAt := clock 0 |}).
Defined.

Definition contract : VenueContract.
Proof.
  built_by (NewVenueContract (id 4) (clock 0) {|
    vcin_InstrumentID := id 3; vcin_Venue := "xpaper"; vcin_ContractID := "SPY"; vcin_Currency := "USD";
    vcin_TickSize := amount 1 2; vcin_LotSize := units 1; vcin_Multiplier := units 1;
    vcin_SettlementMethod := SettlementPhysical; vcin_ValidFrom := clock 0; vcin_ValidTo := None;
    vcin_Metadata := ""; vcin_CreatedAt := clock 0 |}).
Defined.

Definition level (price size : Z) : DepthLevelInput := MkDepthLevelInput (amount price 2) (units size).

Definition quote : QuoteSnapshot.
Proof.
  built_by (NewQuoteSnapshot (id 5) (clock 10) {|
    snapin_InstrumentID := id 3; snapin_VenueContractID := Some (id 4); snapin_Provider := "feed";
    snapin_Venue := "xpaper"; snapin_Source := "sip"; snapin_ObservationNamespace := "nbbo";
    snapin_ObservationID := "q-1"; snapin_SourceRevision := ""; snapin_SourceSequence := Some 7%Z;
    snapin_ExchangeAt := Some (clock 9); snapin_ReceivedAt := clock 10; snapin_AvailableAt := Some (clock 11);
    snapin_Bid := Some (amount 5000 2); snapin_BidSize := Some (units 200);
    snapin_Ask := Some (amount 5002 2); snapin_AskSize := Some (units 300);
    snapin_Last := None; snapin_Mark := None; snapin_MarketStatus := "open"; snapin_SessionStatus := "regular";
    snapin_Bids := [level 5000 200; level 4999 500]; snapin_Asks := [level 5002 300; level 5003 100];
    snapin_Metadata := ""; snapin_CreatedAt := clock 10 |}).
Defined.

Definition requirements : QuoteRequirements :=
  MkQuoteRequirements true true true true true true true true ["open"] ["regular"] (60 * 10 ^ 9)%Z.

Definition assessment : QuoteAssessment.
Proof. built_by (AssessForExecution quote (clock 20) requirements etf contract). Defined.

(** ** The order lifecycle *)

Definition event (n : string) (at_ : Time) (payload : string) : EventInput := {|
  evin_Source := "venue"; evin_SourceNamespace := "xpaper"; evin_SourceEventID := n; evin_SourceRevision := "";
  evin_ObservationClass := ObservationOrdinary; evin_ObservationDiscriminator := ""; evin_SourceAt := at_;
  evin_ReceivedAt := at_; evin_Actor := "engine"; evin_ReasonCode := "session"; evin_Reason := "";
  evin_Evidence := payload; evin_OriginalFillID := None; evin_OriginalSourceEventID := "" |}.

Definition proposal : ProposeInput := {|
  prop_Account := account; prop_Instrument := etf; prop_DecisionSnapshot := quote; prop_IdempotencyKey := "decision-1";
  prop_DesiredQuantityDelta := units 12; prop_DecisionAt := clock 15; prop_OriginType := ExecutionOriginStrategyVersion;
  prop_OriginID := "trend-v3"; prop_StrategyVersionID := "trend-v3"; prop_Metadata := "{}";
  prop_Event := event "propose" (clock 15) "{}"; prop_CreatedAt := clock 15 |}.

Definition route : RouteInput := {|
  route_OrderIdempotencyKey := "order-1"; route_Instrument := etf; route_VenueContract := contract;
  route_RouteSnapshot := quote; route_QuoteRequirements := requirements; route_OrderType := OrderLimit;
  route_TimeInForce := TimeInForceDay; route_LimitPrice := Some (amount 5002 2); route_StopPrice := None;
  route_PolicyKind := PolicySimulation; route_PolicyVersion := "sim-v1"; route_Event := event "route" (clock 20) "{}";
  route_RoutedAt := clock 20; route_CreatedAt := clock 20 |}.

Definition proposed : Aggregate.
Proof. built_by (Propose (clock 15) proposal). Defined.
Definition t_allocate : Transition.
Proof. built_by (Allocate (clock 16) (Some proposed) (units 10) (event "allocate" (clock 16) "{}") (clock 16)). Defined.
Definition allocated : Aggregate.
Proof. built_by (ApplyTransition (Some proposed) (Some t_allocate)). Defined.
Definition t_approve : Transition.
Proof. built_by (ApproveRisk (clock 17) (Some allocated) (event "risk" (clock 17) "{}") (clock 17)). Defined.
Definition approved : Aggregate.
Proof. built_by (ApplyTransition (Some allocated) (Some t_approve)). Defined.
Definition t_route : Transition.
Proof. built_by (Route (clock 20) (Some approved) route). Defined.
Definition routed : Aggregate.
Proof. built_by (ApplyTransition (Some approved) (Some t_route)). Defined.
Definition t_acknowledge : Transition.
Proof. built_by (Acknowledge (clock 21) (Some routed) "X-77" (event "ack" (clock 21) "{}") (clock 21)). Defined.
Definition working : Aggregate.
Proof. built_by (ApplyTransition (Some routed) (Some t_acknowledge)). Defined.

(** ** Fills *)

Definition source (n : string) (at_ : Time) : EconomicSourceEvent.
Proof.
  refine (match NewEconomicSourceEvent at_ {|
    srcin_AccountID := account.(acct_ID); srcin_Source := "venue"; srcin_SourceNamespace := "xpaper";
    srcin_SourceEventID := n; srcin_SourceRevision := ""; srcin_ObservedAt := at_; srcin_RawPayload := "{}";
    srcin_CreatedAt := at_ |} with Ok e => e | _ => MkEconomicSourceEvent Nil Nil "" "" "" "" at_ "" "" at_ end).
Defined.

Definition fill_input (n : string) (at_ : Time) (fill_id : UUID) (side : FillSide) (quantity price : dec)
    (cost : option CostComponent) : FillEconomicEventInput := {|
  fillin_Base := {|
    base_SourceEvent := Some (source n at_); base_Account := Some account; base_NormalizerVersion := "v1";
    base_ExecutionOriginType := ExecutionOriginStrategyVersion; base_ExecutionOriginID := "trend-v3";
    base_ReferenceType := "execution_fill"; base_ReferenceID := uuid_string fill_id; base_EffectiveAt := at_ |};
  fillin_Instrument := etf; fillin_VenueContract := contract; fillin_Side := side; fillin_Quantity := quantity;
  fillin_Price := price; fillin_Cost := cost |}.

Definition order_id : UUID := match routed.(agg_Order) with Some o => o.(order_ID) | None => Nil end.
Definition fill_id (n : string) (at_ : Time) : UUID := FillID order_id (source n at_).(src_ID).
Definition fee (cents : Z) : option CostComponent := Some (MkCostComponent CostKindFee "USD" (amount cents 2)).

Definition first_fill_input : FillEconomicEventInput :=
  fill_input "fill-1" (clock 22) (fill_id "fill-1" (clock 22)) FillSideBuy (units 4) (amount 5001 2) (fee 100).
Definition first_fill : EconomicNormalization.
Proof. built_by (NewFillEconomicNormalization (clock 22) (clock 22) (clock 22) first_fill_input). Defined.
Definition second_fill : EconomicNormalization.
Proof.
  built_by (NewFillEconomicNormalization (clock 23) (clock 23) (clock 23)
    (fill_input "fill-2" (clock 23) (fill_id "fill-2" (clock 23)) FillSideBuy (units 6) (amount 5002 2) None)).
Defined.
Definition sale : EconomicNormalization.
Proof.
  built_by (NewFillEconomicNormalization (clock 40) (clock 40) (clock 40)
    (fill_input "fill-3" (clock 40) (id 9) FillSideSell (units 6) (amount 5100 2) (fee 50))).
Defined.

Definition record (n : EconomicNormalization) (name : string) (at_ : Time) : LifecycleAggregate.FillInput :=
  LifecycleAggregate.MkFillInput (Some n) "X-77" (event name at_ "{}") at_.

Definition t_first : Transition.
Proof. built_by (RecordFill (clock 22) (clock 22) (Some working) (record first_fill "fill-1" (clock 22))). Defined.
Definition partially : Aggregate.
Proof. built_by (ApplyTransition (Some working) (Some t_first)). Defined.
Definition t_second : Transition.
Proof. built_by (RecordFill (clock 23) (clock 23) (Some partially) (record second_fill "fill-2" (clock 23))). Defined.
Definition complete : Aggregate.
Proof. built_by (ApplyTransition (Some partially) (Some t_second)). Defined.

Definition session : list Transition := [t_allocate; t_approve; t_route; t_acknowledge; t_first; t_second].

Definition t_contradiction : Transition.
Proof.
  built_by (FailReconciliation (clock 50) (Some complete) EventContradictoryVenueState
    (event "contradiction" (clock 50) "{}") (clock 50)).
Defined.
Definition failed : Aggregate.
Proof. built_by (ApplyTransition (Some complete) (Some t_contradiction)). Defined.

(** ** The ledger and its projection *)

Definition deposit : Transaction.
Proof.
  built_by (NewTransaction (id 20) (fun n => id (21 + N.of_nat n)) (clock 1) {|
    txin_AccountID := account.(acct_ID); txin_EventType := "capital_flow.deposit"; txin_IdempotencyKey := "opening";
    txin_OriginType := "operator"; txin_OriginID := "treasury"; txin_ReferenceType := ""; txin_ReferenceID := "";
    txin_EffectiveAt := clock 1; txin_ObservedAt := clock 1; txin_Metadata := "";
    txin_Postings :=
      [MkPostingInput "cash" "asset:cash" UnitKindCurrency "USD" (units 10000) "{}";
       MkPostingInput "capital" "equity:capital" UnitKindCurrency "USD" (units (-10000)) "{}"] |}).
Defined.

Definition mechanics (n : EconomicNormalization) : outcome ProjectionMechanics :=
  ProjectionMechanicsFromNormalization (clock 60) (Some n).
Definition mechanics_first : ProjectionMechanics.
Proof. built_by (mechanics first_fill). Defined.
Definition mechanics_second : ProjectionMechanics.
Proof. built_by (mechanics second_fill). Defined.
Definition mechanics_sale : ProjectionMechanics.
Proof. built_by (mechanics sale). Defined.

Definition mark_at (n : string) (at_ : Time) (price : dec) : outcome MarkObservation :=
  NewMarkObservation at_ {|
    markin_InstrumentID := etf.(inst_ID); markin_Price := price; markin_PriceCurrency := "USD"; markin_Source := "feed";
    markin_SourceNamespace := "nbbo"; markin_SourceObservationID := n; markin_SourceRevision := "";
    markin_EffectiveAt := at_; markin_ObservedAt := at_; markin_Metadata := "" |}.
Definition early_mark : MarkObservation.
Proof. built_by (mark_at "m-1" (clock 30) (amount 5050 2)). Defined.
Definition close_mark : MarkObservation.
Proof. built_by (mark_at "m-2" (clock 55) (amount 5100 2)). Defined.
Definition future_mark : MarkObservation.
Proof. built_by (mark_at "m-3" (clock 90) (amount 4000 2)). Defined.

Definition request : ProjectionRequest :=
  MkProjectionRequest account.(acct_ID) (clock 60) "feed" "nbbo" (3600 * 10 ^ 9)%Z.

Definition ledger : list (option Transaction) :=
  [norm_Transaction sale; Some deposit; norm_Transaction second_fill; norm_Transaction first_fill].
Definition projection_input : ProjectionInput :=
  MkProjectionInput request "USD" ledger [mechanics_sale; mechanics_first; mechanics_second]
    [Some close_mark; Some early_mark].
Definition reordered_input : ProjectionInput :=
  MkProjectionInput request "USD" (rev ledger) [mechanics_first; mechanics_second; mechanics_sale]
    [Some early_mark; Some close_mark].

Definition projection : PortfolioProjection.
Proof. built_by (BuildPortfolioProjection projection_input). Defined.

(** What the session amounts to: 6 of 10 shares sold at 51.00, the first four
    bought at 50.01 and two of the next six at 50.02; four left, marked at
    51.00; fees of 1.50 in all. *)
Example session_totals :
  (fun t => (DecimalString t.(tot_Cash), DecimalString t.(tot_Fees), DecimalString t.(tot_MarketValue),
             DecimalString t.(tot_Equity))) projection.(proj_Totals) =
  ("9804.34", "1.5", "204", "10008.34").
Proof. evaluate. Qed.

Example session_states :
  agg_State <$> [proposed; allocated; approved; routed; working; partially; complete; failed] =
  [StateProposed; StateAllocated; StateRiskApproved; StateRouted; StateWorking; StatePartiallyFilled; StateFilled;
   StateFailedReconciliation].
Proof. evaluate. Qed.
