(* ===== verification/Witnesses.v ===== *)
(** * The properties at work

    Each property with hypotheses is applied to values of the worked session,
    where its hypotheses are evaluated. *)

From S2P Require Import Prelude GoStd Externals Instances EconomicId EconomicIdProofs Account AccountProofs Instrument.
From S2P Require Import Transaction SourceEvent Decimals TransactionProofs Normalization NormalizationProofs.
From S2P Require Import Projection ProjectionPayload ProjectionFifo ProjectionProofs ProjectionFinalize.
From S2P Require Import ProjectionSafety ProjectionTheorems JsonReader JsonInstances Checkpoint NormalizedReplay.
From S2P Require Import Snapshot SnapshotProofs Lifecycle LifecycleAggregate LifecycleProofs LifecycleTheorems LifecycleReplay LifecycleSafety.
From S2P Require Import Scenario.

Local Open Scope go_scope.
Local Open Scope Q_scope.

(** ** Portfolio projection *)

Lemma session_builds : BuildPortfolioProjection projection_input = Ok projection.
Proof. evaluate. Qed.

Lemma projection_accounting_witness :
  let totals := projection.(proj_Totals) in
  val totals.(tot_RealizedPnL) + val totals.(tot_UnrealizedPnL) ==
    val totals.(tot_Equity) - val totals.(tot_NetCapital).
Proof.
  destruct (projection_accounting projection_input projection session_builds) as (r & c & ts & _ & _ & H). apply H.
Defined.

Lemma projection_positions_witness :
  NoDup (pos_InstrumentID <$> projection.(proj_Positions)).
Proof.
  destruct (projection_positions projection_input projection session_builds) as (r & c & ts & ms & _ & _ & _ & H & _).
  exact H.
Defined.

Ltac value_of m := let r := eval vm_compute in m in lazymatch r with Some ?v => exact v end.

Definition first_transaction : Transaction.
Proof. value_of first_fill.(norm_Transaction). Defined.
Definition first_mechanics : gmap UUID ProjectionMechanics :=
  {[ first_transaction.(tx_ID) := mechanics_first ]}.
Definition after_first : projectionState.
Proof. built_by (replay "USD" first_mechanics [first_transaction] emptyState). Defined.

Lemma after_first_reached : replay "USD" first_mechanics [first_transaction] emptyState = Ok after_first.
Proof. evaluate. Qed.

Lemma finalize_succeeds_witness :
  exists r, finalize request "USD" [Some close_mark; Some early_mark] after_first = Ok r.
Proof.
  apply (finalize_succeeds "USD" first_mechanics [first_transaction]).
  - apply map_Forall_singleton. evaluate.
  - exact after_first_reached.
  - split.
    { intros c Hc. apply elem_of_cons in Hc as [->|Hc]; [exists close_mark; split; [reflexivity|evaluate]|].
      apply list_elem_of_singleton in Hc as ->. exists early_mark. split; [reflexivity|evaluate]. }
    intros i Hi. exists close_mark. split; [apply elem_of_cons; by left|]. split; [|evaluate].
    unfold position in Hi. destruct (decide (i = etf.(inst_ID))) as [Heq|Hne]; [rewrite Heq; evaluate|].
    exfalso. apply Hi. apply sumQ_zero. intros lot Hlot.
    assert (lot.(lot_InstrumentID) = etf.(inst_ID)) as Hl.
    { revert lot Hlot. apply Forall_forall. repeat constructor. }
    unfold held. rewrite Hl. rewrite bool_decide_eq_false_2; [reflexivity|]. intros Heq. by apply Hne.
Defined.

Lemma replay_invariant_witness :
  val after_first.(st_cash) - val after_first.(st_netCapital) ==
    val after_first.(st_realized) + sumQ basis after_first.(st_lots).
Proof.
  apply (replay_invariant "USD" [mechanics_first] [first_transaction] first_mechanics [first_transaction] after_first);
    [evaluate|exact after_first_reached].
Defined.

(** A sale of six against two lots of four and six. *)
Definition two_lots : projectionState.
Proof.
  built_by (replay "USD" (list_to_map [(mechanics_first.(mech_TransactionID), mechanics_first);
                                       (mechanics_second.(mech_TransactionID), mechanics_second)])
              (omap norm_Transaction [first_fill; second_fill]) emptyState).
Defined.
Definition after_sale : projectionState.
Proof.
  built_by (applyMovement first_transaction mechanics_sale etf.(inst_ID) (units (-6)) (units 306) (units 1) "sale" false
              two_lots).
Defined.
Lemma sale_applies :
  applyMovement first_transaction mechanics_sale etf.(inst_ID) (units (-6)) (units 306) (units 1) "sale" false two_lots =
  Ok after_sale.
Proof. evaluate. Qed.

Definition first_lot : ProjectionLot.
Proof. value_of (two_lots.(st_lots) !! 0%nat). Defined.
Definition second_lot : ProjectionLot.
Proof. value_of (two_lots.(st_lots) !! 1%nat). Defined.

(** The sale reaches the second lot, so the first is exhausted. *)
Lemma movement_fifo_order_witness :
  exists lot, after_sale.(st_lots) !! 0%nat = Some lot /\ val lot.(lot_RemainingQuantity) == 0.
Proof.
  apply (movement_fifo_order first_transaction mechanics_sale etf.(inst_ID) (units (-6)) (units 306) (units 1) "sale" false
           two_lots after_sale 0 1 first_lot second_lot sale_applies).
  - lia.
  - evaluate.
  - evaluate.
  - evaluate.
  - intros H. apply (f_equal (fmap (fun lot => Sign (Sub lot.(lot_RemainingQuantity) (units 6))))) in H.
    vm_compute in H. discriminate H.
Defined.

Lemma movement_allocates_witness :
  exists new, after_sale.(st_matches) = two_lots.(st_matches) ++ new.
Proof.
  destruct (movement_allocates first_transaction mechanics_sale etf.(inst_ID) (units (-6)) (units 306) (units 1) "sale"
              false two_lots after_sale sale_applies) as (kept & opened & new & _ & _ & _ & H & _).
  exists new. exact H.
Defined.

Lemma applyMovement_reference_witness :
  applyMovement first_transaction mechanics_sale etf.(inst_ID) (units (-6)) (units 306) (units 1) "sale" false two_lots =
  Ok (fifoMovement first_transaction mechanics_sale etf.(inst_ID) (units (-6)) (units 306) (units 1) "sale" two_lots).
Proof. rewrite applyMovement_reference. evaluate. Defined.

(** A third of a total that does not divide: 1.00 over 3 units. *)
Lemma allocation_prorata_witness :
  Qabs (val (Div (units 1) (units 3)) - (1 # 3)) <= 1 # 1000000000000 /\
  exists r, allocateProjectionAmount (units 1) (units 1) (units 3) (units 1) (units 3) false = Ok r /\
            val r.1.1 + val r.1.2 == val (units 1).
Proof.
  split; [vm_compute; discriminate|].
  destruct (allocateProjectionAmount (units 1) (units 1) (units 3) (units 1) (units 3) false) as [r| |] eqn:Hr;
    [|by vm_compute in Hr|by vm_compute in Hr].
  pose proof (allocation_prorata _ _ _ _ _ _ _ Hr) as H. destruct r as [[a b] c]. exists (a, b, c). split; [done|]. apply H.
Defined.

Definition half_sold : dec * ProjectionLot.
Proof. built_by (consumeLot (units (-2)) (units 2) second_lot). Defined.
Lemma consume_prorata_witness :
  val half_sold.2.(lot_RemainingOpeningCash) + val half_sold.1 == val second_lot.(lot_RemainingOpeningCash).
Proof.
  apply (consume_prorata (units (-2)) (units 2) second_lot half_sold.1 half_sold.2).
  - vm_compute. discriminate.
  - vm_compute. discriminate.
  - vm_compute. reflexivity.
  - evaluate.
Defined.

Lemma positions_latest_mark_witness :
  exists request currency,
    normalizeProjectionBoundary projection_input.(pin_Request) projection_input.(pin_BaseCurrency) = Ok (request, currency) /\
    forall q, q ∈ projection.(proj_Positions) -> q.(pos_Open) = true ->
    exists mark, latest request currency q.(pos_InstrumentID) mark [close_mark; early_mark].
Proof.
  destruct (positions_latest_mark projection_input projection [close_mark; early_mark] session_builds eq_refl)
    as (r & c & Hb & H).
  exists r, c. split; [exact Hb|]. intros q Hq Ho. destruct (H q Hq Ho) as (mark & Hm & _). by exists mark.
Defined.

Definition late_sale : Transaction :=
  MkTransaction (id 40) account.(acct_ID) "fill.sell" "late" "operator" "desk" "" "" (clock 70) (clock 70) "{}" []
    (clock 70).
Lemma projection_no_look_ahead_witness :
  BuildPortfolioProjection (with_rows projection_input ([] ++ Some late_sale :: ledger)
                              ([Some close_mark] ++ Some future_mark :: [Some early_mark])) = Ok projection.
Proof.
  rewrite (projection_no_look_ahead projection_input request "USD" [] late_sale ledger [Some close_mark] future_mark
             [Some early_mark]).
  - evaluate.
  - evaluate.
  - evaluate.
  - evaluate.
  - evaluate.
Defined.

Lemma projection_order_independent_witness : BuildPortfolioProjection reordered_input = Ok projection.
Proof.
  apply (projection_order_independent projection_input reordered_input projection session_builds); try reflexivity.
  - apply Permutation_rev.
  - apply (Permutation_cons_append [mechanics_first; mechanics_second]).
  - apply Permutation_swap.
  - apply (bool_decide_eq_true_1 _). evaluate.
  - apply (bool_decide_eq_true_1 _). evaluate.
Defined.

Lemma projection_never_panics_witness : safe (BuildPortfolioProjection projection_input).
Proof. apply projection_never_panics. Defined.

(** ** Ledger transactions and normalization *)

Lemma Transaction_Validate_iff_witness : transaction_wf deposit /\ Transaction_Validate deposit = Ok tt.
Proof.
  split; [apply (Transaction_Validate_iff deposit); evaluate|].
  apply (Transaction_Validate_iff deposit). apply Transaction_Validate_sound. evaluate.
Defined.

Lemma validProjectionDecimal_iff_witness : numeric_38_12 (val (amount 5001 2)).
Proof. apply (validProjectionDecimal_iff (amount 5001 2)); [vm_compute; discriminate|evaluate]. Defined.

Definition first_postings : list PostingInput.
Proof. built_by (expectedPostings first_fill). Defined.

Lemma expectedPostings_entries_witness : entries_ok first_postings.
Proof. apply (expectedPostings_entries first_fill). evaluate. Defined.

(** Four shares at 50.01 and a fee of 1.00 take 201.04. *)
Lemma expectedPostings_cash_witness : input_posted "asset:cash" first_postings == - (20104 # 100).
Proof. rewrite (expectedPostings_cash first_fill); [reflexivity|evaluate]. Defined.

Definition fee_input : TransactionInput := {|
  txin_AccountID := account.(acct_ID); txin_EventType := "cost.fee"; txin_IdempotencyKey := "fee-1";
  txin_OriginType := "operator"; txin_OriginID := "desk"; txin_ReferenceType := ""; txin_ReferenceID := "";
  txin_EffectiveAt := clock 1; txin_ObservedAt := clock 2; txin_Metadata := "";
  txin_Postings := first_postings |}.
Definition deterministic : Transaction.
Proof. built_by (newDeterministicTransaction (clock 3) (id 50) "v1" fee_input). Defined.
Lemma deterministic_retry_witness :
  exists t', newDeterministicTransaction (clock 900) (id 50) "v1" fee_input = Ok t' /\
             sameEconomicTransaction (Some deterministic) (Some t') = true.
Proof. apply (deterministic_retry (clock 3)); evaluate. Defined.

Lemma fill_normalization_replays_witness :
  exists t s', first_fill.(norm_Transaction) = Some t /\
               replayTransaction first_fill.(norm_CashCurrency) first_mechanics t two_lots = Ok s'.
Proof.
  apply (fill_normalization_replays (clock 22) (clock 22) (clock 22) (clock 60) first_fill_input first_fill
           mechanics_first); evaluate.
Defined.

(** ** Identities and accounts *)

Lemma identity_unambiguous_witness :
  ("ledger" = "ledger" /\ ["a"; "b"] = ["a"; "b"]) \/
  hash_collision (hash_input "ledger" ["a"; "b"]) (hash_input "ledger" ["a"; "b"]).
Proof. apply identity_unambiguous; reflexivity. Defined.

Lemma account_isolation_witness :
  account.(acct_StorageNamespace) <> stress_account.(acct_StorageNamespace).
Proof. apply (account_isolation account stress_account); evaluate. Defined.

(** ** Quotes *)

Lemma execution_assessment_witness : executable_quote quote requirements etf contract (utc_micro (clock 20)) assessment.
Proof. apply execution_assessment. evaluate. Defined.

(** ** The order lifecycle *)

Ltac accepted := apply step_apply; evaluate.

Lemma proposed_reachable : reachable proposed.
Proof. apply (reach_propose (clock 15) proposal). evaluate. Qed.

Lemma session_runs : run proposed session complete.
Proof.
  apply (run_cons _ _ allocated); [accepted|]. apply (run_cons _ _ approved); [accepted|].
  apply (run_cons _ _ routed); [accepted|]. apply (run_cons _ _ working); [accepted|].
  apply (run_cons _ _ partially); [accepted|]. apply (run_cons _ _ complete); [accepted|]. apply run_nil.
Qed.

Lemma complete_reachable : reachable complete.
Proof. exact (run_reachable _ _ _ proposed_reachable session_runs). Qed.

Lemma reachable_well_formed_witness : lifecycle_inv complete.
Proof. apply reachable_well_formed. exact complete_reachable. Defined.

Definition session_order : Order.
Proof. value_of complete.(agg_Order). Defined.

Lemma fills_bounded_witness : filled complete == val session_order.(order_Quantity).
Proof.
  apply (fills_bounded complete session_order); [exact complete_reachable|evaluate|evaluate].
Defined.

Lemma terminal_states_witness : failed = unchanged complete t_contradiction.(tr_Event).
Proof.
  destruct (terminal_states complete t_contradiction failed) as [_ H]; [evaluate|].
  apply H. apply (bool_decide_eq_true_1 _). evaluate.
Defined.

Lemma commands_accepted_witness : exists a', step complete t_contradiction a' /\ reachable a'.
Proof.
  apply (commands_accepted (clock 50) (clock 50) complete
           (CmdFailReconciliation EventContradictoryVenueState (event "contradiction" (clock 50) "{}") (clock 50)));
    [exact complete_reachable|evaluate].
Defined.

Lemma facts_immutable_witness : extends proposed complete.
Proof. apply (facts_immutable proposed session complete proposed_reachable session_runs). Defined.

Lemma routed_run : run routed [t_acknowledge; t_first; t_second] complete.
Proof.
  apply (run_cons _ _ working); [accepted|]. apply (run_cons _ _ partially); [accepted|].
  apply (run_cons _ _ complete); [accepted|]. apply run_nil.
Qed.
Lemma routed_reachable : reachable routed.
Proof.
  apply (reach_step approved t_route); [|accepted]. apply (reach_step allocated t_approve); [|accepted].
  apply (reach_step proposed t_allocate); [|accepted]. exact proposed_reachable.
Qed.

Lemma no_second_order_witness : exists msg, Route (clock 60) (Some complete) route = Err (Errorf msg).
Proof.
  apply (no_second_order routed [t_acknowledge; t_first; t_second] complete session_order);
    [exact routed_reachable|evaluate|exact routed_run].
Defined.

Definition proposal_event : Event.
Proof. value_of (head proposed.(agg_Events)). Defined.

Lemma replay_sound_witness : lifecycle_inv complete.
Proof.
  apply (replay_sound account.(acct_ID) proposed.(agg_Intent) (event_only proposal_event :: session)). evaluate.
Defined.

(** The numbers of a table whose sequence other lifecycles share. *)
Definition stored_numbers : list Z := (fun i => 101 + 2 * Z.of_nat i)%Z <$> seq 0 (length session).

Lemma replay_roundtrip_witness :
  Replay proposed.(agg_Intent).(intent_AccountID) proposed.(agg_Intent)
    (zip_with numbered (100 :: stored_numbers)%Z (event_only proposal_event :: session)) =
  Ok (with_events (zip_with with_sequence (100 :: stored_numbers)%Z complete.(agg_Events)) complete).
Proof.
  apply (replay_roundtrip (clock 15) proposal proposed proposal_event session complete 100 stored_numbers).
  - evaluate.
  - evaluate.
  - exact session_runs.
  - reflexivity.
  - split; [reflexivity|]. split; [apply (bool_decide_eq_true_1 _); evaluate|].
    repeat constructor; lia.
Defined.

Lemma lifecycle_never_panics_witness : safe (ApplyTransition (Some complete) (Some t_contradiction)).
Proof.
  apply (lifecycle_never_panics (clock 50) (clock 50) proposal complete (CmdRequestCancel (event "c" (clock 50) "{}") (clock 50))
           t_contradiction).
  intros n Hn. discriminate Hn.
Defined.

(** ** Checkpoints *)

Lemma checkpoint_loads_witness :
  exists c, Checkpoint (Some projection) = Some c /\
    ProjectionCheckpoint_Validate (attest "replay-worker.1" (Sum256 "attested") c) = Ok tt.
Proof.
  destruct (checkpoint_loads projection_input projection "replay-worker.1" (Sum256 "attested")) as (c & Hc & Hv & _).
  - exact session_builds.
  - vm_compute. discriminate.
  - evaluate.
  - evaluate.
  - split; [evaluate|evaluate|vm_compute; discriminate|vm_compute; discriminate].
  - by exists c.
Defined.
