(* ===== verification/SimulationWitnesses.v ===== *)
(** * A worked simulation

    The ETF order of the session, routed as immediate-or-cancel to a simulated
    venue that may take two hundredths of the displayed size: six units are
    filled at the limit and the rest is cancelled. The witnesses of the
    simulation properties are stated on this evaluation. *)

From S2P Require Import Prelude GoStd GoText GoTime Externals Instances EconomicId Account Instrument Transaction SourceEvent.
From S2P Require Import Normalization Snapshot Lifecycle LifecycleAggregate LifecycleProofs LifecycleTheorems.
From S2P Require Import SnapshotProofs SimulationPolicy SimulationFill SimulationVenue SimulationOutcome.
From S2P Require Import SimulationPolicyProofs SimulationProofs SimulationTheorems SimulationSafety SimulationOutcomeProofs.
From S2P Require Import Scenario Witnesses.

Local Open Scope go_scope.

(** ** The policy *)

Definition policy_input : PolicyInput := MkPolicyInput "simulation-policy-v1" [{|
  asset_AssetClass := AssetClassETF; asset_OrderTypes := [OrderMarket; OrderLimit];
  asset_TimeInForce := [TimeInForceIOC; TimeInForceDay]; asset_QuoteRequirements := requirements;
  asset_MaxDepthParticipation := amount 2 2; asset_FixedLatency := (2 * 10 ^ 9)%Z;
  asset_Calendar := MkCalendarPolicy CalendarExplicitSessions [MkSessionWindow "regular" (clock 0) (clock 3600)];
  asset_Fees := MkFeePolicy (amount 35 2) (amount 5 3) (units 1) 2 |}].

Definition policy : Policy.
Proof. built_by (NewPolicy policy_input). Defined.

Definition etf_policy : AssetPolicy.
Proof. value_of (Policy_AssetPolicy (Some policy) AssetClassETF). Defined.

Definition venue : option Venue := Some (MkVenue (Some policy)).

Lemma simulation_policy_built : NewPolicy policy_input = Ok policy.
Proof. evaluate. Qed.

Definition later_quote : QuoteSnapshot.
Proof.
  built_by (NewQuoteSnapshot (id 6) (clock 25) {|
    snapin_InstrumentID := id 3; snapin_VenueContractID := Some (id 4); snapin_Provider := "feed";
    snapin_Venue := "xpaper"; snapin_Source := "sip"; snapin_ObservationNamespace := "nbbo";
    snapin_ObservationID := "q-2"; snapin_SourceRevision := ""; snapin_SourceSequence := Some 8%Z;
    snapin_ExchangeAt := Some (clock 24); snapin_ReceivedAt := clock 25; snapin_AvailableAt := Some (clock 26);
    snapin_Bid := Some (amount 5000 2); snapin_BidSize := Some (units 200);
    snapin_Ask := Some (amount 5002 2); snapin_AskSize := Some (units 300);
    snapin_Last := None; snapin_Mark := None; snapin_MarketStatus := "open"; snapin_SessionStatus := "regular";
    snapin_Bids := [level 5000 200; level 4999 500]; snapin_Asks := [level 5002 300; level 5003 100];
    snapin_Metadata := ""; snapin_CreatedAt := clock 25 |}).
Defined.

(** ** The routed order *)

Definition simulation_route : RouteInput := {|
  route_OrderIdempotencyKey := "order-2"; route_Instrument := etf; route_VenueContract := contract;
  route_RouteSnapshot := quote; route_QuoteRequirements := requirements; route_OrderType := OrderLimit;
  route_TimeInForce := TimeInForceIOC; route_LimitPrice := Some (amount 5002 2); route_StopPrice := None;
  route_PolicyKind := PolicySimulation; route_PolicyVersion := policy.(pol_version);
  route_Event := event "route" (clock 20) "{}"; route_RoutedAt := clock 20; route_CreatedAt := clock 20 |}.

Definition t_simulation_route : Transition.
Proof. built_by (Route (clock 20) (Some approved) simulation_route). Defined.
Definition order_routed : Aggregate.
Proof. built_by (ApplyTransition (Some approved) (Some t_simulation_route)). Defined.
Definition simulated_order : Order.
Proof. value_of order_routed.(agg_Order). Defined.

Lemma approved_reachable : reachable approved.
Proof.
  apply (reach_step allocated t_approve); [|accepted]. apply (reach_step proposed t_allocate); [|accepted].
  exact proposed_reachable.
Qed.

Lemma order_routed_reachable : reachable order_routed.
Proof. apply (reach_step approved t_simulation_route); [exact approved_reachable|accepted]. Qed.

(** ** The evaluation *)

Definition request : EvaluationRequest := {|
  req_Account := account; req_Instrument := etf; req_VenueContract := contract; req_Aggregate := Some order_routed;
  req_Snapshot := later_quote; req_EvaluatedAt := clock 27 |}.

Definition readings (step reading : nat) : Time := clock (27 + Z.of_nat step).

Definition result : Result.
Proof. built_by (Evaluate readings venue request). Defined.

Lemma evaluated_result : Evaluate readings venue request = Ok result.
Proof. evaluate. Qed.

Definition evaluated_aggregate : Aggregate.
Proof. value_of result.(res_Aggregate). Defined.

Lemma evaluation_refines_lifecycle_witness : exists a', result.(res_Aggregate) = Some a' /\
  run order_routed result.(res_Transitions) a' /\ reachable a'.
Proof.
  destruct (evaluation_refines_lifecycle readings venue request order_routed result) as (a' & H1 & H2 & H3 & _);
    [evaluate|exact order_routed_reachable|exact evaluated_result|]. by exists a'.
Defined.

Lemma result_has_fill : result.(res_Fills) <> [].
Proof. done. Qed.

Lemma fills_within_depth_witness : Forall (depth_fill request etf_policy simulated_order) result.(res_Fills).
Proof.
  apply (fills_within_depth readings policy_input policy venue request order_routed simulated_order etf_policy result);
    [exact simulation_policy_built|evaluate|evaluate|exact order_routed_reachable|evaluate|evaluate
    |exact evaluated_result|exact result_has_fill].
Defined.

Lemma fills_price_priority_witness : exists levels : list eligibleSimulationLevel,
  (sumQ quantity_of result.(res_Fills) == Qminmax.Qmin (left_of order_routed simulated_order) (sumQ capacity_of levels))%Q.
Proof.
  destruct (fills_price_priority readings venue request order_routed simulated_order etf_policy result)
    as (levels & _ & _ & _ & H); [evaluate|exact order_routed_reachable|evaluate|evaluate|exact evaluated_result
                                 |exact result_has_fill|]. by exists levels.
Defined.


Lemma level_consumed_once_witness : NoDup (consumed_sources evaluated_aggregate).
Proof.
  apply (level_consumed_once venue order_routed evaluated_aggregate).
  - exact order_routed_reachable.
  - apply NoDup_nil_2.
  - apply (evaluated_step venue order_routed readings request order_routed result evaluated_aggregate);
      [apply evaluated_none|evaluate|exact evaluated_result|evaluate].
Defined.

Lemma evaluate_fails_closed_witness : match Evaluate readings venue request with
  | Ok r => is_Some r.(res_Aggregate) | Err e => simulation_error e | Panic _ => False end.
Proof. apply (evaluate_fails_closed readings venue request order_routed); [evaluate|exact order_routed_reachable]. Defined.

(** ** The policy *)

Lemma policy_well_formed_witness : Forall sound_asset policy.(pol_assets).
Proof. apply (policy_well_formed policy_input policy). exact simulation_policy_built. Defined.

Lemma policy_content_addressed_witness : policy.(pol_digest) = policy.(pol_digest) \/
  sha_collision policy.(pol_canonicalBytes) policy.(pol_canonicalBytes).
Proof.
  destruct (policy_content_addressed (fun _ => None) policy policy) as [(_ & H & _)|H];
    [apply (origin_built _ _ policy_input simulation_policy_built)..|reflexivity|by left|by right].
Defined.

Definition etf_fee : option dec.
Proof. built_by (FillFee (Some policy) AssetClassETF (units 6) (amount 5002 2) (units 1) true). Defined.

Lemma fill_fee_bounds_witness :
  (Qabs (fee_value etf_fee - exact_fee etf_policy.(asset_Fees) 6 (5002 # 100) 1 true) <= (1 # 2) * (1 # 100) + (1 # 2) * (10 # 1) ^ (- 16))%Q.
Proof.
  destruct (fill_fee_bounds policy_input policy AssetClassETF etf_policy (units 6) (amount 5002 2) (units 1) true etf_fee)
    as (_ & H & _); [exact simulation_policy_built|evaluate|evaluate|].
  eapply Qle_trans; [|eapply Qle_trans; [exact H|]]; vm_compute; intros; discriminate.
Defined.

(** ** The outcome *)

Definition outcome_input : OutcomeInput := {|
  outin_Account := account; outin_VenueContract := contract; outin_Aggregate := Some evaluated_aggregate;
  outin_Fills := result.(res_Fills) |}.

Definition outcome_built : Outcome.
Proof. built_by (NewOutcome outcome_input). Defined.

Lemma outcome_totals_exact_witness : (val outcome_built.(ot_TotalQuantity) == filled evaluated_aggregate)%Q.
Proof.
  destruct (outcome_totals_exact outcome_input outcome_built evaluated_aggregate) as (_ & _ & _ & H & _);
    [evaluate|reflexivity|]. exact H.
Defined.

Lemma outcome_order_independent_witness : NewOutcome outcome_input = Ok outcome_built.
Proof.
  apply (outcome_order_independent account contract (Some evaluated_aggregate) result.(res_Fills)); [reflexivity|evaluate].
Defined.

(** ** A store in memory: the lifecycle and the identities of the raw events. *)

Definition memory : Persistence (Aggregate * list UUID) := {|
  RecordEconomicSourceEvent s raw := ((s.1, raw.(src_ID) :: s.2), Ok (Some raw));
  ApplyExecutionFill s account t :=
    match t.(tr_Normalization) ≫= norm_SourceEvent with
    | Some raw =>
        if decide (raw.(src_ID) ∈ s.2)
        then match ApplyTransition (Some s.1) (Some t) with
             | Ok a => ((a, s.2), Ok (Some a))
             | Err e => (s, Err e)
             | Panic p => (s, Panic p)
             end
        else (s, Err (Errorf "the raw source event is not recorded"))
    | None => (s, Err (Errorf "the fill has no raw source event"))
    end;
  ApplyExecutionTransition s account t :=
    match ApplyTransition (Some s.1) (Some t) with
    | Ok a => ((a, s.2), Ok (Some a))
    | Err e => (s, Err e)
    | Panic p => (s, Panic p)
    end |}.

#[local] Instance memory_store : LifecycleStore memory fst (fun s id => id ∈ s.2).
Proof.
  split.
  - intros s raw. eexists. split; [reflexivity|]. cbn [fst snd]. split_and!; [done|by left|by right].
  - intros [a ids] id t raw a' Hraw Hr _ Happ. exists (a', ids). cbn [fst snd] in *. unfold memory. cbn [ApplyExecutionFill].
    rewrite Hraw, decide_True by exact Hr. cbn [fst snd]. by rewrite Happ.
  - intros [a ids] id t a' _ _ Happ. exists (a', ids). cbn [fst snd] in *. unfold memory. cbn [ApplyExecutionTransition fst snd].
    by rewrite Happ.
Qed.

Lemma result_persists_witness : exists s' a', result.(res_Aggregate) = Some a' /\
  PersistResult (Some memory) (order_routed, []) order_routed.(agg_Intent).(intent_AccountID) (Some result) = (s', Ok a') /\
  s'.1 = a'.
Proof.
  destruct (result_persists memory fst (fun s id => id ∈ s.2) readings venue request result (order_routed, []))
    as (s' & a' & H1 & H2 & H3 & _); [reflexivity|exact order_routed_reachable|exact evaluated_result|].
  exists s', a'. exact (conj H1 (conj H2 H3)).
Defined.
