(* ===== verification/SchedulerWitnesses.v ===== *)
(** * A worked occurrence

    A scan job is due. A first runner acquires the occurrence, claims one effect
    and crashes; after the lease has expired a second runner takes the
    occurrence over, and a third, on another occurrence, runs to completion.
    The witnesses of the scheduler properties are stated on these states. *)

From S2P Require Import Prelude GoStd GoText Externals Instances EconomicId Scenario.
From S2P Require Import FinancialJobs FinancialJobsProofs LeaseStore LeaseStoreProofs LeaseStoreTheorems.
From S2P Require Import SchedulerRunner SchedulerRunnerProofs.

Local Open Scope go_scope.
Local Open Scope Z_scope.

(** The state after a successful call, evaluated. *)
Ltac state_of m :=
  let v := eval vm_compute in m in
  lazymatch v with (?db, Ok _) => exact db end.

Definition repo : FinancialSchedulerRepo := MkFinancialSchedulerRepo true None.
Definition at_clock (s : Z) : connection := MkConnection None (fun _ => None) (fun _ => clock s) Committed.
Definition ttl : Duration := 30 * 10 ^ 9.
Definition runner_a : Runner := MkRunner (id 71) ttl (10 ^ 9).
Definition runner_b : Runner := MkRunner (id 72) ttl (10 ^ 9).

Definition scan_definition : JobDefinition.
Proof. built_by (NewJobDefinition "deep_scan" [MutationEvidence; MutationProvider]). Defined.
Definition scan_catalog : gmap string JobDefinition := {["deep_scan" := scan_definition]}.

Definition scan_input : OccurrenceInput := MkOccurrenceInput "deep_scan" "cron-v1" TriggerScheduled (clock 60) Nil.
Definition scan_occurrence : Occurrence.
Proof. built_by (NewOccurrence scan_input). Defined.
Definition scan_effect : Effect.
Proof.
  built_by (NewEffect (MkEffectInput scan_occurrence.(occ_ID) EffectProvider "account/scan" scan_occurrence.(occ_SHA256))).
Defined.

Definition registered : database.
Proof. state_of (RegisterCatalog (Some repo) (at_clock 0) empty_database scan_catalog). Defined.
Definition acquired : database.
Proof. state_of (Acquire (Some repo) (at_clock 60) registered (Some scan_occurrence) (id 71) ttl). Defined.
Definition lease_a : Lease := MkLease scan_occurrence.(occ_ID) (id 71) 1 1 (clock 60) (clock 90).
Definition claimed : database.
Proof. state_of (ClaimEffect (Some repo) (at_clock 61) acquired lease_a (Some scan_effect)). Defined.
Definition taken_over : database.
Proof. state_of (Acquire (Some repo) (at_clock 100) claimed (Some scan_occurrence) (id 72) ttl). Defined.

Lemma registered_call : RegisterCatalog (Some repo) (at_clock 0) empty_database scan_catalog = (registered, Ok tt).
Proof. evaluate. Qed.
Lemma acquired_call :
  Acquire (Some repo) (at_clock 60) registered (Some scan_occurrence) (id 71) ttl =
    (acquired, Ok (MkAcquisition lease_a true false)).
Proof. evaluate. Qed.
Lemma claimed_call : ClaimEffect (Some repo) (at_clock 61) acquired lease_a (Some scan_effect) = (claimed, Ok scan_effect).
Proof. evaluate. Qed.

Lemma claimed_reachable : reachable_store claimed.
Proof.
  eapply rtc_l; [exists (at_clock 0); exact (store_register _ _ _ _ _ _ registered_call)|].
  eapply rtc_l; [exists (at_clock 60); exact (store_acquire _ _ _ _ _ _ _ _ acquired_call)|].
  eapply rtc_l; [exists (at_clock 61); exact (store_claim _ _ _ _ _ _ _ claimed_call)|]. apply rtc_refl.
Qed.

Lemma scan_valid : Occurrence_Validate scan_occurrence = Ok tt.
Proof. evaluate. Qed.

(** ** The store *)

Lemma taken_call :
  Acquire (Some repo) (at_clock 100) claimed (Some scan_occurrence) (id 72) ttl =
    (taken_over, Ok (MkAcquisition (MkLease scan_occurrence.(occ_ID) (id 72) 2 2 (clock 100) (clock 130)) true false)).
Proof. evaluate. Qed.

Lemma taken_step : store_call (at_clock 100) claimed taken_over.
Proof. exact (store_acquire _ _ _ _ _ _ _ _ taken_call). Qed.

Lemma taken_reachable : reachable_store taken_over.
Proof. exact (rtc_r _ _ _ claimed_reachable (ex_intro _ _ taken_step)). Qed.

(** The takeover has the second fence and the second sequence. *)
Definition takeover_event : leaseEvent.
Proof.
  let v := eval vm_compute in (latest scan_occurrence.(occ_ID) taken_over.(db_events)) in
  lazymatch v with Some ?e => exact e end.
Defined.

Lemma takeover_latest : latest scan_occurrence.(occ_ID) taken_over.(db_events) = Some takeover_event.
Proof. evaluate. Qed.

Lemma lease_history_witness :
  takeover_event.(ev_Sequence) = Z.of_nat (length (log_of scan_occurrence.(occ_ID) taken_over.(db_events))) - 0 /\
  takeover_event.(ev_FenceToken) = acquisitions (log_of scan_occurrence.(occ_ID) taken_over.(db_events)) /\
  (terminal_kind takeover_event.(ev_Kind) = true -> 0%nat = 0%nat).
Proof.
  exact (proj1 (lease_history taken_over scan_occurrence.(occ_ID) taken_reachable) 0%nat takeover_event takeover_latest).
Defined.

Lemma store_refines_lease_witness :
  lease_view taken_over scan_occurrence.(occ_ID) = lease_view claimed scan_occurrence.(occ_ID) \/
  lease_spec (db_now (at_clock 100) "trigger").(instant) (lease_view claimed scan_occurrence.(occ_ID)) (lease_view taken_over scan_occurrence.(occ_ID)).
Proof. exact (store_refines_lease (at_clock 100) claimed taken_over scan_occurrence.(occ_ID) claimed_reachable taken_step). Defined.

Lemma stale_lease_fenced_witness :
  (Complete (Some repo) (at_clock 101) taken_over lease_a true scan_occurrence.(occ_SHA256)).1 = taken_over.
Proof.
  exact (proj1 (proj2 (proj2 (stale_lease_fenced taken_over taken_over lease_a takeover_event taken_reachable takeover_latest
    eq_refl (rtc_refl _ _))) (Some repo) (at_clock 101) true scan_occurrence.(occ_SHA256))).
Defined.

Lemma effects_claimed_once_witness : Forall (claim_backed taken_over) taken_over.(db_claims).
Proof. exact (proj1 (proj2 (proj2 (effects_claimed_once taken_over taken_reachable)))). Defined.

Definition first_event : leaseEvent.
Proof.
  let v := eval vm_compute in (latest scan_occurrence.(occ_ID) claimed.(db_events)) in
  lazymatch v with Some ?e => exact e end.
Defined.

Lemma at_clock_healthy s : healthy (at_clock s) (clock s).
Proof. by split. Qed.

Lemma first_latest : latest scan_occurrence.(occ_ID) claimed.(db_events) = Some first_event.
Proof. evaluate. Qed.

Lemma scan_recorded :
  List.find (fun row => row.(occ_ID) ==? scan_occurrence.(occ_ID)) claimed.(db_occurrences) = Some scan_occurrence.
Proof. evaluate. Qed.

Lemma no_collision :
  Forall (fun e => e.(ev_ID) <> leaseEventID scan_occurrence.(occ_ID) (first_event.(ev_Sequence) + 1) EventAcquired (id 72)
                                   (first_event.(ev_FenceToken) + 1)) claimed.(db_events).
Proof. constructor; [|constructor]. apply (bool_decide_eq_false _). evaluate. Qed.

Lemma expired_lease_recovered_witness : exists db' lease,
  Acquire (Some repo) (at_clock 100) claimed (Some scan_occurrence) (id 72) ttl = (db', Ok (MkAcquisition lease true false)) /\
  lease.(lease_OwnerID) = id 72 /\ lease.(lease_FenceToken) = 2 /\
  lease_view db' scan_occurrence.(occ_ID) = HeldBy (id 72) 2 ((TruncateMicro (clock 100)).(instant) + Microseconds ttl * Microsecond).
Proof.
  refine (expired_lease_recovered claimed scan_occurrence (id 72) ttl first_event (at_clock 100) (clock 100) repo
    claimed_reachable eq_refl eq_refl (at_clock_healthy 100) scan_valid _ _ scan_recorded first_latest eq_refl _ _ no_collision).
  - discriminate.
  - unfold ttl, minimumFinancialLease, maximumFinancialLease. lia.
  - reflexivity.
  - reflexivity.
Defined.

Lemma jobs_validate_witness : Occurrence_Validate scan_occurrence = Ok tt.
Proof. apply (proj1 jobs_validate scan_input). evaluate. Defined.

(** ** A run *)

Definition no_text (_ : error) : string := "".

Notation step := (system_step no_text (Some repo)).

Definition run_begun : run := MkRun runner_a scan_occurrence MainAcquire RenewAbsent None ZeroLease ZeroLease None.
Definition run_session : run := start_session run_begun lease_a.
Definition run_stopped : run := set_main run_session (MainStopped None).
Definition run_joined : run := set_main (set_renew run_stopped (RenewDone None)) (MainComplete None).
Definition run_completing : run := set_mutex (set_main run_joined (MainCompleting None)) (Some MainThread).
Definition run_returned : run := set_mutex (set_main run_completing (MainReturned (MkRunResult true true 1) None)) None.

Definition finished : database.
Proof. state_of (Complete (Some repo) (at_clock 62) acquired lease_a true (outcomeDigest no_text None)). Defined.

Lemma session_reachable : reachable_system no_text (Some repo) (acquired, [run_session]).
Proof.
  eapply rtc_l; [exact (system_register _ _ _ _ _ _ _ _ _ registered_call)|].
  eapply rtc_l; [exact (system_start _ _ registered [] runner_a true (Some scan_occurrence) true run_begun eq_refl)|].
  eapply rtc_l; [|apply rtc_refl].
  refine (system_run _ _ Progress registered [run_begun] 0 run_begun acquired run_session eq_refl _).
  exact (step_acquired _ _ _ _ run_begun _ _ eq_refl acquired_call eq_refl).
Qed.

Lemma finished_call :
  Complete (Some repo) (at_clock 62) acquired lease_a true (outcomeDigest no_text None) = (finished, Ok tt).
Proof. evaluate. Qed.

Lemma returned_reachable : reachable_system no_text (Some repo) (finished, [run_returned]).
Proof.
  refine (transitivity session_reachable _).
  assert (Hstep : forall db s db' s', run_step no_text (Some repo) Progress (db, s) (db', s') -> step (db, [s]) (db', [s']))
    by (intros db s db' s' H; exact (system_run _ _ Progress db [s] 0 s db' s' eq_refl H)).
  eapply rtc_l; [apply Hstep; exact (step_job_return _ _ acquired run_session None eq_refl)|].
  eapply rtc_l; [apply Hstep; exact (step_select_stop _ _ acquired run_stopped None eq_refl eq_refl)|].
  eapply rtc_l; [apply Hstep; exact (step_stopped _ _ acquired (set_renew run_stopped (RenewDone None)) None eq_refl eq_refl)|].
  eapply rtc_l; [apply Hstep; exact (step_complete_lock _ _ acquired run_joined None eq_refl eq_refl)|].
  eapply rtc_l; [apply Hstep; exact (step_completed _ _ _ acquired run_completing None _ eq_refl finished_call)|].
  apply rtc_refl.
Qed.

Lemma one_run_completes_witness : lease_view finished scan_occurrence.(occ_ID) = Finished (id 71) 1 true.
Proof.
  exact (proj2 (proj1 (proj2 (one_run_completes no_text (Some repo) finished [run_returned] returned_reachable))
    0%nat run_returned 1 None eq_refl eq_refl)).
Defined.

Lemma run_terminates_witness :
  exists k db' s' result err, (k <= run_rank run_session)%nat /\
    nsteps step k (acquired, [run_session]) (db', <[0%nat := s']> [run_session]) /\ s'.(run_main) = MainReturned result err.
Proof.
  exact (proj2 (proj2 (run_terminates no_text (Some repo) repo acquired [run_session] 0 run_session eq_refl eq_refl
    session_reachable eq_refl))).
Defined.
