(* ===== verification/PredictionWitnesses.v ===== *)
(** * A worked market

    A market with two outcomes, its books and fee policies, one of them a
    correction published after the decision; five orders replayed against them,
    a complete set bought at the decision, and two maker quotes. The witnesses
    of the prediction-market properties are stated on these values. *)

From S2P Require Import Prelude GoStd GoText GoTime Externals Instances EconomicId TextProofs Scenario.
From S2P Require Import PredictionReplay PredictionSweep PredictionReplayProofs PredictionReplayTheorems.
From S2P Require Import CompleteSet CompleteSetProofs CompleteSetRoundTrip MakerQuote MakerQuoteProofs.

Local Open Scope go_scope.

Section sealing.
Context {E : Externals}.

(** The rows of a recorder and the recorder they are sealed in. *)
Definition rows (input : Input) : outcome recorderCanonical :=
  match input.(in_Manifest) with
  | None => Err (Errorf "prediction replay manifest is required")
  | Some manifest =>
      index ← manifestIndex manifest ;
      books ← normalizeBooks input.(in_Books) index ;
      fees ← normalizeFees input.(in_Fees) index ;
      replays ← buildReplays input.(in_Replays) books fees manifest.(man_DecisionCutoff) ;
      Ok (MkRecorderCanonical SchemaV1 "completed" (uuid_string manifest.(man_ID)) manifest.(man_Digest)
            (formatTime manifest.(man_DecisionCutoff)) (pb_row <$> books) (pf_row <$> fees) replays)
  end.

Definition sealed (canonical : recorderCanonical) : Recorder :=
  let digest := hash (marshal_recorder canonical) in
  MkRecorder canonical (marshal_recorder canonical) digest
    (DeterministicUUID "prediction-book-fee-recorder" [(SchemaV1 +:+ "@sha256:" +:+ digest)%string]).

Lemma NewRecorder_sealed input canonical : rows input = Ok canonical -> NewRecorder input = Ok (sealed canonical).
Proof.
  unfold rows, NewRecorder. intros H. destruct (in_Manifest input) as [m|]; [|done].
  inv_ok H. subst canonical. repeat (eapply bind_pass; [eassumption|]). done.
Qed.
End sealing.

(** ** The evidence *)

Definition digest_of (c : string) : string := String.concat "" (repeat c 64).
Definition rain_yes : UUID := id 31.
Definition rain_no : UUID := id 32.

Definition book (key c : string) (outcome : UUID) (exchange available revision : Z) (correction : string)
    (bids asks : list LevelInput) : BookInput :=
  MkBookInput "rain" outcome "Kalshi" key (digest_of c) (clock exchange) (clock available) revision correction bids asks.

(** The book of the first outcome, its correction published at 40, a later book
    of the same outcome, and the book of the second outcome. *)
Definition yes_book := book "yes-0" "a" rain_yes 0 1 0 ""
  [MkLevelInput "0.44" "15"; MkLevelInput "0.43" "20"] [MkLevelInput "0.46" "4"; MkLevelInput "0.47" "20"; MkLevelInput "0.49" "50"].
Definition yes_correction := book "yes-1" "b" rain_yes 0 40 1 "yes-0" [MkLevelInput "0.4" "1"] [MkLevelInput "0.41" "1"].
Definition yes_later := book "yes-2" "c" rain_yes 600 601 0 "" [MkLevelInput "0.47" "10"] [MkLevelInput "0.5" "10"].
Definition no_book := book "no-0" "d" rain_no 0 1 0 "" [MkLevelInput "0.35" "30"] [MkLevelInput "0.36" "12"].

Definition fee (key c : string) (outcome : UUID) (role : LiquidityRole) (formula : FeeFormula) (rate : string) (scale : Z)
    (rounding : RoundingMode) : FeePolicyInput :=
  MkFeePolicyInput outcome "kalshi" role key (digest_of c) (clock 0) (clock 0) None formula rate scale rounding.

Definition fees : list FeePolicyInput :=
  [fee "taker-yes" "a" rain_yes RoleTaker FeeContractCurve "0.07" 2 RoundCeiling;
   fee "taker-no" "b" rain_no RoleTaker FeeContractCurve "0.07" 2 RoundCeiling;
   fee "maker-yes" "c" rain_yes RoleMaker FeeNotionalBPS "10" 4 RoundHalfUp].

Definition observed (key c : string) (outcome : UUID) (available : Z) : Observation :=
  MkObservation key (uuid_string outcome) (format_micro (clock available)) (digest_of c).

Definition manifest : Manifest := MkManifest (id 30) (digest_of "e") (clock 3600)
  [MkPartition KindPredictionBooks (digest_of "0")
     [observed "yes-0" "a" rain_yes 1; observed "yes-1" "b" rain_yes 40; observed "yes-2" "c" rain_yes 601; observed "no-0" "d" rain_no 1];
   MkPartition (KindOther "equities") (digest_of "1") [observed "bars" "a" rain_yes 0];
   MkPartition KindPredictionFees (digest_of "2")
     [observed "taker-yes" "a" rain_yes 0; observed "taker-no" "b" rain_no 0; observed "maker-yes" "c" rain_yes 0]].

(** ** The recorder *)

Definition order (s : Z) (outcome : UUID) (side : Side) (quantity limit : string) : ReplayInput :=
  MkReplayInput (clock s) "rain" outcome side RoleTaker quantity limit.

Definition orders : list ReplayInput :=
  [order 12 rain_yes SideBuy "100" "0.47"; order 10 rain_no SideSell "10" "0.3"; order 10 rain_no SideBuy "10" "0.5";
   order 10 rain_yes SideSell "10" "0.4"; order 10 rain_yes SideBuy "10" "0.5"].

Definition recorder_input : Input :=
  MkInput (Some manifest) [yes_book; yes_correction; yes_later; no_book] fees orders.

Definition recorded : recorderCanonical.
Proof. built_by (rows recorder_input). Defined.
Definition recorder_hash : string := Eval vm_compute in hash (marshal_recorder recorded).
Definition recorder_uuid : UUID :=
  Eval vm_compute in DeterministicUUID "prediction-book-fee-recorder" [(SchemaV1 +:+ "@sha256:" +:+ recorder_hash)%string].
Definition recorder : Recorder := MkRecorder recorded (marshal_recorder recorded) recorder_hash recorder_uuid.

Lemma recorder_built : NewRecorder recorder_input = Ok recorder.
Proof. rewrite (NewRecorder_sealed recorder_input recorded) by evaluate. evaluate. Qed.

Lemma recorded_days : recorder_in_calendar recorder_input.
Proof. split; [repeat constructor; done|]. intros m [= <-]. done. Qed.

(** The order that is filled in part, and its row. *)
Definition partial_row : replayCanonical.
Proof. let r := eval vm_compute in (recorded.(rec_Replays) !! 4%nat) in lazymatch r with Some ?v => exact v end. Defined.

Lemma partial_recorded : recorder.(recorder_canonical).(rec_Replays) !! 4%nat = Some partial_row.
Proof. evaluate. Qed.

Lemma replay_amounts_exact_witness : exists fee, fee ∈ recorded.(rec_Fees) /\
  fee.(fc_evidence).(evc_SourceKey) = "taker-yes" /\ fee_explained partial_row fee /\
  (num "11.66" == num "11.24" + 1 * num "0.42")%Q.
Proof.
  destruct (replay_amounts_exact recorder_input recorder partial_row)
    as [[H _]|(fee & H1 & H2 & _ & _ & _ & _ & _ & _ & _ & _ & _ & _ & H3 & H4)];
    [exact recorder_built|exact (list_elem_of_lookup_2 _ _ _ partial_recorded)| |].
  - exfalso. vm_compute in H. by repeat (apply elem_of_cons in H as [H|H]; [discriminate H|]); apply elem_of_nil in H.
  - exists fee. exact (conj H1 (conj H2 (conj H3 H4))).
Defined.

Lemma replay_best_execution_witness : exists book, book ∈ recorded.(rec_Books) /\ book.(bc_evidence).(evc_SourceKey) = "yes-0" /\
  (num "76" == Qminmax.Qmax 0 (num "100" - sumQ (fun l => num l.(lc_Size)) (within_limit partial_row book)))%Q.
Proof.
  destruct (replay_best_execution recorder_input recorder partial_row) as (book & H1 & H2 & _ & _ & _ & H3 & _);
    [exact recorder_built|exact (list_elem_of_lookup_2 _ _ _ partial_recorded)|discriminate|].
  exists book. exact (conj H1 (conj H2 H3)).
Defined.

(** The same recorder before the correction and the later book are known. *)
Definition early_input : Input := MkInput (Some manifest) [no_book; yes_book] fees orders.
Definition early : recorderCanonical.
Proof. built_by (rows early_input). Defined.
Definition early_recorder : Recorder := sealed early.

Lemma recorder_no_look_ahead_witness :
  recorder.(recorder_canonical).(rec_Replays) !! 4%nat = early_recorder.(recorder_canonical).(rec_Replays) !! 4%nat.
Proof.
  apply (recorder_no_look_ahead recorder_input early_input recorder early_recorder 4%nat (order 12 rain_yes SideBuy "100" "0.47"));
    [exact recorder_built|apply NewRecorder_sealed; evaluate|reflexivity|evaluate| |].
  - change ([yes_book; no_book] ≡ₚ [no_book; yes_book]). apply perm_swap.
  - reflexivity.
Defined.

Lemma book_at_agrees_witness : exists b, BookAt (Some recorder) (clock 12) "rain" rain_yes = Ok b /\
  partial_row.(rc_BookSourceKey) = b.(br_SourceKey) /\ (b.(br_AvailableAt).(instant) <= (clock 12).(instant))%Z.
Proof.
  pose proof (book_at_agrees recorder_input recorder 4 (order 12 rain_yes SideBuy "100" "0.47") partial_row recorder_built
    recorded_days ltac:(evaluate) partial_recorded) as H.
  change (TrimSpace (rin_MarketID (order 12 rain_yes SideBuy "100" "0.47"))) with "rain" in H.
  cbn [order rin_DecisionAt rin_OutcomeID] in H.
  destruct (BookAt (Some recorder) (clock 12) "rain" rain_yes) as [b|e|q]; [|exfalso; by destruct H as [? _]|by exfalso].
  destruct H as (H1 & _ & [_ H2] & _). exists b. exact (conj eq_refl (conj H1 H2)).
Defined.

(** ** A complete set *)

Definition set_input : CompleteSet.Input :=
  CompleteSet.MkInput (Some recorder) " rain-set" "rain" [rain_no; rain_yes]
    [CompleteSet.MkLegBinding rain_no 2 3; CompleteSet.MkLegBinding rain_yes 0 1] "10" "1" "10" "0.5".

Definition set_rows : CompleteSet.candidateCanonical.
Proof.
  let r := eval vm_compute in (CompleteSet.NewCandidate set_input) in
  lazymatch r with Ok (CompleteSet.MkCandidate ?c _ _ _) => exact c end.
Defined.
Definition set_hash : string := Eval vm_compute in hash (CompleteSet.marshal_candidate set_rows).
Definition set_uuid : UUID :=
  Eval vm_compute in DeterministicUUID "complete-set-arbitrage" [(CompleteSet.SchemaV1 +:+ "@sha256:" +:+ set_hash)%string].
Definition set_candidate : CompleteSet.Candidate :=
  CompleteSet.MkCandidate set_rows (CompleteSet.marshal_candidate set_rows) set_hash set_uuid.

Lemma set_built : CompleteSet.NewCandidate set_input = Ok set_candidate.
Proof. evaluate. Qed.

(** Buying both outcomes costs 8.61; the set pays 10, and the worst orphan loses 0.62. *)
Lemma qualified_guarded_witness :
  (num "0.5" < num "10" * num "1" - cost_of set_rows.(CompleteSet.cc_Legs))%Q /\
  exists leg, leg ∈ set_rows.(CompleteSet.cc_Legs) /\
    (cost_of set_rows.(CompleteSet.cc_Legs) + orphan_loss [leg] <= num "10")%Q /\
    (num "0.5" < num "10" * num "1" - cost_of set_rows.(CompleteSet.cc_Legs) - orphan_loss [leg])%Q.
Proof.
  destruct (qualified_guarded set_input set_candidate) as (r & decision & _ & _ & _ & _ & _ & _ & H1 & H2);
    [exact set_built|reflexivity|]. split; [exact H1|].
  cbn [set_candidate CompleteSet.cand_canonical] in H2. unfold set_rows in H2 |- *. cbn [CompleteSet.cc_Legs] in H2 |- *.
  match goal with |- exists leg, leg ∈ ?a :: ?l /\ _ => exists a; specialize (H2 [a]) end.
  split; [by left|]. apply H2; [|discriminate|discriminate].
  cbn. by repeat first [by left|right].
Defined.


(** ** Maker quotes *)

Definition quote_input (price : string) : MakerQuote.Input :=
  MakerQuote.MkInput (Some recorder) "rain-bid" "rain" rain_yes SideBuy (clock 10) price "6" "1" "0" "10" "0.001" "0.05"
    [MakerQuote.MkScenarioInput "slow" "0.5" (clock 1810) "12"; MakerQuote.MkScenarioInput "busy" "0.5" (clock 1810) "40"].

Definition quote_rows : MakerQuote.candidateCanonical.
Proof.
  let r := eval vm_compute in (MakerQuote.NewCandidate (quote_input "0.44")) in
  lazymatch r with Ok (MakerQuote.MkCandidate ?c _ _ _) => exact c end.
Defined.
Definition quote_hash : string := Eval vm_compute in hash (MakerQuote.marshal_candidate quote_rows).
Definition quote_uuid : UUID :=
  Eval vm_compute in DeterministicUUID "maker-quote-evaluation" [(MakerQuote.SchemaV1 +:+ "@sha256:" +:+ quote_hash)%string].
Definition quote_candidate : MakerQuote.Candidate :=
  MakerQuote.MkCandidate quote_rows (MakerQuote.marshal_candidate quote_rows) quote_hash quote_uuid.

Lemma quote_built : MakerQuote.NewCandidate (quote_input "0.44") = Ok quote_candidate.
Proof. evaluate. Qed.

Lemma quote_qualified_witness :
  (exists row, row ∈ quote_rows.(MakerQuote.mc_Scenarios) /\ 0 < num row.(MakerQuote.sc_FilledQuantity))%Q /\
  (num "0.05" < num quote_rows.(MakerQuote.mc_ExpectedNetCapture))%Q.
Proof.
  destruct (quote_qualified (quote_input "0.44") quote_candidate) as (r & p & _ & _ & H1 & _ & _ & _ & H2);
    [exact quote_built|reflexivity|]. exact (conj H1 H2).
Defined.

(** A quote away from the inside of the book is recorded without scenarios. *)
Definition away_rows : MakerQuote.candidateCanonical.
Proof.
  let r := eval vm_compute in (MakerQuote.NewCandidate (quote_input "0.43")) in
  lazymatch r with Ok (MakerQuote.MkCandidate ?c _ _ _) => exact c end.
Defined.
Definition away_hash : string := Eval vm_compute in hash (MakerQuote.marshal_candidate away_rows).
Definition away_candidate : MakerQuote.Candidate :=
  MakerQuote.MkCandidate away_rows (MakerQuote.marshal_candidate away_rows) away_hash
    (DeterministicUUID "maker-quote-evaluation" [(MakerQuote.SchemaV1 +:+ "@sha256:" +:+ away_hash)%string]).

Lemma away_built : MakerQuote.NewCandidate (quote_input "0.43") = Ok away_candidate.
Proof. evaluate. Qed.

Definition away_decode (raw : string) : option (MakerQuote.candidateCanonical * string) :=
  if raw ==? away_candidate.(MakerQuote.cand_bytes) then Some (away_rows, EmptyString) else None.

Lemma rejected_quote_not_restored_witness : away_rows.(MakerQuote.mc_Reason) = "invalid_quote" /\
  ~ exists c, MakerQuote.FromCanonical away_decode away_candidate.(MakerQuote.cand_id) away_candidate.(MakerQuote.cand_digest)
                away_candidate.(MakerQuote.cand_bytes) (Some recorder) = Ok c.
Proof.
  split; [reflexivity|]. intros [c Hc].
  refine (rejected_quote_not_restored away_decode (quote_input "0.43") away_candidate EmptyString away_built eq_refl _ c Hc).
  unfold away_decode. by rewrite eq_self.
Defined.
