(* ===== verification/CapitalWitnesses.v ===== *)
(** * The capital properties at work

    The account of the worked session is bound to the reviewed policy; its
    projection becomes a capital state, a purchase is assessed and the replay
    matrix is run. Each property of the capital files is applied here. *)

From S2P Require Import Prelude GoStd GoTime Externals Instances EconomicId Account Instrument.
From S2P Require Import Decimals Projection ProjectionPayload.
From S2P Require Import CapitalPolicy CapitalState CapitalAssessment CapitalMatrix.
From S2P Require Import CapitalPolicyProofs CapitalStateProofs CapitalAssessmentProofs CapitalMatrixProofs.
From S2P Require Import Scenario.

Local Open Scope go_scope.
Local Open Scope Q_scope.

(** ** Policy and artifact *)

(** The reviewed input with its slices reversed. *)
Definition shuffled_input : PolicyInput := {|
  polin_Schema := PolicySchemaV1; polin_Currency := "USD"; polin_Scale := 12;
  polin_Tiers := reverse reviewedCapitalTiers; polin_Profiles := reverse reviewedProfiles |}.

Definition policy : Policy.
Proof. built_by (NewPolicy shuffled_input). Defined.

Lemma policy_built : NewPolicy shuffled_input = Ok policy.
Proof. evaluate. Qed.

Lemma policy_contract_witness : reviewed_policy policy.
Proof. apply (proj2 (policy_contract shuffled_input)). exact policy_built. Defined.

Definition decode_policy (raw : string) : option (canonicalPolicy * string) :=
  if raw ==? policy.(pol_canonicalBytes)
  then Some (canonical_policy shuffled_input policy.(pol_tiers) policy.(pol_profiles), "") else None.

Lemma artifact_roundtrip_witness :
  exists a p', NewArtifact (clock 0) (Some policy) (clock 1) = Ok a /\ PolicyFromArtifact decode_policy a = Ok p' /\
    p'.(pol_canonicalBytes) = policy.(pol_canonicalBytes).
Proof.
  destruct (artifact_roundtrip decode_policy (clock 0) shuffled_input policy (clock 1) "") as (a & p' & Ha & Hp & _ & _ & Hb).
  - exact policy_built.
  - apply (bool_decide_eq_false_1 _). evaluate.
  - evaluate.
  - evaluate.
  - evaluate.
  - exists a, p'. split; [exact Ha|]. split; [exact Hp|exact Hb].
Defined.

(** ** State *)

Definition binding : Binding.
Proof. built_by (NewBinding (clock 0) account (Some policy) (units 25000) MarginProfileCash (clock 0)). Defined.

(** The fields [encoding/json] decodes from the payload of a projection. *)
Definition capital_payload (p : PortfolioProjection) : projectionCapitalPayload := {|
  pcp_CheckpointID := uuid_string p.(proj_CheckpointID); pcp_AccountID := uuid_string p.(proj_AccountID);
  pcp_BaseCurrency := p.(proj_BaseCurrency); pcp_AsOf := formatCapitalTime p.(proj_AsOf);
  pcp_Positions := (fun q => MkPayloadPosition (uuid_string q.(pos_InstrumentID)) q.(pos_Open)
                      (DecimalString q.(pos_Quantity)) (DecimalString q.(pos_MarketValue))) <$> p.(proj_Positions);
  pcp_Totals_Cash := DecimalString p.(proj_Totals).(tot_Cash);
  pcp_Totals_MarketValue := DecimalString p.(proj_Totals).(tot_MarketValue);
  pcp_Totals_Equity := DecimalString p.(proj_Totals).(tot_Equity) |}.

Definition decode_payload (raw : string) : option (projectionCapitalPayload * string) :=
  if raw ==? projection.(proj_PayloadBytes) then Some (capital_payload projection, "") else None.

Definition state : State.
Proof. built_by (StateFromProjection decode_payload account binding (Some policy) (Some projection) [etf]). Defined.

Lemma state_built : StateFromProjection decode_payload account binding (Some policy) (Some projection) [etf] = Ok state.
Proof. evaluate. Qed.

Lemma capital_state_exposure_witness :
  val state.(st_equity) == val state.(st_cash) + val state.(st_longExposure) - val state.(st_shortExposure).
Proof.
  apply (capital_state_exposure decode_payload shuffled_input policy account binding projection [etf] state policy_built state_built).
Defined.

Definition decode_state (raw : string) : option (canonicalState * string) :=
  if raw ==? state.(st_canonicalBytes) then Some (state_canonical state, "") else None.

Lemma capital_state_roundtrip_witness :
  exists s', StateFromCanonical decode_state state.(st_id) state.(st_hash) state.(st_canonicalBytes) account binding (Some policy)
             = Ok s' /\ s'.(st_canonicalBytes) = state.(st_canonicalBytes).
Proof.
  destruct (capital_state_roundtrip decode_state state account binding (Some policy) "") as (s' & Hs & _ & _ & Hb & _).
  - evaluate.
  - by vm_compute.
  - evaluate.
  - evaluate.
  - exists s'. split; [exact Hs|exact Hb].
Defined.

(** ** Assessment *)

Definition purchase (notional : dec) : AssessmentInput := {|
  ain_Account := account; ain_Binding := binding; ain_Policy := Some policy; ain_State := Some state;
  ain_Instrument := etf; ain_Currency := "USD"; ain_ScenarioID := "session"; ain_Direction := ExposureIncreaseLong;
  ain_ProposedNotional := notional |}.

Definition small : Assessment.
Proof. built_by (Assess (purchase (amount 100050 2))). Defined.
Definition excessive : Assessment.
Proof. built_by (Assess (purchase (units 20000))). Defined.

Example decisions :
  (small.(as_Decision), small.(as_Reason)) = (DecisionAdmitted, ReasonAdmitted) /\
  (excessive.(as_Decision), excessive.(as_Reason)) = (DecisionRejected, ReasonInsufficientSettledCash).
Proof. split; evaluate. Qed.

Lemma assess_admission_witness : Assessment_PromotionEligible (Some small) = true.
Proof.
  destruct (assess_admission shuffled_input policy (purchase (amount 100050 2)) small) as (s & r & _ & Hr & Hn & _ & _ & Hp & _).
  - exact policy_built.
  - reflexivity.
  - evaluate.
  - rewrite Hp. unfold reviewedProfiles in Hr. rewrite !elem_of_cons in Hr.
    destruct Hr as [-> |[-> |[-> |[-> |Hr]]]]; [reflexivity|discriminate Hn..|by apply elem_of_nil in Hr].
Defined.

Lemma buying_power_exact_witness : excessive.(as_Decision) = DecisionRejected.
Proof.
  apply (buying_power_exact shuffled_input policy (purchase (units 20000)) excessive policy_built eq_refl).
  - evaluate.
  - evaluate.
  - apply (bool_decide_eq_false_1 _). evaluate.
  - evaluate.
  - vm_compute. reflexivity.
Defined.

Lemma assess_total_witness : exists r m,
  let '(decision, reason) := admission r state ExposureIncreaseLong (val (units 20000)) in
  let a := sealed (assessment_of (purchase (units 20000)) m decision reason r.(prof_Unlimited)) in
  Assess (purchase (units 20000)) = Ok a \/ a.(as_ID) = Nil.
Proof.
  destruct (assess_total shuffled_input policy (purchase (units 20000)) state policy_built eq_refl eq_refl) as (r & m & _ & _ & _ & Ha).
  - evaluate.
  - by vm_compute.
  - by vm_compute.
  - by vm_compute.
  - by vm_compute.
  - exists r, m. exact Ha.
Defined.

(** ** Matrix *)

Definition spec : MatrixSpec := {|
  spec_ScenarioID := "session-matrix"; spec_MarketInputDigest := EncodeToString (Sum256 "market");
  spec_SimulationPolicyVersion := "sim-v1"; spec_Seed := 7; spec_AsOf := projection.(proj_AsOf) |}.

(** The session's projection restated for another account; its payload text
    names that account. *)
Definition restated (accountID : UUID) : PortfolioProjection :=
  let p := {|
    proj_CheckpointID := projection.(proj_CheckpointID); proj_ProjectionType := projection.(proj_ProjectionType);
    proj_Version := projection.(proj_Version); proj_FIFO := projection.(proj_FIFO); proj_AccountID := accountID;
    proj_BaseCurrency := projection.(proj_BaseCurrency); proj_AsOf := projection.(proj_AsOf);
    proj_MarkSource := projection.(proj_MarkSource); proj_MarkNamespace := projection.(proj_MarkNamespace);
    proj_MaxMarkAge := projection.(proj_MaxMarkAge);
    proj_ThroughTransactionID := projection.(proj_ThroughTransactionID);
    proj_TransactionCount := projection.(proj_TransactionCount); proj_InputChecksum := projection.(proj_InputChecksum);
    proj_OutputChecksum := ""; proj_Marks := projection.(proj_Marks); proj_Lots := projection.(proj_Lots);
    proj_Matches := projection.(proj_Matches); proj_Positions := projection.(proj_Positions);
    proj_Totals := projection.(proj_Totals); proj_PayloadBytes := "" |} in
  set_payload p (uuid_string accountID).

Definition decode_restated (raw : string) : option (projectionCapitalPayload * string) :=
  accountID ← uuid_parse raw ; Some (capital_payload (restated accountID), "").

Definition scenario (stress_notional : dec) (c : ScenarioContext) : outcome CapitalMatrix.Scenario :=
  Ok {| scen_Projection := Some (restated c.(ctx_Account).(acct_ID)); scen_Instruments := [etf];
        scen_ProposedInstrument := etf; scen_Direction := ExposureIncreaseLong;
        scen_ProposedNotional := if c.(ctx_IsStress) then stress_notional else units 400;
        scen_MarketInputDigest := c.(ctx_Spec).(spec_MarketInputDigest);
        scen_SimulationPolicyVersion := c.(ctx_Spec).(spec_SimulationPolicyVersion);
        scen_Seed := c.(ctx_Spec).(spec_Seed) |}.

Definition fresh_id (n : nat) : UUID := id (N.of_nat n + 1).

Notation run_matrix n :=
  (RunMatrix decode_restated fresh_id (clock 0) spec (Some policy) MarginProfileRegT (Some (scenario (units n)))).

Definition matrix : MatrixResult.
Proof. built_by (run_matrix 1000). Defined.
Definition other_matrix : MatrixResult.
Proof. built_by (run_matrix 90000000). Defined.

Lemma matrix_built : run_matrix 1000 = Ok matrix.
Proof. evaluate. Qed.
Lemma other_matrix_built : run_matrix 90000000 = Ok other_matrix.
Proof. evaluate. Qed.

Lemma matrix_contract_witness : length (ScoredOutcomes (Some matrix)) = 6%nat.
Proof.
  apply (matrix_contract decode_restated fresh_id (clock 0) spec shuffled_input policy MarginProfileRegT
           (scenario (units 1000)) matrix policy_built matrix_built).
Defined.

Lemma matrix_scored_isolated_witness : ScoredHash (Some matrix) = ScoredHash (Some other_matrix).
Proof.
  apply (matrix_scored_isolated decode_restated fresh_id (clock 0) spec shuffled_input policy
           MarginProfileRegT (scenario (units 1000)) (scenario (units 90000000)) matrix other_matrix policy_built).
  - intros c Hc. unfold scenario. by rewrite Hc.
  - exact matrix_built.
  - exact other_matrix_built.
Defined.
