(* ===== verification/Findings.v ===== *)
(** * Behaviours worth knowing

    Three places where the code does less, or something else, than its
    neighbours or its comments say, shown on the worked session. *)

From S2P Require Import Prelude GoStd Externals Instances Account Instrument Transaction SourceEvent Normalization.
From S2P Require Import Projection ProjectionPayload ProjectionTheorems Snapshot Lifecycle LifecycleAggregate.
From S2P Require Import LifecycleTheorems Scenario.

Local Open Scope go_scope.

Definition is_err {A} (m : outcome A) : bool := match m with Err _ => true | _ => false end.

(** ** The binding of an immediate fill is not compared with the order's venue *)

Definition t_immediate : Transition.
Proof. built_by (RecordFill (clock 22) (clock 22) (Some routed) (record first_fill "fill-1" (clock 22))). Defined.

Definition other_venue (b : OrderBinding) : OrderBinding :=
  MkOrderBinding b.(bind_ID) b.(bind_OrderID) b.(bind_AccountID) "elsewhere" b.(bind_ExternalOrderID) b.(bind_CreatedAt).
Definition t_foreign : Transition :=
  MkTransition t_immediate.(tr_Event) None (other_venue <$> t_immediate.(tr_Binding)) t_immediate.(tr_Fill)
    t_immediate.(tr_Normalization).
Definition t_foreign_ack : Transition :=
  MkTransition t_acknowledge.(tr_Event) None (other_venue <$> t_acknowledge.(tr_Binding)) None None.

(** [ApplyTransition] rejects an acknowledgement bound to another venue and
    accepts an immediate fill bound to it (aggregate.go, 150-153 and 205-206). *)
Theorem immediate_fill_binding_unchecked :
  is_err (ApplyTransition (Some routed) (Some t_foreign_ack)) = true /\
  (a ← ApplyTransition (Some routed) (Some t_foreign) ; Ok (bind_Venue <$> a.(agg_Binding))) = Ok (Some "elsewhere") /\
  order_Venue <$> routed.(agg_Order) = Some "xpaper".
Proof. repeat split; evaluate. Qed.

(** ** A fill transition without its source event is dereferenced *)

Definition without_source (n : EconomicNormalization) : EconomicNormalization :=
  {| norm_ID := n.(norm_ID); norm_SourceEvent := None; norm_Account := n.(norm_Account);
     norm_EventType := n.(norm_EventType); norm_NormalizerVersion := n.(norm_NormalizerVersion);
     norm_ExecutionOriginType := n.(norm_ExecutionOriginType); norm_ExecutionOriginID := n.(norm_ExecutionOriginID);
     norm_ReferenceType := n.(norm_ReferenceType); norm_ReferenceID := n.(norm_ReferenceID);
     norm_Venue := n.(norm_Venue); norm_Instrument := n.(norm_Instrument);
     norm_SecondaryInstrument := n.(norm_SecondaryInstrument); norm_VenueContract := n.(norm_VenueContract);
     norm_OptionTerms := n.(norm_OptionTerms); norm_EffectiveAt := n.(norm_EffectiveAt);
     norm_CashCurrency := n.(norm_CashCurrency); norm_Quantity := n.(norm_Quantity); norm_Price := n.(norm_Price);
     norm_CostKind := n.(norm_CostKind); norm_CostCurrency := n.(norm_CostCurrency);
     norm_CostAmount := n.(norm_CostAmount); norm_PositionQuantity := n.(norm_PositionQuantity);
     norm_SettlementPrice := n.(norm_SettlementPrice); norm_Transaction := n.(norm_Transaction);
     norm_CreatedAt := n.(norm_CreatedAt) |}.

(** [ApplyTransition] dereferences the source event of the normalization it is
    given without a nil check (fill.go, validateFillNormalization). *)
Theorem fill_without_source_panics :
  ApplyTransition (Some routed)
    (Some (MkTransition t_immediate.(tr_Event) None t_immediate.(tr_Binding) t_immediate.(tr_Fill)
             (without_source <$> t_immediate.(tr_Normalization)))) = Panic NilDereference.
Proof. evaluate. Qed.

(** ** Marks after the as-of time are validated *)

Definition unsourced_mark : MarkObservation :=
  MkMarkObservation future_mark.(mark_ID) future_mark.(mark_InstrumentID) future_mark.(mark_Price) "USD" "" "nbbo" "m-3" ""
    future_mark.(mark_EffectiveAt) future_mark.(mark_ObservedAt) "{}" future_mark.(mark_CreatedAt).

(** A malformed mark observed after the as-of time makes the build fail,
    although "candidate rows after AsOf are accepted" (projection.go, 38), as a
    malformed transaction after the as-of time is. *)
Theorem future_mark_rejected :
  is_err (BuildPortfolioProjection (with_rows projection_input ledger [Some close_mark; Some unsourced_mark])) = true /\
  (p ← BuildPortfolioProjection (with_rows projection_input
         (Some (MkTransaction Nil Nil "" "" "" "" "" "" (clock 70) (clock 70) "" [] (clock 70)) :: ledger)
         [Some close_mark]) ; Ok p.(proj_TransactionCount)) = Ok 4%nat.
Proof. repeat split; evaluate. Qed.
